(* ===== verification/_CoqProject ===== *)
-Q . S2P
Prelude.v
PyDecimal.v
Symbolic.v
Sha256.v
Uuid5.v
Clock.v
Json.v
JsonLoads.v
ConsensusPorts.v
Gate.v
ConsensusHelpers.v
ConsensusFacts.v
Weighted.v
EvidenceWeighted.v
ConstraintAware.v
Orchestrator.v
ConsensusExamples.v
Ledger.v
Lifecycle.v
LedgerExamples.v
LifecycleExamples.v
Coordinator.v
Budget.v
OrchestratorPolicy.v
AgentRuntime.v
Dispatch.v
DispatchRuns.v
Marl.v
MarlStore.v
MarlBundle.v
MarlVerify.v
MarlRoundTrip.v
MarlExamples.v
MarlBundleExamples.v
Replay.v
ReplayService.v
ReplayFacts.v
ReplayExamples.v
Adapters.v
RunManifest.v
RunManifestFacts.v
RunManifestExamples.v
Mcp.v
McpGateway.v
McpCalls.v
McpFacts.v
Cursor.v
ReasoningGraph.v
GraphFacts.v
DecimalText.v
Artifacts.v
ArtifactFacts.v
ArtifactSchema.v
SchemaFacts.v
ArtifactCommit.v
CommitFacts.v
ArtifactLedger.v
ArtifactHistory.v
ArtifactExamples.v
Metrics.v
MetricDefinitions.v
MetricFacts.v
SourceImpact.v
ImpactPaths.v
ImpactSearch.v
ImpactClosure.v
ImpactFacts.v
ImpactReports.v
RetractionFacts.v
ImpactExamples.v
CoordinatorExamples.v
McpExamples.v
EventBus.v
AdapterExamples.v
