(* ===== verification/Prelude.v ===== *)
(** * Agora: a verified model of the decision core

    Agora runs sessions in which software agents take positions on alternatives
    and a coordinator turns them into a recorded, reproducible decision.  The
    repository's Python code is under [src/backend/app]; this library translates
    the part of it that decides, records and controls, and proves what makes that
    part correct.  Definitions keep the names of the source; a function that can
    raise returns [res], a method that changes an object is a program of [ST].

    ** Parts and files

    Shared ground.
    - [Prelude] (this file): exceptions, the two monads, dictionaries, stable
      sorting, strings, and the lemmas and hints the other files use.
    - [PyDecimal]: [decimal.Decimal] under the default context, 28 digits and
      ties to even, with the facts about rounding and order that totality needs.
    - [Sha256], [Uuid5], [Clock]: [hashlib.sha256], [uuid.uuid5] (SHA-1),
      [datetime.strftime] on UTC.
    - [Json]: [_canonical] and [content_hash] of [domain/reasoning.py];
      [JsonLoads]: [json.loads], with its round trip.

    Consensus ([ports/consensus.py], [domain/consensus.py],
    [application/consensus.py], [ports/symbolic.py],
    [domain/symbolic_unknown_policy.py]).
    - [Symbolic]: solver results and the policy for UNKNOWN.
    - [ConsensusPorts]: the values strategies read and return, with their
      validators; [Gate]: the feasibility gate and the durable run record.
    - [ConsensusHelpers], [ConsensusFacts]: what the strategies share, and the
      contract of a result.
    - [Weighted], [EvidenceWeighted], [ConstraintAware]: the three strategies,
      stage by stage as [evaluate] runs them.
    - [Orchestrator]: the strategy interface, the registry and [run].
      [StrategyLaws] states what a strategy promises, the three strategies are
      its instances, and the theorems about [run] use only the laws.
    - [ConsensusExamples]: every theorem applied to concrete contexts.

    Recording and control.
    - [Ledger] ([domain/reasoning_ledger.py], [db/reasoning_ledger.py]): the
      hash-chained event log over its two tables.
    - [Lifecycle] ([domain/session_lifecycle.py],
      [adapters/inmemory/session_lifecycle.py], [domain/session_control.py],
      [application/session_control.py]): the state graph, the projection, the
      in-memory store over any ledger ([LedgerPort], [LedgerLaws]; the SQL ledger
      is an instance) and the control requests.
    - [Coordinator], [Budget] ([domain/coordinator_policy.py],
      [application/coordinator_policy.py], [db/coordinator_policy.py]): who takes
      part in which round, and the ceilings that end a session.
    - [OrchestratorPolicy] ([domain/orchestrator_proposal.py],
      [application/orchestrator_policy.py]): the decision table for proposals and
      the decision recorded in the ledger.
    - [Adapters], [EventBus] ([adapters/inmemory]): cache, object store, bus.

    Agents and tools.
    - [AgentRuntime], [Dispatch], [DispatchRuns] ([ports/agent_runtime.py],
      [application/agent_dispatch.py]): a batch of turns run by a bounded pool of
      workers, as the interleavings of its steps; [DispatchRuns] keeps the log of
      a run, in which each call of the runtime ends as it may.
    - [Mcp], [McpGateway], [McpCalls], [McpFacts] ([domain/mcp.py],
      [ports/mcp.py], [application/mcp_gateway.py],
      [application/mcp_context.py]): the values of the tool gateway, the checks a
      call passes, [invoke] as steps of an event loop.  [ContextAuthority] is the
      interface of the authority; the coordinator's membership is its instance.

    Reasoning graph and source impact.
    - [Cursor], [ReasoningGraph], [GraphFacts] ([domain/reasoning_graph.py],
      [db/reasoning_graph.py]): nodes, edges, the recursive query as levels of
      simple paths, pages and their cursors.
    - [SourceImpact] ([domain/source_impact.py],
      [application/source_impact.py], [db/source_impact.py], the retraction of
      [db/citations.py]); [ImpactPaths] (depths and path counts), [ImpactSearch]
      and [ImpactClosure] (the search from one citation), [ImpactFacts] and
      [ImpactReports] (the whole analysis), [RetractionFacts].

    Reasoning artifacts.
    - [DecimalText], [Artifacts], [ArtifactFacts] ([domain/reasoning.py]): the
      decimal texts, the fourteen kinds of artifact with their validators, the
      dumped JSON and the content hash.  [StrEnum] is the class of the
      vocabularies.
    - [ArtifactSchema], [SchemaFacts]
      ([alembic/versions/20260905_0005_reasoning_schema.py]): the check
      constraints of the artifact table, in SQL's three-valued logic, against the
      domain's validation.
    - [ArtifactCommit], [CommitFacts], [ArtifactLedger], [ArtifactHistory]
      ([application/artifact_commit.py], [db/reasoning_artifacts.py],
      [composition/container.py], the triggers of migrations 0005, 0006 and 0019):
      commit, revision and withdrawal over artifact table, graph and ledger in
      one transaction, the events by which the ledger records the table, and the
      history they leave.

    Metrics ([ports/metrics.py], [domain/metrics.py],
    [application/metrics.py]): [Metrics] (admission rules, inputs, values and the
    catalogue), [MetricDefinitions] (the shipped definitions), [MetricFacts].

    Learning trajectories ([domain/marl.py], [adapters/inmemory/marl.py],
    [application/marl.py]): [Marl] (records), [MarlStore] (the store),
    [MarlBundle] (rewards and export), [MarlVerify] (verification and replay),
    [MarlRoundTrip] (what is exported verifies).

    Replay ([domain/replay.py], [application/replay.py],
    [domain/run_manifest.py], [application/run_manifest.py],
    [db/run_manifest.py]): [Replay], [ReplayService], [ReplayFacts],
    [RunManifest], [RunManifestFacts].  [LedgerReader] is what the replay needs of
    a ledger; the SQL ledger is its instance.

    The files [*Examples] hold concrete states for the theorems, and the examples
    that show behaviours a reader would not expect.

    ** How state corresponds to the code

    A table is the list of its rows in insertion order, or a finite map where it
    is only read by key; a [select] is a filter, [order_by] a stable sort, a
    transaction one program of [ST].  Operations of one component run one at a
    time: locks and row locks are what makes the code do so, and are left out.
    Rows are read as the values the mappers build.  A Python [dict] whose order is
    observed is an association list, otherwise a [gmap]; the order of a [set] is
    the class [SetIter], so nothing depends on it.  UUIDs are 128-bit numbers,
    strings are their UTF-8 bytes, bytes 8-bit characters, datetimes carry their offset,
    integers are unbounded as in Python.  Exceptions carry their class and a
    message; where a message only repeats its arguments it may be shortened.

    ** What the theorems show

    - Selection is safe: nothing infeasible is selected, full consensus needs
      every position and no open blocking critique, INFEASIBLE and CONDITIONAL
      mean exactly what they say, dissent is complete, ranks are a stable sort.
    - Strategies are total on validated contexts: division, rounding, empty
      lists and the undominated set never make them fail.  The hypotheses name
      what validation does not check.
    - The ledger: every append keeps a verified chain, verification is exactly
      being a chain, equal heads mean equal events up to a SHA-256 collision.
    - Lifecycles: the graph, consistency of every projection that timely commands
      reach and of no other, atomic and idempotent commands, agreement of the two
      control checks.
    - Membership: a request edits exactly the members of its round and of every
      later one; history does not change; repeats are recognised.  Budgets: the
      check passes exactly below the ceilings, a reached one ends the session by
      one event and nothing else, exhaustion is final and monotone, dispatch is
      guarded.
    - Proposals: one rule per proposal, one recorded event, nothing applied.
    - Adapters: gapless logs, one consumer chosen per group and none besides,
      fixed windows, content-addressed reads.
    - Dispatch: every interleaving of the pool ends, answers, runs each turn once
      and gives what running the turns one after the other gives.
    - Tools: at most one upstream call per operation, none unauthorized, answers
      checked and, up to 1024 calls, shared by callers that are not cancelled, no
      caller left waiting.
    - Graph: a traversal is exact within its depth and complete unless it is
      reported as truncated, its pages cover it, cursors
      are bound to their query.  Impact: the analysis finds exactly what depends
      on a source, with distances and numbers of routes, and a retraction is
      published once.
    - Artifacts: decimal texts in ASCII are canonical, validation is stable and
      the accepted hash is the computed one, the database accepts what the domain
      validates (with RFC identifiers and ASCII decimals); whatever calls are
      made, the three stores agree and the ledger has one event for each row and
      each withdrawal, every logical artifact has a linear, gapless history, and
      a call changes exactly what its operation says or nothing.
    - Metrics: a catalogue exists exactly for definitions with distinct ids, its
      lookup is exact and its dimensions partition it; the shipped definitions are
      admissible; an input document is accepted exactly when it is finite and
      nested at most 64 deep.
    - Learning: conserved credits, append-only episodes, exported bundles of
      checkable episodes verify, and what verifies is genuine.
    - Replay: a strict replay verifies exactly what reproduces, a tolerant one
      reports exactly what differs where every deterministic step permits it, a
      replay ends in an answer or in the error of a report it cannot build, a
      finalized run is final and, with distinct step orders, loads as it was
      finalized.

    ** Bounds and fuel

    Recursion on fuel is used for printing numbers (fuel: the size in bits),
    splitting messages into blocks (fuel: the message length), counting digits
    (fuel: the logarithm) and reading a glob (fuel: the pattern's length); each
    is enough because every step consumes at least one unit, and the examples
    beside the definitions evaluate them.  [JsonLoads] reads on the length of the
    text.  The loops of the services carry a bound that a theorem shows to be
    enough: the batched read of a ledger one more than its events, the pages of a
    traversal ([Graph.follow]) one more than its members, the breadth-first search
    one more than the edges, [iterate] two to the power of its argument for the
    count of paths, the search for impact ([Impact.expand]) one more than the
    square of the nodes.  A metric's input document is read to 66 levels,
    past the depth at which the check raises ([closed_json_iff]).  SHA-256 and
    SHA-1 compute on the 63-bit machine integers
    of the kernel.  Decimal exponents beyond the context's limits and non-finite
    decimals are outside the model.

    ** Not modelled

    Critique rounds, audit and explanation, formalization, retrieval, ingestion,
    memory, simulation: services over the stores modelled here.
    External services, HTTP routes, wiring, transports, the user interface, the
    scripts and the tests: input and output, or calls into libraries.  Of what is
    modelled: how third-party libraries write datetimes and read bytes, the
    verification of tokens, and the calls of models, tools and solvers are
    arguments; rounding of floating-point timeouts, the columns' integer widths
    and row locks are left out; white space and letters are those of ASCII, the
    decimal digits those of every script of Unicode. *)

From Stdlib Require Export ZArith Lia Ascii String.
From stdpp Require Export base tactics gmap strings sorting option list.

(** ** Exceptions and the error monad

    A Python call either returns a value or raises.  [exn] carries the class of
    the exception and its message; an [except] clause is a match on the classes
    it catches. *)

Inductive exn_class : Type :=
| ValueErrorC
| KeyErrorC
| TypeErrorC
| IndexErrorC
| AttributeErrorC
| AssertionErrorC
| RuntimeErrorC
| InvalidOperationC
| ZeroDivisionC
| ValidationErrorC
| ConsensusErrorC
| InvalidSessionTransitionC
| LedgerIntegrityErrorC
| PermanentPortErrorC
| TransientPortErrorC
| NotFoundObjectErrorC
| IntegrityObjectErrorC
| WorkflowUnreachableC
| MarlDomainErrorC
| MarlConflictErrorC
| OverflowErrorC
| LookupErrorC
| ReferenceErrorC
| RunManifestConflictC
| IntegrityErrorC
| CitationErrorC
| InvalidWorkloadTokenC
| MCPContextAuthorizationC
| ValidationFailedC
| ArtifactCommitErrorC
| MetricCatalogueErrorC
| UnknownMetricIdC
| UnknownMetricVersionC.

#[export] Instance exn_class_eq_dec : EqDecision exn_class.
Proof. solve_decision. Defined.

Record exn : Type := Exn { exn_cls : exn_class; exn_msg : string }.

#[export] Instance exn_eq_dec : EqDecision exn.
Proof. solve_decision. Defined.

Inductive res (A : Type) : Type :=
| Ok (a : A)
| Raise (e : exn).
Arguments Ok {A} a.
Arguments Raise {A} e.

#[export] Instance res_eq_dec `{EqDecision A} : EqDecision (res A).
Proof. solve_decision. Defined.

#[export] Instance res_ret : MRet res := fun A a => Ok a.
#[export] Instance res_bind : MBind res := fun A B f m =>
  match m with Ok a => f a | Raise e => Raise e end.
#[export] Instance res_fmap : FMap res := fun A B f m =>
  match m with Ok a => Ok (f a) | Raise e => Raise e end.

Definition raise {A} (c : exn_class) (msg : string) : res A := Raise (Exn c msg).

(** [if cond: raise c(msg)] *)
Definition guard_not (cond : bool) (c : exn_class) (msg : string) : res unit :=
  if cond then raise c msg else Ok tt.

Definition is_ok {A} (m : res A) : bool :=
  match m with Ok _ => true | Raise _ => false end.

Definition res_of_option {A} (c : exn_class) (msg : string) (o : option A) : res A :=
  match o with Some a => Ok a | None => raise c msg end.

Section mapR.
Context {A B : Type} (f : A -> res B).

Fixpoint mapR (l : list A) : res (list B) :=
  match l with
  | [] => Ok []
  | x :: xs => y ← f x; ys ← mapR xs; Ok (y :: ys)
  end.

End mapR.

Fixpoint foldR {A S} (f : S -> A -> res S) (s : S) (l : list A) : res S :=
  match l with
  | [] => Ok s
  | x :: xs => s' ← f s x; foldR f s' xs
  end.

(** ** The state-and-exception monad

    A coroutine method of an adapter: it reads and writes the adapter's state
    and may raise; what was written before the exception stays written. *)

Definition ST (S A : Type) : Type := S -> S * res A.

#[export] Instance ST_ret {S} : MRet (ST S) := fun A a s => (s, Ok a).
#[export] Instance ST_bind {S} : MBind (ST S) := fun A B f m s =>
  match m s with
  | (s', Ok a) => f a s'
  | (s', Raise e) => (s', Raise e)
  end.

Definition get_st {S} : ST S S := fun s => (s, Ok s).
Definition put_st {S} (s : S) : ST S unit := fun _ => (s, Ok tt).
Definition lift_res {S A} (m : res A) : ST S A := fun s => (s, m).
Definition raise_st {S A} (c : exn_class) (msg : string) : ST S A :=
  lift_res (raise c msg).

(** ** Scalars *)

(** A UUID by its 128-bit integer; a datetime by its local reading in
    microseconds and, when it is aware, its UTC offset in microseconds. *)
Abbreviation uuid := N.

Record datetime : Type := DateTime { dt_local : Z; dt_offset : option Z }.

#[export] Instance datetime_eq_dec : EqDecision datetime.
Proof. solve_decision. Defined.

Definition dt_utc (t : datetime) : Z := dt_local t - default 0%Z (dt_offset t).

Definition utc_datetime (micros : Z) : datetime := DateTime micros (Some 0%Z).

(** ** Strings

    A Python [str] is the Rocq [string] of its UTF-8 text; the functions below are
    [str]'s on ASCII characters, and [ascii_digits] reads the decimal digits of
    the other scripts, which [int], [Decimal] and the pattern [\d] accept too. *)

Definition char_in (lo hi : nat) (c : Ascii.ascii) : bool :=
  let n := Ascii.nat_of_ascii c in (lo <=? n)%nat && (n <=? hi)%nat.

Definition is_space (c : Ascii.ascii) : bool := char_in 9 13 c || char_in 28 32 c.
Definition is_digit (c : Ascii.ascii) : bool := char_in 48 57 c.
Definition is_upper (c : Ascii.ascii) : bool := char_in 65 90 c.
Definition is_lower (c : Ascii.ascii) : bool := char_in 97 122 c.
Definition is_alnum (c : Ascii.ascii) : bool := is_digit c || is_upper c || is_lower c.
Definition ascii_char (c : Ascii.ascii) : bool := char_in 0 127 c.

Definition upper_char (c : Ascii.ascii) : Ascii.ascii :=
  if is_lower c then Ascii.ascii_of_nat (Ascii.nat_of_ascii c - 32) else c.
Definition lower_char (c : Ascii.ascii) : Ascii.ascii :=
  if is_upper c then Ascii.ascii_of_nat (Ascii.nat_of_ascii c + 32) else c.

Definition chars (s : string) : list Ascii.ascii := String.list_ascii_of_string s.
Definition unchars (l : list Ascii.ascii) : string := String.string_of_list_ascii l.
Definition map_chars (f : Ascii.ascii -> Ascii.ascii) (s : string) : string :=
  unchars (map f (chars s)).

Definition str_len (s : string) : Z := Z.of_nat (String.length s).

Fixpoint drop_spaces (l : list Ascii.ascii) : list Ascii.ascii :=
  match l with
  | [] => []
  | c :: l' => if is_space c then drop_spaces l' else l
  end.

(** [s.strip()] *)
Definition strip (s : string) : string :=
  unchars (rev (drop_spaces (rev (drop_spaces (chars s))))).

(** [not s.strip()] *)
Definition blank (s : string) : bool := forallb is_space (chars s).

(** The maximal runs of characters not satisfying [sep], in order: with
    [is_space] it is [s.split()]. *)
Fixpoint runs_go (sep : Ascii.ascii -> bool) (cur l : list Ascii.ascii) : list string :=
  match l with
  | [] => match cur with [] => [] | _ => [unchars (rev cur)] end
  | c :: l' =>
      if sep c
      then match cur with [] => runs_go sep [] l' | _ => unchars (rev cur) :: runs_go sep [] l' end
      else runs_go sep (c :: cur) l'
  end.
Definition runs (sep : Ascii.ascii -> bool) (s : string) : list string := runs_go sep [] (chars s).

(** [sep.join(parts)] *)
Definition join (sep : string) (parts : list string) : string := String.concat sep parts.

Definition hex_digit (n : N) : Ascii.ascii :=
  Ascii.ascii_of_N (if (n <? 10)%N then 48 + n else 87 + n)%N.

(** [n] in base [b] on exactly [width] digits, before [acc]. *)
Fixpoint base_go (b : N) (width : nat) (n : N) (acc : string) : string :=
  match width with
  | O => acc
  | S w => base_go b w (n / b)%N (String (hex_digit (n mod b)) acc)
  end.

(** Lower-case hexadecimal, and decimal with leading zeros, on [width] digits. *)
Definition hex (width : nat) (n : N) : string := base_go 16 width n EmptyString.
Definition pad (width : nat) (n : N) : string := base_go 10 width n EmptyString.

(** [str(uuid)] *)
Definition uuid_str (u : uuid) : string :=
  let h := hex 32 u in
  join "-" [String.substring 0 8 h; String.substring 8 4 h; String.substring 12 4 h;
            String.substring 16 4 h; String.substring 20 12 h].

(** The zeros of the scripts with decimal digits, after ASCII, by the length of
    their UTF-8 encoding: category Nd of Unicode 15, the ten digits of a script
    being consecutive. *)
Definition zeros_of_two : list N := [0x660; 0x6F0; 0x7C0]%N.
Definition zeros_of_three : list N :=
  [0x966; 0x9E6; 0xA66; 0xAE6; 0xB66; 0xBE6; 0xC66; 0xCE6; 0xD66; 0xDE6; 0xE50; 0xED0; 0xF20; 0x1040; 0x1090; 0x17E0;
   0x1810; 0x1946; 0x19D0; 0x1A80; 0x1A90; 0x1B50; 0x1BB0; 0x1C40; 0x1C50; 0xA620; 0xA8D0; 0xA900; 0xA9D0; 0xA9F0;
   0xAA50; 0xABF0; 0xFF10]%N.
Definition zeros_of_four : list N :=
  [0x104A0; 0x10D30; 0x11066; 0x110F0; 0x11136; 0x111D0; 0x112F0; 0x11450; 0x114D0; 0x11650; 0x116C0; 0x11730; 0x118E0;
   0x11950; 0x11C50; 0x11D50; 0x11DA0; 0x11F50; 0x16A60; 0x16AC0; 0x16B50; 0x1D7CE; 0x1D7D8; 0x1D7E2; 0x1D7EC; 0x1D7F6;
   0x1E140; 0x1E2F0; 0x1E4F0; 0x1E950; 0x1FBF0]%N.

Definition digit_among (zeros : list N) (code : N) : option N :=
  match List.find (fun z => (z <=? code) && (code <? z + 10))%N zeros with
  | Some z => Some (code - z)%N
  | None => None
  end.

(** The six bits of a continuation byte; [None] for any other byte. *)
Definition tail_bits (c : ascii) : option N :=
  if char_in 128 191 c then Some (N_of_ascii c - 128)%N else None.

(** The digit of another script a text starts with: its length and its value. *)
Definition other_digit (l : list ascii) : option (nat * N) :=
  let found n zeros code := match digit_among zeros code with Some d => Some (n, d) | None => None end in
  match l with
  | a :: b :: l2 =>
      let n := N_of_ascii a in
      match tail_bits b with
      | None => None
      | Some x =>
          if char_in 192 223 a then found 2%nat zeros_of_two ((n - 192) * 64 + x)%N else
          match l2 with
          | [] => None
          | c :: l3 =>
              match tail_bits c with
              | None => None
              | Some y =>
                  if char_in 224 239 a then found 3%nat zeros_of_three (((n - 224) * 64 + x) * 64 + y)%N else
                  match l3 with
                  | [] => None
                  | d :: _ =>
                      match tail_bits d with
                      | None => None
                      | Some z =>
                          if char_in 240 247 a
                          then found 4%nat zeros_of_four ((((n - 240) * 64 + x) * 64 + y) * 64 + z)%N else None
                      end
                  end
              end
          end
      end
  | _ => None
  end.

(** The text with every decimal digit written in ASCII, after [skip] bytes of the
    digit that was read last. *)
Fixpoint ascii_digits_from (skip : nat) (l : list ascii) : list ascii :=
  match l with
  | [] => []
  | c :: l' =>
      match skip with
      | S skip => ascii_digits_from skip l'
      | O => match other_digit l with
             | Some (n, d) => ascii_of_N (48 + d) :: ascii_digits_from (pred n) l'
             | None => c :: ascii_digits_from 0 l'
             end
      end
  end.
Definition ascii_digits (l : list ascii) : list ascii := ascii_digits_from 0 l.

(** The digits 1 and 0 in Arabic-Indic, Devanagari and mathematical bold script,
    and a letter that is no digit. *)
Example ascii_digits_examples :
  map (fun l => ascii_digits (map ascii_of_nat l))
    [[217; 161; 46; 217; 160]; [224; 165; 167; 48]; [240; 157; 159; 143; 240; 157; 159; 142]; [195; 169; 49]]%nat
  = [chars "1.0"; chars "10"; chars "10"; map ascii_of_nat [195; 169; 49]%nat].
Proof. vm_compute. reflexivity. Qed.

(** [str(n)] *)
Fixpoint dec_digits_go (fuel : nat) (n : N) (acc : string) : string :=
  match fuel with
  | O => acc
  | S f =>
      let acc' := String (Ascii.ascii_of_N (48 + n mod 10)) acc in
      if (n <? 10)%N then acc' else dec_digits_go f (n / 10)%N acc'
  end.
Definition N_str (n : N) : string := dec_digits_go (S (N.size_nat n)) n EmptyString.
Definition Z_str (z : Z) : string :=
  match z with
  | Z0 => "0"
  | Zpos p => N_str (Npos p)
  | Zneg p => "-" +:+ N_str (Npos p)
  end.

(** ** Dictionaries

    A Python [dict] where the iteration order is observed: an association list
    in insertion order, one entry per key. *)

Abbreviation dict K V := (list (K * V)).

Section dict.
Context {K V : Type} `{EqDecision K}.

Fixpoint dict_get (k : K) (d : dict K V) : option V :=
  match d with
  | [] => None
  | (k', v) :: d' => if decide (k = k') then Some v else dict_get k d'
  end.

Fixpoint dict_set (k : K) (v : V) (d : dict K V) : dict K V :=
  match d with
  | [] => [(k, v)]
  | (k', v') :: d' => if decide (k = k') then (k', v) :: d' else (k', v') :: dict_set k v d'
  end.

Definition dict_of_list (l : list (K * V)) : dict K V :=
  foldl (fun d kv => dict_set (fst kv) (snd kv) d) [] l.

End dict.

(** [dict.fromkeys]: the first of equal elements, in order. *)
Fixpoint fromkeys {A} `{EqDecision A} (l : list A) : list A :=
  match l with
  | [] => []
  | x :: l' => x :: List.filter (fun y => negb (bool_decide (y = x))) (fromkeys l')
  end.

(** [{v.key: v for v in l}] used only by key: a finite map, later wins. *)
Definition index_by {K A : Type} `{Countable K} (key : A -> K) (l : list A) : gmap K A :=
  foldl (fun m v => <[key v := v]> m) ∅ l.

(** ** Sets

    The iteration order of a Python [set] is fixed by its insertions but
    otherwise unspecified: [set_iter l] is the order in which a set built by
    adding the elements of [l] is enumerated. *)
Class SetIter (A : Type) : Type := {
  set_iter : list A -> list A;
  set_iter_NoDup : forall l, NoDup (set_iter l);
  set_iter_elem : forall l x, x ∈ set_iter l <-> x ∈ l
}.

#[export] Instance first_seen_set_iter {A} `{EqDecision A} : SetIter A :=
  {| set_iter := remove_dups;
     set_iter_NoDup := NoDup_remove_dups;
     set_iter_elem := fun l x => elem_of_remove_dups l x |}.

(** ** Stable sorting

    [sorted(l, key=...)] with the comparison on keys as a boolean preorder. *)
Section sort.
Context {A : Type} (le : A -> A -> bool).

Fixpoint insert_by (x : A) (l : list A) : list A :=
  match l with
  | [] => [x]
  | y :: l' => if le x y then x :: l else y :: insert_by x l'
  end.

Definition sort_by (l : list A) : list A := foldr insert_by [] l.

End sort.

(** ** Lemmas on the monads *)

Lemma bind_Ok {A B} (m : res A) (f : A -> res B) (b : B) :
  m ≫= f = Ok b <-> exists a, m = Ok a /\ f a = Ok b.
Proof. destruct m as [a|e]; cbn; split; [eauto|by intros (? & [= <-] & ?)|done|by intros (? & ? & ?)]. Qed.

Lemma fmap_Ok {A B} (m : res A) (f : A -> B) (b : B) :
  f <$> m = Ok b <-> exists a, m = Ok a /\ b = f a.
Proof. destruct m as [a|e]; cbn; split; [intros [= <-]; eauto|by intros (? & [= <-] & ->)|done|by intros (? & ? & ?)]. Qed.

Lemma guard_not_Ok cond c msg u : guard_not cond c msg = Ok u <-> cond = false.
Proof. unfold guard_not, raise. by destruct cond, u. Qed.

(** A guard before the rest of a body. *)
Lemma guard_bind {B} cond c msg (k : res B) b :
  (_ ← guard_not cond c msg; k) = Ok b <-> cond = false /\ k = Ok b.
Proof. unfold guard_not, raise. destruct cond; cbn; split; [done|by intros [? _]|done|by intros [_ ?]]. Qed.

Lemma is_ok_bind {A B} (m : res A) (f : A -> res B) :
  is_ok (m ≫= f) = true <-> exists a, m = Ok a /\ is_ok (f a) = true.
Proof. destruct m as [a|e]; cbn; split; [eauto|by intros (? & [= <-] & ?)|done|by intros (? & ? & ?)]. Qed.

Lemma is_ok_exists {A} (m : res A) : is_ok m = true <-> exists a, m = Ok a.
Proof. destruct m as [a|e]; cbn; split; [eauto|done|done|by intros (? & ?)]. Qed.

(** Running a bind of the state monad, by its first call. *)
Lemma run_bind {S A B} (m : ST S A) (f : A -> ST S B) s :
  (m ≫= f) s = match m s with (s', Ok a) => f a s' | (s', Raise e) => (s', Raise e) end.
Proof. done. Qed.

Lemma run_get {S B} (f : S -> ST S B) s : (get_st ≫= f) s = f s s.
Proof. done. Qed.

Lemma run_put {S B} s' (f : unit -> ST S B) s : (put_st s' ≫= f) s = f tt s'.
Proof. done. Qed.

Lemma run_lift {S A B} (m : res A) (f : A -> ST S B) s :
  (lift_res m ≫= f) s = match m with Ok a => f a s | Raise e => (s, Raise e) end.
Proof. by destruct m. Qed.

(** Take a successful sequence of calls apart, one hypothesis per call. *)
Ltac inv_ok :=
  repeat match goal with
  | H : mbind _ _ = Ok _ |- _ =>
      let a := fresh "r" in let Ha := fresh "H" a in
      apply bind_Ok in H as (a & Ha & H)
  | H : fmap _ _ = Ok _ |- _ =>
      let a := fresh "r" in let Ha := fresh "H" a in
      apply fmap_Ok in H as (a & Ha & H)
  | H : guard_not _ _ _ = Ok _ |- _ => apply guard_not_Ok in H
  | H : Ok _ = Ok _ |- _ => injection H as H; try subst
  | H : raise _ _ = Ok _ |- _ => discriminate H
  | H : Raise _ = Ok _ |- _ => discriminate H
  end.

(** Case on the innermost scrutinee the goal is stuck on. *)
Ltac case_on t :=
  lazymatch t with
  | context [match ?x with _ => _ end] => case_on x
  | _ => let E := fresh "E" in destruct t eqn:E
  end.
Ltac crush_match :=
  match goal with
  | |- context [match ?x with _ => _ end] => case_on x
  end.
Ltac crush_match_in H :=
  match type of H with
  | context [match ?x with _ => _ end] => case_on x
  end.

Lemma mapR_Ok {A B} (f : A -> res B) l ys :
  mapR f l = Ok ys <-> Forall2 (fun x y => f x = Ok y) l ys.
Proof.
  revert ys; induction l as [|x l IH]; intros ys; cbn.
  - split; [intros [= <-]; constructor | by inversion 1].
  - split.
    + intros H; inv_ok. constructor; [done|]. by apply IH.
    + inversion 1 as [|? y ? ys' Hy Hys]; subst. rewrite Hy; cbn.
      apply IH in Hys. by rewrite Hys.
Qed.

Lemma mapR_total {A B} (f : A -> res B) (g : A -> B) l :
  (forall x, x ∈ l -> f x = Ok (g x)) -> mapR f l = Ok (map g l).
Proof.
  induction l as [|x l IH]; cbn; intros H; [done|].
  rewrite (H x) by set_solver; cbn. rewrite IH; [done|]. set_solver.
Qed.

Lemma foldR_app {A S} (f : S -> A -> res S) l1 l2 s :
  foldR f s (l1 ++ l2) = foldR f s l1 ≫= fun s' => foldR f s' l2.
Proof. revert s; induction l1 as [|x l1 IH]; intros s; cbn; [done|]. destruct (f s x); cbn; auto. Qed.

(** An invariant kept by every step of a fold is kept by the fold. *)
Lemma foldR_inv {A S} (P : S -> Prop) (f : S -> A -> res S) l s s' :
  (forall s x s', x ∈ l -> P s -> f s x = Ok s' -> P s') ->
  P s -> foldR f s l = Ok s' -> P s'.
Proof.
  revert s; induction l as [|x l IH]; intros s Hf HP H; cbn in H; [by inv_ok|].
  inv_ok. eapply IH; [|eapply (Hf _ x); eauto; set_solver|done].
  intros; eapply (Hf _ x0); eauto; set_solver.
Qed.

(** A fold whose every step succeeds under an invariant succeeds. *)
Lemma foldR_total {A S} (P : S -> Prop) (f : S -> A -> res S) l s :
  (forall s x, x ∈ l -> P s -> exists s', f s x = Ok s' /\ P s') ->
  P s -> exists s', foldR f s l = Ok s' /\ P s'.
Proof.
  revert s; induction l as [|x l IH]; intros s Hf HP; cbn; [eauto|].
  destruct (Hf s x) as (s' & Hs & HP'); [set_solver|done|].
  rewrite Hs; cbn. apply IH; [|done]. intros; apply Hf; [set_solver|done].
Qed.

(** A fold of checks succeeds exactly when every check does. *)
Lemma foldR_checks {A} (f : A -> res unit) l :
  foldR (fun _ x => f x) tt l = Ok tt <-> Forall (fun x => f x = Ok tt) l.
Proof.
  induction l as [|x l IH]; cbn; [by split|]. rewrite Forall_cons. split.
  - intros H. inv_ok. destruct r. split; [done|by apply IH].
  - intros [-> Hl]. by apply IH.
Qed.

Lemma forallb_elem {A} (f : A -> bool) l x : x ∈ l -> forallb f l = true -> f x = true.
Proof. rewrite forallb_forall. intros Hx%list_elem_of_In H. by apply H. Qed.

Lemma filter_elem {A} (f : A -> bool) l x : x ∈ List.filter f l <-> x ∈ l /\ f x = true.
Proof. by rewrite !list_elem_of_In, filter_In. Qed.

Lemma filter_all {A} (p : A -> bool) l : Forall (fun x => p x = true) l -> List.filter p l = l.
Proof. induction 1 as [|x l Hx _ IH]; [done|]. cbn. by rewrite Hx, IH. Qed.

Lemma fromkeys_elem {A} `{EqDecision A} (l : list A) x : x ∈ fromkeys l <-> x ∈ l.
Proof.
  induction l as [|y l IH]; cbn; [done|]. rewrite !elem_of_cons, filter_elem, IH, negb_true_iff, bool_decide_eq_false.
  destruct (decide (x = y)); tauto.
Qed.

Lemma fromkeys_NoDup {A} `{EqDecision A} (l : list A) : NoDup (fromkeys l).
Proof.
  induction l as [|y l IH]; cbn; [constructor|]. constructor.
  - rewrite filter_elem. intros [_ H%negb_true_iff]. by rewrite bool_decide_true in H.
  - by apply NoDup_ListNoDup, List.NoDup_filter, NoDup_ListNoDup.
Qed.

Lemma mapR_elem {A B} (f : A -> res B) l ys y :
  mapR f l = Ok ys -> y ∈ ys -> exists x, x ∈ l /\ f x = Ok y.
Proof.
  intros HF%mapR_Ok Hy. apply list_elem_of_lookup in Hy as (i & Hi).
  destruct (Forall2_lookup_r _ _ _ _ _ HF Hi) as (x & Hx & Hf).
  exists x. split; [by eapply list_elem_of_lookup_2|done].
Qed.

(** A measure every call keeps is kept along the list. *)
Lemma mapR_map {A B C} (f : A -> res B) (g : B -> C) (h : A -> C) l ys :
  (forall x y, f x = Ok y -> g y = h x) -> mapR f l = Ok ys -> map g ys = map h l.
Proof. intros Hg HF%mapR_Ok. induction HF; cbn; f_equal; auto. Qed.

Lemma mapR_exists {A B} (f : A -> res B) l :
  (forall x, x ∈ l -> exists y, f x = Ok y) -> exists ys, mapR f l = Ok ys.
Proof.
  induction l as [|x l IH]; cbn; intros H; [eauto|].
  destruct (H x) as (y & ->); [set_solver|]. destruct IH as (ys & ->); [set_solver|]. by eexists.
Qed.

(** ** Lemmas on stable sorting *)
Section sort_lemmas.
Context {A : Type} (le : A -> A -> bool).

Lemma insert_by_perm x l : insert_by le x l ≡ₚ x :: l.
Proof. induction l as [|y l IH]; cbn; [done|]. destruct (le x y); [done|]. rewrite IH. constructor. Qed.

Lemma sort_by_perm l : sort_by le l ≡ₚ l.
Proof. induction l as [|x l IH]; cbn; [done|]. by rewrite insert_by_perm, IH. Qed.

Lemma sort_by_elem l x : x ∈ sort_by le l <-> x ∈ l.
Proof. by rewrite (sort_by_perm l). Qed.

Lemma sort_by_length l : length (sort_by le l) = length l.
Proof. by rewrite (sort_by_perm l). Qed.

(** A last element not before any other stays last. *)
Lemma insert_by_snoc x l y : le x y = true -> insert_by le x (l ++ [y]) = insert_by le x l ++ [y].
Proof. intros Hxy. induction l as [|z l IH]; cbn; [by rewrite Hxy|]. rewrite IH. by destruct (le x z). Qed.

Lemma sort_by_snoc l y : (forall x, x ∈ l -> le x y = true) -> sort_by le (l ++ [y]) = sort_by le l ++ [y].
Proof.
  induction l as [|x l IH]; intros Hl; [done|]. cbn [app sort_by foldr]. fold (sort_by le (l ++ [y])).
  rewrite IH by (intros z Hz; apply Hl; set_solver). apply insert_by_snoc, Hl. set_solver.
Qed.

Lemma sort_by_nil l : [] = sort_by le l -> l = [].
Proof. intros Hs. apply Permutation_nil_r. by rewrite Hs, sort_by_perm. Qed.

(** A sorted list is its own sort. *)
Lemma sort_by_sorted_id l : StronglySorted (fun a b => le a b = true) l -> sort_by le l = l.
Proof.
  induction 1 as [|x l _ IH Hx]; [done|]. cbn [sort_by foldr]. fold (sort_by le l). rewrite IH.
  destruct Hx as [|y l Hxy _]; [done|]. cbn. by rewrite Hxy.
Qed.

(** Stability: elements the comparison does not separate keep their order. *)
Lemma insert_by_filter (P : A -> bool) x l :
  (forall y, y ∈ l -> P x = true -> P y = true -> le x y = true) ->
  List.filter P (insert_by le x l) = List.filter P (x :: l).
Proof.
  induction l as [|y l IH]; intros H; [done|].
  cbn [insert_by]. destruct (le x y) eqn:E; [done|].
  cbn [List.filter]. rewrite IH by (intros; apply H; set_solver). cbn [List.filter].
  destruct (P x) eqn:Px, (P y) eqn:Py; try done.
  rewrite H in E; [done|set_solver|done|done].
Qed.

Lemma sort_by_stable (P : A -> bool) l :
  (forall x y, P x = true -> P y = true -> le x y = true) ->
  List.filter P (sort_by le l) = List.filter P l.
Proof.
  intros H; induction l as [|x l IH]; [done|].
  cbn [sort_by foldr]. fold (sort_by le l).
  rewrite insert_by_filter by auto. cbn [List.filter]. by rewrite IH.
Qed.

Hypothesis le_total : forall x y, le x y = true \/ le y x = true.
Hypothesis le_trans : forall x y z, le x y = true -> le y z = true -> le x z = true.

Lemma insert_by_sorted x l :
  StronglySorted (fun a b => le a b = true) l ->
  StronglySorted (fun a b => le a b = true) (insert_by le x l).
Proof.
  induction 1 as [|y l Hl IH Hy]; cbn; [repeat constructor|].
  destruct (le x y) eqn:E.
  - constructor; [by constructor|]. constructor; [done|].
    eapply List.Forall_impl; [|exact Hy]. intros z Hz; eauto.
  - constructor; [done|]. rewrite insert_by_perm. constructor; [|done].
    destruct (le_total x y); congruence.
Qed.

Lemma sort_by_sorted l : StronglySorted (fun a b => le a b = true) (sort_by le l).
Proof. induction l as [|x l IH]; cbn; [constructor|by apply insert_by_sorted]. Qed.

End sort_lemmas.

(** The order of strings. *)
Lemma string_leb_trans a b c : String.leb a b = true -> String.leb b c = true -> String.leb a c = true.
Proof.
  unfold String.leb. revert b c; induction a as [|x a IH]; intros [|y b] [|z c]; cbn; try done.
  unfold Ascii.compare.
  destruct (N.compare_spec (N_of_ascii x) (N_of_ascii y)) as [E1|E1|E1]; [| |done];
    (destruct (N.compare_spec (N_of_ascii y) (N_of_ascii z)) as [E2|E2|E2]; [| |done]); intros H1 H2.
  - rewrite E1, E2, N.compare_refl. by apply (IH b).
  - rewrite (proj2 (N.compare_lt_iff _ _)); [done|lia].
  - rewrite (proj2 (N.compare_lt_iff _ _)); [done|lia].
  - rewrite (proj2 (N.compare_lt_iff _ _)); [done|lia].
Qed.

(** ** Lemmas on dictionaries *)
Section dict_lemmas.
Context {K V : Type} `{EqDecision K}.

Lemma dict_get_set (k k' : K) (v : V) d :
  dict_get k (dict_set k' v d) = if decide (k = k') then Some v else dict_get k d.
Proof.
  induction d as [|[k0 v0] d IH]; cbn; [done|].
  destruct (decide (k' = k0)) as [->|]; cbn; [by case_decide|].
  destruct (decide (k = k0)) as [->|]; [|done]. by rewrite decide_False by congruence.
Qed.

Lemma dict_set_fresh (k : K) (v : V) d :
  k ∉ map fst d -> dict_set k v d = d ++ [(k, v)].
Proof.
  induction d as [|[k0 v0] d IH]; cbn; intros Hk; [done|].
  rewrite decide_False by set_solver. rewrite IH; [done|set_solver].
Qed.

Lemma dict_of_list_nodup (l : dict K V) :
  NoDup (map fst l) -> dict_of_list l = l.
Proof.
  enough (Hg : forall d : dict K V, NoDup (map fst (d ++ l)) ->
            foldl (fun d kv => dict_set (fst kv) (snd kv) d) d l = d ++ l) by apply (Hg []).
  induction l as [|[k v] l IH]; intros d Hn; cbn [foldl fst snd]; [by rewrite app_nil_r|].
  assert (k ∉ map fst d) as Hk.
  { rewrite map_app in Hn. apply NoDup_app in Hn as (_ & Hn & _). intros Hk. apply (Hn k Hk). left. }
  rewrite dict_set_fresh by done. rewrite IH; [by rewrite <- app_assoc|]. by rewrite <- app_assoc.
Qed.

Lemma dict_get_elem (k : K) (v : V) d : dict_get k d = Some v -> (k, v) ∈ d.
Proof.
  induction d as [|[k' v'] d IH]; cbn; [done|]. destruct (decide (k = k')) as [->|].
  - intros [= ->]. left.
  - intros Hd. right. by apply IH.
Qed.


Lemma dict_get_nodup (k : K) (v : V) d : NoDup (map fst d) -> (k, v) ∈ d -> dict_get k d = Some v.
Proof.
  induction d as [|[k' v'] d IH]; cbn; intros Hn Hk; [by apply elem_of_nil in Hk|].
  apply NoDup_cons in Hn as [Hk' Hn]. apply elem_of_cons in Hk as [[= -> ->]|Hk]; [by rewrite decide_True|].
  rewrite decide_False; [by apply IH|]. intros ->. apply Hk'. apply list_elem_of_In, in_map_iff.
  exists (k', v). split; [done|by apply list_elem_of_In].
Qed.

Lemma dict_set_elem (k : K) (v : V) d k' v' :
  (k', v') ∈ dict_set k v d -> (k' = k /\ v' = v) \/ (k', v') ∈ d.
Proof.
  induction d as [|[k0 v0] d IH]; cbn; [set_solver|]. destruct (decide (k = k0)) as [->|]; set_solver.
Qed.

Lemma dict_set_keys (k : K) (v : V) d :
  (dict_set k v d).*1 = if decide (k ∈ d.*1) then d.*1 else d.*1 ++ [k].
Proof.
  induction d as [|[k0 v0] d IH]; cbn; [done|]. destruct (decide (k = k0)) as [->|Hne].
  - by rewrite decide_True by left.
  - cbn. rewrite IH. destruct (decide (k ∈ d.*1)); [by rewrite decide_True by (by right)|].
    rewrite decide_False; [done|]. set_solver.
Qed.

Lemma dict_set_NoDup (k : K) (v : V) d : NoDup d.*1 -> NoDup (dict_set k v d).*1.
Proof.
  intros Hn. rewrite dict_set_keys. case_decide; [done|]. apply NoDup_app. split; [done|].
  split; [set_solver|apply NoDup_singleton].
Qed.

Lemma dict_set_length (k : K) (v : V) d : (length (dict_set k v d) <= S (length d))%nat.
Proof.
  rewrite <- (length_fmap fst), dict_set_keys, <- (length_fmap fst d). case_decide; [lia|].
  rewrite length_app. cbn. lia.
Qed.

End dict_lemmas.

Lemma index_by_lookup {K A : Type} `{Countable K} (key : A -> K) (l : list A) (m : gmap K A) k a :
  foldl (fun m v => <[key v := v]> m) m l !! k = Some a ->
  (a ∈ l /\ key a = k) \/ m !! k = Some a.
Proof.
  revert m; induction l as [|x l IH]; intros m; cbn; [auto|].
  intros [[Hin <-]|Hm]%IH; [left; set_solver|].
  destruct (decide (key x = k)) as [<-|Hne].
  - rewrite lookup_insert_eq in Hm. injection Hm as ->. left; set_solver.
  - rewrite lookup_insert_ne in Hm by done. auto.
Qed.

Lemma index_by_Some {K A : Type} `{Countable K} (key : A -> K) (l : list A) k a :
  index_by key l !! k = Some a -> a ∈ l /\ key a = k.
Proof. intros [?|H1]%index_by_lookup; [done|by rewrite lookup_empty in H1]. Qed.

Lemma foldl_insert_ne {K A : Type} `{Countable K} (key : A -> K) (l : list A) (m : gmap K A) k :
  k ∉ map key l -> foldl (fun m v => <[key v := v]> m) m l !! k = m !! k.
Proof.
  revert m; induction l as [|x l IH]; intros m; cbn; [done|]. intros Hk.
  rewrite IH by set_solver. rewrite lookup_insert_ne; [done|set_solver].
Qed.

(** With pairwise distinct keys the index finds every element. *)
Lemma index_by_NoDup {K A : Type} `{Countable K} (key : A -> K) (l : list A) a :
  NoDup (map key l) -> a ∈ l -> index_by key l !! key a = Some a.
Proof.
  unfold index_by. generalize (∅ : gmap K A) as m.
  induction l as [|x l IH]; intros m Hnd Ha; [set_solver|].
  cbn in *. apply NoDup_cons in Hnd as [Hx Hnd].
  apply elem_of_cons in Ha as [->|Ha]; [|by apply IH].
  rewrite foldl_insert_ne by done. apply lookup_insert_eq.
Qed.

Lemma foldl_insert_dom {K A : Type} `{Countable K} (key : A -> K) (l : list A) (m : gmap K A) k :
  is_Some (foldl (fun m v => <[key v := v]> m) m l !! k) <-> k ∈ map key l \/ is_Some (m !! k).
Proof.
  revert m; induction l as [|x l IH]; intros m; cbn; [set_solver|].
  rewrite IH, lookup_insert_is_Some'. set_solver.
Qed.

Lemma index_by_None {K A : Type} `{Countable K} (key : A -> K) (l : list A) k :
  index_by key l !! k = None <-> k ∉ map key l.
Proof.
  rewrite eq_None_not_Some. unfold index_by. rewrite foldl_insert_dom, lookup_empty.
  split; intros Hn Hk; apply Hn; [by left|]. by destruct Hk as [?|[? ?]].
Qed.

(** ** Automation *)
Create HintDb agora discriminated.
#[export] Hint Resolve sort_by_perm : agora.
Create Rewrite HintDb agora_rw.
#[export] Hint Rewrite @sort_by_length : agora_rw.
Create Rewrite HintDb run_rw.
#[export] Hint Rewrite @run_get @run_put @run_lift : run_rw.

Lemma omap_ext_in {A B} (f g : A -> option B) (l : list A) :
  (forall x, x ∈ l -> f x = g x) -> omap f l = omap g l.
Proof.
  induction l as [|x l IH]; intros H; [done|]. cbn. rewrite (H x) by left.
  rewrite (IH (fun y Hy => H y (list_elem_of_further y x l Hy))). done.
Qed.

(** ** [int(text)] and [str] on integers *)

Definition int_digit (c : ascii) : Z := Z.of_nat (nat_of_ascii c) - 48.

(** Digits with single underscores between them. *)
Fixpoint int_digits (l : list ascii) (acc : Z) (prev_digit : bool) : option Z :=
  match l with
  | [] => if prev_digit then Some acc else None
  | c :: l' =>
      if is_digit c then int_digits l' (10 * acc + int_digit c)%Z true
      else if Ascii.eqb c "_"%char && prev_digit
           then match l' with [] => None | _ => int_digits l' acc false end
           else None
  end.

Definition int_of_string (s : string) : res Z :=
  let l := ascii_digits (chars (strip s)) in
  let '(neg, body) :=
    match l with
    | "-"%char :: l' => (true, l')
    | "+"%char :: l' => (false, l')
    | _ => (false, l)
    end in
  match int_digits body 0 false with
  | Some v => Ok (if neg : bool then (- v)%Z else v)
  | None => raise ValueErrorC "invalid literal for int() with base 10"
  end.

Example int_of_string_examples :
  map int_of_string [" 12 "; unchars (map ascii_of_nat [45; 217; 167]%nat); "1_000"; "_1"; "1__0"; ""; "+"]
  = [Ok 12%Z; Ok (-7)%Z; Ok 1000%Z;
     raise ValueErrorC "invalid literal for int() with base 10";
     raise ValueErrorC "invalid literal for int() with base 10";
     raise ValueErrorC "invalid literal for int() with base 10";
     raise ValueErrorC "invalid literal for int() with base 10"].
Proof. vm_compute. reflexivity. Qed.

(** ** Lemmas on strings *)

Lemma chars_unchars l : chars (unchars l) = l.
Proof. unfold chars, unchars. apply list_ascii_of_string_of_list_ascii. Qed.

Lemma unchars_chars s : unchars (chars s) = s.
Proof. unfold chars, unchars. apply string_of_list_ascii_of_string. Qed.

Lemma chars_app s t : chars (s +:+ t) = chars s ++ chars t.
Proof.
  induction s as [|c s IH]; [done|].
  change (c :: chars (s +:+ t) = c :: chars s ++ chars t). by rewrite IH.
Qed.

Lemma chars_prefix n s : chars (String.substring 0 n s) = take n (chars s).
Proof.
  revert s; induction n as [|n IH]; intros [|c s]; try done.
  change (c :: chars (String.substring 0 n s) = c :: take n (chars s)). by rewrite IH.
Qed.

(** ** Digits of other scripts *)

Lemma digit_among_bound zeros code d : digit_among zeros code = Some d -> (d < 10)%N.
Proof.
  unfold digit_among. destruct (List.find _ zeros) as [z|] eqn:E; [|done]. intros [= <-].
  apply find_some in E as [_ [H1%N.leb_le H2%N.ltb_lt]%andb_true_iff]. lia.
Qed.

Lemma tail_bits_ascii c : ascii_char c = true -> tail_bits c = None.
Proof.
  unfold tail_bits, ascii_char, char_in. intros [_ H%Nat.leb_le]%andb_true_iff.
  by rewrite (proj2 (Nat.leb_gt 128 _)) by lia.
Qed.

(** Take [other_digit l = Some _] apart. *)
Ltac other_digit_cases H :=
  unfold other_digit in H;
  repeat (match type of H with
          | context [match ?x with _ => _ end] =>
              lazymatch x with
              | context [match _ with _ => _ end] => fail
              | _ => let E := fresh "E" in destruct x eqn:E
              end
          end; try discriminate H).

Lemma other_digit_Some l n d :
  other_digit l = Some (n, d) -> (1 <= n <= length l)%nat /\ (d < 10)%N /\ other_digit (take n l) = Some (n, d) /\
  match l with c :: _ => ascii_char c = false | [] => True end.
Proof.
  intros H. pose proof H as H'. other_digit_cases H; injection H as <- <-;
    (split; [cbn; lia|]); (split; [by eapply digit_among_bound|]); (split; [|
      match goal with E : char_in _ _ ?c = true |- ascii_char ?c = false =>
        unfold char_in in E; unfold ascii_char, char_in; apply andb_true_iff in E as [E%Nat.leb_le _];
        rewrite (proj2 (Nat.leb_gt _ 127)) by lia; by rewrite andb_false_r end]);
    cbn [take firstn]; unfold other_digit; repeat match goal with E : _ = _ |- _ => rewrite E; clear E end; done.
Qed.

(** An ASCII character ends whatever was read before it. *)
Lemma other_digit_sep l c r :
  ascii_char c = true -> l <> [] -> other_digit (l ++ c :: r) = other_digit l.
Proof.
  intros Hc%tail_bits_ascii Hl. destruct l as [|a [|b [|x [|y l]]]]; [done|..]; unfold other_digit; cbn [app];
    rewrite ?Hc; [done|..]; destruct (tail_bits b); try done.
Qed.

Lemma other_digit_head c r : ascii_char c = true -> other_digit (c :: r) = None.
Proof.
  intros Hc. destruct (other_digit (c :: r)) as [[n d]|] eqn:E; [|done].
  apply other_digit_Some in E as (_ & _ & _ & E). congruence.
Qed.

Lemma digits_from_sep n l c r :
  ascii_char c = true -> (n <= length l)%nat ->
  ascii_digits_from n (l ++ c :: r) = ascii_digits_from n l ++ c :: ascii_digits r.
Proof.
  intros Hc. revert n; induction l as [|a l IH]; intros n Hn.
  - cbn in Hn. replace n with 0%nat by lia. cbn [app ascii_digits_from]. by rewrite other_digit_head.
  - destruct n as [|n]; cbn [app ascii_digits_from length] in *; [|apply IH; lia].
    change (a :: l ++ c :: r) with ((a :: l) ++ c :: r). rewrite other_digit_sep by done. destruct (other_digit (a :: l)) as [[k d]|] eqn:E.
    + apply other_digit_Some in E as (Hk & _). cbn in Hk. cbn [app]. f_equal. apply IH. lia.
    + cbn [app]. f_equal. apply IH. lia.
Qed.

Lemma ascii_digits_sep l c r : ascii_char c = true -> ascii_digits (l ++ c :: r) = ascii_digits l ++ c :: ascii_digits r.
Proof. intros Hc. apply digits_from_sep; [done|lia]. Qed.

Lemma ascii_digits_cons c r : ascii_char c = true -> ascii_digits (c :: r) = c :: ascii_digits r.
Proof. intros Hc. by apply (ascii_digits_sep []). Qed.

Lemma ascii_digits_app_r l r : Forall (fun c => ascii_char c = true) r -> ascii_digits (l ++ r) = ascii_digits l ++ r.
Proof.
  revert l; induction r as [|c r IH]; intros l Hr; [by rewrite !app_nil_r|]. apply Forall_cons in Hr as [Hc Hr].
  rewrite ascii_digits_sep by done. do 2 f_equal. exact (IH [] Hr).
Qed.

(** Text in ASCII is read as it is. *)
Lemma ascii_digits_id l : Forall (fun c => ascii_char c = true) l -> ascii_digits l = l.
Proof. apply (ascii_digits_app_r []). Qed.

Lemma ascii_digits_elem c l : ascii_char c = true -> c ∈ l -> c ∈ ascii_digits l.
Proof. intros Hc (l1 & l2 & ->)%list_elem_of_split. rewrite ascii_digits_sep by done. apply elem_of_app. right. left. Qed.

Lemma digit_ascii d : (d < 10)%N -> is_digit (ascii_of_N (48 + d)) = true.
Proof.
  intros Hd. destruct d as [|p]; [done|]. do 4 (destruct p as [p|p|]; [try (cbn in Hd; lia)..|done]); cbn in Hd; lia.
Qed.

(** A character that is no digit stands in the text where it is read. *)
Lemma digits_from_split n l c x y :
  ascii_char c = true -> is_digit c = false -> ascii_digits_from n l = x ++ c :: y ->
  exists l1 l2, l = l1 ++ c :: l2 /\ ascii_digits_from n l1 = x /\ ascii_digits l2 = y.
Proof.
  intros Hc Hd. revert n x; induction l as [|a l IH]; intros n x; cbn [ascii_digits_from]; [by destruct x|].
  destruct n as [|n].
  2: { intros (l1 & l2 & -> & H1 & H2)%IH. by exists (a :: l1), l2. }
  destruct (other_digit (a :: l)) as [[k d]|] eqn:E.
  - destruct x as [|e x]; intros [= He Hx].
    { apply other_digit_Some in E as (_ & Hb & _). apply digit_ascii in Hb. congruence. }
    destruct (IH _ _ Hx) as (l1 & l2 & -> & H1 & H2). exists (a :: l1), l2. split; [done|]. split; [|done].
    change (a :: l1 ++ c :: l2) with ((a :: l1) ++ c :: l2) in E. rewrite other_digit_sep in E by done.
    cbn [ascii_digits_from]. rewrite E. by rewrite H1, He.
  - destruct x as [|e x]; intros [= He Hx]; [by exists [], l; subst|].
    destruct (IH _ _ Hx) as (l1 & l2 & -> & H1 & H2). exists (a :: l1), l2. split; [done|]. split; [|done].
    change (a :: l1 ++ c :: l2) with ((a :: l1) ++ c :: l2) in E. rewrite other_digit_sep in E by done.
    cbn [ascii_digits_from]. rewrite E. by rewrite H1, He.
Qed.

Lemma ascii_digits_split l c x y :
  ascii_char c = true -> is_digit c = false -> ascii_digits l = x ++ c :: y ->
  exists l1 l2, l = l1 ++ c :: l2 /\ ascii_digits l1 = x /\ ascii_digits l2 = y.
Proof. apply digits_from_split. Qed.

Lemma ascii_digits_nil l : ascii_digits l = [] -> l = [].
Proof.
  destruct l as [|c l]; [done|]. unfold ascii_digits. cbn [ascii_digits_from]. by destruct (other_digit (c :: l)) as [[? ?]|].
Qed.



Lemma is_digit_ascii c : is_digit c = true -> ascii_char c = true.
Proof. unfold is_digit, ascii_char, char_in. intros [H1%Nat.leb_le H2%Nat.leb_le]%andb_true_iff. apply andb_true_iff. rewrite !Nat.leb_le. lia. Qed.


Lemma chars_map f s : chars (map_chars f s) = map f (chars s).
Proof. apply chars_unchars. Qed.

Lemma length_chars s : length (chars s) = String.length s.
Proof. induction s as [|c s IH]; [done|]. change (S (length (chars s)) = S (String.length s)). by rewrite IH. Qed.

Lemma chars_nil s : chars s = [] <-> s = "".
Proof. split; [|by intros ->]. by destruct s. Qed.

(** A property of characters that the separator has too is one of the joined text. *)
Lemma join_chars (P : ascii -> Prop) sep parts :
  Forall P (chars sep) -> Forall (fun p => Forall P (chars p)) parts ->
  Forall P (chars (join sep parts)).
Proof.
  intros Hs. unfold join. induction parts as [|p [|q parts] IH]; intros Hp; cbn [String.concat].
  - constructor.
  - by apply Forall_cons in Hp as [Hp _].
  - apply Forall_cons in Hp as [Hp Hq]. rewrite !chars_app, !Forall_app. auto.
Qed.

(** The pieces between separators hold only characters of the text that are not
    separators, and none is empty. *)
Lemma runs_go_chars (P : ascii -> Prop) sep cur l :
  Forall (fun c => P c /\ sep c = false) cur -> Forall P l ->
  Forall (fun p => p <> "" /\ Forall (fun c => P c /\ sep c = false) (chars p)) (runs_go sep cur l).
Proof.
  revert cur; induction l as [|c l IH]; intros cur Hc Hl; cbn [runs_go].
  - destruct cur as [|x cur]; constructor; [|constructor]. rewrite chars_unchars. split.
    + intros Heq%chars_nil%(f_equal length). by rewrite chars_unchars, length_rev in Heq.
    + by apply Forall_rev.
  - apply Forall_cons in Hl as [Hx Hl]. destruct (sep c) eqn:E.
    + destruct cur as [|x cur]; [by apply IH|]. constructor; [|by apply IH].
      rewrite chars_unchars. split; [|by apply Forall_rev].
      intros Heq%chars_nil%(f_equal length). by rewrite chars_unchars, length_rev in Heq.
    + apply IH; [|done]. by constructor.
Qed.

Lemma runs_chars (P : ascii -> Prop) sep s :
  Forall P (chars s) ->
  Forall (fun p => p <> "" /\ Forall (fun c => P c /\ sep c = false) (chars p)) (runs sep s).
Proof. intros. by apply runs_go_chars. Qed.

Lemma ascii_forall (P : ascii -> bool) :
  forallb (fun n => P (ascii_of_nat n)) (seq 0 256) = true -> forall c, P c = true.
Proof.
  rewrite forallb_forall. intros H c. rewrite <- (ascii_nat_embedding c).
  apply H, in_seq. pose proof (nat_ascii_bounded c). lia.
Qed.

(** Rows with the same value of a unique key are one row. *)
Lemma same_key {A B} (key : A -> B) t x y : NoDup (map key t) -> x ∈ t -> y ∈ t -> key x = key y -> x = y.
Proof.
  intros Hn. induction t as [|z t IH]; [by intros ?%not_elem_of_nil|]. cbn in Hn. apply NoDup_cons in Hn as [Hz Hn].
  intros [->|Hx]%elem_of_cons [->|Hy]%elem_of_cons Hk; [done| | |by apply IH]; exfalso; apply Hz; apply list_elem_of_fmap; eauto.
Qed.
