(* ===== verification/PyDecimal.v ===== *)
(** * Python's [decimal.Decimal] under the default context

    Finite decimals with their sign, coefficient and exponent, and the
    arithmetic of the default context: 28 significant digits, ties to even.
    [Decimal(text)] accepts the finite numerals; [Infinity] and [NaN] are not
    values of the model, and neither are exponents beyond the context's limits
    of plus or minus 999999.  The second half proves what the consensus
    strategies need: comparison is a total preorder, rounding never crosses a
    representable number, and sums, products and quotients of non-negative
    operands stay where the value objects require them. *)

From S2P Require Import Prelude.

Local Open Scope Z_scope.

Record dec : Type := Dec { d_neg : bool; d_coef : N; d_exp : Z }.

#[export] Instance dec_eq_dec : EqDecision dec.
Proof. solve_decision. Defined.

(** The context's precision. *)
Definition prec : Z := 28.

(** The signed coefficient. *)
Definition dint (d : dec) : Z :=
  if d_neg d then - Z.of_N (d_coef d) else Z.of_N (d_coef d).

(** [len(str(n))] for a non-negative coefficient. *)
Fixpoint ndigits_go (fuel : nat) (n : Z) : Z :=
  match fuel with
  | O => 1
  | S f => if n <? 10 then 1 else 1 + ndigits_go f (n / 10)
  end.
Definition ndigits (n : Z) : Z := ndigits_go (Z.to_nat (Z.log2 n)) n.

(** [c / 10^k] rounded half to even. *)
Definition round_half_even (c k : Z) : Z :=
  let q := c / 10 ^ k in
  match 2 * (c mod 10 ^ k) ?= 10 ^ k with
  | Lt => q
  | Gt => q + 1
  | Eq => if Z.even q then q else q + 1
  end.

(** [Decimal._fix]: round a finite result to the context's precision. *)
Definition fix_dec (neg : bool) (c e : Z) : dec :=
  let d := ndigits c in
  if d <=? prec then Dec neg (Z.to_N c) e
  else
    let q := round_half_even c (d - prec) in
    if q =? 10 ^ prec
    then Dec neg (Z.to_N (10 ^ (prec - 1))) (e + (d - prec) + 1)
    else Dec neg (Z.to_N q) (e + (d - prec)).

Definition dec_of_Z (z : Z) : dec := Dec (z <? 0) (Z.abs_N z) 0.
Abbreviation dzero := (dec_of_Z 0).
Abbreviation dunit := (dec_of_Z 1).

Definition dopp (d : dec) : dec := Dec (negb (d_neg d)) (d_coef d) (d_exp d).

(** [a + b], [a - b], [a * b] *)
Definition dadd (a b : dec) : dec :=
  let e := Z.min (d_exp a) (d_exp b) in
  let s := dint a * 10 ^ (d_exp a - e) + dint b * 10 ^ (d_exp b - e) in
  let neg := if s =? 0 then d_neg a && d_neg b else s <? 0 in
  fix_dec neg (Z.abs s) e.

Definition dsub (a b : dec) : dec := dadd a (dopp b).

Definition dmul (a b : dec) : dec :=
  fix_dec (xorb (d_neg a) (d_neg b)) (Z.of_N (d_coef a) * Z.of_N (d_coef b))
    (d_exp a + d_exp b).

(** Drop trailing zeros while the exponent is below the ideal one. *)
Fixpoint strip_zeros (fuel : nat) (c e ideal : Z) : Z * Z :=
  match fuel with
  | O => (c, e)
  | S f => if (e <? ideal) && (c mod 10 =? 0) then strip_zeros f (c / 10) (e + 1) ideal
           else (c, e)
  end.

(** The exact or sticky quotient [a / b] is rounded from. *)
Definition div_coef (ca cb shift : Z) : Z * bool :=
  let num := if 0 <=? shift then ca * 10 ^ shift else ca in
  let den := if 0 <=? shift then cb else cb * 10 ^ (- shift) in
  (num / den, negb (num mod den =? 0)).

(** [a / b] *)
Definition ddiv (a b : dec) : res dec :=
  let neg := xorb (d_neg a) (d_neg b) in
  let ca := Z.of_N (d_coef a) in
  let cb := Z.of_N (d_coef b) in
  if cb =? 0 then
    if ca =? 0 then raise InvalidOperationC "0 / 0" else raise ZeroDivisionC "x / 0"
  else if ca =? 0 then Ok (fix_dec neg 0 (d_exp a - d_exp b))
  else
    let shift := ndigits cb - ndigits ca + prec + 1 in
    let e := d_exp a - d_exp b - shift in
    let '(q, sticky) := div_coef ca cb shift in
    if sticky
    then Ok (fix_dec neg (if q mod 5 =? 0 then q + 1 else q) e)
    else
      let '(q', e') := strip_zeros (Z.to_nat shift) q e (d_exp a - d_exp b) in
      Ok (fix_dec neg q' e').

(** Comparisons are exact. *)
Definition dcmp (a b : dec) : comparison :=
  let e := Z.min (d_exp a) (d_exp b) in
  dint a * 10 ^ (d_exp a - e) ?= dint b * 10 ^ (d_exp b - e).

Definition dltb (a b : dec) : bool := match dcmp a b with Lt => true | _ => false end.
Definition dleb (a b : dec) : bool := match dcmp a b with Gt => false | _ => true end.
Definition deqb (a b : dec) : bool := match dcmp a b with Eq => true | _ => false end.

(** The builtins [max(a, b)], [min(a, b)] and [abs(a)]. *)
Definition dmax (a b : dec) : dec := if dltb a b then b else a.
Definition dmin (a b : dec) : dec := if dltb b a then b else a.
Definition dabs (a : dec) : dec := fix_dec false (Z.of_N (d_coef a)) (d_exp a).

(** [sum(l, start=Decimal("0"))] *)
Definition dsum (l : list dec) : dec := fold_left dadd l dzero.

(** ** Text *)

Definition digit_val (c : Ascii.ascii) : Z := Z.of_nat (Ascii.nat_of_ascii c) - 48.

(** The longest prefix of digits, its value and the rest. *)
Fixpoint take_digits (l : list Ascii.ascii) (acc n : Z) : Z * Z * list Ascii.ascii :=
  match l with
  | c :: l' => if is_digit c then take_digits l' (10 * acc + digit_val c) (n + 1) else (acc, n, l)
  | [] => (acc, n, l)
  end.

Definition take_sign (l : list Ascii.ascii) : bool * list Ascii.ascii :=
  match l with
  | "-"%char :: l' => (true, l')
  | "+"%char :: l' => (false, l')
  | _ => (false, l)
  end.

Definition parse_exponent (l : list Ascii.ascii) : option Z :=
  match l with
  | [] => Some 0
  | c :: l' =>
      if Ascii.eqb (lower_char c) "e"%char then
        let '(neg, l1) := take_sign l' in
        match take_digits l1 0 0 with
        | (v, n, []) => if 0 <? n then Some (if neg : bool then - v else v) else None
        | _ => None
        end
      else None
  end.

(** [Decimal(text)] for a finite numeral, its digits those of any script. *)
Definition dec_of_string (s : string) : res dec :=
  let body := List.filter (fun c => negb (Ascii.eqb c "_"%char)) (ascii_digits (chars (strip s))) in
  let '(neg, l0) := take_sign body in
  let '(ip, ni, l1) := take_digits l0 0 0 in
  let '(v, nf, l2) :=
    match l1 with
    | "."%char :: l' => take_digits l' ip 0
    | _ => (ip, 0, l1)
    end in
  match parse_exponent l2 with
  | Some x => if 0 <? ni + nf then Ok (Dec neg (Z.to_N v) (x - nf))
              else raise InvalidOperationC "conversion syntax"
  | None => raise InvalidOperationC "conversion syntax"
  end.

Fixpoint zeros (n : nat) : string :=
  match n with O => EmptyString | S m => String "0"%char (zeros m) end.

(** [str(d)] *)
Definition dec_str (d : dec) : string :=
  let digits := N_str (d_coef d) in
  let len := str_len digits in
  let left := d_exp d + len in
  let dot := if (d_exp d <=? 0) && (-6 <? left) then left else 1 in
  let body :=
    if dot <=? 0 then "0." +:+ zeros (Z.to_nat (- dot)) +:+ digits
    else if len <=? dot then digits +:+ zeros (Z.to_nat (dot - len))
    else String.substring 0 (Z.to_nat dot) digits +:+ "." +:+
         String.substring (Z.to_nat dot) (Z.to_nat (len - dot)) digits in
  let ex := if left =? dot then EmptyString
            else "E" +:+ (if 0 <=? left - dot then "+" else EmptyString) +:+ Z_str (left - dot) in
  (if d_neg d then "-" else EmptyString) +:+ body +:+ ex.

Example dec_str_parse :
  map (fun s => match dec_of_string s with Ok d => dec_str d | Raise _ => "?" end)
    ["0.66"; " 1_0.50 "; "-0"; "1e3"; "0.0000001"; "abc"; "."; ".5"; "1E-2"]
  = ["0.66"; "10.50"; "-0"; "1E+3"; "1E-7"; "?"; "?"; "0.5"; "0.01"].
Proof. vm_compute. reflexivity. Qed.

Example ddiv_examples :
  map (fun '(a, b) => match ddiv (dec_of_Z a) (dec_of_Z b) with Ok d => dec_str d | Raise _ => "!" end)
    [(1, 3); (2, 3); (1, 4); (6, 2); (0, 7); (1, 0); (100, 5); (2000, 1000)]
  = ["0.3333333333333333333333333333"; "0.6666666666666666666666666667"; "0.25"; "3"; "0"; "!";
     "20"; "2"].
Proof. vm_compute. reflexivity. Qed.

(** ** Digits and rounding *)

Lemma pow10_pos k : 0 < 10 ^ k \/ k < 0.
Proof. destruct (Z.le_gt_cases 0 k); [left; by apply Z.pow_pos_nonneg|by right]. Qed.

Lemma pow10_gt0 k : 0 <= k -> 0 < 10 ^ k.
Proof. intros; by apply Z.pow_pos_nonneg. Qed.

Lemma pow10_split a b : 0 <= a -> 0 <= b -> 10 ^ (a + b) = 10 ^ a * 10 ^ b.
Proof. intros; by apply Z.pow_add_r. Qed.

#[export] Hint Resolve pow10_gt0 : agora.

Lemma ndigits_go_spec f n :
  0 < n < 10 ^ (Z.of_nat (S f)) ->
  1 <= ndigits_go f n /\ 10 ^ (ndigits_go f n - 1) <= n < 10 ^ ndigits_go f n.
Proof.
  revert n; induction f as [|f IH]; intros n Hn.
  - cbn [ndigits_go]. change (Z.of_nat 1) with 1 in Hn. rewrite Z.pow_1_r in *. cbn. lia.
  - cbn [ndigits_go]. destruct (n <? 10) eqn:E; [rewrite Z.pow_1_r; cbn; lia|].
    apply Z.ltb_ge in E.
    assert (Hq : 0 < n / 10 < 10 ^ Z.of_nat (S f)).
    { split; [apply Z.div_str_pos; lia|]. apply Z.div_lt_upper_bound; [lia|].
      rewrite <- Z.pow_succ_r by lia. rewrite <- Nat2Z.inj_succ. apply Hn. }
    destruct (IH _ Hq) as (Hd & Hlo & Hhi). set (d := ndigits_go f (n / 10)) in *.
    replace (1 + d - 1) with (Z.succ (d - 1)) by lia. replace (1 + d) with (Z.succ d) by lia.
    rewrite !Z.pow_succ_r by lia.
    pose proof (Z.div_mod n 10). pose proof (Z.mod_pos_bound n 10). lia.
Qed.

Lemma ndigits_spec n :
  0 < n -> 1 <= ndigits n /\ 10 ^ (ndigits n - 1) <= n < 10 ^ ndigits n.
Proof.
  intros Hn. apply ndigits_go_spec. split; [done|].
  pose proof (Z.log2_spec n Hn) as [_ Hlt]. pose proof (Z.log2_nonneg n).
  eapply Z.lt_le_trans; [exact Hlt|].
  rewrite Nat2Z.inj_succ, Z2Nat.id by done. apply Z.pow_le_mono_l. lia.
Qed.

Lemma ndigits_0 : ndigits 0 = 1.
Proof. done. Qed.

Lemma ndigits_ge1 n : 0 <= n -> 1 <= ndigits n.
Proof.
  intros Hn. destruct (Z.eq_dec n 0) as [->|]; [done|]. apply ndigits_spec; lia.
Qed.

Lemma ndigits_le n d : 0 <= n -> 1 <= d -> ndigits n <= d <-> n < 10 ^ d.
Proof.
  intros Hn Hd. destruct (Z.eq_dec n 0) as [->|Hne].
  - rewrite ndigits_0. split; intros; [auto with agora zarith|done].
  - destruct (ndigits_spec n) as (H1 & Hlo & Hhi); [lia|]. split; intros H.
    + eapply Z.lt_le_trans; [exact Hhi|]. apply Z.pow_le_mono_r; lia.
    + destruct (Z.le_gt_cases (ndigits n) d); [done|]. exfalso.
      assert (10 ^ d <= 10 ^ (ndigits n - 1)) by (apply Z.pow_le_mono_r; lia). lia.
Qed.

Section round.
Variable k : Z.
Hypothesis Hk : 0 <= k.

Lemma round_half_even_exact q : round_half_even (q * 10 ^ k) k = q.
Proof using Hk.
  unfold round_half_even. pose proof (pow10_gt0 k Hk).
  rewrite Z.mod_mul, Z.div_mul by lia. rewrite Z.mul_0_r.
  by rewrite (proj2 (Z.compare_lt_iff 0 (10 ^ k))).
Qed.

Lemma round_half_even_bounds c :
  c / 10 ^ k <= round_half_even c k <= c / 10 ^ k + 1.
Proof using Type. unfold round_half_even. repeat case_match; lia. Qed.

(** Rounding is monotone. *)
Lemma round_half_even_mono c c' : c <= c' -> round_half_even c k <= round_half_even c' k.
Proof using Hk.
  intros Hc. pose proof (pow10_gt0 k Hk) as Hp.
  pose proof (Z.div_le_mono c c' (10 ^ k) Hp Hc) as Hq.
  destruct (Z.eq_dec (c / 10 ^ k) (c' / 10 ^ k)) as [Heq|Hne].
  - unfold round_half_even. rewrite <- Heq.
    assert (c mod 10 ^ k <= c' mod 10 ^ k).
    { rewrite !Z.mod_eq by lia. rewrite <- Heq. lia. }
    destruct (2 * (c mod 10 ^ k) ?= 10 ^ k) eqn:E1, (2 * (c' mod 10 ^ k) ?= 10 ^ k) eqn:E2;
      rewrite ?Z.compare_eq_iff, ?Z.compare_lt_iff, ?Z.compare_gt_iff in *;
      try case_match; lia.
  - pose proof (round_half_even_bounds c). pose proof (round_half_even_bounds c'). lia.
Qed.

Lemma round_half_even_le c m : c <= m * 10 ^ k -> round_half_even c k <= m.
Proof using Hk. intros Hc%round_half_even_mono. by rewrite round_half_even_exact in Hc. Qed.

Lemma round_half_even_ge c m : m * 10 ^ k <= c -> m <= round_half_even c k.
Proof using Hk. intros Hc%round_half_even_mono. by rewrite round_half_even_exact in Hc. Qed.

End round.

(** ** Values on a common scale

    [sval s d] is the value of [d] in units of [10^s], an integer whenever [s]
    does not exceed the exponent; statements about several decimals are read at
    any scale below all their exponents. *)

Definition sval (s : Z) (d : dec) : Z := dint d * 10 ^ (d_exp d - s).

Lemma sval_rescale s s' d :
  s <= s' -> s' <= d_exp d -> sval s d = sval s' d * 10 ^ (s' - s).
Proof.
  intros. unfold sval. rewrite <- Z.mul_assoc, <- pow10_split by lia. do 2 f_equal. lia.
Qed.

Lemma dcmp_sval s a b :
  s <= d_exp a -> s <= d_exp b -> dcmp a b = (sval s a ?= sval s b).
Proof.
  intros Ha Hb. unfold dcmp. fold (sval (Z.min (d_exp a) (d_exp b)) a).
  fold (sval (Z.min (d_exp a) (d_exp b)) b). set (m := Z.min _ _).
  rewrite (sval_rescale s m a), (sval_rescale s m b) by lia.
  apply Zmult_compare_compat_r. apply Z.lt_gt, pow10_gt0. lia.
Qed.

Lemma dleb_sval s a b :
  s <= d_exp a -> s <= d_exp b -> dleb a b = true <-> sval s a <= sval s b.
Proof.
  intros Ha Hb. unfold dleb. rewrite (dcmp_sval s) by done.
  destruct (sval s a ?= sval s b) eqn:E;
    rewrite ?Z.compare_eq_iff, ?Z.compare_lt_iff, ?Z.compare_gt_iff in E; split; try lia; done.
Qed.

Lemma dltb_sval s a b :
  s <= d_exp a -> s <= d_exp b -> dltb a b = true <-> sval s a < sval s b.
Proof.
  intros Ha Hb. unfold dltb. rewrite (dcmp_sval s) by done.
  destruct (sval s a ?= sval s b) eqn:E;
    rewrite ?Z.compare_eq_iff, ?Z.compare_lt_iff, ?Z.compare_gt_iff in E; split; try lia; done.
Qed.

Lemma deqb_sval s a b :
  s <= d_exp a -> s <= d_exp b -> deqb a b = true <-> sval s a = sval s b.
Proof.
  intros Ha Hb. unfold deqb. rewrite (dcmp_sval s) by done.
  destruct (sval s a ?= sval s b) eqn:E;
    rewrite ?Z.compare_eq_iff, ?Z.compare_lt_iff, ?Z.compare_gt_iff in E; split; try lia; done.
Qed.

(** A scale below every decimal in the context. *)
Ltac scale2 a b s := pose (s := Z.min (d_exp a) (d_exp b));
  assert (s <= d_exp a) by (subst s; lia); assert (s <= d_exp b) by (subst s; lia).
Ltac scale3 a b c s := pose (s := Z.min (d_exp a) (Z.min (d_exp b) (d_exp c)));
  assert (s <= d_exp a) by (subst s; lia); assert (s <= d_exp b) by (subst s; lia);
  assert (s <= d_exp c) by (subst s; lia).

Lemma dleb_refl a : dleb a a = true.
Proof. rewrite (dleb_sval (d_exp a)); lia. Qed.

Lemma dleb_trans a b c : dleb a b = true -> dleb b c = true -> dleb a c = true.
Proof. scale3 a b c s. rewrite !(dleb_sval s) by done. lia. Qed.

Lemma dleb_total a b : dleb a b = true \/ dleb b a = true.
Proof. scale2 a b s. rewrite !(dleb_sval s) by done. lia. Qed.

Lemma dltb_negb a b : dltb a b = negb (dleb b a).
Proof.
  scale2 a b s. apply eq_bool_prop_intro. rewrite negb_True. rewrite !Is_true_true.
  rewrite (dltb_sval s), (dleb_sval s) by done. lia.
Qed.

Lemma dltb_irrefl a : dltb a a = false.
Proof. by rewrite dltb_negb, dleb_refl. Qed.

Lemma dltb_leb a b : dltb a b = true -> dleb a b = true.
Proof. scale2 a b s. rewrite (dltb_sval s), (dleb_sval s) by done. lia. Qed.

Lemma dltb_leb_trans a b c : dltb a b = true -> dleb b c = true -> dltb a c = true.
Proof. scale3 a b c s. rewrite !(dltb_sval s), (dleb_sval s) by done. lia. Qed.

Lemma dleb_ltb_trans a b c : dleb a b = true -> dltb b c = true -> dltb a c = true.
Proof. scale3 a b c s. rewrite !(dltb_sval s), (dleb_sval s) by done. lia. Qed.

#[export] Hint Resolve dleb_refl dltb_leb : agora.

(** ** Rounding never crosses a representable number *)

(** A decimal with at most [prec] significant digits. *)
Definition representable (d : dec) : Prop := ndigits (Z.of_N (d_coef d)) <= prec.

Definition mag (s : Z) (d : dec) : Z := Z.of_N (d_coef d) * 10 ^ (d_exp d - s).

Lemma round_half_even_0 c : round_half_even c 0 = c.
Proof. rewrite <- (round_half_even_exact 0 ltac:(lia) c) at 2. f_equal. cbn. lia. Qed.

Lemma round_half_even_nonneg c k : 0 <= k -> 0 <= c -> 0 <= round_half_even c k.
Proof. intros. apply round_half_even_ge; lia. Qed.

(** The digits dropped by [fix_dec]. *)
Definition dropped (c : Z) : Z := Z.max 0 (ndigits c - prec).

Lemma fix_dec_neg neg c e : d_neg (fix_dec neg c e) = neg.
Proof. unfold fix_dec. repeat case_match; done. Qed.

Lemma fix_dec_exp neg c e : e + dropped c <= d_exp (fix_dec neg c e).
Proof. unfold fix_dec, dropped. repeat case_match; cbn [d_exp]; lia. Qed.

Lemma fix_dec_exp_le neg c e : e <= d_exp (fix_dec neg c e).
Proof. pose proof (fix_dec_exp neg c e). unfold dropped in *. lia. Qed.

Lemma fix_dec_mag neg c e s :
  0 <= c -> s <= e ->
  mag s (fix_dec neg c e) = round_half_even c (dropped c) * 10 ^ (e + dropped c - s).
Proof.
  intros Hc Hs. unfold mag, fix_dec, dropped.
  destruct (ndigits c <=? prec) eqn:E; cbn [d_coef d_exp].
  - replace (Z.max 0 _) with 0 by lia. rewrite round_half_even_0, Z2N.id by done.
    do 2 f_equal; lia.
  - replace (Z.max 0 _) with (ndigits c - prec) by lia. set (k := ndigits c - prec).
    pose proof (round_half_even_nonneg c k ltac:(lia) Hc).
    destruct (round_half_even c k =? 10 ^ prec) eqn:Eq; cbn [d_coef d_exp].
    + apply Z.eqb_eq in Eq. rewrite Eq, Z2N.id by (vm_compute; congruence).
      rewrite <- !pow10_split by (unfold prec in *; lia). f_equal. lia.
    + rewrite Z2N.id by done. done.
Qed.

Section fix_repr.
Variables (neg : bool) (c e m x s : Z).
Hypotheses (Hc : 0 <= c) (Hm : 0 <= m) (Hrep : ndigits m <= prec) (He : s <= e) (Hx : s <= x).

(** When digits were dropped, numbers on a finer grid are out of reach. *)
Lemma fix_fine : x < e + dropped c -> 0 < dropped c ->
  m * 10 ^ (x - s) < 10 ^ (prec - 1) * 10 ^ (e + dropped c - s) /\
  10 ^ (prec - 1) * 10 ^ dropped c <= c.
Proof using Hc Hm Hrep He Hx.
  intros Hlt Hk. unfold dropped in *. assert (Hd : prec < ndigits c) by lia.
  replace (Z.max 0 _) with (ndigits c - prec) in * by lia.
  assert (Hc0 : 0 < c). { destruct (Z.eq_dec c 0) as [->|]; [|lia]. rewrite ndigits_0 in Hd. done. }
  pose proof (ndigits_spec c Hc0) as (_ & Hlo & _).
  apply ndigits_le in Hrep; [|done|done].
  split.
  - rewrite <- pow10_split by (unfold prec in *; lia).
    apply Z.lt_le_trans with (10 ^ prec * 10 ^ (x - s)).
    + apply Z.mul_lt_mono_pos_r; [apply pow10_gt0; lia|done].
    + rewrite <- pow10_split by (unfold prec in *; lia). apply Z.pow_le_mono_r; lia.
  - rewrite <- pow10_split by (unfold prec in *; lia). eapply Z.le_trans; [|exact Hlo].
    apply Z.pow_le_mono_r; lia.
Qed.

Lemma fix_coarse : e + dropped c <= x ->
  m * 10 ^ (x - s) = m * 10 ^ (x - (e + dropped c)) * 10 ^ dropped c * 10 ^ (e - s).
Proof using He Hx.
  intros. unfold dropped in *. rewrite <- !Z.mul_assoc, <- !pow10_split by lia.
  f_equal. f_equal. lia.
Qed.

Lemma fix_mag_le : c * 10 ^ (e - s) <= m * 10 ^ (x - s) -> mag s (fix_dec neg c e) <= m * 10 ^ (x - s).
Proof using Hc Hm Hrep He Hx.
  intros H. rewrite fix_dec_mag by done. assert (Hk : 0 <= dropped c) by (unfold dropped; lia).
  destruct (Z.le_gt_cases (e + dropped c) x) as [Hge|Hlt].
  - rewrite fix_coarse in H by done. apply Z.mul_le_mono_pos_r in H; [|apply pow10_gt0; lia].
    apply round_half_even_le in H; [|done].
    replace (m * 10 ^ (x - s)) with (m * 10 ^ (x - (e + dropped c)) * 10 ^ (e + dropped c - s)).
    + apply Z.mul_le_mono_nonneg_r; [|done]. apply Z.lt_le_incl, pow10_gt0; lia.
    + rewrite <- Z.mul_assoc, <- pow10_split by lia. do 2 f_equal; lia.
  - destruct (Z.eq_dec (dropped c) 0) as [->|]; [by rewrite round_half_even_0, Z.add_0_r|].
    destruct fix_fine as [H1 H2]; [lia|lia|]. exfalso.
    apply (Z.mul_le_mono_nonneg_r _ _ (10 ^ (e - s))) in H2; [|apply Z.lt_le_incl, pow10_gt0; lia].
    rewrite <- Z.mul_assoc, <- pow10_split in H2 by lia.
    replace (dropped c + (e - s)) with (e + dropped c - s) in H2 by lia. lia.
Qed.

Lemma fix_mag_ge : m * 10 ^ (x - s) <= c * 10 ^ (e - s) -> m * 10 ^ (x - s) <= mag s (fix_dec neg c e).
Proof using Hc Hm Hrep He Hx.
  intros H. rewrite fix_dec_mag by done. assert (Hk : 0 <= dropped c) by (unfold dropped; lia).
  destruct (Z.le_gt_cases (e + dropped c) x) as [Hge|Hlt].
  - rewrite fix_coarse in H by done. apply Z.mul_le_mono_pos_r in H; [|apply pow10_gt0; lia].
    apply round_half_even_ge in H; [|done].
    replace (m * 10 ^ (x - s)) with (m * 10 ^ (x - (e + dropped c)) * 10 ^ (e + dropped c - s)).
    + apply Z.mul_le_mono_nonneg_r; [|done]. apply Z.lt_le_incl, pow10_gt0; lia.
    + rewrite <- Z.mul_assoc, <- pow10_split by lia. do 2 f_equal; lia.
  - destruct (Z.eq_dec (dropped c) 0) as [->|]; [by rewrite round_half_even_0, Z.add_0_r|].
    destruct fix_fine as [H1 H2]; [lia|lia|].
    apply round_half_even_ge in H2; [|lia].
    eapply Z.le_trans; [apply Z.lt_le_incl, H1|].
    apply Z.mul_le_mono_nonneg_r; [|done]. apply Z.lt_le_incl, pow10_gt0; lia.
Qed.

End fix_repr.

Definition signed (neg : bool) (c : Z) : Z := if neg then - c else c.

Lemma sval_mag s d : sval s d = signed (d_neg d) (mag s d).
Proof. unfold sval, dint, mag, signed. destruct (d_neg d); lia. Qed.

Lemma mag_nonneg s d : s <= d_exp d -> 0 <= mag s d.
Proof. intros. unfold mag. apply Z.mul_nonneg_nonneg; [lia|]. apply Z.lt_le_incl, pow10_gt0; lia. Qed.

(** The signed form: [x] rounded stays on its side of a representable [r]. *)
Lemma fix_dec_le neg c e r s :
  0 <= c -> s <= e -> s <= d_exp r -> representable r ->
  signed neg c * 10 ^ (e - s) <= sval s r -> sval s (fix_dec neg c e) <= sval s r.
Proof.
  intros Hc He Hr Hrep H. rewrite !sval_mag in *. rewrite fix_dec_neg.
  pose proof (mag_nonneg s (fix_dec neg c e)) as Hf. specialize (Hf ltac:(pose proof (fix_dec_exp_le neg c e); lia)).
  pose proof (mag_nonneg s r Hr) as Hrn. pose proof (pow10_gt0 (e - s) ltac:(lia)).
  destruct neg, (d_neg r) eqn:Er; cbn [signed] in *; [|lia| |].
  - apply Z.opp_le_mono. rewrite !Z.opp_involutive. apply fix_mag_ge; try done; unfold mag in *; lia.
  - transitivity (0 * 10 ^ (d_exp r - s)); [|lia]. apply fix_mag_le; try done. lia.
  - apply fix_mag_le; try done; unfold mag in *; lia.
Qed.

Lemma fix_dec_ge neg c e r s :
  0 <= c -> s <= e -> s <= d_exp r -> representable r ->
  sval s r <= signed neg c * 10 ^ (e - s) -> sval s r <= sval s (fix_dec neg c e).
Proof.
  intros Hc He Hr Hrep H. rewrite !sval_mag in *. rewrite fix_dec_neg.
  pose proof (mag_nonneg s (fix_dec neg c e)) as Hf. specialize (Hf ltac:(pose proof (fix_dec_exp_le neg c e); lia)).
  pose proof (mag_nonneg s r Hr) as Hrn. pose proof (pow10_gt0 (e - s) ltac:(lia)).
  destruct neg, (d_neg r) eqn:Er; cbn [signed] in *; [| |lia|].
  - apply -> Z.opp_le_mono. apply fix_mag_le; try done; unfold mag in *; lia.
  - transitivity (- (0 * 10 ^ (d_exp r - s))); [|apply -> Z.opp_le_mono; apply fix_mag_le; try done; lia]. nia.
  - apply fix_mag_ge; try done; unfold mag in *; lia.
Qed.

(** ** The operations against representable bounds *)

Abbreviation dle a b := (dleb a b = true).

Definition dnonneg (d : dec) : Prop := dle dzero d.

Lemma dnonneg_iff d : dnonneg d <-> 0 <= dint d.
Proof.
  unfold dnonneg. set (s := Z.min 0 (d_exp d)).
  rewrite (dleb_sval s) by (cbn; lia). unfold sval. cbn -[Z.pow].
  pose proof (pow10_gt0 (d_exp d - s) ltac:(lia)). nia.
Qed.

Lemma dadd_signed a b s :
  s <= d_exp a -> s <= d_exp b ->
  exists neg c e, dadd a b = fix_dec neg c e /\ 0 <= c /\ s <= e /\
    signed neg c * 10 ^ (e - s) = sval s a + sval s b.
Proof.
  intros Ha Hb. unfold dadd. set (e := Z.min (d_exp a) (d_exp b)).
  set (v := dint a * _ + _). eexists _, (Z.abs v), e. split; [done|].
  split; [lia|]. split; [lia|].
  rewrite (sval_rescale s e a), (sval_rescale s e b) by lia.
  rewrite <- Z.mul_add_distr_r. f_equal. fold (sval e a) (sval e b) in v.
  change (sval e a + sval e b) with v. unfold signed.
  destruct (v =? 0) eqn:E1; [|destruct (v <? 0) eqn:E2]; try lia.
  apply Z.eqb_eq in E1. rewrite E1. by destruct (d_neg a && d_neg b).
Qed.

Lemma dadd_le a b r s :
  representable r -> s <= d_exp a -> s <= d_exp b -> s <= d_exp r ->
  sval s a + sval s b <= sval s r -> dle (dadd a b) r.
Proof.
  intros Hr Ha Hb Hs H. destruct (dadd_signed a b s) as (n & c & e & -> & Hc & He & Hv); [done..|].
  rewrite (dleb_sval s); [|pose proof (fix_dec_exp_le n c e); lia|done].
  apply fix_dec_le; try done. lia.
Qed.

Lemma dadd_ge a b r s :
  representable r -> s <= d_exp a -> s <= d_exp b -> s <= d_exp r ->
  sval s r <= sval s a + sval s b -> dle r (dadd a b).
Proof.
  intros Hr Ha Hb Hs H. destruct (dadd_signed a b s) as (n & c & e & -> & Hc & He & Hv); [done..|].
  rewrite (dleb_sval s); [|done|pose proof (fix_dec_exp_le n c e); lia].
  apply fix_dec_ge; try done. lia.
Qed.

Lemma representable_0 : representable dzero.
Proof. unfold representable. vm_compute. congruence. Qed.

Lemma representable_1 : representable dunit.
Proof. unfold representable. vm_compute. congruence. Qed.

#[export] Hint Resolve representable_0 representable_1 : agora.

Lemma dadd_nonneg a b : dnonneg a -> dnonneg b -> dnonneg (dadd a b).
Proof.
  intros Ha%dnonneg_iff Hb%dnonneg_iff. set (s := Z.min 0 (Z.min (d_exp a) (d_exp b))).
  apply (dadd_ge _ _ _ s); try (cbn; lia); [apply representable_0|].
  unfold sval. pose proof (pow10_gt0 (d_exp a - s) ltac:(lia)).
  pose proof (pow10_gt0 (d_exp b - s) ltac:(lia)). cbn -[Z.pow]. nia.
Qed.

(** Adding a non-negative amount never lowers a representable number. *)
Lemma dadd_increasing a b : representable a -> dnonneg b -> dle a (dadd a b).
Proof.
  intros Ha Hb%dnonneg_iff. scale2 a b s.
  apply (dadd_ge _ _ _ s); try done. unfold sval at 3.
  pose proof (pow10_gt0 (d_exp b - s) ltac:(lia)). nia.
Qed.

Lemma fix_dec_nonneg neg c e : 0 <= signed neg c -> 0 <= c -> dnonneg (fix_dec neg c e).
Proof.
  intros Hs Hc. unfold dnonneg. set (s := Z.min 0 e).
  rewrite (dleb_sval s); [|cbn; lia|pose proof (fix_dec_exp_le neg c e); lia].
  apply fix_dec_ge; try (cbn; lia); [apply representable_0|].
  unfold sval. cbn -[Z.pow]. pose proof (pow10_gt0 (e - s) ltac:(lia)). nia.
Qed.

Lemma dmul_nonneg a b : dnonneg a -> dnonneg b -> dnonneg (dmul a b).
Proof.
  intros Ha%dnonneg_iff Hb%dnonneg_iff. unfold dint in *. unfold dmul.
  apply fix_dec_nonneg; [|lia]. destruct (d_neg a), (d_neg b); cbn [xorb signed]; nia.
Qed.

Lemma dabs_nonneg a : dnonneg (dabs a).
Proof. apply fix_dec_nonneg; cbn; lia. Qed.

Lemma dsum_nonneg l : Forall dnonneg l -> dnonneg (dsum l).
Proof.
  unfold dsum. assert (H0 : dnonneg dzero) by apply dleb_refl. revert H0.
  generalize dzero. induction l as [|x l IH]; intros d Hd Hl; cbn; [done|].
  apply Forall_cons in Hl as [Hx Hl]. apply IH; [by apply dadd_nonneg|done].
Qed.

(** Python's [max] and [min] pick one of their arguments, on the right side. *)
Lemma dmax_ge_l a b : dle a (dmax a b).
Proof. unfold dmax. destruct (dltb a b) eqn:E; [by apply dltb_leb|apply dleb_refl]. Qed.

Lemma dmax_ge_r a b : dle b (dmax a b).
Proof. unfold dmax. rewrite dltb_negb. destruct (dleb b a) eqn:E; cbn; [done|apply dleb_refl]. Qed.

Lemma dmin_le_l a b : dle (dmin a b) a.
Proof. unfold dmin. destruct (dltb b a) eqn:E; [by apply dltb_leb|apply dleb_refl]. Qed.

Lemma dmin_le_r a b : dle (dmin a b) b.
Proof. unfold dmin. rewrite dltb_negb. destruct (dleb a b) eqn:E; cbn; [done|apply dleb_refl]. Qed.

Lemma dmax_lub a b c : dle a c -> dle b c -> dle (dmax a b) c.
Proof. unfold dmax. by case_match. Qed.

Lemma dmin_glb a b c : dle c a -> dle c b -> dle c (dmin a b).
Proof. unfold dmin. by case_match. Qed.

(** [max(low, min(high, x))] lies between the bounds. *)
Lemma clamp_bounds lo hi x :
  dle lo hi -> dle lo (dmax lo (dmin hi x)) /\ dle (dmax lo (dmin hi x)) hi.
Proof. intros H. split; [apply dmax_ge_l|]. apply dmax_lub; [done|apply dmin_le_l]. Qed.

(** and is [x] itself when [x] is between them. *)
Lemma clamp_id lo hi x :
  dle lo x -> dle x hi -> dltb x hi = true -> dltb lo x = true -> dmax lo (dmin hi x) = x.
Proof. intros _ _ H1 H2. unfold dmin. rewrite H1. unfold dmax. by rewrite H2. Qed.

(** ** Ratios of counts *)

Lemma ndigits_mono a b : 0 < a -> a <= b -> ndigits a <= ndigits b.
Proof.
  intros Ha Hab. destruct (ndigits_spec b) as (H1 & _ & Hb); [lia|].
  apply ndigits_le; lia.
Qed.

Lemma strip_zeros_value fuel q e ideal s :
  s <= e ->
  let '(q', e') := strip_zeros fuel q e ideal in
  e <= e' /\ q' * 10 ^ (e' - s) = q * 10 ^ (e - s) /\ (0 <= q -> 0 <= q').
Proof.
  revert q e; induction fuel as [|f IH]; intros q e Hs; cbn [strip_zeros]; [lia|].
  destruct ((e <? ideal) && (q mod 10 =? 0)) eqn:E; [|lia].
  apply andb_true_iff in E as [_ Hm%Z.eqb_eq].
  specialize (IH (q / 10) (e + 1) ltac:(lia)). destruct (strip_zeros _ _ _ _) as [q' e'].
  destruct IH as (H1 & H2 & H3). split; [lia|]. split.
  - rewrite H2. replace (e + 1 - s) with (Z.succ (e - s)) by lia.
    rewrite Z.pow_succ_r by lia. pose proof (Z.div_mod q 10). nia.
  - intros. apply H3, Z.div_pos; lia.
Qed.

(** A proportion [n / m] with [n <= m] divides without error and, rounded,
    stays in the unit interval. *)
Lemma ddiv_ratio n m :
  0 <= n <= m -> 0 < m ->
  exists d, ddiv (dec_of_Z n) (dec_of_Z m) = Ok d /\ dnonneg d /\ dle d dunit.
Proof.
  intros Hn Hm. unfold ddiv. cbn [d_neg d_coef d_exp dec_of_Z].
  replace (n <? 0) with false by lia. replace (m <? 0) with false by lia. cbn [xorb].
  rewrite !N2Z.inj_abs_N, !Z.abs_eq by lia. replace (m =? 0) with false by lia.
  destruct (n =? 0) eqn:En; [eexists; split; [done|]; split; by vm_compute|].
  apply Z.eqb_neq in En. set (sh := ndigits m - ndigits n + prec + 1).
  assert (Hsh : 0 < sh) by (pose proof (ndigits_mono n m); unfold prec in *; lia).
  pose proof (pow10_gt0 sh ltac:(lia)) as Hp.
  unfold div_coef. replace (0 <=? sh) with true by lia.
  set (q := n * 10 ^ sh / m).
  assert (Hq0 : 0 <= q) by (apply Z.div_pos; nia).
  pose proof (Z.div_mod (n * 10 ^ sh) m ltac:(lia)) as Hdm. fold q in Hdm.
  pose proof (Z.mod_pos_bound (n * 10 ^ sh) m Hm) as Hmod.
  assert (Hfin : forall c e, 0 <= c -> - sh <= e -> c * 10 ^ (e + sh) <= 10 ^ sh ->
     dnonneg (fix_dec false c e) /\ dle (fix_dec false c e) dunit).
  { intros c e Hc He Hle. split; [by apply fix_dec_nonneg|].
    rewrite (dleb_sval (- sh)); [|pose proof (fix_dec_exp_le false c e); lia|cbn; lia].
    apply fix_dec_le; try (cbn; lia); [apply representable_1|].
    unfold sval. cbn [signed dint d_neg d_coef d_exp dec_of_Z].
    replace (e - - sh) with (e + sh) by lia. replace (0 - - sh) with sh by lia.
    change (dint dunit) with 1. lia. }
  destruct (negb (n * 10 ^ sh mod m =? 0)) eqn:Est.
  - eexists; split; [done|].
    replace (0 - 0 - sh) with (- sh) by lia. apply Hfin; [case_match; lia|lia|].
    replace (- sh + sh) with 0 by lia. rewrite Z.pow_0_r, Z.mul_1_r.
    assert (q < 10 ^ sh) by (apply negb_true_iff, Z.eqb_neq in Est; nia). case_match; lia.
  - pose proof (strip_zeros_value (Z.to_nat sh) q (0 - 0 - sh) (0 - 0) (- sh) ltac:(lia)) as Hst.
    destruct (strip_zeros _ _ _ _) as [q' e']. destruct Hst as (H1 & H2 & H3).
    eexists; split; [done|]. apply Hfin; [lia|lia|].
    replace (e' + sh) with (e' - - sh) by lia. rewrite H2.
    replace (0 - 0 - sh - - sh) with 0 by lia. rewrite Z.pow_0_r, Z.mul_1_r. nia.
Qed.

(** Division fails only on a zero divisor. *)
Lemma ddiv_total a b : dint b <> 0 -> exists d, ddiv a b = Ok d.
Proof.
  intros Hb. unfold ddiv. assert (Z.of_N (d_coef b) <> 0).
  { unfold dint in Hb. case_match; lia. }
  replace (Z.of_N (d_coef b) =? 0) with false by lia.
  repeat case_match; eauto.
Qed.

Lemma dunit_nonneg : dnonneg dunit.
Proof. by vm_compute. Qed.

#[export] Hint Resolve dunit_nonneg dadd_nonneg dmul_nonneg : agora.

Lemma dle_unit_nonzero d : dle dunit d -> dint d <> 0.
Proof.
  set (s := Z.min 0 (d_exp d)). rewrite (dleb_sval s) by (cbn; lia). unfold sval. cbn -[Z.pow].
  pose proof (pow10_gt0 (0 - s) ltac:(lia)). nia.
Qed.

(** [total + 1] of a non-negative total is a divisor. *)
Lemma dadd_unit_nonzero d : dnonneg d -> dint (dadd d dunit) <> 0.
Proof.
  intros Hd%dnonneg_iff. apply dle_unit_nonzero. set (s := Z.min 0 (d_exp d)).
  apply (dadd_ge _ _ _ s); try (cbn; lia); [apply representable_1|].
  unfold sval. pose proof (pow10_gt0 (d_exp d - s) ltac:(lia)). nia.
Qed.

(** Numbers equal to the same number are on both sides of each other. *)
Lemma deqb_same_le a b k : deqb a k = true -> deqb b k = true -> dleb b a = true.
Proof.
  set (s := Z.min (Z.min (d_exp a) (d_exp b)) (d_exp k)). rewrite !(deqb_sval s), (dleb_sval s) by lia. lia.
Qed.
