(* ===== verification/Symbolic.v ===== *)
(** * Symbolic evaluation values and the UNKNOWN policy

    [app/ports/symbolic.py]: the solver-neutral value objects with the checks
    of their [__post_init__]; [app/domain/symbolic_unknown_policy.py]: what a
    satisfiability verdict authorises downstream. *)

From S2P Require Import Prelude.

Local Open Scope Z_scope.

Inductive SymbolicStatus : Type := SAT | UNSAT | UNKNOWN.

#[export] Instance SymbolicStatus_eq_dec : EqDecision SymbolicStatus.
Proof. solve_decision. Defined.

Inductive SymbolicValueKind : Type := BOOLEAN | INTEGER | RATIONAL | ALGEBRAIC.

#[export] Instance SymbolicValueKind_eq_dec : EqDecision SymbolicValueKind.
Proof. solve_decision. Defined.

Record SymbolicValue : Type := mkSymbolicValue {
  sv_kind : SymbolicValueKind;
  sv_boolean : option bool;
  sv_numerator : option string;
  sv_denominator : option string;
  sv_polynomial : list string;
  sv_root_index : option Z
}.

#[export] Instance SymbolicValue_eq_dec : EqDecision SymbolicValue.
Proof. solve_decision. Defined.

Definition is_none {A} (o : option A) : bool := match o with None => true | Some _ => false end.
Definition is_some {A} (o : option A) : bool := negb (is_none o).
Definition nonempty {A} (l : list A) : bool := match l with [] => false | _ => true end.

(** [any(str(int(value)) != value for value in values)] *)
Fixpoint any_not_canonical (values : list string) : res bool :=
  match values with
  | [] => Ok false
  | v :: vs => n ← int_of_string v;
               if String.eqb (Z_str n) v then any_not_canonical vs else Ok true
  end.

(** The three branches of [SymbolicValue.__post_init__]. *)
Definition check_boolean_value (v : SymbolicValue) : res unit :=
  guard_not (is_none (sv_boolean v) || is_some (sv_numerator v) || is_some (sv_denominator v)
             || nonempty (sv_polynomial v) || is_some (sv_root_index v))
    ValueErrorC "BOOLEAN requires only boolean".

Definition check_algebraic_value (v : SymbolicValue) : res unit :=
  _ ← guard_not (is_some (sv_boolean v) || is_some (sv_numerator v) || is_some (sv_denominator v)
             || (length (sv_polynomial v) <? 2)%nat
             || match sv_root_index v with None => true | Some r => r <? 1 end)
    ValueErrorC "ALGEBRAIC requires polynomial coefficients and root index";
  bad ← any_not_canonical (sv_polynomial v);
  _ ← guard_not bad ValueErrorC "polynomial coefficients must be canonical base-10 integers";
  guard_not (String.eqb (default "" (last (sv_polynomial v))) "0")
    ValueErrorC "algebraic polynomial leading coefficient must be non-zero".

Definition check_rational_value (v : SymbolicValue) : res unit :=
  match sv_boolean v, sv_numerator v, sv_denominator v with
  | None, Some n, Some d =>
      _ ← guard_not (nonempty (sv_polynomial v) || is_some (sv_root_index v))
            ValueErrorC "rational values cannot contain algebraic fields";
      numerator ← int_of_string n;
      denominator ← int_of_string d;
      _ ← guard_not (denominator <=? 0) ValueErrorC "denominator must be positive";
      _ ← guard_not (bool_decide (sv_kind v = INTEGER) && negb (denominator =? 1))
            ValueErrorC "INTEGER denominator must be 1";
      _ ← guard_not (negb (String.eqb (Z_str numerator) n) || negb (String.eqb (Z_str denominator) d))
            ValueErrorC "numeric value must use canonical base-10 integers";
      guard_not (negb (Z.gcd numerator denominator =? 1)) ValueErrorC "numeric value must be reduced"
  | _, _, _ => raise ValueErrorC "numeric values require numerator and denominator"
  end.

Definition SymbolicValue_post_init (v : SymbolicValue) : res unit :=
  match sv_kind v with
  | BOOLEAN => check_boolean_value v
  | ALGEBRAIC => check_algebraic_value v
  | _ => check_rational_value v
  end.

(** [_SYMBOL_NAME]: a letter, then at most 63 letters, digits or underscores. *)
Definition is_word (c : ascii) : bool := is_alnum c || Ascii.eqb c "_"%char.

Definition symbol_name_ok (s : string) : bool :=
  match chars s with
  | c :: l => (is_upper c || is_lower c) && (length l <=? 63)%nat && forallb is_word l
  | [] => false
  end.

(** [_AST_PATH]: [ast] followed by any number of [.arguments[0]] and [.arguments[1]]. *)
Fixpoint strip_prefix (p l : list ascii) : option (list ascii) :=
  match p, l with
  | [], _ => Some l
  | a :: p', b :: l' => if Ascii.eqb a b then strip_prefix p' l' else None
  | _ :: _, [] => None
  end.

Fixpoint ast_steps_ok (fuel : nat) (l : list ascii) : bool :=
  match l with
  | [] => true
  | _ =>
      match fuel with
      | O => false
      | S f =>
          match strip_prefix (chars ".arguments[0]") l, strip_prefix (chars ".arguments[1]") l with
          | Some l', _ => ast_steps_ok f l'
          | None, Some l' => ast_steps_ok f l'
          | None, None => false
          end
      end
  end.

Definition ast_path_ok (s : string) : bool :=
  match strip_prefix (chars "ast") (chars s) with
  | Some l => ast_steps_ok (length l) l
  | None => false
  end.

Record SymbolicWitnessBinding : Type := mkWitnessBinding {
  wb_name : string; wb_value : SymbolicValue }.

Record SymbolicCoreMember : Type := mkCoreMember { cm_ast_path : string }.

#[export] Instance SymbolicWitnessBinding_eq_dec : EqDecision SymbolicWitnessBinding.
Proof. solve_decision. Defined.
#[export] Instance SymbolicCoreMember_eq_dec : EqDecision SymbolicCoreMember.
Proof. solve_decision. Defined.

Definition SymbolicWitnessBinding_post_init (b : SymbolicWitnessBinding) : res unit :=
  guard_not (negb (symbol_name_ok (wb_name b)))
    ValueErrorC "witness name must be a valid declared symbol name".

Definition SymbolicCoreMember_post_init (m : SymbolicCoreMember) : res unit :=
  guard_not (negb (ast_path_ok (cm_ast_path m)))
    ValueErrorC "unsat core member must use a canonical AST path".

Record SymbolicReasoningResult : Type := mkReasoningResult {
  sr_status : SymbolicStatus;
  sr_formalization_revision_id : uuid;
  sr_ast_hash : string;
  sr_solver : string;
  sr_solver_version : string;
  sr_timeout_ms : Z;
  sr_configuration_id : string;
  sr_reason_unknown : option string;
  sr_witness : list SymbolicWitnessBinding;
  sr_unsat_core : list SymbolicCoreMember
}.

(** [reason is None or not reason.strip()] *)
Definition missing_or_blank (o : option string) : bool :=
  match o with None => true | Some s => blank s end.

Definition check_reason_unknown (r : SymbolicReasoningResult) : res unit :=
  if decide (sr_status r = UNKNOWN)
  then guard_not (missing_or_blank (sr_reason_unknown r)) ValueErrorC "UNKNOWN requires reason_unknown"
  else guard_not (is_some (sr_reason_unknown r)) ValueErrorC "reason_unknown is valid only for UNKNOWN".

Definition check_sat_evidence (r : SymbolicReasoningResult) : res unit :=
  if decide (sr_status r = SAT)
  then guard_not (nonempty (sr_unsat_core r)) ValueErrorC "SAT cannot contain an unsat core"
  else guard_not (nonempty (sr_witness r)) ValueErrorC "only SAT can contain a witness".

Definition check_unsat_evidence (r : SymbolicReasoningResult) : res unit :=
  if decide (sr_status r = UNSAT)
  then guard_not (negb (nonempty (sr_unsat_core r)))
         ValueErrorC "UNSAT requires a contradiction-sufficient core"
  else guard_not (nonempty (sr_unsat_core r)) ValueErrorC "only UNSAT can contain an unsat core".

Definition distinct {A} `{EqDecision A} (l : list A) : bool := bool_decide (NoDup l).

(** [SymbolicReasoningResult.__post_init__] *)
Definition SymbolicReasoningResult_post_init (r : SymbolicReasoningResult) : res unit :=
  _ ← guard_not (sr_timeout_ms r <=? 0) ValueErrorC "timeout_ms must be positive";
  _ ← check_reason_unknown r;
  _ ← check_sat_evidence r;
  _ ← check_unsat_evidence r;
  _ ← guard_not (negb (bool_decide (sort_by (fun a b => String.leb (wb_name a) (wb_name b)) (sr_witness r)
                                    = sr_witness r)))
        ValueErrorC "witness bindings must be sorted by name";
  _ ← guard_not (negb (distinct (map wb_name (sr_witness r))))
        ValueErrorC "witness binding names must be unique";
  _ ← guard_not (negb (bool_decide (sort_by (fun a b => String.leb (cm_ast_path a) (cm_ast_path b))
                                      (sr_unsat_core r) = sr_unsat_core r)))
        ValueErrorC "unsat core members must be sorted by AST path";
  guard_not (negb (distinct (map cm_ast_path (sr_unsat_core r))))
    ValueErrorC "unsat core AST paths must be unique".

(** ** The policy *)

Inductive SymbolicAssuranceAction : Type := PROCEED | BLOCK | DEFER.

#[export] Instance SymbolicAssuranceAction_eq_dec : EqDecision SymbolicAssuranceAction.
Proof. solve_decision. Defined.

Inductive SymbolicUnknownKind : Type := TIMEOUT | INCOMPLETE | OTHER.

#[export] Instance SymbolicUnknownKind_eq_dec : EqDecision SymbolicUnknownKind.
Proof. solve_decision. Defined.

Record SymbolicUnknownPolicyDecision : Type := mkPolicyDecision {
  pd_symbolic_status : SymbolicStatus;
  pd_action : SymbolicAssuranceAction;
  pd_reason_code : string;
  pd_explanation : string;
  pd_unknown_kind : option SymbolicUnknownKind;
  pd_solver_reason_code : option string
}.

Definition provides_affirmative_assurance (d : SymbolicUnknownPolicyDecision) : bool :=
  bool_decide (pd_action d = PROCEED).

Definition _TIMEOUT_REASONS : list string := ["timeout"; "canceled"; "cancelled"; "resource limit"].
Definition _INCOMPLETE_REASONS : list string := ["incomplete"; "unknown"; "solver returned no reason"].

Definition _solver_reason_code (reason : string) : string :=
  let normalized := map_chars upper_char (strip reason) in
  let cleaned := map_chars (fun c => if is_alnum c then c else "_"%char) normalized in
  let collapsed := join "_" (runs (fun c => Ascii.eqb c "_"%char) cleaned) in
  let code := String.substring 0 64 collapsed in
  if String.eqb code "" then "UNSPECIFIED" else code.

Definition _classify_unknown_reason (reason : string) : SymbolicUnknownKind :=
  let normalized := join " " (runs is_space (map_chars lower_char reason)) in
  if bool_decide (normalized ∈ _TIMEOUT_REASONS) then TIMEOUT
  else if bool_decide (normalized ∈ _INCOMPLETE_REASONS) then INCOMPLETE
  else OTHER.

Definition decide_status (status : SymbolicStatus) (reason_unknown : option string)
    : res SymbolicUnknownPolicyDecision :=
  match status with
  | SAT =>
      Ok (mkPolicyDecision status PROCEED "SYMBOLIC_ASSURANCE_ESTABLISHED"
            "The symbolic constraints are satisfiable under the encoded premises." None None)
  | UNSAT =>
      Ok (mkPolicyDecision status BLOCK "SYMBOLIC_CONTRADICTION_ESTABLISHED"
            "A contradiction was established under the encoded premises." None None)
  | UNKNOWN =>
      if missing_or_blank reason_unknown
      then raise ValueErrorC "UNKNOWN symbolic status requires a solver reason"
      else
        let reason := default "" reason_unknown in
        Ok (mkPolicyDecision status DEFER "SYMBOLIC_ASSURANCE_UNAVAILABLE"
              "Symbolic certainty is unavailable; actions requiring positive symbolic assurance must be deferred."
              (Some (_classify_unknown_reason reason)) (Some (_solver_reason_code reason)))
  end.

Definition policy_decide (result : SymbolicReasoningResult) : res SymbolicUnknownPolicyDecision :=
  decide_status (sr_status result) (sr_reason_unknown result).

Example reason_code_example :
  map _solver_reason_code ["  max. memory (exceeded)"; "***"; "timeout"]
  = ["MAX_MEMORY_EXCEEDED"; "UNSPECIFIED"; "TIMEOUT"].
Proof. vm_compute. reflexivity. Qed.

(** ** Properties *)

Definition code_char (c : ascii) : bool := is_upper c || is_digit c || Ascii.eqb c "_"%char.

Lemma clean_upper_code_char c :
  code_char (if is_alnum (upper_char c) then upper_char c else "_"%char) = true.
Proof. revert c. apply ascii_forall. vm_compute. reflexivity. Qed.

Lemma collapsed_code_chars s :
  Forall (fun c => code_char c = true)
    (chars (join "_" (runs (fun c => Ascii.eqb c "_"%char)
       (map_chars (fun c => if is_alnum c then c else "_"%char) (map_chars upper_char s))))).
Proof.
  apply join_chars; [repeat constructor|].
  eapply Forall_impl; [apply (runs_chars (fun c => code_char c = true))|].
  - rewrite !chars_map, map_map. apply Forall_map, Forall_true. intros c.
    apply clean_upper_code_char.
  - intros p [_ Hp]. eapply Forall_impl; [exact Hp|]. by intros c [? _].
Qed.

Lemma numeric_strings v :
  sv_kind v = INTEGER \/ sv_kind v = RATIONAL -> SymbolicValue_post_init v = Ok () ->
  exists n d, sv_boolean v = None /\ sv_numerator v = Some (Z_str n) /\
    sv_denominator v = Some (Z_str d) /\ sv_polynomial v = [] /\ sv_root_index v = None /\
    0 < d /\ Z.gcd n d = 1 /\
    int_of_string (Z_str n) = Ok n /\ int_of_string (Z_str d) = Ok d.
Proof.
  intros Hk H. assert (check_rational_value v = Ok ()) as H'.
  { revert H. unfold SymbolicValue_post_init. destruct Hk as [-> | ->]; done. }
  clear H. revert H'. unfold check_rational_value.
  destruct (sv_boolean v), (sv_numerator v) as [ns|], (sv_denominator v) as [ds|]; try done.
  intros H. inv_ok.
  apply orb_false_iff in Hr as [Hpoly Hroot].
  apply orb_false_iff in Hr4 as [Hn%negb_false_iff%String.eqb_eq Hd%negb_false_iff%String.eqb_eq].
  apply negb_false_iff, Z.eqb_eq in H. subst ns ds.
  exists r0, r1. destruct (sv_polynomial v), (sv_root_index v); try done. repeat split; auto. lia.
Qed.

(** Canonical exact values: two validated numeric values of one kind that
    denote the same rational (equal cross products) are the same record, so a
    number has a single representation on the wire. *)
Theorem numeric_value_canonical v w a b c d :
  sv_kind v = INTEGER \/ sv_kind v = RATIONAL -> sv_kind w = sv_kind v ->
  SymbolicValue_post_init v = Ok () -> SymbolicValue_post_init w = Ok () ->
  int_of_string (default "" (sv_numerator v)) = Ok a ->
  int_of_string (default "" (sv_denominator v)) = Ok b ->
  int_of_string (default "" (sv_numerator w)) = Ok c ->
  int_of_string (default "" (sv_denominator w)) = Ok d ->
  a * d = c * b -> v = w.
Proof.
  intros Hk Hkw Hv Hw Ha Hb Hc Hd Heq.
  destruct (numeric_strings v Hk Hv) as (n1 & d1 & Hb1 & Hn1 & Hd1 & Hp1 & Hr1 & Hpos1 & Hg1 & Hin1 & Hid1).
  destruct (numeric_strings w) as (n2 & d2 & Hb2 & Hn2 & Hd2 & Hp2 & Hr2 & Hpos2 & Hg2 & Hin2 & Hid2);
    [by rewrite Hkw|done|].
  rewrite Hn1 in Ha. rewrite Hd1 in Hb. rewrite Hn2 in Hc. rewrite Hd2 in Hd. cbn in Ha, Hb, Hc, Hd.
  assert (a = n1 /\ b = d1 /\ c = n2 /\ d = d2) as (-> & -> & -> & ->) by (repeat split; congruence).
  assert (Hdiv1 : (d1 | d2)).
  { apply Z.gauss with n1; [exists n2; lia|by rewrite Z.gcd_comm]. }
  assert (Hdiv2 : (d2 | d1)).
  { apply Z.gauss with n2; [exists n1; lia|by rewrite Z.gcd_comm]. }
  assert (d1 = d2) as -> by (apply Z.divide_antisym_nonneg; lia || done).
  assert (n1 = n2) as -> by nia.
  destruct v, w; cbn in *; congruence.
Qed.

Lemma numeric_value_canonical_witness :
  let v := mkSymbolicValue RATIONAL None (Some "-3") (Some "4") [] None in
  SymbolicValue_post_init v = Ok () /\ v = mkSymbolicValue RATIONAL None (Some "-3") (Some "4") [] None.
Proof.
  split; [vm_compute; reflexivity|].
  apply (numeric_value_canonical _ _ (-3) 4 (-3) 4);
    (right; reflexivity) || (vm_compute; reflexivity).
Defined.

(** The reason code carried downstream is never empty, at most 64
    characters, and made of upper-case letters, digits and underscores only,
    whatever text the solver produced. *)
Theorem solver_reason_code_safe reason :
  let code := _solver_reason_code reason in
  code <> "" /\ (String.length code <= 64)%nat /\ Forall (fun c => code_char c = true) (chars code).
Proof.
  unfold _solver_reason_code. cbv zeta. case_match eqn:E.
  - split; [done|]. split; [cbn; lia|]. repeat constructor.
  - apply String.eqb_neq in E. split; [done|].
    rewrite <- length_chars, chars_prefix. split; [rewrite length_take; lia|].
    apply Forall_take, collapsed_code_chars.
Qed.

(** The unknown policy is total on validated solver results and gives
    positive assurance exactly for SAT: UNSAT blocks and UNKNOWN defers with a
    classified reason. *)
Theorem policy_assurance_only_for_sat r :
  SymbolicReasoningResult_post_init r = Ok () ->
  exists d, policy_decide r = Ok d /\ pd_symbolic_status d = sr_status r /\
    (provides_affirmative_assurance d = true <-> sr_status r = SAT) /\
    (pd_action d = BLOCK <-> sr_status r = UNSAT) /\
    (is_some (pd_unknown_kind d) = true <-> sr_status r = UNKNOWN).
Proof.
  unfold SymbolicReasoningResult_post_init, check_reason_unknown, policy_decide. intros H. inv_ok.
  destruct (sr_status r) eqn:Es; cbn [decide_status]; [eexists; split; [done|]..|].
  - split; [done|]. repeat split; done.
  - split; [done|]. repeat split; done.
  - rewrite decide_True in Hr1 by done. apply guard_not_Ok in Hr1. rewrite Hr1.
    eexists; split; [done|]. repeat split; done.
Qed.

Lemma policy_assurance_only_for_sat_witness :
  let r := mkReasoningResult UNKNOWN 7 "h" "z3" "4.12" 1000 "cfg" (Some "timeout") [] [] in
  SymbolicReasoningResult_post_init r = Ok () /\
  exists d, policy_decide r = Ok d /\ pd_symbolic_status d = sr_status r /\
    (provides_affirmative_assurance d = true <-> sr_status r = SAT) /\
    (pd_action d = BLOCK <-> sr_status r = UNSAT) /\
    (is_some (pd_unknown_kind d) = true <-> sr_status r = UNKNOWN).
Proof.
  split; [vm_compute; reflexivity|].
  apply policy_assurance_only_for_sat. vm_compute. reflexivity.
Defined.
