(* ===== verification/Sha256.v ===== *)
(** * SHA-256

    [hashlib.sha256(data).hexdigest()] on ASCII text: the compression function
    over 32-bit words held in the kernel's 63-bit integers, with every sum reduced
    modulo [2^32].  The digest always prints as 64 lower-case hexadecimal digits. *)

From Stdlib Require Import Uint63.
From S2P Require Import Prelude.

Local Open Scope Z_scope.

(** A 32-bit word. *)
Abbreviation word := int.

Definition w32 (x : word) : word := (x land 4294967295)%uint63.
Definition add32 (x y : word) : word := w32 (x + y)%uint63.
Definition rotr (x n : word) : word := ((x >> n) lor w32 (x << (32 - n)))%uint63.
Definition not32 (x : word) : word := (x lxor 4294967295)%uint63.

Definition big_sigma0 (x : word) : word := (rotr x 2 lxor rotr x 13 lxor rotr x 22)%uint63.
Definition big_sigma1 (x : word) : word := (rotr x 6 lxor rotr x 11 lxor rotr x 25)%uint63.
Definition small_sigma0 (x : word) : word := (rotr x 7 lxor rotr x 18 lxor (x >> 3))%uint63.
Definition small_sigma1 (x : word) : word := (rotr x 17 lxor rotr x 19 lxor (x >> 10))%uint63.
Definition choose (x y z : word) : word := ((x land y) lxor (not32 x land z))%uint63.
Definition majority (x y z : word) : word := ((x land y) lxor (x land z) lxor (y land z))%uint63.

(** The 64 round constants, eight to a row and most significant first: the
    fractional parts of the cube roots of the first 64 primes. *)
Definition constant_rows : list Z :=
  [0x428a2f9871374491b5c0fbcfe9b5dba53956c25b59f111f1923f82a4ab1c5ed5;
   0xd807aa9812835b01243185be550c7dc372be5d7480deb1fe9bdc06a7c19bf174;
   0xe49b69c1efbe47860fc19dc6240ca1cc2de92c6f4a7484aa5cb0a9dc76f988da;
   0x983e5152a831c66db00327c8bf597fc7c6e00bf3d5a7914706ca635114292967;
   0x27b70a852e1b21384d2c6dfc53380d13650a7354766a0abb81c2c92e92722c85;
   0xa2bfe8a1a81a664bc24b8b70c76c51a3d192e819d6990624f40e3585106aa070;
   0x19a4c1161e376c082748774c34b0bcb5391c0cb34ed8aa4a5b9cca4f682e6ff3;
   0x748f82ee78a5636f84c878148cc7020890befffaa4506cebbef9a3f7c67178f2].

Definition split_row (row : Z) : list word :=
  map (fun i => of_Z (Z.land (Z.shiftr row (32 * i)) 4294967295)) [7; 6; 5; 4; 3; 2; 1; 0].

Definition round_constants : list word := Eval vm_compute in flat_map split_row constant_rows.

(** The eight working variables. *)
Record hash_state : Type := HashState {
  ha : word; hb : word; hc : word; hd : word; he : word; hf : word; hg : word; hh : word }.

Definition initial_state : hash_state :=
  (HashState 0x6a09e667 0xbb67ae85 0x3c6ef372 0xa54ff53a 0x510e527f 0x9b05688c 0x1f83d9ab 0x5be0cd19)%uint63.

Definition sha_round (s : hash_state) (kw : word * word) : hash_state :=
  let t1 := add32 (add32 (add32 (hh s) (big_sigma1 (he s))) (choose (he s) (hf s) (hg s)))
                  (add32 (fst kw) (snd kw)) in
  let t2 := add32 (big_sigma0 (ha s)) (majority (ha s) (hb s) (hc s)) in
  HashState (add32 t1 t2) (ha s) (hb s) (hc s) (add32 (hd s) t1) (he s) (hf s) (hg s).

(** The message schedule, kept most recent word first. *)
Fixpoint schedule (n : nat) (w : list word) : list word :=
  match n with
  | O => w
  | S n' =>
      let at_ i := nth i w 0%uint63 in
      schedule n' (add32 (add32 (small_sigma1 (at_ 1%nat)) (at_ 6%nat))
                         (add32 (small_sigma0 (at_ 14%nat)) (at_ 15%nat)) :: w)
  end.

Definition add_state (s t : hash_state) : hash_state :=
  HashState (add32 (ha s) (ha t)) (add32 (hb s) (hb t)) (add32 (hc s) (hc t)) (add32 (hd s) (hd t))
            (add32 (he s) (he t)) (add32 (hf s) (hf t)) (add32 (hg s) (hg t)) (add32 (hh s) (hh t)).

Definition compress (s : hash_state) (block : list word) : hash_state :=
  let w := rev (schedule 48 (rev block)) in
  add_state s (fold_left sha_round (combine round_constants w) s).

(** Big-endian 32-bit words of a byte sequence. *)
Fixpoint words (l : list word) : list word :=
  match l with
  | a :: b :: c :: d :: l' => (((a * 256 + b) * 256 + c) * 256 + d)%uint63 :: words l'
  | _ => []
  end.

Fixpoint blocks (fuel : nat) (l : list word) : list (list word) :=
  match fuel, l with
  | O, _ | _, [] => []
  | S f, _ => take 16 l :: blocks f (drop 16 l)
  end.

Definition padding (len : nat) : list word :=
  let zeros := Z.to_nat ((55 - Z.of_nat len) mod 64) in
  let bits := 8 * Z.of_nat len in
  128%uint63 :: repeat 0%uint63 zeros ++
  map (fun i => of_Z (Z.land (Z.shiftr bits (8 * i)) 255)) [7; 6; 5; 4; 3; 2; 1; 0].

Definition byte_of (c : ascii) : word :=
  let '(Ascii b0 b1 b2 b3 b4 b5 b6 b7) := c in
  let bit (b : bool) := if b then 1%uint63 else 0%uint63 in
  fold_right (fun b n => bit b + 2 * n)%uint63 0%uint63 [b0; b1; b2; b3; b4; b5; b6; b7].

Definition sha256 (msg : list ascii) : hash_state :=
  let bytes := map byte_of msg ++ padding (length msg) in
  fold_left compress (blocks (length bytes) (words bytes)) initial_state.

Definition sha256_hex (s : string) : string :=
  let h := sha256 (chars s) in
  join "" (map (fun w => hex 8 (Z.to_N (to_Z w))) [ha h; hb h; hc h; hd h; he h; hf h; hg h; hh h]).

Example sha256_vectors :
  map sha256_hex [""; "abc"; "abcdbcdecdefdefgefghfghighijhijkijkljklmklmnlmnomnopnopq"]
  = ["e3b0c44298fc1c149afbf4c8996fb92427ae41e4649b934ca495991b7852b855";
     "ba7816bf8f01cfea414140de5dae2223b00361a396177a9cb410ff61f20015ad";
     "248d6a61d20638b8e5c026930c3e6039a33ce45964ff2167f6ecedd419db06c1"].
Proof. vm_compute. reflexivity. Qed.

(** [^[0-9a-f]*$] *)
Definition is_hex (c : ascii) : bool := is_digit c || char_in 97 102 c.

Lemma hex_digit_hex d : (d < 16)%N -> is_hex (hex_digit d) = true.
Proof.
  intros Hlt. unfold hex_digit. destruct d as [|p]; [done|].
  do 5 (try (destruct p as [p|p|]); try done); lia.
Qed.

Lemma base_go_chars b w n acc :
  (0 < b <= 16)%N -> Forall (fun c => is_hex c = true) (chars acc) ->
  length (chars (base_go b w n acc)) = (w + length (chars acc))%nat /\
  Forall (fun c => is_hex c = true) (chars (base_go b w n acc)).
Proof.
  intros Hb. revert n acc; induction w as [|w IH]; intros n acc Hacc; cbn [base_go]; [done|].
  assert (Hlt : (n mod b < b)%N) by (apply N.mod_lt; lia).
  destruct (IH (n / b)%N (String (hex_digit (n mod b)) acc)) as [Hl Hf].
  { change (Forall (fun c => is_hex c = true) (hex_digit (n mod b) :: chars acc)).
    constructor; [apply hex_digit_hex; lia|done]. }
  split; [|done]. rewrite Hl. change (chars (String ?c ?s)) with (c :: chars s). cbn [length]. lia.
Qed.

Lemma hex_chars w n :
  String.length (hex w n) = w /\ Forall (fun c => is_hex c = true) (chars (hex w n)).
Proof.
  destruct (base_go_chars 16 w n "") as [Hl Hf]; [lia|constructor|].
  split; [|done]. unfold hex. rewrite <- length_chars, Hl. cbn. lia.
Qed.

Lemma sha256_hex_shape s :
  String.length (sha256_hex s) = 64%nat /\ Forall (fun c => is_hex c = true) (chars (sha256_hex s)).
Proof.
  unfold sha256_hex. set (h := sha256 (chars s)). cbn [map]. split.
  - unfold join. cbn [String.concat]. rewrite <- length_chars, !chars_app, !length_app, !length_chars.
    cbn [String.append String.length]. rewrite !(proj1 (hex_chars 8 _)). done.
  - apply join_chars; [constructor|]. repeat (constructor; [apply hex_chars|]). constructor.
Qed.
