(* ===== verification/Uuid5.v ===== *)
(** * Name-based identifiers

    [uuid.uuid5(namespace, name)] on ASCII names: the SHA-1 digest of the
    namespace's bytes and the name, cut to 128 bits with the version and variant
    fields set.  SHA-1 shares its padding and 32-bit arithmetic with [Sha256]. *)

From Stdlib Require Import Uint63.
From S2P Require Import Prelude.
From S2P Require Import Sha256.

Local Open Scope Z_scope.

Definition rotl (x n : word) : word := rotr x (32 - n)%uint63.

(** The five chaining values. *)
Definition sha1_state : Type := (word * word * word * word * word)%type.

Definition sha1_initial : sha1_state := (0x67452301, 0xefcdab89, 0x98badcfe, 0x10325476, 0xc3d2e1f0)%uint63.

(** The round function and constant of each group of twenty rounds. *)
Definition sha1_mix (t : nat) (b c d : word) : word :=
  match (t / 20)%nat with
  | 0%nat => add32 (choose b c d) 0x5a827999%uint63
  | 1%nat => add32 (b lxor c lxor d)%uint63 0x6ed9eba1%uint63
  | 2%nat => add32 (majority b c d) 0x8f1bbcdc%uint63
  | _ => add32 (b lxor c lxor d)%uint63 0xca62c1d6%uint63
  end.

Definition sha1_round (s : sha1_state) (tw : nat * word) : sha1_state :=
  let '(a, b, c, d, e) := s in
  (add32 (add32 (rotl a 5%uint63) (sha1_mix (fst tw) b c d)) (add32 e (snd tw)), a, rotl b 30%uint63, c, d).

(** The message schedule, kept most recent word first. *)
Fixpoint sha1_schedule (n : nat) (w : list word) : list word :=
  match n with
  | O => w
  | S n' =>
      let at_ i := nth i w 0%uint63 in
      sha1_schedule n' (rotl (at_ 2%nat lxor at_ 7%nat lxor (at_ 13%nat lxor at_ 15%nat))%uint63 1%uint63 :: w)
  end.

Definition sha1_compress (s : sha1_state) (block : list word) : sha1_state :=
  let w := rev (sha1_schedule 64 (rev block)) in
  let '(a, b, c, d, e) := fold_left sha1_round (combine (seq 0 80) w) s in
  let '(a0, b0, c0, d0, e0) := s in
  (add32 a0 a, add32 b0 b, add32 c0 c, add32 d0 d, add32 e0 e).

Definition sha1 (bytes : list word) : sha1_state :=
  let padded := bytes ++ padding (length bytes) in
  fold_left sha1_compress (blocks (length padded) (words padded)) sha1_initial.

(** [namespace.bytes] *)
Definition uuid_bytes (u : uuid) : list word :=
  map (fun i => of_Z (Z.land (Z.shiftr (Z.of_N u) (8 * Z.of_nat i)) 255)) (rev (seq 0 16)).

Definition uuid5 (namespace : uuid) (name : string) : uuid :=
  let '(a, b, c, d, _) := sha1 (uuid_bytes namespace ++ map byte_of (chars name)) in
  let n := ((to_Z a * 2 ^ 32 + to_Z b) * 2 ^ 32 + to_Z c) * 2 ^ 32 + to_Z d in
  let with_variant := Z.lor (Z.land n (Z.lnot (Z.shiftl 0xc000 48))) (Z.shiftl 0x8000 48) in
  let with_version := Z.lor (Z.land with_variant (Z.lnot (Z.shiftl 0xf000 64))) (Z.shiftl 5 76) in
  Z.to_N with_version.

Definition NAMESPACE_URL : uuid := 0x6ba7b8119dad11d180b400c04fd430c8.

Example uuid5_vectors :
  map (fun s => uuid_str (uuid5 NAMESPACE_URL s)) [""; "http://example.org/"; "agora:session:42"]
  = ["1b4db7eb-4057-5ddf-91e0-36dec72071f5"; "715d503b-5f95-5532-9100-00663eb45ade"; "b60eaca6-08f4-5895-bb51-cc30a7bc949a"].
Proof. vm_compute. reflexivity. Qed.
