(* ===== verification/Clock.v ===== *)
(** * The text of identifiers and timestamps

    [str(uuid)] and [strftime("%Y-%m-%dT%H:%M:%S.%fZ")] of an aware UTC
    datetime.  Instants are microseconds since 1970-01-01; the calendar is the
    proleptic Gregorian one of [datetime].  Both texts determine the value they
    print, for 128-bit identifiers and for years of four digits. *)

From S2P Require Import Prelude.
From S2P Require Import Sha256.

Local Open Scope Z_scope.

(** ** Fixed-width numerals *)

Definition hex_val (c : ascii) : N :=
  let n := N_of_ascii c in if (n <? 58)%N then (n - 48)%N else (n - 87)%N.

Lemma hex_val_digit d : (d < 16)%N -> hex_val (hex_digit d) = d.
Proof.
  intros Hlt. destruct d as [|p]; [done|].
  do 5 (try (destruct p as [p|p|]); try done); lia.
Qed.

Lemma base_go_inj b w n m acc acc' :
  (0 < b <= 16)%N -> (n < b ^ N.of_nat w)%N -> (m < b ^ N.of_nat w)%N ->
  base_go b w n acc = base_go b w m acc' -> n = m /\ acc = acc'.
Proof.
  intros Hb. revert n m acc acc'; induction w as [|w IH]; intros n m acc acc' Hn Hm; cbn [base_go].
  { cbn in Hn, Hm. intros ->. split; [lia|done]. }
  intros H. rewrite Nat2N.inj_succ, N.pow_succ_r' in Hn, Hm.
  assert (Hbnz : b <> 0%N) by lia.
  destruct (IH (n / b)%N (m / b)%N _ _ (N.Div0.div_lt_upper_bound _ _ _ Hn)
              (N.Div0.div_lt_upper_bound _ _ _ Hm) H) as [Hq Hr].
  injection Hr as Hd ->. apply (f_equal hex_val) in Hd.
  pose proof (N.mod_lt n b Hbnz). pose proof (N.mod_lt m b Hbnz).
  rewrite !hex_val_digit in Hd by lia. split; [|done].
  rewrite (N.Div0.div_mod n b), (N.Div0.div_mod m b). congruence.
Qed.

Lemma pad_inj w n m : (n < 10 ^ N.of_nat w)%N -> (m < 10 ^ N.of_nat w)%N -> pad w n = pad w m -> n = m.
Proof. intros Hn Hm H. by apply (base_go_inj 10 w n m "" "") in H as [? _]. Qed.

Lemma pad_length w n : length (chars (pad w n)) = w.
Proof. unfold pad. destruct (base_go_chars 10 w n "") as [-> _]; [lia|constructor|cbn; lia]. Qed.

Lemma pad_split w n m r r' :
  (n < 10 ^ N.of_nat w)%N -> (m < 10 ^ N.of_nat w)%N -> pad w n +:+ r = pad w m +:+ r' -> n = m /\ r = r'.
Proof.
  intros Hn Hm H. apply (f_equal chars) in H. rewrite !chars_app in H.
  apply app_inj_1 in H as [H1 H2]; [|by rewrite !pad_length].
  apply (f_equal unchars) in H1, H2. rewrite !unchars_chars in H1, H2. split; [by eapply pad_inj|done].
Qed.

(** ** Identifiers *)

Definition uuid_ok (u : uuid) : bool := (u <? 2 ^ 128)%N.

Lemma chars_substring n m s : chars (String.substring n m s) = take m (drop n (chars s)).
Proof.
  revert s; induction n as [|n IH]; intros s; [by rewrite drop_0, chars_prefix|].
  destruct s as [|c s]; [by destruct m|]. apply (IH s).
Qed.

Definition not_dash (c : ascii) : bool := negb (Ascii.eqb c "-"%char).

Lemma uuid_str_chars u :
  List.filter not_dash (chars (uuid_str u)) = chars (hex 32 u).
Proof.
  unfold uuid_str. set (h := hex 32 u). destruct (hex_chars 32 u) as [Hl Hf]. fold h in Hl, Hf.
  unfold join. cbn [String.concat]. rewrite !chars_app, !chars_substring.
  assert (Hid : forall n m, List.filter not_dash (take m (drop n (chars h))) = take m (drop n (chars h))).
  { intros n m. assert (Hd : Forall (fun c => is_hex c = true) (take m (drop n (chars h))))
      by by apply Forall_take, Forall_drop.
    induction Hd as [|c l Hc Hl' IH]; [done|]. cbn [List.filter]. rewrite IH.
    replace (not_dash c) with true; [done|]. unfold not_dash.
    destruct (Ascii.eqb_spec c "-"%char) as [->|]; done. }
  rewrite !List.filter_app, !Hid. change (List.filter not_dash (chars "-")) with (@nil ascii).
  reflexivity.
Qed.

Lemma uuid_str_inj u v : uuid_ok u = true -> uuid_ok v = true -> uuid_str u = uuid_str v -> u = v.
Proof.
  unfold uuid_ok. rewrite !N.ltb_lt. intros Hu Hv H. apply (f_equal (fun s => List.filter not_dash (chars s))) in H.
  rewrite !uuid_str_chars in H. apply (f_equal unchars) in H. rewrite !unchars_chars in H.
  by apply (base_go_inj 16 32 u v "" "") in H as [? _].
Qed.

(** ** The calendar *)

Record civil : Type := Civil { c_year : Z; c_month : Z; c_day : Z }.

Definition year_of_era (doe : Z) : Z := (doe - doe / 1460 + doe / 36524 - doe / 146096) / 365.
Definition days_before_year (yoe : Z) : Z := 365 * yoe + yoe / 4 - yoe / 100.

(** The date of a day counted from 1970-01-01, by 400-year eras from 0000-03-01. *)
Definition civil_of_days (days : Z) : civil :=
  let z := days + 719468 in
  let era := z / 146097 in
  let doe := z mod 146097 in
  let yoe := year_of_era doe in
  let doy := doe - days_before_year yoe in
  let mp := (5 * doy + 2) / 153 in
  let month := if mp <? 10 then mp + 3 else mp - 9 in
  Civil (yoe + era * 400 + (if month <=? 2 then 1 else 0)) month (doy - (153 * mp + 2) / 5 + 1).

Lemma year_of_era_range doe : 0 <= doe < 146097 -> 0 <= year_of_era doe < 400.
Proof. unfold year_of_era. intros H. Z.to_euclidean_division_equations. lia. Qed.

Lemma day_of_year_range doe :
  0 <= doe < 146097 -> 0 <= doe - days_before_year (year_of_era doe) <= 365.
Proof.
  intros H. pose proof (year_of_era_range doe H) as Hy.
  unfold days_before_year, year_of_era in *. Z.to_euclidean_division_equations. lia.
Qed.

Lemma civil_ranges days :
  1 <= c_month (civil_of_days days) <= 12 /\ 1 <= c_day (civil_of_days days) <= 31.
Proof.
  unfold civil_of_days. cbn [c_month c_day]. set (doe := (days + 719468) mod 146097).
  pose proof (day_of_year_range doe ltac:(apply Z.mod_pos_bound; lia)) as Hd.
  set (doy := doe - days_before_year (year_of_era doe)) in *. clearbody doy.
  Z.to_euclidean_division_equations. destruct (_ <? 10) eqn:E; lia.
Qed.

(** A date names one day. *)
Lemma civil_of_days_inj a b : civil_of_days a = civil_of_days b -> a = b.
Proof.
  unfold civil_of_days. intros [= Hy Hm Hd].
  set (da := (a + 719468) mod 146097) in *. set (db := (b + 719468) mod 146097) in *.
  set (ea := (a + 719468) / 146097) in *. set (eb := (b + 719468) / 146097) in *.
  assert (Ha : a + 719468 = 146097 * ea + da) by (apply Z.div_mod; lia).
  assert (Hb : b + 719468 = 146097 * eb + db) by (apply Z.div_mod; lia).
  assert (Hra : 0 <= da < 146097) by (apply Z.mod_pos_bound; lia).
  assert (Hrb : 0 <= db < 146097) by (apply Z.mod_pos_bound; lia).
  pose proof (year_of_era_range da Hra). pose proof (year_of_era_range db Hrb).
  pose proof (day_of_year_range da Hra). pose proof (day_of_year_range db Hrb).
  set (ya := year_of_era da) in *. set (yb := year_of_era db) in *.
  set (pa := da - days_before_year ya) in *. set (pb := db - days_before_year yb) in *.
  set (ma := (5 * pa + 2) / 153) in *. set (mb := (5 * pb + 2) / 153) in *.
  assert (Hma : 0 <= ma <= 11) by (unfold ma; Z.to_euclidean_division_equations; lia).
  assert (Hmb : 0 <= mb <= 11) by (unfold mb; Z.to_euclidean_division_equations; lia).
  assert (Hmm : ma = mb) by (destruct (ma <? 10) eqn:E1, (mb <? 10) eqn:E2; lia).
  rewrite Hmm in Hy, Hd. assert (Hp : pa = pb) by lia.
  assert (Hye : ya = yb /\ ea = eb) by lia. destruct Hye as [Hyy Hee].
  assert (da = db) by (unfold pa, pb in Hp; rewrite Hyy in Hp; lia). lia.
Qed.

(** ** Timestamps *)

Definition day_micros : Z := 86400000000.

Record clock : Type := Clock { k_hour : Z; k_minute : Z; k_second : Z; k_micro : Z }.

Definition clock_of (t : Z) : clock :=
  let u := t mod day_micros in
  Clock (u / 3600000000) (u / 60000000 mod 60) (u / 1000000 mod 60) (u mod 1000000).

Definition zpad (w : nat) (z : Z) : string := pad w (Z.to_N z).

(** [t.strftime("%Y-%m-%dT%H:%M:%S.%fZ")] for an instant in UTC. *)
Definition stamp (t : Z) : string :=
  let d := civil_of_days (t / day_micros) in
  let k := clock_of t in
  zpad 4 (c_year d) +:+ "-" +:+ zpad 2 (c_month d) +:+ "-" +:+ zpad 2 (c_day d) +:+ "T" +:+
  zpad 2 (k_hour k) +:+ ":" +:+ zpad 2 (k_minute k) +:+ ":" +:+ zpad 2 (k_second k) +:+ "." +:+
  zpad 6 (k_micro k) +:+ "Z".

Example stamp_examples :
  map stamp [0; 1700000000123456; 951782399000000; 951868800000000]
  = ["1970-01-01T00:00:00.000000Z"; "2023-11-14T22:13:20.123456Z"; "2000-02-28T23:59:59.000000Z";
     "2000-03-01T00:00:00.000000Z"].
Proof. vm_compute. reflexivity. Qed.

(** Years of four digits, as [datetime]'s format prints them on every platform. *)
Definition stamp_ok (t : Z) : bool :=
  let y := c_year (civil_of_days (t / day_micros)) in (1000 <=? y) && (y <=? 9999).

Lemma zpad_split w a b r r' :
  0 <= a < 10 ^ Z.of_nat w -> 0 <= b < 10 ^ Z.of_nat w -> zpad w a +:+ r = zpad w b +:+ r' -> a = b /\ r = r'.
Proof.
  intros Ha Hb H. apply pad_split in H as [H ->]; [split; [lia|done]|..];
    apply N2Z.inj_lt; rewrite Z2N.id, N2Z.inj_pow, nat_N_Z by lia; lia.
Qed.

Lemma clock_ranges t :
  0 <= k_hour (clock_of t) < 24 /\ 0 <= k_minute (clock_of t) < 60 /\ 0 <= k_second (clock_of t) < 60 /\
  0 <= k_micro (clock_of t) < 1000000.
Proof.
  unfold clock_of. cbn. pose proof (Z.mod_pos_bound t day_micros ltac:(done)) as Hu. unfold day_micros in *.
  set (u := t mod _) in *. clearbody u. Z.to_euclidean_division_equations. lia.
Qed.

Lemma clock_of_inj a b : clock_of a = clock_of b -> a mod day_micros = b mod day_micros.
Proof.
  unfold clock_of. pose proof (Z.mod_pos_bound a day_micros ltac:(done)) as Ha.
  pose proof (Z.mod_pos_bound b day_micros ltac:(done)) as Hb. unfold day_micros in *.
  set (u := a mod _) in *. set (v := b mod _) in *. clearbody u v. intros [= H1 H2 H3 H4].
  Z.to_euclidean_division_equations. lia.
Qed.

Lemma sep_inj c (r r' : string) : String c "" +:+ r = String c "" +:+ r' -> r = r'.
Proof. by intros [= ?]. Qed.

Lemma stamp_inj a b : stamp_ok a = true -> stamp_ok b = true -> stamp a = stamp b -> a = b.
Proof.
  unfold stamp_ok, stamp. rewrite !andb_true_iff, !Z.leb_le. intros Hya Hyb H.
  pose proof (civil_ranges (a / day_micros)). pose proof (civil_ranges (b / day_micros)).
  pose proof (clock_ranges a). pose proof (clock_ranges b).
  apply zpad_split in H as [Hy H%sep_inj]; [|lia..].
  apply zpad_split in H as [Hm H%sep_inj]; [|lia..].
  apply zpad_split in H as [Hd H%sep_inj]; [|lia..].
  apply zpad_split in H as [Hh H%sep_inj]; [|lia..].
  apply zpad_split in H as [Hmi H%sep_inj]; [|lia..].
  apply zpad_split in H as [Hs H%sep_inj]; [|lia..].
  apply zpad_split in H as [Hu _]; [|lia..].
  assert (Hdays : a / day_micros = b / day_micros).
  { apply civil_of_days_inj. destruct (civil_of_days (a / _)), (civil_of_days (b / _)); cbn in *; congruence. }
  assert (Hmod : a mod day_micros = b mod day_micros).
  { apply clock_of_inj. destruct (clock_of a), (clock_of b); cbn in *; congruence. }
  rewrite (Z.div_mod a day_micros), (Z.div_mod b day_micros) by done. congruence.
Qed.
