(* ===== verification/Json.v ===== *)
(** * Canonical JSON and content identity

    [app/domain/reasoning.py]: [_json_value], [_canonical], [canonical_json]
    and [content_hash]; [app/ports/consensus.py]: [_canonical_json].  Keys are
    sorted, no white space is written, floats are rejected by the first and
    printed with [str] by the second.  The last part proves that the canonical
    text determines the value up to the order of object members. *)

From S2P Require Import Prelude.
From S2P Require Import Sha256.

(** A JSON-compatible Python value; a float is kept by its [repr]. *)
Inductive json : Type :=
| JNull
| JBool (b : bool)
| JInt (z : Z)
| JFloat (repr : string)
| JStr (s : string)
| JList (l : list json)
| JObj (l : dict string json).

(** Induction through the nested lists. *)
Section json_ind'.
Variable P : json -> Prop.
Hypotheses (Hnull : P JNull) (Hbool : forall b, P (JBool b)) (Hint : forall z, P (JInt z))
  (Hfloat : forall r, P (JFloat r)) (Hstr : forall s, P (JStr s))
  (Hlist : forall l, Forall P l -> P (JList l))
  (Hobj : forall l, Forall (fun kv => P (snd kv)) l -> P (JObj l)).

Fixpoint json_ind' (v : json) : P v :=
  match v with
  | JNull => Hnull
  | JBool b => Hbool b
  | JInt z => Hint z
  | JFloat r => Hfloat r
  | JStr s => Hstr s
  | JList l => Hlist l ((fix go l := match l return Forall P l with
                                     | [] => Forall_nil_2 P
                                     | x :: l' => Forall_cons_2 P x l' (json_ind' x) (go l')
                                     end) l)
  | JObj l => Hobj l ((fix go l := match l return Forall (fun kv => P (snd kv)) l with
                                   | [] => Forall_nil_2 _
                                   | (k, x) :: l' => Forall_cons_2 _ (k, x) l' (json_ind' x) (go l')
                                   end) l)
  end.

End json_ind'.

(** Equality of values is decidable. *)
Fixpoint json_eq (v w : json) {struct v} : Decision (v = w).
Proof.
  refine (match v, w with
  | JNull, JNull => left eq_refl
  | JBool a, JBool b => cast_if (decide (a = b))
  | JInt a, JInt b => cast_if (decide (a = b))
  | JFloat a, JFloat b => cast_if (decide (a = b))
  | JStr a, JStr b => cast_if (decide (a = b))
  | JList a, JList b => cast_if (@list_eq_dec _ json_eq a b)
  | JObj a, JObj b => cast_if (@list_eq_dec _ (@prod_eq_dec _ _ _ json_eq) a b)
  | _, _ => right _
  end); abstract congruence.
Defined.
#[export] Instance json_eq_dec : EqDecision json := json_eq.

(** ** [json.dumps(text, ensure_ascii=False)] *)

Definition quote_char : ascii := ascii_of_nat 34.

Definition escape_char (c : ascii) : list ascii :=
  let n := nat_of_ascii c in
  if Ascii.eqb c quote_char then ["\"%char; quote_char]
  else if Ascii.eqb c "\"%char then ["\"%char; "\"%char]
  else if (n =? 10)%nat then ["\"%char; "n"%char]
  else if (n =? 13)%nat then ["\"%char; "r"%char]
  else if (n =? 9)%nat then ["\"%char; "t"%char]
  else if (n =? 12)%nat then ["\"%char; "f"%char]
  else if (n =? 8)%nat then ["\"%char; "b"%char]
  else if (n <? 32)%nat then ["\"%char; "u"%char; "0"%char; "0"%char;
                              hex_digit (N.of_nat (n / 16)); hex_digit (N.of_nat (n mod 16))]
  else [c].

Definition dumps_str (s : string) : string :=
  unchars (quote_char :: flat_map escape_char (chars s) ++ [quote_char]).

(** [sorted(value, key=_utf16_key)] orders ASCII keys by code point. *)
Definition key_le {A} (a b : string * A) : bool := String.leb (fst a) (fst b).

(** ** Canonical text *)

(** [_json_value]: reject what canonical JSON has no spelling for. *)
Fixpoint _json_value (v : json) : res json :=
  match v with
  | JFloat r =>
      if bool_decide (r ∈ ["inf"; "-inf"; "nan"])
      then raise ValueErrorC "non-finite numbers are not JSON values"
      else raise ValueErrorC "floats are forbidden; use canonical decimal strings"
  | JList l => l' ← mapR _json_value l; Ok (JList l')
  | JObj l => l' ← mapR (fun kv => x ← _json_value (snd kv); Ok (fst kv, x)) l; Ok (JObj l')
  | _ => Ok v
  end.

Fixpoint _canonical (v : json) : res string :=
  match v with
  | JNull => Ok "null"
  | JBool true => Ok "true"
  | JBool false => Ok "false"
  | JInt z => Ok (Z_str z)
  | JFloat _ => raise TypeErrorC "unsupported canonical JSON value: float"
  | JStr s => Ok (dumps_str s)
  | JList l => items ← mapR _canonical l; Ok ("[" +:+ join "," items +:+ "]")
  | JObj l =>
      items ← mapR (fun kv => x ← _canonical (snd kv); Ok (fst kv, x)) l;
      Ok ("{" +:+ join "," (map (fun kv => dumps_str (fst kv) +:+ ":" +:+ snd kv)
                                (sort_by key_le items)) +:+ "}")
  end.

Definition canonical_json (v : json) : res string := v' ← _json_value v; _canonical v'.

Definition content_hash (v : json) : res string :=
  text ← canonical_json v; Ok ("sha256:" +:+ sha256_hex text).

(** The consensus port prints floats with [str]. *)
Fixpoint _canonical_json (v : json) : string :=
  match v with
  | JNull => "null"
  | JBool true => "true"
  | JBool false => "false"
  | JInt z => Z_str z
  | JFloat r => r
  | JStr s => dumps_str s
  | JList l => "[" +:+ join "," (map _canonical_json l) +:+ "]"
  | JObj l =>
      "{" +:+ join "," (map (fun kv => dumps_str (fst kv) +:+ ":" +:+ snd kv)
                            (sort_by key_le (map (fun kv => (fst kv, _canonical_json (snd kv))) l)))
          +:+ "}"
  end.

Example canonical_example :
  canonical_json (JObj [("b", JList [JInt (-12); JBool true]); ("a", JStr "x/y")])
  = Ok (unchars ("{"%char :: quote_char :: "a"%char :: quote_char :: ":"%char :: quote_char ::
        "x"%char :: "/"%char :: "y"%char :: quote_char :: ","%char :: quote_char :: "b"%char ::
        quote_char :: chars ":[-12,true]}")).
Proof. vm_compute. reflexivity. Qed.

(** ** The canonical text determines the value *)

Fixpoint float_free (v : json) : bool :=
  match v with
  | JFloat _ => false
  | JList l => forallb float_free l
  | JObj l => forallb (fun kv => float_free (snd kv)) l
  | _ => true
  end.

(** Objects with their members in key order, recursively. *)
Fixpoint json_norm (v : json) : json :=
  match v with
  | JList l => JList (map json_norm l)
  | JObj l => JObj (sort_by key_le (map (fun kv => (fst kv, json_norm (snd kv))) l))
  | _ => v
  end.

(** Items after the first one are each preceded by a comma. *)
Definition tail_items {A} (pr : A -> list ascii) (l : list A) : list ascii :=
  flat_map (fun x => ","%char :: pr x) l.

Definition items {A} (pr : A -> list ascii) (l : list A) : list ascii :=
  match l with [] => [] | x :: l' => pr x ++ tail_items pr l' end.

Definition print_str (s : string) : list ascii :=
  quote_char :: flat_map escape_char (chars s) ++ [quote_char].

Fixpoint print (v : json) : list ascii :=
  match v with
  | JNull => chars "null"
  | JBool true => chars "true"
  | JBool false => chars "false"
  | JInt z => chars (Z_str z)
  | JFloat r => chars r
  | JStr s => print_str s
  | JList l => "["%char :: items print l ++ ["]"%char]
  | JObj l => "{"%char :: items (fun kv => print_str (fst kv) ++ ":"%char :: print (snd kv)) l ++ ["}"%char]
  end.

Lemma chars_join_items {A} (f : A -> string) (pr : A -> list ascii) l :
  (forall x, x ∈ l -> chars (f x) = pr x) -> chars (join "," (map f l)) = items pr l.
Proof.
  intros H. unfold join. destruct l as [|x l]; [done|]. cbn [map items].
  revert x H; induction l as [|y l IH]; intros x H.
  - cbn [map String.concat tail_items flat_map]. rewrite app_nil_r. apply H; set_solver.
  - cbn [map]. change (String.concat "," (f x :: f y :: map f l))
      with (f x +:+ "," +:+ String.concat "," (f y :: map f l)).
    rewrite !chars_app, (IH y) by (intros; apply H; set_solver).
    rewrite H by set_solver. done.
Qed.

Lemma insert_by_map {A B} (g : A -> B) (le : B -> B -> bool) x l :
  insert_by le (g x) (map g l) = map g (insert_by (fun a b => le (g a) (g b)) x l).
Proof. induction l as [|y l IH]; cbn; [done|]. case_match; cbn; [done|]. by rewrite IH. Qed.

Lemma sort_by_map {A B} (g : A -> B) (le : B -> B -> bool) l :
  sort_by le (map g l) = map g (sort_by (fun a b => le (g a) (g b)) l).
Proof.
  induction l as [|x l IH]; cbn; [done|]. fold (sort_by le (map g l)).
  fold (sort_by (fun a b => le (g a) (g b)) l). by rewrite IH, insert_by_map.
Qed.

Lemma items_map {A B} (g : A -> B) (pr : B -> list ascii) l :
  items pr (map g l) = items (fun x => pr (g x)) l.
Proof.
  unfold items, tail_items. destruct l as [|x l]; [done|]. cbn [map]. f_equal.
  induction l as [|y l IH]; [done|]. cbn. by rewrite IH.
Qed.

(** The canonical text is the direct printing of the normalised value. *)
Lemma canonical_print v :
  float_free v = true -> exists s, _canonical v = Ok s /\ chars s = print (json_norm v).
Proof.
  induction v as [|[]|z|r|s|l IH|l IH] using json_ind'; intros Hf; try (eexists; split; reflexivity);
    try done.
  - eexists; split; [done|]. apply chars_unchars.
  - cbn [float_free] in Hf. rewrite forallb_forall in Hf. rewrite Forall_forall in IH.
    set (g x := match _canonical x with Ok s => s | Raise _ => "" end).
    assert (Hg : forall x, x ∈ l -> _canonical x = Ok (g x) /\ chars (g x) = print (json_norm x)).
    { intros x Hx. destruct (IH x Hx) as (s & Hs & Hc); [by apply Hf, list_elem_of_In|].
      unfold g. by rewrite Hs. }
    cbn [_canonical json_norm print].
    rewrite (mapR_total _ g) by (intros; by apply Hg). eexists; split; [done|].
    rewrite !chars_app. rewrite (chars_join_items g (fun x => print (json_norm x))) by (intros; by apply Hg).
    by rewrite items_map.
  - cbn [float_free] in Hf. rewrite forallb_forall in Hf. rewrite Forall_forall in IH.
    set (g x := match _canonical x with Ok s => s | Raise _ => "" end).
    assert (Hg : forall kv, kv ∈ l -> _canonical (snd kv) = Ok (g (snd kv)) /\
       chars (g (snd kv)) = print (json_norm (snd kv))).
    { intros kv Hx. destruct (IH kv Hx) as (s & Hs & Hc); [by apply Hf, list_elem_of_In|].
      unfold g. by rewrite Hs. }
    cbn [_canonical json_norm print].
    rewrite (mapR_total _ (fun kv => (fst kv, g (snd kv)))).
    2: { intros kv Hkv. by rewrite (proj1 (Hg kv Hkv)). }
    eexists; split; [done|]. rewrite !chars_app, !sort_by_map, map_map. cbn [fst snd].
    rewrite (chars_join_items _ (fun kv => print_str (fst kv) ++ ":"%char :: print (json_norm (snd kv)))).
    2: { intros kv Hkv. apply sort_by_elem in Hkv. rewrite !chars_app, (proj2 (Hg kv Hkv)).
         unfold dumps_str. by rewrite chars_unchars. }
    by rewrite items_map.
Qed.

(** *** Integers *)

Definition digits_value (l : list ascii) : N :=
  foldl (fun acc c => 10 * acc + (N.of_nat (nat_of_ascii c) - 48))%N 0%N l.

Lemma digits_value_app l c :
  digits_value (l ++ [c]) = (10 * digits_value l + (N.of_nat (nat_of_ascii c) - 48))%N.
Proof. unfold digits_value. by rewrite foldl_app. Qed.

Lemma digit_char d :
  (d < 10)%N -> is_digit (ascii_of_N (48 + d)) = true /\
  (N.of_nat (nat_of_ascii (ascii_of_N (48 + d))) - 48 = d)%N.
Proof.
  intros Hd. unfold is_digit, char_in. unfold nat_of_ascii.
  rewrite N_ascii_embedding by lia. rewrite N2Nat.id. split; [|lia].
  apply andb_true_iff; split; apply Nat.leb_le; lia.
Qed.

Lemma dec_digits_go_S f n acc :
  dec_digits_go (S f) n acc =
  if (n <? 10)%N then String (ascii_of_N (48 + n mod 10)) acc
  else dec_digits_go f (n / 10) (String (ascii_of_N (48 + n mod 10)) acc).
Proof. done. Qed.

Lemma dec_digits_go_spec f n acc :
  (n < 10 ^ N.of_nat (S f))%N ->
  exists ds, chars (dec_digits_go (S f) n acc) = ds ++ chars acc /\ ds <> [] /\
    Forall (fun c => is_digit c = true) ds /\ digits_value ds = n.
Proof.
  revert n acc; induction f as [|f IH]; intros n acc Hn.
  - change (10 ^ N.of_nat 1)%N with 10%N in Hn.
    rewrite dec_digits_go_S, (proj2 (N.ltb_lt n 10) Hn).
    assert (Hm : (n mod 10 = n)%N) by (apply N.mod_small; lia). rewrite Hm.
    destruct (digit_char n) as [Hd Hv]; [lia|].
    exists [ascii_of_N (48 + n)]. repeat split; [done|repeat constructor; done|].
    cbn -[N.mul N.add N.sub]. lia.
  - rewrite dec_digits_go_S.
    assert (Hlt : (n mod 10 < 10)%N) by (apply N.mod_lt; lia).
    destruct (digit_char (n mod 10)) as [Hd Hv]; [done|].
    destruct (N.ltb_spec n 10).
    + assert (Hm : (n mod 10 = n)%N) by (apply N.mod_small; lia). rewrite Hm in *.
      exists [ascii_of_N (48 + n)]. repeat split; [done|repeat constructor; done|].
      cbn -[N.mul N.add N.sub]. lia.
    + destruct (IH (n / 10)%N (String (ascii_of_N (48 + n mod 10)) acc)) as (ds & Hc & Hne & Hf & Hval).
      { apply N.Div0.div_lt_upper_bound. rewrite <- N.pow_succ_r'. by rewrite <- Nat2N.inj_succ. }
      exists (ds ++ [ascii_of_N (48 + n mod 10)]). rewrite Hc.
      split; [by rewrite <- app_assoc|]. split; [by destruct ds|].
      split; [apply Forall_app; by repeat constructor|].
      rewrite digits_value_app, Hval, Hv. pose proof (N.div_mod n 10). lia.
Qed.

Lemma pos_lt_size_nat p : (Npos p < 2 ^ N.of_nat (Pos.size_nat p))%N.
Proof.
  induction p as [p IH|p IH|]; cbn [Pos.size_nat]; [| |done];
    rewrite Nat2N.inj_succ, N.pow_succ_r'; lia.
Qed.

Lemma N_str_spec n :
  chars (N_str n) <> [] /\ Forall (fun c => is_digit c = true) (chars (N_str n)) /\
  digits_value (chars (N_str n)) = n.
Proof.
  destruct (dec_digits_go_spec (N.size_nat n) n "") as (ds & Hc & Hne & Hf & Hv).
  { destruct n as [|p]; [done|]. eapply N.lt_le_trans; [apply pos_lt_size_nat|].
    change (N.size_nat (N.pos p)) with (Pos.size_nat p).
    transitivity (10 ^ N.of_nat (Pos.size_nat p))%N; [apply N.pow_le_mono_l|apply N.pow_le_mono_r]; lia. }
  unfold N_str. change (chars "") with (@nil ascii) in Hc. rewrite app_nil_r in Hc. by rewrite Hc.
Qed.

(** *** Prefix-free printing

    [unambiguous ok pr x]: no text printed by [pr] for a value satisfying [ok]
    can be confused with that of [x], whatever follows, as long as the
    continuation does not start with a digit. *)

Definition not_digit_first (r : list ascii) : Prop :=
  match r with [] => True | c :: _ => is_digit c = false end.

Definition unambiguous {A} (ok : A -> bool) (pr : A -> list ascii) (x : A) : Prop :=
  forall y r r', ok y = true -> not_digit_first r -> not_digit_first r' ->
    pr x ++ r = pr y ++ r' -> x = y /\ r = r'.

Lemma digits_split ds ds' r r' :
  Forall (fun c => is_digit c = true) ds -> Forall (fun c => is_digit c = true) ds' ->
  not_digit_first r -> not_digit_first r' -> ds ++ r = ds' ++ r' -> ds = ds' /\ r = r'.
Proof.
  intros H; revert ds'. induction H as [|c ds Hc Hds IH]; intros ds' H' Hr Hr' Heq.
  - destruct H' as [|c' ds' Hc' _]; [done|]. cbn in Heq. subst r. cbn in Hr. congruence.
  - destruct H' as [|c' ds' Hc' Hds']; cbn in Heq.
    + subst r'. cbn in Hr'. congruence.
    + injection Heq as -> Heq. destruct (IH ds') as [-> ->]; auto.
Qed.

Lemma Z_str_chars z :
  exists ds, ds <> [] /\ Forall (fun c => is_digit c = true) ds /\
    chars (Z_str z) = (if (z <? 0)%Z then ["-"%char] else []) ++ ds /\
    digits_value ds = Z.abs_N z.
Proof.
  destruct z as [|p|p]; cbn [Z_str].
  - exists ["0"%char]. by repeat constructor.
  - destruct (N_str_spec (N.pos p)) as (H1 & H2 & H3). by eexists.
  - destruct (N_str_spec (N.pos p)) as (H1 & H2 & H3). by eexists.
Qed.

Lemma int_digits_value ds acc prev :
  Forall (fun c => is_digit c = true) ds -> ds <> [] \/ prev = true ->
  int_digits ds (Z.of_N acc) prev
  = Some (Z.of_N (foldl (fun acc c => 10 * acc + (N.of_nat (nat_of_ascii c) - 48))%N acc ds)).
Proof.
  revert acc prev; induction ds as [|c ds IH]; intros acc prev Hf Hne; cbn [int_digits foldl].
  { destruct Hne as [?| ->]; done. }
  apply Forall_cons in Hf as [Hc Hf]. rewrite Hc.
  assert (Hge : (48 <= nat_of_ascii c)%nat).
  { unfold is_digit, char_in in Hc. by apply andb_true_iff in Hc as [Hc%Nat.leb_le _]. }
  replace (10 * Z.of_N acc + int_digit c)%Z with (Z.of_N (10 * acc + (N.of_nat (nat_of_ascii c) - 48))) by (unfold int_digit; lia).
  apply IH; [done|by right].
Qed.

Lemma digit_not_space c : is_digit c = true -> is_space c = false.
Proof.
  intros Hc. pose proof (ascii_forall (fun c => implb (is_digit c) (negb (is_space c))) eq_refl c) as H.
  cbn in H. rewrite Hc in H. by apply negb_true_iff in H.
Qed.

Lemma drop_spaces_digits ds : Forall (fun c => is_digit c = true) ds -> drop_spaces ds = ds.
Proof. intros [|c l Hc _]; [done|]. cbn. by rewrite (digit_not_space c Hc). Qed.

(** [int(str(n)) == n] for a natural number. *)
Lemma int_of_str z : (0 <= z)%Z -> int_of_string (Z_str z) = Ok z.
Proof.
  intros Hz. destruct (Z_str_chars z) as (ds & Hne & Hf & Hc & Hv).
  rewrite (proj2 (Z.ltb_ge z 0) Hz) in Hc. cbn [app] in Hc.
  unfold int_of_string, strip. rewrite Hc, (drop_spaces_digits ds) by done.
  rewrite drop_spaces_digits by (apply Forall_rev, Hf). rewrite rev_involutive, chars_unchars.
  rewrite ascii_digits_id by (eapply Forall_impl; [exact Hf|exact is_digit_ascii]).
  assert (Hval : int_digits ds 0 false = Some z).
  { change 0%Z with (Z.of_N 0). rewrite int_digits_value by (first [done|by left]). fold (digits_value ds). rewrite Hv. f_equal. lia. }
  destruct ds as [|c ds]; [done|]. apply Forall_cons in Hf as [Hd _].
  assert (Hsign : c <> "-"%char /\ c <> "+"%char) by (split; intros ->; done).
  destruct c as [[] [] [] [] [] [] [] []]; try (by rewrite Hval); exfalso; by (destruct Hsign as [H1 H2]; first [by apply H1|by apply H2]).
Qed.

Lemma Z_str_unambiguous z : unambiguous (fun _ => true) (fun z => chars (Z_str z)) z.
Proof.
  intros w r r' _ Hr Hr' Heq.
  destruct (Z_str_chars z) as (ds & Hne & Hd & Hc & Hv), (Z_str_chars w) as (ds' & Hne' & Hd' & Hc' & Hv').
  rewrite Hc, Hc' in Heq.
  assert (Hsign : (z <? 0)%Z = (w <? 0)%Z /\ ds ++ r = ds' ++ r').
  { destruct (z <? 0)%Z, (w <? 0)%Z; cbn in Heq; [by injection Heq| | |done];
      [destruct Hd'|destruct Hd]; try done; injection Heq as Heq; subst; done. }
  destruct Hsign as [Hs Hds]. apply digits_split in Hds as [-> ->]; try done.
  split; [|done]. rewrite Hv' in Hv. lia.
Qed.

(** *** Strings *)

Definition hex_value (c : ascii) : nat :=
  if is_digit c then nat_of_ascii c - 48 else nat_of_ascii c - 87.

(** Read one escaped character back. *)
Definition unescape (l : list ascii) : option (ascii * list ascii) :=
  match l with
  | "\"%char :: c :: l' =>
      if Ascii.eqb c "u"%char
      then match l' with
           | _ :: _ :: a :: b :: l'' => Some (ascii_of_nat (16 * hex_value a + hex_value b), l'')
           | _ => None
           end
      else if Ascii.eqb c "n"%char then Some (ascii_of_nat 10, l')
      else if Ascii.eqb c "r"%char then Some (ascii_of_nat 13, l')
      else if Ascii.eqb c "t"%char then Some (ascii_of_nat 9, l')
      else if Ascii.eqb c "f"%char then Some (ascii_of_nat 12, l')
      else if Ascii.eqb c "b"%char then Some (ascii_of_nat 8, l')
      else Some (c, l')
  | c :: l' => Some (c, l')
  | [] => None
  end.

Lemma unescape_escape c l : unescape (escape_char c ++ l) = Some (c, l).
Proof. destruct c as [[] [] [] [] [] [] [] []]; reflexivity. Qed.

Lemma escape_head c : exists a l, escape_char c = a :: l /\ a <> quote_char.
Proof. destruct c as [[] [] [] [] [] [] [] []]; eexists _, _; (split; [reflexivity|discriminate]). Qed.

Lemma escaped_split l l' r r' :
  flat_map escape_char l ++ quote_char :: r = flat_map escape_char l' ++ quote_char :: r' ->
  l = l' /\ r = r'.
Proof.
  revert l'; induction l as [|c l IH]; intros [|c' l']; cbn [flat_map]; rewrite <- ?app_assoc; intros Heq.
  - by injection Heq.
  - destruct (escape_head c') as (a & t & Ha & Hq). rewrite Ha in Heq. injection Heq as Heq _. congruence.
  - destruct (escape_head c) as (a & t & Ha & Hq). rewrite Ha in Heq. injection Heq as Heq _. congruence.
  - apply (f_equal unescape) in Heq. rewrite !unescape_escape in Heq. injection Heq as -> Heq.
    destruct (IH _ Heq) as [-> ->]. done.
Qed.

Lemma print_str_split s s' r r' : print_str s ++ r = print_str s' ++ r' -> s = s' /\ r = r'.
Proof.
  unfold print_str. cbn [app]. rewrite <- !app_assoc. cbn [app]. intros Heq. injection Heq as Heq.
  apply escaped_split in Heq as [Hc ->]. split; [|done].
  by rewrite <- (unchars_chars s), Hc, unchars_chars.
Qed.

(** *** Sequences *)

Section sequences.
Context {A : Type} (ok : A -> bool) (pr : A -> list ascii) (close : ascii).
Hypothesis close_ok : is_digit close = false /\ close <> ","%char.
Hypothesis pr_head : forall x, ok x = true -> exists c l, pr x = c :: l /\ c <> close.

Lemma tail_items_split l l' r r' :
  Forall (unambiguous ok pr) l -> forallb ok l' = true ->
  tail_items pr l ++ close :: r = tail_items pr l' ++ close :: r' -> l = l' /\ r = r'.
Proof using close_ok.
  intros Hl; revert l'; induction Hl as [|x l Hx Hl IH]; intros [|y l']; cbn [tail_items flat_map forallb app];
    intros Hok Heq; [by injection Heq|injection Heq as Hc _; by destruct close_ok| |].
  - injection Heq as Hc _. by destruct close_ok.
  - apply andb_true_iff in Hok as [Hy Hl']. injection Heq as Heq. rewrite <- !app_assoc in Heq.
    assert (Hnd : forall (l0 : list A) r0, not_digit_first (tail_items pr l0 ++ close :: r0)).
    { intros [|z l0] r0; cbn; [apply close_ok|done]. }
    apply Hx in Heq as [-> Heq]; [|done|apply Hnd|apply Hnd].
    by destruct (IH _ Hl' Heq) as [-> ->].
Qed.

Lemma items_split l l' r r' :
  forallb ok l = true -> Forall (unambiguous ok pr) l -> forallb ok l' = true ->
  items pr l ++ close :: r = items pr l' ++ close :: r' -> l = l' /\ r = r'.
Proof using close_ok pr_head.
  intros Hok Hl Hok'. destruct Hl as [|x l Hx Hl], l' as [|y l']; cbn [items forallb app] in *; intros Heq.
  - by injection Heq.
  - apply andb_true_iff in Hok' as [Hy _]. destruct (pr_head y Hy) as (c & t & Hc & Hne).
    rewrite Hc in Heq. injection Heq as Heq _. congruence.
  - apply andb_true_iff in Hok as [Hy _]. destruct (pr_head x Hy) as (c & t & Hc & Hne).
    rewrite Hc in Heq. injection Heq as Heq _. congruence.
  - apply andb_true_iff in Hok' as [Hy Hl']. rewrite <- !app_assoc in Heq.
    assert (Hnd : forall (l0 : list A) r0, not_digit_first (tail_items pr l0 ++ close :: r0)).
    { intros [|z l0] r0; cbn; [apply close_ok|done]. }
    apply Hx in Heq as [-> Heq]; [|done|apply Hnd|apply Hnd].
    by apply tail_items_split in Heq as [-> ->].
Qed.

End sequences.

(** *** Values *)

(** The head character tells the constructors apart. *)
Definition kind_of (v : json) : nat :=
  match v with
  | JNull => 0 | JBool true => 1 | JBool false => 2 | JInt _ => 3 | JStr _ => 4
  | JList _ => 5 | JObj _ => 6 | JFloat _ => 7
  end.

Definition kind_of_char (c : ascii) : nat :=
  if Ascii.eqb c "n"%char then 0 else if Ascii.eqb c "t"%char then 1
  else if Ascii.eqb c "f"%char then 2
  else if is_digit c || Ascii.eqb c "-"%char then 3
  else if Ascii.eqb c quote_char then 4 else if Ascii.eqb c "["%char then 5
  else if Ascii.eqb c "{"%char then 6 else 8.

Lemma digit_kind c : is_digit c = true -> kind_of_char c = 3%nat.
Proof. destruct c as [[] [] [] [] [] [] [] []]; try discriminate; reflexivity. Qed.

Lemma print_head v :
  float_free v = true -> exists c l, print v = c :: l /\ kind_of_char c = kind_of v.
Proof.
  destruct v as [|[]|z|r|s|l|l]; intros Hf; try (eexists _, _; split; reflexivity); [|done].
  destruct (Z_str_chars z) as (ds & Hne & Hd & Hc & _). cbn [print kind_of]. rewrite Hc.
  destruct (z <? 0)%Z; [eexists _, _; split; reflexivity|].
  destruct Hd as [|c ds Hdc _]; [done|]. eexists _, _; split; [reflexivity|]. by apply digit_kind.
Qed.

Lemma print_kind v w r r' :
  float_free v = true -> float_free w = true -> print v ++ r = print w ++ r' -> kind_of v = kind_of w.
Proof.
  intros Hv Hw Heq. destruct (print_head v Hv) as (c & l & Hc & <-), (print_head w Hw) as (c' & l' & Hc' & <-).
  rewrite Hc, Hc' in Heq. by injection Heq as -> _.
Qed.

Lemma print_not_close v c :
  float_free v = true -> kind_of_char c = 8%nat -> exists c' l, print v = c' :: l /\ c' <> c.
Proof.
  intros Hv Hc. destruct (print_head v Hv) as (c' & l & -> & Hk). eexists _, _; split; [done|].
  intros ->. rewrite Hk in Hc. by destruct v as [|[]| | | | |].
Qed.

Lemma print_unambiguous v : float_free v = true -> unambiguous float_free print v.
Proof.
  induction v as [|b|z|f|s|l IH|l IH] using json_ind'; intros Hv w r r' Hw Hr Hr' Heq;
    pose proof (print_kind _ _ _ _ Hv Hw Heq) as Hk.
  - destruct w as [|[]|?|?|?|?|?]; try discriminate Hk. by injection Heq.
  - destruct b, w as [|[]|?|?|?|?|?]; try discriminate Hk; by injection Heq.
  - destruct w as [|[]|w|?|?|?|?]; try discriminate Hk.
    cbn [print] in Heq. by apply Z_str_unambiguous in Heq as [-> ->].
  - discriminate Hv.
  - destruct w as [|[]|?|?|s'|?|?]; try discriminate Hk.
    cbn [print] in Heq. by apply print_str_split in Heq as [-> ->].
  - destruct w as [|[]|?|?|?|l'|?]; try discriminate Hk. cbn [print float_free app] in *.
    injection Heq as Heq. rewrite <- !app_assoc in Heq. cbn [app] in Heq.
    apply (items_split float_free) in Heq as [-> ->]; try done.
    + intros x Hx. by apply print_not_close.
    + rewrite Forall_forall in IH |- *. rewrite forallb_forall in Hv.
      intros x Hx. apply IH; [done|]. by apply Hv, list_elem_of_In.
  - destruct w as [|[]|?|?|?|?|l']; try discriminate Hk. cbn [print float_free app] in *.
    injection Heq as Heq. rewrite <- !app_assoc in Heq. cbn [app] in Heq.
    apply (items_split (fun kv => float_free (snd kv))) in Heq as [-> ->]; try done.
    + intros [k x] _. by eexists _, _.
    + rewrite Forall_forall in IH |- *. rewrite forallb_forall in Hv.
      intros [k x] Hx [k' y] t t' Hy Ht Ht' He. cbn [fst snd] in *.
      change ((print_str k ++ ":"%char :: print x) ++ t = (print_str k' ++ ":"%char :: print y) ++ t') in He.
      rewrite <- (app_assoc (print_str k)), <- (app_assoc (print_str k')) in He.
      apply print_str_split in He as [-> He]. cbn [app] in He.
      injection He as He. apply (IH (k', x)) in He as [He ->]; try done.
      * cbn [snd] in He. by rewrite He.
      * apply Hv, list_elem_of_In, Hx.
Qed.

Lemma json_norm_float_free v : float_free v = true -> float_free (json_norm v) = true.
Proof.
  induction v as [|[]|z|f|s|l IH|l IH] using json_ind'; intros Hv; try done; cbn [float_free json_norm] in *;
    rewrite forallb_forall in Hv; rewrite Forall_forall in IH; apply forallb_forall; intros x Hx.
  - apply in_map_iff in Hx as (y & <- & Hy). apply IH; [by apply list_elem_of_In|auto].
  - apply list_elem_of_In, sort_by_elem, list_elem_of_In, in_map_iff in Hx as (y & <- & Hy). cbn [snd].
    apply IH; [by apply list_elem_of_In|auto].
Qed.

(** [_json_value] lets exactly the float-free values through, unchanged. *)
Lemma json_value_Ok v w : _json_value v = Ok w -> w = v /\ float_free v = true.
Proof.
  revert w; induction v as [|b|z|f|s|l IH|l IH] using json_ind'; intros w Hw; cbn [_json_value] in Hw;
    try (injection Hw as <-; done).
  - by case_bool_decide.
  - inv_ok. apply mapR_Ok in Hr. enough (r = l /\ forallb float_free l = true) as [-> ?] by done.
    revert IH. induction Hr as [|x y l r Hxy Hr IHr]; intros IH; [done|].
    apply Forall_cons in IH as [Hx IH]. destruct (Hx _ Hxy) as [-> Hfx], (IHr IH) as [-> Hfl].
    split; [done|]. cbn. by rewrite Hfx.
  - inv_ok. apply mapR_Ok in Hr.
    enough (r = l /\ forallb (fun kv => float_free (snd kv)) l = true) as [-> ?] by done.
    revert IH. induction Hr as [|[k x] y l r Hxy Hr IHr]; intros IH; [done|].
    apply Forall_cons in IH as [Hx IH]. inv_ok. cbn [fst snd] in *.
    destruct (Hx _ Hr0) as [-> Hfx], (IHr IH) as [-> Hfl].
    split; [done|]. cbn. by rewrite Hfx.
Qed.

Lemma json_value_total v : float_free v = true -> _json_value v = Ok v.
Proof.
  induction v as [|b|z|f|s|l IH|l IH] using json_ind'; intros Hv; try done; cbn [float_free _json_value] in *;
    rewrite forallb_forall in Hv; rewrite Forall_forall in IH.
  - rewrite (mapR_total _ id); [by rewrite map_id|].
    intros x Hx. apply IH; [done|]. by apply Hv, list_elem_of_In.
  - rewrite (mapR_total _ id); [by rewrite map_id|].
    intros [k x] Hx. rewrite (IH _ Hx); [done|]. by apply Hv, list_elem_of_In.
Qed.

Lemma canonical_json_inj v w s :
  canonical_json v = Ok s -> canonical_json w = Ok s -> json_norm v = json_norm w.
Proof.
  unfold canonical_json. intros Hv Hw. inv_ok.
  apply json_value_Ok in Hr as [-> Hfw], Hr0 as [-> Hfv].
  destruct (canonical_print v Hfv) as (t & Ht & Hpt), (canonical_print w Hfw) as (u & Hu & Hpu).
  assert (t = s) by congruence. assert (u = s) by congruence. subst t u.
  apply (print_unambiguous _ (json_norm_float_free _ Hfv) _ [] []); try done.
  - by apply json_norm_float_free.
  - rewrite !app_nil_r. congruence.
Qed.

(** Equal values have equal members under every key. *)
Lemma norm_field l m k v :
  json_norm (JObj l) = json_norm (JObj m) -> (k, v) ∈ l ->
  exists w, (k, w) ∈ m /\ json_norm w = json_norm v.
Proof.
  intros [= Hs] Hv.
  assert (Hin : (k, json_norm v) ∈ sort_by key_le (map (fun kv => (fst kv, json_norm (snd kv))) m)).
  { rewrite <- Hs, sort_by_elem. apply list_elem_of_In, in_map_iff. exists (k, v).
    split; [done|by apply list_elem_of_In]. }
  rewrite sort_by_elem in Hin. apply list_elem_of_In, in_map_iff in Hin as ([k' w] & [= -> Hw] & Hm).
  exists w. split; [by apply list_elem_of_In|done].
Qed.

(** Two values whose canonical texts differ and have one SHA-256 digest. *)
Definition collide (v w : json) : Prop :=
  exists x y, canonical_json v = Ok x /\ canonical_json w = Ok y /\ x <> y /\ sha256_hex x = sha256_hex y.

Lemma prefix_inj p s t : p +:+ s = p +:+ t -> s = t.
Proof. induction p as [|c p IH]; [done|]. intros H. apply IH. by injection H. Qed.

Lemma content_hash_same v w h :
  content_hash v = Ok h -> content_hash w = Ok h -> json_norm v = json_norm w \/ collide v w.
Proof.
  unfold content_hash. intros (r & Hr & Hv)%bind_Ok (r0 & Hr0 & Hw)%bind_Ok.
  assert (sha256_hex r = sha256_hex r0) by (apply (prefix_inj "sha256:"); congruence).
  destruct (decide (r = r0)) as [->|Hne]; [left; by eapply canonical_json_inj|].
  right. by exists r, r0.
Qed.

Lemma content_hash_total v : is_ok (content_hash v) = float_free v.
Proof.
  unfold content_hash, canonical_json. destruct (float_free v) eqn:Hf.
  - rewrite json_value_total by done. cbn. destruct (canonical_print v Hf) as (s & -> & _). done.
  - destruct (_json_value v) eqn:Hj; [|done]. apply json_value_Ok in Hj as [_ Hj]. congruence.
Qed.

(** Content identity: a value has a content hash exactly when it contains no
    float, and two values with one content hash are the same value up to the
    order of object members, unless their own canonical texts are a collision
    of SHA-256. *)
Theorem content_hash_identifies v w h :
  (is_ok (content_hash v) = float_free v) /\
  (content_hash v = Ok h -> content_hash w = Ok h -> json_norm v = json_norm w \/ collide v w).
Proof. split; [apply content_hash_total|apply content_hash_same]. Qed.
