(* ===== verification/JsonLoads.v ===== *)
(** * Reading JSON

    [json.loads] as the source calls it: on text given as its UTF-8 bytes, with
    a [parse_constant] that raises for [NaN] and [Infinity].  Arrays and objects
    are read with fuel, one unit for each nested call; the length of the text is
    enough.  Reading back canonical text gives the value it was printed from.
    A float keeps its spelling; Python's recursion limit is not modelled. *)

From S2P Require Import Prelude.
From S2P Require Import Sha256.
From S2P Require Import Json.

(** ** UTF-8 *)

Definition byte_in (lo hi : nat) (c : ascii) : bool := char_in lo hi c.
Definition continuation (c : ascii) : bool := byte_in 128 191 c.

(** [data.decode("utf-8")] succeeds: no overlong form, no surrogate, nothing
    above U+10FFFF. *)
Fixpoint utf8_valid (l : list ascii) : bool :=
  match l with
  | [] => true
  | a :: r =>
      if byte_in 0 127 a then utf8_valid r else
      match r with
      | b :: r2 =>
          if byte_in 194 223 a then continuation b && utf8_valid r2 else
          match r2 with
          | c :: r3 =>
              if byte_in 224 239 a then
                (if byte_in 224 224 a then byte_in 160 191 b
                 else if byte_in 237 237 a then byte_in 128 159 b else continuation b)
                && continuation c && utf8_valid r3
              else
              match r3 with
              | d :: r4 =>
                  byte_in 240 244 a
                  && (if byte_in 240 240 a then byte_in 144 191 b
                      else if byte_in 244 244 a then byte_in 128 143 b else continuation b)
                  && continuation c && continuation d && utf8_valid r4
              | [] => false
              end
          | [] => false
          end
      | [] => false
      end
  end.

(** The UTF-8 bytes of a code point. *)
Definition utf8_encode (n : N) : list ascii :=
  (let b x := Ascii.ascii_of_N x in
   if n <? 128 then [b n]
   else if n <? 2048 then [b (192 + n / 64); b (128 + n mod 64)]
   else if n <? 65536 then [b (224 + n / 4096); b (128 + n / 64 mod 64); b (128 + n mod 64)]
   else [b (240 + n / 262144); b (128 + n / 4096 mod 64); b (128 + n / 64 mod 64); b (128 + n mod 64)])%N.

(** ** Strings *)

Definition hex_digit_value (c : ascii) : option N :=
  let n := Ascii.N_of_ascii c in
  if is_digit c then Some (n - 48)%N
  else if char_in 97 102 c then Some (n - 87)%N
  else if char_in 65 70 c then Some (n - 55)%N
  else None.

(** Four hexadecimal digits. *)
Definition hex4 (l : list ascii) : option (N * list ascii) :=
  match l with
  | a :: b :: c :: d :: r =>
      x ← hex_digit_value a; y ← hex_digit_value b; z ← hex_digit_value c; w ← hex_digit_value d;
      Some (x * 4096 + y * 256 + z * 16 + w, r)%N
  | _ => None
  end.

(** After [\u]: a code unit, or a surrogate pair. *)
Definition unicode_escape (l : list ascii) : option (list ascii * list ascii) :=
  '(u, r) ← hex4 l;
  match (if (55296 <=? u)%N && (u <=? 56319)%N then r else []) with
  | "\"%char :: "u"%char :: r' =>
      match hex4 r' with
      | Some (v, r'') =>
          if (56320 <=? v)%N && (v <=? 57343)%N
          then Some (utf8_encode (65536 + (u - 55296) * 1024 + (v - 56320))%N, r'')
          else Some (utf8_encode u, r)
      | None => None
      end
  | _ => Some (utf8_encode u, r)
  end.

Definition simple_escape (c : ascii) : option ascii :=
  if Ascii.eqb c quote_char then Some quote_char
  else if Ascii.eqb c "\"%char then Some "\"%char
  else if Ascii.eqb c "/"%char then Some "/"%char
  else if Ascii.eqb c "b"%char then Some (ascii_of_nat 8)
  else if Ascii.eqb c "f"%char then Some (ascii_of_nat 12)
  else if Ascii.eqb c "n"%char then Some (ascii_of_nat 10)
  else if Ascii.eqb c "r"%char then Some (ascii_of_nat 13)
  else if Ascii.eqb c "t"%char then Some (ascii_of_nat 9)
  else None.

(** The rest of a string after its opening quote. *)
Fixpoint scan_string (fuel : nat) (l acc : list ascii) : option (string * list ascii) :=
  match fuel with
  | O => None
  | S n =>
      match l with
      | [] => None
      | c :: r =>
          if Ascii.eqb c quote_char then Some (unchars (rev acc), r)
          else if Ascii.eqb c "\"%char then
            match r with
            | [] => None
            | e :: r' =>
                if Ascii.eqb e "u"%char
                then '(bs, r'') ← unicode_escape r'; scan_string n r'' (rev bs ++ acc)
                else a ← simple_escape e; scan_string n r' (a :: acc)
            end
          else if char_in 0 31 c then None
          else scan_string n r (c :: acc)
      end
  end.

(** ** Numbers *)

Fixpoint take_run (l : list ascii) : list ascii * list ascii :=
  match l with
  | c :: r => if is_digit c then let '(ds, r') := take_run r in (c :: ds, r') else ([], l)
  | [] => ([], [])
  end.

Definition int_value (neg : bool) (ds : list ascii) : Z :=
  let n := Z.of_N (digits_value ds) in if neg then Z.opp n else n.

(** The integer part: an optional minus, then zero or digits not starting with it. *)
Definition scan_int (l : list ascii) : option (bool * list ascii * list ascii) :=
  let '(neg, body) := match l with "-"%char :: r => (true, r) | _ => (false, l) end in
  match body with
  | "0"%char :: r => Some (neg, ["0"%char], r)
  | _ => match take_run body with
         | ([], _) => None
         | (ds, r) => Some (neg, ds, r)
         end
  end.

Definition scan_frac (l : list ascii) : option (list ascii * list ascii) :=
  match l with
  | "."%char :: r => match take_run r with
                     | ([], _) => None
                     | (ds, r') => Some ("."%char :: ds, r')
                     end
  | _ => None
  end.
Definition scan_exp (l : list ascii) : option (list ascii * list ascii) :=
  match l with
  | e :: r =>
      if Ascii.eqb e "e"%char || Ascii.eqb e "E"%char then
        let '(sg, r1) := match r with
                         | "+"%char :: r' => (["+"%char], r')
                         | "-"%char :: r' => (["-"%char], r')
                         | _ => ([], r)
                         end in
        match take_run r1 with
        | ([], _) => None
        | (ds, r') => Some (e :: sg ++ ds, r')
        end
      else None
  | [] => None
  end.

(** [int(text)] refuses more than 4300 digits. *)
Definition max_str_digits : nat := 4300.

Definition scan_number (l : list ascii) : option (json * list ascii) :=
  '(neg, ds, r) ← scan_int l;
  let '(frac, r1) := default ([], r) (scan_frac r) in
  let '(ex, r2) := default ([], r1) (scan_exp r1) in
  match frac, ex with
  | [], [] => if (length ds <=? max_str_digits)%nat then Some (JInt (int_value neg ds), r) else None
  | _, _ => Some (JFloat (unchars ((if neg then ["-"%char] else []) ++ ds ++ frac ++ ex)), r2)
  end.

(** ** Values *)

Definition is_ws (c : ascii) : bool := existsb (Nat.eqb (nat_of_ascii c)) [32; 9; 10; 13].
Fixpoint skip_ws (l : list ascii) : list ascii :=
  match l with c :: r => if is_ws c then skip_ws r else l | [] => [] end.

Fixpoint after_prefix (p l : list ascii) : option (list ascii) :=
  match p, l with
  | [], _ => Some l
  | a :: p', b :: l' => if Ascii.eqb a b then after_prefix p' l' else None
  | _ :: _, [] => None
  end.

Definition scan_word (l : list ascii) : option (json * list ascii) :=
  match after_prefix (chars "null") l with
  | Some r => Some (JNull, r)
  | None =>
      match after_prefix (chars "true") l with
      | Some r => Some (JBool true, r)
      | None => r ← after_prefix (chars "false") l; Some (JBool false, r)
      end
  end.

Fixpoint scan_value (fuel : nat) (l : list ascii) : option (json * list ascii) :=
  match fuel with
  | O => None
  | S n =>
      match l with
      | [] => None
      | c :: r =>
          if Ascii.eqb c quote_char then '(s, r') ← scan_string (S (length r)) r []; Some (JStr s, r')
          else if Ascii.eqb c "["%char then
            match skip_ws r with
            | "]"%char :: r' => Some (JList [], r')
            | r' => '(vs, r'') ← scan_elements n r'; Some (JList vs, r'')
            end
          else if Ascii.eqb c "{"%char then
            match skip_ws r with
            | "}"%char :: r' => Some (JObj [], r')
            | r' => '(kvs, r'') ← scan_members n r'; Some (JObj (dict_of_list kvs), r'')
            end
          else if is_digit c || Ascii.eqb c "-"%char then scan_number l
          else scan_word l
      end
  end
with scan_elements (fuel : nat) (l : list ascii) : option (list json * list ascii) :=
  match fuel with
  | O => None
  | S n =>
      '(v, r) ← scan_value n l;
      match skip_ws r with
      | ","%char :: r' => '(vs, r'') ← scan_elements n (skip_ws r'); Some (v :: vs, r'')
      | "]"%char :: r' => Some ([v], r')
      | _ => None
      end
  end
with scan_members (fuel : nat) (l : list ascii) : option (dict string json * list ascii) :=
  match fuel with
  | O => None
  | S n =>
      match l with
      | c :: r0 =>
          if Ascii.eqb c quote_char then
            '(k, r1) ← scan_string (S (length r0)) r0 [];
            match skip_ws r1 with
            | ":"%char :: r2 =>
                '(v, r) ← scan_value n (skip_ws r2);
                match skip_ws r with
                | ","%char :: r' => '(kvs, r'') ← scan_members n (skip_ws r'); Some ((k, v) :: kvs, r'')
                | "}"%char :: r' => Some ([(k, v)], r')
                | _ => None
                end
            | _ => None
            end
          else None
      | [] => None
      end
  end.

(** [json.loads(text)]: one value, and nothing but white space around it. *)
Definition loads (text : string) : res json :=
  let l := chars text in
  match scan_value (S (length l)) (skip_ws l) with
  | Some (v, r) => match skip_ws r with
                   | [] => Ok v
                   | _ => raise ValueErrorC "Extra data"
                   end
  | None => raise ValueErrorC "invalid JSON"
  end.

Definition dq : string := unchars [quote_char].

Example loads_examples :
  map loads ["[1, -20 ,0]"; "{" +:+ dq +:+ "a" +:+ dq +:+ ": [true, null]}"; "01"; "[1,]"; "1.5e3"; "NaN"; "[]x"]
  = [Ok (JList [JInt 1; JInt (-20); JInt 0]); Ok (JObj [("a", JList [JBool true; JNull])]);
     raise ValueErrorC "Extra data"; raise ValueErrorC "invalid JSON"; Ok (JFloat "1.5e3");
     raise ValueErrorC "invalid JSON"; raise ValueErrorC "Extra data"].
Proof. vm_compute. reflexivity. Qed.

(** ** Reading back canonical text *)

Lemma scan_escaped n c r acc : scan_string (S n) (escape_char c ++ r) acc = scan_string n r (c :: acc).
Proof. destruct c as [[] [] [] [] [] [] [] []]; reflexivity. Qed.

Lemma scan_print_str s r n :
  (length (flat_map escape_char (chars s)) < n)%nat ->
  scan_string n (flat_map escape_char (chars s) ++ quote_char :: r) [] = Some (s, r).
Proof.
  enough (Hg : forall l acc n, (length (flat_map escape_char l) < n)%nat ->
     scan_string n (flat_map escape_char l ++ quote_char :: r) acc = Some (unchars (rev acc ++ l), r)).
  { intros Hn. rewrite Hg by done. cbn [rev app]. by rewrite unchars_chars. }
  clear. intros l; induction l as [|c l IH]; intros acc n Hn; (destruct n as [|n]; [cbn in Hn; lia|]).
  - cbn [flat_map app scan_string]. rewrite Ascii.eqb_refl. by rewrite app_nil_r.
  - cbn [flat_map]. rewrite <- app_assoc, scan_escaped, IH.
    + cbn [rev]. by rewrite <- app_assoc.
    + cbn [flat_map] in Hn. rewrite length_app in Hn. destruct (escape_head c) as (a & t & Ha & _).
      rewrite Ha in Hn. cbn in Hn. lia.
Qed.

(** *** Integers *)

Lemma dec_digits_head f n acc :
  (0 < n)%N -> (n < 10 ^ N.of_nat (S f))%N ->
  exists c l, chars (dec_digits_go (S f) n acc) = c :: l /\ c <> "0"%char.
Proof.
  revert n acc; induction f as [|f IH]; intros n acc Hp Hn.
  - change (10 ^ N.of_nat 1)%N with 10%N in Hn. rewrite dec_digits_go_S, (proj2 (N.ltb_lt n 10) Hn).
    eexists _, _. split; [reflexivity|]. rewrite N.mod_small by done. intros Hc.
    destruct (digit_char n Hn) as [_ Hv]. rewrite Hc in Hv. vm_compute in Hv. lia.
  - rewrite dec_digits_go_S. destruct (N.ltb_spec n 10) as [Hlt|Hge].
    + eexists _, _. split; [reflexivity|]. rewrite N.mod_small by done. intros Hc.
      destruct (digit_char n Hlt) as [_ Hv]. rewrite Hc in Hv. vm_compute in Hv. lia.
    + apply IH.
      * apply N.div_str_pos. lia.
      * apply N.Div0.div_lt_upper_bound. rewrite <- N.pow_succ_r'. by rewrite <- Nat2N.inj_succ.
Qed.

Lemma N_str_head n : exists c l, chars (N_str n) = c :: l /\ (c = "0"%char -> l = [] /\ n = 0%N).
Proof.
  destruct n as [|p]; [by exists "0"%char, []|].
  destruct (dec_digits_head (N.size_nat (Npos p)) (Npos p) "") as (c & l & Hc & Hne); [done|..].
  { eapply N.lt_le_trans; [apply pos_lt_size_nat|]. change (N.size_nat (N.pos p)) with (Pos.size_nat p).
    transitivity (10 ^ N.of_nat (Pos.size_nat p))%N; [apply N.pow_le_mono_l|apply N.pow_le_mono_r]; lia. }
  exists c, l. split; [exact Hc|done].
Qed.

(** What may follow a number. *)
Definition number_end (r : list ascii) : Prop :=
  match r with
  | [] => True
  | c :: _ => is_digit c = false /\ c <> "."%char /\ c <> "e"%char /\ c <> "E"%char
  end.

Lemma take_run_digits ds r :
  Forall (fun c => is_digit c = true) ds -> number_end r -> take_run (ds ++ r) = (ds, r).
Proof.
  intros Hd Hr. induction Hd as [|c ds Hc _ IH]; cbn.
  - destruct r as [|c r]; [done|]. destruct Hr as [Hc _]. cbn. by rewrite Hc.
  - by rewrite Hc, IH.
Qed.

Lemma number_end_tail r : number_end r -> scan_frac r = None /\ scan_exp r = None.
Proof.
  destruct r as [|c r]; [done|]. intros (Hd & Hp & He & HE). split.
  - unfold scan_frac. by destruct c as [[] [] [] [] [] [] [] []].
  - unfold scan_exp. by rewrite (proj2 (Ascii.eqb_neq c "e") He), (proj2 (Ascii.eqb_neq c "E") HE).
Qed.

Definition int_readable (z : Z) : bool := (length (chars (N_str (Z.abs_N z))) <=? max_str_digits)%nat.

Lemma scan_N_str n (neg : bool) r :
  number_end r ->
  scan_int ((if neg then ["-"%char] else []) ++ chars (N_str n) ++ r) = Some (neg, chars (N_str n), r).
Proof.
  intros Hr. destruct (N_str_head n) as (c & l & Hc & Hz). destruct (N_str_spec n) as (_ & Hf & _).
  assert (Hd : is_digit c = true) by (rewrite Hc in Hf; by inversion Hf).
  assert (Hbody : match chars (N_str n) ++ r with
                  | "0"%char :: r' => Some (neg, ["0"%char], r')
                  | _ => match take_run (chars (N_str n) ++ r) with
                         | ([], _) => None
                         | (ds, r') => Some (neg, ds, r')
                         end
                  end = Some (neg, chars (N_str n), r)).
  { rewrite take_run_digits by done. rewrite Hc. cbn [app].
    destruct (ascii_dec c "0") as [->|Hne]; [by destruct (Hz eq_refl) as [-> _]|].
    destruct c as [[] [] [] [] [] [] [] []]; try done; by destruct Hne. }
  unfold scan_int. destruct neg; cbn [app]; [exact Hbody|].
  rewrite Hc in *. cbn [app] in *. destruct c as [[] [] [] [] [] [] [] []]; try discriminate Hd; exact Hbody.
Qed.

Lemma scan_number_int z r :
  int_readable z = true -> number_end r -> scan_number (chars (Z_str z) ++ r) = Some (JInt z, r).
Proof.
  intros Hi Hr. unfold scan_number.
  assert (Hs : scan_int (chars (Z_str z) ++ r) = Some ((z <? 0)%Z, chars (N_str (Z.abs_N z)), r)).
  { destruct z as [|p|p]; cbn [Z_str Z.abs_N Z.ltb Z.compare].
    - exact (scan_N_str 0 false r Hr).
    - exact (scan_N_str (Npos p) false r Hr).
    - exact (scan_N_str (Npos p) true r Hr). }
  rewrite Hs. destruct (number_end_tail r Hr) as [Hfr Hex].
  cbn [mbind option_bind]. rewrite Hfr. cbn [default from_option id]. rewrite Hex. cbn [default from_option id].
  unfold int_readable in Hi. rewrite Hi. unfold int_value. destruct (N_str_spec (Z.abs_N z)) as (_ & _ & ->).
  do 3 f_equal. destruct z; done.
Qed.

(** *** Values *)

(** What canonical JSON spells and Python reads back: no float, no integer
    beyond the digit limit, no key twice. *)
Fixpoint readable (v : json) : bool :=
  match v with
  | JFloat _ => false
  | JInt z => int_readable z
  | JList l => forallb readable l
  | JObj l => bool_decide (NoDup (map fst l)) && forallb (fun kv => readable (snd kv)) l
  | _ => true
  end.

Definition reads (v : json) : Prop :=
  forall n r, (length (print v) <= n)%nat -> number_end r -> scan_value n (print v ++ r) = Some (v, r).

Lemma readable_float_free v : readable v = true -> float_free v = true.
Proof.
  induction v as [|b|z|f|s|l IH|l IH] using json_ind'; cbn; intros Hv; try done.
  - rewrite forallb_forall in *. rewrite Forall_forall in IH. intros x Hx.
    apply IH; [by apply list_elem_of_In|by apply Hv].
  - apply andb_true_iff in Hv as [_ Hv]. rewrite forallb_forall in *. rewrite Forall_forall in IH.
    intros x Hx. apply IH; [by apply list_elem_of_In|by apply Hv].
Qed.

(** The first character of a value is no white space and no closing bracket. *)
Lemma print_start v :
  readable v = true ->
  exists c l, print v = c :: l /\ is_ws c = false /\ c <> "]"%char /\ c <> "}"%char.
Proof.
  intros Hv%readable_float_free. destruct (print_head v Hv) as (c & l & Hc & Hk). exists c, l. split; [done|].
  assert (kind_of_char c <> 8)%nat as Hk8 by (rewrite Hk; by destruct v as [|[]| | | | |]).
  assert (is_ws c = false) as Hw.
  { destruct (is_ws c) eqn:Hw; [|done]. exfalso. revert Hw Hk8. clear.
    destruct c as [[] [] [] [] [] [] [] []]; vm_compute; congruence. }
  split; [done|]. split; intros ->; by apply Hk8.
Qed.

Lemma skip_ws_start c l : is_ws c = false -> skip_ws (c :: l) = c :: l.
Proof. intros Hc. cbn [skip_ws]. by rewrite Hc. Qed.

Lemma items_cons {A} (pr : A -> list ascii) x y l :
  items pr (x :: y :: l) = pr x ++ ","%char :: items pr (y :: l).
Proof. done. Qed.

Lemma scan_elements_print l : forall n r,
  Forall reads l -> forallb readable l = true -> l <> [] ->
  (length (items print l) < n)%nat ->
  scan_elements n (items print l ++ "]"%char :: r) = Some (l, r).
Proof.
  induction l as [|x l IH]; intros n r Hr Hv Hne Hn; [done|].
  destruct n as [|n]; [lia|]. apply Forall_cons in Hr as [Hx Hr].
  cbn [forallb] in Hv. apply andb_true_iff in Hv as [Hvx Hv]. destruct l as [|y l].
  - unfold items, tail_items in *. cbn [flat_map] in *. rewrite app_nil_r in *. cbn [scan_elements].
    rewrite Hx; [done|lia|]. cbn. done.
  - rewrite items_cons in *. rewrite length_app in Hn. cbn [length] in Hn. rewrite <- app_assoc.
    cbn [scan_elements app]. rewrite Hx; [|lia|done]. cbn [mbind option_bind].
    rewrite skip_ws_start by done.
    assert (Hsk : skip_ws (items print (y :: l) ++ "]"%char :: r) = items print (y :: l) ++ "]"%char :: r).
    { cbn [forallb] in Hv. apply andb_true_iff in Hv as [Hvy _].
      destruct (print_start y Hvy) as (c & t & Hc & Hw & _). unfold items. rewrite Hc. by apply skip_ws_start. }
    rewrite Hsk, IH; [done|done|done|done|lia].
Qed.

Definition print_member (kv : string * json) : list ascii := print_str (fst kv) ++ ":"%char :: print (snd kv).

Lemma scan_members_print l : forall n r,
  Forall (fun kv => reads (snd kv)) l -> forallb (fun kv => readable (snd kv)) l = true -> l <> [] ->
  (length (items print_member l) < n)%nat ->
  scan_members n (items print_member l ++ "}"%char :: r) = Some (l, r).
Proof.
  assert (Hone : forall n k v r, reads v -> readable v = true -> (length (print_member (k, v)) < S n)%nat ->
    number_end r -> scan_members (S n) (print_member (k, v) ++ r) =
      match skip_ws r with
      | ","%char :: r' => '(kvs, r'') ← scan_members n (skip_ws r'); Some ((k, v) :: kvs, r'')
      | "}"%char :: r' => Some ([(k, v)], r')
      | _ => None
      end).
  { intros n k v r Hx Hvx Hn Hr. unfold print_member, print_str in *. cbn [fst snd] in *.
    cbn [app length] in Hn. rewrite !length_app in Hn. cbn [length] in Hn.
    cbn [app]. rewrite <- !app_assoc. cbn [scan_members app]. rewrite Ascii.eqb_refl.
    rewrite scan_print_str by (rewrite !length_app; cbn; lia). cbn [mbind option_bind].
    rewrite skip_ws_start by done.
    destruct (print_start v Hvx) as (c & t & Hc & Hw & _).
    replace (skip_ws (print v ++ r)) with (print v ++ r) by (rewrite Hc; exact (eq_sym (skip_ws_start c (t ++ r) Hw))).
    rewrite Hx; [done|lia|done]. }
  induction l as [|[k v] l IH]; intros n r Hr Hv Hne Hn; [done|].
  destruct n as [|n]; [lia|]. apply Forall_cons in Hr as [Hx Hr].
  cbn [forallb] in Hv. apply andb_true_iff in Hv as [Hvx Hv]. destruct l as [|y l].
  - unfold items, tail_items in *. cbn [flat_map] in *. rewrite app_nil_r in *.
    rewrite Hone; [|done|done|lia|done]. by rewrite skip_ws_start.
  - rewrite items_cons in *. rewrite length_app in Hn. cbn [length] in Hn. rewrite <- app_assoc.
    cbn [app]. rewrite Hone; [|done|done|lia|done]. rewrite skip_ws_start by done.
    assert (Hsk : skip_ws (items print_member (y :: l) ++ "}"%char :: r) = items print_member (y :: l) ++ "}"%char :: r).
    { destruct y as [ky vy]. unfold items, print_member, print_str. cbn [fst snd app].
      by apply skip_ws_start. }
    rewrite Hsk, IH; [done|done|done|done|lia].
Qed.

Lemma scan_value_number n c l :
  is_digit c || Ascii.eqb c "-"%char = true -> scan_value (S n) (c :: l) = scan_number (c :: l).
Proof.
  intros Hc. cbn [scan_value].
  destruct c as [[] [] [] [] [] [] [] []]; try discriminate Hc; reflexivity.
Qed.

Lemma reads_print v : readable v = true -> reads v.
Proof.
  induction v as [|b|z|f|s|l IH|l IH] using json_ind'; intros Hv n r Hn Hr.
  - destruct n as [|n]; [cbn in Hn; lia|]. reflexivity.
  - destruct n as [|n]; [destruct b; cbn in Hn; lia|]. by destruct b.
  - cbn [readable print] in *. rewrite <- (scan_number_int z r Hv Hr).
    destruct (Z_str_chars z) as (ds & Hne & Hd & Hc & _). rewrite Hc in *.
    destruct n as [|n]; [exfalso; rewrite length_app in Hn; destruct ds; cbn in Hn; [done|lia]|].
    destruct (z <? 0)%Z; [by apply scan_value_number|].
    destruct Hd as [|c ds Hdc _]; [done|]. apply scan_value_number. by rewrite Hdc.
  - done.
  - cbn [print] in *. unfold print_str in *. destruct n as [|n]; [cbn in Hn; lia|].
    cbn [app scan_value]. rewrite Ascii.eqb_refl. rewrite <- app_assoc. cbn [app].
    rewrite scan_print_str; [done|]. rewrite length_app. cbn [length]. lia.
  - cbn [readable] in Hv. destruct n as [|n]; [cbn in Hn; lia|]. cbn [print app] in *.
    cbn [scan_value]. change (Ascii.eqb "["%char quote_char) with false. cbn [Ascii.eqb Bool.eqb].
    destruct l as [|x l]; [done|].
    assert (Hx : readable x = true) by (cbn in Hv; by apply andb_true_iff in Hv as [? _]).
    assert (Hall : Forall reads (x :: l)).
    { rewrite Forall_forall in *. rewrite forallb_forall in Hv. intros y Hy.
      apply IH; [done|]. by apply Hv, list_elem_of_In. }
    rewrite <- app_assoc. cbn [app].
    destruct (print_start x Hx) as (c & t & Hc & Hw & Hb & _).
    pose proof (scan_elements_print (x :: l) n r Hall Hv ltac:(done)) as He.
    cbn [length] in Hn. rewrite length_app in Hn. cbn [length] in Hn. specialize (He ltac:(lia)).
    assert (Hsk : forall rest, skip_ws (items print (x :: l) ++ rest) = c :: (t ++ tail_items print l) ++ rest).
    { intros rest. unfold items. rewrite Hc. cbn [app]. rewrite <- !app_assoc. by apply skip_ws_start. }
    rewrite Hsk. assert (Hit : c :: (t ++ tail_items print l) ++ "]"%char :: r = items print (x :: l) ++ "]"%char :: r).
    { unfold items. rewrite Hc. cbn [app]. by rewrite <- !app_assoc. }
    rewrite <- Hit in He.
    destruct c as [[] [] [] [] [] [] [] []]; (by destruct Hb) || (rewrite He; reflexivity).
  - cbn [readable] in Hv. apply andb_true_iff in Hv as [Hnd%bool_decide_eq_true_1 Hv].
    destruct n as [|n]; [cbn in Hn; lia|]. cbn [print app] in *.
    cbn [scan_value]. change (Ascii.eqb "{"%char quote_char) with false. cbn [Ascii.eqb Bool.eqb].
    fold print_member in *. destruct l as [|[k x] l]; [done|].
    assert (Hall : Forall (fun kv => reads (snd kv)) ((k, x) :: l)).
    { rewrite Forall_forall in *. rewrite forallb_forall in Hv. intros y Hy.
      apply IH; [done|]. by apply Hv, list_elem_of_In. }
    rewrite <- app_assoc. cbn [app].
    pose proof (scan_members_print ((k, x) :: l) n r Hall Hv ltac:(done)) as He.
    cbn [length] in Hn. rewrite length_app in Hn. cbn [length] in Hn. specialize (He ltac:(lia)).
    assert (Hsk : forall rest, skip_ws (items print_member ((k, x) :: l) ++ rest) = items print_member ((k, x) :: l) ++ rest)
      by (intros rest; by apply skip_ws_start).
    rewrite Hsk.
    transitivity ('(kvs, r2) ← scan_members n (items print_member ((k, x) :: l) ++ "}"%char :: r);
                  Some (JObj (dict_of_list kvs), r2)); [reflexivity|].
    rewrite He. cbn [mbind option_bind]. by rewrite (dict_of_list_nodup _ Hnd).
Qed.

Lemma readable_norm v : readable v = true -> readable (json_norm v) = true.
Proof.
  induction v as [|b|z|f|s|l IH|l IH] using json_ind'; intros Hv; try done; cbn [readable json_norm] in *.
  - rewrite forallb_forall in *. rewrite Forall_forall in IH. intros x Hx.
    apply in_map_iff in Hx as (y & <- & Hy). apply IH; [by apply list_elem_of_In|by apply Hv].
  - apply andb_true_iff in Hv as [Hnd%bool_decide_eq_true_1 Hv]. apply andb_true_iff.
    set (m := map (fun kv => (fst kv, json_norm (snd kv))) l).
    assert (Hfst : map fst m = map fst l) by (unfold m; by rewrite map_map).
    split.
    + apply bool_decide_eq_true_2. rewrite (sort_by_perm key_le m). by rewrite Hfst.
    + rewrite forallb_forall in *. rewrite Forall_forall in IH. intros kv Hkv.
      apply list_elem_of_In, sort_by_elem, list_elem_of_In, in_map_iff in Hkv as (kv' & <- & Hin).
      apply IH; [by apply list_elem_of_In|by apply Hv].
Qed.

(** Reading back canonical JSON: when a value has no float, no integer past
    Python's digit limit and no repeated key, [json.loads] of its canonical text
    is the value itself, with the members of its objects in key order. *)
Theorem loads_canonical v s :
  readable v = true -> canonical_json v = Ok s -> loads s = Ok (json_norm v).
Proof.
  intros Hv Hs. pose proof (readable_float_free _ Hv) as Hf. unfold canonical_json in Hs.
  rewrite (json_value_total _ Hf) in Hs. cbn in Hs. destruct (canonical_print v Hf) as (s' & Hs' & Hc).
  assert (s' = s) as -> by congruence. unfold loads. rewrite Hc.
  pose proof (readable_norm v Hv) as Hn. destruct (print_start _ Hn) as (c & l & Hpr & Hw & _).
  assert (Hsk : skip_ws (print (json_norm v)) = print (json_norm v)) by (rewrite Hpr; by apply skip_ws_start).
  rewrite Hsk. rewrite <- (app_nil_r (print (json_norm v))) at 2.
  rewrite (reads_print _ Hn); [done|lia|done].
Qed.

(** ** Canonical text once more

    Printing what was read back gives the same text, and the text is made of
    printable ASCII when the strings of the value are ASCII. *)

Lemma key_le_sorted {A} (l : dict string A) :
  StronglySorted (fun a b => key_le a b = true) (sort_by key_le l).
Proof.
  apply sort_by_sorted.
  - intros x y. unfold key_le. destruct (String.leb_total (fst x) (fst y)); auto.
  - intros x y z. unfold key_le. apply string_leb_trans.
Qed.

Lemma json_norm_idem v : json_norm (json_norm v) = json_norm v.
Proof.
  induction v as [|b|z|f|s|l IH|l IH] using json_ind'; cbn [json_norm]; try done.
  - f_equal. rewrite map_map. apply map_ext_in. intros x Hx. rewrite Forall_forall in IH.
    by apply IH, list_elem_of_In.
  - f_equal. set (m := sort_by key_le (map (fun kv => (fst kv, json_norm (snd kv))) l)).
    assert (Hm : map (fun kv => (fst kv, json_norm (snd kv))) m = m).
    { rewrite <- (map_id m) at 2. apply map_ext_in. intros [k x] Hx.
      apply list_elem_of_In, sort_by_elem, list_elem_of_In, in_map_iff in Hx as ([k' y] & [= <- <-] & Hy).
      cbn [fst snd]. rewrite Forall_forall in IH. f_equal. exact (IH (k', y) (proj2 (list_elem_of_In _ _) Hy)). }
    rewrite Hm. apply sort_by_sorted_id, key_le_sorted.
Qed.

Lemma canonical_json_total v : float_free v = true -> exists s, canonical_json v = Ok s /\ chars s = print (json_norm v).
Proof.
  intros Hf. unfold canonical_json. rewrite (json_value_total _ Hf). cbn. by apply canonical_print.
Qed.

Lemma canonical_norm v : float_free v = true -> canonical_json (json_norm v) = canonical_json v.
Proof.
  intros Hf. destruct (canonical_json_total v Hf) as (s & Hs & Hc).
  destruct (canonical_json_total (json_norm v) (json_norm_float_free _ Hf)) as (s' & Hs' & Hc').
  rewrite Hs, Hs'. f_equal. rewrite json_norm_idem in Hc'. rewrite <- (unchars_chars s), <- (unchars_chars s').
  by rewrite Hc, Hc'.
Qed.

(** *** Printable text *)

Definition printable (c : ascii) : bool := char_in 32 127 c.

(** All strings and keys are ASCII. *)
Fixpoint ascii_text (v : json) : bool :=
  match v with
  | JStr s => forallb ascii_char (chars s)
  | JList l => forallb ascii_text l
  | JObj l => forallb (fun kv => forallb ascii_char (chars (fst kv)) && ascii_text (snd kv)) l
  | _ => true
  end.

Lemma escape_printable c : ascii_char c = true -> forallb printable (escape_char c) = true.
Proof. destruct c as [[] [] [] [] [] [] [] []]; intros Hc; try discriminate Hc; vm_compute; reflexivity. Qed.

Lemma forallb_flat_map {A B} (p : B -> bool) (f : A -> list B) l :
  forallb p (flat_map f l) = forallb (fun x => forallb p (f x)) l.
Proof. induction l as [|x l IH]; cbn; [done|]. by rewrite forallb_app, IH. Qed.

Lemma print_str_printable s : forallb ascii_char (chars s) = true -> forallb printable (print_str s) = true.
Proof.
  intros Hs. unfold print_str. cbn [forallb]. change (printable quote_char) with true.
  rewrite forallb_app, forallb_flat_map, !andb_true_iff. split; [done|]. split; [|done].
  rewrite forallb_forall in *. intros c Hc. by apply escape_printable, Hs.
Qed.

Lemma items_printable {A} (pr : A -> list ascii) l :
  (forall x, x ∈ l -> forallb printable (pr x) = true) -> forallb printable (items pr l) = true.
Proof.
  intros Hl. unfold items, tail_items. destruct l as [|x l]; [done|].
  rewrite forallb_app, forallb_flat_map, (Hl x) by left. cbn [andb]. apply forallb_forall. intros y Hy.
  cbn [forallb]. rewrite (Hl y) by (right; by apply list_elem_of_In). done.
Qed.

Lemma digit_printable c : is_digit c = true -> printable c = true.
Proof. destruct c as [[] [] [] [] [] [] [] []]; intros Hc; try discriminate Hc; reflexivity. Qed.

Lemma print_printable v : float_free v = true -> ascii_text v = true -> forallb printable (print v) = true.
Proof.
  induction v as [|[]|z|f|s|l IH|l IH] using json_ind'; intros Hf Ha; try done; cbn [print float_free ascii_text] in *.
  - destruct (Z_str_chars z) as (ds & _ & Hd & -> & _). rewrite forallb_app, andb_true_iff. split.
    + by destruct (z <? 0)%Z.
    + apply forallb_forall. intros c Hc. apply digit_printable. rewrite Forall_forall in Hd.
      by apply Hd, list_elem_of_In.
  - by apply print_str_printable.
  - cbn [forallb]. rewrite forallb_app. change (printable "["%char) with true.
    rewrite (items_printable print); [done|]. rewrite forallb_forall in Hf, Ha. rewrite Forall_forall in IH.
    intros x Hx. apply IH; [done|by apply Hf, list_elem_of_In|by apply Ha, list_elem_of_In].
  - cbn [forallb]. rewrite forallb_app. change (printable "{"%char) with true.
    rewrite items_printable; [done|]. rewrite forallb_forall in Hf, Ha. rewrite Forall_forall in IH.
    intros [k x] Hx. cbn [fst snd]. rewrite forallb_app. cbn [forallb].
    specialize (Ha (k, x) (proj1 (list_elem_of_In _ _) Hx)). cbn [fst snd] in Ha.
    apply andb_true_iff in Ha as [Hk Hax]. rewrite print_str_printable by done.
    pose proof (IH (k, x) Hx) as Hp. cbn [snd] in Hp. rewrite Hp; [done|by apply (Hf (k, x)), list_elem_of_In|done].
Qed.

Lemma ascii_text_norm v : ascii_text v = true -> ascii_text (json_norm v) = true.
Proof.
  induction v as [|b|z|f|s|l IH|l IH] using json_ind'; intros Hv; try done; cbn [ascii_text json_norm] in *;
    rewrite forallb_forall in *; rewrite Forall_forall in IH.
  - intros x Hx. apply in_map_iff in Hx as (y & <- & Hy). apply IH; [by apply list_elem_of_In|by apply Hv].
  - intros kv Hkv.
    apply list_elem_of_In, sort_by_elem, list_elem_of_In, in_map_iff in Hkv as (kv' & <- & Hin). cbn [fst snd].
    specialize (Hv _ Hin). apply andb_true_iff in Hv as [Hk Hx]. rewrite Hk. cbn [andb].
    by apply IH; [apply list_elem_of_In|].
Qed.

(** Reading a line: the canonical text and a line feed. *)
Lemma loads_line v s :
  readable v = true -> canonical_json v = Ok s -> loads (s +:+ unchars [ascii_of_nat 10]) = Ok (json_norm v).
Proof.
  intros Hv Hs. destruct (canonical_json_total v (readable_float_free _ Hv)) as (s' & Hs' & Hc).
  assert (s' = s) as -> by congruence. unfold loads. rewrite chars_app, chars_unchars, Hc.
  pose proof (readable_norm v Hv) as Hn. destruct (print_start _ Hn) as (c & l & Hpr & Hw & _).
  assert (Hsk : skip_ws (print (json_norm v) ++ [ascii_of_nat 10]) = print (json_norm v) ++ [ascii_of_nat 10])
    by (rewrite Hpr; by apply skip_ws_start).
  rewrite Hsk, (reads_print _ Hn); [done|rewrite length_app; lia|done].
Qed.

Lemma dict_get_norm l k v :
  NoDup (map fst l) -> dict_get k l = Some v ->
  exists m, json_norm (JObj l) = JObj m /\ dict_get k m = Some (json_norm v).
Proof.
  intros Hnd Hk. eexists. split; [reflexivity|]. set (m := sort_by _ _).
  assert (Hm : NoDup (map fst m)).
  { unfold m. rewrite (sort_by_perm key_le). by rewrite map_map. }
  apply dict_get_elem in Hk. apply dict_get_nodup; [done|]. unfold m. rewrite sort_by_elem.
  apply list_elem_of_In, in_map_iff. exists (k, v). split; [done|by apply list_elem_of_In].
Qed.
