(* ===== verification/ConsensusPorts.v ===== *)
(** * Consensus value objects and the feasibility gate

    [app/ports/consensus.py]: the frozen inputs and results of a consensus
    strategy with their field constraints and validators; [app/domain/consensus.py]:
    [feasibility_gate], the durable run record and its validator. *)

From S2P Require Import Prelude.
From S2P Require Import PyDecimal.
From S2P Require Import Sha256.
From S2P Require Import Json.
From S2P Require Import Symbolic.

(** ** Enumerations *)

Inductive ConsensusOutcome : Type :=
| FULL_CONSENSUS
| PARTIAL_CONSENSUS
| CONDITIONAL_CONSENSUS
| PARETO_SET
| NO_CONSENSUS
| DEADLOCK
| INSUFFICIENT_EVIDENCE
| INFEASIBLE.

#[export] Instance ConsensusOutcome_eq_dec : EqDecision ConsensusOutcome.
Proof. solve_decision. Defined.

Definition outcome_value (o : ConsensusOutcome) : string :=
  match o with
  | FULL_CONSENSUS => "FULL_CONSENSUS"
  | PARTIAL_CONSENSUS => "PARTIAL_CONSENSUS"
  | CONDITIONAL_CONSENSUS => "CONDITIONAL_CONSENSUS"
  | PARETO_SET => "PARETO_SET"
  | NO_CONSENSUS => "NO_CONSENSUS"
  | DEADLOCK => "DEADLOCK"
  | INSUFFICIENT_EVIDENCE => "INSUFFICIENT_EVIDENCE"
  | INFEASIBLE => "INFEASIBLE"
  end.

Module Feasibility.
Inductive status : Type := SAT | UNSAT | UNKNOWN.
#[global] Instance status_eq_dec : EqDecision status.
Proof. solve_decision. Defined.
End Feasibility.

Inductive AbstainPolicy : Type := EXCLUDE | HALF.

#[export] Instance AbstainPolicy_eq_dec : EqDecision AbstainPolicy.
Proof. solve_decision. Defined.

(** ** Inputs *)

Record FeasibilityVerdict : Type := mkVerdict {
  fv_alternative_id : uuid;
  fv_status : Feasibility.status;
  fv_unsat_core : list string;
  fv_witness : option json;
  fv_reason_unknown : option string
}.

(** [FeasibilityVerdict.evidence_matches_status] *)
Definition evidence_matches_status (v : FeasibilityVerdict) : res unit :=
  match fv_status v with
  | Feasibility.SAT =>
      guard_not (nonempty (fv_unsat_core v) || is_some (fv_reason_unknown v))
        ValueErrorC "SAT cannot contain contradiction or UNKNOWN evidence"
  | Feasibility.UNSAT =>
      guard_not (negb (nonempty (fv_unsat_core v)) || is_some (fv_witness v)
                 || is_some (fv_reason_unknown v))
        ValueErrorC "UNSAT requires only contradiction evidence"
  | Feasibility.UNKNOWN =>
      guard_not (missing_or_blank (fv_reason_unknown v) || nonempty (fv_unsat_core v)
                 || is_some (fv_witness v))
        ValueErrorC "UNKNOWN requires only a non-empty reason"
  end.

Record StrategyConfig : Type := mkStrategyConfig {
  sc_strategy_name : string;
  sc_strategy_version : string;
  sc_parameters : dict string json
}.

Record AgentPosition : Type := mkPosition {
  ap_agent_id : uuid;
  ap_agent_definition_version : string;
  ap_alternative_id : uuid;
  ap_stance : string;
  ap_confidence : dec;
  ap_rationale : string;
  ap_evidence_ids : list uuid
}.

Record EvidenceCitationInput : Type := mkCitation {
  ec_evidence_id : uuid;
  ec_verification : string;
  ec_trust_level : string;
  ec_polarity : string;
  ec_publisher : string
}.

Record ObjectiveInput : Type := mkObjective {
  ob_objective_id : uuid;
  ob_name : string;
  ob_weight : dec;
  ob_direction : string;
  ob_conflicts_with : list uuid
}.

Record ConstraintInput : Type := mkConstraint {
  co_constraint_id : uuid;
  co_name : string;
  co_constraint_type : string;
  co_formal_status : string
}.

Record AlternativeInput : Type := mkAlternative { al_id : uuid; al_name : string }.

Record PropositionInput : Type := mkProposition { pr_id : uuid; pr_normalized_text : string }.

Record CritiqueInput : Type := mkCritique {
  cr_critique_id : uuid;
  cr_target_id : uuid;
  cr_critique_type : string;
  cr_severity : string;
  cr_resolution : string
}.

Record AssumptionInput : Type := mkAssumption {
  as_id : uuid; as_statement : string; as_materiality : string }.

Record ConsensusContext : Type := mkContext {
  cx_session_id : uuid;
  cx_round : Z;
  cx_alternatives : list AlternativeInput;
  cx_propositions : list PropositionInput;
  cx_agent_positions : list AgentPosition;
  cx_evidence : list EvidenceCitationInput;
  cx_assumptions : list AssumptionInput;
  cx_critiques : list CritiqueInput;
  cx_objectives : list ObjectiveInput;
  cx_constraints : list ConstraintInput;
  cx_feasibility : list FeasibilityVerdict;
  cx_strategy_config : StrategyConfig;
  cx_objective_values : dict string (dict string string)
}.

(** ** Field constraints

    [Field(min_length=1)], [Field(ge=0, le=1)], [Field(ge=1)] of the models. *)

Definition filled (s : string) : bool := negb (String.eqb s "").
Definition unit_decimal (d : dec) : bool := dleb dzero d && dleb d dunit.

Definition AgentPosition_ok (p : AgentPosition) : bool :=
  filled (ap_agent_definition_version p) && filled (ap_stance p) && unit_decimal (ap_confidence p).

Definition EvidenceCitationInput_ok (e : EvidenceCitationInput) : bool :=
  filled (ec_verification e) && filled (ec_trust_level e) && filled (ec_polarity e).

Definition ObjectiveInput_ok (o : ObjectiveInput) : bool :=
  filled (ob_name o) && unit_decimal (ob_weight o) && filled (ob_direction o).

Definition ConstraintInput_ok (c : ConstraintInput) : bool :=
  filled (co_name c) && filled (co_constraint_type c) && filled (co_formal_status c).

Definition CritiqueInput_ok (c : CritiqueInput) : bool :=
  filled (cr_critique_type c) && filled (cr_severity c) && filled (cr_resolution c).

Definition StrategyConfig_ok (c : StrategyConfig) : bool :=
  filled (sc_strategy_name c) && filled (sc_strategy_version c).

(** [ConsensusContext]: the fields of the parts, then the two validators. *)
Definition context_fields_ok (c : ConsensusContext) : bool :=
  (1 <=? cx_round c)%Z && nonempty (cx_alternatives c)
  && forallb (fun a => filled (al_name a)) (cx_alternatives c)
  && forallb (fun p => filled (pr_normalized_text p)) (cx_propositions c)
  && forallb AgentPosition_ok (cx_agent_positions c)
  && forallb EvidenceCitationInput_ok (cx_evidence c)
  && forallb (fun a => filled (as_statement a)) (cx_assumptions c)
  && forallb CritiqueInput_ok (cx_critiques c)
  && forallb ObjectiveInput_ok (cx_objectives c)
  && forallb ConstraintInput_ok (cx_constraints c)
  && forallb (fun v => is_ok (evidence_matches_status v)) (cx_feasibility c)
  && StrategyConfig_ok (cx_strategy_config c).

Definition unique_alternatives (v : list AlternativeInput) : res unit :=
  guard_not (negb (distinct (map al_id v))) ValueErrorC "alternative IDs must be unique".

Definition feasibility_matches_alternatives (c : ConsensusContext) : res unit :=
  let alternative_ids := map al_id (cx_alternatives c) in
  let verdict_ids := map fv_alternative_id (cx_feasibility c) in
  _ ← guard_not (negb (distinct verdict_ids))
        ValueErrorC "feasibility verdict alternative IDs must be unique";
  guard_not (negb (forallb (fun i => bool_decide (i ∈ alternative_ids)) verdict_ids))
    ValueErrorC "feasibility verdict must reference a context alternative".

Definition ConsensusContext_validate (c : ConsensusContext) : res unit :=
  _ ← guard_not (negb (context_fields_ok c)) ValidationErrorC "ConsensusContext";
  _ ← unique_alternatives (cx_alternatives c);
  feasibility_matches_alternatives c.

(** ** The input hash

    The model's JSON dump is the serialisation library's; the hash of what it
    returns is the source's. *)
Class ContextDump : Type := { dump_context : ConsensusContext -> json }.

Definition consensus_input_hash `{ContextDump} (c : ConsensusContext) : string :=
  "sha256:" +:+ sha256_hex (_canonical_json (dump_context c)).

(** ** Results *)

Record AlternativeScore : Type := mkScore {
  as_alternative_id : uuid;
  as_alternative_name : string;
  as_rank : Z;
  as_support : dec;
  as_value_score : option dec;
  as_rank_score : option dec;
  as_feasibility : Feasibility.status;
  as_evidence_strength : option dec
}.

Record AgentContribution : Type := mkContribution {
  ac_agent_id : uuid;
  ac_alternative_id : uuid;
  ac_stance : string;
  ac_position_score : dec;
  ac_confidence : dec;
  ac_evidence_score : dec
}.

Record DissentEntry : Type := mkDissent {
  de_agent_id : uuid;
  de_stance : string;
  de_warrant_artifact_ids : list uuid;
  de_disputed_proposition_ids : list uuid;
  de_unresolved_critique_ids : list uuid;
  de_what_would_change : string
}.

Record MinorityEntry : Type := mkMinority {
  me_agent_id : uuid;
  me_position : string;
  me_warrant_artifact_ids : list uuid;
  me_disputed_propositions : list uuid;
  me_unresolved_critiques : list uuid;
  me_what_would_change : string
}.

Record DerivationStep : Type := mkDerivation {
  ds_step : Z;
  ds_stage : string;
  ds_description : string;
  ds_inputs : dict string json;
  ds_outputs : dict string json
}.

Record ConsensusResult : Type := mkResult {
  rs_result_id : uuid;
  rs_session_id : uuid;
  rs_round : Z;
  rs_strategy : string;
  rs_strategy_version : string;
  rs_outcome : ConsensusOutcome;
  rs_scores : list AlternativeScore;
  rs_selected_alternative_id : option uuid;
  rs_pareto_set : list uuid;
  rs_support : option dec;
  rs_dissent_ratio : option dec;
  rs_abstention_ratio : option dec;
  rs_blocking_constraints : list string;
  rs_blocking_critiques : list uuid;
  rs_conditions : list string;
  rs_degenerate_input : bool;
  rs_input_hash : string;
  rs_contributions : list AgentContribution;
  rs_dissent : list DissentEntry;
  rs_minority_report : list MinorityEntry;
  rs_derivation : list DerivationStep;
  rs_schema_version : Z
}.

Record ConsensusExplanation : Type := mkExplanation {
  ex_consensus_id : uuid;
  ex_outcome : ConsensusOutcome;
  ex_strategy : string;
  ex_strategy_version : string;
  ex_formula : string;
  ex_weights : dict string json;
  ex_thresholds : dict string json;
  ex_contributions : list AgentContribution;
  ex_derivation : list DerivationStep;
  ex_caveats : list string;
  ex_minority_report : list MinorityEntry;
  ex_flip_distance : option dec;
  ex_degenerate_input : bool;
  ex_input_hash : string
}.

(** ** Validation of results *)

Definition AlternativeScore_ok (s : AlternativeScore) : bool :=
  filled (as_alternative_name s) && (1 <=? as_rank s)%Z && unit_decimal (as_support s).

Definition AgentContribution_ok (c : AgentContribution) : bool :=
  filled (ac_stance c) && dleb dzero (ac_position_score c) && unit_decimal (ac_confidence c)
  && dleb dzero (ac_evidence_score c).

Definition DissentEntry_ok (d : DissentEntry) : bool := filled (de_stance d).
Definition MinorityEntry_ok (m : MinorityEntry) : bool := filled (me_position m).

Definition DerivationStep_ok (d : DerivationStep) : bool :=
  (1 <=? ds_step d)%Z && filled (ds_stage d) && filled (ds_description d).

(** [^sha256:[0-9a-f]{64}$] *)
Definition digest_ok (s : string) : bool :=
  match strip_prefix (chars "sha256:") (chars s) with
  | Some l => (length l =? 64)%nat && forallb is_hex l
  | None => false
  end.

Definition selectable (o : ConsensusOutcome) : bool :=
  match o with
  | FULL_CONSENSUS | PARTIAL_CONSENSUS | CONDITIONAL_CONSENSUS => true
  | _ => false
  end.

Definition opt_ok {A} (f : A -> bool) (o : option A) : bool :=
  match o with None => true | Some a => f a end.

Definition result_fields_ok (r : ConsensusResult) : bool :=
  (1 <=? rs_round r)%Z && filled (rs_strategy r) && filled (rs_strategy_version r)
  && opt_ok unit_decimal (rs_support r) && opt_ok unit_decimal (rs_dissent_ratio r)
  && opt_ok unit_decimal (rs_abstention_ratio r) && digest_ok (rs_input_hash r).

(** [ConsensusResult.result_invariants] *)
Definition result_invariants (r : ConsensusResult) : res unit :=
  _ ← guard_not (negb (rs_schema_version r =? 1)%Z) ValueErrorC
        "unsupported ConsensusResult schema_version";
  guard_not (is_some (rs_selected_alternative_id r) && negb (selectable (rs_outcome r)))
    ValueErrorC ("selected_alternative_id set but outcome " +:+ outcome_value (rs_outcome r) +:+
                 " is not selectable (FR-603)").

Definition construct {A} (ok : A -> bool) (name : string) (a : A) : res A :=
  if ok a then Ok a else raise ValidationErrorC name.

Definition new_result (r : ConsensusResult) : res ConsensusResult :=
  _ ← construct result_fields_ok "ConsensusResult" r;
  _ ← result_invariants r;
  Ok r.

Definition new_explanation (e : ConsensusExplanation) : res ConsensusExplanation :=
  construct (fun e => filled (ex_strategy e) && filled (ex_strategy_version e)
                      && filled (ex_formula e) && digest_ok (ex_input_hash e))
    "ConsensusExplanation" e.
