(* ===== verification/Gate.v ===== *)
(** * The shared feasibility gate and the durable run record

    [app/domain/consensus.py]: [feasibility_gate] and [ConsensusRunRecord].  The
    theorems: the gate never raises on a validated context, splits the
    alternatives exactly by verdict, and keeps their order. *)

From S2P Require Import Prelude.
From S2P Require Import PyDecimal.
From S2P Require Import Json.
From S2P Require Import Symbolic.
From S2P Require Import ConsensusPorts.

Record FeasibilityGateResult : Type := mkGate {
  fg_rankable : list AlternativeInput;
  fg_infeasible : list FeasibilityVerdict;
  fg_unknown : list FeasibilityVerdict;
  fg_all_infeasible : bool;
  fg_has_unknown : bool
}.

(** [SymbolicStatus(verdict.status.value)] *)
Definition symbolic_status (s : Feasibility.status) : SymbolicStatus :=
  match s with
  | Feasibility.SAT => Symbolic.SAT
  | Feasibility.UNSAT => Symbolic.UNSAT
  | Feasibility.UNKNOWN => Symbolic.UNKNOWN
  end.

(** The three lists the loop appends to. *)
Definition gate_acc : Type :=
  (list AlternativeInput * list FeasibilityVerdict * list FeasibilityVerdict)%type.

(** The loop body. *)
Definition gate_step (verdicts : gmap uuid FeasibilityVerdict) (acc : gate_acc)
    (alt : AlternativeInput) : res gate_acc :=
  let '(rankable, infeasible, unknown) := acc in
  match verdicts !! al_id alt with
  | None => Ok (rankable ++ [alt], infeasible, unknown)
  | Some verdict =>
      d ← decide_status (symbolic_status (fv_status verdict)) (fv_reason_unknown verdict);
      match pd_action d with
      | PROCEED => Ok (rankable ++ [alt], infeasible, unknown)
      | BLOCK => Ok (rankable, infeasible ++ [verdict], unknown)
      | DEFER => Ok (rankable ++ [alt], infeasible, unknown ++ [verdict])
      end
  end.

Definition feasibility_gate (alternatives : list AlternativeInput)
    (feasibility : list FeasibilityVerdict) : res FeasibilityGateResult :=
  let verdicts := index_by fv_alternative_id feasibility in
  acc ← foldR (gate_step verdicts) ([], [], []) alternatives;
  let '(rankable, infeasible, unknown) := acc in
  Ok (mkGate rankable infeasible unknown (length rankable =? 0)%nat (0 <? length unknown)%nat).

(** ** The durable record *)

Record ConsensusRunRecord : Type := mkRunRecord {
  rr_id : uuid;
  rr_workspace_id : uuid;
  rr_session_id : uuid;
  rr_round : Z;
  rr_strategy : string;
  rr_strategy_version : string;
  rr_outcome : ConsensusOutcome;
  rr_selected_alternative_id : option uuid;
  rr_pareto_set : list uuid;
  rr_support : option string;
  rr_dissent : option string;
  rr_abstention : option string;
  rr_coverage : option string;
  rr_constraint_report : dict string json;
  rr_conditions : list string;
  rr_input_hash : string;
  rr_created_at : datetime
}.

Definition run_record_fields_ok (r : ConsensusRunRecord) : bool :=
  (1 <=? rr_round r)%Z && filled (rr_strategy r) && filled (rr_strategy_version r)
  && digest_ok (rr_input_hash r).

(** [ConsensusRunRecord.selection_feasibility] *)
Definition selection_feasibility (r : ConsensusRunRecord) : res unit :=
  guard_not (is_some (rr_selected_alternative_id r) && negb (selectable (rr_outcome r)))
    ValueErrorC ("selected_alternative_id set but outcome " +:+ outcome_value (rr_outcome r) +:+
                 " is not selectable (FR-603)").

Definition new_run_record (r : ConsensusRunRecord) : res ConsensusRunRecord :=
  _ ← construct run_record_fields_ok "ConsensusRunRecord" r;
  _ ← selection_feasibility r;
  Ok r.

(** ** The gate as a partition *)

(** The status the gate reads for an alternative. *)
Definition gate_status (feasibility : list FeasibilityVerdict) (alt : AlternativeInput)
    : option Feasibility.status :=
  fv_status <$> index_by fv_alternative_id feasibility !! al_id alt.

Definition is_rankable (feasibility : list FeasibilityVerdict) (alt : AlternativeInput) : bool :=
  bool_decide (gate_status feasibility alt <> Some Feasibility.UNSAT).

(** The verdicts of the alternatives whose status is [s], in alternative order. *)
Definition verdicts_with (s : Feasibility.status) (feasibility : list FeasibilityVerdict)
    (alternatives : list AlternativeInput) : list FeasibilityVerdict :=
  omap (fun alt => v ← index_by fv_alternative_id feasibility !! al_id alt;
                   if decide (fv_status v = s) then Some v else None) alternatives.

(** What the gate returns, as a specification. *)
Definition gate_spec (alternatives : list AlternativeInput) (feasibility : list FeasibilityVerdict)
    : FeasibilityGateResult :=
  let rankable := List.filter (is_rankable feasibility) alternatives in
  let unknown := verdicts_with Feasibility.UNKNOWN feasibility alternatives in
  mkGate rankable (verdicts_with Feasibility.UNSAT feasibility alternatives) unknown
    (length rankable =? 0)%nat (0 <? length unknown)%nat.

Definition verdicts_ok (feasibility : list FeasibilityVerdict) : Prop :=
  Forall (fun v => evidence_matches_status v = Ok ()) feasibility.

Lemma gate_step_spec feasibility r i u a :
  verdicts_ok feasibility ->
  gate_step (index_by fv_alternative_id feasibility) (r, i, u) a =
  Ok (r ++ List.filter (is_rankable feasibility) [a],
      i ++ verdicts_with Feasibility.UNSAT feasibility [a],
      u ++ verdicts_with Feasibility.UNKNOWN feasibility [a]).
Proof.
  intros Hok. unfold gate_step, verdicts_with, is_rankable, gate_status. cbn [omap list_omap List.filter].
  destruct (index_by fv_alternative_id feasibility !! al_id a) as [v|] eqn:Ev; cbn [fmap option_fmap option_map].
  - pose proof (index_by_Some _ _ _ _ Ev) as [Hin _].
    assert (Hv := proj1 (Forall_forall _ _) Hok v Hin). unfold evidence_matches_status in Hv.
    destruct (fv_status v) eqn:Es; cbn; rewrite ?Es; cbn; rewrite ?app_nil_r; try done.
    apply guard_not_Ok in Hv. apply orb_false_iff in Hv as [Hv _].
    apply orb_false_iff in Hv as [Hv _]. rewrite Hv. cbn. by rewrite ?app_nil_r.
  - cbn. by rewrite ?app_nil_r.
Qed.

Lemma gate_fold feasibility r i u alts :
  verdicts_ok feasibility ->
  foldR (gate_step (index_by fv_alternative_id feasibility)) (r, i, u) alts =
  Ok (r ++ List.filter (is_rankable feasibility) alts,
      i ++ verdicts_with Feasibility.UNSAT feasibility alts,
      u ++ verdicts_with Feasibility.UNKNOWN feasibility alts).
Proof.
  intros Hok. revert r i u. induction alts as [|a alts IH]; intros r i u.
  { cbn. by rewrite !app_nil_r. }
  cbn [foldR]. rewrite gate_step_spec by done. cbn [mbind res_bind]. rewrite IH.
  change (a :: alts) with ([a] ++ alts). unfold verdicts_with.
  by rewrite List.filter_app, !omap_app, !app_assoc.
Qed.

Lemma gate_refines alternatives feasibility :
  verdicts_ok feasibility ->
  feasibility_gate alternatives feasibility = Ok (gate_spec alternatives feasibility).
Proof. intros Hok. unfold feasibility_gate. rewrite gate_fold by done. done. Qed.

Lemma context_verdicts_ok c : ConsensusContext_validate c = Ok () -> verdicts_ok (cx_feasibility c).
Proof.
  unfold ConsensusContext_validate. intros H. inv_ok. apply negb_false_iff in Hr.
  unfold context_fields_ok in Hr. apply andb_true_iff in Hr as [Hr _].
  apply andb_true_iff in Hr as [_ Hr]. apply Forall_forall. intros v Hv%list_elem_of_In.
  rewrite forallb_forall in Hr. specialize (Hr v Hv). by destruct (evidence_matches_status v) as [[]|].
Qed.

(** The gate reports all-infeasible exactly when every verdict is UNSAT. *)
Lemma gate_spec_all_infeasible alternatives feasibility :
  fg_all_infeasible (gate_spec alternatives feasibility) = true <->
  forall a, a ∈ alternatives -> gate_status feasibility a = Some Feasibility.UNSAT.
Proof.
  cbn [fg_all_infeasible gate_spec]. rewrite Nat.eqb_eq, length_zero_iff_nil. split.
  - intros Hnil a Ha. destruct (decide (gate_status feasibility a = Some Feasibility.UNSAT)); [done|].
    exfalso. apply (in_nil (a := a)). rewrite <- Hnil. apply filter_In. split; [by apply list_elem_of_In|].
    by apply bool_decide_true.
  - intros Hall. destruct (List.filter _ _) as [|a l] eqn:E; [done|]. exfalso.
    assert (Ha : In a (a :: l)) by (by left). rewrite <- E in Ha. apply filter_In in Ha as [Ha Hb].
    apply bool_decide_eq_true in Hb. apply Hb, Hall. by apply list_elem_of_In.
Qed.

(** C-1, feasibility before ranking: on a validated context the gate never
    raises; it ranks exactly the alternatives without an UNSAT verdict, in their
    order, records every UNSAT and UNKNOWN verdict, and reports all-infeasible
    exactly when every alternative has an UNSAT verdict. *)
Theorem gate_partitions c :
  ConsensusContext_validate c = Ok () ->
  exists g, feasibility_gate (cx_alternatives c) (cx_feasibility c) = Ok g /\
    g = gate_spec (cx_alternatives c) (cx_feasibility c) /\
    (fg_all_infeasible g = true <->
     forall a, a ∈ cx_alternatives c -> gate_status (cx_feasibility c) a = Some Feasibility.UNSAT) /\
    (forall v, v ∈ fg_unknown g ->
       exists a, a ∈ fg_rankable g /\ al_id a = fv_alternative_id v).
Proof.
  intros Hc. eexists; split; [apply gate_refines; by apply context_verdicts_ok|].
  split; [done|]. split; [apply gate_spec_all_infeasible|]. cbn [fg_unknown fg_rankable gate_spec].
  intros v Hv. apply list_elem_of_omap in Hv as (a & Ha & Hv). exists a.
  destruct (index_by _ _ !! al_id a) as [v'|] eqn:Ev; [|done]. cbn in Hv. case_decide; [|done].
  injection Hv as ->. split; [|by apply index_by_Some in Ev as [_ ?]].
  apply list_elem_of_In, filter_In. split; [by apply list_elem_of_In|].
  apply bool_decide_true. unfold gate_status. rewrite Ev. cbn. congruence.
Qed.
