(* ===== verification/ConsensusHelpers.v ===== *)
(** * Shared helpers of the consensus strategies

    [app/application/consensus.py], the module-level functions: position
    scores, support, critiques, dissent and minority reports, contributions,
    the blocking cap, objective values, and how a strategy reads its parameter
    dictionary. *)

From S2P Require Import Prelude.
From S2P Require Import PyDecimal.
From S2P Require Import Json.
From S2P Require Import Symbolic.
From S2P Require Import ConsensusPorts.
From S2P Require Import Gate.

(** ** Reading parameters *)

(** [bool(value)] *)
Definition truthy (v : json) : bool :=
  match v with
  | JNull => false
  | JBool b => b
  | JInt z => negb (z =? 0)%Z
  | JFloat r => negb (bool_decide (r ∈ ["0.0"; "-0.0"]))
  | JStr s => filled s
  | JList l => nonempty l
  | JObj l => nonempty l
  end.

(** [Decimal(str(value))]: the text of a list or a dict is never a numeral. *)
Definition decimal_of_str (v : json) : res dec :=
  match v with
  | JNull => dec_of_string "None"
  | JBool true => dec_of_string "True"
  | JBool false => dec_of_string "False"
  | JInt z => dec_of_string (Z_str z)
  | JFloat r => dec_of_string r
  | JStr s => dec_of_string s
  | JList _ | JObj _ => raise InvalidOperationC "conversion syntax"
  end.

(** Truncation toward zero, as [int] does on a float. *)
Definition dec_trunc (d : dec) : Z :=
  if (0 <=? d_exp d)%Z then (dint d * 10 ^ d_exp d)%Z else Z.quot (dint d) (10 ^ (- d_exp d)).

(** [int(value)] *)
Definition int_of (v : json) : res Z :=
  match v with
  | JNull => raise TypeErrorC "int() argument must be a string or a number"
  | JBool b => Ok (if b then 1 else 0)%Z
  | JInt z => Ok z
  | JFloat r => d ← dec_of_string r; Ok (dec_trunc d)
  | JStr s => int_of_string s
  | JList _ | JObj _ => raise TypeErrorC "int() argument must be a string or a number"
  end.

(** [params.get(name, default)] *)
Definition param (params : dict string json) (name : string) (dflt : json) : json :=
  default dflt (dict_get name params).

Definition param_decimal (params : dict string json) (name dflt : string) : res dec :=
  decimal_of_str (param params name (JStr dflt)).

(** [AbstainPolicy(value)] *)
Definition abstain_policy_of (v : json) : res AbstainPolicy :=
  match v with
  | JStr "EXCLUDE" => Ok EXCLUDE
  | JStr "HALF" => Ok HALF
  | _ => raise ValueErrorC "not a valid AbstainPolicy"
  end.

(** [{k: Decimal(str(v)) for k, v in raw.items()} if raw else None] *)
Definition decimal_map (raw : json) : res (option (dict string dec)) :=
  if truthy raw then
    match raw with
    | JObj l => m ← mapR (fun kv => d ← decimal_of_str (snd kv); Ok (fst kv, d)) l; Ok (Some m)
    | _ => raise AttributeErrorC "object has no attribute 'items'"
    end
  else Ok None.

(** A decimal literal of the source: [Decimal] of [m] times [10^e]. *)
Definition lit (m : N) (e : Z) : dec := Dec false m e.

(** ** Scores *)

Definition _POSITION_WEIGHTS : dict string dec :=
  [("SUPPORT", lit 1 0); ("CONDITIONALLY_SUPPORT", lit 75 (-2));
   ("INSUFFICIENT_EVIDENCE", lit 25 (-2)); ("OPPOSE", lit 0 0); ("ABSTAIN", lit 5 (-1))].

(** [weights or _POSITION_WEIGHTS] *)
Definition weights_or_default (weights : option (dict string dec)) : dict string dec :=
  match weights with Some (_ :: _ as w) => w | _ => _POSITION_WEIGHTS end.

Definition _position_score (stance : string) (confidence : dec) (use_confidence : bool)
    (weights : option (dict string dec)) : dec :=
  let w := default (lit 5 (-1)) (dict_get stance (weights_or_default weights)) in
  if use_confidence then dmul w confidence else w.

(** [[p for p in positions if p.alternative_id == alt_id]] *)
Definition positions_for (alt_id : uuid) (positions : list AgentPosition) : list AgentPosition :=
  List.filter (fun p => bool_decide (ap_alternative_id p = alt_id)) positions.

(** The positions that enter the denominator. *)
Definition relevant_positions (alt_id : uuid) (positions : list AgentPosition)
    (abstain_policy : AbstainPolicy) : list AgentPosition :=
  let relevant := positions_for alt_id positions in
  if decide (abstain_policy = EXCLUDE)
  then List.filter (fun p => negb (String.eqb (ap_stance p) "ABSTAIN")) relevant
  else relevant.

Definition _compute_support (alt_id : uuid) (positions : list AgentPosition) (use_confidence : bool)
    (abstain_policy : AbstainPolicy) (weights : option (dict string dec)) : res (dec * Z) :=
  match relevant_positions alt_id positions abstain_policy with
  | [] => Ok (dzero, 0%Z)
  | relevant =>
      let total := dsum (map (fun p => _position_score (ap_stance p) (ap_confidence p)
                                          use_confidence weights) relevant) in
      q ← ddiv total (dec_of_Z (Z.of_nat (length relevant)));
      Ok (q, Z.of_nat (length relevant))
  end.

(** ** Critiques, dissent and minority *)

Definition unresolved (c : CritiqueInput) : bool :=
  bool_decide (cr_resolution c ∈ ["OPEN"; "UNRESOLVED"; "DISPUTED"]).

Definition _blocking_critiques (critiques : list CritiqueInput) : list uuid :=
  map cr_critique_id
    (List.filter (fun c => String.eqb (cr_severity c) "BLOCKING" && unresolved c) critiques).

Definition _build_dissent (alt_id : uuid) (positions : list AgentPosition) : res (list DissentEntry) :=
  mapR (fun p => construct DissentEntry_ok "DissentEntry"
                   (mkDissent (ap_agent_id p) (ap_stance p) (ap_evidence_ids p) [] [] ""))
    (List.filter (fun p => bool_decide (ap_alternative_id p = alt_id)
        && bool_decide (ap_stance p ∈ ["OPPOSE"; "ABSTAIN"; "INSUFFICIENT_EVIDENCE"])) positions).

Definition _build_minority `{SetIter uuid} (alt_id : uuid) (positions : list AgentPosition)
    (critiques : list CritiqueInput) : res (list MinorityEntry) :=
  let unresolved_ids := set_iter (map cr_critique_id (List.filter unresolved critiques)) in
  mapR (fun p => construct MinorityEntry_ok "MinorityEntry"
                   (mkMinority (ap_agent_id p) (ap_stance p) (ap_evidence_ids p) [] unresolved_ids ""))
    (List.filter (fun p => bool_decide (ap_alternative_id p = alt_id)
        && bool_decide (ap_stance p ∈ ["OPPOSE"; "INSUFFICIENT_EVIDENCE"])) positions).

(** Position scores of a contribution always use the default weights. *)
Definition _contributions (positions : list AgentPosition) (use_confidence : bool)
    : res (list AgentContribution) :=
  mapR (fun p => construct AgentContribution_ok "AgentContribution"
                   (mkContribution (ap_agent_id p) (ap_alternative_id p) (ap_stance p)
                      (_position_score (ap_stance p) (ap_confidence p) use_confidence None)
                      (ap_confidence p) dzero))
    positions.

Definition _blocking_gate_outcome (blocking : list uuid) (candidate : ConsensusOutcome)
    : ConsensusOutcome :=
  if nonempty blocking && bool_decide (candidate = FULL_CONSENSUS) then PARTIAL_CONSENSUS
  else candidate.

Definition _degenerate (c : ConsensusContext) : bool :=
  let active_agents := remove_dups (map ap_agent_id (cx_agent_positions c)) in
  (length (cx_alternatives c) <=? 1)%nat || (length active_agents <=? 1)%nat.

(** [objective_values.get(str(objective), {}).get(str(alternative))] *)
Definition raw_value (objective_values : dict string (dict string string)) (objective alt : uuid)
    : option string :=
  dict_get (uuid_str alt) (default [] (dict_get (uuid_str objective) objective_values)).

(** One iteration: the running total and whether any value was seen. *)
Definition objective_step (alt_id : uuid) (objective_values : dict string (dict string string))
    (acc : dec * bool) (obj : ObjectiveInput) : res (dec * bool) :=
  match raw_value objective_values (ob_objective_id obj) alt_id with
  | None => Ok acc
  | Some raw => v ← dec_of_string raw; Ok (dadd (fst acc) (dmul (ob_weight obj) v), true)
  end.

Definition _weighted_objective_value (alt_id : uuid) (objectives : list ObjectiveInput)
    (objective_values : dict string (dict string string)) : res (option dec) :=
  '(total, any_value) ← foldR (objective_step alt_id objective_values) (dzero, false) objectives;
  Ok (if any_value : bool then Some total else None).

Definition _derivation (stage description : string) (step : Z) (inputs outputs : dict string json)
    : res DerivationStep :=
  construct DerivationStep_ok "DerivationStep" (mkDerivation step stage description inputs outputs).

Definition _empty_explanation (result : ConsensusResult) (formula : string)
    (weights thresholds : dict string json) (caveats : list string) : res ConsensusExplanation :=
  new_explanation (mkExplanation (rs_result_id result) (rs_outcome result) (rs_strategy result)
    (rs_strategy_version result) formula weights thresholds (rs_contributions result)
    (rs_derivation result) caveats (rs_minority_report result) None
    (rs_degenerate_input result) (rs_input_hash result)).

(** ** Pieces every strategy repeats *)

(** [max(Decimal("0"), min(Decimal("1"), support))] *)
Definition clamp_unit (d : dec) : dec := dmax dzero (dmin dunit d).

Definition JNat (n : nat) : json := JInt (Z.of_nat n).

(** The first derivation step. *)
Definition feasibility_derivation (stage description : string) (c : ConsensusContext)
    (g : FeasibilityGateResult) : res DerivationStep :=
  _derivation stage description 1
    [("alternative_count", JNat (length (cx_alternatives c)))]
    [("rankable", JNat (length (fg_rankable g)));
     ("infeasible", JNat (length (fg_infeasible g)));
     ("unknown", JNat (length (fg_unknown g)))].

(** A result that stops before ranking. *)
Definition early_result `{ContextDump} (name version : string) (result_id : uuid) (c : ConsensusContext)
    (outcome : ConsensusOutcome) (blocking_constraints : list string) (derivation : list DerivationStep)
    : res ConsensusResult :=
  new_result (mkResult result_id (cx_session_id c) (cx_round c) name version outcome [] None [] None None
    None blocking_constraints [] [] (_degenerate c) (consensus_input_hash c) [] [] [] derivation 1).

Definition has_verdict (alt_id : uuid) (verdicts : list FeasibilityVerdict) : bool :=
  existsb (fun v => bool_decide (fv_alternative_id v = alt_id)) verdicts.

(** [all(p.stance in ("SUPPORT", "ABSTAIN") for p in positions if p.alternative_id == leader)] *)
Definition all_supportive (leader : uuid) (positions : list AgentPosition) : bool :=
  forallb (fun p => bool_decide (ap_stance p ∈ ["SUPPORT"; "ABSTAIN"])) (positions_for leader positions).

(** The classification of the leader, before the caps. *)
Definition classify_support (support agreement partial : dec) (supportive : bool) : ConsensusOutcome :=
  if dleb agreement support && supportive then FULL_CONSENSUS
  else if dleb partial support then PARTIAL_CONSENSUS
  else NO_CONSENSUS.

(** The whole classification: thresholds, UNKNOWN feasibility, blocking critiques. *)
Definition classify_leader (c : ConsensusContext) (g : FeasibilityGateResult) (leader : AlternativeScore)
    (agreement partial : dec) : ConsensusOutcome :=
  let candidate :=
    classify_support (as_support leader) agreement partial
      (all_supportive (as_alternative_id leader) (cx_agent_positions c)) in
  let capped :=
    if has_verdict (as_alternative_id leader) (fg_unknown g) then CONDITIONAL_CONSENSUS
    else candidate in
  _blocking_gate_outcome (_blocking_critiques (cx_critiques c)) capped.

Definition selected_of (outcome : ConsensusOutcome) (leader : uuid) : option uuid :=
  if selectable outcome then Some leader else None.

Definition count_stance (stance : string) (positions : list AgentPosition) : Z :=
  Z.of_nat (length (List.filter (fun p => String.eqb (ap_stance p) stance) positions)).

(** [Decimal(count) / Decimal(len(positions) or 1)] *)
Definition stance_ratio (stance : string) (positions : list AgentPosition) : res dec :=
  let total := match positions with [] => 1%Z | _ => Z.of_nat (length positions) end in
  ddiv (dec_of_Z (count_stance stance positions)) (dec_of_Z total).
