(* ===== verification/ConsensusFacts.v ===== *)
(** * Facts the three strategies share

    What a validated [ConsensusContext] guarantees, that the helper functions
    succeed on it and what they return, and how a leader is classified.  Also
    the interface [StrategyContract]: what a [ConsensusResult] promises about
    the context it was computed from. *)

From S2P Require Import Prelude.
From S2P Require Import PyDecimal.
From S2P Require Import Sha256.
From S2P Require Import Json.
From S2P Require Import Symbolic.
From S2P Require Import ConsensusPorts.
From S2P Require Import Gate.
From S2P Require Import ConsensusHelpers.

(** The status [c]'s verdicts give an alternative id. *)
Definition status_of (c : ConsensusContext) (a : uuid) : option Feasibility.status :=
  fv_status <$> index_by fv_alternative_id (cx_feasibility c) !! a.

Definition candidates (c : ConsensusContext) : list uuid :=
  map al_id (List.filter (is_rankable (cx_feasibility c)) (cx_alternatives c)).

Definition all_unsat (c : ConsensusContext) : Prop :=
  forall a, a ∈ cx_alternatives c -> gate_status (cx_feasibility c) a = Some Feasibility.UNSAT.

(** ** The gate on a validated context *)

Lemma gate_context c g :
  ConsensusContext_validate c = Ok () ->
  feasibility_gate (cx_alternatives c) (cx_feasibility c) = Ok g ->
  g = gate_spec (cx_alternatives c) (cx_feasibility c).
Proof. intros Hc%context_verdicts_ok. rewrite gate_refines by done. congruence. Qed.

Lemma gate_rankable_ids c :
  map al_id (fg_rankable (gate_spec (cx_alternatives c) (cx_feasibility c))) = candidates c.
Proof. done. Qed.

Lemma gate_all_infeasible c :
  fg_all_infeasible (gate_spec (cx_alternatives c) (cx_feasibility c)) = true <-> all_unsat c.
Proof. apply gate_spec_all_infeasible. Qed.

Lemma candidates_status c a : a ∈ candidates c -> status_of c a <> Some Feasibility.UNSAT.
Proof.
  unfold candidates. intros Ha%list_elem_of_In%in_map_iff. destruct Ha as (alt & <- & Hf).
  apply filter_In in Hf as [_ Hb%bool_decide_eq_true]. exact Hb.
Qed.

(** An alternative of [candidates] has an UNKNOWN verdict exactly when the gate lists it. *)
Lemma gate_unknown c a :
  a ∈ candidates c ->
  has_verdict a (fg_unknown (gate_spec (cx_alternatives c) (cx_feasibility c))) = true <->
  status_of c a = Some Feasibility.UNKNOWN.
Proof.
  intros Ha. unfold has_verdict. rewrite existsb_exists. cbn [fg_unknown gate_spec]. unfold status_of. split.
  - intros (v & Hv%list_elem_of_In & Heq%bool_decide_eq_true).
    apply list_elem_of_omap in Hv as (alt & _ & Hv).
    destruct (index_by _ _ !! al_id alt) as [v'|] eqn:Ev; [|done]. cbn in Hv. case_decide; [|done].
    injection Hv as ->. pose proof (index_by_Some _ _ _ _ Ev) as [_ Hk].
    rewrite <- Heq, Hk, Ev. cbn. congruence.
  - destruct (index_by _ _ !! a) as [v|] eqn:Ev; [|done]. cbn. intros [= Hs].
    pose proof (index_by_Some _ _ _ _ Ev) as [_ Hk]. exists v. split; [|by apply bool_decide_true].
    unfold candidates in Ha. apply list_elem_of_In, in_map_iff in Ha as (alt & Hid & Hf).
    apply list_elem_of_In, list_elem_of_omap. exists alt.
    apply filter_In in Hf as [Hf _]. split; [by apply list_elem_of_In|].
    rewrite Hid, Ev. cbn. by rewrite decide_True.
Qed.

(** ** Classification *)

Lemma classify_support_cases s a p b :
  classify_support s a p b <> INFEASIBLE /\
  (selectable (classify_support s a p b) = true <-> classify_support s a p b <> NO_CONSENSUS).
Proof. unfold classify_support. repeat case_match; done. Qed.

(** An UNKNOWN verdict makes the leader conditional whatever its support; else
    the thresholds decide, with FULL lowered to PARTIAL by a blocking critique. *)
Definition classified (support agreement partial : dec) (supportive unknown blocking : bool)
    : ConsensusOutcome :=
  if unknown then CONDITIONAL_CONSENSUS
  else if dleb agreement support && supportive then
    (if blocking then PARTIAL_CONSENSUS else FULL_CONSENSUS)
  else if dleb partial support then PARTIAL_CONSENSUS
  else NO_CONSENSUS.

Lemma classify_leader_spec c g leader a p :
  classify_leader c g leader a p =
  classified (as_support leader) a p (all_supportive (as_alternative_id leader) (cx_agent_positions c))
    (has_verdict (as_alternative_id leader) (fg_unknown g))
    (nonempty (_blocking_critiques (cx_critiques c))).
Proof.
  unfold classify_leader, classified, classify_support, _blocking_gate_outcome.
  destruct (has_verdict _ _), (nonempty _); repeat case_match; done.
Qed.

Lemma classify_leader_outcome c g leader a p :
  let o := classify_leader c g leader a p in
  o <> INFEASIBLE /\
  (o = FULL_CONSENSUS -> _blocking_critiques (cx_critiques c) = [] /\
     all_supportive (as_alternative_id leader) (cx_agent_positions c) = true) /\
  (o = CONDITIONAL_CONSENSUS <-> has_verdict (as_alternative_id leader) (fg_unknown g) = true).
Proof.
  intros o. unfold o. rewrite classify_leader_spec. unfold classified.
  destruct (has_verdict _ _); [done|].
  destruct (dleb a _); destruct (all_supportive _ _); cbn [andb];
    destruct (_blocking_critiques _); cbn [nonempty];
    destruct (dleb p (as_support leader)); done.
Qed.

(** ** Building values *)

Lemma construct_Ok {A} (ok : A -> bool) n a a' : construct ok n a = Ok a' <-> ok a = true /\ a' = a.
Proof. unfold construct, raise. destruct (ok a); split; try done; [intros [= <-]|intros [_ ->]|intros [? _]]; done. Qed.

Lemma new_result_Ok r r' :
  new_result r = Ok r' <-> r' = r /\ result_fields_ok r = true /\ result_invariants r = Ok ().
Proof.
  unfold new_result. split.
  - intros (r1 & [Hf ->]%construct_Ok & H)%bind_Ok. apply bind_Ok in H as ([] & H & [= <-]). done.
  - intros (-> & Hf & Hi). unfold construct. rewrite Hf. cbn. by rewrite Hi.
Qed.

Lemma new_result_idem r r' : new_result r = Ok r' -> r' = r /\ new_result r' = Ok r'.
Proof. intros H. pose proof H as (-> & _)%new_result_Ok. done. Qed.

(** The invariants of a version-1 result are the selection rule alone. *)
Lemma result_invariants_Ok r :
  rs_schema_version r = 1%Z ->
  (forall a, rs_selected_alternative_id r = Some a -> selectable (rs_outcome r) = true) ->
  result_invariants r = Ok ().
Proof.
  intros Hv Hs. unfold result_invariants. rewrite Hv. cbn.
  destruct (rs_selected_alternative_id r) as [a|]; cbn; [|done]. by rewrite (Hs a).
Qed.

Lemma _derivation_total stage description step inputs outputs :
  (1 <=? step)%Z && filled stage && filled description = true ->
  _derivation stage description step inputs outputs
  = Ok (mkDerivation step stage description inputs outputs).
Proof. intros H. unfold _derivation. apply construct_Ok. by cbn. Qed.

Lemma strip_prefix_app p l : Symbolic.strip_prefix p (p ++ l) = Some l.
Proof. induction p as [|c p IH]; cbn; [done|]. by rewrite Ascii.eqb_refl. Qed.

Lemma digest_ok_sha s : digest_ok ("sha256:" +:+ sha256_hex s) = true.
Proof.
  unfold digest_ok. rewrite chars_app, strip_prefix_app.
  pose proof (sha256_hex_shape s) as [Hl Hf]. rewrite length_chars, Hl. cbn.
  apply forallb_forall. intros x Hx. by apply (proj1 (Forall_forall _ _) Hf), list_elem_of_In.
Qed.

Lemma early_result_total `{ContextDump} name version id c o bc ds :
  (1 <=? cx_round c)%Z = true -> filled name = true -> filled version = true ->
  exists r, early_result name version id c o bc ds = Ok r.
Proof.
  intros Hr Hn Hv. apply is_ok_exists. unfold early_result, new_result.
  unfold construct, result_fields_ok. cbn. rewrite Hr, Hn, Hv. cbn.
  unfold consensus_input_hash. by rewrite digest_ok_sha.
Qed.

(** ** What validation guarantees *)

Record context_facts (c : ConsensusContext) : Prop := {
  cf_round : (1 <=? cx_round c)%Z = true;
  cf_alternatives : cx_alternatives c <> [];
  cf_names : forall a, a ∈ cx_alternatives c -> filled (al_name a) = true;
  cf_positions : forall p, p ∈ cx_agent_positions c -> AgentPosition_ok p = true;
  cf_unique : NoDup (map al_id (cx_alternatives c))
}.

Lemma context_validated c : ConsensusContext_validate c = Ok () -> context_facts c.
Proof.
  unfold ConsensusContext_validate. intros H. inv_ok. apply negb_false_iff in Hr.
  unfold unique_alternatives in Hr0. apply guard_not_Ok, negb_false_iff in Hr0.
  unfold context_fields_ok in Hr. rewrite !andb_true_iff in Hr. destruct_and!.
  split; try done.
  - by destruct (cx_alternatives c).
  - intros a Ha. by eapply forallb_elem in Ha; [|done].
  - intros p Hp. by eapply forallb_elem in Hp; [|done].
  - by apply bool_decide_eq_true in Hr0.
Qed.

Lemma result_ok `{ContextDump} c r :
  context_facts c -> rs_round r = cx_round c -> rs_schema_version r = 1%Z ->
  filled (rs_strategy r) = true -> filled (rs_strategy_version r) = true ->
  opt_ok unit_decimal (rs_support r) = true -> opt_ok unit_decimal (rs_dissent_ratio r) = true ->
  opt_ok unit_decimal (rs_abstention_ratio r) = true -> rs_input_hash r = consensus_input_hash c ->
  (forall a, rs_selected_alternative_id r = Some a -> selectable (rs_outcome r) = true) ->
  new_result r = Ok r.
Proof.
  intros Hc Hr Hv Hs Hsv H1 H2 H3 Hh Hsel. apply new_result_Ok. split; [done|]. split.
  - unfold result_fields_ok. rewrite Hr, (cf_round c Hc), Hs, Hsv, H1, H2, H3, Hh.
    unfold consensus_input_hash. by rewrite digest_ok_sha.
  - by apply result_invariants_Ok.
Qed.

Lemma candidates_NoDup c : context_facts c -> NoDup (candidates c).
Proof.
  intros [_ _ _ _ Hnd]. unfold candidates. revert Hnd.
  induction (cx_alternatives c) as [|a l IH]; cbn; [done|]. intros [Ha Hl]%NoDup_cons.
  case_match; cbn; [|by apply IH]. apply NoDup_cons. split; [|by apply IH].
  intros Hin%list_elem_of_In%in_map_iff. destruct Hin as (b & Hb & [Hin _]%filter_In).
  apply Ha, list_elem_of_In, in_map_iff. by exists b.
Qed.

(** ** The helpers succeed *)

Lemma positions_for_elem a ps p : p ∈ positions_for a ps -> p ∈ ps.
Proof. unfold positions_for. intros [Hp _]%list_elem_of_In%filter_In. by apply list_elem_of_In. Qed.

Lemma relevant_positions_elem a ps pol p : p ∈ relevant_positions a ps pol -> p ∈ ps.
Proof.
  unfold relevant_positions. case_decide.
  - intros [Hp _]%filter_elem. by apply positions_for_elem in Hp.
  - apply positions_for_elem.
Qed.

Section helpers.
Context (positions : list AgentPosition).
Hypothesis Hpos : forall p, p ∈ positions -> AgentPosition_ok p = true.

Lemma position_facts p :
  p ∈ positions -> filled (ap_stance p) = true /\ unit_decimal (ap_confidence p) = true.
Proof. intros Hp%Hpos. unfold AgentPosition_ok in Hp. rewrite !andb_true_iff in Hp. tauto. Qed.

Lemma confidence_nonneg p : p ∈ positions -> dnonneg (ap_confidence p).
Proof. intros [_ [Hp _]%andb_true_iff]%position_facts. done. Qed.

(** The positions that count as dissent on an alternative. *)
Definition dissents (a : uuid) (p : AgentPosition) : bool :=
  bool_decide (ap_alternative_id p = a)
  && bool_decide (ap_stance p ∈ ["OPPOSE"; "ABSTAIN"; "INSUFFICIENT_EVIDENCE"]).

Definition dissent_entry (p : AgentPosition) : DissentEntry :=
  mkDissent (ap_agent_id p) (ap_stance p) (ap_evidence_ids p) [] [] "".

Lemma _build_dissent_total a :
  _build_dissent a positions = Ok (map dissent_entry (List.filter (dissents a) positions)).
Proof.
  unfold _build_dissent. apply mapR_total. intros p [Hp _]%filter_elem.
  apply construct_Ok. split; [|done]. by apply position_facts.
Qed.

Definition minority_stance (a : uuid) (p : AgentPosition) : bool :=
  bool_decide (ap_alternative_id p = a)
  && bool_decide (ap_stance p ∈ ["OPPOSE"; "INSUFFICIENT_EVIDENCE"]).

Definition minority_entry `{SetIter uuid} (critiques : list CritiqueInput) (p : AgentPosition)
    : MinorityEntry :=
  mkMinority (ap_agent_id p) (ap_stance p) (ap_evidence_ids p) []
    (set_iter (map cr_critique_id (List.filter unresolved critiques))) "".

Lemma _build_minority_total `{SetIter uuid} a critiques :
  _build_minority a positions critiques
  = Ok (map (minority_entry critiques) (List.filter (minority_stance a) positions)).
Proof.
  unfold _build_minority. apply mapR_total. intros p [Hp _]%filter_elem.
  apply construct_Ok. split; [|done]. by apply position_facts.
Qed.

Lemma dict_get_Forall {V} (P : V -> Prop) (d : dict string V) k v :
  Forall (fun kv => P (snd kv)) d -> dict_get k d = Some v -> P v.
Proof.
  induction 1 as [|[k' v'] d Hv Hd IH]; cbn; [done|]. case_decide; [intros [= <-]; done|done].
Qed.

Lemma _position_score_nonneg stance confidence use :
  dnonneg confidence -> dnonneg (_position_score stance confidence use None).
Proof.
  intros Hc. unfold _position_score. cbn [weights_or_default].
  assert (Hw : dnonneg (default (lit 5 (-1)) (dict_get stance _POSITION_WEIGHTS))).
  { destruct (dict_get stance _POSITION_WEIGHTS) as [w|] eqn:E; cbn [default]; [|by vm_compute].
    eapply (dict_get_Forall dnonneg); [|exact E]. repeat constructor. }
  destruct use; [by apply dmul_nonneg|done].
Qed.

Definition contribution (use_confidence : bool) (p : AgentPosition) : AgentContribution :=
  mkContribution (ap_agent_id p) (ap_alternative_id p) (ap_stance p)
    (_position_score (ap_stance p) (ap_confidence p) use_confidence None) (ap_confidence p) dzero.

Lemma _contributions_total ps use :
  (forall p, p ∈ ps -> p ∈ positions) -> _contributions ps use = Ok (map (contribution use) ps).
Proof.
  intros Hsub. unfold _contributions. apply mapR_total. intros p Hp%Hsub.
  apply construct_Ok. split; [|done]. pose proof (position_facts p Hp) as [Hs Hc].
  unfold AgentContribution_ok. cbn [ac_stance ac_position_score ac_confidence ac_evidence_score].
  rewrite Hs, Hc. cbn [andb]. rewrite andb_true_r.
  rewrite (_position_score_nonneg _ _ _ (confidence_nonneg p Hp)). by vm_compute.
Qed.

End helpers.

Lemma count_stance_bounds stance positions :
  (0 <= count_stance stance positions <= Z.of_nat (length positions))%Z.
Proof. unfold count_stance. pose proof (List.filter_length_le (fun p => String.eqb (ap_stance p) stance) positions). lia. Qed.

(** Dissent and abstention ratios are always defined and in the unit interval. *)
Lemma stance_ratio_unit stance positions :
  exists d, stance_ratio stance positions = Ok d /\ unit_decimal d = true.
Proof.
  unfold stance_ratio. pose proof (count_stance_bounds stance positions) as Hb.
  set (m := match positions with [] => 1%Z | _ => Z.of_nat (length positions) end).
  destruct (ddiv_ratio (count_stance stance positions) m) as (d & -> & H0 & H1);
    [unfold m; destruct positions; cbn in *; lia..|].
  exists d. split; [done|]. unfold unit_decimal. by rewrite H0, H1.
Qed.

Lemma dec_of_count_nonzero n : n <> O -> dint (dec_of_Z (Z.of_nat n)) <> 0%Z.
Proof. intros Hn. unfold dint, dec_of_Z. cbn. replace (Z.of_nat n <? 0)%Z with false by lia. lia. Qed.

(** Support is defined whatever the positions and the weights. *)
Lemma _compute_support_total a ps use pol w : exists q, _compute_support a ps use pol w = Ok q.
Proof.
  unfold _compute_support. destruct (relevant_positions a ps pol) as [|p l]; [by eexists|].
  edestruct (ddiv_total (dsum (map (fun p => _position_score (ap_stance p) (ap_confidence p) use w) (p :: l)))
               (dec_of_Z (Z.of_nat (length (p :: l))))) as (d & ->); [by apply dec_of_count_nonzero|].
  by eexists.
Qed.

(** Every declared objective value is a numeral. *)
Definition objective_values_parse (c : ConsensusContext) : Prop :=
  forall o a raw, o ∈ cx_objectives c -> a ∈ candidates c ->
    raw_value (cx_objective_values c) (ob_objective_id o) a = Some raw ->
    exists d, dec_of_string raw = Ok d.

Lemma _weighted_objective_value_total c a :
  objective_values_parse c -> a ∈ candidates c ->
  exists v, _weighted_objective_value a (cx_objectives c) (cx_objective_values c) = Ok v.
Proof.
  intros Hp Ha. unfold _weighted_objective_value.
  destruct (foldR_total (fun _ => True) (objective_step a (cx_objective_values c)) (cx_objectives c)
              (dzero, false)) as ([t b] & -> & _).
  - intros s o Ho _. unfold objective_step. destruct (raw_value _ _ _) as [raw|] eqn:E; [|eauto].
    destruct (Hp o a raw Ho Ha E) as (d & ->). eauto.
  - done.
  - by eexists.
Qed.

Lemma clamp_unit_ok d : unit_decimal (clamp_unit d) = true.
Proof.
  unfold unit_decimal, clamp_unit.
  destruct (clamp_bounds dzero dunit d) as [H0 H1]; [by vm_compute|]. by rewrite H0, H1.
Qed.

Lemma score_ok a n rank s v rs f e :
  filled n = true -> (1 <= rank)%Z -> AlternativeScore_ok (mkScore a n rank (clamp_unit s) v rs f e) = true.
Proof.
  intros Hn Hr. unfold AlternativeScore_ok. cbn [as_alternative_name as_rank as_support].
  rewrite Hn, clamp_unit_ok. replace (1 <=? rank)%Z with true by lia. done.
Qed.

Lemma rankable_facts c alt :
  context_facts c -> alt ∈ fg_rankable (gate_spec (cx_alternatives c) (cx_feasibility c)) ->
  al_id alt ∈ candidates c /\ filled (al_name alt) = true.
Proof.
  intros Hc Ha. split.
  - rewrite <- gate_rankable_ids. by apply list_elem_of_fmap_2.
  - apply filter_elem in Ha as [Ha _]. by apply (cf_names c Hc).
Qed.

(** ** What is reported of the positions against the alternatives *)

(** Every dissenting position on a candidate, candidate by candidate. *)
Definition all_dissent (c : ConsensusContext) : list DissentEntry :=
  concat (map (fun a => map dissent_entry (List.filter (dissents a) (cx_agent_positions c))) (candidates c)).

Definition all_minority `{SetIter uuid} (c : ConsensusContext) : list MinorityEntry :=
  concat (map (fun a => map (minority_entry (cx_critiques c))
                          (List.filter (minority_stance a) (cx_agent_positions c))) (candidates c)).

Lemma candidates_nil c : all_unsat c -> candidates c = [].
Proof.
  intros Hu%gate_all_infeasible. cbn in Hu. unfold candidates.
  apply Nat.eqb_eq, length_zero_iff_nil in Hu. by rewrite Hu.
Qed.

(** ** The contract of a strategy *)

(** What a strategy named [name], version [version] promises of a result [r]
    computed from the context [c]. *)
Record result_contract `{ContextDump} `{SetIter uuid} (name version : string) (c : ConsensusContext)
    (r : ConsensusResult) : Prop := {
  rc_context : rs_session_id r = cx_session_id c /\ rs_round r = cx_round c /\
               rs_input_hash r = consensus_input_hash c;
  rc_strategy : rs_strategy r = name /\ rs_strategy_version r = version;
  rc_valid : new_result r = Ok r;
  rc_infeasible : rs_outcome r = INFEASIBLE <-> all_unsat c;
  rc_selected : forall a, rs_selected_alternative_id r = Some a ->
    selectable (rs_outcome r) = true /\ a ∈ candidates c /\ status_of c a <> Some Feasibility.UNSAT /\
    exists s, head (rs_scores r) = Some s /\ as_alternative_id s = a /\ rs_support r = Some (as_support s);
  rc_selects : selectable (rs_outcome r) = true -> is_Some (rs_selected_alternative_id r);
  rc_full : rs_outcome r = FULL_CONSENSUS ->
    _blocking_critiques (cx_critiques c) = [] /\
    exists a, rs_selected_alternative_id r = Some a /\ all_supportive a (cx_agent_positions c) = true;
  rc_conditional : rs_outcome r = CONDITIONAL_CONSENSUS <->
    exists a, rs_selected_alternative_id r = Some a /\ status_of c a = Some Feasibility.UNKNOWN;
  rc_ranks : map as_rank (rs_scores r) = imap (fun i _ => Z.of_nat (S i)) (rs_scores r);
  rc_scored : forall s, s ∈ rs_scores r -> as_alternative_id s ∈ candidates c;
  rc_dissent : rs_dissent r = all_dissent c;
  rc_minority : rs_minority_report r = all_minority c
}.

Section contract.
Context `{ContextDump} `{SetIter uuid} (name version : string) (c : ConsensusContext) (r : ConsensusResult).

Definition about_context : Prop :=
  rs_session_id r = cx_session_id c /\ rs_round r = cx_round c /\
  rs_input_hash r = consensus_input_hash c /\ rs_strategy r = name /\ rs_strategy_version r = version.

(** Ranks are [1 .. n] in order and every score is of a candidate. *)
Definition scores_sound : Prop :=
  map as_rank (rs_scores r) = imap (fun i _ => Z.of_nat (S i)) (rs_scores r) /\
  forall s, s ∈ rs_scores r -> as_alternative_id s ∈ candidates c.

Definition reports_kept : Prop :=
  rs_dissent r = all_dissent c /\ rs_minority_report r = all_minority c.

Lemma unselected_contract :
  new_result r = Ok r -> about_context -> scores_sound -> reports_kept ->
  rs_selected_alternative_id r = None -> selectable (rs_outcome r) = false ->
  (rs_outcome r = INFEASIBLE <-> all_unsat c) ->
  result_contract name version c r.
Proof.
  intros Hv (? & ? & ? & ? & ?) [? ?] [? ?] Hs Ho Hi. split; try done.
  - intros a Ha. congruence.
  - intros Hsel. congruence.
  - intros Hf. by rewrite Hf in Ho.
  - split; [intros Hf; by rewrite Hf in Ho|]. intros (a & Ha & _). congruence.
Qed.

Lemma selected_contract leader rest a p :
  new_result r = Ok r -> about_context -> scores_sound -> reports_kept ->
  rs_outcome r = classify_leader c (gate_spec (cx_alternatives c) (cx_feasibility c)) leader a p ->
  rs_scores r = leader :: rest ->
  rs_selected_alternative_id r = selected_of (rs_outcome r) (as_alternative_id leader) ->
  rs_support r = Some (as_support leader) -> ~ all_unsat c ->
  result_contract name version c r.
Proof.
  intros Hv (? & ? & ? & ? & ?) [Hr Hc] [? ?] Ho Hs Hsel Hsup Hu.
  pose proof (classify_leader_outcome c (gate_spec (cx_alternatives c) (cx_feasibility c)) leader a p)
    as (Hni & Hfull & Hunk). rewrite <- Ho in *.
  assert (Hl : as_alternative_id leader ∈ candidates c) by (apply Hc; rewrite Hs; set_solver).
  assert (Hsl : selectable (rs_outcome r) = true -> rs_selected_alternative_id r = Some (as_alternative_id leader))
    by (intros Hsl; rewrite Hsel; unfold selected_of; by rewrite Hsl).
  assert (Hinv : forall x, rs_selected_alternative_id r = Some x ->
            selectable (rs_outcome r) = true /\ x = as_alternative_id leader).
  { intros x Hx. rewrite Hsel in Hx. unfold selected_of in Hx. destruct (selectable _); [|done].
    by injection Hx as <-. }
  split; try done.
  - intros x [? ->]%Hinv. split_and!; try done; [by apply candidates_status|].
    exists leader. by rewrite Hs.
  - intros Hx. by rewrite (Hsl Hx).
  - intros Hf. destruct (Hfull Hf) as [? ?]. split; [done|]. exists (as_alternative_id leader).
    split; [apply Hsl; by rewrite Hf|done].
  - rewrite Hunk, gate_unknown by done. split.
    + intros Hx. exists (as_alternative_id leader). split; [|done]. apply Hsl.
      apply gate_unknown, Hunk in Hx; [|done]. by rewrite Hx.
    + intros (x & [_ ->]%Hinv & Hx). done.
Qed.

End contract.

Lemma early_contract `{ContextDump} `{SetIter uuid} name version c id o bc ds r :
  early_result name version id c o bc ds = Ok r ->
  selectable o = false -> (o = INFEASIBLE <-> all_unsat c) -> candidates c = [] ->
  result_contract name version c r.
Proof.
  intros [-> Hv]%new_result_idem Ho Hi Hcand. apply unselected_contract; try done.
  - split; [done|]. cbn. intros s Hs. by apply not_elem_of_nil in Hs.
  - unfold reports_kept, all_dissent, all_minority. by rewrite Hcand.
Qed.
