(* ===== verification/Weighted.v ===== *)
(** * The weighted strategy

    [WeightedStrategy] of [app/application/consensus.py]: parameters, one
    iteration of the ranking loop, ranking, classification, the whole
    [evaluate], and [explain]. *)

From S2P Require Import Prelude.
From S2P Require Import PyDecimal.
From S2P Require Import Json.
From S2P Require Import Symbolic.
From S2P Require Import ConsensusPorts.
From S2P Require Import Gate.
From S2P Require Import ConsensusHelpers.
From S2P Require Import ConsensusFacts.

Module Weighted.

Definition name : string := "weighted".
Definition version : string := "1.0.0".

Record params : Type := mkParams {
  p_use_confidence : bool;
  p_abstain_policy : AbstainPolicy;
  p_agreement_threshold : dec;
  p_partial_threshold : dec;
  p_alpha : dec;
  p_weights : option (dict string dec)
}.

Definition read_params (ps : dict string json) : res params :=
  let use_confidence := truthy (param ps "use_confidence" (JBool false)) in
  abstain ← abstain_policy_of (param ps "abstain_policy" (JStr "EXCLUDE"));
  agreement ← param_decimal ps "agreement_threshold" "0.66";
  partial ← param_decimal ps "partial_threshold" "0.5";
  alpha ← param_decimal ps "alpha" "0.5";
  weights ← decimal_map (param ps "position_weights" JNull);
  Ok (mkParams use_confidence abstain agreement partial alpha weights).

(** What one iteration of the loop over the rankable alternatives adds. *)
Record row : Type := mkRow {
  row_score : AlternativeScore;
  row_contributions : list AgentContribution;
  row_dissent : list DissentEntry;
  row_minority : list MinorityEntry
}.

(** [alpha * support + (1 - alpha) * value if value is not None else support] *)
Definition rank_score (alpha support : dec) (value : option dec) : dec :=
  match value with
  | Some v => dadd (dmul alpha support) (dmul (dsub dunit alpha) v)
  | None => support
  end.

Definition evaluate_alternative `{SetIter uuid} (p : params) (c : ConsensusContext)
    (g : FeasibilityGateResult) (alt : AlternativeInput) : res row :=
  '(support, _) ← _compute_support (al_id alt) (cx_agent_positions c) (p_use_confidence p)
                    (p_abstain_policy p) (p_weights p);
  value ← _weighted_objective_value (al_id alt) (cx_objectives c) (cx_objective_values c);
  contributions ← _contributions (positions_for (al_id alt) (cx_agent_positions c)) (p_use_confidence p);
  dissent ← _build_dissent (al_id alt) (cx_agent_positions c);
  minority ← _build_minority (al_id alt) (cx_agent_positions c) (cx_critiques c);
  score ← construct AlternativeScore_ok "AlternativeScore"
            (mkScore (al_id alt) (al_name alt) 1 (clamp_unit support) value
               (Some (rank_score (p_alpha p) support value))
               (if has_verdict (al_id alt) (fg_unknown g) then Feasibility.UNKNOWN else Feasibility.SAT)
               None);
  Ok (mkRow score contributions dissent minority).

(** [rank_scores[s.alternative_id]]: the dictionary filled by the loop. *)
Definition rank_key (rows : list row) (s : AlternativeScore) : dec :=
  default dzero (m ← index_by (fun r => as_alternative_id (row_score r)) rows !! as_alternative_id s;
                 as_rank_score (row_score m)).

Definition set_rank (s : AlternativeScore) (r : Z) : AlternativeScore :=
  mkScore (as_alternative_id s) (as_alternative_name s) r (as_support s) (as_value_score s)
    (as_rank_score s) (as_feasibility s) (as_evidence_strength s).

(** [[s.model_copy(update={"rank": i + 1}) for i, s in enumerate(ranked)]] *)
Definition number_ranks (l : list AlternativeScore) : list AlternativeScore :=
  imap (fun i s => set_rank s (Z.of_nat (S i))) l.

(** [sorted(scores, key=rank_score, reverse=True)], then the ranks. *)
Definition rank_rows (rows : list row) : list AlternativeScore :=
  number_ranks (sort_by (fun a b => dleb (rank_key rows b) (rank_key rows a)) (map row_score rows)).

Definition opt_dec_str (o : option dec) : json :=
  match o with Some d => JStr (dec_str d) | None => JStr "None" end.

Definition ranking_derivation (p : params) (scores : list AlternativeScore) : res DerivationStep :=
  _derivation "ranking" "support and rank_score computed per feasible alternative" 2
    [("alpha", JStr (dec_str (p_alpha p)))]
    (dict_of_list (map (fun s => (uuid_str (as_alternative_id s),
        JObj [("support", JStr (dec_str (as_support s))); ("rank_score", opt_dec_str (as_rank_score s))]))
      scores)).

Definition classify_derivation (stage : string) (step : Z) (agreement partial : dec)
    (outcome : ConsensusOutcome) (leader_support : dec) : res DerivationStep :=
  _derivation stage "outcome classified from thresholds and blocking critiques" step
    [("agreement_threshold", JStr (dec_str agreement)); ("partial_threshold", JStr (dec_str partial))]
    [("outcome", JStr (outcome_value outcome)); ("leader_support", JStr (dec_str leader_support))].

(** The tail of [evaluate], once there is a leader. *)
Definition conclude `{ContextDump} (p : params) (c : ConsensusContext) (g : FeasibilityGateResult)
    (result_id : uuid) (rows : list row) (leader : AlternativeScore) (scores : list AlternativeScore)
    (derivation : list DerivationStep) : res ConsensusResult :=
  let outcome := classify_leader c g leader (p_agreement_threshold p) (p_partial_threshold p) in
  d3 ← classify_derivation "classify" 3 (p_agreement_threshold p) (p_partial_threshold p) outcome
         (as_support leader);
  dissent_ratio ← stance_ratio "OPPOSE" (cx_agent_positions c);
  abstention_ratio ← stance_ratio "ABSTAIN" (cx_agent_positions c);
  new_result (mkResult result_id (cx_session_id c) (cx_round c) name version outcome scores
    (selected_of outcome (as_alternative_id leader)) [] (Some (as_support leader)) (Some dissent_ratio)
    (Some abstention_ratio) [] (_blocking_critiques (cx_critiques c)) [] (_degenerate c)
    (consensus_input_hash c) (concat (map row_contributions rows)) (concat (map row_dissent rows))
    (concat (map row_minority rows)) (derivation ++ [d3]) 1).

Definition evaluate `{ContextDump} `{SetIter uuid} (result_id : uuid) (c : ConsensusContext)
    : res ConsensusResult :=
  p ← read_params (sc_parameters (cx_strategy_config c));
  g ← feasibility_gate (cx_alternatives c) (cx_feasibility c);
  d1 ← feasibility_derivation "feasibility" "shared feasibility gate applied before ranking (C-1)" c g;
  if fg_all_infeasible g : bool then
    early_result name version result_id c INFEASIBLE (concat (map fv_unsat_core (fg_infeasible g))) [d1]
  else
    rows ← mapR (evaluate_alternative p c g) (fg_rankable g);
    let scores := rank_rows rows in
    d2 ← ranking_derivation p scores;
    match scores with
    | [] => early_result name version result_id c NO_CONSENSUS [] [d1; d2]
    | leader :: _ => conclude p c g result_id rows leader scores [d1; d2]
    end.

Definition formula : string :=
  "score(a,i)=s(p(a,i)) * (use_confidence?c(a,i):1); support(a)=sum(score)/|N_a|; rank_score(a)=alpha*support(a)+(1-alpha)*value(a)".

(** The default weights as the explanation shows them, by their text. *)
Definition weights_json (w : dict string dec) : json :=
  JObj (map (fun kv => (fst kv, JStr (dec_str (snd kv)))) w).

Definition explain (r : ConsensusResult) : res ConsensusExplanation :=
  _empty_explanation r formula [("position_weights", weights_json _POSITION_WEIGHTS)] [] [].

(** ** Ranking *)

(** The key a score is ordered by, read from the score itself. *)
Definition score_key (s : AlternativeScore) : dec := default dzero (as_rank_score s).

(** Nonincreasing keys. *)
Definition ranked_before (s t : AlternativeScore) : bool := dleb (score_key t) (score_key s).

Lemma number_ranks_map {A} (f : AlternativeScore -> A) l :
  (forall s r, f (set_rank s r) = f s) -> map f (number_ranks l) = map f l.
Proof.
  intros Hf. unfold number_ranks. rewrite fmap_imap. apply list_eq. intros i. rewrite list_lookup_imap, list_lookup_fmap.
  destruct (l !! i); cbn; by rewrite ?Hf.
Qed.

Lemma number_ranks_ranks l :
  map as_rank (number_ranks l) = imap (fun i _ => Z.of_nat (S i)) (number_ranks l).
Proof.
  unfold number_ranks. rewrite fmap_imap. apply list_eq. intros i.
  rewrite !list_lookup_imap. by destruct (l !! i).
Qed.

Lemma number_ranks_lookup l i s : number_ranks l !! i = Some s -> as_rank s = Z.of_nat (S i).
Proof. unfold number_ranks. rewrite list_lookup_imap. by intros (t & _ & ->)%fmap_Some. Qed.

Lemma number_with_sorted (g : nat -> Z) l :
  StronglySorted (fun s t => ranked_before s t = true) l ->
  StronglySorted (fun s t => ranked_before s t = true) (imap (fun i s => set_rank s (g i)) l).
Proof.
  intros Hl. revert g; induction Hl as [|s l Hl IH Hs]; intros g; cbn [imap]; constructor.
  - apply (IH (fun i => g (S i))).
  - apply Forall_forall. intros t (i & Ht)%list_elem_of_lookup. rewrite list_lookup_imap in Ht.
    apply fmap_Some in Ht as (u & Hu & ->).
    assert (Hin : u ∈ l) by (by eapply list_elem_of_lookup_2). exact (proj1 (Forall_forall _ _) Hs u Hin).
Qed.

Lemma number_ranks_sorted l :
  StronglySorted (fun s t => ranked_before s t = true) l ->
  StronglySorted (fun s t => dle (score_key t) (score_key s)) (number_ranks l).
Proof.
  intros Hl. apply (number_with_sorted (fun i => Z.of_nat (S i)) l Hl).
Qed.

Lemma number_ranks_filter (P : dec -> bool) l :
  map as_alternative_id (List.filter (fun s => P (score_key s)) (number_ranks l))
  = map as_alternative_id (List.filter (fun s => P (score_key s)) l).
Proof.
  enough (Hg : forall g : nat -> Z,
    map as_alternative_id (List.filter (fun s => P (score_key s)) (imap (fun i s => set_rank s (g i)) l))
    = map as_alternative_id (List.filter (fun s => P (score_key s)) l)) by apply (Hg (fun i => Z.of_nat (S i))).
  induction l as [|s l IH]; intros g; [done|]. cbn [imap List.filter].
  change (score_key (set_rank s (g 0))) with (score_key s).
  destruct (P (score_key s)); cbn [map]; [f_equal|]; apply (IH (fun i => g (S i))).
Qed.

Lemma rank_key_own rows s :
  NoDup (map (fun r => as_alternative_id (row_score r)) rows) -> s ∈ map row_score rows ->
  rank_key rows s = score_key s.
Proof.
  intros Hnd Hs. apply list_elem_of_fmap in Hs as (r & -> & Hr). unfold rank_key.
  by rewrite (index_by_NoDup (fun r => as_alternative_id (row_score r)) rows r).
Qed.

Lemma sort_by_ext {A} (le1 le2 : A -> A -> bool) l :
  (forall x y, x ∈ l -> y ∈ l -> le1 x y = le2 x y) -> sort_by le1 l = sort_by le2 l.
Proof.
  assert (Hins : forall x m, (forall y, y ∈ m -> le1 x y = le2 x y) -> insert_by le1 x m = insert_by le2 x m).
  { intros x m; induction m as [|y m IH]; cbn; intros H; [done|].
    rewrite H by set_solver. destruct (le2 x y); [done|]. rewrite IH; [done|set_solver]. }
  induction l as [|x l IH]; intros H; [done|]. cbn [sort_by foldr]. fold (sort_by le1 l) (sort_by le2 l).
  rewrite IH by set_solver. apply Hins. intros y Hy%sort_by_elem. apply H; set_solver.
Qed.

(** The ranking is the stable sort of the scores by their own rank score. *)
Lemma rank_rows_eq rows :
  NoDup (map (fun r => as_alternative_id (row_score r)) rows) ->
  rank_rows rows = number_ranks (sort_by ranked_before (map row_score rows)).
Proof.
  intros Hnd. unfold rank_rows. f_equal. apply sort_by_ext. intros x y Hx Hy.
  unfold ranked_before. by rewrite !rank_key_own.
Qed.

Lemma rank_rows_ids rows :
  map as_alternative_id (rank_rows rows) ≡ₚ map (fun r => as_alternative_id (row_score r)) rows.
Proof.
  unfold rank_rows. rewrite number_ranks_map by done. rewrite (fmap_Permutation _ _ _ (sort_by_perm _ _)).
  by rewrite map_map.
Qed.

Lemma ranked_before_total x y : ranked_before x y = true \/ ranked_before y x = true.
Proof. apply dleb_total. Qed.

Lemma ranked_before_trans x y z :
  ranked_before x y = true -> ranked_before y z = true -> ranked_before x z = true.
Proof. unfold ranked_before. intros H1 H2. eapply dleb_trans; eauto. Qed.

(** Ranking keeps the supports in the unit interval and the candidates. *)
Lemma rank_rows_support rows s :
  (forall r, r ∈ rows -> unit_decimal (as_support (row_score r)) = true) ->
  s ∈ rank_rows rows -> unit_decimal (as_support s) = true.
Proof.
  intros Hrows Hs. apply (list_elem_of_fmap_2 as_support) in Hs. unfold rank_rows in Hs.
  rewrite number_ranks_map in Hs by done. apply list_elem_of_fmap in Hs as (t & -> & Ht).
  apply sort_by_elem, list_elem_of_fmap in Ht as (r & -> & Hr). by apply Hrows.
Qed.

Lemma rank_rows_sound c rows r :
  map (fun r => as_alternative_id (row_score r)) rows = candidates c -> rs_scores r = rank_rows rows ->
  scores_sound c r.
Proof.
  intros Hids Hs. split.
  - rewrite Hs. apply number_ranks_ranks.
  - intros s Hin. rewrite Hs in Hin. rewrite <- Hids, <- rank_rows_ids. by apply list_elem_of_fmap_2.
Qed.

Lemma rank_rows_nil rows :
  rank_rows rows = [] -> map (fun r => as_alternative_id (row_score r)) rows = [].
Proof. intros Hn. pose proof (rank_rows_ids rows) as Hp. rewrite Hn in Hp. by apply Permutation_nil in Hp. Qed.

(** ** Rows *)
Section rows.
Context `{SetIter uuid} (p : params) (c : ConsensusContext).
Let g := gate_spec (cx_alternatives c) (cx_feasibility c).

Lemma weighted_evaluate_alternative_id alt r :
  evaluate_alternative p c g alt = Ok r -> as_alternative_id (row_score r) = al_id alt.
Proof.
  unfold evaluate_alternative. intros ([s n] & _ & H1)%bind_Ok. inv_ok.
  apply construct_Ok in Hr4 as [_ ->]. done.
Qed.

Lemma weighted_rows_ids rows :
  mapR (evaluate_alternative p c g) (fg_rankable g) = Ok rows ->
  map (fun r => as_alternative_id (row_score r)) rows = candidates c.
Proof. apply (mapR_map _ (fun r => as_alternative_id (row_score r)) al_id). apply weighted_evaluate_alternative_id. Qed.

Lemma weighted_evaluate_alternative_reports alt r :
  context_facts c -> evaluate_alternative p c g alt = Ok r ->
  row_dissent r = map dissent_entry (List.filter (dissents (al_id alt)) (cx_agent_positions c)) /\
  row_minority r = map (minority_entry (cx_critiques c))
                     (List.filter (minority_stance (al_id alt)) (cx_agent_positions c)).
Proof.
  intros Hc. unfold evaluate_alternative. intros ([s n] & _ & H1)%bind_Ok. inv_ok. cbn.
  rewrite _build_dissent_total in Hr2 by apply (cf_positions c Hc).
  rewrite _build_minority_total in Hr3 by apply (cf_positions c Hc). by simplify_eq.
Qed.

Lemma weighted_rows_reports rows :
  context_facts c -> mapR (evaluate_alternative p c g) (fg_rankable g) = Ok rows ->
  concat (map row_dissent rows) = all_dissent c /\ concat (map row_minority rows) = all_minority c.
Proof.
  intros Hc Hrows. unfold all_dissent, all_minority, candidates. rewrite !map_map. split; f_equal.
  - eapply (mapR_map _ row_dissent); [|exact Hrows]. intros alt r Hr.
    by apply weighted_evaluate_alternative_reports in Hr as [? _].
  - eapply (mapR_map _ row_minority); [|exact Hrows]. intros alt r Hr.
    by apply weighted_evaluate_alternative_reports in Hr as [_ ?].
Qed.

Lemma weighted_evaluate_alternative_total alt :
  context_facts c -> objective_values_parse c -> alt ∈ fg_rankable g ->
  exists r, evaluate_alternative p c g alt = Ok r.
Proof.
  intros Hc Hv Ha. destruct (rankable_facts c alt Hc Ha) as [Hin Hn]. unfold evaluate_alternative.
  edestruct _compute_support_total as ([s n] & ->). cbn [mbind res_bind].
  edestruct _weighted_objective_value_total as (v & ->); [done..|]. cbn [mbind res_bind].
  rewrite (_contributions_total _ (cf_positions c Hc)) by (intros q; apply positions_for_elem).
  cbn [mbind res_bind]. rewrite (_build_dissent_total _ (cf_positions c Hc)). cbn [mbind res_bind].
  rewrite (_build_minority_total _ (cf_positions c Hc)). cbn [mbind res_bind].
  unfold construct. rewrite score_ok by done. cbn. eauto.
Qed.

End rows.

(** Ranking: the scores are those of the rankable alternatives with ranks
    1 to n, by nonincreasing rank score, and alternatives the rank score does
    not separate stay in the order of the context. *)
Theorem ranking_sound `{SetIter uuid} p c rows (Hc : ConsensusContext_validate c = Ok ())
    (Hrows : mapR (evaluate_alternative p c (gate_spec (cx_alternatives c) (cx_feasibility c)))
               (fg_rankable (gate_spec (cx_alternatives c) (cx_feasibility c))) = Ok rows) :
  map as_alternative_id (rank_rows rows) ≡ₚ candidates c /\
  (forall i s, rank_rows rows !! i = Some s -> as_rank s = Z.of_nat (S i)) /\
  StronglySorted (fun s t => dle (score_key t) (score_key s)) (rank_rows rows) /\
  forall k, map as_alternative_id (List.filter (fun s => deqb (score_key s) k) (rank_rows rows))
          = map as_alternative_id (List.filter (fun s => deqb (score_key s) k) (map row_score rows)).
Proof.
  pose proof (weighted_rows_ids p c rows Hrows) as Hids. pose proof (candidates_NoDup c (context_validated c Hc)) as Hnd.
  rewrite <- Hids in Hnd |- *. split; [apply rank_rows_ids|].
  rewrite rank_rows_eq by done. split; [apply number_ranks_lookup|]. split.
  - apply number_ranks_sorted, sort_by_sorted; [apply ranked_before_total|apply ranked_before_trans].
  - intros k. rewrite (number_ranks_filter (fun d => deqb d k)).
    rewrite (sort_by_stable ranked_before (fun s => deqb (score_key s) k)); [done|].
    intros x y Hx Hy. unfold ranked_before. by eapply deqb_same_le.
Qed.

(** ** The contract *)
Section contract.
Context `{ContextDump} `{SetIter uuid} (c : ConsensusContext).
Let g := gate_spec (cx_alternatives c) (cx_feasibility c).

Lemma weighted_evaluate_contract id r :
  ConsensusContext_validate c = Ok () -> evaluate id c = Ok r -> result_contract name version c r.
Proof.
  intros Hc H1. unfold evaluate in H1. apply bind_Ok in H1 as (p & _ & H1).
  apply bind_Ok in H1 as (g' & Hg & H1). apply (gate_context _ _ Hc) in Hg as ->.
  apply bind_Ok in H1 as (d1 & _ & H1). pose proof (gate_all_infeasible c) as Hall.
  fold g in H1, Hall. destruct (fg_all_infeasible g) eqn:Eg.
  { assert (Hu : all_unsat c) by (by apply Hall). eapply early_contract; try done. by apply candidates_nil. }
  assert (Hn : ~ all_unsat c) by (by rewrite <- Hall).
  apply bind_Ok in H1 as (rows & Hrows & H1). apply bind_Ok in H1 as (d2 & _ & H1).
  destruct (rank_rows rows) as [|leader rest] eqn:El.
  { eapply early_contract; try done. by apply rank_rows_nil in El; rewrite <- (weighted_rows_ids _ _ _ Hrows). }
  unfold conclude in H1. inv_ok.
  apply new_result_idem in H1 as [-> Hv]. eapply (selected_contract _ _ _ _ leader rest); try done.
  - eapply rank_rows_sound; [by eapply weighted_rows_ids|done].
  - apply (weighted_rows_reports p); [by apply context_validated|done].
Qed.

End contract.

(** ** Totality *)
Section total.
Context `{ContextDump} `{SetIter uuid} (c : ConsensusContext).
Let g := gate_spec (cx_alternatives c) (cx_feasibility c).

Lemma weighted_conclude_total p id rows leader scores ds :
  context_facts c -> unit_decimal (as_support leader) = true ->
  exists r, conclude p c g id rows leader scores ds = Ok r.
Proof.
  intros Hc Hl. unfold conclude, classify_derivation. rewrite _derivation_total by done. cbn [mbind res_bind].
  destruct (stance_ratio_unit "OPPOSE" (cx_agent_positions c)) as (d & -> & Hd).
  destruct (stance_ratio_unit "ABSTAIN" (cx_agent_positions c)) as (a & -> & Ha).
  cbn [mbind res_bind]. eexists. apply (result_ok c); try done. cbn. unfold selected_of. intros x. by case_match.
Qed.

Lemma row_support p alt r : evaluate_alternative p c g alt = Ok r -> unit_decimal (as_support (row_score r)) = true.
Proof.
  unfold evaluate_alternative. intros ([s n] & _ & H1)%bind_Ok. inv_ok.
  apply construct_Ok in Hr4 as [_ ->]. apply clamp_unit_ok.
Qed.

(** The weighted strategy returns a result on every validated context whose
    parameters and objective values can be read: nothing in ranking,
    classification or the result's own validation fails. *)
Theorem weighted_total id (Hval : ConsensusContext_validate c = Ok ())
    (Hp : is_ok (read_params (sc_parameters (cx_strategy_config c))) = true) (Hv : objective_values_parse c) :
  exists r, evaluate id c = Ok r.
Proof. pose proof (context_validated c Hval) as Hc. unfold evaluate.
  destruct (read_params _) as [p|]; [|done]. cbn [mbind res_bind].
  rewrite gate_refines by (by apply context_verdicts_ok). cbn [mbind res_bind].
  unfold feasibility_derivation. rewrite _derivation_total by done. cbn [mbind res_bind]. fold g.
  destruct (fg_all_infeasible g); [by apply early_result_total; [apply (cf_round c Hc)|..]|].
  destruct (mapR_exists (evaluate_alternative p c g) (fg_rankable g)) as (rows & Hrows).
  { intros. by apply weighted_evaluate_alternative_total. }
  rewrite Hrows. cbn [mbind res_bind]. unfold ranking_derivation.
  rewrite _derivation_total by done. cbn [mbind res_bind].
  destruct (rank_rows rows) as [|leader rest] eqn:El; [by apply early_result_total; [apply (cf_round c Hc)|..]|].
  apply weighted_conclude_total; [done|]. apply (rank_rows_support rows); [|rewrite El; set_solver].
  intros r Hr. destruct (mapR_elem _ _ _ _ Hrows Hr) as (alt & _ & Hf). by eapply row_support.
Qed.

End total.

End Weighted.
