(* ===== verification/EvidenceWeighted.v ===== *)
(** * The evidence-weighted strategy

    [EvidenceWeightedStrategy] of [app/application/consensus.py] and its
    helpers: citation weights, the per-publisher cap, evidence strength,
    evidence-weighted support, and the whole [evaluate]. *)

From S2P Require Import Prelude.
From S2P Require Import PyDecimal.
From S2P Require Import Json.
From S2P Require Import Symbolic.
From S2P Require Import ConsensusPorts.
From S2P Require Import Gate.
From S2P Require Import ConsensusHelpers.
From S2P Require Import ConsensusFacts.
From S2P Require Import Weighted.

Module Evidence.

Definition _VERIFICATION_WEIGHTS : dict string dec :=
  [("UNVERIFIED", lit 3 (-1)); ("SOURCE_VERIFIED", lit 8 (-1)); ("CROSS_CHECKED", lit 10 (-1));
   ("DISPUTED", lit 1 (-1)); ("REJECTED", lit 0 (-1))].

Definition _TRUST_MULTIPLIER : dict string dec :=
  [("PRIMARY", lit 10 (-1)); ("AUTHORITATIVE", lit 9 (-1)); ("SECONDARY", lit 6 (-1));
   ("COMMERCIAL", lit 4 (-1)); ("UNATTRIBUTED", lit 0 (-1)); ("SYNTHETIC", lit 0 (-1))].

Definition _citation_weight (citation : EvidenceCitationInput)
    (verification_weights trust_multiplier : dict string dec) : dec :=
  let v := default dzero (dict_get (ec_verification citation) verification_weights) in
  let t := default dzero (dict_get (ec_trust_level citation) trust_multiplier) in
  dmul v t.

Definition _clamp (value low high : dec) : dec := dmax low (dmin high value).

(** The citations a position names, in the order it names them. *)
Definition _evidence_for_position (position : AgentPosition) (evidence : list EvidenceCitationInput)
    : list EvidenceCitationInput :=
  let lookup := index_by ec_evidence_id evidence in
  omap (fun eid => lookup !! eid) (ap_evidence_ids position).

(** One iteration over the citations: bump the publisher's count, keep within the cap. *)
Definition cap_step (cap : Z) (acc : gmap string Z * list EvidenceCitationInput)
    (c : EvidenceCitationInput) : gmap string Z * list EvidenceCitationInput :=
  let '(counts, kept) := acc in
  let n := (default 0 (counts !! ec_publisher c) + 1)%Z in
  (<[ec_publisher c := n]> counts, if (n <=? cap)%Z then kept ++ [c] else kept).

Definition _capped_by_publisher (citations : list EvidenceCitationInput) (cap : Z)
    : list EvidenceCitationInput :=
  snd (fold_left (cap_step cap) citations (∅, [])).

(** One iteration of the totals of support and opposition. *)
Definition strength_step (verification_weights trust_multiplier : dict string dec)
    (acc : dec * dec) (c : EvidenceCitationInput) : dec * dec :=
  let '(e_total, d_total) := acc in
  if String.eqb (ec_verification c) "REJECTED" then acc
  else
    let w := _citation_weight c verification_weights trust_multiplier in
    if String.eqb (ec_polarity c) "SUPPORT" then (dadd e_total w, d_total)
    else if String.eqb (ec_polarity c) "OPPOSE" then (e_total, dadd d_total w)
    else acc.

Definition _evidence_strength (position : AgentPosition) (evidence : list EvidenceCitationInput)
    (verification_weights trust_multiplier : dict string dec) (independence_cap : Z) : dec * dec :=
  fold_left (strength_step verification_weights trust_multiplier)
    (_capped_by_publisher (_evidence_for_position position evidence) independence_cap)
    (dzero, dzero).

Definition name : string := "evidence_weighted".
Definition version : string := "1.0.0".

Record params : Type := mkParams {
  p_base : Weighted.params;
  p_beta : dec;
  p_lam : dec;
  p_independence_cap : Z;
  p_verification_weights : dict string dec;
  p_trust_multiplier : dict string dec
}.

(** [beta], [lambda], [independence_cap] and the two tables, as both
    evidence-reading strategies read them. *)
Definition or_default (m : option (dict string dec)) (d : dict string dec) : dict string dec :=
  match m with Some t => t | None => d end.

Definition read_params (ps : dict string json) : res params :=
  let use_confidence := truthy (param ps "use_confidence" (JBool false)) in
  abstain ← abstain_policy_of (param ps "abstain_policy" (JStr "EXCLUDE"));
  agreement ← param_decimal ps "agreement_threshold" "0.66";
  partial ← param_decimal ps "partial_threshold" "0.5";
  alpha ← param_decimal ps "alpha" "0.5";
  beta ← param_decimal ps "evidence_weight" "0.4";
  lam ← param_decimal ps "lambda" "0.5";
  cap ← int_of (param ps "independence_cap" (JInt 2));
  verif ← decimal_map (param ps "verification_weights" JNull);
  trust ← decimal_map (param ps "trust_multiplier" JNull);
  weights ← decimal_map (param ps "position_weights" JNull);
  Ok (mkParams (Weighted.mkParams use_confidence abstain agreement partial alpha weights) beta lam cap
        (or_default verif _VERIFICATION_WEIGHTS) (or_default trust _TRUST_MULTIPLIER)).

(** One position of the inner loop: [e_alt] and [weighted_terms]. *)
Definition position_step (p : params) (evidence : list EvidenceCitationInput)
    (acc : dec * dec) (pos : AgentPosition) : res (dec * dec) :=
  let '(e_alt, weighted_terms) := acc in
  let '(e_i, d_i) := _evidence_strength pos evidence (p_verification_weights p) (p_trust_multiplier p)
                       (p_independence_cap p) in
  q ← ddiv (dsub e_i d_i) (dadd (dadd e_i d_i) dunit);
  let evid := _clamp q (dec_of_Z (-1)) dunit in
  let base := _position_score (ap_stance pos) (ap_confidence pos) (Weighted.p_use_confidence (p_base p))
                (Weighted.p_weights (p_base p)) in
  Ok (dadd e_alt e_i,
      dadd weighted_terms (dmul base (dadd dunit (dmul (p_lam p) (dmax dzero evid))))).

(** [e_alt] and [support_ev] of one alternative from its relevant positions. *)
Definition support_ev (p : params) (evidence : list EvidenceCitationInput) (relevant : list AgentPosition)
    : res (dec * dec) :=
  match relevant with
  | [] => Ok (dzero, dzero)
  | _ =>
      '(e_alt, weighted_terms) ← foldR (position_step p evidence) (dzero, dzero) relevant;
      q ← ddiv weighted_terms (dec_of_Z (Z.of_nat (length relevant)));
      Ok (e_alt, dmin dunit q)
  end.

(** [(1 - beta) * support_weighted + beta * support_ev] *)
Definition blend (beta weighted ev : dec) : dec :=
  dadd (dmul (dsub dunit beta) weighted) (dmul beta ev).

(** The evidence total and the blended support of one alternative. *)
Definition alternative_support (p : params) (c : ConsensusContext) (alt : uuid) : res (dec * dec) :=
  let b := p_base p in
  let relevant := relevant_positions alt (cx_agent_positions c) (Weighted.p_abstain_policy b) in
  '(e_alt, ev) ← support_ev p (cx_evidence c) relevant;
  '(support_weighted, _) ← _compute_support alt (cx_agent_positions c) (Weighted.p_use_confidence b)
                             (Weighted.p_abstain_policy b) (Weighted.p_weights b);
  Ok (e_alt, blend (p_beta p) support_weighted ev).

Definition evaluate_alternative `{SetIter uuid} (p : params) (c : ConsensusContext)
    (g : FeasibilityGateResult) (alt : AlternativeInput) : res (Weighted.row * dec) :=
  let b := p_base p in
  '(e_alt, support) ← alternative_support p c (al_id alt);
  value ← _weighted_objective_value (al_id alt) (cx_objectives c) (cx_objective_values c);
  contributions ← _contributions
    (relevant_positions (al_id alt) (cx_agent_positions c) (Weighted.p_abstain_policy b))
    (Weighted.p_use_confidence b);
  dissent ← _build_dissent (al_id alt) (cx_agent_positions c);
  minority ← _build_minority (al_id alt) (cx_agent_positions c) (cx_critiques c);
  score ← construct AlternativeScore_ok "AlternativeScore"
            (mkScore (al_id alt) (al_name alt) 1 (clamp_unit support) value
               (Some (Weighted.rank_score (Weighted.p_alpha b) support value))
               (if has_verdict (al_id alt) (fg_unknown g) then Feasibility.UNKNOWN else Feasibility.SAT)
               (Some e_alt));
  Ok (Weighted.mkRow score contributions dissent minority, e_alt).

Definition ranking_derivation (p : params) (scores : list AlternativeScore) : res DerivationStep :=
  _derivation "ranking" "support blended with evidence-weighted support_ev per alternative" 2
    [("alpha", JStr (dec_str (Weighted.p_alpha (p_base p)))); ("beta", JStr (dec_str (p_beta p)));
     ("lambda", JStr (dec_str (p_lam p)))]
    (dict_of_list (map (fun s => (uuid_str (as_alternative_id s),
        JObj [("support", JStr (dec_str (as_support s)));
              ("evidence_strength", Weighted.opt_dec_str (as_evidence_strength s));
              ("rank_score", Weighted.opt_dec_str (as_rank_score s))]))
      scores)).

(** The return of the evidence gate. *)
Definition insufficient_evidence `{ContextDump} (c : ConsensusContext) (result_id : uuid)
    (rows : list Weighted.row) (scores : list AlternativeScore) (leader : AlternativeScore)
    (derivation : list DerivationStep) : res ConsensusResult :=
  d3 ← _derivation "evidence_gate" "leading alternative has no verified backing (evidence_weighted.md)" 3
         [("alternative_id", JStr (uuid_str (as_alternative_id leader)))]
         [("outcome", JStr "INSUFFICIENT_EVIDENCE")];
  new_result (mkResult result_id (cx_session_id c) (cx_round c) name version INSUFFICIENT_EVIDENCE scores
    None [] None None None [] (_blocking_critiques (cx_critiques c)) [] (_degenerate c)
    (consensus_input_hash c) (concat (map Weighted.row_contributions rows))
    (concat (map Weighted.row_dissent rows)) (concat (map Weighted.row_minority rows))
    (derivation ++ [d3]) 1).

(** The tail of [evaluate], once the leader has evidence. *)
Definition conclude `{ContextDump} (p : params) (c : ConsensusContext) (g : FeasibilityGateResult)
    (result_id : uuid) (rows : list Weighted.row) (leader : AlternativeScore)
    (scores : list AlternativeScore) (derivation : list DerivationStep) : res ConsensusResult :=
  let b := p_base p in
  let outcome := classify_leader c g leader (Weighted.p_agreement_threshold b)
                   (Weighted.p_partial_threshold b) in
  d3 ← Weighted.classify_derivation "classify" 3 (Weighted.p_agreement_threshold b)
         (Weighted.p_partial_threshold b) outcome (as_support leader);
  dissent_ratio ← stance_ratio "OPPOSE" (cx_agent_positions c);
  abstention_ratio ← stance_ratio "ABSTAIN" (cx_agent_positions c);
  new_result (mkResult result_id (cx_session_id c) (cx_round c) name version outcome scores
    (selected_of outcome (as_alternative_id leader)) [] (Some (as_support leader)) (Some dissent_ratio)
    (Some abstention_ratio) [] (_blocking_critiques (cx_critiques c)) [] (_degenerate c)
    (consensus_input_hash c) (concat (map Weighted.row_contributions rows))
    (concat (map Weighted.row_dissent rows)) (concat (map Weighted.row_minority rows))
    (derivation ++ [d3]) 1).

(** [evw_evidence_totals.get(leader, 0)] *)
Definition evidence_total (totals : gmap uuid dec) (alt : uuid) : dec := default dzero (totals !! alt).

Definition totals_of (rows : list (Weighted.row * dec)) : gmap uuid dec :=
  snd <$> index_by (fun r => as_alternative_id (Weighted.row_score (fst r))) rows.

Definition evaluate `{ContextDump} `{SetIter uuid} (result_id : uuid) (c : ConsensusContext)
    : res ConsensusResult :=
  p ← read_params (sc_parameters (cx_strategy_config c));
  g ← feasibility_gate (cx_alternatives c) (cx_feasibility c);
  d1 ← feasibility_derivation "feasibility" "shared feasibility gate applied before ranking (C-1)" c g;
  if fg_all_infeasible g : bool then
    early_result name version result_id c INFEASIBLE (concat (map fv_unsat_core (fg_infeasible g))) [d1]
  else
    rows_e ← mapR (evaluate_alternative p c g) (fg_rankable g);
    let rows := map fst rows_e in
    let totals := totals_of rows_e in
    let scores := Weighted.rank_rows rows in
    d2 ← ranking_derivation p scores;
    match scores with
    | [] => early_result name version result_id c NO_CONSENSUS [] [d1; d2]
    | leader :: _ =>
        if deqb (evidence_total totals (as_alternative_id leader)) dzero
        then insufficient_evidence c result_id rows scores leader [d1; d2]
        else conclude p c g result_id rows leader scores [d1; d2]
    end.

Definition formula : string :=
  "w(e)=verif_w[verif(e)]*trust_m[trust(e)]; evid(i,a)=clamp((E-D)/(E+D+1),-1,1); support_ev(a)=sum(s(p)*(1+lambda*max(0,evid)))/|N_a|; support(a)=(1-beta)*support_weighted(a)+beta*support_ev(a)".

Definition explain (r : ConsensusResult) : res ConsensusExplanation :=
  _empty_explanation r formula
    [("verification_weights", Weighted.weights_json _VERIFICATION_WEIGHTS);
     ("trust_multiplier", Weighted.weights_json _TRUST_MULTIPLIER)] [] [].

(** ** The independence cap *)

Definition by_publisher (k : string) (c : EvidenceCitationInput) : bool := bool_decide (ec_publisher c = k).

(** After any prefix the counter of a publisher is the number of its citations
    seen, and the kept ones are its first [cap]. *)
Lemma cap_fold cap cs k :
  (0 <= cap)%Z ->
  let '(counts, kept) := fold_left (cap_step cap) cs (∅, []) in
  default 0%Z (counts !! k) = Z.of_nat (length (List.filter (by_publisher k) cs)) /\
  List.filter (by_publisher k) kept = take (Z.to_nat cap) (List.filter (by_publisher k) cs).
Proof.
  intros Hcap. induction cs as [|c cs IH] using rev_ind; [split; [done|by destruct (Z.to_nat cap)]|].
  rewrite fold_left_app, List.filter_app. destruct (fold_left _ cs _) as [counts kept].
  destruct IH as [Hn Hk]. cbn [fold_left cap_step List.filter].
  set (n := (default 0 (counts !! ec_publisher c) + 1)%Z).
  assert (Hkeep : List.filter (by_publisher k) (if (n <=? cap)%Z then kept ++ [c] else kept)
                  = List.filter (by_publisher k) kept
                    ++ if (n <=? cap)%Z && by_publisher k c then [c] else []).
  { destruct (n <=? cap)%Z; cbn [andb]; [by rewrite List.filter_app|by rewrite app_nil_r]. }
  rewrite Hkeep, Hk. clear Hkeep. destruct (by_publisher k c) eqn:E.
  - apply bool_decide_eq_true in E. subst n. rewrite E in *. rewrite lookup_insert_eq. cbn [default].
    rewrite Hn, length_app. cbn [length id]. split; [lia|]. rewrite andb_true_r.
    case_match; [rewrite !take_ge; rewrite ?length_app; cbn [length]; (done || lia)|].
    rewrite app_nil_r, take_app_le by lia. done.
  - apply bool_decide_eq_false in E. rewrite lookup_insert_ne by done. rewrite andb_false_r, !app_nil_r. done.
Qed.

(** The independence cap: of the citations a position names, each publisher
    keeps exactly its first [cap], in order, however many it has. *)
Theorem publisher_cap cs cap k (Hcap : (0 <= cap)%Z) :
  List.filter (by_publisher k) (_capped_by_publisher cs cap)
  = take (Z.to_nat cap) (List.filter (by_publisher k) cs).
Proof.
  unfold _capped_by_publisher. pose proof (cap_fold cap cs k Hcap) as H.
  destruct (fold_left (cap_step cap) cs (∅, [])) as [counts kept]. apply H.
Qed.

Lemma capped_elem cs cap c : c ∈ _capped_by_publisher cs cap -> c ∈ cs.
Proof.
  unfold _capped_by_publisher. induction cs as [|x cs IH] using rev_ind; [done|].
  rewrite fold_left_app. destruct (fold_left _ cs _) as [counts kept]. cbn in *.
  case_match; set_solver.
Qed.

(** ** Totality of the evidence terms *)

Definition table_nonneg (t : dict string dec) : bool := forallb (fun kv => dleb dzero (snd kv)) t.

Definition tables_nonneg (p : params) : bool :=
  table_nonneg (p_verification_weights p) && table_nonneg (p_trust_multiplier p).

Lemma table_get_nonneg t k : table_nonneg t = true -> dnonneg (default dzero (dict_get k t)).
Proof.
  intros Ht. destruct (dict_get k t) as [v|] eqn:E; cbn [default]; [|apply dleb_refl].
  eapply (dict_get_Forall dnonneg); [|exact E]. apply Forall_forall. intros kv Hkv.
  by eapply forallb_elem in Ht.
Qed.

Lemma citation_weight_nonneg c tv tt :
  table_nonneg tv = true -> table_nonneg tt = true -> dnonneg (_citation_weight c tv tt).
Proof. intros. apply dmul_nonneg; by apply table_get_nonneg. Qed.

Lemma evidence_strength_nonneg pos ev tv tt cap :
  table_nonneg tv = true -> table_nonneg tt = true ->
  let '(e, d) := _evidence_strength pos ev tv tt cap in dnonneg e /\ dnonneg d.
Proof.
  intros Hv Ht. unfold _evidence_strength.
  assert (Hz : dnonneg dzero) by apply dleb_refl.
  enough (Hgen : forall l acc, dnonneg (fst acc) /\ dnonneg (snd acc) ->
            let '(e, d) := fold_left (strength_step tv tt) l acc in dnonneg e /\ dnonneg d)
    by (by apply Hgen).
  induction l as [|c l IH]; intros [e d] [He Hd]; [done|]. cbn [fold_left]. apply IH.
  unfold strength_step. repeat case_match; cbn; auto using dadd_nonneg, citation_weight_nonneg.
Qed.

Section total.
Context (p : params) (c : ConsensusContext).
Hypothesis Htables : tables_nonneg p = true.

Lemma position_step_total acc pos : exists acc', position_step p (cx_evidence c) acc pos = Ok acc'.
Proof.
  unfold position_step. destruct acc as [e_alt w]. apply andb_true_iff in Htables as [Hv Ht].
  pose proof (evidence_strength_nonneg pos (cx_evidence c) _ _ (p_independence_cap p) Hv Ht) as Hn.
  destruct (_evidence_strength _ _ _ _ _) as [e d]. destruct Hn as [He Hd].
  destruct (ddiv_total (dsub e d) (dadd (dadd e d) dunit)) as (q & ->);
    [by apply dadd_unit_nonzero, dadd_nonneg|]. by eexists.
Qed.

Lemma support_ev_total relevant : exists es, support_ev p (cx_evidence c) relevant = Ok es.
Proof.
  unfold support_ev. destruct relevant as [|x l] eqn:El; [by eexists|]. rewrite <- El.
  destruct (foldR_total (fun _ => True) (position_step p (cx_evidence c)) relevant (dzero, dzero))
    as ([e w] & -> & _); [|done|].
  - intros s y _ _. destruct (position_step_total s y) as (s' & ->). eauto.
  - cbn [mbind res_bind]. destruct (ddiv_total w (dec_of_Z (Z.of_nat (length relevant)))) as (q & ->);
      [by apply dec_of_count_nonzero; rewrite El|]. by eexists.
Qed.

Lemma alternative_support_total alt : exists es, alternative_support p c alt = Ok es.
Proof.
  unfold alternative_support. edestruct support_ev_total as ([e s] & ->). cbn [mbind res_bind].
  edestruct _compute_support_total as ([sw n] & ->). by eexists.
Qed.

End total.

(** ** Rows and the contract *)
Section rows.
Context `{SetIter uuid} (p : params) (c : ConsensusContext).
Let g := gate_spec (cx_alternatives c) (cx_feasibility c).

Lemma evaluate_alternative_row alt r e :
  evaluate_alternative p c g alt = Ok (r, e) ->
  as_alternative_id (Weighted.row_score r) = al_id alt /\
  unit_decimal (as_support (Weighted.row_score r)) = true /\
  as_evidence_strength (Weighted.row_score r) = Some e.
Proof.
  unfold evaluate_alternative. intros ([e' s] & _ & H1)%bind_Ok. inv_ok.
  apply construct_Ok in Hr4 as [_ ->]. split; [done|]. split; [apply clamp_unit_ok|done].
Qed.

Lemma evidence_rows_ids rows :
  mapR (evaluate_alternative p c g) (fg_rankable g) = Ok rows ->
  map (fun r => as_alternative_id (Weighted.row_score r)) (map fst rows) = candidates c.
Proof.
  rewrite map_map.
  apply (mapR_map _ (fun r => as_alternative_id (Weighted.row_score (fst r))) al_id).
  intros alt [r e] Hr. by apply evaluate_alternative_row in Hr as [? _].
Qed.

Lemma evidence_evaluate_alternative_reports alt r :
  context_facts c -> evaluate_alternative p c g alt = Ok r ->
  Weighted.row_dissent (fst r) = map dissent_entry (List.filter (dissents (al_id alt)) (cx_agent_positions c)) /\
  Weighted.row_minority (fst r) = map (minority_entry (cx_critiques c))
                     (List.filter (minority_stance (al_id alt)) (cx_agent_positions c)).
Proof.
  intros Hc. unfold evaluate_alternative. intros ([e s] & _ & H1)%bind_Ok. inv_ok. cbn.
  rewrite _build_dissent_total in Hr2 by apply (cf_positions c Hc).
  rewrite _build_minority_total in Hr3 by apply (cf_positions c Hc). by simplify_eq.
Qed.

Lemma evidence_rows_reports rows :
  context_facts c -> mapR (evaluate_alternative p c g) (fg_rankable g) = Ok rows ->
  concat (map Weighted.row_dissent (map fst rows)) = all_dissent c /\
  concat (map Weighted.row_minority (map fst rows)) = all_minority c.
Proof.
  intros Hc Hrows. unfold all_dissent, all_minority, candidates. rewrite !map_map. split; f_equal.
  - eapply (mapR_map _ (fun r => Weighted.row_dissent (fst r))); [|exact Hrows]. intros alt r Hr.
    by apply evidence_evaluate_alternative_reports in Hr as [? _].
  - eapply (mapR_map _ (fun r => Weighted.row_minority (fst r))); [|exact Hrows]. intros alt r Hr.
    by apply evidence_evaluate_alternative_reports in Hr as [_ ?].
Qed.

Lemma evidence_evaluate_alternative_total alt :
  context_facts c -> objective_values_parse c -> tables_nonneg p = true -> alt ∈ fg_rankable g ->
  exists r, evaluate_alternative p c g alt = Ok r.
Proof.
  intros Hc Hv Ht Ha. destruct (rankable_facts c alt Hc Ha) as [Hin Hn]. unfold evaluate_alternative.
  destruct (alternative_support_total p c Ht (al_id alt)) as ([e s] & ->). cbn [mbind res_bind].
  edestruct _weighted_objective_value_total as (v & ->); [done..|]. cbn [mbind res_bind].
  rewrite (_contributions_total _ (cf_positions c Hc)) by (intros q; apply relevant_positions_elem).
  cbn [mbind res_bind]. rewrite (_build_dissent_total _ (cf_positions c Hc)). cbn [mbind res_bind].
  rewrite (_build_minority_total _ (cf_positions c Hc)). cbn [mbind res_bind].
  unfold construct. rewrite score_ok by done. cbn. eauto.
Qed.

End rows.

Section contract.
Context `{ContextDump} `{SetIter uuid} (c : ConsensusContext).
Let g := gate_spec (cx_alternatives c) (cx_feasibility c).

Lemma evidence_evaluate_contract id r :
  ConsensusContext_validate c = Ok () -> evaluate id c = Ok r -> result_contract name version c r.
Proof.
  intros Hc H1. unfold evaluate in H1. apply bind_Ok in H1 as (p & _ & H1).
  apply bind_Ok in H1 as (g' & Hg & H1). apply (gate_context _ _ Hc) in Hg as ->.
  apply bind_Ok in H1 as (d1 & _ & H1). pose proof (gate_all_infeasible c) as Hall.
  fold g in H1, Hall. destruct (fg_all_infeasible g) eqn:Eg.
  { assert (Hu : all_unsat c) by (by apply Hall). eapply early_contract; try done. by apply candidates_nil. }
  assert (Hn : ~ all_unsat c) by (by rewrite <- Hall).
  apply bind_Ok in H1 as (rows & Hrows & H1). apply bind_Ok in H1 as (d2 & _ & H1).
  destruct (Weighted.rank_rows _) as [|leader rest] eqn:El.
  { eapply early_contract; try done. by apply Weighted.rank_rows_nil in El; rewrite <- (evidence_rows_ids _ _ _ Hrows). }
  assert (Hsound : forall r, rs_scores r = leader :: rest -> scores_sound c r).
  { intros r' Hr'. eapply Weighted.rank_rows_sound; [by eapply evidence_rows_ids|]. by rewrite El. }
  pose proof (evidence_rows_reports p c rows (context_validated c Hc) Hrows) as Hrep.
  destruct (deqb _ dzero).
  - unfold insufficient_evidence in H1. inv_ok. apply new_result_idem in H1 as [-> Hv].
    apply unselected_contract; try done. by apply Hsound.
  - unfold conclude in H1. inv_ok. apply new_result_idem in H1 as [-> Hv].
    eapply (selected_contract _ _ _ _ leader rest); try done. by apply Hsound.
Qed.

End contract.

(** ** Totality of the strategy *)
Section evaluate_total.
Context `{ContextDump} `{SetIter uuid} (c : ConsensusContext).
Let g := gate_spec (cx_alternatives c) (cx_feasibility c).

Lemma evidence_conclude_total p id rows leader scores ds :
  context_facts c -> unit_decimal (as_support leader) = true ->
  exists r, conclude p c g id rows leader scores ds = Ok r.
Proof.
  intros Hc Hl. unfold conclude, Weighted.classify_derivation.
  rewrite _derivation_total by done. cbn [mbind res_bind].
  destruct (stance_ratio_unit "OPPOSE" (cx_agent_positions c)) as (d & -> & Hd).
  destruct (stance_ratio_unit "ABSTAIN" (cx_agent_positions c)) as (a & -> & Ha).
  cbn [mbind res_bind]. eexists. apply (result_ok c); try done. cbn. unfold selected_of. intros x. by case_match.
Qed.

Lemma insufficient_evidence_total id rows scores leader ds :
  context_facts c -> exists r, insufficient_evidence c id rows scores leader ds = Ok r.
Proof.
  intros Hc. unfold insufficient_evidence. rewrite _derivation_total by done. cbn [mbind res_bind].
  eexists. by apply (result_ok c).
Qed.

(** The evidence-weighted strategy returns a result on every validated
    context whose parameters and objective values can be read and whose weight
    tables have no negative entry: no division by zero and no failed validation. *)
Theorem evidence_weighted_total id p (Hval : ConsensusContext_validate c = Ok ())
    (Hp : read_params (sc_parameters (cx_strategy_config c)) = Ok p)
    (Ht : tables_nonneg p = true) (Hv : objective_values_parse c) :
  exists r, evaluate id c = Ok r.
Proof. pose proof (context_validated c Hval) as Hc. unfold evaluate. rewrite Hp.
  cbn [mbind res_bind]. rewrite gate_refines by (by apply context_verdicts_ok). cbn [mbind res_bind].
  unfold feasibility_derivation. rewrite _derivation_total by done. cbn [mbind res_bind]. fold g.
  destruct (fg_all_infeasible g); [by apply early_result_total; [apply (cf_round c Hc)|..]|].
  destruct (mapR_exists (evaluate_alternative p c g) (fg_rankable g)) as (rows & Hrows).
  { intros. by apply evidence_evaluate_alternative_total. }
  rewrite Hrows. cbn [mbind res_bind]. unfold ranking_derivation.
  rewrite _derivation_total by done. cbn [mbind res_bind].
  destruct (Weighted.rank_rows _) as [|leader rest] eqn:El;
    [by apply early_result_total; [apply (cf_round c Hc)|..]|].
  destruct (deqb _ dzero); [by apply insufficient_evidence_total|].
  apply evidence_conclude_total; [done|]. eapply Weighted.rank_rows_support; [|rewrite El; set_solver].
  intros r Hr. apply list_elem_of_fmap in Hr as ([r' e] & -> & Hr).
  destruct (mapR_elem _ _ _ _ Hrows Hr) as (alt & _ & Hf). by eapply evaluate_alternative_row in Hf as (_ & ? & _).
Qed.

End evaluate_total.

End Evidence.
