(* ===== verification/ConstraintAware.v ===== *)
(** * The constraint-aware strategy

    [ConstraintAwareStrategy] of [app/application/consensus.py] and its helpers:
    objective values, dominance, the undominated set, the conflict test, and the
    seven stages of [evaluate] in their order. *)

From S2P Require Import Prelude.
From S2P Require Import PyDecimal.
From S2P Require Import Json.
From S2P Require Import Symbolic.
From S2P Require Import ConsensusPorts.
From S2P Require Import Gate.
From S2P Require Import ConsensusHelpers.
From S2P Require Import ConsensusFacts.
From S2P Require Import Weighted.
From S2P Require Import EvidenceWeighted.

Module Constraint.

Abbreviation values := (gmap uuid dec).

(** One iteration over the objectives. *)
Definition lookup_step (alt_id : uuid) (objective_values : dict string (dict string string))
    (acc : values) (obj : ObjectiveInput) : res values :=
  match raw_value objective_values (ob_objective_id obj) alt_id with
  | None => Ok acc
  | Some raw => v ← dec_of_string raw; Ok (<[ob_objective_id obj := v]> acc)
  end.

Definition _objective_value_lookup (alt_id : uuid) (objectives : list ObjectiveInput)
    (objective_values : dict string (dict string string)) : res values :=
  foldR (lookup_step alt_id objective_values) ∅ objectives.

(** The loop of [_dominates]: [better] is [at_least_one_better]. *)
Fixpoint dominates_loop (a_values b_values : values) (objective_ids : list uuid) (epsilon : dec)
    (better : bool) : bool :=
  match objective_ids with
  | [] => better
  | k :: ks =>
      match a_values !! k, b_values !! k with
      | Some av, Some bv =>
          if dltb av bv then false
          else dominates_loop a_values b_values ks epsilon (better || dltb (dadd bv epsilon) av)
      | _, _ => false
      end
  end.

Definition _dominates (a_values b_values : values) (objective_ids : list uuid) (epsilon : dec) : bool :=
  match objective_ids with
  | [] => false
  | _ => dominates_loop a_values b_values objective_ids epsilon false
  end.

(** [values_by_alt.get(a, {})] *)
Definition values_of (values_by_alt : gmap uuid values) (a : uuid) : values :=
  default ∅ (values_by_alt !! a).

Definition dominated_in (alt_ids : list uuid) (values_by_alt : gmap uuid values)
    (objective_ids : list uuid) (epsilon : dec) (a : uuid) : bool :=
  existsb (fun b => negb (bool_decide (b = a))
                    && _dominates (values_of values_by_alt b) (values_of values_by_alt a)
                         objective_ids epsilon) alt_ids.

Definition _undominated (alt_ids : list uuid) (values_by_alt : gmap uuid values)
    (objective_ids : list uuid) (epsilon : dec) : list uuid :=
  List.filter (fun a => negb (dominated_in alt_ids values_by_alt objective_ids epsilon a)) alt_ids.

Definition name : string := "constraint_aware".
Definition version : string := "1.0.0".

(** The parameters shared with the evidence strategy ([alpha] is not read and
    stays unused in [p_evidence]) and the three of this strategy. *)
Record params : Type := mkParams {
  p_evidence : Evidence.params;
  p_epsilon : dec;
  p_min_flip_distance : dec;
  p_allow_unevidenced : bool
}.

Definition read_params (ps : dict string json) : res params :=
  let use_confidence := truthy (param ps "use_confidence" (JBool false)) in
  abstain ← abstain_policy_of (param ps "abstain_policy" (JStr "EXCLUDE"));
  agreement ← param_decimal ps "agreement_threshold" "0.66";
  partial ← param_decimal ps "partial_threshold" "0.5";
  beta ← param_decimal ps "evidence_weight" "0.4";
  lam ← param_decimal ps "lambda" "0.5";
  cap ← int_of (param ps "independence_cap" (JInt 2));
  epsilon ← param_decimal ps "epsilon" "0.01";
  min_flip ← param_decimal ps "min_flip_distance" "0.05";
  let allow_unevidenced := truthy (param ps "allow_unevidenced" (JBool false)) in
  verif ← decimal_map (param ps "verification_weights" JNull);
  trust ← decimal_map (param ps "trust_multiplier" JNull);
  weights ← decimal_map (param ps "position_weights" JNull);
  Ok (mkParams
        (Evidence.mkParams (Weighted.mkParams use_confidence abstain agreement partial dzero weights)
           beta lam cap (Evidence.or_default verif Evidence._VERIFICATION_WEIGHTS)
           (Evidence.or_default trust Evidence._TRUST_MULTIPLIER))
        epsilon min_flip allow_unevidenced).

(** What one iteration over the rankable alternatives records. *)
Record row : Type := mkRow {
  row_id : uuid;
  row_evidence : dec;
  row_support : dec;
  row_contributions : list AgentContribution;
  row_dissent : list DissentEntry;
  row_minority : list MinorityEntry
}.

Definition evaluate_alternative `{SetIter uuid} (p : params) (c : ConsensusContext)
    (alt : AlternativeInput) : res row :=
  let b := Evidence.p_base (p_evidence p) in
  '(e_alt, support) ← Evidence.alternative_support (p_evidence p) c (al_id alt);
  contributions ← _contributions
    (relevant_positions (al_id alt) (cx_agent_positions c) (Weighted.p_abstain_policy b))
    (Weighted.p_use_confidence b);
  dissent ← _build_dissent (al_id alt) (cx_agent_positions c);
  minority ← _build_minority (al_id alt) (cx_agent_positions c) (cx_critiques c);
  Ok (mkRow (al_id alt) e_alt support contributions dissent minority).

(** The two dictionaries the loop fills: [evidence_totals] and [support_ev_by_alt]. *)
Definition evidence_totals (rows : list row) : gmap uuid dec := row_evidence <$> index_by row_id rows.
Definition support_by_alt (rows : list row) : gmap uuid dec := row_support <$> index_by row_id rows.

(** [d.get(a, Decimal("0"))] *)
Definition total_of (d : gmap uuid dec) (a : uuid) : dec := default dzero (d !! a).

(** Stage 2. *)
Definition evidence_floor (p : params) (rows : list row) (ids : list uuid) : list uuid :=
  if p_allow_unevidenced p then ids
  else List.filter (fun a => dltb dzero (total_of (evidence_totals rows) a)) ids.

(** Stage 3. *)
Definition values_by_alt (ids : list uuid) (c : ConsensusContext) : res (gmap uuid values) :=
  kvs ← mapR (fun a => v ← _objective_value_lookup a (cx_objectives c) (cx_objective_values c);
                       Ok (a, v)) ids;
  Ok (snd <$> index_by fst kvs).

(** Stage 4: the first alternative with the greatest value of an objective. *)
Definition argmax_step (vs : gmap uuid values) (k : uuid) (acc : option (uuid * dec)) (a : uuid)
    : option (uuid * dec) :=
  match values_of vs a !! k with
  | None => acc
  | Some v =>
      match acc with
      | None => Some (a, v)
      | Some (_, best_val) => if dltb best_val v then Some (a, v) else acc
      end
  end.

Definition argmax (vs : gmap uuid values) (pareto : list uuid) (k : uuid) : option uuid :=
  fst <$> fold_left (argmax_step vs k) pareto None.

Definition argmaxes (vs : gmap uuid values) (pareto : list uuid) (objectives : list ObjectiveInput)
    : gset uuid :=
  list_to_set (omap (fun o => argmax vs pareto (ob_objective_id o)) objectives).

Definition conflicting (c : ConsensusContext) (vs : gmap uuid values) (pareto : list uuid) : bool :=
  existsb (fun o => nonempty (ob_conflicts_with o)) (cx_objectives c)
  && (2 <=? size (argmaxes vs pareto (cx_objectives c)))%nat && (1 <? length pareto)%nat.

(** The scores of an ordered list of alternatives, ranked from 1; [rank_score]
    and [feasibility] differ between Stage 4 and Stage 5. *)
Fixpoint scores_from (rank : Z) (g : FeasibilityGateResult) (rows : list row)
    (rank_score : uuid -> option dec) (feasibility : uuid -> Feasibility.status) (ids : list uuid)
    : res (list AlternativeScore) :=
  match ids with
  | [] => Ok []
  | a :: ids' =>
      alt ← res_of_option KeyErrorC "alternative" (index_by al_id (fg_rankable g) !! a);
      s ← construct AlternativeScore_ok "AlternativeScore"
            (mkScore a (al_name alt) rank (clamp_unit (total_of (support_by_alt rows) a)) None
               (rank_score a) (feasibility a) (evidence_totals rows !! a));
      ss ← scores_from (rank + 1) g rows rank_score feasibility ids';
      Ok (s :: ss)
  end.

Definition frontier_scores (g : FeasibilityGateResult) (rows : list row) (pareto : list uuid)
    : res (list AlternativeScore) :=
  scores_from 1 g rows (fun _ => None) (fun _ => Feasibility.SAT) pareto.

(** Stage 5. *)
Definition support_order (rows : list row) (pareto : list uuid) : list uuid :=
  sort_by (fun a b => dleb (total_of (support_by_alt rows) b) (total_of (support_by_alt rows) a)) pareto.

Definition ranked_scores (g : FeasibilityGateResult) (rows : list row) (pareto : list uuid)
    : res (list AlternativeScore) :=
  scores_from 1 g rows (fun a => support_by_alt rows !! a)
    (fun a => if has_verdict a (fg_unknown g) then Feasibility.UNKNOWN else Feasibility.SAT)
    (support_order rows pareto).

(** Stage 6. *)
Definition threshold_bound (p : params) (scores : list AlternativeScore) : bool :=
  match scores with
  | s0 :: s1 :: _ => dltb (dabs (dsub (as_support s0) (as_support s1))) (p_min_flip_distance p)
  | _ => false
  end.

Definition condition_text : string :=
  "ranking is threshold-bound: flip distance below min_flip_distance".

Definition blocked (c : ConsensusContext) : list uuid := _blocking_critiques (cx_critiques c).

(** A result after Stage 1: what every later return shares. *)
Definition staged_result `{ContextDump} (result_id : uuid) (c : ConsensusContext) (rows : list row)
    (outcome : ConsensusOutcome) (scores : list AlternativeScore) (selected : option uuid)
    (pareto : list uuid) (support dissent_ratio abstention_ratio : option dec) (conditions : list string)
    (derivation : list DerivationStep) : res ConsensusResult :=
  new_result (mkResult result_id (cx_session_id c) (cx_round c) name version outcome scores selected
    pareto support dissent_ratio abstention_ratio [] (blocked c) conditions (_degenerate c)
    (consensus_input_hash c) (concat (map row_contributions rows)) (concat (map row_dissent rows))
    (concat (map row_minority rows)) derivation 1).

Definition ids_json (ids : list uuid) : json := JList (map (fun a => JStr (uuid_str a)) ids).

(** Stage 4, when the objectives conflict on the frontier. *)
Definition frontier `{ContextDump} (result_id : uuid) (c : ConsensusContext) (g : FeasibilityGateResult)
    (rows : list row) (vs : gmap uuid values) (pareto : list uuid) (derivation : list DerivationStep)
    : res ConsensusResult :=
  scores ← frontier_scores g rows pareto;
  d4 ← _derivation "stage4_conflict_test" "objectives declared conflicting; frontier returned" 4
         [("argmax_count", JNat (size (argmaxes vs pareto (cx_objectives c))))]
         [("frontier", ids_json pareto)];
  staged_result result_id c rows (_blocking_gate_outcome (blocked c) PARETO_SET) scores None pareto
    None None None [] (derivation ++ [d4]).

(** Stages 5, 6 and 7. *)
Definition conclude `{ContextDump} (p : params) (result_id : uuid) (c : ConsensusContext)
    (g : FeasibilityGateResult) (rows : list row) (pareto : list uuid) (derivation : list DerivationStep)
    : res ConsensusResult :=
  let b := Evidence.p_base (p_evidence p) in
  let agreement := Weighted.p_agreement_threshold b in
  let partial := Weighted.p_partial_threshold b in
  scores ← ranked_scores g rows pareto;
  d5 ← _derivation "stage5_support_order" "undominated set ranked by support_ev(a)" 5 []
         (dict_of_list (map (fun s => (uuid_str (as_alternative_id s), JStr (dec_str (as_support s))))
            scores));
  let bound := threshold_bound p scores in
  d6 ← _derivation "stage6_robustness" "flip distance compared against min_flip_distance" 6
         [("min_flip_distance", JStr (dec_str (p_min_flip_distance p)))]
         [("threshold_bound", JBool bound)];
  match scores with
  | [] => raise IndexErrorC "tuple index out of range"
  | leader :: _ =>
      let outcome := classify_leader c g leader agreement partial in
      d7 ← Weighted.classify_derivation "stage7_classify" 7 agreement partial outcome (as_support leader);
      dissent_ratio ← stance_ratio "OPPOSE" (cx_agent_positions c);
      abstention_ratio ← stance_ratio "ABSTAIN" (cx_agent_positions c);
      staged_result result_id c rows outcome scores (selected_of outcome (as_alternative_id leader)) []
        (Some (as_support leader)) (Some dissent_ratio) (Some abstention_ratio)
        (if bound then [condition_text] else []) (derivation ++ [d5; d6; d7])
  end.

(** Stages 2 to 7, on the rows of the rankable alternatives. *)
Definition rank_feasible `{ContextDump} (p : params) (result_id : uuid) (c : ConsensusContext)
    (g : FeasibilityGateResult) (rows : list row) (d1 : DerivationStep) : res ConsensusResult :=
  let stage2_ids := evidence_floor p rows (map al_id (fg_rankable g)) in
  d2 ← _derivation "stage2_evidence_floor" "alternatives with zero verified evidence excluded" 2
         [("allow_unevidenced", JBool (p_allow_unevidenced p))]
         [("remaining", JNat (length stage2_ids))];
  match stage2_ids with
  | [] => staged_result result_id c rows INSUFFICIENT_EVIDENCE [] None [] None None None [] [d1; d2]
  | _ =>
      vs ← values_by_alt stage2_ids c;
      let objective_ids := map ob_objective_id (cx_objectives c) in
      let pareto := _undominated stage2_ids vs objective_ids (p_epsilon p) in
      d3 ← _derivation "stage3_dominance" "undominated set computed over declared objectives" 3
             [("objective_count", JNat (length objective_ids))]
             [("undominated", ids_json pareto)];
      if conflicting c vs pareto then frontier result_id c g rows vs pareto [d1; d2; d3]
      else conclude p result_id c g rows pareto [d1; d2; d3]
  end.

Definition evaluate `{ContextDump} `{SetIter uuid} (result_id : uuid) (c : ConsensusContext)
    : res ConsensusResult :=
  p ← read_params (sc_parameters (cx_strategy_config c));
  g ← feasibility_gate (cx_alternatives c) (cx_feasibility c);
  d1 ← feasibility_derivation "stage1_feasibility"
         "UNSAT removed, unsat cores recorded; all UNSAT -> INFEASIBLE" c g;
  if fg_all_infeasible g : bool then
    early_result name version result_id c INFEASIBLE (concat (map fv_unsat_core (fg_infeasible g))) [d1]
  else
    rows ← mapR (evaluate_alternative p c) (fg_rankable g);
    rank_feasible p result_id c g rows d1.

Definition formula : string :=
  "Stage1 feasibility; Stage2 evidence floor; Stage3 dominance a<b iff (all k: v_k(b)>=v_k(a)) and (exists k: v_k(b)>v_k(a)+eps); Stage4 conflict test -> PARETO_SET; Stage5 rank by support_ev; Stage6 flip distance; Stage7 classify as evidence_weighted".

Definition explain (r : ConsensusResult) : res ConsensusExplanation :=
  _empty_explanation r formula [] [] [].

(** ** Dominance *)

(** [a] has a value of [k] at least [b]'s; greater than [b]'s by more than [epsilon]. *)
Definition no_worse (a b : values) (k : uuid) : Prop :=
  exists av bv, a !! k = Some av /\ b !! k = Some bv /\ dle bv av.

Definition better_by (epsilon : dec) (a b : values) (k : uuid) : Prop :=
  exists av bv, a !! k = Some av /\ b !! k = Some bv /\ dltb (dadd bv epsilon) av = true.

Lemma dominates_loop_spec a b ks eps better :
  dominates_loop a b ks eps better = true <->
  (forall k, k ∈ ks -> no_worse a b k) /\ (better = true \/ exists k, k ∈ ks /\ better_by eps a b k).
Proof.
  revert better; induction ks as [|k ks IH]; intros better; cbn [dominates_loop].
  { split; [intros ->; set_solver|]. intros [_ [?|(k & Hk & _)]]; [done|set_solver]. }
  destruct (a !! k) as [av|] eqn:Ea; [|split; [done|]; intros [Hn _];
    destruct (Hn k) as (x & y & Hx & _); [set_solver|congruence]].
  destruct (b !! k) as [bv|] eqn:Eb; [|split; [done|]; intros [Hn _];
    destruct (Hn k) as (x & y & _ & Hy & _); [set_solver|congruence]].
  rewrite dltb_negb. destruct (dleb bv av) eqn:El; cbn [negb].
  - rewrite IH, orb_true_iff. unfold better_by, no_worse. split.
    + intros [Hn Hb]. split; [intros j [->|Hj]%elem_of_cons; [by exists av, bv|by apply Hn]|].
      destruct Hb as [[Hb|Hb]|(j & Hj & Hb)]; [by left|right; exists k; split; [set_solver|by exists av, bv]|].
      right; exists j; split; [set_solver|done].
    + intros [Hn Hb]. split; [intros j Hj; apply Hn; set_solver|].
      destruct Hb as [Hb|(j & [->|Hj]%elem_of_cons & x & y & Hx & Hy & Hb)]; [by do 2 left| |].
      * left; right. congruence.
      * right; exists j; split; [done|by exists x, y].
  - split; [done|]. intros [Hn _]. destruct (Hn k) as (x & y & Hx & Hy & Hle); [set_solver|]. congruence.
Qed.

(** With no objective nothing dominates; else dominance is: no worse on every
    objective and better by more than the margin on one. *)
Lemma dominates_iff a b ks eps :
  _dominates a b ks eps = true <->
  (forall k, k ∈ ks -> no_worse a b k) /\ exists k, k ∈ ks /\ better_by eps a b k.
Proof.
  destruct ks as [|k ks]; [split; [done|intros [_ (k & Hk & _)]; set_solver]|].
  unfold _dominates. rewrite dominates_loop_spec. split; intros [Hn Hb]; (split; [done|]).
  - by destruct Hb.
  - by right.
Qed.

Lemma undominated_elem ids vs ks eps a :
  a ∈ _undominated ids vs ks eps <->
  a ∈ ids /\ forall b, b ∈ ids -> b <> a -> _dominates (values_of vs b) (values_of vs a) ks eps = false.
Proof.
  unfold _undominated, dominated_in. rewrite filter_elem, negb_true_iff. split; intros [Ha Hd]; (split; [done|]).
  - intros b Hb Hne. destruct (_dominates _ _ _ _) eqn:E; [|done]. rewrite <- Hd. symmetry.
    apply existsb_exists. exists b. split; [by apply list_elem_of_In|]. rewrite E. by rewrite bool_decide_false.
  - apply not_true_is_false. intros (b & Hb%list_elem_of_In & [Hne E]%andb_true_iff)%existsb_exists.
    apply negb_true_iff, bool_decide_eq_false in Hne. by rewrite (Hd b Hb Hne) in E.
Qed.

(** Strict improvement, ignoring the margin. *)
Definition improves (ks : list uuid) (a b : values) : bool :=
  bool_decide (ks <> []) &&
  forallb (fun k => match a !! k, b !! k with Some av, Some bv => dleb bv av | _, _ => false end) ks &&
  existsb (fun k => match a !! k, b !! k with Some av, Some bv => dltb bv av | _, _ => false end) ks.

Lemma improves_iff ks a b :
  improves ks a b = true <->
  (forall k, k ∈ ks -> no_worse a b k) /\
  exists k av bv, k ∈ ks /\ a !! k = Some av /\ b !! k = Some bv /\ dltb bv av = true.
Proof.
  unfold improves, no_worse. rewrite !andb_true_iff, forallb_forall, existsb_exists. split.
  - intros [[_ Hf] (k & Hk & He)]. split.
    + intros j Hj%list_elem_of_In. specialize (Hf j Hj). destruct (a !! j), (b !! j); try done; eauto 6.
    + apply list_elem_of_In in Hk. destruct (a !! k) eqn:Ea, (b !! k) eqn:Eb; try done; eauto 9.
  - intros [Hf (k & av & bv & Hk & Ha & Hb & Hlt)]. split; [split|].
    + apply bool_decide_true. intros ->. by apply not_elem_of_nil in Hk.
    + intros j Hj%list_elem_of_In. destruct (Hf j Hj) as (x & y & -> & -> & ?). done.
    + exists k. apply list_elem_of_In in Hk. by rewrite Ha, Hb.
Qed.

Lemma improves_irrefl ks a : improves ks a a = false.
Proof.
  apply not_true_is_false. intros [_ (k & x & y & _ & Hx & Hy & Hlt)]%improves_iff.
  assert (x = y) as -> by congruence. by rewrite dltb_irrefl in Hlt.
Qed.

Lemma improves_trans ks a b c : improves ks a b = true -> improves ks b c = true -> improves ks a c = true.
Proof.
  rewrite !improves_iff. intros [H1 (k & x & y & Hk & Hx & Hy & Hlt)] [H2 _]. split.
  - intros j Hj. destruct (H1 j Hj) as (u & v & Hu & Hv & ?), (H2 j Hj) as (v' & w & Hv' & Hw & ?).
    exists u, w. split; [done|]. split; [done|]. assert (v' = v) as -> by congruence. by eapply dleb_trans.
  - destruct (H2 k Hk) as (v' & w & Hv' & Hw & Hle). assert (v' = y) as -> by congruence.
    exists k, x, w. split_and!; try done. by eapply dleb_ltb_trans.
Qed.

(** A finite non-empty list has an element nothing in it improves on. *)
Lemma maximal_exists {A} (better : A -> A -> bool) l :
  (forall x, better x x = false) ->
  (forall x y z, better x y = true -> better y z = true -> better x z = true) ->
  l <> [] -> exists m, m ∈ l /\ forall x, x ∈ l -> better x m = false.
Proof.
  intros Hirr Htr. induction l as [|x [|y l] IH]; [done| |]; intros _.
  { exists x. split; [set_solver|]. intros z ->%list_elem_of_singleton. apply Hirr. }
  destruct IH as (m & Hm & Hmax); [done|]. destruct (better x m) eqn:E.
  - exists x. split; [set_solver|]. intros z [->|Hz]%elem_of_cons; [apply Hirr|].
    apply not_true_is_false. intros Hzx. pose proof (Htr _ _ _ Hzx E) as Hzm. by rewrite Hmax in Hzm.
  - exists m. split; [set_solver|]. intros z [->|Hz]%elem_of_cons; [done|]. by apply Hmax.
Qed.

(** Every objective value fits the context's precision. *)
Definition values_fit (v : values) : Prop := forall k d, v !! k = Some d -> representable d.

(** With a margin that is not negative, dominating is improving. *)
Lemma dominates_improves a b ks eps :
  dnonneg eps -> values_fit b -> _dominates a b ks eps = true -> improves ks a b = true.
Proof.
  intros He Hb [Hn (k & Hk & x & y & Hx & Hy & Hlt)]%dominates_iff. apply improves_iff.
  split; [done|]. exists k, x, y. split_and!; try done.
  eapply dleb_ltb_trans; [|exact Hlt]. apply dadd_increasing; [by eapply Hb|done].
Qed.

Lemma undominated_nonempty ids vs ks eps :
  ids <> [] -> dnonneg eps -> (forall a, a ∈ ids -> values_fit (values_of vs a)) ->
  _undominated ids vs ks eps <> [].
Proof.
  intros Hids He Hfit.
  destruct (maximal_exists (fun a b => improves ks (values_of vs a) (values_of vs b)) ids)
    as (m & Hm & Hmax); [intros; apply improves_irrefl|intros x y z; apply improves_trans|done|].
  assert (Hin : m ∈ _undominated ids vs ks eps).
  { apply undominated_elem. split; [done|]. intros b Hb _. apply not_true_is_false. intros Hd.
    apply dominates_improves in Hd; [|done|by apply Hfit]. by rewrite Hmax in Hd. }
  intros Heq. rewrite Heq in Hin. by apply not_elem_of_nil in Hin.
Qed.

(** ** Scores *)

Lemma scores_from_facts rank g rows rs f ids ss :
  scores_from rank g rows rs f ids = Ok ss ->
  map as_alternative_id ss = ids /\ map as_rank ss = imap (fun i _ => (rank + Z.of_nat i)%Z) ids /\
  (forall s, s ∈ ss -> unit_decimal (as_support s) = true /\
     as_support s = clamp_unit (total_of (support_by_alt rows) (as_alternative_id s)) /\
     as_feasibility s = f (as_alternative_id s)).
Proof.
  revert rank ss; induction ids as [|a ids IH]; intros rank ss; cbn [scores_from].
  { intros [= <-]. split_and!; [done..|]. intros s Hs. by apply not_elem_of_nil in Hs. }
  intros H. inv_ok. apply construct_Ok in Hr0 as [_ ->]. destruct (IH _ _ Hr1) as (H1 & H2 & H3).
  split_and!; cbn [map].
  - by rewrite H1.
  - rewrite H2. cbn [imap as_rank]. f_equal; [lia|]. apply imap_ext. intros. cbn. lia.
  - intros s [->|Hs]%elem_of_cons; [|by apply H3]. cbn. split; [apply clamp_unit_ok|done].
Qed.

Lemma scores_from_total rank g rows rs f ids :
  (1 <= rank)%Z -> (forall a, a ∈ ids -> a ∈ map al_id (fg_rankable g)) ->
  (forall alt, alt ∈ fg_rankable g -> filled (al_name alt) = true) ->
  exists ss, scores_from rank g rows rs f ids = Ok ss.
Proof.
  intros Hr Hin Hn. revert rank Hr; induction ids as [|a ids IH]; intros rank Hr; cbn [scores_from]; [eauto|].
  destruct (index_by al_id (fg_rankable g) !! a) as [alt|] eqn:E.
  - pose proof (index_by_Some _ _ _ _ E) as [Halt _]. cbn [res_of_option mbind res_bind].
    unfold construct. rewrite score_ok by auto. cbn [mbind res_bind].
    destruct (IH ltac:(set_solver) (rank + 1)%Z ltac:(lia)) as (ss & ->). by eexists.
  - exfalso. specialize (Hin a ltac:(set_solver)). by apply index_by_None in E.
Qed.

Lemma frontier_sound c r ids :
  map as_alternative_id (rs_scores r) = ids ->
  map as_rank (rs_scores r) = imap (fun i _ => (1 + Z.of_nat i)%Z) ids ->
  (forall a, a ∈ ids -> a ∈ candidates c) -> scores_sound c r.
Proof.
  intros Hi Hr Hc. split.
  - rewrite Hr, <- Hi. change (map as_alternative_id (rs_scores r)) with (as_alternative_id <$> rs_scores r).
    rewrite imap_fmap. apply imap_ext. intros. cbn. lia.
  - intros s Hs. apply Hc. rewrite <- Hi. by apply list_elem_of_fmap_2.
Qed.

(** ** The contract *)
Section contract.
Context `{ContextDump} `{SetIter uuid} (c : ConsensusContext).
Let g := gate_spec (cx_alternatives c) (cx_feasibility c).

Lemma constraint_evaluate_alternative_id p alt r : evaluate_alternative p c alt = Ok r -> row_id r = al_id alt.
Proof. unfold evaluate_alternative. intros ([e s] & _ & H1)%bind_Ok. by inv_ok. Qed.

Lemma constraint_rows_ids p rows :
  mapR (evaluate_alternative p c) (fg_rankable g) = Ok rows -> map row_id rows = candidates c.
Proof. apply (mapR_map _ row_id al_id). apply constraint_evaluate_alternative_id. Qed.

Lemma constraint_evaluate_alternative_reports p alt r :
  context_facts c -> evaluate_alternative p c alt = Ok r ->
  row_dissent r = map dissent_entry (List.filter (dissents (al_id alt)) (cx_agent_positions c)) /\
  row_minority r = map (minority_entry (cx_critiques c))
                     (List.filter (minority_stance (al_id alt)) (cx_agent_positions c)).
Proof.
  intros Hc. unfold evaluate_alternative. intros ([e s] & _ & H1)%bind_Ok. inv_ok. cbn.
  rewrite _build_dissent_total in Hr1 by apply (cf_positions c Hc).
  rewrite _build_minority_total in Hr2 by apply (cf_positions c Hc). by simplify_eq.
Qed.

(** The rows carry every report of the candidates. *)
Definition rows_report (rows : list row) : Prop :=
  concat (map row_dissent rows) = all_dissent c /\ concat (map row_minority rows) = all_minority c.

Lemma constraint_rows_reports p rows :
  context_facts c -> mapR (evaluate_alternative p c) (fg_rankable g) = Ok rows -> rows_report rows.
Proof.
  intros Hc Hrows. unfold rows_report, all_dissent, all_minority, candidates. rewrite !map_map. split; f_equal.
  - eapply (mapR_map _ row_dissent); [|exact Hrows]. intros alt r Hr.
    by apply constraint_evaluate_alternative_reports in Hr as [? _].
  - eapply (mapR_map _ row_minority); [|exact Hrows]. intros alt r Hr.
    by apply constraint_evaluate_alternative_reports in Hr as [_ ?].
Qed.

Lemma evidence_floor_elem p rows ids a : a ∈ evidence_floor p rows ids -> a ∈ ids.
Proof. unfold evidence_floor. case_match; [done|]. by intros [? _]%filter_elem. Qed.

Lemma support_order_elem rows pareto a : a ∈ support_order rows pareto <-> a ∈ pareto.
Proof. apply sort_by_elem. Qed.

Lemma conclude_contract p id rows pareto ds r :
  rows_report rows ->
  (forall a, a ∈ pareto -> a ∈ candidates c) -> ~ all_unsat c ->
  conclude p id c g rows pareto ds = Ok r -> result_contract name version c r.
Proof.
  intros Hrep Hp Hn. unfold conclude. intros (scores & Hs & H1)%bind_Ok.
  apply bind_Ok in H1 as (d5 & _ & H1). apply bind_Ok in H1 as (d6 & _ & H1).
  destruct scores as [|leader rest]; [done|].
  apply bind_Ok in H1 as (d7 & _ & H1). inv_ok. apply new_result_idem in H1 as [-> Hv].
  destruct (scores_from_facts _ _ _ _ _ _ _ Hs) as (Hi & Hr' & _).
  eapply (selected_contract _ _ _ _ leader rest); try done.
  eapply frontier_sound; [exact Hi|exact Hr'|]. intros a Ha%support_order_elem. auto.
Qed.

Lemma frontier_contract id rows vs pareto ds r :
  rows_report rows ->
  (forall a, a ∈ pareto -> a ∈ candidates c) -> ~ all_unsat c ->
  frontier id c g rows vs pareto ds = Ok r -> result_contract name version c r.
Proof.
  intros Hrep Hp Hn. unfold frontier. intros (scores & Hs & H1)%bind_Ok.
  apply bind_Ok in H1 as (d4 & _ & H1). apply new_result_idem in H1 as [-> Hv].
  destruct (scores_from_facts _ _ _ _ _ _ _ Hs) as (Hi & Hr' & _).
  apply unselected_contract; try done; unfold _blocking_gate_outcome; cbn; rewrite ?andb_false_r; try done.
  by eapply frontier_sound.
Qed.

Lemma rank_feasible_contract p id rows d1 r :
  rows_report rows ->
  ~ all_unsat c -> rank_feasible p id c g rows d1 = Ok r -> result_contract name version c r.
Proof.
  intros Hrep Hn. unfold rank_feasible. intros (d2 & _ & H1)%bind_Ok.
  destruct (evidence_floor p rows (map al_id (fg_rankable g))) as [|a ids] eqn:Ef.
  { apply new_result_idem in H1 as [-> Hv]. apply unselected_contract; try done.
    split; [done|]. cbn. intros s Hs. by apply not_elem_of_nil in Hs. }
  apply bind_Ok in H1 as (vs & _ & H1). apply bind_Ok in H1 as (d3 & _ & H1).
  set (pareto := _undominated _ _ _ _) in H1.
  assert (Hp : forall x, x ∈ pareto -> x ∈ candidates c).
  { intros x [Hx _]%undominated_elem. rewrite <- Ef in Hx. by apply evidence_floor_elem in Hx. }
  destruct (conflicting c vs pareto); [by eapply frontier_contract|by eapply conclude_contract].
Qed.

Lemma constraint_evaluate_contract id r :
  ConsensusContext_validate c = Ok () -> evaluate id c = Ok r -> result_contract name version c r.
Proof.
  intros Hc H1. unfold evaluate in H1. apply bind_Ok in H1 as (p & _ & H1).
  apply bind_Ok in H1 as (g' & Hg & H1). apply (gate_context _ _ Hc) in Hg as ->.
  apply bind_Ok in H1 as (d1 & _ & H1). pose proof (gate_all_infeasible c) as Hall.
  fold g in H1, Hall. destruct (fg_all_infeasible g) eqn:Eg.
  { assert (Hu : all_unsat c) by (by apply Hall). eapply early_contract; try done. by apply candidates_nil. }
  apply bind_Ok in H1 as (rows & Hrows & H1). eapply rank_feasible_contract; [|by rewrite <- Hall|done].
  by apply (constraint_rows_reports p); [apply context_validated|].
Qed.

End contract.

(** ** Totality *)

(** Every declared objective value is a numeral within the context's precision. *)
Definition objective_values_fit (c : ConsensusContext) : Prop :=
  forall o a raw, o ∈ cx_objectives c -> a ∈ candidates c ->
    raw_value (cx_objective_values c) (ob_objective_id o) a = Some raw ->
    exists d, dec_of_string raw = Ok d /\ representable d.

Section total.
Context `{ContextDump} `{SetIter uuid} (c : ConsensusContext).
Let g := gate_spec (cx_alternatives c) (cx_feasibility c).
Hypothesis Hc : context_facts c.
Hypothesis Hfit : objective_values_fit c.

Lemma _objective_value_lookup_total a :
  a ∈ candidates c ->
  exists v, _objective_value_lookup a (cx_objectives c) (cx_objective_values c) = Ok v /\ values_fit v.
Proof.
  intros Ha. apply foldR_total; [|by intros k d; rewrite lookup_empty].
  intros s o Ho Hs. unfold lookup_step. destruct (raw_value _ _ _) as [raw|] eqn:E; [|eauto].
  destruct (Hfit o a raw Ho Ha E) as (d & -> & Hd). eexists; split; [done|].
  intros k x. destruct (decide (ob_objective_id o = k)) as [<-|Hne].
  - rewrite lookup_insert_eq. by intros [= <-].
  - rewrite lookup_insert_ne by done. apply Hs.
Qed.

Lemma values_by_alt_total ids :
  (forall a, a ∈ ids -> a ∈ candidates c) ->
  exists vs, values_by_alt ids c = Ok vs /\ forall a, values_fit (values_of vs a).
Proof.
  intros Hin. unfold values_by_alt.
  set (f := fun a => v ← _objective_value_lookup a (cx_objectives c) (cx_objective_values c); Ok (a, v)).
  destruct (mapR_exists f ids) as (kvs & Hkvs).
  { intros a Ha%Hin. unfold f. destruct (_objective_value_lookup_total a Ha) as (v & -> & _). by eexists. }
  rewrite Hkvs. cbn [mbind res_bind]. eexists; split; [done|]. intros a k d. unfold values_of.
  rewrite lookup_fmap. destruct (index_by fst kvs !! a) as [[a' v]|] eqn:E; cbn; [|by rewrite lookup_empty].
  pose proof (index_by_Some _ _ _ _ E) as [Hkv _]. destruct (mapR_elem _ _ _ _ Hkvs Hkv) as (x & Hx & Hf).
  unfold f in Hf. destruct (_objective_value_lookup_total x (Hin x Hx)) as (v' & Hv' & Hfit').
  rewrite Hv' in Hf. cbn in Hf. injection Hf as -> ->. apply Hfit'.
Qed.

Lemma staged_ok id rows o scores sel pareto sup dis ab conds ds :
  opt_ok unit_decimal sup = true -> opt_ok unit_decimal dis = true -> opt_ok unit_decimal ab = true ->
  (forall a, sel = Some a -> selectable o = true) ->
  exists r, staged_result id c rows o scores sel pareto sup dis ab conds ds = Ok r.
Proof. intros. eexists. by apply (result_ok c). Qed.

Lemma constraint_evaluate_alternative_total p alt :
  Evidence.tables_nonneg (p_evidence p) = true -> exists r, evaluate_alternative p c alt = Ok r.
Proof.
  intros Ht. unfold evaluate_alternative.
  destruct (Evidence.alternative_support_total (p_evidence p) c Ht (al_id alt)) as ([e s] & ->).
  cbn [mbind res_bind].
  rewrite (_contributions_total _ (cf_positions c Hc)) by (intros q; apply relevant_positions_elem).
  cbn [mbind res_bind]. rewrite (_build_dissent_total _ (cf_positions c Hc)). cbn [mbind res_bind].
  rewrite (_build_minority_total _ (cf_positions c Hc)). by eexists.
Qed.

Lemma candidate_scores_total rows rs f ids :
  (forall a, a ∈ ids -> a ∈ candidates c) -> exists ss, scores_from 1 g rows rs f ids = Ok ss.
Proof. intros Hin. apply scores_from_total; [done|done|]. intros alt Ha. by apply (rankable_facts c). Qed.

Lemma constraint_conclude_total p id rows pareto ds :
  pareto <> [] -> (forall a, a ∈ pareto -> a ∈ candidates c) ->
  exists r, conclude p id c g rows pareto ds = Ok r.
Proof.
  intros Hne Hp. unfold conclude, ranked_scores.
  edestruct (candidate_scores_total rows) as (scores & Hs); [by intros a Ha%support_order_elem; apply Hp|].
  rewrite Hs. cbn [mbind res_bind]. rewrite !_derivation_total by done. cbn [mbind res_bind].
  destruct (scores_from_facts _ _ _ _ _ _ _ Hs) as (Hi & _ & Hu).
  destruct scores as [|leader rest].
  { exfalso. by eapply Hne, sort_by_nil. }
  unfold Weighted.classify_derivation. rewrite _derivation_total by done. cbn [mbind res_bind].
  destruct (stance_ratio_unit "OPPOSE" (cx_agent_positions c)) as (d & -> & Hd).
  destruct (stance_ratio_unit "ABSTAIN" (cx_agent_positions c)) as (a & -> & Ha).
  cbn [mbind res_bind]. apply staged_ok; try done; [apply Hu; set_solver|].
  intros x. unfold selected_of. by case_match.
Qed.

Lemma rank_feasible_total p id rows d1 :
  dnonneg (p_epsilon p) -> exists r, rank_feasible p id c g rows d1 = Ok r.
Proof.
  intros He. unfold rank_feasible. rewrite _derivation_total by done. cbn [mbind res_bind].
  destruct (evidence_floor p rows (map al_id (fg_rankable g))) as [|a ids] eqn:Ef; [by apply staged_ok|].
  rewrite <- Ef. set (ids2 := evidence_floor _ _ _) in *.
  assert (Hids : forall x, x ∈ ids2 -> x ∈ candidates c) by (intros x; apply evidence_floor_elem).
  destruct (values_by_alt_total ids2 Hids) as (vs & -> & Hvs). cbn [mbind res_bind].
  rewrite _derivation_total by done. cbn [mbind res_bind].
  set (pareto := _undominated _ _ _ _).
  assert (Hp : forall x, x ∈ pareto -> x ∈ candidates c) by (intros x [Hx _]%undominated_elem; auto).
  destruct (conflicting c vs pareto).
  - unfold frontier, frontier_scores. edestruct (candidate_scores_total rows) as (ss & ->); [done|].
    cbn [mbind res_bind]. rewrite _derivation_total by done. cbn [mbind res_bind].
    by apply staged_ok.
  - apply constraint_conclude_total; [|done]. apply undominated_nonempty; [by rewrite Ef|done|]. auto.
Qed.

End total.

(** C21. The constraint-aware strategy returns a result on every validated context
    with readable parameters, non-negative weight tables, a non-negative dominance
    margin and objective values of at most 28 digits: Stage 3 then leaves an
    undominated alternative, so Stage 7 has a leader. *)
Theorem constraint_aware_total `{ContextDump} `{SetIter uuid} (c : ConsensusContext) id p
    (Hval : ConsensusContext_validate c = Ok ())
    (Hp : read_params (sc_parameters (cx_strategy_config c)) = Ok p)
    (Ht : Evidence.tables_nonneg (p_evidence p) = true) (He : dnonneg (p_epsilon p))
    (Hv : objective_values_fit c) :
  exists r, evaluate id c = Ok r.
Proof. pose proof (context_validated c Hval) as Hc. unfold evaluate. rewrite Hp.
  cbn [mbind res_bind]. rewrite gate_refines by (by apply context_verdicts_ok). cbn [mbind res_bind].
  unfold feasibility_derivation. rewrite _derivation_total by done. cbn [mbind res_bind].
  set (g := gate_spec _ _).
  destruct (fg_all_infeasible g); [by apply early_result_total; [apply (cf_round c Hc)|..]|].
  destruct (mapR_exists (evaluate_alternative p c) (fg_rankable g)) as (rows & ->).
  { intros. by apply constraint_evaluate_alternative_total. }
  by apply rank_feasible_total.
Qed.

End Constraint.
