(* ===== verification/Orchestrator.v ===== *)
(** * The strategy registry and the consensus orchestrator

    [StrategyRegistry], [_required] and [ConsensusOrchestrator.run] of
    [app/application/consensus.py].  A strategy is a record of its operations;
    the class [StrategyLaws] is what the orchestrator's client relies on, and
    the three strategies of the source are its instances.  The result store is
    an interface: [run] is modelled over any store. *)

From S2P Require Import Prelude.
From S2P Require Import PyDecimal.
From S2P Require Import Json.
From S2P Require Import Symbolic.
From S2P Require Import ConsensusPorts.
From S2P Require Import Gate.
From S2P Require Import ConsensusHelpers.
From S2P Require Import ConsensusFacts.
From S2P Require Import Weighted.
From S2P Require Import EvidenceWeighted.
From S2P Require Import ConstraintAware.

(** [ConsensusStrategy]: [st_evaluate] takes the result id the source draws. *)
Record Strategy : Type := mkStrategy {
  st_name : string;
  st_version : string;
  st_evaluate : uuid -> ConsensusContext -> res ConsensusResult;
  st_explain : ConsensusResult -> res ConsensusExplanation
}.

Section builtin.
Context `{ContextDump} `{SetIter uuid}.

Definition WeightedStrategy : Strategy :=
  mkStrategy Weighted.name Weighted.version Weighted.evaluate Weighted.explain.
Definition EvidenceWeightedStrategy : Strategy :=
  mkStrategy Evidence.name Evidence.version Evidence.evaluate Evidence.explain.
Definition ConstraintAwareStrategy : Strategy :=
  mkStrategy Constraint.name Constraint.version Constraint.evaluate Constraint.explain.

Definition builtin_strategies : list Strategy :=
  [WeightedStrategy; EvidenceWeightedStrategy; ConstraintAwareStrategy].

End builtin.

(** ** Registry *)

Definition _required (value label : string) : res string :=
  _ ← guard_not (String.eqb value "") ConsensusErrorC (label +:+ " must be non-empty");
  Ok value.

Abbreviation registry := (gmap (string * string) Strategy).

(** One strategy of the constructor's loop. *)
Definition register_step (documented_names : option (gset string)) (registered : registry)
    (strategy : Strategy) : res registry :=
  name ← _required (st_name strategy) "strategy name";
  version ← _required (st_version strategy) "version";
  _ ← guard_not (match documented_names with
                 | Some names => negb (bool_decide (name ∈ names))
                 | None => false
                 end)
        ConsensusErrorC ("strategy '" +:+ name +:+ "' has no formal document (S-1, FR-608)");
  _ ← guard_not (is_some (registered !! (name, version)))
        ConsensusErrorC ("duplicate consensus strategy " +:+ name +:+ "@" +:+ version);
  Ok (<[(name, version) := strategy]> registered).

(** [StrategyRegistry(strategies, documented_names=...)] *)
Definition new_registry (documented_names : option (gset string)) (strategies : list Strategy)
    : res registry :=
  foldR (register_step documented_names) ∅ strategies.

Definition resolve (r : registry) (name version : string) : res Strategy :=
  res_of_option ConsensusErrorC ("unknown consensus strategy " +:+ name +:+ "@" +:+ version)
    (r !! (name, version)).

Definition names (r : registry) : gset string := set_map fst (dom r).

(** ** Orchestrator *)

(** The part of [ConsensusResultStore] that [run] calls. *)
Class ResultStore (St : Type) : Type := {
  add_result : ConsensusRunRecord -> ST St unit;
  add_explanation : uuid -> uuid -> ConsensusExplanation -> ST St unit
}.

(** [except ConsensusError: raise / except Exception as exc: raise ConsensusError(...)] *)
Definition as_consensus_error {A} (strategy : Strategy) (m : res A) : res A :=
  match m with
  | Ok a => Ok a
  | Raise e =>
      if decide (exn_cls e = ConsensusErrorC) then Raise e
      else raise ConsensusErrorC ("strategy " +:+ st_name strategy +:+ "@" +:+ st_version strategy +:+
                                  " failed: " +:+ exn_msg e)
  end.

Definition record_of (workspace_id : uuid) (now : datetime) (result : ConsensusResult)
    : ConsensusRunRecord :=
  mkRunRecord (rs_result_id result) workspace_id (rs_session_id result) (rs_round result)
    (rs_strategy result) (rs_strategy_version result) (rs_outcome result)
    (rs_selected_alternative_id result) (rs_pareto_set result)
    (dec_str <$> rs_support result) (dec_str <$> rs_dissent_ratio result)
    (dec_str <$> rs_abstention_ratio result) None
    [("blocking_constraints", JList (map JStr (rs_blocking_constraints result)));
     ("blocking_critiques", JList (map (fun c => JStr (uuid_str c)) (rs_blocking_critiques result)))]
    (rs_conditions result) (rs_input_hash result) now.

(** What [run] computes before it touches the store. *)
Definition prepare (r : registry) (workspace_id result_id : uuid) (now : datetime) (context : ConsensusContext)
    : res (ConsensusResult * ConsensusExplanation * ConsensusRunRecord) :=
  strategy ← resolve r (sc_strategy_name (cx_strategy_config context))
               (sc_strategy_version (cx_strategy_config context));
  result ← as_consensus_error strategy (st_evaluate strategy result_id context);
  explanation ← st_explain strategy result;
  record ← new_run_record (record_of workspace_id now result);
  Ok (result, explanation, record).

Definition run `{ResultStore St} (r : registry) (workspace_id result_id : uuid) (now : datetime)
    (context : ConsensusContext) : ST St ConsensusResult :=
  '(result, explanation, record) ← lift_res (prepare r workspace_id result_id now context);
  _ ← add_result record;
  _ ← add_explanation workspace_id (rs_result_id result) explanation;
  mret result.

(** ** The interface *)

Class StrategyLaws `{ContextDump} `{SetIter uuid} (s : Strategy) : Prop := {
  laws_contract : forall id c r,
    ConsensusContext_validate c = Ok () -> st_evaluate s id c = Ok r ->
    result_contract (st_name s) (st_version s) c r;
  laws_explain : forall r, new_result r = Ok r -> exists e, st_explain s r = Ok e
}.

Lemma empty_explanation_total r formula w t cv :
  new_result r = Ok r -> filled formula = true -> exists e, _empty_explanation r formula w t cv = Ok e.
Proof.
  intros (_ & Hf & _)%new_result_Ok Hfm. unfold result_fields_ok in Hf. rewrite !andb_true_iff in Hf.
  destruct_and!. eexists. apply construct_Ok. split; [|done]. cbn.
  rewrite !andb_true_iff. split_and!; done.
Qed.

#[export] Instance weighted_laws `{ContextDump} `{SetIter uuid} : StrategyLaws WeightedStrategy.
Proof.
  split; cbn; [intros id c r; apply Weighted.weighted_evaluate_contract|]. intros r Hr. by apply empty_explanation_total.
Qed.

#[export] Instance evidence_laws `{ContextDump} `{SetIter uuid} : StrategyLaws EvidenceWeightedStrategy.
Proof.
  split; cbn; [intros id c r; apply Evidence.evidence_evaluate_contract|]. intros r Hr. by apply empty_explanation_total.
Qed.

#[export] Instance constraint_laws `{ContextDump} `{SetIter uuid} : StrategyLaws ConstraintAwareStrategy.
Proof.
  split; cbn; [intros id c r; apply Constraint.constraint_evaluate_contract|]. intros r Hr. by apply empty_explanation_total.
Qed.

Lemma builtin_laws `{ContextDump} `{SetIter uuid} s : s ∈ builtin_strategies -> StrategyLaws s.
Proof.
  unfold builtin_strategies. intros Hs. repeat (apply elem_of_cons in Hs as [->|Hs]; [apply _|]).
  by apply not_elem_of_nil in Hs.
Qed.

(** ** The registry *)

Definition strategy_key (s : Strategy) : string * string := (st_name s, st_version s).

(** S-1: what lets a strategy register. *)
Definition admissible (documented_names : option (gset string)) (s : Strategy) : Prop :=
  st_name s <> "" /\ st_version s <> "" /\
  match documented_names with Some ds => st_name s ∈ ds | None => True end.

Lemma required_Ok v label v' : _required v label = Ok v' <-> v <> "" /\ v' = v.
Proof.
  unfold _required, guard_not, raise. destruct (String.eqb_spec v ""); cbn; [naive_solver|].
  split; [by intros [= <-]|by intros [_ ->]].
Qed.

Lemma register_step_Ok docs reg s reg' :
  register_step docs reg s = Ok reg' <->
  admissible docs s /\ reg !! strategy_key s = None /\ reg' = <[strategy_key s := s]> reg.
Proof.
  unfold register_step, admissible, strategy_key. split.
  - intros (n & [Hn ->]%required_Ok & H)%bind_Ok. apply bind_Ok in H as (v & [Hv ->]%required_Ok & H).
    apply bind_Ok in H as ([] & Hd%guard_not_Ok & H). apply bind_Ok in H as ([] & Hk%guard_not_Ok & H).
    injection H as <-. split_and!; try done.
    + destruct docs; [|done]. by apply negb_false_iff, bool_decide_eq_true in Hd.
    + by destruct (reg !! _).
  - intros ((Hn & Hv & Hd) & Hnone & ->).
    rewrite (proj2 (required_Ok _ _ _) (conj Hn eq_refl)). cbn [mbind res_bind].
    rewrite (proj2 (required_Ok _ _ _) (conj Hv eq_refl)). cbn [mbind res_bind].
    destruct docs; [rewrite bool_decide_true by done|]; cbn; by rewrite Hnone.
Qed.

Lemma registry_lookup docs reg ss reg' k :
  foldR (register_step docs) reg ss = Ok reg' ->
  forall s, reg' !! k = Some s <-> (s ∈ ss /\ strategy_key s = k) \/ reg !! k = Some s.
Proof.
  revert reg; induction ss as [|x ss IH]; intros reg; cbn [foldR].
  { intros [= <-] s. set_solver. }
  intros (reg1 & (_ & Hnone & ->)%register_step_Ok & Hf)%bind_Ok s.
  rewrite (IH _ Hf s), elem_of_cons. destruct (decide (strategy_key x = k)) as [<-|Hne].
  - rewrite lookup_insert_eq, Hnone. split.
    + intros [[? ?]|[= <-]]; auto.
    + intros [[[->|?] ?]|[=]]; auto.
  - rewrite lookup_insert_ne by done. split.
    + intros [[? ?]|?]; auto.
    + intros [[[->|?] ?]|?]; auto. congruence.
Qed.

Lemma registry_total docs reg ss :
  is_ok (foldR (register_step docs) reg ss) = true <->
  Forall (admissible docs) ss /\ NoDup (map strategy_key ss) /\
  forall s, s ∈ ss -> reg !! strategy_key s = None.
Proof.
  revert reg; induction ss as [|x ss IH]; intros reg; cbn [foldR map].
  { split; [|done]. intros _. split_and!; [constructor..|]. intros s Hs. by apply not_elem_of_nil in Hs. }
  rewrite is_ok_bind. split.
  - intros (reg1 & (Ha & Hn & ->)%register_step_Ok & (Hall & Hnd & Hf)%IH).
    split_and!; [by constructor| |].
    + apply NoDup_cons. split; [|done]. intros Hin%list_elem_of_fmap. destruct Hin as (y & Hxy & Hy).
      specialize (Hf y Hy). rewrite <- Hxy, lookup_insert_eq in Hf. done.
    + intros s [->|Hs]%elem_of_cons; [done|]. specialize (Hf s Hs).
      by apply lookup_insert_None in Hf as [? _].
  - intros ([Ha Hall]%Forall_cons & [Hx Hnd]%NoDup_cons & Hf).
    exists (<[strategy_key x := x]> reg). split; [apply register_step_Ok; split_and!; [done| |done]; apply Hf; set_solver|].
    apply IH. split_and!; [done..|]. intros s Hs. apply lookup_insert_None. split; [apply Hf; set_solver|].
    intros Heq. apply Hx. rewrite Heq. by apply list_elem_of_fmap_2.
Qed.

(** S-1 and FR-608: a registry is built exactly when every strategy is named,
    versioned and documented and no two share a key; it then resolves a key to
    the strategy registered under it and nothing else. *)
Theorem registry_sound docs ss :
  (is_ok (new_registry docs ss) = true <-> Forall (admissible docs) ss /\ NoDup (map strategy_key ss)) /\
  forall reg, new_registry docs ss = Ok reg ->
    forall name version s, resolve reg name version = Ok s <->
      s ∈ ss /\ st_name s = name /\ st_version s = version.
Proof.
  split.
  - unfold new_registry. rewrite registry_total. split; [tauto|]. intros [? ?]. split_and!; try done.
  - intros reg Hreg n v s. unfold resolve, res_of_option.
    pose proof (registry_lookup _ _ _ _ (n, v) Hreg s) as Hl. rewrite lookup_empty in Hl.
    unfold strategy_key in Hl. destruct (reg !! (n, v)) as [s'|]; split.
    + intros [= ->]. destruct (proj1 Hl eq_refl) as [[Hin Hk]|Hk]; [|done]. by injection Hk as -> ->.
    + intros (Hin & <- & <-). pose proof (proj2 Hl (or_introl (conj Hin eq_refl))) as [= ->]. done.
    + done.
    + intros (Hin & <- & <-). discriminate (proj2 Hl (or_introl (conj Hin eq_refl))).
Qed.

(** ** The orchestrator *)

Lemma record_of_valid ws now r :
  new_result r = Ok r -> new_run_record (record_of ws now r) = Ok (record_of ws now r).
Proof.
  intros (_ & Hf & Hi)%new_result_Ok. unfold result_fields_ok in Hf. rewrite !andb_true_iff in Hf.
  unfold result_invariants in Hi. apply bind_Ok in Hi as ([] & _ & Hi). apply guard_not_Ok in Hi.
  unfold new_run_record, construct, run_record_fields_ok. cbn.
  destruct_and!. repeat match goal with H : _ = true |- _ => rewrite H; clear H end. cbn.
  unfold selection_feasibility. cbn. by rewrite Hi.
Qed.

Section orchestrator.
Context `{ContextDump} `{SetIter uuid} `{ResultStore St} (reg : registry).
Context (s : Strategy) (c : ConsensusContext) (id ws : uuid) (now : datetime).
Hypothesis Hs : resolve reg (sc_strategy_name (cx_strategy_config c))
                  (sc_strategy_version (cx_strategy_config c)) = Ok s.

(** C22. FR-608 and NFR-006: a run of a lawful strategy on a validated context
    either raises [ConsensusError] without touching the store, exactly when the
    strategy raises, or stores one run record of the result and then one
    explanation of it, and returns the result; building the record and the
    explanation never fails. *)
Theorem orchestrator_run (Hlaws : StrategyLaws s) (Hc : ConsensusContext_validate c = Ok ()) :
  (forall e, st_evaluate s id c = Raise e -> forall st,
     exists e', run reg ws id now c st = (st, Raise e') /\ exn_cls e' = ConsensusErrorC) /\
  (forall r, st_evaluate s id c = Ok r ->
     exists ex, st_explain s r = Ok ex /\ new_run_record (record_of ws now r) = Ok (record_of ws now r) /\
       run reg ws id now c = (_ ← add_result (record_of ws now r);
                              _ ← add_explanation ws (rs_result_id r) ex;
                              mret r)).
Proof.
  split.
  - intros e He st. unfold run, prepare. rewrite Hs. cbn [mbind res_bind]. rewrite He. cbn.
    destruct (decide (exn_cls e = ConsensusErrorC)); eexists; split; try done.
  - intros r Hr. pose proof (laws_contract id c r Hc Hr) as Hrc.
    destruct (laws_explain r (rc_valid _ _ _ _ Hrc)) as (ex & Hex). exists ex. split; [done|].
    pose proof (record_of_valid ws now r (rc_valid _ _ _ _ Hrc)) as Hrec. split; [done|].
    unfold run, prepare. rewrite Hs. cbn [mbind res_bind]. rewrite Hr. cbn [as_consensus_error mbind res_bind].
    rewrite Hex. cbn [mbind res_bind]. rewrite Hrec. done.
Qed.

End orchestrator.

(** ** What every strategy of the source guarantees *)
Section rules.
Context `{ContextDump} `{SetIter uuid} (s : Strategy) (c : ConsensusContext) (id : uuid) (r : ConsensusResult).

Lemma builtin_contract :
  s ∈ builtin_strategies -> ConsensusContext_validate c = Ok () -> st_evaluate s id c = Ok r ->
  result_contract (st_name s) (st_version s) c r.
Proof. intros Hs%builtin_laws Hc Hr. by eapply laws_contract. Qed.

(** C1. FR-603 and C-1: a strategy selects an alternative only with a
    consensus outcome, never one with an UNSAT verdict, and the selected one is
    the first of the scores and gives the result's support; with a consensus
    outcome some alternative is selected. *)
Theorem selected_is_feasible (Hs : s ∈ builtin_strategies) (Hc : ConsensusContext_validate c = Ok ())
    (Hr : st_evaluate s id c = Ok r) :
  (selectable (rs_outcome r) = true <-> is_Some (rs_selected_alternative_id r)) /\
  forall a, rs_selected_alternative_id r = Some a ->
    (exists alt, alt ∈ cx_alternatives c /\ al_id alt = a) /\ status_of c a <> Some Feasibility.UNSAT /\
    exists sc, head (rs_scores r) = Some sc /\ as_alternative_id sc = a /\ rs_support r = Some (as_support sc).
Proof.
  pose proof (builtin_contract Hs Hc Hr) as Hrc. split.
  - split; [apply (rc_selects _ _ _ _ Hrc)|]. intros [a Ha]. by apply (rc_selected _ _ _ _ Hrc) in Ha as [? _].
  - intros a Ha. apply (rc_selected _ _ _ _ Hrc) in Ha as (_ & Hin & Hn & Hh). split; [|done].
    apply list_elem_of_fmap in Hin as (alt & -> & Hf). apply filter_elem in Hf as [Hf _]. eauto.
Qed.

(** C16. FR-602: the outcome is INFEASIBLE exactly when every alternative has an
    UNSAT verdict. *)
Theorem infeasible_iff_all_unsat (Hs : s ∈ builtin_strategies) (Hc : ConsensusContext_validate c = Ok ())
    (Hr : st_evaluate s id c = Ok r) :
  rs_outcome r = INFEASIBLE <->
  forall a, a ∈ cx_alternatives c -> gate_status (cx_feasibility c) a = Some Feasibility.UNSAT.
Proof. apply (rc_infeasible _ _ _ _ (builtin_contract Hs Hc Hr)). Qed.

(** C15. C-6 and the unanimity rule: full consensus is declared only with no
    unresolved blocking critique and with every position on the selected
    alternative in support or abstaining. *)
Theorem full_consensus_unblocked (Hs : s ∈ builtin_strategies) (Hc : ConsensusContext_validate c = Ok ())
    (Hr : st_evaluate s id c = Ok r) (Hf : rs_outcome r = FULL_CONSENSUS) :
  (forall k, k ∈ cx_critiques c -> cr_severity k = "BLOCKING" ->
     cr_resolution k ∉ ["OPEN"; "UNRESOLVED"; "DISPUTED"]) /\
  exists a, rs_selected_alternative_id r = Some a /\
    forall p, p ∈ cx_agent_positions c -> ap_alternative_id p = a -> ap_stance p ∈ ["SUPPORT"; "ABSTAIN"].
Proof.
  destruct (rc_full _ _ _ _ (builtin_contract Hs Hc Hr) Hf) as (Hb & a & Ha & Hall). split.
  - intros k Hk Hsev Hopen. assert (Hu : unresolved k = true) by by apply bool_decide_eq_true.
    assert (Hin : cr_critique_id k ∈ _blocking_critiques (cx_critiques c)).
    { apply list_elem_of_fmap_2, filter_elem. split; [done|]. by rewrite Hsev, Hu. }
    rewrite Hb in Hin. by apply not_elem_of_nil in Hin.
  - exists a. split; [done|]. intros p Hp Heq. apply (bool_decide_eq_true (ap_stance p ∈ ["SUPPORT"; "ABSTAIN"])).
    unfold all_supportive in Hall. eapply forallb_elem in Hall; [exact Hall|].
    apply filter_elem. split; [done|]. by apply bool_decide_true.
Qed.

(** FR-708 and C-8: the outcome is conditional exactly when the selected
    alternative's feasibility is UNKNOWN. *)
Theorem conditional_iff_unknown (Hs : s ∈ builtin_strategies) (Hc : ConsensusContext_validate c = Ok ())
    (Hr : st_evaluate s id c = Ok r) :
  rs_outcome r = CONDITIONAL_CONSENSUS <->
  exists a, rs_selected_alternative_id r = Some a /\ status_of c a = Some Feasibility.UNKNOWN.
Proof. apply (rc_conditional _ _ _ _ (builtin_contract Hs Hc Hr)). Qed.

(** FR-505: every dissenting position on a rankable alternative is reported,
    once per position and in order, in the dissent of the result, every opposing
    one in the minority report, and nothing else is. *)
Theorem dissent_is_complete (Hs : s ∈ builtin_strategies) (Hc : ConsensusContext_validate c = Ok ())
    (Hr : st_evaluate s id c = Ok r) :
  rs_dissent r = all_dissent c /\ rs_minority_report r = all_minority c /\
  forall d, d ∈ rs_dissent r <->
    exists p, p ∈ cx_agent_positions c /\ ap_alternative_id p ∈ candidates c /\
      ap_stance p ∈ ["OPPOSE"; "ABSTAIN"; "INSUFFICIENT_EVIDENCE"] /\ d = dissent_entry p.
Proof.
  pose proof (builtin_contract Hs Hc Hr) as Hrc. rewrite (rc_dissent _ _ _ _ Hrc), (rc_minority _ _ _ _ Hrc).
  split_and!; [done..|]. intros d. unfold all_dissent. rewrite list_elem_of_In, in_concat. split.
  - intros (l & Hl%list_elem_of_In%list_elem_of_fmap & Hd%list_elem_of_In). destruct Hl as (a & -> & Ha).
    apply list_elem_of_fmap in Hd as (p & -> & [Hp Hdis]%filter_elem).
    apply andb_true_iff in Hdis as [<-%bool_decide_eq_true Hst%bool_decide_eq_true]. eauto.
  - intros (p & Hp & Ha & Hst & ->). eexists. split.
    + apply list_elem_of_In, list_elem_of_fmap. eexists; split; [done|exact Ha].
    + apply list_elem_of_In, list_elem_of_fmap_2, filter_elem. split; [done|].
      unfold dissents. by rewrite !bool_decide_true.
Qed.

(** The scores of a result are of rankable alternatives, ranked 1 to n in
    the order they are listed. *)
Theorem ranks_are_positions (Hs : s ∈ builtin_strategies) (Hc : ConsensusContext_validate c = Ok ())
    (Hr : st_evaluate s id c = Ok r) :
  (forall i sc, rs_scores r !! i = Some sc -> as_rank sc = Z.of_nat (S i)) /\
  (forall sc, sc ∈ rs_scores r -> as_alternative_id sc ∈ candidates c).
Proof.
  pose proof (builtin_contract Hs Hc Hr) as Hrc. split; [|apply (rc_scored _ _ _ _ Hrc)].
  intros i sc Hi. pose proof (f_equal (fun l => l !! i) (rc_ranks _ _ _ _ Hrc)) as Heq. cbn in Heq.
  rewrite list_lookup_imap in Heq. change (map as_rank (rs_scores r)) with (as_rank <$> rs_scores r) in Heq.
  rewrite list_lookup_fmap, Hi in Heq. by injection Heq.
Qed.

End rules.
