(* ===== verification/ConsensusExamples.v ===== *)
(** * Concrete consensus runs

    Contexts the strategies are evaluated on, and the theorems of the consensus
    components applied to them. *)

From S2P Require Import Prelude.
From S2P Require Import PyDecimal.
From S2P Require Import Json.
From S2P Require Import Symbolic.
From S2P Require Import ConsensusPorts.
From S2P Require Import Gate.
From S2P Require Import ConsensusHelpers.
From S2P Require Import ConsensusFacts.
From S2P Require Import Weighted.
From S2P Require Import EvidenceWeighted.
From S2P Require Import ConstraintAware.
From S2P Require Import Orchestrator.

Module Demo.

(** Any serialisation serves; this one keeps the round. *)
#[global] Instance dump : ContextDump := {| dump_context c := JObj [("round", JInt (cx_round c))] |}.

Definition position (agent alt : uuid) (stance : string) : AgentPosition :=
  mkPosition agent "1" alt stance (Dec false 9 (-1)) "because" [20%N].

Definition citation : EvidenceCitationInput :=
  mkCitation 20 "CROSS_CHECKED" "PRIMARY" "SUPPORT" "journal".

(** Three alternatives: one proved feasible, one unknown, one infeasible. *)
Definition context (strategy : string) (positions : list AgentPosition) (critiques : list CritiqueInput)
    (params : dict string json) : ConsensusContext :=
  mkContext 1 3
    [mkAlternative 1 "keep"; mkAlternative 2 "grow"; mkAlternative 3 "close"] [] positions [citation] []
    critiques
    [mkObjective 30 "cost" (Dec false 10 (-1)) "MAX" []] []
    [mkVerdict 1 Feasibility.SAT [] None None; mkVerdict 2 Feasibility.UNKNOWN [] None (Some "timeout");
     mkVerdict 3 Feasibility.UNSAT ["budget"] None None]
    (mkStrategyConfig strategy "1.0.0" params)
    [(uuid_str 30, [(uuid_str 1, "0.5"); (uuid_str 2, "0.25")])].

Definition supporters : list AgentPosition :=
  [position 10 1 "SUPPORT"; position 11 1 "SUPPORT"; position 12 2 "OPPOSE"].

Definition agreed : ConsensusContext := context "constraint_aware" supporters [] [].

Definition decided (s : Strategy) (c : ConsensusContext) : ConsensusResult :=
  match st_evaluate s 7 c with Ok r => r | Raise _ => mkResult 0 0 0 "" "" DEADLOCK [] None [] None None None [] [] [] false "" [] [] [] [] 0 end.

Definition summary (s : Strategy) (c : ConsensusContext) :=
  match st_evaluate s 7 c with
  | Ok r => Ok (rs_outcome r, rs_selected_alternative_id r, map as_alternative_id (rs_scores r),
                dec_str <$> rs_support r, map de_agent_id (rs_dissent r))
  | Raise e => Raise e
  end.

Example agreed_runs :
  map (fun s => summary s agreed) builtin_strategies
  = [Ok (FULL_CONSENSUS, Some 1, [1; 2], Some "1", [12]);
     Ok (FULL_CONSENSUS, Some 1, [1; 2], Some "1", [12]);
     Ok (FULL_CONSENSUS, Some 1, [1], Some "1", [12])]%N.
Proof. vm_compute. reflexivity. Qed.


Definition strategy : Strategy := ConstraintAwareStrategy.
Definition result : ConsensusResult := Eval vm_compute in decided strategy agreed.

Lemma agreed_valid : ConsensusContext_validate agreed = Ok ().
Proof. vm_compute. reflexivity. Defined.

Lemma strategy_builtin : strategy ∈ builtin_strategies.
Proof. do 2 right. left. Defined.

Lemma result_evaluated : st_evaluate strategy 7 agreed = Ok result.
Proof. vm_compute. reflexivity. Defined.

(** The store as the list of what was written to it. *)
Inductive entry : Type :=
| StoredRecord (r : ConsensusRunRecord)
| StoredExplanation (ws id : uuid) (e : ConsensusExplanation).

#[global] Instance log_store : ResultStore (list entry) :=
  {| add_result r st := (st ++ [StoredRecord r], Ok ());
     add_explanation ws id e st := (st ++ [StoredExplanation ws id e], Ok ()) |}.

Definition demo_registry : registry := {[ strategy_key strategy := strategy ]}.

Lemma orchestrator_run_witness :
  resolve demo_registry "constraint_aware" "1.0.0" = Ok strategy /\
  exists ex, st_explain strategy result = Ok ex /\
    run demo_registry 9 7 (utc_datetime 0) agreed []
    = ([StoredRecord (record_of 9 (utc_datetime 0) result); StoredExplanation 9 7 ex], Ok result).
Proof.
  split; [reflexivity|].
  destruct (orchestrator_run demo_registry strategy agreed 7 9 (utc_datetime 0) eq_refl _ agreed_valid)
    as [_ Hrun].
  destruct (Hrun result result_evaluated) as (ex & Hex & _ & Heq).
  exists ex. split; [exact Hex|]. rewrite Heq. reflexivity.
Defined.

Lemma selected_is_feasible_witness :
  exists alt, alt ∈ cx_alternatives agreed /\ al_id alt = 1%N.
Proof.
  destruct (selected_is_feasible strategy agreed 7 result strategy_builtin agreed_valid result_evaluated)
    as [_ Hsel]. exact (proj1 (Hsel 1%N eq_refl)).
Defined.

Lemma infeasible_iff_all_unsat_witness :
  ~ (forall a, a ∈ cx_alternatives agreed -> gate_status (cx_feasibility agreed) a = Some Feasibility.UNSAT).
Proof.
  intros Hall.
  apply (infeasible_iff_all_unsat strategy agreed 7 result strategy_builtin agreed_valid result_evaluated) in Hall.
  discriminate Hall.
Defined.

Lemma full_consensus_unblocked_witness :
  exists a, rs_selected_alternative_id result = Some a /\
    forall p, p ∈ cx_agent_positions agreed -> ap_alternative_id p = a -> ap_stance p ∈ ["SUPPORT"; "ABSTAIN"].
Proof.
  exact (proj2 (full_consensus_unblocked strategy agreed 7 result strategy_builtin agreed_valid
    result_evaluated eq_refl)).
Defined.

(** Only the UNKNOWN alternative has support: it is selected, conditionally. *)
Definition unresolved_context : ConsensusContext :=
  context "constraint_aware" [position 10 2 "SUPPORT"; position 11 2 "SUPPORT"] [] [].
Definition unresolved_result : ConsensusResult := Eval vm_compute in decided strategy unresolved_context.

Lemma conditional_iff_unknown_witness :
  exists a, rs_selected_alternative_id unresolved_result = Some a /\
            status_of unresolved_context a = Some Feasibility.UNKNOWN.
Proof.
  apply (conditional_iff_unknown strategy unresolved_context 7 unresolved_result strategy_builtin);
    vm_compute; reflexivity.
Defined.

Lemma dissent_is_complete_witness : rs_dissent result = all_dissent agreed /\ length (rs_dissent result) = 1%nat.
Proof.
  split; [|reflexivity].
  exact (proj1 (dissent_is_complete strategy agreed 7 result strategy_builtin agreed_valid result_evaluated)).
Defined.

Lemma ranks_are_positions_witness :
  exists sc, rs_scores result !! 0%nat = Some sc /\ as_rank sc = 1%Z.
Proof.
  destruct (rs_scores result !! 0%nat) as [sc|] eqn:E; [|vm_compute in E; discriminate].
  exists sc. split; [reflexivity|].
  exact (proj1 (ranks_are_positions strategy agreed 7 result strategy_builtin agreed_valid result_evaluated) 0%nat sc E).
Defined.

(** ** Totality and ranking *)

Lemma agreed_values_fit : Constraint.objective_values_fit agreed.
Proof.
  intros o a raw Ho%list_elem_of_singleton Ha Hraw. subst o.
  assert (Hc : candidates agreed = [1%N; 2%N]) by (vm_compute; reflexivity). rewrite Hc in Ha.
  apply elem_of_cons in Ha as [->|Ha%list_elem_of_singleton]; [|subst a];
    vm_compute in Hraw; injection Hraw as <-; eexists; (split; [reflexivity|]); vm_compute; congruence.
Defined.

Lemma agreed_values_parse : objective_values_parse agreed.
Proof.
  intros o a raw Ho Ha Hraw. destruct (agreed_values_fit o a raw Ho Ha Hraw) as (d & Hd & _). by exists d.
Defined.

Lemma weighted_total_witness : exists r, Weighted.evaluate 7 agreed = Ok r.
Proof.
  apply (Weighted.weighted_total agreed 7); [exact agreed_valid|vm_compute; reflexivity|exact agreed_values_parse].
Defined.

Lemma evidence_weighted_total_witness : exists r, Evidence.evaluate 7 agreed = Ok r.
Proof.
  eapply (Evidence.evidence_weighted_total agreed 7);
    [exact agreed_valid|vm_compute; reflexivity|vm_compute; reflexivity|exact agreed_values_parse].
Defined.

Lemma constraint_aware_total_witness : exists r, Constraint.evaluate 7 agreed = Ok r.
Proof.
  eapply (Constraint.constraint_aware_total agreed 7);
    [exact agreed_valid|vm_compute; reflexivity|vm_compute; reflexivity|vm_compute; reflexivity|exact agreed_values_fit].
Defined.

Definition weighted_params : Weighted.params :=
  Weighted.mkParams false EXCLUDE (Dec false 66 (-2)) (Dec false 5 (-1)) (Dec false 5 (-1)) None.

Definition weighted_rows : list Weighted.row :=
  Eval vm_compute in
  match mapR (Weighted.evaluate_alternative weighted_params agreed (gate_spec (cx_alternatives agreed) (cx_feasibility agreed)))
          (fg_rankable (gate_spec (cx_alternatives agreed) (cx_feasibility agreed))) with
  | Ok rows => rows
  | Raise _ => []
  end.

Lemma ranking_sound_witness :
  map as_alternative_id (Weighted.rank_rows weighted_rows) ≡ₚ candidates agreed /\ length weighted_rows = 2%nat.
Proof.
  split; [|reflexivity].
  refine (proj1 (Weighted.ranking_sound weighted_params agreed weighted_rows agreed_valid _)).
  vm_compute. reflexivity.
Defined.

Lemma publisher_cap_witness :
  List.filter (Evidence.by_publisher "journal") (Evidence._capped_by_publisher [citation; citation; citation] 2)
  = [citation; citation].
Proof. rewrite (Evidence.publisher_cap [citation; citation; citation] 2 "journal"); [reflexivity|lia]. Defined.

Lemma gate_partitions_witness :
  exists g, feasibility_gate (cx_alternatives agreed) (cx_feasibility agreed) = Ok g /\
            fg_all_infeasible g = false.
Proof.
  destruct (gate_partitions agreed agreed_valid) as (g & Hg & -> & _). eexists. split; [exact Hg|reflexivity].
Defined.

(** ** Two behaviours the documents do not announce *)

(** An alternative of UNKNOWN feasibility that every agent opposes is still
    selected: the UNKNOWN cap replaces the outcome the thresholds gave, also
    when that outcome was no consensus. *)
Example unknown_replaces_no_consensus :
  summary WeightedStrategy
    (mkContext 1 1 [mkAlternative 2 "grow"] [] [position 10 2 "OPPOSE"] [] [] [] [] []
       [mkVerdict 2 Feasibility.UNKNOWN [] None (Some "timeout")] (mkStrategyConfig "weighted" "1.0.0" []) [])
  = Ok (CONDITIONAL_CONSENSUS, Some 2%N, [2%N], Some "0", [10%N]).
Proof. vm_compute. reflexivity. Qed.

(** A negative dominance margin makes two equal alternatives dominate each
    other; the undominated set is then empty and the leader's index is out of
    range. *)
Example negative_margin_fails :
  summary ConstraintAwareStrategy
    (mkContext 1 1 [mkAlternative 1 "keep"; mkAlternative 2 "grow"] []
       [position 10 1 "SUPPORT"; position 11 2 "SUPPORT"] [citation] [] []
       [mkObjective 30 "cost" (Dec false 10 (-1)) "MAX" []] [] []
       (mkStrategyConfig "constraint_aware" "1.0.0" [("epsilon", JStr "-0.01")])
       [(uuid_str 30, [(uuid_str 1, "0.5"); (uuid_str 2, "0.5")])])
  = raise IndexErrorC "tuple index out of range".
Proof. vm_compute. reflexivity. Qed.

(** A citation weight of minus one makes the balance of a position's evidence
    divide by zero. *)
Definition weighted_minus_one : ConsensusContext :=
  mkContext 1 1 [mkAlternative 1 "keep"; mkAlternative 2 "grow"] []
    [position 10 1 "SUPPORT"; position 11 2 "SUPPORT"] [citation] [] []
    [mkObjective 30 "cost" (Dec false 10 (-1)) "MAX" []] [] []
    (mkStrategyConfig "constraint_aware" "1.0.0" [("verification_weights", JObj [("CROSS_CHECKED", JStr "-1")])])
    [(uuid_str 30, [(uuid_str 1, "0.5"); (uuid_str 2, "0.5")])].

Example negative_weight_fails :
  ConsensusContext_validate weighted_minus_one = Ok () /\
  match summary ConstraintAwareStrategy weighted_minus_one with Raise e => exn_cls e = ZeroDivisionC | Ok _ => False end.
Proof. vm_compute. split; reflexivity. Qed.

End Demo.
