(* ===== verification/Ledger.v ===== *)
(** * The reasoning ledger

    [app/domain/reasoning_ledger.py]: the append command, the persisted event,
    its hash preimage and the verification result;
    [app/db/reasoning_ledger.py]: [append], [read], [get_by_id], [verify] over
    the two tables.  A table is the list of its rows in insertion order; a
    [select] is a filter, [order_by] a stable sort, [limit] a prefix. *)

From S2P Require Import Prelude.
From S2P Require Import Sha256.
From S2P Require Import Clock.
From S2P Require Import Json.
From S2P Require Import Symbolic.
From S2P Require Import ConsensusPorts.
From S2P Require Import ConsensusFacts.

(** ** Values *)

Inductive ActorClass : Type := HUMAN | AGENT | SERVICE | POLICY.

#[export] Instance ActorClass_eq_dec : EqDecision ActorClass.
Proof. solve_decision. Defined.

Definition actor_class_value (a : ActorClass) : string :=
  match a with HUMAN => "HUMAN" | AGENT => "AGENT" | SERVICE => "SERVICE" | POLICY => "POLICY" end.

(** [ActorClass(text)] *)
Definition actor_class_of (s : string) : res ActorClass :=
  match s with
  | "HUMAN" => Ok HUMAN
  | "AGENT" => Ok AGENT
  | "SERVICE" => Ok SERVICE
  | "POLICY" => Ok POLICY
  | _ => raise ValueErrorC "not a valid ActorClass"
  end.

Definition GENESIS_HASH : string :=
  "sha256:0000000000000000000000000000000000000000000000000000000000000000".

Definition _aware_utc (value : datetime) : res datetime :=
  match dt_offset value with
  | None => raise ValueErrorC "timestamp must include an RFC 3339 offset"
  | Some _ => Ok (utc_datetime (dt_utc value))
  end.

Record LedgerAppend : Type := mkAppend {
  la_id : uuid;
  la_workspace_id : uuid;
  la_session_id : uuid;
  la_event_type : string;
  la_payload_schema_version : Z;
  la_causation_id : option uuid;
  la_correlation_id : uuid;
  la_actor_class : ActorClass;
  la_actor_id : uuid;
  la_round : Z;
  la_payload : dict string json;
  la_recorded_at : datetime
}.

(** [LedgerEvent(LedgerAppend)] *)
Record LedgerEvent : Type := mkEvent {
  le_append : LedgerAppend;
  le_ledger_seq : Z;
  le_payload_hash : string;
  le_prev_hash : string;
  le_event_hash : string
}.

Definition ledger_payload_hash (payload : dict string json) : res string := content_hash (JObj payload).

Definition with_recorded_at (a : LedgerAppend) (t : datetime) : LedgerAppend :=
  mkAppend (la_id a) (la_workspace_id a) (la_session_id a) (la_event_type a) (la_payload_schema_version a)
    (la_causation_id a) (la_correlation_id a) (la_actor_class a) (la_actor_id a) (la_round a)
    (la_payload a) t.

(** Pydantic reports every field or validator failure as a [ValidationError]. *)
Definition validated {A} (model : string) (m : res A) : res A :=
  match m with Ok a => Ok a | Raise e => raise ValidationErrorC (model +:+ ": " +:+ exn_msg e) end.

(** The field constraints and validators of [LedgerAppend]; the timestamp is
    replaced by its UTC reading. *)
Definition LedgerAppend_fields_ok (a : LedgerAppend) : bool :=
  filled (la_event_type a) && negb (blank (la_event_type a)) && (0 <? la_payload_schema_version a)%Z
  && (0 <=? la_round a)%Z.

Definition new_append (a : LedgerAppend) : res LedgerAppend :=
  validated "LedgerAppend"
    (_ ← guard_not (negb (LedgerAppend_fields_ok a)) ValueErrorC "event_type must not be blank";
     _ ← content_hash (JObj (la_payload a));
     t ← _aware_utc (la_recorded_at a);
     Ok (with_recorded_at a t)).

Definition new_event (e : LedgerEvent) : res LedgerEvent :=
  a ← new_append (le_append e);
  _ ← construct (fun e => (0 <? le_ledger_seq e)%Z && digest_ok (le_payload_hash e)
                          && digest_ok (le_prev_hash e) && digest_ok (le_event_hash e)) "LedgerEvent" e;
  Ok (mkEvent a (le_ledger_seq e) (le_payload_hash e) (le_prev_hash e) (le_event_hash e)).

Record LedgerVerification : Type := mkVerification {
  lv_valid : bool;
  lv_event_count : Z;
  lv_head_hash : string;
  lv_first_invalid_seq : option Z;
  lv_reason : option string
}.

(** [LedgerVerification.failure_shape] and the field constraints. *)
Definition failure_shape (v : LedgerVerification) : res unit :=
  _ ← guard_not (lv_valid v && (is_some (lv_first_invalid_seq v) || is_some (lv_reason v)))
        ValueErrorC "valid verification cannot describe a failure";
  guard_not (negb (lv_valid v) && is_none (lv_reason v))
    ValueErrorC "invalid verification requires a reason".

Definition new_verification (v : LedgerVerification) : res LedgerVerification :=
  _ ← construct (fun v => (0 <=? lv_event_count v)%Z && digest_ok (lv_head_hash v)
                          && opt_ok (fun z => 0 <? z)%Z (lv_first_invalid_seq v)) "LedgerVerification" v;
  _ ← validated "LedgerVerification" (failure_shape v);
  Ok v.

(** ** The hash preimage *)

Definition opt_uuid_json (u : option uuid) : json :=
  match u with Some u => JStr (uuid_str u) | None => JNull end.

Definition _timestamp (value : datetime) : res string := t ← _aware_utc value; Ok (stamp (dt_utc t)).

(** The object [ledger_event_hash] builds, on the text of the timestamp. *)
Definition event_preimage (e : LedgerEvent) (recorded_at : string) : json :=
  let a := le_append e in
  JObj [("actor_class", JStr (actor_class_value (la_actor_class a)));
        ("actor_id", JStr (uuid_str (la_actor_id a)));
        ("causation_id", opt_uuid_json (la_causation_id a));
        ("correlation_id", JStr (uuid_str (la_correlation_id a)));
        ("event_type", JStr (la_event_type a));
        ("id", JStr (uuid_str (la_id a)));
        ("ledger_seq", JInt (le_ledger_seq e));
        ("payload_hash", JStr (le_payload_hash e));
        ("payload_schema_version", JInt (la_payload_schema_version a));
        ("prev_hash", JStr (le_prev_hash e));
        ("recorded_at", JStr recorded_at);
        ("round", JInt (la_round a));
        ("session_id", JStr (uuid_str (la_session_id a)));
        ("workspace_id", JStr (uuid_str (la_workspace_id a)))].

Definition ledger_event_hash (e : LedgerEvent) : res string :=
  ts ← _timestamp (la_recorded_at (le_append e));
  content_hash (event_preimage e ts).

(** ** Tables *)

Record row : Type := mkRow {
  rw_id : uuid;
  rw_workspace_id : uuid;
  rw_session_id : uuid;
  rw_ledger_seq : Z;
  rw_event_type : string;
  rw_payload_schema_version : Z;
  rw_causation_id : option uuid;
  rw_correlation_id : uuid;
  rw_actor_class : string;
  rw_actor_id : uuid;
  rw_round : Z;
  rw_payload : dict string json;
  rw_payload_hash : string;
  rw_recorded_at : datetime;
  rw_prev_hash : string;
  rw_event_hash : string
}.

Record head : Type := mkHead { next_seq : Z; head_hash : string }.

(** The two tables and the [appended] list of the ledger object. *)
Record ledger : Type := mkLedger {
  lg_events : list row;
  lg_heads : gmap (uuid * uuid) head;
  lg_appended : list LedgerEvent
}.

Definition _event_from_row (r : row) : res LedgerEvent :=
  actor ← actor_class_of (rw_actor_class r);
  new_event (mkEvent
    (mkAppend (rw_id r) (rw_workspace_id r) (rw_session_id r) (rw_event_type r)
       (rw_payload_schema_version r) (rw_causation_id r) (rw_correlation_id r) actor (rw_actor_id r)
       (rw_round r) (rw_payload r) (rw_recorded_at r))
    (rw_ledger_seq r) (rw_payload_hash r) (rw_prev_hash r) (rw_event_hash r)).

(** The row [append] adds. *)
Definition row_of_event (e : LedgerEvent) : row :=
  let a := le_append e in
  mkRow (la_id a) (la_workspace_id a) (la_session_id a) (le_ledger_seq e) (la_event_type a)
    (la_payload_schema_version a) (la_causation_id a) (la_correlation_id a)
    (actor_class_value (la_actor_class a)) (la_actor_id a) (la_round a) (la_payload a)
    (le_payload_hash e) (la_recorded_at a) (le_prev_hash e) (le_event_hash e).

(** ** Operations *)

(** [event.payload] compared with Python's [==]: booleans are the integers 0 and
    1, objects are compared without order. *)
Fixpoint py_eqb (v w : json) {struct v} : bool :=
  match v, w with
  | JNull, JNull => true
  | JBool a, JBool b => Bool.eqb a b
  | JBool a, JInt z | JInt z, JBool a => (z =? (if a then 1 else 0))%Z
  | JInt a, JInt b => (a =? b)%Z
  | JFloat r, JFloat r' => String.eqb r r'
  | JStr s, JStr s' => String.eqb s s'
  | JList l, JList l' =>
      (fix go (l l' : list json) : bool :=
         match l, l' with
         | [], [] => true
         | x :: xs, y :: ys => py_eqb x y && go xs ys
         | _, _ => false
         end) l l'
  | JObj l, JObj l' =>
      (length l =? length l')%nat &&
      (fix go (l : dict string json) : bool :=
         match l with
         | [] => true
         | (k, x) :: xs => match dict_get k l' with Some y => py_eqb x y | None => false end && go xs
         end) l
  | _, _ => false
  end.

(** [_append_preimage(requested) == _append_preimage(existing)] *)
Definition same_append (a b : LedgerAppend) : bool :=
  bool_decide (la_id a = la_id b) && bool_decide (la_workspace_id a = la_workspace_id b)
  && bool_decide (la_session_id a = la_session_id b) && String.eqb (la_event_type a) (la_event_type b)
  && (la_payload_schema_version a =? la_payload_schema_version b)%Z
  && bool_decide (la_causation_id a = la_causation_id b)
  && bool_decide (la_correlation_id a = la_correlation_id b)
  && bool_decide (la_actor_class a = la_actor_class b) && bool_decide (la_actor_id a = la_actor_id b)
  && (la_round a =? la_round b)%Z && py_eqb (JObj (la_payload a)) (JObj (la_payload b)).

Definition _idempotent_result (requested : LedgerAppend) (existing : LedgerEvent) : res LedgerEvent :=
  _ ← guard_not (negb (same_append requested (le_append existing))) LedgerIntegrityErrorC
        ("reasoning event id " +:+ uuid_str (la_id requested) +:+
         " already exists with different caller values");
  Ok existing.

(** [session.get(ReasoningEventRow, event_id)] *)
Definition find_row (event_id : uuid) (l : list row) : option row :=
  List.find (fun r => bool_decide (rw_id r = event_id)) l.

Definition _event_by_id (event_id : uuid) (st : ledger) : res (option LedgerEvent) :=
  match find_row event_id (lg_events st) with
  | None => Ok None
  | Some r => e ← _event_from_row r; Ok (Some e)
  end.

Definition get_by_id (workspace_id session_id event_id : uuid) (st : ledger) : res (option LedgerEvent) :=
  event ← _event_by_id event_id st;
  Ok (match event with
      | Some e => if decide ((la_workspace_id (le_append e), la_session_id (le_append e))
                             = (workspace_id, session_id)) then Some e else None
      | None => None
      end).

(** The event [append] persists for a head. *)
Definition next_event (event : LedgerAppend) (h : head) : res LedgerEvent :=
  ph ← ledger_payload_hash (la_payload event);
  persisted ← new_event (mkEvent event (next_seq h) ph (head_hash h) GENESIS_HASH);
  eh ← ledger_event_hash persisted;
  Ok (mkEvent (le_append persisted) (le_ledger_seq persisted) (le_payload_hash persisted)
        (le_prev_hash persisted) eh).

(** [session.add(row); head.next_seq = ...; head.head_hash = ...; appended.append(...)] *)
Definition store_event (key : uuid * uuid) (e : LedgerEvent) (st : ledger) : ledger :=
  mkLedger (lg_events st ++ [row_of_event e])
    (<[key := mkHead (le_ledger_seq e + 1) (le_event_hash e)]> (lg_heads st))
    (lg_appended st ++ [e]).

Definition append (event : LedgerAppend) : ST ledger LedgerEvent :=
  st ← get_st;
  existing ← lift_res (_event_by_id (la_id event) st);
  match existing with
  | Some e => lift_res (_idempotent_result event e)
  | None =>
      let key := (la_workspace_id event, la_session_id event) in
      h ← lift_res (res_of_option LedgerIntegrityErrorC
            ("session " +:+ uuid_str (la_session_id event) +:+ " has no ledger head in workspace " +:+
             uuid_str (la_workspace_id event)) (lg_heads st !! key));
      existing' ← lift_res (_event_by_id (la_id event) st);
      match existing' with
      | Some e => lift_res (_idempotent_result event e)
      | None =>
          persisted ← lift_res (next_event event h);
          _ ← put_st (store_event key persisted st);
          mret persisted
      end
  end.

Definition of_session (workspace_id session_id : uuid) (r : row) : bool :=
  bool_decide (rw_workspace_id r = workspace_id) && bool_decide (rw_session_id r = session_id).

(** [select(...).where(...).order_by(ledger_seq)] *)
Definition session_rows (workspace_id session_id : uuid) (st : ledger) : list row :=
  sort_by (fun a b => rw_ledger_seq a <=? rw_ledger_seq b)%Z
    (List.filter (of_session workspace_id session_id) (lg_events st)).

Definition read (workspace_id session_id : uuid) (from_seq limit : Z) (st : ledger)
    : res (list LedgerEvent) :=
  _ ← guard_not (from_seq <=? 0)%Z ValueErrorC "from_seq must be positive";
  _ ← guard_not (limit <=? 0)%Z ValueErrorC "limit must be positive";
  mapR _event_from_row
    (take (Z.to_nat limit)
       (List.filter (fun r => from_seq <=? rw_ledger_seq r)%Z (session_rows workspace_id session_id st))).

(** The loop of [_verify_events], from the expected sequence number and the
    previous hash: the failure, or the last hash. *)
Fixpoint verify_loop (expected_seq : Z) (previous_hash : string) (events : list LedgerEvent)
    : res (string + (option Z * string)) :=
  match events with
  | [] => Ok (inl previous_hash)
  | e :: events' =>
      if negb (le_ledger_seq e =? expected_seq)%Z then
        Ok (inr (Some (le_ledger_seq e), "expected ledger sequence " +:+ Z_str expected_seq))
      else
        ph ← ledger_payload_hash (la_payload (le_append e));
        if negb (String.eqb (le_payload_hash e) ph) then
          Ok (inr (Some (le_ledger_seq e), "payload hash mismatch"))
        else if negb (String.eqb (le_prev_hash e) previous_hash) then
          Ok (inr (Some (le_ledger_seq e), "previous hash mismatch"))
        else
          eh ← ledger_event_hash e;
          if negb (String.eqb (le_event_hash e) eh) then
            Ok (inr (Some (le_ledger_seq e), "event hash mismatch"))
          else verify_loop (expected_seq + 1) (le_event_hash e) events'
  end.

Definition _verify_events (events : list LedgerEvent) (h : head) : res (option (option Z * string)) :=
  r ← verify_loop 1 GENESIS_HASH events;
  match r with
  | inr failure => Ok (Some failure)
  | inl previous_hash =>
      if negb (next_seq h =? Z.of_nat (length events) + 1)%Z then
        Ok (Some (None, "ledger head next sequence mismatch"))
      else if negb (String.eqb (head_hash h) previous_hash) then
        Ok (Some (None, "ledger head hash mismatch"))
      else Ok None
  end.

Definition verify (workspace_id session_id : uuid) (st : ledger) : res LedgerVerification :=
  match lg_heads st !! (workspace_id, session_id) with
  | None =>
      new_verification (mkVerification false 0 GENESIS_HASH None (Some "session ledger head is missing"))
  | Some h =>
      events ← mapR _event_from_row (session_rows workspace_id session_id st);
      failure ← _verify_events events h;
      match failure with
      | Some (failed_seq, reason) =>
          new_verification (mkVerification false (Z.of_nat (length events)) (head_hash h) failed_seq
                              (Some reason))
      | None => new_verification (mkVerification true (Z.of_nat (length events)) (head_hash h) None None)
      end
  end.

(** ** Valid chains *)

(** One event continues a chain at a sequence number and a previous hash. *)
Record links (seq : Z) (prev : string) (e : LedgerEvent) : Prop := {
  lk_seq : le_ledger_seq e = seq;
  lk_payload : ledger_payload_hash (la_payload (le_append e)) = Ok (le_payload_hash e);
  lk_prev : le_prev_hash e = prev;
  lk_hash : ledger_event_hash e = Ok (le_event_hash e)
}.

(** From a sequence number and hash to the hash of the last event. *)
Fixpoint chain (seq : Z) (prev : string) (es : list LedgerEvent) (final : string) : Prop :=
  match es with
  | [] => prev = final
  | e :: es' => links seq prev e /\ chain (seq + 1) (le_event_hash e) es' final
  end.

Lemma verify_loop_chain seq prev es final :
  verify_loop seq prev es = Ok (inl final) <-> chain seq prev es final.
Proof.
  revert seq prev; induction es as [|e es IH]; intros seq prev; cbn [verify_loop chain].
  { split; [by intros [= <-]|by intros ->]. }
  split.
  - destruct (Z.eqb_spec (le_ledger_seq e) seq) as [Hs|]; cbn [negb]; [|done].
    intros (ph & Hph & H)%bind_Ok. destruct (String.eqb_spec (le_payload_hash e) ph) as [<-|]; cbn [negb] in H; [|done].
    destruct (String.eqb_spec (le_prev_hash e) prev) as [Hp|]; cbn [negb] in H; [|done].
    apply bind_Ok in H as (eh & Heh & H). destruct (String.eqb_spec (le_event_hash e) eh) as [<-|]; cbn [negb] in H; [|done].
    by apply IH in H.
  - intros [[Hs Hp Hv Hh] Hc]. rewrite Hs, Z.eqb_refl. cbn [negb]. rewrite Hp. cbn [mbind res_bind].
    rewrite String.eqb_refl. cbn [negb]. rewrite Hv, String.eqb_refl. cbn [negb]. rewrite Hh. cbn [mbind res_bind].
    rewrite String.eqb_refl. cbn [negb]. by apply IH.
Qed.

Lemma verify_events_chain es h :
  _verify_events es h = Ok None <->
  chain 1 GENESIS_HASH es (head_hash h) /\ next_seq h = (Z.of_nat (length es) + 1)%Z.
Proof.
  unfold _verify_events. split.
  - intros (r & Hr & H)%bind_Ok. destruct r as [final|f]; [|done].
    destruct (Z.eqb_spec (next_seq h) (Z.of_nat (length es) + 1)) as [Hn|]; cbn [negb] in H; [|done].
    destruct (String.eqb_spec (head_hash h) final) as [<-|]; cbn [negb] in H; [|done].
    split; [by apply verify_loop_chain|done].
  - intros [Hc Hn]. apply verify_loop_chain in Hc. rewrite Hc. cbn [mbind res_bind].
    rewrite Hn, Z.eqb_refl, String.eqb_refl. done.
Qed.

Lemma chain_app seq prev es mid es' final :
  chain seq prev es mid -> chain (seq + Z.of_nat (length es)) mid es' final -> chain seq prev (es ++ es') final.
Proof.
  revert seq prev; induction es as [|e es IH]; intros seq prev; cbn [chain app].
  - intros -> H. by rewrite Z.add_0_r in H.
  - intros [Hl Hc] H. split; [done|]. apply IH; [done|]. cbn [length] in H.
    by replace (seq + 1 + Z.of_nat (length es))%Z with (seq + Z.of_nat (S (length es)))%Z by lia.
Qed.

Lemma chain_seq seq prev es final i e :
  chain seq prev es final -> es !! i = Some e -> le_ledger_seq e = (seq + Z.of_nat i)%Z.
Proof.
  revert seq prev i; induction es as [|x es IH]; intros seq prev i; [done|]. cbn [chain].
  intros [Hl Hc]. destruct i as [|i]; cbn.
  - intros [= <-]. rewrite (lk_seq _ _ _ Hl). lia.
  - intros H. rewrite (IH _ _ _ Hc H). lia.
Qed.

(** ** Validation is stable *)

Lemma validated_Ok {A} n (m : res A) a : validated n m = Ok a <-> m = Ok a.
Proof. by destruct m. Qed.

Lemma aware_utc_Ok t t' : _aware_utc t = Ok t' -> t' = utc_datetime (dt_utc t) /\ _aware_utc t' = Ok t'.
Proof.
  unfold _aware_utc. destruct (dt_offset t); [|done]. intros [= <-]. split; [done|].
  unfold utc_datetime, dt_utc. cbn. by rewrite Z.sub_0_r.
Qed.

Lemma new_append_Ok a a' :
  new_append a = Ok a' ->
  a' = with_recorded_at a (la_recorded_at a') /\ new_append a' = Ok a' /\
  (exists h, ledger_payload_hash (la_payload a') = Ok h) /\
  _aware_utc (la_recorded_at a') = Ok (la_recorded_at a').
Proof.
  unfold new_append. rewrite validated_Ok. intros ([] & Hf & H)%bind_Ok.
  apply bind_Ok in H as (h & Hh & H). apply bind_Ok in H as (t & Ht & [= <-]).
  apply aware_utc_Ok in Ht as [_ Ht].
  cbn [la_recorded_at la_payload with_recorded_at]. split; [done|]. split; [|split; [by exists h|done]].
  apply validated_Ok. change (LedgerAppend_fields_ok (with_recorded_at a t)) with (LedgerAppend_fields_ok a).
  rewrite Hf. cbn [mbind res_bind la_recorded_at la_payload with_recorded_at]. rewrite Hh.
  cbn [mbind res_bind]. by rewrite Ht.
Qed.

(** A command with an aware timestamp and a payload free of floats validates; one
    with a UTC timestamp as it is. *)
Lemma new_append_total a t :
  LedgerAppend_fields_ok a = true -> float_free (JObj (la_payload a)) = true ->
  _aware_utc (la_recorded_at a) = Ok t -> new_append a = Ok (with_recorded_at a t).
Proof.
  intros Hok Hf Ht. unfold new_append. rewrite Hok. cbn [negb guard_not mbind res_bind].
  assert (Hc : is_ok (content_hash (JObj (la_payload a))) = true) by by rewrite content_hash_total.
  apply is_ok_exists in Hc as (h & Hh). rewrite Hh. cbn [mbind res_bind]. by rewrite Ht.
Qed.

Lemma new_append_valid a :
  LedgerAppend_fields_ok a = true -> float_free (JObj (la_payload a)) = true ->
  _aware_utc (la_recorded_at a) = Ok (la_recorded_at a) -> new_append a = Ok a.
Proof. intros Hok Hf Ht. rewrite (new_append_total a _ Hok Hf Ht). by destruct a. Qed.

Definition event_fields_ok (e : LedgerEvent) : bool :=
  (0 <? le_ledger_seq e)%Z && digest_ok (le_payload_hash e) && digest_ok (le_prev_hash e)
  && digest_ok (le_event_hash e).

Lemma new_event_Ok e e' :
  new_event e = Ok e' <->
  exists a, new_append (le_append e) = Ok a /\ event_fields_ok e = true /\
    e' = mkEvent a (le_ledger_seq e) (le_payload_hash e) (le_prev_hash e) (le_event_hash e).
Proof.
  unfold new_event. split.
  - intros (a & Ha & H)%bind_Ok. apply bind_Ok in H as (e1 & [Hf _]%construct_Ok & [= <-]). eauto.
  - intros (a & Ha & Hf & ->). rewrite Ha. cbn [mbind res_bind]. unfold construct.
    unfold event_fields_ok in Hf. by rewrite Hf.
Qed.

(** A validated event is read back from its row unchanged. *)
Definition event_valid (e : LedgerEvent) : Prop := new_event e = Ok e.

Lemma new_event_valid e e' : new_event e = Ok e' -> event_valid e'.
Proof.
  intros (a & Ha & Hf & ->)%new_event_Ok. apply new_event_Ok. exists a.
  apply new_append_Ok in Ha as (_ & Ha & _). done.
Qed.

Lemma event_from_row_of_event e : event_valid e -> _event_from_row (row_of_event e) = Ok e.
Proof.
  intros He. unfold _event_from_row, row_of_event. cbn [rw_actor_class].
  replace (actor_class_of (actor_class_value (la_actor_class (le_append e)))) with (Ok (la_actor_class (le_append e)))
    by (by destruct (la_actor_class (le_append e))).
  cbn. destruct e as [a ? ? ? ?]; by destruct a.
Qed.

Lemma event_from_row_facts r e :
  _event_from_row r = Ok e ->
  event_valid e /\ le_ledger_seq e = rw_ledger_seq r /\ la_id (le_append e) = rw_id r /\
  la_workspace_id (le_append e) = rw_workspace_id r /\ la_session_id (le_append e) = rw_session_id r.
Proof.
  unfold _event_from_row. intros (actor & _ & H)%bind_Ok. split; [by eapply new_event_valid|].
  apply new_event_Ok in H as (a & Ha & _ & ->). apply new_append_Ok in Ha as (-> & _). done.
Qed.

Lemma content_hash_digest v h : content_hash v = Ok h -> digest_ok h = true.
Proof. unfold content_hash. intros (s & _ & [= <-])%bind_Ok. apply digest_ok_sha. Qed.

(** ** Appending to a chain *)

Lemma preimage_float_free e ts : float_free (event_preimage e ts) = true.
Proof. unfold event_preimage, opt_uuid_json. cbn. by destruct (la_causation_id _). Qed.

Lemma event_hash_total e : event_valid e -> exists h, ledger_event_hash e = Ok h.
Proof.
  intros (a & Ha & _ & He)%new_event_Ok. unfold ledger_event_hash, _timestamp.
  assert (Heq : le_append e = a) by (by rewrite He). rewrite Heq.
  apply new_append_Ok in Ha as (_ & _ & _ & ->). cbn [mbind res_bind].
  apply is_ok_exists. rewrite content_hash_total. apply preimage_float_free.
Qed.

Lemma next_event_total event h :
  new_append event = Ok event -> (0 < next_seq h)%Z -> digest_ok (head_hash h) = true ->
  exists e, next_event event h = Ok e /\ event_valid e /\ le_append e = event /\
    links (next_seq h) (head_hash h) e.
Proof.
  intros Ha Hn Hh. pose proof (new_append_Ok _ _ Ha) as (_ & _ & (ph & Hph) & _).
  unfold next_event. rewrite Hph. cbn [mbind res_bind].
  pose proof (content_hash_digest _ _ Hph) as Hpd.
  set (e0 := mkEvent event (next_seq h) ph (head_hash h) GENESIS_HASH).
  assert (He0 : event_valid e0).
  { apply new_event_Ok. exists event. split_and!; [done| |done]. unfold event_fields_ok, e0.
    cbn [le_ledger_seq le_payload_hash le_prev_hash le_event_hash]. rewrite Hpd, Hh.
    replace (0 <? next_seq h)%Z with true by lia. by vm_compute. }
  rewrite He0. cbn [mbind res_bind]. destruct (event_hash_total e0 He0) as (eh & Heh). rewrite Heh.
  cbn [mbind res_bind]. eexists; split; [done|]. split; [|split; [done|by split]].
  apply new_event_Ok. exists event. split_and!; [done| |done].
  unfold event_fields_ok. cbn. rewrite Hpd, Hh, (content_hash_digest (event_preimage e0 (stamp (dt_utc (la_recorded_at event)))) eh).
  - replace (0 <? next_seq h)%Z with true by lia. done.
  - unfold ledger_event_hash, _timestamp in Heh. cbn in Heh.
    by pose proof (new_append_Ok _ _ Ha) as (_ & _ & _ & Hu); rewrite Hu in Heh.
Qed.

(** ** The invariant of the tables *)

Definition rows_of (key : uuid * uuid) (st : ledger) : list row :=
  List.filter (of_session (fst key) (snd key)) (lg_events st).

Record ledger_inv (st : ledger) : Prop := {
  li_ids : NoDup (map rw_id (lg_events st));
  li_heads : forall r, r ∈ lg_events st -> is_Some (lg_heads st !! (rw_workspace_id r, rw_session_id r));
  li_chain : forall key h, lg_heads st !! key = Some h ->
    exists es, mapR _event_from_row (rows_of key st) = Ok es /\ _verify_events es h = Ok None
}.

Lemma chain_rows_sorted rows es seq prev final :
  mapR _event_from_row rows = Ok es -> chain seq prev es final ->
  StronglySorted (fun a b => (rw_ledger_seq a <=? rw_ledger_seq b)%Z = true) rows /\
  Forall (fun r => (seq <= rw_ledger_seq r)%Z) rows.
Proof.
  intros HF%mapR_Ok. revert seq prev; induction HF as [|r e rows es Hr HF IH]; intros seq prev; cbn [chain].
  { intros _. split; constructor. }
  intros [Hl Hc]. destruct (IH _ _ Hc) as [Hs Hall].
  apply event_from_row_facts in Hr as (_ & Hseq & _). rewrite (lk_seq _ _ _ Hl) in Hseq.
  split; constructor; try done; try lia.
  - eapply List.Forall_impl; [|exact Hall]. cbn. intros. lia.
  - eapply List.Forall_impl; [|exact Hall]. cbn. intros. lia.
Qed.

Lemma session_rows_inv st key h :
  ledger_inv st -> lg_heads st !! key = Some h -> session_rows (fst key) (snd key) st = rows_of key st.
Proof.
  intros Hi Hh. destruct (li_chain st Hi key h Hh) as (es & Hes & [Hc _]%verify_events_chain).
  apply sort_by_sorted_id. by eapply chain_rows_sorted.
Qed.

Lemma find_row_Some id l r : find_row id l = Some r -> r ∈ l /\ rw_id r = id.
Proof. intros H%List.find_some. destruct H as [Hin Hid%bool_decide_eq_true]. by rewrite list_elem_of_In. Qed.

Lemma find_row_None id l : find_row id l = None -> id ∉ map rw_id l.
Proof.
  intros H Hin%list_elem_of_fmap. destruct Hin as (r & -> & Hr%list_elem_of_In).
  pose proof (List.find_none _ _ H r Hr) as Hb. cbn in Hb. by rewrite bool_decide_true in Hb.
Qed.

(** Every stored row reads back as a valid event. *)
Lemma stored_row_reads st r :
  ledger_inv st -> r ∈ lg_events st -> exists e, _event_from_row r = Ok e.
Proof.
  intros Hi Hr. destruct (li_heads st Hi r Hr) as (h & Hh).
  destruct (li_chain st Hi _ h Hh) as (es & HF%mapR_Ok & _).
  assert (Hin : r ∈ rows_of (rw_workspace_id r, rw_session_id r) st).
  { apply filter_elem. split; [done|]. unfold of_session. by rewrite !bool_decide_true. }
  apply list_elem_of_lookup in Hin as (i & Hi').
  destruct (Forall2_lookup_l _ _ _ _ _ HF Hi') as (e & _ & He). eauto.
Qed.

Lemma head_facts st key h :
  ledger_inv st -> lg_heads st !! key = Some h -> (0 < next_seq h)%Z /\ digest_ok (head_hash h) = true.
Proof.
  intros Hi Hh. destruct (li_chain st Hi key h Hh) as (es & _ & [Hc Hn]%verify_events_chain).
  split; [lia|]. clear Hn. revert Hc. assert (Hg : digest_ok GENESIS_HASH = true) by by vm_compute.
  revert Hg. generalize GENESIS_HASH 1%Z. induction es as [|e es IH]; intros prev seq Hp; cbn [chain].
  { by intros <-. }
  intros [Hl Hc]. apply (IH _ _) in Hc; [done|]. pose proof (lk_hash _ _ _ Hl) as He.
  unfold ledger_event_hash in He. apply bind_Ok in He as (ts & _ & He). by eapply content_hash_digest.
Qed.

Lemma rows_of_store key key' e st :
  rows_of key' (store_event key e st)
  = rows_of key' st ++ List.filter (of_session (fst key') (snd key')) [row_of_event e].
Proof. unfold rows_of, store_event. cbn [lg_events]. apply List.filter_app. Qed.

Lemma of_session_event key e :
  of_session (fst key) (snd key) (row_of_event e)
  = bool_decide ((la_workspace_id (le_append e), la_session_id (le_append e)) = key).
Proof.
  unfold of_session. destruct key as [w s]. cbn [fst snd row_of_event rw_workspace_id rw_session_id].
  rewrite <- bool_decide_and. apply bool_decide_ext. split; [by intros [-> ->]|by intros [= -> ->]].
Qed.

Lemma store_event_inv st h e :
  let key := (la_workspace_id (le_append e), la_session_id (le_append e)) in
  ledger_inv st -> lg_heads st !! key = Some h -> find_row (la_id (le_append e)) (lg_events st) = None ->
  event_valid e -> links (next_seq h) (head_hash h) e -> ledger_inv (store_event key e st).
Proof.
  intros key Hi Hh Hf Hv Hl. split.
  - cbn [lg_events store_event]. rewrite map_app. apply NoDup_app. split_and!; [apply (li_ids st Hi)| |].
    + intros x Hx Hx'%list_elem_of_singleton. subst x. by apply find_row_None in Hf.
    + apply NoDup_singleton.
  - intros r Hr. cbn [lg_events lg_heads store_event] in *. apply elem_of_app in Hr as [Hr|Hr%list_elem_of_singleton].
    + apply lookup_insert_is_Some'. right. by apply (li_heads st Hi).
    + subst r. apply lookup_insert_is_Some'. by left.
  - intros key' h' Hh'. rewrite rows_of_store. cbn [lg_heads store_event List.filter] in *.
    rewrite of_session_event. fold key. destruct (decide (key = key')) as [<-|Hne].
    + rewrite lookup_insert_eq in Hh'. injection Hh' as <-. rewrite bool_decide_true by done.
      destruct (li_chain st Hi key h Hh) as (es & Hes & [Hc Hn]%verify_events_chain).
      exists (es ++ [e]). split.
      * apply mapR_Ok, Forall2_app; [by apply mapR_Ok|]. constructor; [by apply event_from_row_of_event|constructor].
      * apply verify_events_chain. cbn [head_hash next_seq]. split.
        -- eapply chain_app; [done|]. rewrite Hn in Hl. cbn [chain]. split; [|done].
           by replace (1 + Z.of_nat (length es))%Z with (Z.of_nat (length es) + 1)%Z by lia.
        -- rewrite (lk_seq _ _ _ Hl), Hn, length_app. cbn. lia.
    + rewrite lookup_insert_ne in Hh' by done. rewrite bool_decide_false by done. rewrite app_nil_r.
      by apply (li_chain st Hi).
Qed.

(** A new event with a valid command and a head is appended. *)
Lemma append_fresh st event h :
  ledger_inv st -> new_append event = Ok event -> find_row (la_id event) (lg_events st) = None ->
  lg_heads st !! (la_workspace_id event, la_session_id event) = Some h ->
  exists e, append event st = (store_event (la_workspace_id event, la_session_id event) e st, Ok e) /\
    links (next_seq h) (head_hash h) e /\ le_append e = event /\ event_valid e.
Proof.
  intros Hi Ha Hf Hh. destruct (head_facts st _ h Hi Hh) as [Hn Hd].
  destruct (next_event_total event h Ha Hn Hd) as (e & He & Hv & Heq & Hl). exists e. split; [|done].
  unfold append, _event_by_id. rewrite run_get, run_lift, Hf, run_lift, Hh. cbn [res_of_option].
  rewrite run_lift, run_lift, He, run_put. done.
Qed.

Lemma append_headless st event :
  find_row (la_id event) (lg_events st) = None ->
  lg_heads st !! (la_workspace_id event, la_session_id event) = None ->
  exists x, append event st = (st, Raise x).
Proof. intros Hf Hh. unfold append, _event_by_id. rewrite run_get, run_lift, Hf, run_lift, Hh. by eexists. Qed.

(** What an append of a valid event does to a consistent ledger. *)
Definition append_result (event : LedgerAppend) (st : ledger) (out : ledger * res LedgerEvent) : Prop :=
  match out with
  | (st', Ok e) =>
      ledger_inv st' /\ event_valid e /\ (le_append e = event \/ same_append event (le_append e) = true) /\
      ((st' = st /\ exists r, r ∈ lg_events st /\ _event_from_row r = Ok e) \/
       exists h, lg_heads st !! (la_workspace_id event, la_session_id event) = Some h /\
         links (next_seq h) (head_hash h) e /\ le_append e = event /\
         st' = store_event (la_workspace_id event, la_session_id event) e st)
  | (st', Raise x) => st' = st /\ exn_cls x = LedgerIntegrityErrorC
  end.

Lemma append_branches st event :
  ledger_inv st -> new_append event = Ok event -> append_result event st (append event st).
Proof.
  intros Hi Ha. unfold append_result.
  unfold append. rewrite run_get, run_lift. unfold _event_by_id.
  destruct (find_row (la_id event) (lg_events st)) as [r|] eqn:Hf.
  - destruct (find_row_Some _ _ _ Hf) as [Hr _]. destruct (stored_row_reads st r Hi Hr) as (e & He).
    rewrite He. cbn [mbind res_bind]. unfold lift_res, _idempotent_result, guard_not.
    destruct (same_append event (le_append e)) eqn:Hs; cbn; [|done].
    split; [done|]. split; [by eapply event_from_row_facts|]. split; [by right|]. left. eauto.
  - rewrite run_lift. destruct (lg_heads st !! _) as [h|] eqn:Hh; cbn [res_of_option]; [|done].
    destruct (head_facts st _ h Hi Hh) as [Hn Hd].
    destruct (next_event_total event h Ha Hn Hd) as (e & He & Hv & Hle & Hl).
    rewrite run_lift, run_lift, He, run_put. cbn.
    split; [|split; [done|split; [by left|right; eauto]]].
    subst event. by eapply store_event_inv.
Qed.

Lemma append_inv st event : ledger_inv st -> new_append event = Ok event -> ledger_inv (fst (append event st)).
Proof.
  intros Hi Ha. pose proof (append_branches st event Hi Ha) as H.
  destruct (append event st) as [st' [e|x]]; [apply H|]. by destruct H as [-> _].
Qed.

(** C2. Appending to a consistent ledger: an id already stored returns the
    stored event when the caller's values are the same and raises
    [LedgerIntegrityError] when not; a session without a head raises; otherwise
    the next event of the session's chain is stored, linked to the head, and the
    ledger stays consistent.  A failed append changes nothing. *)
Theorem append_keeps_chain st event (Hi : ledger_inv st) (Ha : new_append event = Ok event) :
  append_result event st (append event st).
Proof. by apply append_branches. Qed.

(** ** Verification *)

(** The rows of a session read back as a chain that ends in its head. *)
Definition session_chain (ws sid : uuid) (st : ledger) : Prop :=
  exists h es, lg_heads st !! (ws, sid) = Some h /\ mapR _event_from_row (session_rows ws sid st) = Ok es /\
    chain 1 GENESIS_HASH es (head_hash h) /\ next_seq h = (Z.of_nat (length es) + 1)%Z.

Lemma verify_valid ws sid st v : verify ws sid st = Ok v -> lv_valid v = true <-> session_chain ws sid st.
Proof.
  unfold verify, session_chain. intros Hv. destruct (lg_heads st !! (ws, sid)) as [h|].
  - apply bind_Ok in Hv as (es & Hes & Hv). apply bind_Ok in Hv as (f & Hf & Hv). split.
    + intros Hval. exists h, es. split; [done|]. split; [done|].
      destruct f as [[fs reason]|]; [unfold new_verification in Hv; inv_ok; by cbn in Hval|].
      by apply verify_events_chain.
    + intros (h' & es' & [= <-] & Hes' & Hc). rewrite Hes in Hes'. injection Hes' as <-.
      apply verify_events_chain in Hc. rewrite Hf in Hc. injection Hc as ->.
      unfold new_verification in Hv. by inv_ok.
  - unfold new_verification in Hv. inv_ok. split; [done|]. by intros (h & es & ? & _).
Qed.

Lemma inv_session_chain st ws sid :
  ledger_inv st -> is_Some (lg_heads st !! (ws, sid)) -> session_chain ws sid st.
Proof.
  intros Hi [h Hh]. destruct (li_chain st Hi _ h Hh) as (es & Hes & [Hc Hn]%verify_events_chain).
  exists h, es. split_and!; try done. pose proof (session_rows_inv st (ws, sid) h Hi Hh) as Hs. cbn in Hs.
  by rewrite Hs.
Qed.

(** Verification accepts a session exactly when its rows read back as a chain
    of events from the genesis hash that ends in the session's head, and it
    accepts every session of a consistent ledger. *)
Theorem verify_iff_chain ws sid st v (Hv : verify ws sid st = Ok v) :
  (lv_valid v = true <-> session_chain ws sid st) /\
  (ledger_inv st -> is_Some (lg_heads st !! (ws, sid)) -> lv_valid v = true).
Proof.
  pose proof (verify_valid ws sid st v Hv) as Hiff. split; [done|]. intros Hi Hh. by apply Hiff, inv_session_chain.
Qed.

(** ** Tamper evidence *)

Definition preimage_of (e : LedgerEvent) : json :=
  event_preimage e (stamp (dt_utc (la_recorded_at (le_append e)))).

Lemma event_hash_preimage e h :
  event_valid e -> ledger_event_hash e = Ok h -> content_hash (preimage_of e) = Ok h.
Proof.
  intros (a & Ha & _ & He)%new_event_Ok. unfold ledger_event_hash, _timestamp, preimage_of.
  assert (Heq : le_append e = a) by (by rewrite He). rewrite Heq.
  by apply new_append_Ok in Ha as (_ & _ & _ & ->).
Qed.

(** Identifiers of 128 bits and a year of four digits. *)
Definition event_typed (e : LedgerEvent) : Prop :=
  let a := le_append e in
  uuid_ok (la_id a) = true /\ uuid_ok (la_workspace_id a) = true /\ uuid_ok (la_session_id a) = true /\
  uuid_ok (la_correlation_id a) = true /\ uuid_ok (la_actor_id a) = true /\
  opt_ok uuid_ok (la_causation_id a) = true /\ stamp_ok (dt_utc (la_recorded_at a)) = true.

(** Equal in every field, the payload up to the order of object members. *)
Definition same_event (e f : LedgerEvent) : Prop :=
  let a := le_append e in
  let b := le_append f in
  la_id a = la_id b /\ la_workspace_id a = la_workspace_id b /\ la_session_id a = la_session_id b /\
  la_event_type a = la_event_type b /\ la_payload_schema_version a = la_payload_schema_version b /\
  la_causation_id a = la_causation_id b /\ la_correlation_id a = la_correlation_id b /\
  la_actor_class a = la_actor_class b /\ la_actor_id a = la_actor_id b /\ la_round a = la_round b /\
  la_recorded_at a = la_recorded_at b /\ json_norm (JObj (la_payload a)) = json_norm (JObj (la_payload b)) /\
  le_ledger_seq e = le_ledger_seq f /\ le_payload_hash e = le_payload_hash f /\
  le_prev_hash e = le_prev_hash f /\ le_event_hash e = le_event_hash f.

Definition hash_collision (es fs : list LedgerEvent) : Prop :=
  exists e f, e ∈ es /\ f ∈ fs /\
    (collide (preimage_of e) (preimage_of f) \/
     collide (JObj (la_payload (le_append e))) (JObj (la_payload (le_append f)))).

Lemma preimage_norm e ts : json_norm (event_preimage e ts) = event_preimage e ts.
Proof. unfold event_preimage, opt_uuid_json. by destruct (la_causation_id _). Qed.

Lemma JStr_inj a b : JStr a = JStr b -> a = b.
Proof. by intros [= ->]. Qed.

Lemma JInt_inj a b : JInt a = JInt b -> a = b.
Proof. by intros [= ->]. Qed.

(** The members of the preimage, one by one. *)
Lemma preimage_members v1 v2 v3 v4 v5 v6 v7 v8 v9 v10 v11 v12 v13 v14
    w1 w2 w3 w4 w5 w6 w7 w8 w9 w10 w11 w12 w13 w14 :
  JObj [("actor_class", v1); ("actor_id", v2); ("causation_id", v3); ("correlation_id", v4);
        ("event_type", v5); ("id", v6); ("ledger_seq", v7); ("payload_hash", v8);
        ("payload_schema_version", v9); ("prev_hash", v10); ("recorded_at", v11); ("round", v12);
        ("session_id", v13); ("workspace_id", v14)]
  = JObj [("actor_class", w1); ("actor_id", w2); ("causation_id", w3); ("correlation_id", w4);
        ("event_type", w5); ("id", w6); ("ledger_seq", w7); ("payload_hash", w8);
        ("payload_schema_version", w9); ("prev_hash", w10); ("recorded_at", w11); ("round", w12);
        ("session_id", w13); ("workspace_id", w14)] ->
  v1 = w1 /\ v2 = w2 /\ v3 = w3 /\ v4 = w4 /\ v5 = w5 /\ v6 = w6 /\ v7 = w7 /\
  v8 = w8 /\ v9 = w9 /\ v10 = w10 /\ v11 = w11 /\ v12 = w12 /\ v13 = w13 /\ v14 = w14.
Proof. intros [= ]. split_and!; assumption. Qed.

Lemma actor_class_value_inj a b : actor_class_value a = actor_class_value b -> a = b.
Proof. by destruct a, b. Qed.

Lemma opt_uuid_json_inj u v :
  opt_ok uuid_ok u = true -> opt_ok uuid_ok v = true -> opt_uuid_json u = opt_uuid_json v -> u = v.
Proof. destruct u, v; cbn [opt_ok opt_uuid_json]; try done. intros Hu Hv H%JStr_inj. f_equal. by apply uuid_str_inj. Qed.

Lemma valid_recorded_at e :
  event_valid e -> la_recorded_at (le_append e) = utc_datetime (dt_utc (la_recorded_at (le_append e))).
Proof.
  intros (a & Ha & _ & He)%new_event_Ok. apply new_append_Ok in Ha as (_ & _ & _ & Hu).
  assert (Heq : le_append e = a) by (by rewrite He). rewrite Heq. exact (proj1 (aware_utc_Ok _ _ Hu)).
Qed.

Lemma collision_in e f (es fs : list LedgerEvent) :
  e ∈ es -> f ∈ fs ->
  collide (preimage_of e) (preimage_of f) \/
  collide (JObj (la_payload (le_append e))) (JObj (la_payload (le_append f))) -> hash_collision es fs.
Proof. intros He Hf Hc. exists e, f. auto. Qed.

(** Two valid events with one event hash are the same event, or collide. *)
Lemma same_hash_same_event e f :
  event_valid e -> event_valid f -> event_typed e -> event_typed f ->
  ledger_payload_hash (la_payload (le_append e)) = Ok (le_payload_hash e) ->
  ledger_payload_hash (la_payload (le_append f)) = Ok (le_payload_hash f) ->
  ledger_event_hash e = Ok (le_event_hash e) -> ledger_event_hash f = Ok (le_event_hash f) ->
  le_event_hash e = le_event_hash f ->
  same_event e f \/ hash_collision [e] [f].
Proof.
  intros He Hf Te Tf Pe Pf Hhe Hhf Heq. apply event_hash_preimage in Hhe, Hhf; [|done..].
  rewrite <- Heq in Hhf. destruct (content_hash_same _ _ _ Hhe Hhf) as [Hn|Hc];
    [|right; apply (collision_in e f); [constructor|constructor|left; exact Hc]].
  unfold preimage_of in Hn. rewrite !preimage_norm in Hn.
  apply preimage_members in Hn as (H1 & H2 & H3 & H4 & H5 & H6 & H7 & H8 & H9 & H10 & H11 & H12 & H13 & H14).
  apply JStr_inj in H1, H2, H4, H5, H6, H8, H10, H11, H13, H14. apply JInt_inj in H7, H9, H12.
  rewrite <- H8 in Pf.
  destruct (content_hash_same (JObj (la_payload (le_append e))) (JObj (la_payload (le_append f))) _ Pe Pf) as [Hp|Hc];
    [|right; apply (collision_in e f); [constructor|constructor|right; exact Hc]].
  left. destruct Te as (? & ? & ? & ? & ? & ? & ?), Tf as (? & ? & ? & ? & ? & ? & ?).
  apply stamp_inj in H11; [|done..].
  assert (Hrec : la_recorded_at (le_append e) = la_recorded_at (le_append f))
    by (rewrite (valid_recorded_at e He), (valid_recorded_at f Hf), H11; reflexivity).
  unfold same_event. repeat split; try assumption;
    first [apply uuid_str_inj; assumption | apply actor_class_value_inj; assumption
          | apply opt_uuid_json_inj; assumption].
Qed.

Lemma chain_last seq prev es e final :
  chain seq prev (es ++ [e]) final <->
  exists mid, chain seq prev es mid /\ links (seq + Z.of_nat (length es)) mid e /\ le_event_hash e = final.
Proof.
  revert seq prev; induction es as [|x es IH]; intros seq prev; cbn [chain app].
  - cbn [length]. rewrite Z.add_0_r. split; [intros [? ?]; by exists prev|intros (mid & -> & ? & ?); done].
  - rewrite IH. cbn [length]. replace (seq + 1 + Z.of_nat (length es))%Z with (seq + Z.of_nat (S (length es)))%Z by lia.
    split; [intros [? (mid & ? & ?)]; by exists mid|intros (mid & [? ?] & ?); split; [done|by exists mid]].
Qed.

Lemma hash_collision_mono es fs es' fs' :
  (forall e, e ∈ es -> e ∈ es') -> (forall f, f ∈ fs -> f ∈ fs') ->
  hash_collision es fs -> hash_collision es' fs'.
Proof. intros He Hf (e & f & ? & ? & ?). exists e, f. auto. Qed.

Lemma chain_unique seq prev prev' es fs final :
  chain seq prev es final -> chain seq prev' fs final -> length es = length fs ->
  Forall event_valid es -> Forall event_valid fs -> Forall event_typed es -> Forall event_typed fs ->
  Forall2 same_event es fs \/ hash_collision es fs.
Proof.
  revert fs final; induction es as [|e es IH] using rev_ind; intros fs final.
  { destruct fs; [by left|done]. }
  destruct fs as [|f fs' _] using rev_ind; [rewrite length_app; cbn; lia|].
  rewrite !length_app, !Forall_app, !chain_last. cbn [length]. rewrite !Forall_singleton.
  intros (mid & Hc & Hl & Hm) (mid' & Hc' & Hl' & Hm') Hlen [Hve He] [Hvf Hf] [Hte Te] [Htf Tf].
  destruct (same_hash_same_event e f) as [Hsame|Hcol]; try done; [apply Hl|apply Hl'|apply Hl|apply Hl'|congruence| |].
  - assert (mid = mid') as <-.
    { rewrite <- (lk_prev _ _ _ Hl), <- (lk_prev _ _ _ Hl'). apply Hsame. }
    destruct (IH fs' mid) as [Hall|Hcol]; try done; [lia| |].
    + left. apply Forall2_app; [done|]. by constructor.
    + right. eapply hash_collision_mono; [| |exact Hcol]; set_solver.
  - right. eapply hash_collision_mono; [| |exact Hcol]; set_solver.
Qed.

(** C3. Tamper evidence: when two states of the tables both verify for a session
    with the same head, their events for it are the same, field by field and in
    the same order (payloads up to the order of object members), unless two of
    these very events collide under SHA-256. *)
Theorem tamper_evident ws sid st1 st2 h es fs
    (H1 : lg_heads st1 !! (ws, sid) = Some h) (H2 : lg_heads st2 !! (ws, sid) = Some h)
    (He : mapR _event_from_row (session_rows ws sid st1) = Ok es)
    (Hf : mapR _event_from_row (session_rows ws sid st2) = Ok fs)
    (V1 : exists v, verify ws sid st1 = Ok v /\ lv_valid v = true)
    (V2 : exists v, verify ws sid st2 = Ok v /\ lv_valid v = true)
    (Te : Forall event_typed es) (Tf : Forall event_typed fs) :
  Forall2 same_event es fs \/ hash_collision es fs.
Proof.
  assert (Hchain : forall st gs, lg_heads st !! (ws, sid) = Some h ->
    mapR _event_from_row (session_rows ws sid st) = Ok gs ->
    (exists v, verify ws sid st = Ok v /\ lv_valid v = true) ->
    chain 1 GENESIS_HASH gs (head_hash h) /\ next_seq h = (Z.of_nat (length gs) + 1)%Z /\ Forall event_valid gs).
  { intros st gs Hh Hg (v & Hv & Hval).
    destruct (proj1 (verify_valid ws sid st v Hv) Hval) as (h' & gs' & Hh' & Hg' & Hc & Hn).
    rewrite Hh in Hh'. injection Hh' as <-. rewrite Hg in Hg'. injection Hg' as <-. split_and!; try done.
    apply Forall_forall. intros g Hin. destruct (mapR_elem _ _ _ _ Hg Hin) as (r & _ & Hr).
    by apply event_from_row_facts in Hr as [? _]. }
  destruct (Hchain st1 es) as (C1 & N1 & E1); try done. destruct (Hchain st2 fs) as (C2 & N2 & E2); try done.
  eapply chain_unique; try done. lia.
Qed.

(** ** Reading and retrying *)

Lemma chain_suffix rows es seq prev final from :
  mapR _event_from_row rows = Ok es -> chain seq prev es final ->
  List.filter (fun r => from <=? rw_ledger_seq r)%Z rows = drop (Z.to_nat (from - seq)) rows.
Proof.
  intros HF%mapR_Ok. revert seq prev; induction HF as [|r e rows es Hr HF IH]; intros seq prev; cbn [chain].
  { by destruct (Z.to_nat _). }
  intros [Hl Hc]. apply event_from_row_facts in Hr as (_ & Hseq & _). rewrite (lk_seq _ _ _ Hl) in Hseq.
  cbn [List.filter]. rewrite (IH _ _ Hc), <- Hseq. destruct (Z.leb_spec from seq).
  - replace (Z.to_nat (from - seq)) with 0%nat by lia. replace (Z.to_nat (from - (seq + 1))) with 0%nat by lia. done.
  - replace (Z.to_nat (from - seq)) with (S (Z.to_nat (from - (seq + 1)))) by lia. done.
Qed.

(** Reading a session of a consistent ledger returns the consecutive events
    from the requested sequence number on, in order and at most [limit] of them. *)
Theorem read_is_slice ws sid st from limit (Hi : ledger_inv st)
    (Hh : is_Some (lg_heads st !! (ws, sid))) (Hf : (0 < from)%Z) (Hl : (0 < limit)%Z) :
  exists es, mapR _event_from_row (session_rows ws sid st) = Ok es /\
    read ws sid from limit st = Ok (take (Z.to_nat limit) (drop (Z.to_nat (from - 1)) es)) /\
    forall i e, es !! i = Some e -> le_ledger_seq e = (1 + Z.of_nat i)%Z.
Proof.
  destruct (inv_session_chain st ws sid Hi Hh) as (h & es & _ & Hes & Hc & _). exists es. split; [done|].
  split; [|by intros i e; eapply chain_seq].
  unfold read, guard_not. replace (from <=? 0)%Z with false by lia. replace (limit <=? 0)%Z with false by lia.
  cbn [mbind res_bind]. rewrite (chain_suffix _ es 1 GENESIS_HASH (head_hash h)) by done.
  apply mapR_Ok, Forall2_take, Forall2_drop, mapR_Ok. done.
Qed.

(** Objects whose keys are distinct, at every level. *)
Fixpoint json_wf (v : json) : Prop :=
  match v with
  | JList l => (fix go l := match l with [] => True | x :: xs => json_wf x /\ go xs end) l
  | JObj l => NoDup (map fst l) /\
              (fix go (l : dict string json) := match l with [] => True | kx :: xs => json_wf (snd kx) /\ go xs end) l
  | _ => True
  end.

Lemma dict_get_NoDup {V} (d : dict string V) k v : NoDup (map fst d) -> (k, v) ∈ d -> dict_get k d = Some v.
Proof.
  induction d as [|[k' v'] d IH]; cbn; intros Hnd Hin; [by apply not_elem_of_nil in Hin|].
  apply NoDup_cons in Hnd as [Hk Hnd]. apply elem_of_cons in Hin as [[= -> ->]|Hin]; [by rewrite decide_True|].
  rewrite decide_False; [by apply IH|]. intros ->. apply Hk. apply (list_elem_of_fmap_2 fst) in Hin. done.
Qed.

Lemma py_eqb_refl v : json_wf v -> py_eqb v v = true.
Proof.
  induction v as [|b|z|r|s|l IH|l IH] using json_ind'; cbn; intros Hwf.
  - done.
  - by destruct b.
  - apply Z.eqb_refl.
  - apply String.eqb_refl.
  - apply String.eqb_refl.
  - induction IH as [|x l Hx Hl IHl]; [done|]. destruct Hwf as [H1 H2]. rewrite Hx by done. by apply IHl.
  - destruct Hwf as [Hnd Hall]. rewrite Nat.eqb_refl. cbn [andb].
    assert (Hsub : forall k x, (k, x) ∈ l -> dict_get k l = Some x) by (intros; by apply dict_get_NoDup).
    revert Hsub. generalize l at 2 3 as d. clear Hnd. intros d.
    induction IH as [|[k x] l Hx Hl IHl]; intros Hsub; [done|]. destruct Hall as [H1 H2]. cbn [snd] in *.
    rewrite (Hsub k x) by set_solver. rewrite Hx by done. cbn [andb]. apply IHl; [done|]. intros; apply Hsub; set_solver.
Qed.

Lemma same_append_refl a : json_wf (JObj (la_payload a)) -> same_append a a = true.
Proof.
  intros Hwf. unfold same_append. rewrite !bool_decide_true by done. by rewrite String.eqb_refl, !Z.eqb_refl, py_eqb_refl.
Qed.

Lemma find_row_app id l r : find_row id l = None -> rw_id r = id -> find_row id (l ++ [r]) = Some r.
Proof.
  intros Hn Hr. unfold find_row. induction l as [|x l IH]; cbn in *; [by rewrite bool_decide_true|].
  destruct (bool_decide (rw_id x = id)); [done|by apply IH].
Qed.

Lemma append_stored st event e r :
  find_row (la_id event) (lg_events st) = Some r -> _event_from_row r = Ok e ->
  same_append event (le_append e) = true -> append event st = (st, Ok e).
Proof.
  intros Hf He Hs. unfold append. rewrite run_get, run_lift. unfold _event_by_id. rewrite Hf, He.
  cbn [mbind res_bind]. unfold lift_res, _idempotent_result, guard_not. by rewrite Hs.
Qed.

Lemma append_again st st' event e :
  ledger_inv st -> new_append event = Ok event -> json_wf (JObj (la_payload event)) ->
  append event st = (st', Ok e) -> append event st' = (st', Ok e).
Proof.
  intros Hi Ha Hwf H.
  unfold append in H. rewrite run_get, run_lift in H. unfold _event_by_id in H.
  destruct (find_row (la_id event) (lg_events st)) as [r|] eqn:Hf.
  - destruct (_event_from_row r) as [e0|x] eqn:He; [|done]. cbn [mbind res_bind] in H.
    unfold lift_res in H. injection H as <- H. unfold _idempotent_result in H.
    apply bind_Ok in H as ([] & Hg%guard_not_Ok%negb_false_iff & [= <-]). by eapply append_stored.
  - rewrite run_lift in H. destruct (lg_heads st !! _) as [h|] eqn:Hh; cbn [res_of_option] in H; [|done].
    destruct (head_facts st _ h Hi Hh) as [Hn Hd].
    destruct (next_event_total event h Ha Hn Hd) as (e0 & He & Hv & Hle & _).
    rewrite run_lift, run_lift, He, run_put in H. cbn in H. injection H as <- <-.
    eapply append_stored; [|by apply event_from_row_of_event|].
    + apply find_row_app; [done|]. by rewrite <- Hle.
    + rewrite Hle. by apply same_append_refl.
Qed.

(** Appends are idempotent: repeating a successful append returns the same
    event and changes nothing. *)
Theorem append_idempotent st st' event e (Hi : ledger_inv st) (Ha : new_append event = Ok event)
    (Hwf : json_wf (JObj (la_payload event))) (H : append event st = (st', Ok e)) :
  append event st' = (st', Ok e).
Proof. by eapply append_again. Qed.
