(* ===== verification/Lifecycle.v ===== *)
(** * The session lifecycle

    [app/domain/session_lifecycle.py]: the state graph, the transition check,
    the lifecycle projection and the transition command with their validators;
    [app/adapters/inmemory/session_lifecycle.py]: the store's operations, over
    any ledger; [app/domain/session_control.py] and
    [app/application/session_control.py]: the control commands. *)

From S2P Require Import Prelude.
From S2P Require Import Json.
From S2P Require Import Symbolic.
From S2P Require Import ConsensusPorts.
From S2P Require Import ConsensusFacts.
From S2P Require Import Ledger.

Module Session.

Inductive state : Type :=
| DRAFT | INITIALIZING | RUNNING | WAITING_FOR_AGENT | WAITING_FOR_EVIDENCE | WAITING_FOR_CRITIQUE
| WAITING_FOR_SIMULATION | WAITING_FOR_HUMAN | EVALUATING_CONSENSUS | PAUSED | FAILED_RETRYABLE
| COMPLETED | PARTIAL_CONSENSUS_STATE | NO_CONSENSUS | DEADLOCK | FAILED | CANCELLED.

#[global] Instance state_eq_dec : EqDecision state.
Proof. solve_decision. Defined.

Definition state_value (s : state) : string :=
  match s with
  | DRAFT => "DRAFT" | INITIALIZING => "INITIALIZING" | RUNNING => "RUNNING"
  | WAITING_FOR_AGENT => "WAITING_FOR_AGENT" | WAITING_FOR_EVIDENCE => "WAITING_FOR_EVIDENCE"
  | WAITING_FOR_CRITIQUE => "WAITING_FOR_CRITIQUE" | WAITING_FOR_SIMULATION => "WAITING_FOR_SIMULATION"
  | WAITING_FOR_HUMAN => "WAITING_FOR_HUMAN" | EVALUATING_CONSENSUS => "EVALUATING_CONSENSUS"
  | PAUSED => "PAUSED" | FAILED_RETRYABLE => "FAILED_RETRYABLE" | COMPLETED => "COMPLETED"
  | PARTIAL_CONSENSUS_STATE => "PARTIAL_CONSENSUS_STATE" | NO_CONSENSUS => "NO_CONSENSUS"
  | DEADLOCK => "DEADLOCK" | FAILED => "FAILED" | CANCELLED => "CANCELLED"
  end.

(** [_TRANSITIONS.get(source, frozenset())] *)
Definition _TRANSITIONS (source : state) : list state :=
  match source with
  | DRAFT => [INITIALIZING; FAILED]
  | INITIALIZING => [RUNNING; FAILED_RETRYABLE; FAILED; CANCELLED]
  | RUNNING => [WAITING_FOR_AGENT; WAITING_FOR_EVIDENCE; WAITING_FOR_CRITIQUE; WAITING_FOR_SIMULATION;
                WAITING_FOR_HUMAN; EVALUATING_CONSENSUS; PAUSED; FAILED_RETRYABLE; FAILED; CANCELLED]
  | WAITING_FOR_AGENT | WAITING_FOR_EVIDENCE | WAITING_FOR_CRITIQUE | WAITING_FOR_SIMULATION =>
      [RUNNING; FAILED_RETRYABLE; FAILED; CANCELLED]
  | WAITING_FOR_HUMAN => [RUNNING; PAUSED; FAILED; CANCELLED]
  | EVALUATING_CONSENSUS =>
      [RUNNING; COMPLETED; PARTIAL_CONSENSUS_STATE; NO_CONSENSUS; DEADLOCK; FAILED; CANCELLED]
  | PAUSED => [RUNNING; FAILED; CANCELLED]
  | FAILED_RETRYABLE => [RUNNING; FAILED; CANCELLED]
  | _ => []
  end.

Definition TERMINAL_SESSION_STATES : list state :=
  [COMPLETED; PARTIAL_CONSENSUS_STATE; NO_CONSENSUS; DEADLOCK; FAILED; CANCELLED].

Definition terminal (s : state) : bool := bool_decide (s ∈ TERMINAL_SESSION_STATES).

Definition bad_transition (msg : string) : res unit := raise InvalidSessionTransitionC msg.

Definition validate_session_transition (source target : state) (current_round next_round : Z)
    (allow_same_state : bool) : res unit :=
  if bool_decide (source = target) then
    if negb allow_same_state then bad_transition "session transition must change state"
    else if negb (next_round =? current_round)%Z then
      bad_transition "same-state event cannot change session round"
    else Ok tt
  else if negb (bool_decide (target ∈ _TRANSITIONS source)) then
    bad_transition ("session cannot transition from " +:+ state_value source +:+ " to " +:+ state_value target)
  else if (next_round <? current_round)%Z then bad_transition "session round cannot decrease"
  else if (current_round + 1 <? next_round)%Z then bad_transition "session round can advance by at most one"
  else if negb (next_round =? current_round)%Z && negb (bool_decide (target = RUNNING)) then
    bad_transition "session round may advance only when entering RUNNING"
  else Ok tt.

(** ** The projection *)

Record lifecycle : Type := mkLifecycle {
  sl_workspace_id : uuid;
  sl_session_id : uuid;
  sl_state : state;
  sl_round : Z;
  sl_workflow_id : option string;
  sl_run_id : option string;
  sl_last_event_id : option uuid;
  sl_initialized_at : option datetime;
  sl_started_at : option datetime;
  sl_ended_at : option datetime;
  sl_created_at : datetime;
  sl_updated_at : datetime
}.

(** [SessionLifecycle.consistent_projection], on aware timestamps. *)
Definition consistent_projection (l : lifecycle) : res unit :=
  _ ← guard_not (xorb (is_none (sl_workflow_id l)) (is_none (sl_run_id l))) ValueErrorC
        "workflow_id and run_id must be set together";
  _ ← guard_not (dt_utc (sl_updated_at l) <? dt_utc (sl_created_at l))%Z ValueErrorC
        "updated_at must not precede created_at";
  _ ← guard_not (bool_decide (sl_state l = DRAFT) && is_some (sl_last_event_id l)) ValueErrorC
        "a draft lifecycle cannot have a transition event";
  _ ← guard_not (negb (bool_decide (sl_state l = DRAFT)) && is_none (sl_initialized_at l)) ValueErrorC
        "a non-draft lifecycle requires initialized_at";
  _ ← guard_not (negb (bool_decide (sl_state l ∈ [DRAFT; INITIALIZING])) && is_none (sl_started_at l))
        ValueErrorC "a started lifecycle requires started_at";
  guard_not (xorb (terminal (sl_state l)) (is_some (sl_ended_at l))) ValueErrorC
    "ended_at must be set exactly for terminal lifecycle states".

Definition opt_aware (t : option datetime) : res (option datetime) :=
  match t with None => Ok None | Some t => t' ← _aware_utc t; Ok (Some t') end.

(** Validation on construction: timestamps to UTC, field constraints, projection. *)
Definition new_lifecycle (l : lifecycle) : res lifecycle :=
  validated "SessionLifecycle"
    (i ← opt_aware (sl_initialized_at l);
     s ← opt_aware (sl_started_at l);
     e ← opt_aware (sl_ended_at l);
     c ← _aware_utc (sl_created_at l);
     u ← _aware_utc (sl_updated_at l);
     _ ← guard_not (negb ((0 <=? sl_round l)%Z && opt_ok filled (sl_workflow_id l) && opt_ok filled (sl_run_id l)))
           ValueErrorC "field constraints";
     let l' := mkLifecycle (sl_workspace_id l) (sl_session_id l) (sl_state l) (sl_round l) (sl_workflow_id l)
                 (sl_run_id l) (sl_last_event_id l) i s e c u in
     _ ← consistent_projection l';
     Ok l').

Record transition_command : Type := mkTransition {
  tr_source : state;
  tr_target : state;
  tr_round : Z;
  tr_event : LedgerAppend;
  tr_allow_same_state : bool
}.

(** [SessionTransition.event_matches_transition] *)
Definition event_matches_transition (t : transition_command) : res unit :=
  _ ← guard_not (negb (la_round (tr_event t) =? tr_round t)%Z) ValueErrorC
        "lifecycle event round must match transition round";
  guard_not (bool_decide (tr_source t = tr_target t) && negb (tr_allow_same_state t)) ValueErrorC
    "same-state lifecycle events must be explicitly allowed".

Definition new_transition (t : transition_command) : res transition_command :=
  validated "SessionTransition"
    (_ ← guard_not (tr_round t <? 0)%Z ValueErrorC "round";
     _ ← event_matches_transition t;
     Ok t).

(** ** The store *)

(** What the store asks of a ledger. *)
Class LedgerPort (L : Type) : Type := { port_append : LedgerAppend -> ST L LedgerEvent }.

#[global] Instance sql_ledger : LedgerPort ledger := {| port_append := append |}.

Record store (L : Type) : Type := mkStore {
  ss_ledger : L;
  ss_values : gmap (uuid * uuid) lifecycle
}.
Arguments mkStore {L}.
Arguments ss_ledger {L}.
Arguments ss_values {L}.

Section store.
Context {L : Type} `{LedgerPort L}.

Definition draft (workspace_id session_id : uuid) (created_at : datetime) : lifecycle :=
  mkLifecycle workspace_id session_id DRAFT 0 None None None None None None created_at created_at.

Definition set_value (key : uuid * uuid) (l : lifecycle) : ST (store L) unit :=
  st ← get_st; put_st (mkStore (ss_ledger st) (<[key := l]> (ss_values st))).

Definition add_draft (workspace_id session_id : uuid) (created_at : datetime) : ST (store L) lifecycle :=
  value ← lift_res (new_lifecycle (draft workspace_id session_id created_at));
  st ← get_st;
  let key := (workspace_id, session_id) in
  _ ← lift_res (guard_not (is_some (ss_values st !! key)) InvalidSessionTransitionC
                  "session lifecycle already exists");
  _ ← set_value key value;
  mret value.

Definition get (workspace_id session_id : uuid) (st : store L) : option lifecycle :=
  ss_values st !! (workspace_id, session_id).

Definition _required (workspace_id session_id : uuid) (st : store L) : res lifecycle :=
  res_of_option InvalidSessionTransitionC "session lifecycle does not exist"
    (ss_values st !! (workspace_id, session_id)).

Definition with_workflow (l : lifecycle) (workflow_id run_id : string) : lifecycle :=
  mkLifecycle (sl_workspace_id l) (sl_session_id l) (sl_state l) (sl_round l) (Some workflow_id) (Some run_id)
    (sl_last_event_id l) (sl_initialized_at l) (sl_started_at l) (sl_ended_at l) (sl_created_at l)
    (sl_updated_at l).

Definition attach_workflow (workspace_id session_id : uuid) (workflow_id run_id : string)
    : ST (store L) lifecycle :=
  _ ← lift_res (guard_not (blank workflow_id || blank run_id) ValueErrorC
                  "workflow_id and run_id must not be blank");
  st ← get_st;
  value ← lift_res (_required workspace_id session_id st);
  _ ← lift_res (guard_not (is_some (sl_workflow_id value)
                           && negb (bool_decide ((sl_workflow_id value, sl_run_id value)
                                                 = (Some workflow_id, Some run_id))))
                  InvalidSessionTransitionC "session is attached to a different workflow execution");
  let value' := with_workflow value workflow_id run_id in
  _ ← set_value (workspace_id, session_id) value';
  mret value'.

(** [current.model_copy(update=changes)] *)
Definition apply_changes (current : lifecycle) (command : transition_command) : lifecycle :=
  let event := tr_event command in
  let at_ := la_recorded_at event in
  let from_draft := bool_decide (sl_state current = DRAFT) in
  let entering := bool_decide (tr_target command = RUNNING) && is_none (sl_started_at current) in
  mkLifecycle (sl_workspace_id current) (sl_session_id current) (tr_target command) (tr_round command)
    (sl_workflow_id current) (sl_run_id current) (Some (la_id event))
    (if from_draft then Some at_ else sl_initialized_at current)
    (if from_draft || entering then Some at_ else sl_started_at current)
    (if terminal (tr_target command) then Some at_ else sl_ended_at current)
    (sl_created_at current) at_.

(** [await self._ledger.append(event)] *)
Definition ledger_append (event : LedgerAppend) : ST (store L) LedgerEvent := fun st =>
  let '(l', r) := port_append event (ss_ledger st) in (mkStore l' (ss_values st), r).

Definition transition (command : transition_command) : ST (store L) lifecycle :=
  let event := tr_event command in
  let key := (la_workspace_id event, la_session_id event) in
  st ← get_st;
  current ← lift_res (_required (fst key) (snd key) st);
  if bool_decide (sl_state current = tr_target command)
     && bool_decide (sl_last_event_id current = Some (la_id event)) then
    _ ← ledger_append event;
    mret current
  else if negb (bool_decide (sl_state current = tr_source command)) then
    raise_st InvalidSessionTransitionC
      ("expected session state " +:+ state_value (tr_source command) +:+ ", found " +:+
       state_value (sl_state current))
  else
    _ ← lift_res (validate_session_transition (sl_state current) (tr_target command) (sl_round current)
                    (tr_round command) (tr_allow_same_state command));
    _ ← ledger_append event;
    let updated := apply_changes current command in
    _ ← set_value key updated;
    mret updated.

End store.

(** ** The graph *)

(** What a validated transition does to the state and the round. *)
Inductive step_ok (source target : state) (current_round next_round : Z) (allow : bool) : Prop :=
| step_same : source = target -> allow = true -> next_round = current_round ->
    step_ok source target current_round next_round allow
| step_stay : source <> target -> target ∈ _TRANSITIONS source -> next_round = current_round ->
    step_ok source target current_round next_round allow
| step_next : source <> target -> target ∈ _TRANSITIONS source -> target = RUNNING ->
    next_round = (current_round + 1)%Z -> step_ok source target current_round next_round allow.

Lemma validate_spec source target cr nr allow :
  validate_session_transition source target cr nr allow = Ok tt <-> step_ok source target cr nr allow.
Proof.
  unfold validate_session_transition, bad_transition, raise.
  destruct (decide (source = target)) as [He|He].
  - rewrite bool_decide_true by done. destruct allow; cbn [negb]; [|split; [done|]; by inversion 1].
    destruct (Z.eqb_spec nr cr); cbn [negb]; split; try done; [by constructor|by inversion 1].
  - rewrite bool_decide_false by done.
    destruct (decide (target ∈ _TRANSITIONS source)) as [Ht|Ht];
      [rewrite bool_decide_true by done|rewrite bool_decide_false by done; cbn [negb]; split; [done|by inversion 1]].
    cbn [negb]. destruct (Z.ltb_spec nr cr); [split; [done|inversion 1; lia]|].
    destruct (Z.ltb_spec (cr + 1) nr); [split; [done|inversion 1; lia]|].
    destruct (Z.eqb_spec nr cr); cbn [negb andb]; [split; [by constructor 2|done]|].
    destruct (decide (target = RUNNING)) as [Hr|Hr];
      [rewrite bool_decide_true by done|rewrite bool_decide_false by done]; cbn [negb]; split; try done.
    + intros _. constructor 3; try done. lia.
    + inversion 1; congruence || lia.
Qed.

Lemma terminal_no_transitions s : terminal s = true <-> _TRANSITIONS s = [].
Proof. by destruct s. Qed.

Lemma never_to_draft s : DRAFT ∉ _TRANSITIONS s.
Proof. destruct s; cbn; set_solver. Qed.

(** The lifecycle graph: no transition leaves a terminal state, every other
    state can fail, a round never decreases and grows by one at a time and only
    on entering RUNNING, and only a draft is before its first event. *)
Theorem transition_graph source target cr nr allow
    (H : validate_session_transition source target cr nr allow = Ok tt) :
  (terminal source = true -> target = source) /\
  (terminal source = false -> FAILED ∈ _TRANSITIONS source) /\
  (cr <= nr <= cr + 1)%Z /\ (nr <> cr -> target = RUNNING) /\
  (target = DRAFT -> source = DRAFT).
Proof.
  apply validate_spec in H. split_and!.
  - intros Ht%terminal_no_transitions. destruct H as [-> _ _|_ Hin _|_ Hin _ _]; [done|..];
      rewrite Ht in Hin; by apply not_elem_of_nil in Hin.
  - destruct source; cbn; try done; intros _; set_solver.
  - destruct H; lia.
  - destruct H; lia.
  - intros Hne. destruct H; congruence.
  - intros ->. destruct H as [? _ _|_ Hin _|_ Hin _ _]; [done|by apply never_to_draft in Hin..].
Qed.

(** ** Consistency of the stored lifecycles *)

(** The projection's validator, with the two timestamps [add_draft] and the first
    event set together. *)
Record consistent (l : lifecycle) : Prop := {
  cn_projection : consistent_projection l = Ok tt;
  cn_started : sl_state l <> DRAFT -> is_some (sl_started_at l) = true;
  cn_round : (0 <= sl_round l)%Z
}.

Lemma projection_iff l :
  consistent_projection l = Ok tt <->
  is_none (sl_workflow_id l) = is_none (sl_run_id l) /\
  (dt_utc (sl_created_at l) <= dt_utc (sl_updated_at l))%Z /\
  (sl_state l = DRAFT -> sl_last_event_id l = None) /\
  (sl_state l <> DRAFT -> is_none (sl_initialized_at l) = false) /\
  (sl_state l ∉ [DRAFT; INITIALIZING] -> is_none (sl_started_at l) = false) /\
  terminal (sl_state l) = is_some (sl_ended_at l).
Proof.
  unfold consistent_projection. rewrite !guard_bind, guard_not_Ok.
  rewrite !andb_false_iff, !negb_false_iff, !bool_decide_eq_false, !bool_decide_eq_true, Z.ltb_ge.
  assert (Hx : forall a b, xorb a b = false <-> a = b) by (by intros [] []). rewrite !Hx.
  assert (Hl : is_some (sl_last_event_id l) = false <-> sl_last_event_id l = None)
    by (by destruct (sl_last_event_id l)). rewrite Hl.
  destruct (decide (sl_state l = DRAFT)); destruct (decide (sl_state l ∈ [DRAFT; INITIALIZING])); tauto.
Qed.

Lemma apply_changes_consistent cur cmd :
  consistent cur ->
  step_ok (sl_state cur) (tr_target cmd) (sl_round cur) (tr_round cmd) (tr_allow_same_state cmd) ->
  tr_target cmd <> DRAFT -> (0 <= tr_round cmd)%Z ->
  (dt_utc (sl_created_at cur) <= dt_utc (la_recorded_at (tr_event cmd)))%Z ->
  consistent (apply_changes cur cmd).
Proof.
  intros [(Hw & _ & _ & Hi & _ & He)%projection_iff Hs _] Hstep Htgt Hr Ht.
  assert (Hstarted : bool_decide (sl_state cur = DRAFT) = false -> is_some (sl_started_at cur) = true)
    by (intros Hd%bool_decide_eq_false; by apply Hs).
  assert (Hended : terminal (tr_target cmd) = false -> is_some (sl_ended_at cur) = false).
  { intros Hnt. rewrite <- He. destruct (terminal (sl_state cur)) eqn:E; [|done].
    apply terminal_no_transitions in E. destruct Hstep as [Heq _ _|_ Hin _|_ Hin _ _];
      [rewrite <- Heq, (proj2 (terminal_no_transitions _) E) in Hnt; done|..];
      rewrite E in Hin; by apply not_elem_of_nil in Hin. }
  split; cbn; [|intros _|done].
  - apply projection_iff. cbn. split_and!; try done.
    + intros _. case_bool_decide; [done|by apply Hi].
    + intros _. destruct (bool_decide (sl_state cur = DRAFT)); cbn [orb]; [done|].
      specialize (Hstarted eq_refl). destruct (_ && _); [done|]. by destruct (sl_started_at cur).
    + destruct (terminal (tr_target cmd)); [done|]. by rewrite Hended.
  - destruct (bool_decide (sl_state cur = DRAFT)); cbn [orb]; [done|]. case_match; [done|auto].
Qed.

Lemma draft_consistent ws sid t l : new_lifecycle (draft ws sid t) = Ok l -> consistent l /\ sl_state l = DRAFT /\
  (sl_workspace_id l, sl_session_id l) = (ws, sid).
Proof.
  unfold new_lifecycle. rewrite validated_Ok. cbn [draft sl_initialized_at sl_started_at sl_ended_at opt_aware mbind res_bind].
  intros (c & Hc & H)%bind_Ok. apply bind_Ok in H as (u & Hu & H).
  rewrite guard_bind in H. destruct H as [_ H]. apply bind_Ok in H as ([] & Hp & [= <-]).
  split; [|done]. by split.
Qed.

(** ** Operations of the store *)
Section operations.
Context {L : Type} `{LedgerPort L}.

(** Every branch of [transition]: a failure leaves the lifecycles as they were,
    a success has put the event in the ledger. *)
Definition transition_result (cmd : transition_command) (st : store L) (out : store L * res lifecycle) : Prop :=
  let event := tr_event cmd in
  let key := (la_workspace_id event, la_session_id event) in
  match out with
  | (st', Raise x) =>
      ss_values st' = ss_values st /\
      (ss_ledger st' = ss_ledger st \/ port_append event (ss_ledger st) = (ss_ledger st', Raise x))
  | (st', Ok l) =>
      exists cur e, ss_values st !! key = Some cur /\
        port_append event (ss_ledger st) = (ss_ledger st', Ok e) /\
        ((l = cur /\ ss_values st' = ss_values st /\ sl_state cur = tr_target cmd /\
          sl_last_event_id cur = Some (la_id event)) \/
         (sl_state cur = tr_source cmd /\
          step_ok (sl_state cur) (tr_target cmd) (sl_round cur) (tr_round cmd) (tr_allow_same_state cmd) /\
          l = apply_changes cur cmd /\ ss_values st' = <[key := l]> (ss_values st)))
  end.

Lemma run_ledger_append {B} event (f : LedgerEvent -> ST (store L) B) st :
  (ledger_append event ≫= f) st =
  match port_append event (ss_ledger st) with
  | (l', Ok e) => f e (mkStore l' (ss_values st))
  | (l', Raise x) => (mkStore l' (ss_values st), Raise x)
  end.
Proof. rewrite run_bind. unfold ledger_append. by destruct (port_append event (ss_ledger st)) as [l' [e|x]]. Qed.

Lemma transition_branches cmd st : transition_result cmd st (transition cmd st).
Proof.
  unfold transition. rewrite run_get, run_lift. unfold _required. cbn [fst snd].
  destruct (ss_values st !! _) as [cur|] eqn:Hcur; cbn [res_of_option]; [|by split; [|left]].
  destruct (_ && _) eqn:Hretry.
  - apply andb_true_iff in Hretry as [Hs%bool_decide_eq_true Hl%bool_decide_eq_true].
    rewrite run_ledger_append. destruct (port_append _ _) as [l' [e|x]] eqn:Hp; cbn; [|by split; [|right]].
    exists cur, e. split_and!; try done. left. done.
  - destruct (bool_decide (sl_state cur = tr_source cmd)) eqn:Hsrc; cbn [negb]; [|by split; [|left]].
    apply bool_decide_eq_true in Hsrc. rewrite run_lift.
    destruct (validate_session_transition _ _ _ _ _) as [[]|x] eqn:Hv; [|by split; [|left]].
    apply validate_spec in Hv. rewrite run_ledger_append.
    destruct (port_append _ _) as [l' [e|x]] eqn:Hp; [|by split; [|right]].
    cbn. exists cur, e. split_and!; try done. right. done.
Qed.

(** C37. A lifecycle command is atomic: on every failure the stored lifecycles are
    unchanged and the ledger is as its own append left it; on success the event
    is in the ledger and either the command was a retry and nothing changed, or
    it followed the graph from the state it named and exactly its session's
    lifecycle was replaced. *)
Theorem transition_atomic cmd st : transition_result cmd st (transition cmd st).
Proof. apply transition_branches. Qed.

Definition store_consistent (st : store L) : Prop :=
  forall key l, ss_values st !! key = Some l -> consistent l.

Inductive op : Type :=
| AddDraft (workspace_id session_id : uuid) (created_at : datetime)
| AttachWorkflow (workspace_id session_id : uuid) (workflow_id run_id : string)
| Transition (command : transition_command).

Definition exec (o : op) : ST (store L) lifecycle :=
  match o with
  | AddDraft ws sid t => add_draft ws sid t
  | AttachWorkflow ws sid wf run => attach_workflow ws sid wf run
  | Transition cmd => transition cmd
  end.

(** A transition does not go back to draft and is not older than its session. *)
Definition timely (st : store L) (o : op) : Prop :=
  match o with
  | Transition cmd =>
      new_transition cmd = Ok cmd /\ tr_target cmd <> DRAFT /\
      forall l, ss_values st !! (la_workspace_id (tr_event cmd), la_session_id (tr_event cmd)) = Some l ->
        (dt_utc (sl_created_at l) <= dt_utc (la_recorded_at (tr_event cmd)))%Z
  | _ => True
  end.

Lemma insert_consistent st key l (ld : L) :
  store_consistent st -> consistent l -> store_consistent (mkStore ld (<[key := l]> (ss_values st))).
Proof.
  intros Hst Hl k x. cbn [ss_values]. destruct (decide (key = k)) as [<-|Hne].
  - rewrite lookup_insert_eq. by intros [= <-].
  - rewrite lookup_insert_ne by done. apply Hst.
Qed.

Lemma exec_consistent st o : store_consistent st -> timely st o -> store_consistent (fst (exec o st)).
Proof.
  intros Hst Ht. destruct o as [ws sid t|ws sid wf run|cmd]; cbn [exec].
  - unfold add_draft. rewrite run_lift. destruct (new_lifecycle _) as [l|x] eqn:Hl; [|done].
    rewrite run_get, run_lift. unfold guard_not. destruct (is_some _); cbn; [done|].
    apply insert_consistent; [done|]. by eapply draft_consistent.
  - unfold attach_workflow. rewrite run_lift. unfold guard_not. destruct (_ || _); cbn [raise]; [done|].
    rewrite run_get, run_lift. unfold _required.
    destruct (ss_values st !! (ws, sid)) as [l|] eqn:Hl; cbn [res_of_option]; [|done].
    rewrite run_lift. destruct (_ && _); cbn; [done|]. apply insert_consistent; [done|].
    destruct (Hst _ _ Hl) as [(Hw & H1 & H2 & H3 & H4 & H5)%projection_iff Hs Hr]. split; try done.
    apply projection_iff. cbn. by rewrite <- H5.
  - pose proof (transition_branches cmd st) as Hb. destruct (transition cmd st) as [st' [l|x]]; cbn in Hb |- *.
    + destruct Hb as (cur & e & Hcur & _ & [(_ & Hv & _)|(_ & Hstep & -> & Hv)]).
      * intros k y. rewrite Hv. apply Hst.
      * destruct Ht as (Hn & Htgt & Hage). destruct st' as [ld vs]. cbn in Hv. subst vs.
        apply insert_consistent; [done|]. apply apply_changes_consistent; auto.
        -- by eapply Hst.
        -- unfold new_transition in Hn. apply validated_Ok, guard_bind in Hn as [Hr _]. lia.
    + destruct Hb as [Hv _]. intros k y. rewrite Hv. apply Hst.
Qed.

Inductive reachable : store L -> Prop :=
| reach_empty ld : reachable (mkStore ld ∅)
| reach_step st o : reachable st -> timely st o -> reachable (fst (exec o st)).

Lemma reachable_store_consistent st : reachable st -> store_consistent st.
Proof.
  induction 1 as [ld|st o _ IH Ht]; [intros k y Hy; cbn in Hy; by rewrite lookup_empty in Hy|].
  by apply exec_consistent.
Qed.

(** A transition that does not go back to draft and is not older than the session. *)
Definition moves_forward (cmd : transition_command) (l : lifecycle) : Prop :=
  tr_target cmd <> DRAFT /\ (dt_utc (sl_created_at l) <= dt_utc (la_recorded_at (tr_event cmd)))%Z.

(** Exactly these keep the projection: the update is copied in without being
    validated again. *)
Lemma apply_changes_projection cur cmd :
  consistent cur ->
  step_ok (sl_state cur) (tr_target cmd) (sl_round cur) (tr_round cmd) (tr_allow_same_state cmd) ->
  (0 <= tr_round cmd)%Z ->
  consistent_projection (apply_changes cur cmd) = Ok tt <-> moves_forward cmd cur.
Proof.
  intros Hc Hstep Hr. split.
  - intros (_ & Ht & Hd & _)%projection_iff. cbn in Ht, Hd. split; [|done]. intros Heq. by specialize (Hd Heq).
  - intros [Hd Ht]. by apply apply_changes_consistent.
Qed.

(** C4. Every lifecycle of a store reached by drafts, attachments and timely
    transitions, failed ones included, passes the projection's validator:
    workflow ids come together, the update is not before the creation, the start
    and end times match the state.  Timely transitions, those that neither go
    back to draft nor were recorded before the session was created, are exactly
    the ones that keep it so: of the validated commands that succeed on such a
    store, one returns a lifecycle the validator accepts if and only if it is a
    retry, which returns the stored lifecycle, or timely. *)
Theorem reachable_consistent st (Hr : reachable st) :
  (forall key l, ss_values st !! key = Some l -> consistent_projection l = Ok tt /\ (0 <= sl_round l)%Z) /\
  forall cmd st' l, new_transition cmd = Ok cmd -> transition cmd st = (st', Ok l) ->
    consistent_projection l = Ok tt <->
    ss_values st !! (la_workspace_id (tr_event cmd), la_session_id (tr_event cmd)) = Some l \/ moves_forward cmd l.
Proof.
  pose proof (reachable_store_consistent st Hr) as Hc. split.
  { intros key l Hl. by destruct (Hc key l Hl). }
  intros cmd st' l Hn Ht. pose proof (transition_branches cmd st) as Hb. rewrite Ht in Hb.
  destruct Hb as (cur & e & Hcur & _ & Hcase). destruct (Hc _ _ Hcur) as [Hproj Hs Hround].
  destruct Hcase as [(-> & _)|(_ & Hstep & -> & _)]; [tauto|].
  unfold new_transition in Hn. apply validated_Ok, guard_bind in Hn as [Hn _].
  split; [|intros [Hin|Hm]].
  - intros Hx. right. apply apply_changes_projection in Hx as [Hd Hage]; [by split|done|done|lia].
  - by destruct (Hc _ _ Hin).
  - apply apply_changes_projection; [done|done|lia|done].
Qed.

End operations.

(** ** Retries *)

(** What a retried command asks of the ledger: where it is good for an event, an
    append that succeeded can be repeated without effect. *)
Class LedgerLaws (L : Type) `{LedgerPort L} : Type := {
  ledger_good : L -> LedgerAppend -> Prop;
  ledger_retry : forall st st' event e, ledger_good st event ->
    port_append event st = (st', Ok e) -> port_append event st' = (st', Ok e)
}.

#[global] Instance sql_ledger_laws : LedgerLaws ledger := {|
  ledger_good st event := ledger_inv st /\ new_append event = Ok event /\ json_wf (JObj (la_payload event));
  ledger_retry st st' event e Hg Happ :=
    append_again st st' event e (proj1 Hg) (proj1 (proj2 Hg)) (proj2 (proj2 Hg)) Happ
|}.

Lemma retry_of_current {L} `{LedgerPort L} cmd (st : store L) cur e :
  ss_values st !! (la_workspace_id (tr_event cmd), la_session_id (tr_event cmd)) = Some cur ->
  sl_state cur = tr_target cmd -> sl_last_event_id cur = Some (la_id (tr_event cmd)) ->
  port_append (tr_event cmd) (ss_ledger st) = (ss_ledger st, Ok e) ->
  transition cmd st = (st, Ok cur).
Proof.
  intros Hcur Hs Hl Hp. unfold transition. rewrite run_get, run_lift. unfold _required. cbn [fst snd].
  rewrite Hcur. cbn [res_of_option]. rewrite !bool_decide_true by done. cbn [andb].
  rewrite run_ledger_append, Hp. by destruct st.
Qed.

(** Lifecycle commands are idempotent: repeating a command that succeeded
    returns the same lifecycle and changes neither the ledger nor the store. *)
Theorem transition_idempotent {L} `{LedgerLaws L} cmd (st st' : store L) l
    (Hg : ledger_good (ss_ledger st) (tr_event cmd)) (Ht : transition cmd st = (st', Ok l)) :
  transition cmd st' = (st', Ok l).
Proof.
  pose proof (transition_branches cmd st) as Hb. rewrite Ht in Hb. cbn in Hb.
  destruct Hb as (cur & e & Hcur & Hp & Hcase). pose proof (ledger_retry _ _ _ _ Hg Hp) as Hp'.
  destruct Hcase as [(-> & Hv & Hs & Hl)|(_ & _ & -> & Hv)].
  - apply (retry_of_current cmd st' cur e); [by rewrite Hv|done..].
  - apply (retry_of_current cmd st' _ e); [rewrite Hv; apply lookup_insert_eq|done..].
Qed.

End Session.

(** ** Session controls *)
Module Control.

Inductive kind : Type := PAUSE | RESUME | CANCEL | HUMAN_INPUT.

#[global] Instance kind_eq_dec : EqDecision kind.
Proof. solve_decision. Defined.

Inductive directive_kind : Type :=
| INJECT_EVIDENCE | ADD_CONSTRAINT | MODIFY_OBJECTIVE | REQUEST_SIMULATION | REQUEST_CRITIQUE
| REQUEST_ANOTHER_ROUND | REJECT_RECOMMENDATION | OVERRIDE_OUTCOME.

Record directive : Type := mkDirective {
  hd_kind : directive_kind;
  hd_instruction : string;
  hd_artifact_ids : list uuid
}.

(** [HumanDirective]: the field constraints and the two validators. *)
Definition directive_ok (d : directive) : bool :=
  filled (hd_instruction d) && (str_len (hd_instruction d) <=? 10000)%Z
  && negb (blank (hd_instruction d)) && distinct (hd_artifact_ids d).

Record command : Type := mkCommand {
  cc_command_id : uuid;
  cc_event_id : uuid;
  cc_failure_event_id : uuid;
  cc_workspace_id : uuid;
  cc_session_id : uuid;
  cc_kind : kind;
  cc_observed_state : Session.state;
  cc_correlation_id : uuid;
  cc_actor_id : uuid;
  cc_requested_at : datetime;
  cc_reason : string;
  cc_directive : option directive
}.

(** [directive_matches_kind] *)
Definition directive_matches_kind (c : command) : res unit :=
  guard_not (xorb (bool_decide (cc_kind c = HUMAN_INPUT)) (is_some (cc_directive c))) ValueErrorC
    "directive must be set exactly for HUMAN_INPUT".

Definition new_command (c : command) : res command :=
  validated "SessionControlCommand"
    (t ← _aware_utc (cc_requested_at c);
     _ ← guard_not (negb (filled (cc_reason c) && (str_len (cc_reason c) <=? 2000)%Z
                          && negb (blank (cc_reason c)) && opt_ok directive_ok (cc_directive c)))
           ValueErrorC "reason must not be blank";
     _ ← directive_matches_kind c;
     Ok (mkCommand (cc_command_id c) (cc_event_id c) (cc_failure_event_id c) (cc_workspace_id c)
           (cc_session_id c) (cc_kind c) (cc_observed_state c) (cc_correlation_id c) (cc_actor_id c) t
           (cc_reason c) (cc_directive c))).

Record control_result : Type := mkControl {
  ct_command : command;
  ct_source : Session.state;
  ct_target : Session.state;
  ct_round : Z
}.

Definition control_event_type (k : kind) : string :=
  match k with
  | PAUSE => "SESSION_PAUSED"
  | RESUME => "SESSION_RESUMED"
  | CANCEL => "SESSION_CANCELLED"
  | HUMAN_INPUT => "HUMAN_DIRECTIVE"
  end.

(** The target state of a command on a running session. *)
Definition control_target (k : kind) (current : Session.state) : Session.state :=
  match k with
  | PAUSE => Session.PAUSED
  | RESUME => Session.RUNNING
  | CANCEL => Session.CANCELLED
  | HUMAN_INPUT => if decide (current = Session.WAITING_FOR_HUMAN) then Session.RUNNING else current
  end.

Definition control_transition (c : command) (current_state : Session.state) (current_round : Z)
    : res control_result :=
  if Session.terminal current_state then
    raise InvalidSessionTransitionC ("session is already terminal in " +:+ Session.state_value current_state)
  else
    let target := control_target (cc_kind c) current_state in
    _ ← Session.validate_session_transition current_state target current_round current_round
          (bool_decide (cc_kind c = HUMAN_INPUT));
    construct (fun t => 0 <=? ct_round t)%Z "SessionControlTransition"
      (mkControl c current_state target current_round).

Definition validate_control_request (k : kind) (l : Session.lifecycle) : res unit :=
  if is_none (Session.sl_workflow_id l) then
    raise InvalidSessionTransitionC "session has not been started"
  else if Session.terminal (Session.sl_state l) then
    raise InvalidSessionTransitionC
      ("session is already terminal in " +:+ Session.state_value (Session.sl_state l))
  else
    match k with
    | HUMAN_INPUT =>
        guard_not (negb (bool_decide (Session.sl_state l ∈
                     [Session.RUNNING; Session.WAITING_FOR_HUMAN; Session.PAUSED])))
          InvalidSessionTransitionC
          ("human input is not accepted while session is " +:+ Session.state_value (Session.sl_state l))
    | _ => Session.validate_session_transition (Session.sl_state l) (control_target k (Session.sl_state l))
             (Session.sl_round l) (Session.sl_round l) false
    end.

(** [SessionControlService.enqueue]: [signal] is the workflow engine's call. *)
Definition is_port_error (c : exn_class) : bool :=
  bool_decide (c ∈ [PermanentPortErrorC; TransientPortErrorC; NotFoundObjectErrorC; IntegrityObjectErrorC]).

Definition enqueue (signal : command -> res unit) (c : command) : res unit :=
  match signal c with
  | Ok u => Ok u
  | Raise e =>
      if is_port_error (exn_cls e) then
        raise WorkflowUnreachableC "the session control could not be delivered"
      else if bool_decide (exn_cls e ∈ [ValueErrorC; ValidationErrorC; InvalidSessionTransitionC]) then
        raise ValidationFailedC "the session control is invalid"
      else Raise e
  end.

(** The states the API accepts human input in are among those the coordinator does. *)
Lemma human_input_accepted s :
  s ∈ [Session.RUNNING; Session.WAITING_FOR_HUMAN; Session.PAUSED] ->
  forall r, Session.validate_session_transition s (control_target HUMAN_INPUT s) r r true = Ok tt.
Proof.
  intros Hs r. apply Session.validate_spec.
  repeat (apply elem_of_cons in Hs as [->|Hs]); [| | |by apply not_elem_of_nil in Hs]; cbn.
  - by constructor.
  - constructor 2; [done|set_solver|done].
  - by constructor.
Qed.

(** Control agreement: a request the API validates against the session's
    lifecycle is one the coordinator executes in that state, to the state the
    graph allows, without changing the round; and apart from human input the API
    refuses nothing the coordinator would execute on a started session. *)
Theorem control_requests_agree c l (Hr : (0 <= Session.sl_round l)%Z) :
  (validate_control_request (cc_kind c) l = Ok tt ->
   exists t, control_transition c (Session.sl_state l) (Session.sl_round l) = Ok t /\
     ct_target t = control_target (cc_kind c) (Session.sl_state l) /\ ct_round t = Session.sl_round l /\
     (ct_target t = Session.sl_state l \/ ct_target t ∈ Session._TRANSITIONS (Session.sl_state l))) /\
  (Session.sl_workflow_id l <> None -> cc_kind c <> HUMAN_INPUT ->
   is_ok (control_transition c (Session.sl_state l) (Session.sl_round l)) = true ->
   validate_control_request (cc_kind c) l = Ok tt).
Proof.
  unfold validate_control_request, control_transition. split.
  - destruct (is_none _); [done|]. destruct (Session.terminal (Session.sl_state l)); [done|]. intros H.
    assert (Hv : Session.validate_session_transition (Session.sl_state l)
              (control_target (cc_kind c) (Session.sl_state l)) (Session.sl_round l) (Session.sl_round l)
              (bool_decide (cc_kind c = HUMAN_INPUT)) = Ok tt).
    { destruct (cc_kind c); try done. apply guard_not_Ok, negb_false_iff, bool_decide_eq_true in H.
      by apply human_input_accepted. }
    rewrite Hv. cbn [mbind res_bind]. eexists. split; [apply construct_Ok; split; [cbn; lia|done]|].
    split; [done|]. split; [done|]. cbn. apply Session.validate_spec in Hv. destruct Hv; auto.
  - intros Hw Hk Hok. destruct (Session.sl_workflow_id l); [cbn [is_none]|done].
    destruct (Session.terminal _); [done|]. apply is_ok_bind in Hok as ([] & Hv & _).
    rewrite bool_decide_false in Hv by done. by destruct (cc_kind c).
Qed.

End Control.
