(* ===== verification/LedgerExamples.v ===== *)
(** * A concrete ledger

    A session's ledger with two events, the theorems of the ledger applied to
    it, and a retry the idempotency check does not tell from the original. *)

From S2P Require Import Prelude.
From S2P Require Import Clock.
From S2P Require Import Json.
From S2P Require Import Symbolic.
From S2P Require Import ConsensusPorts.
From S2P Require Import Ledger.

(** A new ledger: one session with its head at genesis. *)
Definition opened (key : uuid * uuid) : ledger := mkLedger [] {[key := mkHead 1 GENESIS_HASH]} [].

Lemma opened_inv key : ledger_inv (opened key).
Proof.
  split; cbn.
  - constructor.
  - intros r Hr. by apply not_elem_of_nil in Hr.
  - intros k h Hh. apply lookup_singleton_Some in Hh as [<- <-]. exists []. split; [done|].
    apply verify_events_chain. done.
Defined.

Module LedgerDemo.

Definition at_micros (t : Z) : datetime := utc_datetime (1700000000000000 + t).

Definition event (id : uuid) (kind : string) (round : Z) (t : Z) : LedgerAppend :=
  mkAppend id 1 2 kind 1 None 77 SERVICE 88 round [("state", JStr kind); ("n", JInt t)] (at_micros t).

Definition first_event : LedgerAppend := event 100 "SESSION_INITIALIZED" 0 10.
Definition second_event : LedgerAppend := event 101 "SESSION_STARTED" 1 20.

Definition one : ledger := fst (append first_event (opened (1%N, 2%N))).
Definition two : ledger := fst (append second_event one).

Lemma first_valid : new_append first_event = Ok first_event.
Proof. vm_compute. reflexivity. Defined.

Lemma second_valid : new_append second_event = Ok second_event.
Proof. vm_compute. reflexivity. Defined.

Lemma one_inv : ledger_inv one.
Proof. apply append_inv; [apply opened_inv|exact first_valid]. Defined.

Lemma two_inv : ledger_inv two.
Proof. apply append_inv; [exact one_inv|exact second_valid]. Defined.

Definition two_events : list LedgerEvent :=
  Eval vm_compute in
  match mapR _event_from_row (session_rows 1 2 two) with Ok es => es | Raise _ => [] end.
Definition last_event : LedgerEvent :=
  Eval vm_compute in match snd (append second_event one) with
                     | Ok e => e
                     | Raise _ => mkEvent second_event 0 "" "" ""
                     end.
Definition last_head : head :=
  Eval vm_compute in default (mkHead 0 "") (lg_heads two !! (1%N, 2%N)).

Lemma two_reads : mapR _event_from_row (session_rows 1 2 two) = Ok two_events.
Proof. vm_compute. reflexivity. Defined.

Lemma two_verifies : verify 1 2 two = Ok (mkVerification true 2 (head_hash last_head) None None).
Proof. vm_compute. reflexivity. Defined.

Lemma two_head : lg_heads two !! (1%N, 2%N) = Some last_head.
Proof. vm_compute. reflexivity. Defined.

Lemma append_keeps_chain_witness : append_result second_event one (append second_event one).
Proof. apply append_keeps_chain; [exact one_inv|exact second_valid]. Defined.

Lemma verify_iff_chain_witness : session_chain 1 2 two.
Proof. apply (verify_iff_chain 1 2 two _ two_verifies). reflexivity. Defined.

Lemma tamper_evident_witness :
  Forall2 same_event two_events two_events \/ hash_collision two_events two_events.
Proof.
  apply (tamper_evident 1 2 two two last_head two_events two_events);
    try exact two_head; try exact two_reads;
    try (eexists; split; [exact two_verifies|reflexivity]);
    repeat constructor; vm_compute; reflexivity.
Defined.

Lemma read_is_slice_witness :
  exists es, mapR _event_from_row (session_rows 1 2 two) = Ok es /\ read 1 2 2 5 two = Ok (take 5 (drop 1 es)).
Proof.
  destruct (read_is_slice 1 2 two 2 5 two_inv) as (es & Hes & Hread & _);
    [exists last_head; exact two_head|reflexivity|reflexivity|]. exists es. split; [exact Hes|exact Hread].
Defined.

Lemma append_two : append second_event one = (two, Ok last_event).
Proof.
  assert (Hs : snd (append second_event one) = Ok last_event) by (vm_compute; reflexivity).
  rewrite <- Hs. unfold two. apply surjective_pairing.
Defined.

Lemma second_wf : json_wf (JObj (la_payload second_event)).
Proof.
  cbn. split; [|done]. repeat (apply NoDup_cons; split; [intros H; repeat (apply elem_of_cons in H as [H|H]; [discriminate|]); by apply not_elem_of_nil in H|]).
  constructor.
Defined.

Lemma append_idempotent_witness : append second_event two = (two, Ok last_event).
Proof. exact (append_idempotent one two second_event last_event one_inv second_valid second_wf append_two). Defined.

(** A retry that says [true] where the stored payload says 1 passes for the same
    append: Python's [==] does not tell the two apart. *)
Example boolean_retry_accepted :
  append (mkAppend 102 1 2 "NOTE" 1 None 77 SERVICE 88 0 [("n", JBool true)] (at_micros 5))
    (fst (append (mkAppend 102 1 2 "NOTE" 1 None 77 SERVICE 88 0 [("n", JInt 1)] (at_micros 5))
       (opened (1%N, 2%N))))
  = append (mkAppend 102 1 2 "NOTE" 1 None 77 SERVICE 88 0 [("n", JInt 1)] (at_micros 5))
      (fst (append (mkAppend 102 1 2 "NOTE" 1 None 77 SERVICE 88 0 [("n", JInt 1)] (at_micros 5))
         (opened (1%N, 2%N)))).
Proof. vm_compute. reflexivity. Qed.

End LedgerDemo.
