(* ===== verification/LifecycleExamples.v ===== *)
(** * Concrete lifecycles

    A session driven over a ledger that remembers ids, the theorems of the
    lifecycle applied to it, and transitions on which the in-memory store leaves
    what the projection's validator accepts. *)

From S2P Require Import Prelude.
From S2P Require Import Clock.
From S2P Require Import Json.
From S2P Require Import Symbolic.
From S2P Require Import ConsensusPorts.
From S2P Require Import Ledger.
From S2P Require Import Lifecycle.

Module LifecycleDemo.

Definition at_micros (t : Z) : datetime := utc_datetime (1700000000000000 + t).

Definition event (id : uuid) (kind : string) (round : Z) (t : Z) : LedgerAppend :=
  mkAppend id 1 2 kind 1 None 77 SERVICE 88 round [("state", JStr kind)] (at_micros t).

(** A ledger that only remembers the ids it has seen. *)
Definition seen : Type := list uuid.

Definition seen_append (e : LedgerAppend) : ST seen LedgerEvent := fun st =>
  (if bool_decide (la_id e ∈ st) then st else st ++ [la_id e], Ok (mkEvent e 1 "" "" "")).

#[global] Instance seen_ledger : Session.LedgerPort seen := {| Session.port_append := seen_append |}.

Lemma seen_retry (st st' : seen) e r :
  True -> seen_append e st = (st', Ok r) -> seen_append e st' = (st', Ok r).
Proof.
  intros _. unfold seen_append. case_bool_decide as Hin; intros [= <- <-].
  - by rewrite bool_decide_true.
  - rewrite bool_decide_true; [done|]. apply elem_of_app. right. constructor.
Defined.

#[global] Instance seen_laws : Session.LedgerLaws seen :=
  {| Session.ledger_good _ _ := True; Session.ledger_retry := seen_retry |}.

Definition empty_store : Session.store seen := Session.mkStore [] ∅.

Definition command (id : uuid) (source target : Session.state) (round t : Z) (same : bool)
    : Session.transition_command :=
  Session.mkTransition source target round
    (event id (Session.state_value target) round t) same.

Definition drafted : Session.store seen := fst (Session.exec (Session.AddDraft 1 2 (at_micros 0)) empty_store).
Definition start : Session.transition_command := command 100 Session.DRAFT Session.INITIALIZING 0 10 false.
Definition started : Session.store seen := fst (Session.exec (Session.Transition start) drafted).

Lemma transition_graph_witness :
  (Session.terminal Session.PAUSED = false -> Session.FAILED ∈ Session._TRANSITIONS Session.PAUSED) /\
  (3 <> 2 -> Session.RUNNING = Session.RUNNING)%Z.
Proof.
  destruct (Session.transition_graph Session.PAUSED Session.RUNNING 2 3 false) as (_ & Hf & _ & Hr & _);
    [vm_compute; reflexivity|]. split; [exact Hf|exact Hr].
Defined.

Lemma started_reachable : Session.reachable started.
Proof.
  apply Session.reach_step; [apply Session.reach_step; [apply Session.reach_empty|exact I]|].
  split; [reflexivity|]. split; [discriminate|]. intros l Hl. vm_compute in Hl. injection Hl as <-.
  vm_compute. discriminate.
Defined.

Definition started_lifecycle : Session.lifecycle :=
  Eval vm_compute in
  match snd (Session.exec (Session.Transition start) drafted) with
  | Ok l => l
  | Raise _ => Session.draft 0 0 (at_micros 0)
  end.

(** The start has gone through; a later command recorded in time keeps the
    projection, one recorded before the session does not. *)
Lemma reachable_consistent_witness :
  Session.consistent_projection started_lifecycle = Ok tt /\
  (forall st' l, Session.transition (command 101 Session.INITIALIZING Session.RUNNING 0 20 false) started = (st', Ok l) ->
     Session.consistent_projection l = Ok tt).
Proof.
  destruct (Session.reachable_consistent started started_reachable) as [Hall Hexact]. split.
  - apply (Hall (1%N, 2%N) started_lifecycle). vm_compute. reflexivity.
  - intros st' l Hl.
    apply (Hexact (command 101 Session.INITIALIZING Session.RUNNING 0 20 false) st' l ltac:(vm_compute; reflexivity) Hl). right. vm_compute in Hl. injection Hl as _ <-.
    split; [discriminate|vm_compute; discriminate].
Defined.

Lemma transition_idempotent_witness : Session.transition start started = (started, Ok started_lifecycle).
Proof.
  apply (@Session.transition_idempotent seen seen_ledger seen_laws start drafted started started_lifecycle I). vm_compute. reflexivity.
Defined.

Definition pause : Control.command :=
  Control.mkCommand 5 6 7 1 2 Control.PAUSE Session.RUNNING 8 9 (at_micros 0) "stop" None.

Definition running : Session.lifecycle :=
  Session.mkLifecycle 1 2 Session.RUNNING 3 (Some "w") (Some "r") (Some 4%N) (Some (at_micros 0))
    (Some (at_micros 0)) None (at_micros 0) (at_micros 5).

Lemma control_requests_agree_witness :
  exists t, Control.control_transition pause Session.RUNNING 3 = Ok t /\ Control.ct_target t = Session.PAUSED.
Proof.
  destruct (Control.control_requests_agree pause running) as [H _]; [vm_compute; discriminate|].
  destruct H as (t & Ht & Htgt & _); [vm_compute; reflexivity|]. exists t. split; [exact Ht|exact Htgt].
Defined.

(** ** Transitions the store accepts and the validator would not *)

(** An event recorded before the session was created moves the update before the
    creation: the copy is not validated again. *)
Example early_event_breaks_projection :
  match Session.transition (command 100 Session.DRAFT Session.INITIALIZING 0 (-10) false) drafted with
  | (_, Ok l) => Session.consistent_projection l
  | (_, Raise e) => Raise e
  end = raise ValueErrorC "updated_at must not precede created_at".
Proof. vm_compute. reflexivity. Qed.

(** A same-state event on a draft leaves a draft with a transition event. *)
Example same_state_draft_breaks_projection :
  match Session.transition (command 100 Session.DRAFT Session.DRAFT 0 10 true) drafted with
  | (_, Ok l) => Session.consistent_projection l
  | (_, Raise e) => Raise e
  end = raise ValueErrorC "a draft lifecycle cannot have a transition event".
Proof. vm_compute. reflexivity. Qed.

End LifecycleDemo.
