(* ===== verification/Coordinator.v ===== *)
(** * Coordinator policy

    [app/domain/coordinator_policy.py], [app/application/coordinator_policy.py]
    and the store of [app/db/coordinator_policy.py]: who takes part in which
    round, and what happens when a token or cost ceiling is reached.  The state
    holds the tables the store queries, with the lifecycles and the ledger of
    the same transaction.  Constraints and triggers of the database beyond the
    primary keys are not modelled. *)

From S2P Require Import Prelude.
From S2P Require Import PyDecimal.
From S2P Require Import Clock.
From S2P Require Import Json.
From S2P Require Import ConsensusPorts.
From S2P Require Import Symbolic.
From S2P Require Import ConsensusHelpers.
From S2P Require Import Ledger.
From S2P Require Import Lifecycle.
Import Session.

(** ** Agent definitions *)

Inductive AgentRoleKind : Type := DOMAIN_EXPERT | CRITIC | ORCHESTRATOR | RETRIEVER | EVALUATOR.
Inductive AgentStatus : Type := AGENT_DRAFT | AGENT_ACTIVE | AGENT_DEPRECATED | AGENT_WITHDRAWN.

#[export] Instance AgentStatus_eq_dec : EqDecision AgentStatus.
Proof. solve_decision. Defined.

Record AgentDefinition : Type := mkDefinition {
  ad_id : uuid;
  ad_workspace_id : uuid;
  ad_logical_id : uuid;
  ad_version : Z;
  ad_name : string;
  ad_domain : string;
  ad_role_kind : AgentRoleKind;
  ad_objectives : list string;
  ad_constraints : list string;
  ad_knowledge_ns : list uuid;
  ad_strategy_ref : string;
  ad_strategy_ver : string;
  ad_prompt_ref : string;
  ad_prompt_hash : string;
  ad_llm_config_id : option uuid;
  ad_tool_perms : list string;
  ad_budget : dict string json;
  ad_status : AgentStatus;
  ad_superseded_by : option uuid;
  ad_referenced_at : option datetime;
  ad_created_at : option datetime;
  ad_updated_at : option datetime
}.

(** ** Interventions and snapshots *)

Inductive intervention_kind : Type := REPLACE | INJECT.

#[export] Instance intervention_kind_eq_dec : EqDecision intervention_kind.
Proof. solve_decision. Defined.

Definition kind_value (k : intervention_kind) : string :=
  match k with REPLACE => "REPLACE" | INJECT => "INJECT" end.

Record MembershipIntervention : Type := mkIntervention {
  mi_event_id : uuid;
  mi_workspace_id : uuid;
  mi_session_id : uuid;
  mi_kind : intervention_kind;
  mi_replaced_agent_definition_id : option uuid;
  mi_agent_definition_id : uuid;
  mi_effective_round : Z;
  mi_actor_id : uuid;
  mi_correlation_id : uuid;
  mi_reason : string;
  mi_recorded_at : datetime
}.

#[export] Instance MembershipIntervention_eq_dec : EqDecision MembershipIntervention.
Proof. solve_decision. Defined.

(** [MembershipIntervention.replacement_shape] *)
Definition replacement_shape (m : MembershipIntervention) : res unit :=
  _ ← guard_not (xorb (bool_decide (mi_kind m = REPLACE)) (is_some (mi_replaced_agent_definition_id m)))
        ValueErrorC "REPLACE requires exactly one replaced agent definition";
  guard_not (bool_decide (mi_replaced_agent_definition_id m = Some (mi_agent_definition_id m)))
    ValueErrorC "replacement agent definition must differ".

Definition new_intervention (m : MembershipIntervention) : res MembershipIntervention :=
  validated "MembershipIntervention"
    (_ ← guard_not (negb ((1 <=? mi_effective_round m)%Z && filled (mi_reason m))) ValueErrorC "field constraints";
     t ← _aware_utc (mi_recorded_at m);
     _ ← guard_not (blank (mi_reason m)) ValueErrorC "reason must not be blank";
     _ ← replacement_shape m;
     Ok (mkIntervention (mi_event_id m) (mi_workspace_id m) (mi_session_id m) (mi_kind m)
           (mi_replaced_agent_definition_id m) (mi_agent_definition_id m) (mi_effective_round m)
           (mi_actor_id m) (mi_correlation_id m) (mi_reason m) t)).

Record MembershipSnapshot : Type := mkSnapshot {
  ms_workspace_id : uuid;
  ms_session_id : uuid;
  ms_round : Z;
  ms_definitions : list AgentDefinition
}.

(** [MembershipSnapshot.one_version_per_logical_agent] *)
Definition one_version_per_logical_agent (s : MembershipSnapshot) : res unit :=
  _ ← guard_not (bool_decide (ms_definitions s = [])) ValueErrorC "session membership must not be empty";
  _ ← guard_not (existsb (fun d => negb (bool_decide (ad_workspace_id d = ms_workspace_id s))) (ms_definitions s))
        ValueErrorC "session membership contains another workspace";
  guard_not (negb (distinct (map ad_logical_id (ms_definitions s)))) ValueErrorC
    "session membership contains multiple versions of one logical agent".

Definition new_snapshot (s : MembershipSnapshot) : res MembershipSnapshot :=
  validated "MembershipSnapshot"
    (_ ← guard_not (ms_round s <? 1)%Z ValueErrorC "round";
     _ ← one_version_per_logical_agent s;
     Ok s).

(** ** Tables *)

(** [SessionAgentRow] *)
Record binding : Type := mkBinding {
  sa_workspace_id : uuid;
  sa_session_id : uuid;
  sa_agent_def_id : uuid;
  sa_bound_at : datetime
}.

(** [LLMCallRecord] *)
Record call_record : Type := mkCall {
  lc_id : uuid;
  lc_workspace_id : uuid;
  lc_session_id : option uuid;
  lc_agent_def_id : option uuid;
  lc_llm_config_id : option uuid;
  lc_provider : string;
  lc_model : string;
  lc_input_tokens : Z;
  lc_output_tokens : Z;
  lc_cost_usd : dec;
  lc_latency_ms : Z;
  lc_finish_reason : string;
  lc_retry_attempts : Z;
  lc_raw_artifact_ref : string;
  lc_correlation_id : string;
  lc_created_at : option datetime
}.

(** The columns of [SessionRow] the policy reads. *)
Record session_row : Type := mkSessionRow {
  sr_workspace_id : uuid;
  sr_budget_tokens : Z;
  sr_budget_usd : dec
}.

Record world : Type := mkWorld {
  wd_sessions : store ledger;
  wd_rows : gmap uuid session_row;
  wd_definitions : gmap uuid AgentDefinition;
  wd_bindings : list binding;
  wd_interventions : list MembershipIntervention;
  wd_calls : list call_record
}.

Definition wd_events (w : world) : list row := lg_events (ss_ledger (wd_sessions w)).

Definition with_sessions (w : world) (s : store ledger) : world :=
  mkWorld s (wd_rows w) (wd_definitions w) (wd_bindings w) (wd_interventions w) (wd_calls w).

(** An operation of the lifecycle store inside the same transaction. *)
Definition on_sessions {A} (m : ST (store ledger) A) : ST world A := fun w =>
  let '(s, r) := m (wd_sessions w) in (with_sessions w s, r).

(** ** Membership history *)

(** The row of [agent_definitions] with this id in this workspace. *)
Definition definition_in (t : gmap uuid AgentDefinition) (workspace_id id : uuid) : option AgentDefinition :=
  match t !! id with
  | Some d => if bool_decide (ad_workspace_id d = workspace_id) then Some d else None
  | None => None
  end.

Definition get_definition (workspace_id agent_definition_id : uuid) (w : world) : option AgentDefinition :=
  definition_in (wd_definitions w) workspace_id agent_definition_id.

(** [order_by(bound_at, agent_def_id)] *)
Definition bound_before (a b : binding) : bool :=
  (dt_utc (sa_bound_at a) <? dt_utc (sa_bound_at b))%Z
  || ((dt_utc (sa_bound_at a) =? dt_utc (sa_bound_at b))%Z && (sa_agent_def_id a <=? sa_agent_def_id b)%N).

Definition initial_definitions (workspace_id session_id : uuid) (w : world) : list AgentDefinition :=
  omap (fun b => definition_in (wd_definitions w) (sa_workspace_id b) (sa_agent_def_id b))
    (sort_by bound_before
       (List.filter (fun b => bool_decide (sa_workspace_id b = workspace_id)
                              && bool_decide (sa_session_id b = session_id)) (wd_bindings w))).

(** The join of an intervention with its ledger event: the sequence number. *)
Definition event_seq (events : list row) (i : MembershipIntervention) : option Z :=
  match find_row (mi_event_id i) events with
  | Some r => if bool_decide (rw_workspace_id r = mi_workspace_id i)
                 && bool_decide (rw_session_id r = mi_session_id i)
              then Some (rw_ledger_seq r) else None
  | None => None
  end.

Definition sequenced (events : list row) (i : MembershipIntervention) : option (MembershipIntervention * Z) :=
  s ← event_seq events i; Some (i, s).

(** [order_by(effective_round, ledger_seq)] *)
Definition effective_before (a b : MembershipIntervention * Z) : bool :=
  (mi_effective_round (fst a) <? mi_effective_round (fst b))%Z
  || ((mi_effective_round (fst a) =? mi_effective_round (fst b))%Z && (snd a <=? snd b)%Z).

Definition in_force (workspace_id session_id : uuid) (round : Z) (i : MembershipIntervention) : bool :=
  bool_decide (mi_workspace_id i = workspace_id) && bool_decide (mi_session_id i = session_id)
  && (mi_effective_round i <=? round)%Z.

Definition interventions_until (workspace_id session_id : uuid) (round : Z) (w : world)
    : list (MembershipIntervention * Z) :=
  sort_by effective_before
    (omap (sequenced (wd_events w))
       (List.filter (in_force workspace_id session_id round) (wd_interventions w))).

(** [ordered[index] = definition] at the first entry with the id. *)
Fixpoint replace_first (replaced : option uuid) (d : AgentDefinition) (ordered : list AgentDefinition)
    : res (list AgentDefinition) :=
  match ordered with
  | [] => raise LedgerIntegrityErrorC "membership history replaces a definition that is not effective"
  | x :: xs => if bool_decide (Some (ad_id x) = replaced) then Ok (d :: xs)
               else (cons x) <$> replace_first replaced d xs
  end.

Definition replay_step (t : gmap uuid AgentDefinition) (workspace_id : uuid)
    (ordered : list AgentDefinition) (i : MembershipIntervention * Z) : res (list AgentDefinition) :=
  d ← res_of_option KeyErrorC (uuid_str (mi_agent_definition_id (fst i)))
        (definition_in t workspace_id (mi_agent_definition_id (fst i)));
  match mi_kind (fst i) with
  | REPLACE => replace_first (mi_replaced_agent_definition_id (fst i)) d ordered
  | INJECT => Ok (ordered ++ [d])
  end.

Definition membership (workspace_id session_id : uuid) (round : Z) (w : world) : res MembershipSnapshot :=
  _ ← guard_not (round <? 1)%Z ValueErrorC "membership round must be at least 1";
  ordered ← foldR (replay_step (wd_definitions w) workspace_id) (initial_definitions workspace_id session_id w)
              (interventions_until workspace_id session_id round w);
  new_snapshot (mkSnapshot workspace_id session_id round ordered).

Definition find_intervention (event_id : uuid) (l : list MembershipIntervention) : option MembershipIntervention :=
  List.find (fun i => bool_decide (mi_event_id i = event_id)) l.

Definition get_intervention (event_id : uuid) (w : world) : res (option MembershipIntervention) :=
  match find_intervention event_id (wd_interventions w) with
  | Some i => Some <$> new_intervention i
  | None => Ok None
  end.

(** [UPDATE agent_definitions SET referenced_at = COALESCE(referenced_at, :at)] *)
Definition touch (at_ : datetime) (d : AgentDefinition) : AgentDefinition :=
  mkDefinition (ad_id d) (ad_workspace_id d) (ad_logical_id d) (ad_version d) (ad_name d) (ad_domain d)
    (ad_role_kind d) (ad_objectives d) (ad_constraints d) (ad_knowledge_ns d) (ad_strategy_ref d)
    (ad_strategy_ver d) (ad_prompt_ref d) (ad_prompt_hash d) (ad_llm_config_id d) (ad_tool_perms d)
    (ad_budget d) (ad_status d) (ad_superseded_by d)
    (match ad_referenced_at d with Some t => Some t | None => Some at_ end)
    (ad_created_at d) (ad_updated_at d).

Definition reference_definition (workspace_id agent_id : uuid) (at_ : datetime)
    (t : gmap uuid AgentDefinition) : gmap uuid AgentDefinition :=
  match definition_in t workspace_id agent_id with
  | Some d => <[agent_id := touch at_ d]> t
  | None => t
  end.

Definition add_intervention (i : MembershipIntervention) : ST world unit :=
  w ← get_st;
  match find_intervention (mi_event_id i) (wd_interventions w) with
  | Some existing =>
      persisted ← lift_res (new_intervention existing);
      lift_res (guard_not (negb (bool_decide (persisted = i))) LedgerIntegrityErrorC
                  "membership intervention event id was reused with different content")
  | None =>
      put_st (mkWorld (wd_sessions w) (wd_rows w)
                (reference_definition (mi_workspace_id i) (mi_agent_definition_id i) (mi_recorded_at i)
                   (wd_definitions w))
                (wd_bindings w) (wd_interventions w ++ [i]) (wd_calls w))
  end.

(** ** [SessionMembershipCoordinator.apply] *)

Definition expected_round (l : lifecycle) : Z :=
  if (sl_round l =? 0)%Z then 1 else (sl_round l + 1)%Z.

(** The lifecycle checks: existence, round and kind. *)
Definition check_session (request : MembershipIntervention) (l : option lifecycle) : res lifecycle :=
  match l with
  | None => raise InvalidSessionTransitionC "session is missing or terminal"
  | Some l =>
      _ ← guard_not (terminal (sl_state l)) InvalidSessionTransitionC "session is missing or terminal";
      _ ← guard_not (negb (mi_effective_round request =? expected_round l)%Z) InvalidSessionTransitionC
            ("membership intervention must become effective in round " +:+ Z_str (expected_round l));
      _ ← guard_not (bool_decide (mi_kind request = REPLACE) && negb (sl_round l =? 0)%Z)
            InvalidSessionTransitionC "agent replacement is allowed only before round 1";
      _ ← guard_not (bool_decide (mi_kind request = INJECT) && (sl_round l =? 0)%Z)
            InvalidSessionTransitionC "agent injection requires a started session";
      Ok l
  end.

Definition check_definition (request : MembershipIntervention) (d : option AgentDefinition)
    : res AgentDefinition :=
  match d with
  | Some d =>
      if bool_decide (ad_workspace_id d = mi_workspace_id request) && bool_decide (ad_status d = AGENT_ACTIVE)
      then Ok d
      else raise ValueErrorC "new agent definition must be active in the session workspace"
  | None => raise ValueErrorC "new agent definition must be active in the session workspace"
  end.

(** The checks against the members of the target round. *)
Definition check_logical (request : MembershipIntervention) (d : AgentDefinition)
    (current : list AgentDefinition) : res unit :=
  match mi_kind request with
  | REPLACE =>
      replaced_id ← res_of_option AssertionErrorC "" (mi_replaced_agent_definition_id request);
      replaced ← res_of_option ValueErrorC "replaced agent definition is not effective for the target round"
                   (index_by ad_id current !! replaced_id);
      guard_not (bool_decide (ad_logical_id d ∈
                   map ad_logical_id (List.filter (fun x => negb (bool_decide (ad_id x = ad_id replaced))) current)))
        ValueErrorC "replacement would add multiple versions of one logical agent"
  | INJECT =>
      guard_not (bool_decide (ad_logical_id d ∈ map ad_logical_id current))
        ValueErrorC "injection would add multiple versions of one logical agent"
  end.

Definition intervention_event (request : MembershipIntervention) (l : lifecycle) (d : AgentDefinition)
    : LedgerAppend :=
  mkAppend (mi_event_id request) (mi_workspace_id request) (mi_session_id request)
    (if bool_decide (mi_kind request = REPLACE) then "SESSION_AGENT_REPLACED" else "SESSION_AGENT_INJECTED")
    1 None (mi_correlation_id request) HUMAN (mi_actor_id request) (sl_round l)
    [("kind", JStr (kind_value (mi_kind request)));
     ("replaced_agent_definition_id", opt_uuid_json (mi_replaced_agent_definition_id request));
     ("agent_definition_id", JStr (uuid_str (mi_agent_definition_id request)));
     ("agent_definition_version", JInt (ad_version d));
     ("logical_agent_id", JStr (uuid_str (ad_logical_id d)));
     ("effective_round", JInt (mi_effective_round request));
     ("reason", JStr (mi_reason request))]
    (mi_recorded_at request).

(** What the checks let through: the lifecycle and the definition. *)
Definition admit_request (request : MembershipIntervention) (w : world) : res (lifecycle * AgentDefinition) :=
  l ← check_session request (get (mi_workspace_id request) (mi_session_id request) (wd_sessions w));
  d ← check_definition request (get_definition (mi_workspace_id request) (mi_agent_definition_id request) w);
  current ← membership (mi_workspace_id request) (mi_session_id request) (mi_effective_round request) w;
  _ ← check_logical request d (ms_definitions current);
  Ok (l, d).

Definition effective_membership (request : MembershipIntervention) (w : world) : res MembershipSnapshot :=
  membership (mi_workspace_id request) (mi_session_id request) (mi_effective_round request) w.

Definition apply (request : MembershipIntervention) : ST world MembershipSnapshot :=
  w ← get_st;
  prior ← lift_res (get_intervention (mi_event_id request) w);
  match prior with
  | Some prior =>
      expected ← lift_res (new_intervention request);
      persisted ← lift_res (new_intervention prior);
      _ ← lift_res (guard_not (negb (bool_decide (persisted = expected))) ValueErrorC
                      "membership intervention event id was reused with different content");
      lift_res (effective_membership request w)
  | None =>
      '(l, d) ← lift_res (admit_request request w);
      event ← lift_res (new_append (intervention_event request l d));
      _ ← on_sessions (ledger_append event);
      _ ← add_intervention request;
      w' ← get_st;
      lift_res (effective_membership request w')
  end.

(** ** What membership depends on *)

(** The part of a definition membership is about; a mention never changes it. *)
Definition core (d : AgentDefinition) : uuid * uuid * uuid := (ad_id d, ad_workspace_id d, ad_logical_id d).
#[global] Arguments core : simpl never.
Definition snapshot_core (s : MembershipSnapshot) : list (uuid * uuid * uuid) := map core (ms_definitions s).

Definition same_core (t t' : gmap uuid AgentDefinition) : Prop := forall id, core <$> t !! id = core <$> t' !! id.

Lemma core_eq d d' :
  core d = core d' -> ad_id d = ad_id d' /\ ad_workspace_id d = ad_workspace_id d' /\ ad_logical_id d = ad_logical_id d'.
Proof. unfold core. by intros [= -> -> ->]. Qed.

Lemma definition_in_Some t ws id d :
  definition_in t ws id = Some d <-> t !! id = Some d /\ ad_workspace_id d = ws.
Proof.
  unfold definition_in. destruct (t !! id) as [x|]; [|naive_solver].
  destruct (bool_decide_reflect (ad_workspace_id x = ws)); naive_solver.
Qed.

Lemma definition_in_core t t' ws id :
  same_core t t' -> core <$> definition_in t ws id = core <$> definition_in t' ws id.
Proof.
  intros Ht. specialize (Ht id). unfold definition_in.
  destruct (t !! id) as [d|], (t' !! id) as [d'|]; try done. assert (Hc : core d = core d') by (cbn in Ht; congruence).
  apply core_eq in Hc as Hd. destruct Hd as (_ & -> & _). case_bool_decide; [|done]. cbn. by rewrite Hc.
Qed.

Lemma reference_same_core t ws id at_ : same_core t (reference_definition ws id at_ t).
Proof.
  intros i. unfold reference_definition. destruct (definition_in t ws id) as [d|] eqn:Hd; [|done].
  apply definition_in_Some in Hd as [Hd _]. destruct (decide (i = id)) as [->|Hne].
  - by rewrite lookup_insert_eq, Hd.
  - by rewrite lookup_insert_ne.
Qed.

Lemma omap_core {A} (f g : A -> option AgentDefinition) l :
  (forall x, core <$> f x = core <$> g x) -> map core (omap f l) = map core (omap g l).
Proof.
  intros H. induction l as [|x l IH]; [done|]. cbn. specialize (H x).
  destruct (f x), (g x); try done. cbn in *. congruence.
Qed.

Lemma replace_first_core id d d' o o' :
  core d = core d' -> map core o = map core o' ->
  map core <$> replace_first id d o = map core <$> replace_first id d' o'.
Proof.
  intros Hd. revert o'; induction o as [|x o IH]; intros [|x' o'] Ho; try done.
  cbn [map] in Ho. assert (Hx : core x = core x') by congruence. assert (Ho' : map core o = map core o') by congruence.
  cbn [replace_first]. destruct (core_eq _ _ Hx) as (-> & _). case_bool_decide.
  - cbn. by rewrite Ho', Hd.
  - specialize (IH o' Ho'). destruct (replace_first id d o), (replace_first id d' o'); cbn in IH |- *; congruence.
Qed.

Lemma replay_step_core t t' ws o o' i :
  same_core t t' -> map core o = map core o' ->
  map core <$> replay_step t ws o i = map core <$> replay_step t' ws o' i.
Proof.
  intros Ht Ho. unfold replay_step. pose proof (definition_in_core t t' ws (mi_agent_definition_id (fst i)) Ht) as Hd.
  destruct (definition_in t _ _) as [d|], (definition_in t' _ _) as [d'|]; try done. cbn [res_of_option mbind res_bind].
  assert (Hc : core d = core d') by (cbn in Hd; congruence).
  destruct (mi_kind (fst i)); [by apply replace_first_core|]. cbn. rewrite !map_app, Ho. cbn. by rewrite Hc.
Qed.

Lemma replay_core t t' ws ivs o o' :
  same_core t t' -> map core o = map core o' ->
  map core <$> foldR (replay_step t ws) o ivs = map core <$> foldR (replay_step t' ws) o' ivs.
Proof.
  intros Ht. revert o o'; induction ivs as [|i ivs IH]; intros o o' Ho; cbn [foldR]; [cbn; by rewrite Ho|].
  pose proof (replay_step_core t t' ws o o' i Ht Ho) as Hs.
  destruct (replay_step t ws o i) as [p|e], (replay_step t' ws o' i) as [p'|e']; cbn in Hs |- *; try done.
  apply IH. congruence.
Qed.

Lemma new_snapshot_core ws sid r o o' :
  map core o = map core o' ->
  snapshot_core <$> new_snapshot (mkSnapshot ws sid r o) = snapshot_core <$> new_snapshot (mkSnapshot ws sid r o').
Proof.
  intros Ho. unfold new_snapshot, one_version_per_logical_agent. cbn [ms_round ms_definitions ms_workspace_id].
  assert (H1 : bool_decide (o = []) = bool_decide (o' = [])) by (by destruct o, o').
  assert (H2 : map ad_logical_id o = map ad_logical_id o').
  { change (map (fun d => snd (core d)) o = map (fun d => snd (core d)) o').
    rewrite <- !(map_map core snd). by rewrite Ho. }
  assert (H3 : existsb (fun d => negb (bool_decide (ad_workspace_id d = ws))) o
               = existsb (fun d => negb (bool_decide (ad_workspace_id d = ws))) o').
  { clear H1 H2. revert o' Ho; induction o as [|x o IH]; intros [|x' o'] Ho; try done.
    cbn [map] in Ho. assert (Hx : core x = core x') by congruence. assert (Ho' : map core o = map core o') by congruence.
    cbn. destruct (core_eq _ _ Hx) as (_ & -> & _). by rewrite (IH o' Ho'). }
  rewrite H1, H2, H3. unfold guard_not.
  destruct (r <? 1)%Z, (bool_decide (o' = [])), (existsb _ o'), (negb (distinct _)); try reflexivity.
  cbn. unfold snapshot_core. cbn [ms_definitions]. by rewrite Ho.
Qed.

(** Two states with the same bindings, the same definitions up to mentions and the
    same interventions in force have the same members. *)
Lemma membership_core ws sid r w w' :
  same_core (wd_definitions w) (wd_definitions w') -> wd_bindings w = wd_bindings w' ->
  interventions_until ws sid r w = interventions_until ws sid r w' ->
  snapshot_core <$> membership ws sid r w = snapshot_core <$> membership ws sid r w'.
Proof.
  intros Ht Hb Hi. unfold membership. rewrite Hi. destruct (guard_not _ _ _); [|done]. cbn [mbind res_bind].
  assert (Ho : map core (initial_definitions ws sid w) = map core (initial_definitions ws sid w')).
  { unfold initial_definitions. rewrite Hb. apply omap_core. intros b. by apply definition_in_core. }
  pose proof (replay_core _ _ ws (interventions_until ws sid r w') _ _ Ht Ho) as Hr.
  destruct (foldR _ (initial_definitions ws sid w) _) as [p|e], (foldR _ (initial_definitions ws sid w') _) as [p'|e'];
    cbn in Hr |- *; try done. apply new_snapshot_core. congruence.
Qed.

(** ** The invariant of the tables *)

Record members_inv (w : world) : Prop := {
  wi_ledger : ledger_inv (ss_ledger (wd_sessions w));
  wi_keys : forall id d, wd_definitions w !! id = Some d -> ad_id d = id;
  wi_valid : forall i, i ∈ wd_interventions w -> new_intervention i = Ok i;
  wi_events : forall i, i ∈ wd_interventions w -> is_Some (event_seq (wd_events w) i);
  wi_rounds : forall i, i ∈ wd_interventions w -> exists l,
    get (mi_workspace_id i) (mi_session_id i) (wd_sessions w) = Some l /\
    (mi_effective_round i <= expected_round l)%Z
}.

(** Every row of a session is numbered before the head's next number. *)
Lemma stored_seq_bound st r h :
  ledger_inv st -> r ∈ lg_events st -> lg_heads st !! (rw_workspace_id r, rw_session_id r) = Some h ->
  (rw_ledger_seq r < next_seq h)%Z.
Proof.
  intros Hi Hr Hh. destruct (li_chain st Hi _ h Hh) as (es & HF & [Hc Hn]%verify_events_chain).
  assert (Hin : r ∈ rows_of (rw_workspace_id r, rw_session_id r) st).
  { apply filter_elem. split; [done|]. unfold of_session. by rewrite !bool_decide_true. }
  apply list_elem_of_lookup in Hin as (k & Hk). apply mapR_Ok in HF.
  destruct (Forall2_lookup_l _ _ _ _ _ HF Hk) as (e & He & Hre).
  apply event_from_row_facts in Hre as (_ & <- & _). rewrite (chain_seq _ _ _ _ _ _ Hc He), Hn.
  apply lookup_lt_Some in He. lia.
Qed.

Lemma event_seq_row events i s :
  event_seq events i = Some s ->
  exists r, find_row (mi_event_id i) events = Some r /\ rw_ledger_seq r = s /\
    (rw_workspace_id r, rw_session_id r) = (mi_workspace_id i, mi_session_id i).
Proof.
  unfold event_seq. destruct (find_row _ _) as [r|]; [|done]. destruct (bool_decide_reflect (rw_workspace_id r = mi_workspace_id i));
    [|done]. destruct (bool_decide_reflect (rw_session_id r = mi_session_id i)); [|done].
  intros [= <-]. exists r. split_and!; try done. congruence.
Qed.

Lemma find_row_app_Some id l l' r : find_row id l = Some r -> find_row id (l ++ l') = Some r.
Proof. unfold find_row. induction l as [|x l IH]; cbn; [done|]. by destruct (bool_decide (rw_id x = id)). Qed.

(** Appended rows leave the numbers of the recorded interventions alone. *)
Lemma event_seq_app events l i : is_Some (event_seq events i) -> event_seq (events ++ l) i = event_seq events i.
Proof.
  intros [s Hs]. rewrite Hs. apply event_seq_row in Hs as (r & Hf & <- & [= Hw Hsid]).
  unfold event_seq. by rewrite (find_row_app_Some _ _ l r Hf), !bool_decide_true.
Qed.

Lemma sequenced_app events l (ivs : list MembershipIntervention) :
  (forall i, i ∈ ivs -> is_Some (event_seq events i)) ->
  omap (sequenced (events ++ l)) ivs = omap (sequenced events) ivs.
Proof.
  intros H. induction ivs as [|i ivs IH]; [done|].
  assert (Hs : sequenced (events ++ l) i = sequenced events i).
  { unfold sequenced. by rewrite event_seq_app by (apply H; set_solver). }
  cbn. rewrite Hs, IH; [done|]. intros j Hj. apply H. set_solver.
Qed.

Lemma sequenced_elem events (ivs : list MembershipIntervention) x :
  x ∈ omap (sequenced events) ivs -> fst x ∈ ivs /\ event_seq events (fst x) = Some (snd x).
Proof.
  intros (i & Hi & Hs)%list_elem_of_omap. unfold sequenced in Hs.
  destruct (event_seq events i) as [s|] eqn:E; [|done]. cbn in Hs. by injection Hs as <-.
Qed.

(** ** The effect of an admitted request *)

(** The state an admitted request leaves, with its ledger event [e]. *)
Definition applied (request : MembershipIntervention) (e : LedgerEvent) (w : world) : world :=
  let key := (mi_workspace_id request, mi_session_id request) in
  mkWorld (mkStore (store_event key e (ss_ledger (wd_sessions w))) (ss_values (wd_sessions w))) (wd_rows w)
    (reference_definition (mi_workspace_id request) (mi_agent_definition_id request) (mi_recorded_at request)
       (wd_definitions w))
    (wd_bindings w) (wd_interventions w ++ [request]) (wd_calls w).

(** A request that was neither recorded nor left an event. *)
Definition unseen (request : MembershipIntervention) (w : world) : Prop :=
  find_intervention (mi_event_id request) (wd_interventions w) = None /\
  find_row (mi_event_id request) (wd_events w) = None.

Lemma get_intervention_none request w : unseen request w -> get_intervention (mi_event_id request) w = Ok None.
Proof. intros [H _]. unfold get_intervention. by rewrite H. Qed.

Lemma intervention_event_valid request l d :
  new_intervention request = Ok request -> (0 <= sl_round l)%Z ->
  new_append (intervention_event request l d) = Ok (intervention_event request l d).
Proof.
  unfold new_intervention. rewrite validated_Ok. intros H Hr. rewrite guard_bind in H. destruct H as [_ H].
  apply bind_Ok in H as (t & Ht & H). rewrite !guard_bind in H. destruct H as (_ & H).
  apply bind_Ok in H as ([] & _ & [= Heq]).
  assert (Ha : _aware_utc (mi_recorded_at request) = Ok (mi_recorded_at request)).
  { rewrite <- Heq at 2. cbn. exact Ht. }
  apply new_append_valid; [| |exact Ha].
  2: { unfold intervention_event, opt_uuid_json. cbn [la_payload float_free forallb snd andb].
       by destruct (mi_replaced_agent_definition_id request). }
  unfold LedgerAppend_fields_ok, intervention_event. cbn [la_event_type la_payload_schema_version la_round].
  apply Z.leb_le in Hr. rewrite Hr. by case_bool_decide.
Qed.

(** What admission has checked. *)
Lemma admit_facts request w l d :
  admit_request request w = Ok (l, d) ->
  get (mi_workspace_id request) (mi_session_id request) (wd_sessions w) = Some l /\
  terminal (sl_state l) = false /\ mi_effective_round request = expected_round l /\
  definition_in (wd_definitions w) (mi_workspace_id request) (mi_agent_definition_id request) = Some d /\
  exists cur, effective_membership request w = Ok cur /\ check_logical request d (ms_definitions cur) = Ok tt.
Proof.
  unfold admit_request, effective_membership. intros (l' & Hl & H)%bind_Ok. apply bind_Ok in H as (d' & Hd & H).
  apply bind_Ok in H as (cur & Hcur & H). apply bind_Ok in H as ([] & Hc & [= -> ->]).
  unfold check_session in Hl. destruct (get _ _ _) as [l0|]; [|done]. rewrite !guard_bind in Hl.
  destruct Hl as (Ht & He & _ & _ & [= ->]). apply negb_false_iff, Z.eqb_eq in He.
  unfold check_definition, get_definition in Hd. destruct (definition_in _ _ _) as [d0|] eqn:Hd0; [|done].
  destruct (_ && _); [|done]. injection Hd as ->. split_and!; eauto.
Qed.

Lemma admitted_round request w l d :
  new_intervention request = Ok request -> admit_request request w = Ok (l, d) -> (0 <= sl_round l)%Z.
Proof.
  intros Hr (_ & _ & He & _)%admit_facts. unfold new_intervention in Hr. rewrite validated_Ok, guard_bind in Hr.
  destruct Hr as [Hr _]. apply negb_false_iff, andb_true_iff in Hr as [Hr%Z.leb_le _].
  unfold expected_round in He. destruct (Z.eqb_spec (sl_round l) 0); lia.
Qed.

(** The two ends of a new request: refused with nothing changed, or admitted,
    its event linked after the session's head and the intervention recorded. *)
Inductive apply_ends (request : MembershipIntervention) (w : world) : world * res MembershipSnapshot -> Prop :=
| apply_refused x :
    (forall l d, admit_request request w = Ok (l, d) ->
       lg_heads (ss_ledger (wd_sessions w)) !! (mi_workspace_id request, mi_session_id request) = None) ->
    apply_ends request w (w, Raise x)
| apply_admitted l d e h :
    admit_request request w = Ok (l, d) ->
    lg_heads (ss_ledger (wd_sessions w)) !! (mi_workspace_id request, mi_session_id request) = Some h ->
    links (next_seq h) (head_hash h) e -> le_append e = intervention_event request l d -> event_valid e ->
    apply_ends request w (applied request e w, effective_membership request (applied request e w)).

Lemma run_on_sessions {A B} (m : ST (store ledger) A) (f : A -> ST world B) w s r :
  m (wd_sessions w) = (s, r) ->
  (on_sessions m ≫= f) w = match r with Ok a => f a (with_sessions w s) | Raise e => (with_sessions w s, Raise e) end.
Proof. intros Hm. rewrite run_bind. unfold on_sessions. rewrite Hm. by destruct r. Qed.

Lemma with_same_sessions w : with_sessions w (mkStore (ss_ledger (wd_sessions w)) (ss_values (wd_sessions w))) = w.
Proof. by destruct w as [[]]. Qed.

Lemma apply_effect request w :
  members_inv w -> new_intervention request = Ok request -> unseen request w ->
  apply_ends request w (apply request w).
Proof.
  intros Hi Hr Hu. unfold apply. rewrite run_get, run_lift, (get_intervention_none _ _ Hu), run_lift.
  destruct (admit_request request w) as [[l d]|x] eqn:Had; [|by apply apply_refused; congruence].
  pose proof (intervention_event_valid request l d Hr (admitted_round _ _ _ _ Hr Had)) as Hv.
  rewrite run_lift, Hv. destruct Hu as [Hui Hur].
  set (event := intervention_event request l d) in *. set (st := ss_ledger (wd_sessions w)).
  destruct (lg_heads st !! (la_workspace_id event, la_session_id event)) as [h|] eqn:Hh.
  - destruct (append_fresh st event h (wi_ledger w Hi) Hv Hur Hh) as (e & Happ & Hl & He & Hev).
    erewrite run_on_sessions; [|unfold ledger_append; cbn [port_append sql_ledger]; fold st; by rewrite Happ].
    cbn iota. rewrite run_bind. unfold add_intervention at 1. rewrite run_get. cbn [with_sessions wd_interventions].
    rewrite Hui. cbn. by apply (apply_admitted request w l d e h).
  - destruct (append_headless st event Hur Hh) as (x & Happ).
    erewrite run_on_sessions; [|unfold ledger_append; cbn [port_append sql_ledger]; fold st; by rewrite Happ].
    cbn iota. unfold st. rewrite with_same_sessions. by apply apply_refused.
Qed.

Section effect.
Context (request : MembershipIntervention) (w : world) (l : lifecycle) (d : AgentDefinition)
  (e : LedgerEvent) (h : head).
Hypotheses (Hi : members_inv w) (Hr : new_intervention request = Ok request) (Hu : unseen request w)
  (Had : admit_request request w = Ok (l, d))
  (Hh : lg_heads (ss_ledger (wd_sessions w)) !! (mi_workspace_id request, mi_session_id request) = Some h)
  (Hl : links (next_seq h) (head_hash h) e) (He : le_append e = intervention_event request l d)
  (Hev : event_valid e).

Lemma request_sequenced : event_seq (wd_events (applied request e w)) request = Some (le_ledger_seq e).
Proof.
  unfold event_seq. change (wd_events (applied request e w)) with (wd_events w ++ [row_of_event e]).
  rewrite (find_row_app _ _ (row_of_event e)) by (first [apply Hu|unfold row_of_event; by rewrite He]).
  unfold row_of_event. cbn [rw_workspace_id rw_session_id rw_ledger_seq]. rewrite He. cbn. by rewrite !bool_decide_true.
Qed.

Lemma recorded_sequenced ws sid r :
  omap (sequenced (wd_events (applied request e w)))
    (List.filter (in_force ws sid r) (wd_interventions w))
  = omap (sequenced (wd_events w)) (List.filter (in_force ws sid r) (wd_interventions w)).
Proof.
  apply (sequenced_app (wd_events w) [row_of_event e]). intros i [Hin _]%filter_elem. by apply (wi_events w Hi).
Qed.

(** Where the request is not in force nothing changes. *)
Lemma until_unaffected ws sid r :
  in_force ws sid r request = false ->
  interventions_until ws sid r (applied request e w) = interventions_until ws sid r w.
Proof.
  intros Hf. unfold interventions_until.
  change (wd_interventions (applied request e w)) with (wd_interventions w ++ [request]).
  rewrite List.filter_app. cbn [List.filter]. rewrite Hf, app_nil_r. by rewrite recorded_sequenced.
Qed.

(** Where it is in force it comes last: no recorded intervention is effective
    later, and its event has the highest number. *)
Lemma until_affected ws sid r :
  in_force ws sid r request = true ->
  interventions_until ws sid r (applied request e w)
  = interventions_until ws sid r w ++ [(request, le_ledger_seq e)].
Proof.
  intros Hf. unfold interventions_until.
  change (wd_interventions (applied request e w)) with (wd_interventions w ++ [request]).
  rewrite List.filter_app. cbn [List.filter]. rewrite Hf, omap_app, recorded_sequenced.
  replace (omap (sequenced (wd_events (applied request e w))) [request]) with [(request, le_ledger_seq e)]
    by (unfold omap, list_omap, sequenced; by rewrite request_sequenced).
  apply sort_by_snoc. intros [i s] [[Hin Hforce]%filter_elem Hs]%sequenced_elem. cbn [fst snd] in *.
  unfold in_force in Hf, Hforce. rewrite !andb_true_iff, !bool_decide_eq_true in Hf, Hforce.
  destruct Hf as [[Hw Hsid] _], Hforce as [[Hw' Hsid'] _].
  destruct (admit_facts _ _ _ _ Had) as (Hget & _ & Heff & _).
  destruct (wi_rounds w Hi i Hin) as (l' & Hget' & Hle). rewrite Hw', Hsid', <- Hw, <- Hsid, Hget in Hget'.
  injection Hget' as <-. unfold effective_before. cbn [fst snd]. rewrite Heff.
  apply event_seq_row in Hs as (rw & Hf & <- & Hkey). apply find_row_Some in Hf as [Hrw _].
  assert (Hlt : (rw_ledger_seq rw < next_seq h)%Z).
  { apply (stored_seq_bound _ rw h (wi_ledger w Hi) Hrw). rewrite Hkey. by rewrite Hw', Hsid', <- Hw, <- Hsid. }
  rewrite (lk_seq _ _ _ Hl). destruct (Z.ltb_spec (mi_effective_round i) (expected_round l)); [done|].
  cbn. apply andb_true_iff. split; [apply Z.eqb_eq|apply Z.leb_le]; lia.
Qed.

End effect.

(** ** Edits of a snapshot *)

Lemma new_snapshot_Ok s s' :
  new_snapshot s = Ok s' <->
  s' = s /\ (1 <= ms_round s)%Z /\ ms_definitions s <> [] /\
  (forall d, d ∈ ms_definitions s -> ad_workspace_id d = ms_workspace_id s) /\
  NoDup (map ad_logical_id (ms_definitions s)).
Proof.
  unfold new_snapshot, one_version_per_logical_agent. rewrite validated_Ok, guard_bind, bind_Ok, Z.ltb_ge.
  assert (Hx : existsb (fun d => negb (bool_decide (ad_workspace_id d = ms_workspace_id s))) (ms_definitions s) = false
               <-> forall d, d ∈ ms_definitions s -> ad_workspace_id d = ms_workspace_id s).
  { rewrite <- not_true_iff_false, existsb_exists. setoid_rewrite negb_true_iff. setoid_rewrite bool_decide_eq_false.
    setoid_rewrite <- list_elem_of_In. split; [|naive_solver].
    intros H d Hd. destruct (decide (ad_workspace_id d = ms_workspace_id s)); [done|]. exfalso. eauto. }
  assert (Hs : forall u, (_ ← guard_not (bool_decide (ms_definitions s = [])) ValueErrorC "session membership must not be empty";
      _ ← guard_not (existsb (fun d => negb (bool_decide (ad_workspace_id d = ms_workspace_id s))) (ms_definitions s))
            ValueErrorC "session membership contains another workspace";
      guard_not (negb (distinct (map ad_logical_id (ms_definitions s)))) ValueErrorC
        "session membership contains multiple versions of one logical agent") = Ok u <->
      ms_definitions s <> [] /\ (forall d, d ∈ ms_definitions s -> ad_workspace_id d = ms_workspace_id s)
      /\ NoDup (map ad_logical_id (ms_definitions s))).
  { intros u. rewrite !guard_bind, guard_not_Ok, Hx, negb_false_iff. unfold distinct.
    by rewrite bool_decide_eq_false, bool_decide_eq_true. }
  setoid_rewrite Hs. split; [intros (H1 & _ & H2 & [= <-]); naive_solver|].
  intros (-> & H1 & H2 & H3 & H4). split; [done|]. by exists tt.
Qed.

(** Every member is the stored definition of its id. *)
Lemma members_stored w ws sid r s :
  members_inv w -> membership ws sid r w = Ok s ->
  s = mkSnapshot ws sid r (ms_definitions s) /\
  forall x, x ∈ ms_definitions s -> definition_in (wd_definitions w) ws (ad_id x) = Some x.
Proof.
  intros Hi H. unfold membership in H. rewrite guard_bind in H. destruct H as [_ H].
  apply bind_Ok in H as (o & Ho & Hs). apply new_snapshot_Ok in Hs as (-> & _ & _ & Hws & _). split; [done|].
  cbn [ms_definitions ms_workspace_id] in *.
  assert (Hin : forall id x, definition_in (wd_definitions w) ws id = Some x ->
                definition_in (wd_definitions w) ws (ad_id x) = Some x).
  { intros id x Hx. pose proof Hx as [Hx' _]%definition_in_Some. by rewrite (wi_keys w Hi _ _ Hx'). }
  assert (Hall : forall x, x ∈ o -> wd_definitions w !! ad_id x = Some x).
  { refine (foldR_inv (fun o => forall x, x ∈ o -> wd_definitions w !! ad_id x = Some x) _ _ _ _ _ _ Ho).
    - intros p i p' _ Hp Hstep x Hx. unfold replay_step in Hstep. apply bind_Ok in Hstep as (d & Hd & Hstep).
      destruct (definition_in _ _ _) as [d'|] eqn:Hd'; [|done]. injection Hd as ->.
      apply Hin, definition_in_Some in Hd' as [Hd' _].
      destruct (mi_kind (fst i)).
      + clear Ho. revert p' Hstep x Hx. induction p as [|y p IH]; intros p' Hstep x Hx; [done|]. cbn [replace_first] in Hstep.
        case_bool_decide.
        * injection Hstep as <-. apply elem_of_cons in Hx as [->|Hx]; [done|]. apply Hp. set_solver.
        * apply fmap_Ok in Hstep as (q & Hq & ->). apply elem_of_cons in Hx as [->|Hx]; [apply Hp; set_solver|].
          apply (IH ltac:(intros; apply Hp; set_solver) q Hq x Hx).
      + injection Hstep as <-. apply elem_of_app in Hx as [Hx|Hx%list_elem_of_singleton]; [by apply Hp|by subst x].
    - intros x (b & _ & Hb)%list_elem_of_omap. apply definition_in_Some in Hb as [Hb _].
      by rewrite (wi_keys w Hi _ _ Hb). }
  intros x Hx. apply definition_in_Some. split; [by apply Hall|by apply Hws].
Qed.

Lemma distinct_ids (t : gmap uuid AgentDefinition) ws l :
  (forall x, x ∈ l -> definition_in t ws (ad_id x) = Some x) -> NoDup (map ad_logical_id l) -> NoDup (map ad_id l).
Proof.
  intros Hst. induction l as [|x l IH]; cbn; [constructor|]. intros [Hx Hl]%NoDup_cons. apply NoDup_cons. split.
  - intros (y & Hy & Hin)%list_elem_of_fmap. apply Hx. replace x with y; [by apply list_elem_of_fmap_2|].
    assert (H1 := Hst x ltac:(set_solver)). assert (H2 := Hst y ltac:(set_solver)). congruence.
  - apply IH; [|done]. intros; apply Hst; set_solver.
Qed.

Definition substitute (rid : uuid) (d : AgentDefinition) (o : list AgentDefinition) : list AgentDefinition :=
  map (fun x => if bool_decide (ad_id x = rid) then d else x) o.

Lemma substitute_absent rid d o : rid ∉ map ad_id o -> substitute rid d o = o.
Proof.
  induction o as [|x o IH]; cbn; [done|]. intros [Hne Ho]%not_elem_of_cons.
  rewrite bool_decide_false by congruence. fold (substitute rid d o). by rewrite IH.
Qed.

Lemma replace_first_substitute rid d o :
  NoDup (map ad_id o) -> rid ∈ map ad_id o -> replace_first (Some rid) d o = Ok (substitute rid d o).
Proof.
  induction o as [|x o IH]; cbn; [by intros _ ?%not_elem_of_nil|]. intros [Hx Ho]%NoDup_cons Hin.
  destruct (decide (ad_id x = rid)) as [<-|Hne].
  - rewrite !bool_decide_true by done. fold (substitute (ad_id x) d o). by rewrite substitute_absent.
  - rewrite !bool_decide_false by congruence. rewrite IH; [done|done|]. apply elem_of_cons in Hin as [->|?]; done.
Qed.

Lemma substitute_logical rid d o :
  NoDup (map ad_id o) -> NoDup (map ad_logical_id o) ->
  ad_logical_id d ∉ map ad_logical_id (List.filter (fun x => negb (bool_decide (ad_id x = rid))) o) ->
  NoDup (map ad_logical_id (substitute rid d o)).
Proof.
  induction o as [|x o IH]; cbn; [constructor|]. intros [Hx Ho]%NoDup_cons [Hlx Hlo]%NoDup_cons Hd.
  destruct (decide (ad_id x = rid)) as [<-|Hne].
  - rewrite bool_decide_true in * by done. cbn [negb] in Hd. fold (substitute (ad_id x) d o).
    rewrite substitute_absent by done. apply NoDup_cons. split; [|done]. intros (y & Hy & Hin)%list_elem_of_fmap. apply Hd. rewrite Hy.
    apply list_elem_of_fmap_2, filter_elem. split; [done|]. rewrite bool_decide_false; [done|].
    intros Heq. apply Hx. rewrite <- Heq. by apply list_elem_of_fmap_2.
  - rewrite bool_decide_false in * by done. cbn [negb map] in Hd. apply not_elem_of_cons in Hd as [Hdx Hd].
    apply NoDup_cons. split; [|by apply IH]. intros (y & Hy & Hin)%list_elem_of_fmap.
    apply list_elem_of_fmap in Hin as (z & -> & Hz). case_bool_decide; [congruence|].
    apply Hlx. rewrite Hy. by apply list_elem_of_fmap_2.
Qed.

(** What an intervention does to the members, by id. *)
Definition edited (request : MembershipIntervention) (ids : list uuid) : list uuid :=
  match mi_kind request with
  | INJECT => ids ++ [mi_agent_definition_id request]
  | REPLACE => map (fun x => if bool_decide (Some x = mi_replaced_agent_definition_id request)
                             then mi_agent_definition_id request else x) ids
  end.

Lemma edit_succeeds w request l d cur seq :
  members_inv w -> admit_request request w = Ok (l, d) -> effective_membership request w = Ok cur ->
  exists o, replay_step (wd_definitions w) (mi_workspace_id request) (ms_definitions cur) (request, seq) = Ok o /\
    is_ok (new_snapshot (mkSnapshot (mi_workspace_id request) (mi_session_id request)
             (mi_effective_round request) o)) = true /\
    map ad_id o = edited request (map ad_id (ms_definitions cur)).
Proof.
  intros Hi Had Hcur. destruct (admit_facts _ _ _ _ Had) as (_ & _ & _ & Hd & cur' & Hcur' & Hlog).
  rewrite Hcur in Hcur'. injection Hcur' as <-.
  destruct (members_stored _ _ _ _ _ Hi Hcur) as [Heq Hst]. unfold effective_membership, membership in Hcur.
  rewrite guard_bind in Hcur. destruct Hcur as [_ Hcur]. apply bind_Ok in Hcur as (o & _ & Hs).
  apply new_snapshot_Ok in Hs as (-> & Hr & Hne & Hws & Hnd). cbn [ms_definitions ms_round ms_workspace_id] in *. clear Heq.
  pose proof (distinct_ids _ _ _ Hst Hnd) as Hids. pose proof Hd as [Hdt Hdw]%definition_in_Some.
  pose proof (wi_keys w Hi _ _ Hdt) as Hdid. unfold replay_step. cbn [fst]. rewrite Hd. cbn [res_of_option mbind res_bind].
  unfold check_logical in Hlog. unfold edited. destruct (mi_kind request).
  - apply bind_Ok in Hlog as (rid & Hrid & Hlog). apply bind_Ok in Hlog as (rep & Hrep & Hlog).
    destruct (mi_replaced_agent_definition_id request) as [rid'|]; [|done]. injection Hrid as ->.
    destruct (index_by ad_id o !! rid) as [rep'|] eqn:Hix; [|done]. injection Hrep as ->.
    apply index_by_Some in Hix as [Hin <-]. apply guard_not_Ok, bool_decide_eq_false in Hlog.
    exists (substitute (ad_id rep) d o). split_and!.
    + apply replace_first_substitute; [done|]. by apply list_elem_of_fmap_2.
    + apply is_ok_exists. eexists. apply new_snapshot_Ok. cbn [ms_definitions ms_round ms_workspace_id]. split_and!; try done.
      * by destruct o.
      * intros x Hx. apply list_elem_of_fmap in Hx as (y & -> & Hy). case_bool_decide; [done|by apply Hws].
      * by apply substitute_logical.
    + unfold substitute. rewrite !map_map. apply map_ext. intros x.
      rewrite (bool_decide_ext (Some (ad_id x) = Some (ad_id rep)) (ad_id x = ad_id rep)) by (split; congruence).
      by case_bool_decide.
  - apply guard_not_Ok, bool_decide_eq_false in Hlog. exists (o ++ [d]). split_and!; [done| |by rewrite map_app; cbn; rewrite Hdid].
    apply is_ok_exists. eexists. apply new_snapshot_Ok. cbn [ms_definitions ms_round ms_workspace_id]. split_and!; try done.
    + by destruct o.
    + intros x [Hx|Hx%list_elem_of_singleton]%elem_of_app; [by apply Hws|by subst x].
    + rewrite map_app. apply NoDup_app. split_and!; [done| |apply NoDup_singleton].
      intros x Hx Hx'%list_elem_of_singleton. by subst x.
Qed.

(** The snapshot of the target round after the request. *)
Lemma applied_membership w request l d e h cur :
  members_inv w -> new_intervention request = Ok request -> unseen request w ->
  admit_request request w = Ok (l, d) ->
  lg_heads (ss_ledger (wd_sessions w)) !! (mi_workspace_id request, mi_session_id request) = Some h ->
  links (next_seq h) (head_hash h) e -> le_append e = intervention_event request l d ->
  effective_membership request w = Ok cur ->
  exists snap, effective_membership request (applied request e w) = Ok snap /\
    map ad_id (ms_definitions snap) = edited request (map ad_id (ms_definitions cur)).
Proof.
  intros Hi Hr Hu Had Hh Hl He Hcur.
  destruct (edit_succeeds w request l d cur (le_ledger_seq e) Hi Had Hcur) as (o & Hstep & Hsnap & Hids).
  assert (Hforce : in_force (mi_workspace_id request) (mi_session_id request) (mi_effective_round request) request = true).
  { unfold in_force. rewrite !bool_decide_true, Z.leb_refl by done. done. }
  unfold effective_membership, membership in Hcur |- *. rewrite guard_bind in Hcur. destruct Hcur as [Hg Hcur].
  rewrite Hg. cbn [guard_not mbind res_bind]. apply bind_Ok in Hcur as (p & Hp & Hs).
  apply new_snapshot_Ok in Hs as (-> & _). cbn [ms_definitions] in *.
  rewrite (until_affected request w l d e h Hi Hu Had Hh Hl He _ _ _ Hforce).
  assert (Hfull : foldR (replay_step (wd_definitions w) (mi_workspace_id request))
            (initial_definitions (mi_workspace_id request) (mi_session_id request) w)
            (interventions_until (mi_workspace_id request) (mi_session_id request) (mi_effective_round request) w
             ++ [(request, le_ledger_seq e)]) = Ok o).
  { rewrite foldR_app, Hp. cbn [mbind res_bind foldR]. by rewrite Hstep. }
  assert (Hsame : same_core (wd_definitions w) (wd_definitions (applied request e w))) by apply reference_same_core.
  assert (Hinit : map core (initial_definitions (mi_workspace_id request) (mi_session_id request) w)
                  = map core (initial_definitions (mi_workspace_id request) (mi_session_id request) (applied request e w))).
  { apply omap_core. intros b. by apply definition_in_core. }
  epose proof (replay_core _ _ (mi_workspace_id request) _ _ _ Hsame Hinit) as Hrep. erewrite Hfull in Hrep.
  destruct (foldR _ _ _) as [o'|x] eqn:E in Hrep; [|done]. rewrite E. cbn [mbind res_bind]. cbn in Hrep. injection Hrep as Hrep.
  pose proof (new_snapshot_core (mi_workspace_id request) (mi_session_id request) (mi_effective_round request) _ _ Hrep) as Hns.
  apply is_ok_exists in Hsnap as (s & Hsnap). rewrite Hsnap in Hns.
  destruct (new_snapshot (mkSnapshot _ _ _ o')) as [s'|x] eqn:Es; [|done]. exists s'. split; [done|].
  apply new_snapshot_Ok in Es as (-> & _). cbn [ms_definitions]. rewrite <- Hids.
  change (map (fun x => fst (fst (core x))) o' = map (fun x => fst (fst (core x))) o).
  rewrite <- !(map_map core (fun c => fst (fst c))). by rewrite Hrep.
Qed.

Definition member_ids (m : res MembershipSnapshot) : res (list uuid) :=
  (fun s => map ad_id (ms_definitions s)) <$> m.

Lemma member_ids_core m m' : snapshot_core <$> m = snapshot_core <$> m' -> member_ids m = member_ids m'.
Proof.
  destruct m as [s|x], m' as [s'|x']; cbn; intros H; try congruence. f_equal.
  change (map (fun d => fst (fst (core d))) (ms_definitions s) = map (fun d => fst (fst (core d))) (ms_definitions s')).
  rewrite <- !(map_map core (fun c => fst (fst c))). unfold snapshot_core in H. congruence.
Qed.

(** Once no recorded intervention of the session is effective later, the members
    are the same in every round. *)
Lemma until_later ws sid r0 r w :
  (forall i, i ∈ wd_interventions w -> (mi_workspace_id i, mi_session_id i) = (ws, sid) -> (mi_effective_round i <= r0)%Z) ->
  (r0 <= r)%Z -> interventions_until ws sid r w = interventions_until ws sid r0 w.
Proof.
  intros Hall Hle. unfold interventions_until. do 2 f_equal. induction (wd_interventions w) as [|i l IH]; [done|]. cbn [List.filter].
  rewrite IH by (intros; apply Hall; [by right|done]). replace (in_force ws sid r i) with (in_force ws sid r0 i); [done|].
  unfold in_force. destruct (decide ((mi_workspace_id i, mi_session_id i) = (ws, sid))) as [Heq|Hne].
  - pose proof (Hall i ltac:(left) Heq). injection Heq as Hw Hs. rewrite !bool_decide_true by done. cbn [andb].
    transitivity true; [|symmetry]; apply Z.leb_le; lia.
  - rewrite <- !bool_decide_and, bool_decide_false; [done|]. intros [? ?]. apply Hne. congruence.
Qed.

Lemma membership_later ws sid r0 r w s :
  interventions_until ws sid r w = interventions_until ws sid r0 w -> (r0 <= r)%Z ->
  membership ws sid r0 w = Ok s -> membership ws sid r w = Ok (mkSnapshot ws sid r (ms_definitions s)).
Proof.
  unfold membership. intros -> Hle. rewrite guard_bind. intros [Hr (o & Ho & Hs)%bind_Ok]. apply Z.ltb_ge in Hr.
  apply guard_bind. split; [apply Z.ltb_ge; lia|]. rewrite Ho. cbn [mbind res_bind].
  apply new_snapshot_Ok in Hs as (-> & H). apply new_snapshot_Ok. split; [done|]. split; [cbn; lia|]. apply H.
Qed.

(** Admission puts a request after everything recorded for its session. *)
Lemma admitted_last w request l d i :
  members_inv w -> admit_request request w = Ok (l, d) -> i ∈ wd_interventions w ++ [request] ->
  (mi_workspace_id i, mi_session_id i) = (mi_workspace_id request, mi_session_id request) ->
  (mi_effective_round i <= mi_effective_round request)%Z.
Proof.
  intros Hi Had [Hin|Hin%list_elem_of_singleton]%elem_of_app; [|by subst i]. intros [= Hw Hs].
  destruct (admit_facts _ _ _ _ Had) as (Hget & _ & Heff & _). destruct (wi_rounds w Hi i Hin) as (l' & Hl' & Hle).
  rewrite Hw, Hs, Hget in Hl'. injection Hl' as <-. lia.
Qed.

(** C23. A new membership request on consistent tables either changes nothing and
    raises, which it does exactly when it is not admitted or its session has no
    ledger head, or returns the snapshot of the target round; and from that round
    on, in every round, the members are those of before with the new definition
    appended (injection) or standing where the replaced one stood (replacement).
    The members of earlier rounds and of other sessions are the same as before. *)
Theorem intervention_takes_effect w request (Hi : members_inv w) (Hr : new_intervention request = Ok request)
    (Hu : unseen request w) :
  (fst (apply request w) = w /\ is_ok (snd (apply request w)) = false /\
   forall l d, admit_request request w = Ok (l, d) ->
     lg_heads (ss_ledger (wd_sessions w)) !! (mi_workspace_id request, mi_session_id request) = None) \/
  exists w' snap, apply request w = (w', Ok snap) /\ effective_membership request w' = Ok snap /\
    (forall r, (mi_effective_round request <= r)%Z -> exists before,
       member_ids (membership (mi_workspace_id request) (mi_session_id request) r w) = Ok before /\
       member_ids (membership (mi_workspace_id request) (mi_session_id request) r w') = Ok (edited request before)) /\
    forall ws sid r, (ws, sid) <> (mi_workspace_id request, mi_session_id request) \/ (r < mi_effective_round request)%Z ->
      member_ids (membership ws sid r w') = member_ids (membership ws sid r w).
Proof.
  destruct (apply_effect request w Hi Hr Hu) as [x Hx|l d e h Had Hh Hl He Hev]; [by left|]. right.
  destruct (admit_facts _ _ _ _ Had) as (_ & _ & _ & _ & cur & Hcur & _).
  destruct (applied_membership w request l d e h cur Hi Hr Hu Had Hh Hl He Hcur) as (snap & Hsnap & Hids).
  exists (applied request e w), snap. split_and!; [by rewrite Hsnap|done| |].
  - intros r Hle. exists (map ad_id (ms_definitions cur)). unfold effective_membership in Hcur, Hsnap.
    pose proof (fun i => admitted_last w request l d i Hi Had) as Hlast.
    rewrite (membership_later _ _ (mi_effective_round request) r w cur); [|apply until_later; [intros i Hin; apply Hlast; set_solver|done]|done|done].
    rewrite (membership_later _ _ (mi_effective_round request) r _ snap); [|by apply until_later|done|done]. cbn. by rewrite Hids.
  - intros ws sid r Hother. apply member_ids_core. symmetry.
    apply membership_core; [apply reference_same_core|done|]. symmetry. apply until_unaffected; [done|].
    unfold in_force. rewrite !andb_false_iff, !bool_decide_eq_false, Z.leb_gt.
    destruct Hother as [Hne|Hlt]; [|by right]. left.
    destruct (decide (mi_workspace_id request = ws)) as [<-|]; [right|by left]. congruence.
Qed.

(** The membership tables stay consistent: a request leaves every recorded
    intervention valid, joined to its own ledger event and effective no later
    than the next round of its session. *)
Theorem membership_consistent w request (Hi : members_inv w) (Hr : new_intervention request = Ok request)
    (Hu : unseen request w) :
  members_inv (fst (apply request w)).
Proof.
  destruct (apply_effect request w Hi Hr Hu) as [x Hx|l d e h Had Hh Hl He Hev]; [done|]. cbn [fst].
  destruct (admit_facts _ _ _ _ Had) as (Hget & _ & Heff & Hd & _). split.
  - cbn [applied wd_sessions ss_ledger].
    assert (Hkey : (la_workspace_id (le_append e), la_session_id (le_append e)) = (mi_workspace_id request, mi_session_id request))
      by by rewrite He.
    rewrite <- Hkey. apply (store_event_inv _ h); [apply Hi|by rewrite Hkey|rewrite He; apply Hu|done|done].
  - intros id x. cbn [applied wd_definitions]. unfold reference_definition. rewrite Hd.
    apply definition_in_Some in Hd as [Hd _]. destruct (decide (id = mi_agent_definition_id request)) as [->|Hne].
    + rewrite lookup_insert_eq. intros [= <-]. cbn. by apply (wi_keys w Hi).
    + rewrite lookup_insert_ne by done. by apply (wi_keys w Hi).
  - intros i [Hin|Hin%list_elem_of_singleton]%elem_of_app; [by apply (wi_valid w Hi)|by subst i].
  - intros i [Hin|Hin%list_elem_of_singleton]%elem_of_app.
    + change (wd_events (applied request e w)) with (wd_events w ++ [row_of_event e]).
      pose proof (wi_events w Hi i Hin) as Hs. by rewrite event_seq_app.
    + subst i. by rewrite (request_sequenced request w l d e Hu He).
  - intros i [Hin|Hin%list_elem_of_singleton]%elem_of_app; [by apply (wi_rounds w Hi)|]. subst i.
    exists l. split; [exact Hget|lia].
Qed.

(** A repeated request is recognised by its event id: after a success, the
    same request returns the same snapshot and changes nothing, and one with the
    same id and other content is refused. *)
Theorem intervention_idempotent w w' request snap (Hi : members_inv w) (Hr : new_intervention request = Ok request)
    (Hu : unseen request w) (Ha : apply request w = (w', Ok snap)) :
  apply request w' = (w', Ok snap) /\
  forall other, new_intervention other = Ok other -> mi_event_id other = mi_event_id request -> other <> request ->
    exists x, apply other w' = (w', Raise x) /\ exn_cls x = ValueErrorC.
Proof.
  pose proof (apply_effect request w Hi Hr Hu) as Hend. rewrite Ha in Hend. inversion Hend as [|l d e h Had Hh Hl He Hev]; subst.
  assert (Hprior : get_intervention (mi_event_id request) (applied request e w) = Ok (Some request)).
  { unfold get_intervention. cbn [applied wd_interventions]. destruct Hu as [Hu _]. unfold find_intervention in Hu |- *.
    replace (List.find _ (wd_interventions w ++ [request])) with (Some request).
    - by rewrite Hr.
    - symmetry. clear - Hu. induction (wd_interventions w) as [|i l IH]; cbn in *; [by rewrite bool_decide_true|].
      destruct (bool_decide (mi_event_id i = _)); [done|by apply IH]. }
  split.
  - unfold apply. rewrite run_get, run_lift, Hprior, run_lift, Hr, run_lift, run_lift.
    rewrite bool_decide_true by done. cbn [negb guard_not]. unfold lift_res. congruence.
  - intros other Ho Hid Hne. unfold apply. rewrite run_get, run_lift, Hid, Hprior, run_lift, Ho, run_lift, Hr, run_lift.
    rewrite bool_decide_false by congruence. cbn. by eexists.
Qed.
