(* ===== verification/Budget.v ===== *)
(** * Budget enforcement

    [BudgetUsage], [BudgetCeiling] of [app/domain/coordinator_policy.py], the
    usage and ceiling queries of [app/db/coordinator_policy.py] and
    [BudgetCoordinator.enforce], [BudgetedAgentTurnDispatcher.dispatch] and
    [_breach] of [app/application/coordinator_policy.py], over the tables of
    [Coordinator].  PostgreSQL adds NUMERIC columns exactly, so the cost is an
    exact sum and not a sum under the decimal context. *)

From S2P Require Import Prelude.
From S2P Require Import PyDecimal.
From S2P Require Import Clock.
From S2P Require Import Json.
From S2P Require Import Symbolic.
From S2P Require Import ConsensusPorts.
From S2P Require Import ConsensusHelpers.
From S2P Require Import ConsensusFacts.
From S2P Require Import Ledger.
From S2P Require Import Lifecycle.
From S2P Require Import Coordinator.
Import Session.

Record BudgetUsage : Type := mkUsage { bu_input_tokens : Z; bu_output_tokens : Z; bu_cost_usd : dec }.
Record BudgetCeiling : Type := mkCeiling { bc_max_tokens : Z; bc_max_usd : dec }.

(** [BudgetUsage.tokens] *)
Definition tokens (u : BudgetUsage) : Z := (bu_input_tokens u + bu_output_tokens u)%Z.

Definition new_usage (u : BudgetUsage) : res BudgetUsage :=
  construct (fun u => (0 <=? bu_input_tokens u)%Z && (0 <=? bu_output_tokens u)%Z && dleb dzero (bu_cost_usd u))
    "BudgetUsage" u.

Definition new_ceiling (c : BudgetCeiling) : res BudgetCeiling :=
  construct (fun c => (0 <? bc_max_tokens c)%Z && dltb dzero (bc_max_usd c)) "BudgetCeiling" c.

(** ** The queries *)

Definition session_ceiling (workspace_id session_id : uuid) (w : world) : res (option BudgetCeiling) :=
  match wd_rows w !! session_id with
  | Some r =>
      if bool_decide (sr_workspace_id r = workspace_id)
      then Some <$> new_ceiling (mkCeiling (sr_budget_tokens r) (sr_budget_usd r))
      else Ok None
  | None => Ok None
  end.

(** [_max_tokens]: an [int], and not a [bool] *)
Definition _max_tokens (value : json) : res Z :=
  match value with JInt z => Ok z | _ => raise ValueErrorC "max_tokens must be an integer" end.

Definition parse_ceiling (budget : dict string json) : res BudgetCeiling :=
  max_tokens ← res_of_option KeyErrorC "max_tokens" (dict_get "max_tokens" budget);
  t ← _max_tokens max_tokens;
  max_cost ← res_of_option KeyErrorC "max_cost_usd" (dict_get "max_cost_usd" budget);
  usd ← decimal_of_str max_cost;
  new_ceiling (mkCeiling t usd).

(** [set(budget) != {"max_tokens", "max_cost_usd"}] *)
Definition budget_keys_ok (budget : dict string json) : bool :=
  forallb (fun kv => bool_decide (fst kv ∈ ["max_tokens"; "max_cost_usd"])) budget
  && bool_decide ("max_tokens" ∈ map fst budget) && bool_decide ("max_cost_usd" ∈ map fst budget).

Definition agent_ceiling (workspace_id agent_definition_id : uuid) (w : world) : res (option BudgetCeiling) :=
  match definition_in (wd_definitions w) workspace_id agent_definition_id with
  | None => Ok None
  | Some d =>
      match ad_budget d with
      | [] => Ok None
      | budget =>
          _ ← guard_not (negb (budget_keys_ok budget)) ValueErrorC
                "agent budget must contain max_tokens and max_cost_usd exactly";
          match parse_ceiling budget with
          | Ok c => Ok (Some c)
          | Raise _ => raise ValueErrorC "agent budget ceiling is invalid"
          end
      end
  end.

(** NUMERIC addition: exact, at the larger scale. *)
Definition numeric_add (a b : dec) : dec :=
  let e := Z.min (d_exp a) (d_exp b) in
  let s := (dint a * 10 ^ (d_exp a - e) + dint b * 10 ^ (d_exp b - e))%Z in
  Dec (s <? 0)%Z (Z.abs_N s) e.

Definition call_of (workspace_id session_id : uuid) (agent : option uuid) (c : call_record) : bool :=
  bool_decide (lc_workspace_id c = workspace_id) && bool_decide (lc_session_id c = Some session_id)
  && match agent with Some a => bool_decide (lc_agent_def_id c = Some a) | None => true end.

Definition usage_of (calls : list call_record) : BudgetUsage :=
  mkUsage (foldr Z.add 0%Z (map lc_input_tokens calls)) (foldr Z.add 0%Z (map lc_output_tokens calls))
    (foldr numeric_add dzero (map lc_cost_usd calls)).

Definition _usage (workspace_id session_id : uuid) (agent : option uuid) (w : world) : res BudgetUsage :=
  new_usage (usage_of (List.filter (call_of workspace_id session_id agent) (wd_calls w))).

Definition session_usage (workspace_id session_id : uuid) (w : world) : res BudgetUsage :=
  _usage workspace_id session_id None w.
Definition agent_usage (workspace_id session_id agent_definition_id : uuid) (w : world) : res BudgetUsage :=
  _usage workspace_id session_id (Some agent_definition_id) w.

(** ** [_breach] and [enforce] *)

Record breach : Type := mkBreach {
  br_scope : string;
  br_agent_id : option uuid;
  br_usage : BudgetUsage;
  br_ceiling : BudgetCeiling
}.

(** The comparison of [_breach]. *)
Definition reached (u : BudgetUsage) (c : BudgetCeiling) : bool :=
  (bc_max_tokens c <=? tokens u)%Z || dleb (bc_max_usd c) (bu_cost_usd u).

Definition _breach (scope : string) (agent_id : option uuid) (u : BudgetUsage) (c : option BudgetCeiling)
    : option breach :=
  match c with
  | None => None
  | Some c => if reached u c then Some (mkBreach scope agent_id u c) else None
  end.

(** The loop over [dict.fromkeys(agent_definition_ids)]. *)
Fixpoint agent_breach (workspace_id session_id : uuid) (agents : list uuid) (w : world) : res (option breach) :=
  match agents with
  | [] => Ok None
  | a :: agents' =>
      u ← agent_usage workspace_id session_id a w;
      c ← agent_ceiling workspace_id a w;
      match _breach "AGENT" (Some a) u c with
      | Some b => Ok (Some b)
      | None => agent_breach workspace_id session_id agents' w
      end
  end.

Definition first_breach (workspace_id session_id : uuid) (agents : list uuid) (w : world) : res (option breach) :=
  u ← session_usage workspace_id session_id w;
  c ← session_ceiling workspace_id session_id w;
  match _breach "SESSION" None u c with
  | Some b => Ok (Some b)
  | None => agent_breach workspace_id session_id (fromkeys agents) w
  end.

(** The arguments of [enforce]. *)
Record budget_check : Type := mkCheck {
  bk_workspace_id : uuid;
  bk_session_id : uuid;
  bk_agents : list uuid;
  bk_event_id : uuid;
  bk_correlation_id : uuid;
  bk_actor_id : uuid;
  bk_checked_at : datetime
}.

Definition exhaustion_event (k : budget_check) (l : lifecycle) (b : breach) : LedgerAppend :=
  mkAppend (bk_event_id k) (bk_workspace_id k) (bk_session_id k) "BUDGET_EXHAUSTED" 1 None
    (bk_correlation_id k) SERVICE (bk_actor_id k) (sl_round l)
    [("from", JStr (state_value (sl_state l)));
     ("to", JStr (state_value FAILED));
     ("termination_reason", JStr "BUDGET_EXHAUSTED");
     ("scope", JStr (br_scope b));
     ("agent_definition_id", opt_uuid_json (br_agent_id b));
     ("usage_tokens", JInt (tokens (br_usage b)));
     ("usage_usd", JStr (dec_str (bu_cost_usd (br_usage b))));
     ("max_tokens", JInt (bc_max_tokens (br_ceiling b)));
     ("max_usd", JStr (dec_str (bc_max_usd (br_ceiling b))))]
    (bk_checked_at k).

(** [enforce] returns, or raises [BudgetExhausted] with the failed lifecycle. *)
Inductive verdict : Type := Within | Exhausted (l : lifecycle).

Definition terminate (k : budget_check) (l : lifecycle) (b : breach) : ST world lifecycle :=
  event ← lift_res (new_append (exhaustion_event k l b));
  command ← lift_res (new_transition (mkTransition (sl_state l) FAILED (sl_round l) event false));
  on_sessions (transition command).

Definition enforce (k : budget_check) : ST world verdict :=
  w ← get_st;
  match get (bk_workspace_id k) (bk_session_id k) (wd_sessions w) with
  | None => raise_st InvalidSessionTransitionC "session lifecycle does not exist"
  | Some l =>
      if terminal (sl_state l) then
        if bool_decide (sl_last_event_id l = Some (bk_event_id k)) && bool_decide (sl_state l = FAILED)
        then mret (Exhausted l)
        else raise_st InvalidSessionTransitionC "session is already terminal"
      else
        b ← lift_res (first_breach (bk_workspace_id k) (bk_session_id k) (bk_agents k) w);
        match b with
        | None => mret Within
        | Some b => terminated ← terminate k l b; mret (Exhausted terminated)
        end
  end.

(** ** [BudgetedAgentTurnDispatcher.dispatch] *)

(** What the dispatcher reads of a [ReasoningContext]. *)
Class TurnContext (C : Type) : Type := {
  tc_workspace_id : C -> uuid;
  tc_session_id : C -> uuid;
  tc_agent_definition_id : C -> uuid;
  tc_correlation_id : C -> uuid
}.

Section dispatch.
Context {C O : Type} `{TurnContext C}.

(** The bounded dispatcher: any operation on the tables. *)
Variable dispatcher : list C -> ST world (list O).

Definition check_of (first : C) (contexts : list C) (event_id actor_id : uuid) (checked_at : datetime)
    : budget_check :=
  mkCheck (tc_workspace_id first) (tc_session_id first) (map tc_agent_definition_id contexts) event_id
    (tc_correlation_id first) actor_id checked_at.

(** The outcomes, or the lifecycle [BudgetExhausted] carries. *)
Definition dispatch (contexts : list C) (event_id actor_id : uuid) (checked_at : datetime)
    : ST world (list O + lifecycle) :=
  match contexts with
  | [] => raise_st ValueErrorC "dispatch requires at least one logical turn"
  | first :: _ =>
      let k := check_of first contexts event_id actor_id checked_at in
      before ← enforce k;
      match before with
      | Exhausted l => mret (inr l)
      | Within =>
          outcomes ← dispatcher contexts;
          after ← enforce k;
          match after with
          | Exhausted l => mret (inr l)
          | Within => mret (inl outcomes)
          end
      end
  end.

End dispatch.

(** ** When a budget is exhausted *)

Section exhausted.
Context (workspace_id session_id : uuid) (agents : list uuid) (w : world).

(** Some ceiling of the session or of a listed agent is reached. *)
Definition over_budget : Prop :=
  (exists u c, session_usage workspace_id session_id w = Ok u /\
     session_ceiling workspace_id session_id w = Ok (Some c) /\ reached u c = true) \/
  exists a u c, a ∈ agents /\ agent_usage workspace_id session_id a w = Ok u /\
     agent_ceiling workspace_id a w = Ok (Some c) /\ reached u c = true.

(** The breach reported is one: the scope's usage reaches the scope's ceiling. *)
Definition is_breach (b : breach) : Prop :=
  reached (br_usage b) (br_ceiling b) = true /\
  ((br_scope b = "SESSION" /\ br_agent_id b = None /\
    session_usage workspace_id session_id w = Ok (br_usage b) /\
    session_ceiling workspace_id session_id w = Ok (Some (br_ceiling b))) \/
   exists a, a ∈ agents /\ br_scope b = "AGENT" /\ br_agent_id b = Some a /\
    agent_usage workspace_id session_id a w = Ok (br_usage b) /\
    agent_ceiling workspace_id a w = Ok (Some (br_ceiling b))).

(** Every usage and ceiling the check reads is well formed. *)
Definition readable : Prop :=
  is_ok (session_usage workspace_id session_id w) = true /\
  is_ok (session_ceiling workspace_id session_id w) = true /\
  forall a, a ∈ agents -> is_ok (agent_usage workspace_id session_id a w) = true /\
                          is_ok (agent_ceiling workspace_id a w) = true.

End exhausted.

Lemma breach_Some scope a u c b : _breach scope a u c = Some b -> exists c', c = Some c' /\ reached u c' = true.
Proof. destruct c as [c|]; [|done]. cbn. destruct (reached u c) eqn:E; [|done]. eauto. Qed.

Lemma breach_None scope a u c : _breach scope a u c = None -> forall c', c = Some c' -> reached u c' = false.
Proof. destruct c as [c|]; [|done]. cbn. destruct (reached u c) eqn:E; [done|]. by intros _ c' [= <-]. Qed.

Lemma agent_breach_spec ws sid agents w :
  (forall a, a ∈ agents -> is_ok (agent_usage ws sid a w) = true /\ is_ok (agent_ceiling ws a w) = true) ->
  exists o, agent_breach ws sid agents w = Ok o /\
    (is_Some o <-> exists a u c, a ∈ agents /\ agent_usage ws sid a w = Ok u /\
       agent_ceiling ws a w = Ok (Some c) /\ reached u c = true).
Proof.
  induction agents as [|a agents IH]; intros Hr; cbn [agent_breach].
  { exists None. split; [done|]. split; [by intros [? ?]|]. intros (a & _ & _ & Ha & _). by apply not_elem_of_nil in Ha. }
  destruct (Hr a ltac:(set_solver)) as [(u & Hu)%is_ok_exists (c & Hc)%is_ok_exists].
  rewrite Hu, Hc. cbn [mbind res_bind]. destruct (_breach "AGENT" (Some a) u c) as [b|] eqn:Hb.
  - exists (Some b). split; [done|]. split; [|by eexists]. intros _. apply breach_Some in Hb as (c' & -> & Hreach).
    exists a, u, c'. split_and!; try done. set_solver.
  - destruct IH as (o & Ho & Hiff); [intros; apply Hr; set_solver|]. exists o. split; [done|]. rewrite Hiff. split.
    + intros (a' & u' & c' & Ha & H). exists a', u', c'. split; [set_solver|done].
    + intros (a' & u' & c' & [->|Ha]%elem_of_cons & Hu' & Hc' & Hreach); [|by exists a', u', c'].
      rewrite Hu in Hu'. rewrite Hc in Hc'. injection Hu' as <-. injection Hc' as ->.
      by rewrite (breach_None _ _ _ _ Hb c') in Hreach.
Qed.

Lemma first_breach_spec ws sid agents w :
  readable ws sid agents w ->
  exists o, first_breach ws sid agents w = Ok o /\ (is_Some o <-> over_budget ws sid agents w).
Proof.
  intros ((u & Hu)%is_ok_exists & (c & Hc)%is_ok_exists & Hr). unfold first_breach. rewrite Hu, Hc. cbn [mbind res_bind].
  destruct (_breach "SESSION" None u c) as [b|] eqn:Hb.
  - exists (Some b). split; [done|]. split; [|by eexists]. intros _. apply breach_Some in Hb as (c' & -> & Hreach).
    left. by exists u, c'.
  - destruct (agent_breach_spec ws sid (fromkeys agents) w) as (o & Ho & Hiff).
    { intros a Ha. rewrite fromkeys_elem in Ha. by apply Hr. }
    exists o. split; [done|]. rewrite Hiff. unfold over_budget. split.
    + intros (a & u' & c' & Ha & H). rewrite fromkeys_elem in Ha. right. by exists a, u', c'.
    + intros [(u' & c' & Hu' & Hc' & Hreach)|(a & u' & c' & Ha & H)].
      * rewrite Hu in Hu'. rewrite Hc in Hc'. injection Hu' as <-. injection Hc' as ->.
        by rewrite (breach_None _ _ _ _ Hb c') in Hreach.
      * exists a, u', c'. split; [by apply fromkeys_elem|done].
Qed.

Lemma breach_reports scope a u c b :
  _breach scope a u c = Some b ->
  exists c', c = Some c' /\ reached u c' = true /\ b = mkBreach scope a u c'.
Proof. destruct c as [c|]; [|done]. cbn. destruct (reached u c) eqn:E; [|done]. intros [= <-]. by exists c. Qed.

Lemma agent_breach_reports ws sid agents w b :
  agent_breach ws sid agents w = Ok (Some b) ->
  reached (br_usage b) (br_ceiling b) = true /\ exists a, a ∈ agents /\ br_scope b = "AGENT" /\
    br_agent_id b = Some a /\ agent_usage ws sid a w = Ok (br_usage b) /\ agent_ceiling ws a w = Ok (Some (br_ceiling b)).
Proof.
  induction agents as [|a agents IH]; cbn [agent_breach]; [done|]. intros (u & Hu & (c & Hc & H)%bind_Ok)%bind_Ok.
  destruct (_breach "AGENT" (Some a) u c) as [b'|] eqn:Hb.
  - injection H as ->. apply breach_reports in Hb as (c' & -> & Hr & ->). split; [done|]. exists a. split_and!; try done. set_solver.
  - destruct (IH H) as (Hr & a' & Ha & Hrest). split; [done|]. exists a'. split; [set_solver|done].
Qed.

Lemma first_breach_reports ws sid agents w b :
  first_breach ws sid agents w = Ok (Some b) -> is_breach ws sid agents w b.
Proof.
  unfold first_breach. intros (u & Hu & (c & Hc & H)%bind_Ok)%bind_Ok.
  destruct (_breach "SESSION" None u c) as [b'|] eqn:Hb.
  - injection H as ->. apply breach_reports in Hb as (c' & -> & Hr & ->). split; [done|]. by left.
  - apply agent_breach_reports in H as (Hr & a & Ha & Hrest). split; [done|]. right. exists a. by rewrite <- fromkeys_elem.
Qed.

(** ** What [enforce] does *)

Definition session_of (k : budget_check) (w : world) : option lifecycle :=
  get (bk_workspace_id k) (bk_session_id k) (wd_sessions w).

Definition live (k : budget_check) (w : world) (l : lifecycle) : Prop :=
  session_of k w = Some l /\ terminal (sl_state l) = false.

Definition checked (k : budget_check) (w : world) : Prop :=
  readable (bk_workspace_id k) (bk_session_id k) (bk_agents k) w.

Definition exhausted (k : budget_check) (w : world) : Prop :=
  over_budget (bk_workspace_id k) (bk_session_id k) (bk_agents k) w.

Lemma enforce_live k w l :
  live k w l ->
  enforce k w = match first_breach (bk_workspace_id k) (bk_session_id k) (bk_agents k) w with
                | Ok None => (w, Ok Within)
                | Ok (Some b) => (terminated ← terminate k l b; mret (Exhausted terminated)) w
                | Raise e => (w, Raise e)
                end.
Proof.
  intros [Hl Ht]. unfold enforce. rewrite run_get. unfold session_of in Hl. rewrite Hl, Ht, run_lift.
  by destruct (first_breach _ _ _ w) as [[b|]|].
Qed.

Lemma enforce_within k w w' : enforce k w = (w', Ok Within) -> w' = w.
Proof.
  unfold enforce. rewrite run_get. destruct (get _ _ _) as [l|]; [|done].
  destruct (terminal _); [by destruct (_ && _)|]. rewrite run_lift.
  destruct (first_breach _ _ _ w) as [[b|]|]; [|by intros [= ->]|done].
  rewrite run_bind. destruct (terminate k l b w) as [w1 [x|x]]; [by intros [=]|done].
Qed.

(** A session that is not terminal can fail in its round. *)
Lemma fail_allowed s r : terminal s = false -> validate_session_transition s FAILED r r false = Ok tt.
Proof.
  intros Ht. apply validate_spec, step_stay; [by intros ->| |done].
  destruct s; cbn in Ht |- *; try done; set_solver.
Qed.

Section exhaustion.
Context (k : budget_check) (w : world) (l : lifecycle) (b : breach) (h : head) (t : datetime).
Let st := ss_ledger (wd_sessions w).
Hypotheses (Hi : ledger_inv st) (Hl : live k w l) (Hround : (0 <= sl_round l)%Z)
  (Ht : _aware_utc (bk_checked_at k) = Ok t)
  (Hf : find_row (bk_event_id k) (lg_events st) = None)
  (Hh : lg_heads st !! (bk_workspace_id k, bk_session_id k) = Some h).

Definition exhaustion_command : transition_command :=
  mkTransition (sl_state l) FAILED (sl_round l) (with_recorded_at (exhaustion_event k l b) t) false.

Lemma exhaustion_event_valid :
  new_append (exhaustion_event k l b) = Ok (with_recorded_at (exhaustion_event k l b) t) /\
  new_append (tr_event exhaustion_command) = Ok (tr_event exhaustion_command).
Proof.
  assert (Hok : LedgerAppend_fields_ok (exhaustion_event k l b) = true).
  { unfold LedgerAppend_fields_ok, exhaustion_event. cbn [la_event_type la_payload_schema_version la_round].
    apply Z.leb_le in Hround. by rewrite Hround. }
  assert (Hff : float_free (JObj (la_payload (exhaustion_event k l b))) = true).
  { unfold exhaustion_event, opt_uuid_json. cbn [la_payload float_free forallb snd andb]. by destruct (br_agent_id b). }
  split; [by apply new_append_total|]. apply new_append_valid; [done|done|].
  by apply aware_utc_Ok in Ht as [_ Ht'].
Qed.

Lemma terminate_runs :
  exists e, links (next_seq h) (head_hash h) e /\ le_append e = with_recorded_at (exhaustion_event k l b) t /\
    ledger_inv (store_event (bk_workspace_id k, bk_session_id k) e st) /\
    terminate k l b w
    = (with_sessions w (mkStore (store_event (bk_workspace_id k, bk_session_id k) e st)
         (<[(bk_workspace_id k, bk_session_id k) := apply_changes l exhaustion_command]> (ss_values (wd_sessions w)))),
       Ok (apply_changes l exhaustion_command)).
Proof.
  destruct Hl as [Hget Hterm]. destruct exhaustion_event_valid as [Hv Hv'].
  destruct (append_fresh st (tr_event exhaustion_command) h Hi Hv' Hf Hh) as (e & Happ & Hlink & Hev & Hv''). exists e.
  split; [exact Hlink|]. split; [exact Hev|].
  split. { pose proof (store_event_inv st h e) as Hs. rewrite Hev in Hs. by apply Hs. }
  unfold terminate. rewrite run_lift, Hv, run_lift. fold exhaustion_command.
  assert (Hne : sl_state l <> FAILED) by (intros Heq; by rewrite Heq in Hterm).
  assert (Hcmd : new_transition exhaustion_command = Ok exhaustion_command).
  { unfold new_transition. apply validated_Ok. rewrite guard_bind. split; [by apply Z.ltb_ge|].
    unfold event_matches_transition. cbn. rewrite Z.eqb_refl. cbn. by rewrite bool_decide_false by done. }
  rewrite Hcmd. unfold on_sessions, transition. rewrite run_get, run_lift. unfold _required. cbn [fst snd].
  unfold session_of, get in Hget.
  change (la_workspace_id (tr_event exhaustion_command)) with (bk_workspace_id k).
  change (la_session_id (tr_event exhaustion_command)) with (bk_session_id k).
  rewrite Hget. cbn [res_of_option]. rewrite (bool_decide_false (sl_state l = tr_target _)) by done. cbn [andb].
  rewrite bool_decide_true by done. cbn [negb]. rewrite run_lift. cbn [tr_target tr_round tr_allow_same_state exhaustion_command].
  rewrite (fail_allowed _ _ Hterm). rewrite run_ledger_append. cbn [port_append sql_ledger]. fold st. by rewrite Happ.
Qed.

End exhaustion.

(** A running session within its budgets goes on: with well-formed usages and
    ceilings the check passes exactly when no ceiling of the session or of a
    listed agent is reached, and passing it changes nothing. *)
Theorem within_iff_under_budget k w l (Hl : live k w l) (Hc : checked k w) :
  enforce k w = (w, Ok Within) <-> ~ exhausted k w.
Proof.
  rewrite (enforce_live k w l Hl). destruct (first_breach_spec _ _ _ _ Hc) as (o & -> & Hiff).
  unfold exhausted. rewrite <- Hiff. destruct o as [b|].
  - split; [|intros H; exfalso; apply H; by eexists]. rewrite run_bind.
    by destruct (terminate k l b w) as [w1 [x|x]].
  - split; [by intros _ [? ?]|done].
Qed.

(** The tables after exhaustion: one more event, the head after it, and the new
    lifecycle. *)
Definition after_exhaustion (k : budget_check) (w : world) (e : LedgerEvent) (l : lifecycle) : world :=
  let key := (bk_workspace_id k, bk_session_id k) in
  with_sessions w (mkStore (store_event key e (ss_ledger (wd_sessions w))) (<[key := l]> (ss_values (wd_sessions w)))).

(** C24. Exhaustion is final: on a live session whose usages and ceilings can all
    be read, once a ceiling is reached and the check's event id is new, the check
    records exactly one event, the next of the session's chain, that carries the
    check's id and reports a ceiling that is reached; it puts the session in
    FAILED with that event as its last one and its end time set, reports that
    lifecycle, and leaves every other row as it was; the same check again reports
    the same and changes nothing, and any other check of the session is refused. *)
Theorem exhaustion_is_final k w l h t (Hl : live k w l) (Hc : checked k w) (Hx : exhausted k w)
    (Hi : ledger_inv (ss_ledger (wd_sessions w))) (Hround : (0 <= sl_round l)%Z)
    (Ht : _aware_utc (bk_checked_at k) = Ok t)
    (Hf : find_row (bk_event_id k) (wd_events w) = None)
    (Hh : lg_heads (ss_ledger (wd_sessions w)) !! (bk_workspace_id k, bk_session_id k) = Some h) :
  exists b e l', let w' := after_exhaustion k w e l' in
    enforce k w = (w', Ok (Exhausted l')) /\
    is_breach (bk_workspace_id k) (bk_session_id k) (bk_agents k) w b /\
    le_append e = with_recorded_at (exhaustion_event k l b) t /\ links (next_seq h) (head_hash h) e /\
    ledger_inv (ss_ledger (wd_sessions w')) /\
    session_of k w' = Some l' /\ sl_state l' = FAILED /\ sl_round l' = sl_round l /\
    sl_last_event_id l' = Some (bk_event_id k) /\ sl_ended_at l' = Some t /\
    enforce k w' = (w', Ok (Exhausted l')) /\
    forall k', (bk_workspace_id k', bk_session_id k') = (bk_workspace_id k, bk_session_id k) ->
      bk_event_id k' <> bk_event_id k ->
      exists x, enforce k' w' = (w', Raise x) /\ exn_cls x = InvalidSessionTransitionC.
Proof.
  destruct (first_breach_spec _ _ _ _ Hc) as (o & Hb & Hiff). apply Hiff in Hx as [b ->]. clear Hiff.
  destruct (terminate_runs k w l b h t Hi Hl Hround Ht Hf Hh) as (e & Hlink & He & Hinv & Hrun).
  set (l' := apply_changes l _) in Hrun. exists b, e, l'. intros w'. fold (after_exhaustion k w e l') in Hrun. fold w' in Hrun.
  assert (Hget : session_of k w' = Some l') by apply lookup_insert_eq.
  assert (Hrun' : enforce k w = (w', Ok (Exhausted l'))) by (rewrite (enforce_live k w l Hl), Hb, run_bind, Hrun; done).
  split_and!; try done.
  - by apply first_breach_reports.
  - unfold enforce. rewrite run_get. unfold session_of in Hget. rewrite Hget. cbn [terminal sl_state l' apply_changes].
    by rewrite !bool_decide_true by done.
  - intros k' [= Hw Hs] Hne. unfold enforce. rewrite run_get. unfold session_of in Hget. rewrite Hw, Hs, Hget.
    rewrite (bool_decide_false (sl_last_event_id l' = _)) by (cbn; congruence). cbn. by eexists.
Qed.

(** Dispatch is guarded on both sides: turns run only after a check that
    passed on the tables as they were, and their outcomes are returned only when
    the same check passes on what they left; an exhausted budget before dispatch
    means no turn ran. *)
Theorem dispatch_guarded {C O} `{TurnContext C} (dispatcher : list C -> ST world (list O))
    first rest event_id actor_id checked_at w w' :
  let contexts := first :: rest in
  let k := check_of first contexts event_id actor_id checked_at in
  let run := dispatch dispatcher contexts event_id actor_id checked_at in
  (forall outcomes, run w = (w', Ok (inl outcomes)) <->
     enforce k w = (w, Ok Within) /\ dispatcher contexts w = (w', Ok outcomes) /\ enforce k w' = (w', Ok Within)) /\
  (forall l, enforce k w = (w', Ok (Exhausted l)) -> run w = (w', Ok (inr l))).
Proof.
  intros contexts k run. unfold run, dispatch. cbn [contexts]. fold contexts k. split.
  - intros outcomes. rewrite run_bind. split.
    + destruct (enforce k w) as [w0 [[|l]|x]] eqn:Hb; [|done|done]. apply enforce_within in Hb as Heq. subst w0.
      rewrite run_bind. destruct (dispatcher contexts w) as [w1 [os|x]] eqn:Hd; [|done]. rewrite run_bind.
      destruct (enforce k w1) as [w2 [[|l]|x]] eqn:Ha; [|done|done]. apply enforce_within in Ha as Heq. subst w2.
      intros [= -> ->]. done.
    + intros (Hb & Hd & Ha). by rewrite Hb, run_bind, Hd, run_bind, Ha.
  - intros l Hb. by rewrite run_bind, Hb.
Qed.

(** ** Usage only grows *)

Lemma numeric_add_sval s a b :
  (s <= d_exp a)%Z -> (s <= d_exp b)%Z -> sval s (numeric_add a b) = (sval s a + sval s b)%Z.
Proof.
  intros Ha Hb. set (e := Z.min (d_exp a) (d_exp b)).
  assert (Hd : dint (numeric_add a b) = (sval e a + sval e b)%Z).
  { unfold numeric_add, dint, sval. fold e. cbn [d_neg d_coef]. set (n := (_ + _)%Z).
    destruct (Z.ltb_spec n 0); rewrite N2Z.inj_abs_N; lia. }
  rewrite (sval_rescale s e a), (sval_rescale s e b) by lia. unfold sval at 1. rewrite Hd.
  cbn [numeric_add d_exp]. fold e. lia.
Qed.

Lemma numeric_add_exp a b : d_exp (numeric_add a b) = Z.min (d_exp a) (d_exp b).
Proof. done. Qed.

Lemma numeric_add_mono a b b' : dleb b b' = true -> dleb (numeric_add a b) (numeric_add a b') = true.
Proof.
  set (s := Z.min (d_exp a) (Z.min (d_exp b) (d_exp b'))). intros Hle.
  rewrite (dleb_sval s) in Hle by lia. rewrite (dleb_sval s) by (rewrite numeric_add_exp; lia).
  rewrite !numeric_add_sval by lia. lia.
Qed.

Lemma numeric_add_above a b : dleb dzero a = true -> dleb b (numeric_add a b) = true.
Proof.
  set (s := Z.min 0 (Z.min (d_exp a) (d_exp b))). intros Ha.
  rewrite (dleb_sval s) in Ha by (cbn; lia). rewrite (dleb_sval s) by (rewrite ?numeric_add_exp; lia).
  rewrite numeric_add_sval by lia. change (sval s dzero) with 0%Z in Ha. lia.
Qed.

Lemma numeric_sum_mono l z z' :
  dleb z z' = true -> dleb (foldr numeric_add z l) (foldr numeric_add z' l) = true.
Proof. intros Hz. induction l as [|a l IH]; [done|]. by apply numeric_add_mono. Qed.

Definition record_call (c : call_record) (w : world) : world :=
  mkWorld (wd_sessions w) (wd_rows w) (wd_definitions w) (wd_bindings w) (wd_interventions w) (wd_calls w ++ [c]).

(** The constraints of the table: no negative count, no negative cost. *)
Definition call_ok (c : call_record) : Prop :=
  (0 <= lc_input_tokens c)%Z /\ (0 <= lc_output_tokens c)%Z /\ dleb dzero (lc_cost_usd c) = true.

Lemma sum_snoc l z : foldr Z.add 0%Z (l ++ [z]) = (foldr Z.add 0%Z l + z)%Z.
Proof. induction l as [|x l IH]; cbn; lia. Qed.

Lemma usage_snoc calls c :
  call_ok c -> let u := usage_of calls in let u' := usage_of (calls ++ [c]) in
  (bu_input_tokens u <= bu_input_tokens u')%Z /\ (bu_output_tokens u <= bu_output_tokens u')%Z /\
  dleb (bu_cost_usd u) (bu_cost_usd u') = true.
Proof.
  intros (Hin & Hout & Hcost). unfold usage_of. cbn [bu_input_tokens bu_output_tokens bu_cost_usd].
  rewrite !map_app. cbn [map]. rewrite !sum_snoc, foldr_app. split_and!; [lia|lia|]. apply numeric_sum_mono, numeric_add_above, Hcost.
Qed.

(** A larger usage of non-negative parts is still well formed and reaches the
    same ceilings. *)
Lemma usage_grows u u' :
  (bu_input_tokens u <= bu_input_tokens u')%Z -> (bu_output_tokens u <= bu_output_tokens u')%Z ->
  dleb (bu_cost_usd u) (bu_cost_usd u') = true -> new_usage u = Ok u ->
  new_usage u' = Ok u' /\ forall c, reached u c = true -> reached u' c = true.
Proof.
  unfold new_usage. rewrite !construct_Ok, !andb_true_iff, !Z.leb_le. intros Hi Ho Hc [[[H1 H2] H3] _]. split.
  - split_and!; try done; [lia|lia|]. by eapply dleb_trans.
  - intros c. unfold reached, tokens. rewrite !orb_true_iff, !Z.leb_le. intros [H|H]; [left; lia|right]. by eapply dleb_trans.
Qed.

Lemma usage_recorded ws sid agent w c u :
  call_ok c -> _usage ws sid agent w = Ok u ->
  exists u', _usage ws sid agent (record_call c w) = Ok u' /\ forall ceiling, reached u ceiling = true -> reached u' ceiling = true.
Proof.
  intros Hc Hu. unfold _usage in *. cbn [record_call wd_calls]. rewrite List.filter_app. cbn [List.filter].
  destruct (call_of ws sid agent c); [|rewrite app_nil_r; by exists u].
  assert (Heq : u = usage_of (List.filter (call_of ws sid agent) (wd_calls w))) by by apply construct_Ok in Hu as [_ ?].
  rewrite Heq in Hu |- *. destruct (usage_snoc (List.filter (call_of ws sid agent) (wd_calls w)) c Hc) as (H1 & H2 & H3).
  eexists. by apply usage_grows.
Qed.

(** An exhausted budget stays exhausted: recording a call never brings a
    session or an agent back under a ceiling. *)
Theorem exhaustion_is_monotone k w c (Hc : call_ok c) (Hx : exhausted k w) : exhausted k (record_call c w).
Proof.
  destruct Hx as [(u & ceil & Hu & Hceil & Hr)|(a & u & ceil & Ha & Hu & Hceil & Hr)];
    destruct (usage_recorded _ _ _ w c u Hc Hu) as (u' & Hu' & Hreach).
  - left. exists u', ceil. split_and!; [exact Hu'|exact Hceil|by apply Hreach].
  - right. exists a, u', ceil. split_and!; [done|exact Hu'|exact Hceil|by apply Hreach].
Qed.
