(* ===== verification/OrchestratorPolicy.v ===== *)
(** * Orchestrator proposals

    [app/domain/orchestrator_proposal.py] and
    [app/application/orchestrator_policy.py]: the strict proposal, the pins the
    coordinator holds, the deterministic policy and the decision it records in
    the ledger.  Also [session_control_ids] of [app/domain/session_control.py],
    the other place where identities are derived by name.  The policy is stated
    over any ledger. *)

From S2P Require Import Prelude.
From S2P Require Import Sha256.
From S2P Require Import Uuid5.
From S2P Require Import Clock.
From S2P Require Import Json.
From S2P Require Import Symbolic.
From S2P Require Import ConsensusPorts.
From S2P Require Import Ledger.
From S2P Require Import Lifecycle.
Import Session.

Module Proposal.

Inductive ReasoningPhase : Type := ASSESS | DECOMPOSE | ARGUE | CRITIQUE | REVISE | SCORE.
Inductive OrchestratorAction : Type := DECOMPOSE_ACTION | ROUTE | ADVANCE_PHASE.
Inductive OrchestratorPolicyVersion : Type := V1.
Inductive OrchestratorPolicyRule : Type :=
| ACCEPTED_RULE | PINNED_IDENTITY_MISMATCH | PHASE_MISMATCH | ROUTING_TARGET_INELIGIBLE | PHASE_ORDER_VIOLATION.
Inductive OrchestratorDecisionStatus : Type := ACCEPTED | REJECTED.

#[global] Instance ReasoningPhase_eq_dec : EqDecision ReasoningPhase.
Proof. solve_decision. Defined.
#[global] Instance OrchestratorAction_eq_dec : EqDecision OrchestratorAction.
Proof. solve_decision. Defined.
#[global] Instance OrchestratorPolicyRule_eq_dec : EqDecision OrchestratorPolicyRule.
Proof. solve_decision. Defined.
#[global] Instance OrchestratorDecisionStatus_eq_dec : EqDecision OrchestratorDecisionStatus.
Proof. solve_decision. Defined.

Definition phase_value (p : ReasoningPhase) : string :=
  match p with
  | ASSESS => "ASSESS" | DECOMPOSE => "DECOMPOSE" | ARGUE => "ARGUE"
  | CRITIQUE => "CRITIQUE" | REVISE => "REVISE" | SCORE => "SCORE"
  end.
Definition action_value (a : OrchestratorAction) : string :=
  match a with DECOMPOSE_ACTION => "DECOMPOSE" | ROUTE => "ROUTE" | ADVANCE_PHASE => "ADVANCE_PHASE" end.
Definition version_value (v : OrchestratorPolicyVersion) : string :=
  match v with V1 => "orchestrator-coordinator-policy@1" end.
Definition rule_value (r : OrchestratorPolicyRule) : string :=
  match r with
  | ACCEPTED_RULE => "ACCEPTED"
  | PINNED_IDENTITY_MISMATCH => "PINNED_IDENTITY_MISMATCH"
  | PHASE_MISMATCH => "PHASE_MISMATCH"
  | ROUTING_TARGET_INELIGIBLE => "ROUTING_TARGET_INELIGIBLE"
  | PHASE_ORDER_VIOLATION => "PHASE_ORDER_VIOLATION"
  end.
Definition status_value (s : OrchestratorDecisionStatus) : string :=
  match s with ACCEPTED => "ACCEPTED" | REJECTED => "REJECTED" end.

(** ** The proposal, the pins and the decision *)

Record OrchestratorProposal : Type := mkProposal {
  op_protocol_version : string;
  op_kind : string;
  op_proposal_id : uuid;
  op_workspace_id : uuid;
  op_session_id : uuid;
  op_orchestrator_definition_id : uuid;
  op_orchestrator_definition_version : Z;
  op_turn_id : uuid;
  op_correlation_id : uuid;
  op_causation_id : uuid;
  op_round : Z;
  op_action : OrchestratorAction;
  op_phase : ReasoningPhase;
  op_target_agent_definition_ids : list uuid;
  op_rationale : string;
  op_schema_version : Z
}.

(** [OrchestratorProposal.action_shape] *)
Definition action_shape (p : OrchestratorProposal) : res unit :=
  let targets := op_target_agent_definition_ids p in
  _ ← guard_not (negb (op_schema_version p =? 1)%Z) ValueErrorC "unsupported OrchestratorProposal schema_version";
  _ ← guard_not (negb (distinct targets)) ValueErrorC "orchestrator routing targets must be unique";
  _ ← guard_not (bool_decide (op_action p = ROUTE) && bool_decide (targets = [])) ValueErrorC
        "ROUTE proposal requires at least one target agent";
  _ ← guard_not (negb (bool_decide (op_action p = ROUTE)) && negb (bool_decide (targets = []))) ValueErrorC
        "only ROUTE proposal may contain target agents";
  guard_not (bool_decide (op_action p = DECOMPOSE_ACTION) && negb (bool_decide (op_phase p = DECOMPOSE)))
    ValueErrorC "DECOMPOSE proposal must name DECOMPOSE phase".

Definition new_proposal (p : OrchestratorProposal) : res OrchestratorProposal :=
  validated "OrchestratorProposal"
    (_ ← guard_not (negb (String.eqb (op_protocol_version p) "1.0" && String.eqb (op_kind p) "orchestrator_proposal"
                          && (0 <? op_orchestrator_definition_version p)%Z && (1 <=? op_round p)%Z
                          && filled (op_rationale p))) ValueErrorC "field constraints";
     _ ← guard_not (blank (op_rationale p)) ValueErrorC "orchestrator proposal rationale must not be blank";
     _ ← action_shape p;
     Ok p).

Record CoordinatorProposalContext : Type := mkContext {
  cp_workspace_id : uuid;
  cp_session_id : uuid;
  cp_policy_actor_id : uuid;
  cp_orchestrator_definition_id : uuid;
  cp_orchestrator_definition_version : Z;
  cp_turn_id : uuid;
  cp_correlation_id : uuid;
  cp_causation_id : uuid;
  cp_round : Z;
  cp_current_phase : ReasoningPhase;
  cp_eligible_agent_definition_ids : list uuid;
  cp_decided_at : datetime;
  cp_policy_version : OrchestratorPolicyVersion;
  cp_schema_version : Z
}.

Definition with_decided_at (c : CoordinatorProposalContext) (t : datetime) : CoordinatorProposalContext :=
  mkContext (cp_workspace_id c) (cp_session_id c) (cp_policy_actor_id c) (cp_orchestrator_definition_id c)
    (cp_orchestrator_definition_version c) (cp_turn_id c) (cp_correlation_id c) (cp_causation_id c) (cp_round c)
    (cp_current_phase c) (cp_eligible_agent_definition_ids c) t (cp_policy_version c) (cp_schema_version c).

(** [CoordinatorProposalContext]: the field constraints, the timestamp and
    [context_shape]. *)
Definition new_context (c : CoordinatorProposalContext) : res CoordinatorProposalContext :=
  validated "CoordinatorProposalContext"
    (_ ← guard_not (negb ((0 <? cp_orchestrator_definition_version c)%Z && (1 <=? cp_round c)%Z)) ValueErrorC
           "field constraints";
     t ← _aware_utc (cp_decided_at c);
     _ ← guard_not (negb (cp_schema_version c =? 1)%Z) ValueErrorC
           "unsupported CoordinatorProposalContext schema_version";
     _ ← guard_not (negb (distinct (cp_eligible_agent_definition_ids c))) ValueErrorC
           "eligible routing agents must be unique";
     Ok (with_decided_at c t)).

Record OrchestratorDecision : Type := mkDecision {
  od_proposal_id : uuid;
  od_event_id : uuid;
  od_status : OrchestratorDecisionStatus;
  od_rule : OrchestratorPolicyRule;
  od_policy_version : OrchestratorPolicyVersion;
  od_schema_version : Z
}.

(** [OrchestratorDecision.decision_shape] *)
Definition decision_shape (d : OrchestratorDecision) : res unit :=
  _ ← guard_not (negb (od_schema_version d =? 1)%Z) ValueErrorC "unsupported OrchestratorDecision schema_version";
  guard_not (xorb (bool_decide (od_status d = ACCEPTED)) (bool_decide (od_rule d = ACCEPTED_RULE))) ValueErrorC
    "decision status and policy rule are inconsistent".

Definition new_decision (d : OrchestratorDecision) : res OrchestratorDecision :=
  validated "OrchestratorDecision" (_ ← decision_shape d; Ok d).

(** ** The policy *)

Definition _PHASE_ORDER : list ReasoningPhase := [ASSESS; DECOMPOSE; ARGUE; CRITIQUE; REVISE; SCORE].

(** [tuple.index(x)] *)
Fixpoint index_of (x : ReasoningPhase) (l : list ReasoningPhase) : option nat :=
  match l with
  | [] => None
  | y :: l' => if bool_decide (x = y) then Some 0%nat else S <$> index_of x l'
  end.

(** The tuples of pinned identities. *)
Definition proposal_pin (p : OrchestratorProposal) :=
  (op_workspace_id p, op_session_id p, op_orchestrator_definition_id p, op_orchestrator_definition_version p,
   op_turn_id p, op_correlation_id p, op_causation_id p, op_round p).
Definition context_pin (c : CoordinatorProposalContext) :=
  (cp_workspace_id c, cp_session_id c, cp_orchestrator_definition_id c, cp_orchestrator_definition_version c,
   cp_turn_id c, cp_correlation_id c, cp_causation_id c, cp_round c).

Definition evaluate_advance (p : OrchestratorProposal) (c : CoordinatorProposalContext)
    : res OrchestratorPolicyRule :=
  current_index ← res_of_option ValueErrorC "tuple.index(x): x not in tuple" (index_of (cp_current_phase c) _PHASE_ORDER);
  if (length _PHASE_ORDER <=? current_index + 1)%nat then Ok PHASE_ORDER_VIOLATION
  else if negb (bool_decide (Some (op_phase p) = _PHASE_ORDER !! (current_index + 1)%nat)) then Ok PHASE_ORDER_VIOLATION
  else Ok ACCEPTED_RULE.

Definition _evaluate (p : OrchestratorProposal) (c : CoordinatorProposalContext) : res OrchestratorPolicyRule :=
  if negb (bool_decide (proposal_pin p = context_pin c)) then Ok PINNED_IDENTITY_MISMATCH
  else if bool_decide (op_action p = ADVANCE_PHASE) then evaluate_advance p c
  else if negb (bool_decide (op_phase p = cp_current_phase c)) then Ok PHASE_MISMATCH
  else if bool_decide (op_action p = ROUTE)
          && negb (forallb (fun a => bool_decide (a ∈ cp_eligible_agent_definition_ids c))
                     (op_target_agent_definition_ids p))
       then Ok ROUTING_TARGET_INELIGIBLE
  else Ok ACCEPTED_RULE.

Definition orchestrator_decision_event_id (proposal_id : uuid) : uuid :=
  uuid5 NAMESPACE_URL ("agora:orchestrator-proposal:" +:+ uuid_str proposal_id +:+ ":policy-decision").

(** [proposal.model_dump(mode="json")] *)
Definition proposal_json (p : OrchestratorProposal) : json :=
  JObj [("protocol_version", JStr (op_protocol_version p));
        ("kind", JStr (op_kind p));
        ("proposal_id", JStr (uuid_str (op_proposal_id p)));
        ("workspace_id", JStr (uuid_str (op_workspace_id p)));
        ("session_id", JStr (uuid_str (op_session_id p)));
        ("orchestrator_definition_id", JStr (uuid_str (op_orchestrator_definition_id p)));
        ("orchestrator_definition_version", JInt (op_orchestrator_definition_version p));
        ("turn_id", JStr (uuid_str (op_turn_id p)));
        ("correlation_id", JStr (uuid_str (op_correlation_id p)));
        ("causation_id", JStr (uuid_str (op_causation_id p)));
        ("round", JInt (op_round p));
        ("action", JStr (action_value (op_action p)));
        ("phase", JStr (phase_value (op_phase p)));
        ("target_agent_definition_ids", JList (map (fun a => JStr (uuid_str a)) (op_target_agent_definition_ids p)));
        ("rationale", JStr (op_rationale p));
        ("schema_version", JInt (op_schema_version p))].

Definition _proposal_hash (p : OrchestratorProposal) : res string := content_hash (proposal_json p).

Definition decision_event (p : OrchestratorProposal) (c : CoordinatorProposalContext) (event_id : uuid)
    (status : OrchestratorDecisionStatus) (rule : OrchestratorPolicyRule) (proposal_hash : string) : LedgerAppend :=
  mkAppend event_id (cp_workspace_id c) (cp_session_id c) ("ORCHESTRATOR_PROPOSAL_" +:+ status_value status) 1
    (Some (cp_causation_id c)) (cp_correlation_id c) POLICY (cp_policy_actor_id c) (cp_round c)
    [("proposal_id", JStr (uuid_str (op_proposal_id p)));
     ("proposal_hash", JStr proposal_hash);
     ("proposal", proposal_json p);
     ("orchestrator_definition_id", JStr (uuid_str (op_orchestrator_definition_id p)));
     ("orchestrator_definition_version", JInt (op_orchestrator_definition_version p));
     ("turn_id", JStr (uuid_str (op_turn_id p)));
     ("action", JStr (action_value (op_action p)));
     ("phase", JStr (phase_value (op_phase p)));
     ("target_agent_definition_ids", JList (map (fun a => JStr (uuid_str a)) (op_target_agent_definition_ids p)));
     ("rationale", JStr (op_rationale p));
     ("status", JStr (status_value status));
     ("rule", JStr (rule_value rule));
     ("policy_version", JStr (version_value (cp_policy_version c)));
     ("applied", JBool false)]
    (cp_decided_at c).

Definition decide {L} `{LedgerPort L} (p : OrchestratorProposal) (c : CoordinatorProposalContext)
    : ST L OrchestratorDecision :=
  rule ← lift_res (_evaluate p c);
  let status := if bool_decide (rule = ACCEPTED_RULE) then ACCEPTED else REJECTED in
  let event_id := orchestrator_decision_event_id (op_proposal_id p) in
  proposal_hash ← lift_res (_proposal_hash p);
  event ← lift_res (new_append (decision_event p c event_id status rule proposal_hash));
  _ ← port_append event;
  lift_res (new_decision (mkDecision (op_proposal_id p) event_id status rule (cp_policy_version c) 1)).

(** ** [session_control_ids] *)

Definition control_value (k : Control.kind) : string :=
  match k with
  | Control.PAUSE => "PAUSE" | Control.RESUME => "RESUME" | Control.CANCEL => "CANCEL"
  | Control.HUMAN_INPUT => "HUMAN_INPUT"
  end.

Definition session_control_ids (workspace_id session_id : uuid) (kind : Control.kind)
    (idempotency_key request_hash : string) : uuid * uuid * uuid :=
  let scope := "agora:" +:+ uuid_str workspace_id +:+ ":" +:+ uuid_str session_id +:+ ":" +:+ control_value kind
               +:+ ":" +:+ idempotency_key +:+ ":" +:+ request_hash in
  (uuid5 NAMESPACE_URL (scope +:+ ":command"), uuid5 NAMESPACE_URL (scope +:+ ":event"),
   uuid5 NAMESPACE_URL (scope +:+ ":failure")).

(** ** The decision table *)

(** The phase that follows. *)
Inductive follows : ReasoningPhase -> ReasoningPhase -> Prop :=
| assess_decompose : follows ASSESS DECOMPOSE
| decompose_argue : follows DECOMPOSE ARGUE
| argue_critique : follows ARGUE CRITIQUE
| critique_revise : follows CRITIQUE REVISE
| revise_score : follows REVISE SCORE.

(** The rule a proposal falls under. *)
Inductive ruling (p : OrchestratorProposal) (c : CoordinatorProposalContext) : OrchestratorPolicyRule -> Prop :=
| rule_pins : proposal_pin p <> context_pin c -> ruling p c PINNED_IDENTITY_MISMATCH
| rule_order : proposal_pin p = context_pin c -> op_action p = ADVANCE_PHASE ->
    ~ follows (cp_current_phase c) (op_phase p) -> ruling p c PHASE_ORDER_VIOLATION
| rule_advance : proposal_pin p = context_pin c -> op_action p = ADVANCE_PHASE ->
    follows (cp_current_phase c) (op_phase p) -> ruling p c ACCEPTED_RULE
| rule_phase : proposal_pin p = context_pin c -> op_action p <> ADVANCE_PHASE ->
    op_phase p <> cp_current_phase c -> ruling p c PHASE_MISMATCH
| rule_target a : proposal_pin p = context_pin c -> op_action p = ROUTE -> op_phase p = cp_current_phase c ->
    a ∈ op_target_agent_definition_ids p -> a ∉ cp_eligible_agent_definition_ids c ->
    ruling p c ROUTING_TARGET_INELIGIBLE
| rule_accept : proposal_pin p = context_pin c -> op_action p <> ADVANCE_PHASE ->
    op_phase p = cp_current_phase c ->
    (op_action p = ROUTE -> forall a, a ∈ op_target_agent_definition_ids p -> a ∈ cp_eligible_agent_definition_ids c) ->
    ruling p c ACCEPTED_RULE.

Lemma evaluate_advance_spec p c :
  exists r, evaluate_advance p c = Ok r /\
    ((follows (cp_current_phase c) (op_phase p) /\ r = ACCEPTED_RULE) \/
     (~ follows (cp_current_phase c) (op_phase p) /\ r = PHASE_ORDER_VIOLATION)).
Proof.
  unfold evaluate_advance. destruct (cp_current_phase c), (op_phase p); vm_compute; eexists; split; try reflexivity;
    first [by left; split; [constructor|]|right; split; [by inversion 1|done]].
Qed.

Lemma eligible_iff (targets eligible : list uuid) :
  forallb (fun a => bool_decide (a ∈ eligible)) targets = true <-> forall a, a ∈ targets -> a ∈ eligible.
Proof. rewrite forallb_forall. setoid_rewrite bool_decide_eq_true. setoid_rewrite <- list_elem_of_In. done. Qed.

Lemma ineligible_exists (targets eligible : list uuid) :
  forallb (fun a => bool_decide (a ∈ eligible)) targets = false -> exists a, a ∈ targets /\ a ∉ eligible.
Proof.
  induction targets as [|a targets IH]; [done|]. cbn. case_bool_decide as Ha; cbn.
  - intros (b & Hb & Hne)%IH. exists b. split; [by right|done].
  - intros _. exists a. split; [left|done].
Qed.

Lemma evaluate_ruling p c : exists r, _evaluate p c = Ok r /\ ruling p c r.
Proof.
  unfold _evaluate. destruct (bool_decide_reflect (proposal_pin p = context_pin c)) as [Hp|Hp]; cbn [negb].
  2: { eexists. split; [done|]. by constructor. }
  destruct (bool_decide_reflect (op_action p = ADVANCE_PHASE)) as [Ha|Ha].
  { destruct (evaluate_advance_spec p c) as (r & Hr & Hcase). exists r. split; [done|].
    destruct Hcase as [[Hf ->]|[Hf ->]]; by constructor. }
  destruct (bool_decide_reflect (op_phase p = cp_current_phase c)) as [Hph|Hph]; cbn [negb].
  2: { eexists. split; [done|]. by apply rule_phase. }
  destruct (forallb _ (op_target_agent_definition_ids p)) eqn:He.
  - rewrite andb_false_r. eexists. split; [done|]. apply rule_accept; try done. intros _. by apply eligible_iff.
  - destruct (bool_decide_reflect (op_action p = ROUTE)) as [Hr|Hr]; cbn [negb andb].
    + apply ineligible_exists in He as (a & Hin & Hout). eexists. split; [done|]. by apply (rule_target _ _ a).
    + eexists. split; [done|]. by apply rule_accept.
Qed.

(** The table gives at most one rule. *)
Lemma ruling_unique p c r r' : ruling p c r -> ruling p c r' -> r = r'.
Proof. intros [] []; try done; try congruence; exfalso; naive_solver. Qed.

(** The policy is a decision table: for every proposal and every set of pins it
    names exactly one rule, accepting a phase advance only to the next phase and
    everything else only in the current phase and for eligible targets. *)
Theorem policy_is_table p c : exists r, _evaluate p c = Ok r /\ forall r', ruling p c r' <-> r' = r.
Proof.
  destruct (evaluate_ruling p c) as (r & He & Hr). exists r. split; [done|]. intros r'. split; [|by intros ->].
  intros Hr'. by apply (ruling_unique p c).
Qed.

(** ** The recorded decision *)

Lemma uuid_list_json (l : list uuid) :
  float_free (JList (map (fun a => JStr (uuid_str a)) l)) = true /\ json_wf (JList (map (fun a => JStr (uuid_str a)) l)).
Proof. split; (induction l as [|a l IH]; [done|]); [exact IH|split; [done|exact IH]]. Qed.

Lemma proposal_json_ok p : float_free (proposal_json p) = true /\ json_wf (proposal_json p).
Proof.
  destruct (uuid_list_json (op_target_agent_definition_ids p)) as [Hf Hw]. unfold proposal_json. split.
  - cbn [float_free forallb snd andb]. cbn [float_free] in Hf. by rewrite Hf.
  - split; [apply (bool_decide_unpack _); vm_compute; done|]. cbn [snd]. by repeat split.
Qed.

Lemma decision_payload_ok p c id s r h :
  float_free (JObj (la_payload (decision_event p c id s r h))) = true /\
  json_wf (JObj (la_payload (decision_event p c id s r h))).
Proof.
  destruct (uuid_list_json (op_target_agent_definition_ids p)) as [Hf Hw]. destruct (proposal_json_ok p) as [Hpf Hpw].
  unfold decision_event. cbn [la_payload]. revert Hpf Hpw. generalize (proposal_json p) as pj. intros pj Hpf Hpw. split.
  - cbn [float_free forallb snd andb]. cbn [float_free] in Hf. by rewrite Hpf, Hf.
  - split; [apply (bool_decide_unpack _); vm_compute; done|]. cbn [snd]. repeat split; done.
Qed.

Lemma context_facts c :
  new_context c = Ok c -> (1 <= cp_round c)%Z /\ _aware_utc (cp_decided_at c) = Ok (cp_decided_at c).
Proof.
  unfold new_context. rewrite validated_Ok, guard_bind. intros [Hf H]. apply bind_Ok in H as (t & Ht & H).
  rewrite !guard_bind in H. destruct H as (_ & _ & [= Heq]). apply negb_false_iff, andb_true_iff in Hf as [_ Hr%Z.leb_le].
  split; [done|]. rewrite <- Heq at 2. cbn. exact Ht.
Qed.

Lemma decision_event_valid p c id s r h :
  new_context c = Ok c -> new_append (decision_event p c id s r h) = Ok (decision_event p c id s r h).
Proof.
  intros [Hr Ht]%context_facts. apply new_append_valid; [|apply decision_payload_ok|exact Ht].
  unfold LedgerAppend_fields_ok, decision_event. cbn [la_event_type la_payload_schema_version la_round].
  replace (0 <=? cp_round c)%Z with true by (symmetry; apply Z.leb_le; lia). by destruct s.
Qed.

Lemma new_decision_ok id e s r v :
  s = (if bool_decide (r = ACCEPTED_RULE) then ACCEPTED else REJECTED) ->
  new_decision (mkDecision id e s r v 1) = Ok (mkDecision id e s r v 1).
Proof. intros ->. unfold new_decision, decision_shape. cbn. by case_bool_decide. Qed.

(** Deciding once the ledger has answered. *)
Lemma decide_runs {L} `{LedgerPort L} p c (st : L) r h event :
  _evaluate p c = Ok r -> _proposal_hash p = Ok h ->
  let s := if bool_decide (r = ACCEPTED_RULE) then ACCEPTED else REJECTED in
  let id := orchestrator_decision_event_id (op_proposal_id p) in
  new_append (decision_event p c id s r h) = Ok event ->
  decide p c st = match port_append event st with
                  | (st', Ok _) => (st', Ok (mkDecision (op_proposal_id p) id s r (cp_policy_version c) 1))
                  | (st', Raise x) => (st', Raise x)
                  end.
Proof.
  intros Hr Hh s id He. unfold decide. rewrite run_lift, Hr, run_lift, Hh, run_lift. fold s id. rewrite He, run_bind.
  destruct (port_append event st) as [st' [e|x]]; [|done]. unfold lift_res. by rewrite new_decision_ok.
Qed.

(** A decision is recorded and nothing is applied: on a consistent ledger with
    a head for the session, a valid context and a proposal not decided before, the
    policy always decides; its one effect is the event that names the proposal,
    the rule of the table and its status; accepted is exactly the rule ACCEPTED;
    and deciding the same proposal again returns the same decision with nothing
    changed. *)
Theorem decision_recorded p c st h (Hi : ledger_inv st) (Hc : new_context c = Ok c)
    (Hf : find_row (orchestrator_decision_event_id (op_proposal_id p)) (lg_events st) = None)
    (Hh : lg_heads st !! (cp_workspace_id c, cp_session_id c) = Some h) :
  exists d e hash, decide p c st = (store_event (cp_workspace_id c, cp_session_id c) e st, Ok d) /\
    ledger_inv (store_event (cp_workspace_id c, cp_session_id c) e st) /\
    ruling p c (od_rule d) /\ (od_status d = ACCEPTED <-> od_rule d = ACCEPTED_RULE) /\
    _proposal_hash p = Ok hash /\
    le_append e = decision_event p c (od_event_id d) (od_status d) (od_rule d) hash /\
    decide p c (store_event (cp_workspace_id c, cp_session_id c) e st)
    = (store_event (cp_workspace_id c, cp_session_id c) e st, Ok d).
Proof.
  destruct (evaluate_ruling p c) as (r & Hr & Hrule).
  assert (Hhash : is_ok (_proposal_hash p) = true) by (unfold _proposal_hash; rewrite content_hash_total; apply proposal_json_ok).
  apply is_ok_exists in Hhash as (hash & Hhash).
  pose proof (decide_runs (L := ledger) p c) as Hrun. specialize (fun st => Hrun st r hash _ Hr Hhash (decision_event_valid _ _ _ _ _ _ Hc)).
  cbn zeta in Hrun. set (s := if bool_decide (r = ACCEPTED_RULE) then ACCEPTED else REJECTED) in *.
  set (event := decision_event p c _ s r hash) in *.
  pose proof (decision_event_valid p c (orchestrator_decision_event_id (op_proposal_id p)) s r hash Hc : new_append event = Ok event) as Hv.
  destruct (append_fresh st event h Hi Hv Hf Hh) as (e & Happ & Hl & He & Hev).
  eexists _, e, hash. split; [rewrite Hrun; cbn [port_append sql_ledger]; by rewrite Happ|].
  cbn [od_rule od_status od_event_id].
  assert (Hinv := append_inv st event Hi Hv). rewrite Happ in Hinv. split_and!; try done.
  - unfold s. by case_bool_decide.
  - rewrite Hrun. cbn [port_append sql_ledger]. set (st' := store_event _ e st).
    pose proof (append_again st st' event e Hi Hv (proj2 (decision_payload_ok _ _ _ _ _ _)) Happ) as Hagain.
    by rewrite Hagain.
Qed.

End Proposal.
