(* ===== verification/AgentRuntime.v ===== *)
(** * Agent runtime contracts

    [app/ports/agent_runtime.py]: the context of one logical turn, the result of
    running it, and their validators; [app/application/agent_runtime.py]: the
    strategy registry and the stateless runtime.  A strategy is a record of its
    name, its version and what [propose] returns. *)

From Stdlib Require Import Floats.SpecFloat.
From S2P Require Import Prelude.
From S2P Require Import PyDecimal.
From S2P Require Import Symbolic.
From S2P Require Import ConsensusPorts.
From S2P Require Import OrchestratorPolicy.


(** A Python [float]: an IEEE 754 binary64. *)
Abbreviation pyfloat := spec_float.
Definition fzero : pyfloat := S754_zero false.

#[export] Instance pyfloat_eq_dec : EqDecision pyfloat.
Proof. solve_decision. Defined.

(** ** Values *)

Record AuthorizedKnowledgeChunk : Type := mkChunk {
  kc_namespace_id : uuid;
  kc_chunk_id : uuid;
  kc_document_id : uuid;
  kc_source_id : uuid;
  kc_citation : string;
  kc_text : string;
  kc_source_content_hash : string;
  kc_content_hash : string;
  kc_locator_json : string;
  kc_chunker_version : string;
  kc_source_timestamp : datetime;
  kc_document_timestamp : datetime;
  kc_retrieved_at : datetime;
  kc_trust_level : string;
  kc_lexical_score : option pyfloat;
  kc_vector_score : option pyfloat;
  kc_fused_score : pyfloat;
  kc_rerank_score : option pyfloat;
  kc_index_version : string
}.

Record AuthorizedKnowledge : Type := mkKnowledge {
  ak_query_hash : string;
  ak_requested_namespace_ids : list uuid;
  ak_searched_namespace_ids : list uuid;
  ak_index_version : string;
  ak_embedding_model : string;
  ak_embedding_version : string;
  ak_reranker_version : string;
  ak_lexical_count : Z;
  ak_vector_count : Z;
  ak_degradation : string;
  ak_warnings : list string;
  ak_chunks : list AuthorizedKnowledgeChunk
}.

Record ContextArtifact : Type := mkContextArtifact {
  ca_id : uuid;
  ca_kind : string;
  ca_owner_actor_class : string;
  ca_owner_actor_id : uuid;
  ca_round : Z;
  ca_content_hash : string;
  ca_artifact_json : string
}.

Record PinnedAgentDefinition : Type := mkPinnedDefinition {
  pd_id : uuid;
  pd_logical_id : uuid;
  pd_version : Z;
  pd_name : string;
  pd_domain : string;
  pd_role_kind : string;
  pd_objectives : list string;
  pd_constraints : list string;
  pd_knowledge_namespace_ids : list uuid;
  pd_strategy_name : string;
  pd_strategy_version : string;
  pd_prompt_ref : string;
  pd_prompt_hash : string
}.

Record ReasoningContext : Type := mkReasoningContext {
  rc_workspace_id : uuid;
  rc_session_id : uuid;
  rc_agent_definition_id : uuid;
  rc_agent_definition_version : Z;
  rc_agent_definition : PinnedAgentDefinition;
  rc_strategy_name : string;
  rc_strategy_version : string;
  rc_canonicalizer_version : string;
  rc_turn_id : uuid;
  rc_correlation_id : uuid;
  rc_causation_id : uuid;
  rc_round : Z;
  rc_phase : Proposal.ReasoningPhase;
  rc_problem_statement : string;
  rc_objective_summaries : list string;
  rc_constraint_summaries : list string;
  rc_visible_artifact_ids : list uuid;
  rc_visible_artifacts : list ContextArtifact;
  rc_retrieval : option AuthorizedKnowledge;
  rc_sealed : bool;
  rc_budget_remaining_tokens : Z;
  rc_budget_remaining_usd : dec;
  rc_timeout_s : pyfloat;
  rc_schema_version : Z
}.

(** What the runtime may ask of a proposal. *)
Class ProposalLike (P : Type) : Type := proposal_turn_id : P -> uuid.

Record TurnExecutionResult (P : Type) : Type := mkExecution {
  te_proposal : P;
  te_provider : option string;
  te_model : option string;
  te_input_tokens : Z;
  te_output_tokens : Z;
  te_cost_usd : dec;
  te_raw_artifact_ref : option string
}.
Arguments mkExecution {P}.
Arguments te_proposal {P}.
Arguments te_provider {P}.
Arguments te_model {P}.
Arguments te_input_tokens {P}.
Arguments te_output_tokens {P}.
Arguments te_cost_usd {P}.
Arguments te_raw_artifact_ref {P}.

(** ** Field constraints *)

Definition AuthorizedKnowledgeChunk_ok (c : AuthorizedKnowledgeChunk) : bool :=
  filled (kc_citation c) && digest_ok (kc_source_content_hash c) && digest_ok (kc_content_hash c)
  && (2 <=? str_len (kc_locator_json c))%Z && filled (kc_chunker_version c)
  && filled (kc_trust_level c) && SFleb fzero (kc_fused_score c) && filled (kc_index_version c).

Definition AuthorizedKnowledge_ok (k : AuthorizedKnowledge) : bool :=
  digest_ok (ak_query_hash k) && filled (ak_index_version k) && filled (ak_embedding_model k)
  && filled (ak_embedding_version k) && filled (ak_reranker_version k)
  && (0 <=? ak_lexical_count k)%Z && (0 <=? ak_vector_count k)%Z && filled (ak_degradation k)
  && forallb AuthorizedKnowledgeChunk_ok (ak_chunks k).

Definition ContextArtifact_ok (a : ContextArtifact) : bool :=
  filled (ca_kind a) && filled (ca_owner_actor_class a) && (0 <=? ca_round a)%Z
  && digest_ok (ca_content_hash a) && (2 <=? str_len (ca_artifact_json a))%Z.

(** [definition_text_not_blank], after the field constraints. *)
Definition PinnedAgentDefinition_ok (d : PinnedAgentDefinition) : bool :=
  (0 <? pd_version d)%Z && filled (pd_role_kind d) && digest_ok (pd_prompt_hash d)
  && forallb (fun s => negb (blank s))
       (pd_name d :: pd_domain d :: pd_strategy_name d :: pd_strategy_version d :: pd_prompt_ref d
        :: pd_objectives d ++ pd_constraints d).

(** [text_not_blank], after the field constraints; a blank text also covers
    [min_length=1]. *)
Definition context_text_not_blank (c : ReasoningContext) : bool :=
  forallb (fun s => negb (blank s))
    (rc_strategy_name c :: rc_strategy_version c :: rc_canonicalizer_version c :: rc_problem_statement c
     :: rc_objective_summaries c ++ rc_constraint_summaries c).

Definition ReasoningContext_fields_ok (c : ReasoningContext) : bool :=
  (0 <? rc_agent_definition_version c)%Z && PinnedAgentDefinition_ok (rc_agent_definition c)
  && (1 <=? rc_round c)%Z && forallb ContextArtifact_ok (rc_visible_artifacts c)
  && opt_ok AuthorizedKnowledge_ok (rc_retrieval c) && (0 <? rc_budget_remaining_tokens c)%Z
  && dleb dzero (rc_budget_remaining_usd c) && SFltb fzero (rc_timeout_s c).

(** The first assessment is made without seeing other agents. *)
Definition unsealed_first_assessment (c : ReasoningContext) : bool :=
  (rc_round c =? 1)%Z && bool_decide (rc_phase c = Proposal.ASSESS)
  && (negb (rc_sealed c) || nonempty (rc_visible_artifacts c)).

Definition definition_mismatch (c : ReasoningContext) : bool :=
  let d := rc_agent_definition c in
  negb (pd_id d =? rc_agent_definition_id c)%N
  || negb (pd_version d =? rc_agent_definition_version c)%Z
  || negb (String.eqb (pd_strategy_name d) (rc_strategy_name c))
  || negb (String.eqb (pd_strategy_version d) (rc_strategy_version c)).

(** [ReasoningContext.protocol_invariants] *)
Definition protocol_invariants (c : ReasoningContext) : res unit :=
  _ ← guard_not (negb (rc_schema_version c =? 1)%Z) ValueErrorC "unsupported ReasoningContext schema_version";
  _ ← guard_not (definition_mismatch c) ValueErrorC "reasoning context does not match pinned agent definition";
  let artifact_ids := map ca_id (rc_visible_artifacts c) in
  _ ← guard_not (negb (bool_decide (artifact_ids = rc_visible_artifact_ids c))
                 || negb (bool_decide (NoDup artifact_ids)))
        ValueErrorC "visible artifact IDs must exactly match unique hydrated artifacts";
  guard_not (unsealed_first_assessment c) ValueErrorC "round 1 ASSESS must be sealed from other agents".

Definition ReasoningContext_validate (c : ReasoningContext) : res unit :=
  _ ← guard_not (negb (ReasoningContext_fields_ok c && context_text_not_blank c))
        ValidationErrorC "ReasoningContext fields";
  protocol_invariants c.

(** [^.+/.+#sha256:[0-9a-f]{64}$] *)
Definition not_newline (c : ascii) : bool := negb (Ascii.eqb c (ascii_of_nat 10)).
Fixpoint slash_inside (l : list ascii) : bool :=
  match l with
  | [] => false
  | c :: l' => (Ascii.eqb c "/"%char && nonempty l') || slash_inside l'
  end.
Definition raw_artifact_ref_ok (s : string) : bool :=
  let l := chars s in
  let n := (length l - 72)%nat in
  (72 <=? length l)%nat && forallb not_newline (take n l) && slash_inside (drop 1 (take n l))
  && match drop n l with "#"%char :: rest => digest_ok (unchars rest) | _ => false end.

Section execution.
Context {P : Type}.

Definition TurnExecutionResult_fields_ok (r : TurnExecutionResult P) : bool :=
  opt_ok filled (te_provider r) && opt_ok filled (te_model r) && (0 <=? te_input_tokens r)%Z
  && (0 <=? te_output_tokens r)%Z && dleb dzero (te_cost_usd r)
  && opt_ok raw_artifact_ref_ok (te_raw_artifact_ref r).

(** [TurnExecutionResult.complete_attribution] *)
Definition complete_attribution (r : TurnExecutionResult P) : res unit :=
  let provider_values := [te_provider r; te_model r; te_raw_artifact_ref r] in
  _ ← guard_not (existsb is_some provider_values && negb (forallb is_some provider_values))
        ValueErrorC "provider execution attribution must be complete";
  guard_not (negb (is_some (te_provider r))
             && (negb (te_input_tokens r =? 0)%Z || negb (te_output_tokens r =? 0)%Z
                 || negb (deqb (te_cost_usd r) dzero)))
    ValueErrorC "metadata-free deterministic execution must have zero accounting".

(** [TurnExecutionResult(...)]: an invalid value raises. *)
Definition new_execution (r : TurnExecutionResult P) : res (TurnExecutionResult P) :=
  _ ← guard_not (negb (TurnExecutionResult_fields_ok r)) ValidationErrorC "TurnExecutionResult fields";
  _ ← complete_attribution r;
  Ok r.

(** [TurnExecutionResult(proposal=proposal)] *)
Definition bare_execution (proposal : P) : TurnExecutionResult P :=
  mkExecution proposal None None 0 0 dzero None.

(** ** The strategy registry *)

(** [propose] returns a bare proposal or a whole execution. *)
Record ReasoningStrategy : Type := mkReasoningStrategy {
  rs_name : string;
  rs_version : string;
  rs_propose : ReasoningContext -> res (P + TurnExecutionResult P)
}.

Definition _required (value label : string) : res string :=
  _ ← guard_not (blank value) ValueErrorC (label +:+ " must not be blank");
  Ok value.

Definition register_one (registered : gmap (string * string) ReasoningStrategy) (s : ReasoningStrategy)
    : res (gmap (string * string) ReasoningStrategy) :=
  name ← _required (rs_name s) "strategy name";
  version ← _required (rs_version s) "version";
  _ ← guard_not (is_some (registered !! (name, version)))
        ValueErrorC ("duplicate reasoning strategy " +:+ name +:+ "@" +:+ version);
  Ok (<[(name, version) := s]> registered).

Definition new_strategy_registry (strategies : list ReasoningStrategy)
    : res (gmap (string * string) ReasoningStrategy) :=
  foldR register_one ∅ strategies.

Definition resolve_strategy (registry : gmap (string * string) ReasoningStrategy) (name version : string)
    : res ReasoningStrategy :=
  res_of_option PermanentPortErrorC ("unknown reasoning strategy " +:+ name +:+ "@" +:+ version)
    (registry !! (name, version)).

(** [StatelessAgentRuntime.run_turn] *)
Definition run_turn `{ProposalLike P} (registry : gmap (string * string) ReasoningStrategy)
    (context : ReasoningContext) : res (TurnExecutionResult P) :=
  strategy ← resolve_strategy registry (rc_strategy_name context) (rc_strategy_version context);
  proposed ← rs_propose strategy context;
  result ← match proposed with
           | inr r => Ok r
           | inl p => new_execution (bare_execution p)
           end;
  _ ← guard_not (negb (proposal_turn_id (te_proposal result) =? rc_turn_id context)%N)
        PermanentPortErrorC "reasoning strategy returned a proposal for another turn";
  Ok result.

End execution.
Arguments ReasoningStrategy : clear implicits.

(** ** Lemmas *)

Section registry_facts.
Context {P : Type}.
Implicit Types (m : gmap (string * string) (ReasoningStrategy P)) (s : ReasoningStrategy P).

Lemma strategy_text_Ok value label v : _required value label = Ok v -> v = value /\ blank value = false.
Proof. unfold _required. intros H. inv_ok. done. Qed.

Lemma register_one_Ok m s m' :
  register_one m s = Ok m' ->
  m !! (rs_name s, rs_version s) = None /\ m' = <[(rs_name s, rs_version s) := s]> m.
Proof.
  unfold register_one. intros H. inv_ok.
  match goal with H1 : _required (rs_name s) _ = _ |- _ => apply strategy_text_Ok in H1 as [-> _] end.
  match goal with H1 : _required (rs_version s) _ = _ |- _ => apply strategy_text_Ok in H1 as [-> _] end.
  split; [|done]. match goal with H1 : is_some _ = false |- _ => revert H1 end.
  by destruct (m !! (rs_name s, rs_version s)).
Qed.

(** Every entry is filed under its own name and version. *)
Definition filed m : Prop := forall k s, m !! k = Some s -> k = (rs_name s, rs_version s).

Lemma registry_filed l m : new_strategy_registry l = Ok m -> filed m.
Proof.
  intros H. eapply (foldR_inv filed); [|intros k s Hk; by rewrite lookup_empty in Hk|exact H].
  intros m0 s m1 _ Hf [_ ->]%register_one_Ok k t Hk.
  destruct (decide (k = (rs_name s, rs_version s))) as [->|Hne].
  - rewrite lookup_insert_eq in Hk. by injection Hk as <-.
  - rewrite lookup_insert_ne in Hk by done. by apply Hf.
Qed.

(** A result of the runtime belongs to the turn that asked for it. *)
Lemma run_turn_own `{ProposalLike P} m c r :
  run_turn m c = Ok r -> proposal_turn_id (te_proposal r) = rc_turn_id c.
Proof.
  unfold run_turn. intros Hr. inv_ok.
  match goal with H1 : negb (_ =? _)%N = false |- _ =>
    apply negb_false_iff, N.eqb_eq in H1; done end.
Qed.

End registry_facts.
