(* ===== verification/Dispatch.v ===== *)
(** * Concurrent dispatch of agent turns

    [app/application/agent_dispatch.py]: the batch check, the outcome of a turn
    and the shared worker pool.  The pool is a step relation: between two awaits
    a worker runs alone, so a step is what one worker does from one await to the
    next, and every order of steps is an order in which the event loop may run
    them; taking the next turn after an answer is a step of its own, so the
    orders allowed here include those of the event loop.  [turn] says how the
    runtime call of each context ends; [DispatchRuns.v] lets it differ from step
    to step. *)

From Stdlib Require Import Floats.SpecFloat.
From S2P Require Import Prelude.
From S2P Require Import PyDecimal.
From S2P Require Import Symbolic.
From S2P Require Import OrchestratorPolicy.
From S2P Require Import AgentRuntime.

Module Dispatch.

Inductive DispatchDisposition : Type := COMPLETED | ABSTAIN.

#[global] Instance DispatchDisposition_eq_dec : EqDecision DispatchDisposition.
Proof. solve_decision. Defined.

Record TurnDispatchOutcome (P : Type) : Type := mkTurnOutcome {
  to_context : ReasoningContext;
  to_disposition : DispatchDisposition;
  to_event_type : string;
  to_execution : option (TurnExecutionResult P)
}.
Arguments mkTurnOutcome {P}.
Arguments to_context {P}.
Arguments to_disposition {P}.
Arguments to_event_type {P}.
Arguments to_execution {P}.

(** How [asyncio.wait_for(run_turn(context), timeout)] ends. *)
Inductive turn_end (P : Type) : Type :=
| Returned (execution : TurnExecutionResult P)
| TimedOut
| Failed (x : exn).
Arguments Returned {P}.
Arguments TimedOut {P}.
Arguments Failed {P}.

(** A worker task: about to take a turn, awaiting one, or done. *)
Inductive worker : Type :=
| Ready
| Running (index : nat) (context : ReasoningContext)
| Done.

Record pool (P : Type) : Type := mkPool {
  pending : list (nat * ReasoningContext);
  outcomes : list (option (TurnDispatchOutcome P));
  workers : list worker;
  failure : option exn
}.
Arguments mkPool {P}.
Arguments pending {P}.
Arguments outcomes {P}.
Arguments workers {P}.
Arguments failure {P}.

(** ** The batch *)

Definition batch_key (c : ReasoningContext) : uuid * uuid * Z * Proposal.ReasoningPhase :=
  (rc_workspace_id c, rc_session_id c, rc_round c, rc_phase c).

Definition check_member (first : ReasoningContext) (seen : list uuid * list uuid) (c : ReasoningContext)
    : res (list uuid * list uuid) :=
  let '(turn_ids, agent_ids) := seen in
  _ ← guard_not (negb (bool_decide (batch_key c = batch_key first)))
        ValueErrorC "dispatch contexts must belong to one session round and phase";
  _ ← guard_not (bool_decide (rc_turn_id c ∈ turn_ids)
                 || bool_decide (rc_agent_definition_id c ∈ agent_ids))
        ValueErrorC "dispatch logical turns and pinned agents must be unique";
  _ ← guard_not (unsealed_first_assessment c) ValueErrorC "round 1 ASSESS dispatch must remain sealed";
  Ok (rc_turn_id c :: turn_ids, rc_agent_definition_id c :: agent_ids).

Definition _validate_batch (contexts : list ReasoningContext) : res unit :=
  match contexts with
  | [] => raise IndexErrorC "tuple index out of range"
  | first :: _ => _ ← foldR (check_member first) ([], []) contexts; Ok tt
  end.

Section pool.
Context {P : Type} `{ProposalLike P}.

(** ** The outcome of one turn *)

(** [TurnDispatchOutcome.valid_outcome] *)
Definition valid_outcome (o : TurnDispatchOutcome P) : res unit :=
  match to_disposition o with
  | COMPLETED =>
      match to_execution o with
      | Some execution =>
          _ ← guard_not (negb (String.eqb (to_event_type o) "AGENT_TURN_COMPLETED"))
                ValidationErrorC "completed dispatch requires its proposal and completion event";
          guard_not (negb (proposal_turn_id (te_proposal execution) =? rc_turn_id (to_context o))%N)
            ValidationErrorC "dispatch proposal does not match its logical turn"
      | None => raise ValidationErrorC "completed dispatch requires its proposal and completion event"
      end
  | ABSTAIN =>
      guard_not (negb (String.eqb (to_event_type o) "TURN_TIMEOUT") || is_some (to_execution o))
        ValidationErrorC "abstaining dispatch requires a timeout event and no proposal"
  end.

Definition new_outcome (o : TurnDispatchOutcome P) : res (TurnDispatchOutcome P) :=
  _ ← valid_outcome o; Ok o.

Variable turn : ReasoningContext -> turn_end P.

(** The [try], its [except TimeoutError] and its [else]. *)
Definition finish_turn (c : ReasoningContext) : res (TurnDispatchOutcome P) :=
  match turn c with
  | TimedOut => new_outcome (mkTurnOutcome c ABSTAIN "TURN_TIMEOUT" None)
  | Returned execution => new_outcome (mkTurnOutcome c COMPLETED "AGENT_TURN_COMPLETED" (Some execution))
  | Failed x => Raise x
  end.

(** ** The worker pool *)

Definition enumerate (contexts : list ReasoningContext) : list (nat * ReasoningContext) :=
  imap pair contexts.

Definition start (worker_limit : nat) (contexts : list ReasoningContext) : pool P :=
  mkPool (enumerate contexts) (replicate (length contexts) None)
    (replicate (min worker_limit (length contexts)) Ready) None.

(** Worker [i] runs to its next await. *)
Definition worker_step (i : nat) (s : pool P) : option (pool P) :=
  match workers s !! i with
  | Some Ready =>
      match pending s with
      | [] => Some (mkPool [] (outcomes s) (<[i := Done]> (workers s)) (failure s))
      | (k, c) :: rest => Some (mkPool rest (outcomes s) (<[i := Running k c]> (workers s)) (failure s))
      end
  | Some (Running k c) =>
      match finish_turn c with
      | Ok o => Some (mkPool (pending s) (<[k := Some o]> (outcomes s)) (<[i := Ready]> (workers s)) (failure s))
      | Raise e =>
          Some (mkPool (pending s) (outcomes s) (<[i := Done]> (workers s))
                  (match failure s with None => Some e | Some first => Some first end))
      end
  | _ => None
  end.

(** [worker_task.cancel()] once [gather] has raised. *)
Definition cancel_step (i : nat) (s : pool P) : option (pool P) :=
  match failure s, workers s !! i with
  | Some _, Some (Ready | Running _ _) =>
      Some (mkPool (pending s) (outcomes s) (<[i := Done]> (workers s)) (failure s))
  | _, _ => None
  end.

Inductive step (s s' : pool P) : Prop :=
| step_worker i : worker_step i s = Some s' -> step s s'
| step_cancel i : cancel_step i s = Some s' -> step s s'.

Definition is_done (w : worker) : bool := match w with Done => true | _ => false end.
Definition settled (s : pool P) : bool := forallb is_done (workers s).

(** What [dispatch] does once every worker is done. *)
Definition result (s : pool P) : res (list (TurnDispatchOutcome P)) :=
  match failure s with
  | Some e => Raise e
  | None =>
      _ ← guard_not (existsb is_none (outcomes s))
            RuntimeErrorC "shared worker pool did not produce every dispatch outcome";
      Ok (omap id (outcomes s))
  end.

(** ** [AgentTurnDispatcher] *)

Definition new_dispatcher (worker_limit : Z) : res nat :=
  _ ← guard_not (worker_limit <? 1)%Z ValueErrorC "worker_limit must be at least 1";
  Ok (Z.to_nat worker_limit).

(** The event loop's choices are a list of workers; choices that are not
    possible are skipped, and when it ends the first worker that is not done
    goes on, or is cancelled. *)
Definition run_schedule (schedule : list nat) (s : pool P) : pool P :=
  foldl (fun s i => default s (worker_step i s)) s schedule.

Fixpoint first_open (k : nat) (ws : list worker) : option nat :=
  match ws with
  | [] => None
  | w :: ws' => if is_done w then first_open (S k) ws' else Some k
  end.

Fixpoint settle (fuel : nat) (s : pool P) : pool P :=
  match fuel, first_open 0 (workers s) with
  | S f, Some i =>
      match (if is_some (failure s) then cancel_step i s else worker_step i s) with
      | Some s' => settle f s'
      | None => s
      end
  | _, _ => s
  end.

(** Steps a pool can still take: two for each waiting turn, and what each
    worker owes. *)
Definition owed (w : worker) : nat := match w with Ready => 1 | Running _ _ => 2 | Done => 0 end.
Definition measure (s : pool P) : nat := 2 * length (pending s) + sum_list_with owed (workers s).

Definition dispatch (worker_limit : nat) (schedule : list nat) (contexts : list ReasoningContext)
    : res (list (TurnDispatchOutcome P)) :=
  _ ← guard_not (negb (nonempty contexts)) ValueErrorC "dispatch requires at least one logical turn";
  _ ← _validate_batch contexts;
  let s := run_schedule schedule (start worker_limit contexts) in
  result (settle (measure s) s).

End pool.
Arguments pool : clear implicits.

(** ** Where a turn is *)

Definition running_index (w : worker) : option nat :=
  match w with Running k _ => Some k | _ => None end.

Fixpoint completed_from {A} (k : nat) (l : list (option A)) : list nat :=
  match l with
  | [] => []
  | Some _ :: l' => k :: completed_from (S k) l'
  | None :: l' => completed_from (S k) l'
  end.

(** Awaited by a worker, waiting in the queue, or answered. *)
Definition held {P} (s : pool P) : list nat :=
  omap running_index (workers s) ++ map fst (pending s) ++ completed_from 0 (outcomes s).

Lemma insert_middle {A} (l1 l2 : list A) x y : <[length l1 := y]> (l1 ++ x :: l2) = l1 ++ y :: l2.
Proof. by rewrite insert_app_r_alt, Nat.sub_diag by lia. Qed.

Lemma update_split {A} (l : list A) i x :
  l !! i = Some x -> exists l1 l2, l = l1 ++ x :: l2 /\ forall y, <[i := y]> l = l1 ++ y :: l2.
Proof.
  intros (l1 & l2 & -> & ->)%list_elem_of_split_length. exists l1, l2. split; [done|].
  intros y. by rewrite insert_middle.
Qed.

Lemma completed_app {A} k (l1 l2 : list (option A)) :
  completed_from k (l1 ++ l2) = completed_from k l1 ++ completed_from (k + length l1) l2.
Proof.
  revert k; induction l1 as [|[x|] l1 IH]; intros k; cbn; [by rewrite Nat.add_0_r|..];
    rewrite IH, Nat.add_succ_r; done.
Qed.

Lemma completed_insert {A} k (l : list (option A)) x :
  l !! k = Some None -> completed_from 0 (<[k := Some x]> l) ≡ₚ k :: completed_from 0 l.
Proof.
  intros (l1 & l2 & -> & ->)%list_elem_of_split_length. rewrite insert_middle.
  rewrite !completed_app. cbn. by rewrite Permutation_middle.
Qed.

Lemma completed_full {A} k (l : list (option A)) :
  completed_from k l ≡ₚ seq k (length l) -> forall i, i < length l -> exists x, l !! i = Some (Some x).
Proof.
  intros Hp i Hi. destruct (lookup_lt_is_Some_2 l i Hi) as [[x|] Hl]; [eauto|].
  apply list_elem_of_split_length in Hl as (l1 & l2 & -> & ->). exfalso.
  apply Permutation_length in Hp. rewrite length_seq, length_app, completed_app, length_app in Hp.
  assert (Hle : forall j (m : list (option A)), length (completed_from j m) <= length m).
  { intros j m; revert j; induction m as [|[?|] m IH]; intros j; cbn; [done|..]; specialize (IH (S j)); lia. }
  cbn in Hp. specialize (Hle k l1) as H1. specialize (Hle (S (k + length l1)) l2) as H2. lia.
Qed.

Lemma imap_pair_fst {A} n (l : list A) : map fst (imap (fun i => pair (n + i)) l) = seq n (length l).
Proof.
  revert n; induction l as [|x l IH]; intros n; cbn; [done|]. rewrite Nat.add_0_r. f_equal.
  rewrite <- (IH (S n)). f_equal. apply imap_ext. intros; cbn. f_equal. lia.
Qed.

Lemma enumerate_fst contexts : map fst (enumerate contexts) = seq 0 (length contexts).
Proof. apply (imap_pair_fst 0). Qed.

Lemma enumerate_elem contexts k c : (k, c) ∈ enumerate contexts <-> contexts !! k = Some c.
Proof.
  unfold enumerate. rewrite elem_of_lookup_imap. split; [by intros (i & y & [= -> ->] & ?)|eauto].
Qed.

Lemma completed_none {A} k n : completed_from k (replicate n (@None A)) = [].
Proof. revert k; induction n; intros; cbn; auto. Qed.

Lemma completed_elem {A} (l : list (option A)) k i :
  i ∈ completed_from k l <-> exists x, k <= i /\ l !! (i - k) = Some (Some x).
Proof.
  revert k; induction l as [|o l IH]; intros k; cbn.
  - rewrite elem_of_nil. split; [done|]. by intros (x & _ & Hx).
  - assert (Hl : (exists x, S k <= i /\ l !! (i - S k) = Some (Some x))
                 <-> exists x, k < i /\ (o :: l) !! (i - k) = Some (Some x)).
    { split; intros (x & Hk & Hx); exists x; (split; [lia|]); revert Hx;
        (replace (i - k) with (S (i - S k)) by lia); done. }
    destruct o as [y|]; rewrite ?elem_of_cons, IH, Hl; split.
    + intros [->|(x & Hk & Hx)]; [exists y; by rewrite Nat.sub_diag|exists x; split; [lia|done]].
    + intros (x & Hk & Hx). destruct (decide (i = k)) as [->|]; [by left|right; exists x; split; [lia|done]].
    + intros (x & Hk & Hx). exists x; split; [lia|done].
    + intros (x & Hk & Hx). destruct (decide (i = k)) as [->|]; [by rewrite Nat.sub_diag in Hx|].
      exists x; split; [lia|done].
Qed.

Lemma first_open_None k ws : first_open k ws = None <-> forallb is_done ws = true.
Proof. revert k; induction ws as [|[] ws IH]; intros k; cbn; [done|done|done|apply IH]. Qed.

Lemma first_open_Some k ws i :
  first_open k ws = Some i -> exists w, k <= i /\ ws !! (i - k) = Some w /\ is_done w = false.
Proof.
  revert k; induction ws as [|w ws IH]; intros k; cbn; [done|]. destruct (is_done w) eqn:Hw.
  - intros (w' & Hk & Hl & Hd)%IH. exists w'. split; [lia|]. split; [|done].
    by replace (i - k) with (S (i - S k)) by lia.
  - intros [= ->]. exists w. by rewrite Nat.sub_diag.
Qed.

Section correctness.
Context {P : Type} `{ProposalLike P} (turn : ReasoningContext -> turn_end P).
Implicit Types (s : pool P) (i : nat).
Local Abbreviation step_ := (step turn).

(** ** One step_ *)

(** A step_ replaces one worker. *)
Lemma step_cases s s' :
  step_ s s' -> exists w1 w w2, workers s = w1 ++ w :: w2 /\
  ((w = Ready /\ pending s = [] /\ s' = mkPool [] (outcomes s) (w1 ++ Done :: w2) (failure s)) \/
   (exists k c rest, w = Ready /\ pending s = (k, c) :: rest /\
      s' = mkPool rest (outcomes s) (w1 ++ Running k c :: w2) (failure s)) \/
   (exists k c o, w = Running k c /\ finish_turn turn c = Ok o /\
      s' = mkPool (pending s) (<[k := Some o]> (outcomes s)) (w1 ++ Ready :: w2) (failure s)) \/
   (exists k c e, w = Running k c /\ finish_turn turn c = Raise e /\
      s' = mkPool (pending s) (outcomes s) (w1 ++ Done :: w2) (Some (default e (failure s)))) \/
   (is_done w = false /\ is_Some (failure s) /\
      s' = mkPool (pending s) (outcomes s) (w1 ++ Done :: w2) (failure s))).
Proof.
  intros [i Hs|i Hs]; [unfold worker_step in Hs|unfold cancel_step in Hs].
  - destruct (workers s !! i) as [w|] eqn:Hi; [|done].
    destruct (update_split _ _ _ Hi) as (w1 & w2 & Hw & Hu). exists w1, w, w2. split; [done|].
    destruct w as [|k c|]; [|right; right|done].
    + destruct (pending s) as [|[k c] rest]; injection Hs as <-; [left|right; left; exists k, c, rest];
        by rewrite Hu.
    + destruct (finish_turn turn c) as [o|e] eqn:Hf; injection Hs as <-; rewrite Hu.
      * left. by exists k, c, o.
      * right; left. exists k, c, e. by destruct (failure s).
  - destruct (failure s) as [e|] eqn:He; [|done]. destruct (workers s !! i) as [w|] eqn:Hi; [|done].
    destruct (update_split _ _ _ Hi) as (w1 & w2 & Hw & Hu). exists w1, w, w2. split; [done|].
    right; right; right; right. destruct w; [| |done]; injection Hs as <-; rewrite Hu; done.
Qed.

(** Case on the kind of a step_. *)
Ltac step_case Hs w1 w2 Hw :=
  apply step_cases in Hs as (w1 & ? & w2 & Hw &
    [(-> & ? & ->)|[(?k & ?c & ?rest & -> & ? & ->)|[(?k & ?c & ?o & -> & ? & ->)|
     [(?k & ?c & ?e & -> & ? & ->)|(? & ? & ->)]]]]).

Lemma measure_step s s' : step_ s s' -> measure s' < measure s.
Proof.
  intros Hs. unfold measure. step_case Hs w1 w2 Hw;
    rewrite Hw; cbn [pending workers]; rewrite !sum_list_with_app; cbn [sum_list_with owed];
    try match goal with Hp : pending s = _ |- _ => rewrite Hp end; cbn [length]; try lia.
  destruct x; [cbn; lia|cbn; lia|done].
Qed.

Lemma workers_step s s' : step_ s s' -> length (workers s') = length (workers s).
Proof. intros Hs. step_case Hs w1 w2 Hw; rewrite Hw; cbn [workers]; rewrite !length_app; done. Qed.

(** A pool that is not settled can go on. *)
Lemma can_step s : settled s = false -> exists s', step_ s s'.
Proof.
  unfold settled. destruct (first_open 0 (workers s)) as [i|] eqn:Ho.
  - intros _. apply first_open_Some in Ho as (w & _ & Hi & Hw). rewrite Nat.sub_0_r in Hi.
    assert (is_Some (worker_step turn i s)) as [s' Hs']; [|exists s'; by apply step_worker with i].
    unfold worker_step. rewrite Hi. destruct w as [|k c|]; [destruct (pending s) as [|[??]]; by eexists| |done].
    destruct (finish_turn turn c); by eexists.
  - apply first_open_None in Ho. by rewrite Ho.
Qed.

(** ** The invariant of the pool *)

(** Indices leave the pool only when a turn fails or is cancelled. *)
Lemma held_step s s' :
  step_ s s' ->
  (forall k c, Running k c ∈ workers s -> outcomes s !! k = Some None) ->
  exists lost, held s ≡ₚ lost ++ held s' /\ (failure s' = None -> lost = [] /\ failure s = None).
Proof.
  intros Hs Hr. unfold held. step_case Hs w1 w2 Hw; rewrite Hw; cbn [pending workers outcomes failure];
    try match goal with Hp : pending s = _ |- _ => rewrite Hp end;
    rewrite !omap_app; cbn [omap list_omap running_index map fst].
  - exists []. done.
  - exists []. split; [|done]. cbn. solve_Permutation.
  - exists []. split; [|done]. rewrite completed_insert; [cbn; solve_Permutation|].
    apply (Hr k c). rewrite Hw. set_solver.
  - exists [k]. split; [cbn; solve_Permutation|done].
  - destruct x as [|k c|]; [exists []|exists [k]|done]; (split; [cbn; solve_Permutation|]);
      cbn; intros Hf; rewrite Hf in *; by match goal with Hn : is_Some None |- _ => destruct Hn end.
Qed.

Context (worker_limit : nat) (contexts : list ReasoningContext).

Record pool_shape s : Prop := {
  po_workers : length (workers s) = min worker_limit (length contexts);
  po_length : length (outcomes s) = length contexts;
  po_pending : forall k c, (k, c) ∈ pending s -> contexts !! k = Some c;
  po_running : forall k c, Running k c ∈ workers s -> contexts !! k = Some c;
  po_held : failure s = None -> held s ≡ₚ seq 0 (length contexts);
  po_once : held s ⊆+ seq 0 (length contexts);
  po_drained : failure s = None -> Done ∈ workers s -> pending s = []
}.

(** The same with what [turn] gives each turn that ended. *)
Record pool_ok s : Prop := {
  po_shape : pool_shape s;
  po_outcomes : forall k o, outcomes s !! k = Some (Some o) ->
    exists c, contexts !! k = Some c /\ finish_turn turn c = Ok o;
  po_failure : forall e, failure s = Some e -> exists c, c ∈ contexts /\ finish_turn turn c = Raise e
}.
#[local] Coercion po_shape : pool_ok >-> pool_shape.

Lemma held_NoDup s : pool_shape s -> NoDup (held s).
Proof.
  intros Hs. destruct (submseteq_Permutation _ _ (po_once _ Hs)) as (k & Hk).
  pose proof (NoDup_seq 0 (length contexts)) as Hn. rewrite Hk in Hn. by apply NoDup_app in Hn as [? _].
Qed.

Lemma running_empty s k c : pool_shape s -> Running k c ∈ workers s -> outcomes s !! k = Some None.
Proof.
  intros Hs Hk. pose proof (po_running _ Hs _ _ Hk) as Hc. apply lookup_lt_Some in Hc.
  rewrite <- (po_length _ Hs) in Hc. destruct (lookup_lt_is_Some_2 _ _ Hc) as [[o|] Ho]; [|done]. exfalso.
  assert (NoDup (held s)) as Hn.
  { by apply held_NoDup. }
  unfold held in Hn. apply NoDup_app in Hn as (_ & Hn & _). apply (Hn k).
  - apply list_elem_of_omap. by exists (Running k c).
  - apply elem_of_app. right. apply completed_elem. exists o. split; [lia|]. by rewrite Nat.sub_0_r.
Qed.

Lemma start_shape : 0 < worker_limit -> pool_shape (start worker_limit contexts).
Proof.
  intros Hl. assert (Hheld : held (start worker_limit contexts : pool P) = seq 0 (length contexts)).
  { unfold held, start. cbn. rewrite completed_none, app_nil_r, enumerate_fst.
    replace (omap _ _) with ([] : list nat); [done|]. symmetry.
    generalize (min worker_limit (length contexts)). by intros n; induction n. }
  split.
  - apply length_replicate.
  - apply length_replicate.
  - intros k c. apply enumerate_elem.
  - intros k c Hk. cbn in Hk. apply elem_of_replicate in Hk. by destruct Hk.
  - intros _. by rewrite Hheld.
  - by rewrite Hheld.
  - intros _ Hd. cbn in Hd. apply elem_of_replicate in Hd. by destruct Hd.
Qed.

Lemma start_ok : 0 < worker_limit -> pool_ok (start worker_limit contexts).
Proof.
  intros Hl. split; [by apply start_shape| |done].
  intros k o Ho. cbn in Ho. apply lookup_replicate in Ho as [[=] _].
Qed.

Lemma step_shape s s' : step_ s s' -> pool_shape s -> pool_shape s'.
Proof.
  intros Hs Hok. pose proof (workers_step _ _ Hs) as Hlen.
  destruct (held_step _ _ Hs (fun k c => running_empty _ k c Hok)) as (lost & Hheld & Hlost).
  assert (Hsub : forall w1 w w2 w', workers s = w1 ++ w :: w2 -> forall x, x ∈ w1 ++ w' :: w2 -> x = w' \/ x ∈ workers s).
  { intros w1 w w2 w' -> x. set_solver. }
  destruct Hok as [H1 H2 H3 H4 H7 H8 H9]. split; [congruence| | | | | |].
  - rewrite <- H2. step_case Hs w1 w2 Hw; cbn [outcomes]; rewrite ?length_insert; done.
  - intros k' c' Hin. apply H3. revert Hin. step_case Hs w1 w2 Hw; cbn [pending]; try done; [set_solver|].
    match goal with Hp : pending s = _ |- _ => rewrite Hp end. set_solver.
  - intros k' c'. step_case Hs w1 w2 Hw; cbn [workers]; intros Hin;
      apply (Hsub _ _ _ _ Hw) in Hin as [Heq|Hin]; try done; try by apply H4.
    injection Heq as -> ->. apply H3. match goal with Hp : pending s = _ |- _ => rewrite Hp end. left.
  - intros Hf. destruct (Hlost Hf) as [-> Hf']. by rewrite <- Hheld, H7.
  - etrans; [|exact H8]. rewrite Hheld. by apply submseteq_inserts_l.
  - step_case Hs w1 w2 Hw; cbn [failure pending workers]; intros Hf Hd; try done;
      try (apply (Hsub _ _ _ _ Hw) in Hd as [Heq|Hd]; try discriminate Heq).
    + specialize (H9 Hf Hd). congruence.
    + by apply H9.
    + rewrite Hf in *. by match goal with Hn : is_Some None |- _ => destruct Hn end.
    + by apply H9.
Qed.

Lemma step_ok s s' : step_ s s' -> pool_ok s -> pool_ok s'.
Proof.
  intros Hs [Hshape H5 H6]. pose proof (po_running _ Hshape) as H4. split; [by eapply step_shape| |].
  - intros k' o'. step_case Hs w1 w2 Hw; cbn [outcomes]; try by apply H5.
    intros [(-> & [= ->] & _)|[_ Ho]]%list_lookup_insert_Some; [|by apply H5].
    exists c. split; [|done]. apply H4. rewrite Hw. set_solver.
  - intros e'. step_case Hs w1 w2 Hw; cbn [failure]; try by apply H6. intros [= <-].
    destruct (failure s) as [e0|] eqn:He; [by apply H6|]. exists c. split; [|done].
    apply (list_elem_of_lookup_2 _ k), H4. rewrite Hw. set_solver.
Qed.

Lemma reachable_ok s : 0 < worker_limit -> rtc step_ (start worker_limit contexts) s -> pool_ok s.
Proof.
  intros Hl Hr. apply start_ok in Hl. revert Hl.
  induction Hr as [|s0 s1 s2 Hs _ IH]; [done|]. intros Hok. by apply IH, (step_ok s0).
Qed.

(** ** Settled pools *)

Lemma settled_done s w : settled s = true -> w ∈ workers s -> w = Done.
Proof. intros Hs Hw. apply (forallb_elem _ _ _ Hw) in Hs. by destruct w. Qed.

Lemma all_answered s :
  0 < worker_limit -> contexts <> [] -> pool_shape s -> settled s = true -> failure s = None ->
  forall k, k < length contexts -> exists o, outcomes s !! k = Some (Some o).
Proof.
  intros Hl Hc Hok Hs Hf k Hk. pose proof (po_workers _ Hok) as Hw.
  assert (exists w, w ∈ workers s) as [w Hin].
  { destruct (workers s) as [|w ws]; [|exists w; left]. destruct contexts; [done|cbn in Hw; lia]. }
  pose proof (settled_done _ _ Hs Hin) as ->. pose proof (po_drained _ Hok Hf Hin) as Hp.
  pose proof (po_held _ Hok Hf) as Hh. unfold held in Hh. rewrite Hp in Hh.
  assert (omap running_index (workers s) = []) as Hr.
  { assert (forall w, w ∈ workers s -> w = Done) as Hall by (intros ?; by apply settled_done).
    clear - Hall. induction (workers s) as [|w ws IH]; [done|]. cbn.
    rewrite (Hall w) by left. apply IH. intros; apply Hall. by right. }
  rewrite Hr in Hh. cbn in Hh. rewrite <- (po_length _ Hok) in Hk, Hh.
  by apply (completed_full 0).
Qed.

Lemma answered_all {B} (f : B -> res (TurnDispatchOutcome P)) (l : list B) os :
  length os = length l ->
  (forall k, k < length l -> exists o, os !! k = Some (Some o)) ->
  (forall k o, os !! k = Some (Some o) -> exists c, l !! k = Some c /\ f c = Ok o) ->
  existsb is_none os = false /\ mapR f l = Ok (omap id os).
Proof.
  revert l; induction os as [|o os IH]; intros [|c l] Hlen Hall Hf; try done.
  destruct (Hall 0) as (o' & [= ->]); [cbn; lia|].
  destruct (Hf 0 o' eq_refl) as (c' & [= <-] & Hc).
  destruct (IH l) as [He Hm]; [by injection Hlen| | |].
  - intros k Hk. apply (Hall (S k)). cbn; lia.
  - intros k o Hk. apply (Hf (S k)). done.
  - split; [done|]. cbn. by rewrite Hc, Hm.
Qed.

(** The pool computes what one worker would, turn after turn. *)
Lemma settled_result s :
  0 < worker_limit -> contexts <> [] -> pool_ok s -> settled s = true ->
  (exists os, mapR (finish_turn turn) contexts = Ok os /\ result s = Ok os) \/
  (exists c e, c ∈ contexts /\ finish_turn turn c = Raise e /\ result s = Raise e).
Proof.
  intros Hl Hc Hok Hs. unfold result. destruct (failure s) as [e|] eqn:Hf.
  - right. destruct (po_failure _ Hok e Hf) as (c & Hin & He). by exists c, e.
  - left. exists (omap id (outcomes s)).
    destruct (answered_all (finish_turn turn) contexts (outcomes s)) as [He Hm];
      [apply (po_length _ Hok)|by apply (all_answered _ Hl Hc Hok)|apply Hok|]. by rewrite He, Hm.
Qed.

Lemma mapR_fails c e :
  c ∈ contexts -> finish_turn turn c = Raise e -> forall os, mapR (finish_turn turn) contexts <> Ok os.
Proof.
  intros Hc He os Hm%mapR_Ok. apply list_elem_of_lookup in Hc as [i Hi].
  destruct (Forall2_lookup_l _ _ _ _ _ Hm Hi) as (o & _ & Ho). by rewrite He in Ho.
Qed.

Lemma step_rtc_schedule schedule s : rtc step_ s (run_schedule turn schedule s).
Proof.
  revert s; induction schedule as [|i l IH]; intros s; cbn; [done|].
  destruct (worker_step turn i s) as [s'|] eqn:Hs; cbn; [|apply IH].
  eapply rtc_l; [by apply step_worker with i|apply IH].
Qed.

(** Enough fuel settles the pool. *)
Lemma settle_settles fuel s :
  measure s <= fuel -> rtc step_ s (settle turn fuel s) /\ settled (settle turn fuel s) = true.
Proof.
  revert s; induction fuel as [|f IH]; intros s Hm; cbn.
  - split; [done|]. destruct (settled s) eqn:Hs; [done|].
    destruct (can_step s Hs) as [s' Hs'%measure_step]. lia.
  - destruct (first_open 0 (workers s)) as [i|] eqn:Ho; [|by apply first_open_None in Ho].
    apply first_open_Some in Ho as (w & _ & Hi & Hw). rewrite Nat.sub_0_r in Hi.
    assert (exists s', (if is_some (failure s) then cancel_step i s else worker_step turn i s) = Some s'
                       /\ step_ s s') as (s' & -> & Hs').
    { destruct (failure s) as [e|] eqn:Hf; cbn.
      - unfold cancel_step. rewrite Hf, Hi. destruct w; [| |done]; eexists; (split; [done|]);
          apply step_cancel with i; unfold cancel_step; by rewrite Hf, Hi.
      - assert (exists s', worker_step turn i s = Some s') as (s' & Hs'); [|exists s'; split; [done|by apply step_worker with i]].
        unfold worker_step. rewrite Hi.
        destruct w as [|k c|]; [destruct (pending s) as [|[??]]; by eexists| |done].
        destruct (finish_turn turn c); by eexists. }
    pose proof (measure_step _ _ Hs'). destruct (IH s') as [Hr Hd]; [lia|].
    split; [by eapply rtc_l|done].
Qed.

Lemma measure_start : measure (start worker_limit contexts : pool P)
  = 2 * length contexts + min worker_limit (length contexts).
Proof.
  unfold measure, start, enumerate. cbn [pending workers]. rewrite length_imap. f_equal.
  generalize (min worker_limit (length contexts)). intros n; induction n; cbn in *; lia.
Qed.

Lemma measure_nsteps n s s' : nsteps step_ n s s' -> measure s' + n <= measure s.
Proof.
  intros Hn; induction Hn as [|n s0 s1 s2 Hs%measure_step _ IH]; lia.
Qed.

End correctness.

(** ** What dispatch guarantees *)

(** The pool cannot deadlock and cannot run for ever: a pool with a worker
    that is not done can step, and no run has more steps than two for every turn
    and one for every worker. *)
Theorem pool_terminates {P} `{ProposalLike P} (turn : ReasoningContext -> turn_end P)
    worker_limit contexts n (s : pool P) :
  nsteps (step turn) n (start worker_limit contexts) s ->
  n <= 2 * length contexts + min worker_limit (length contexts) /\
  (settled s = false -> exists s', step turn s s').
Proof.
  intros Hn. split; [|apply can_step]. apply measure_nsteps in Hn. rewrite measure_start in Hn. lia.
Qed.

(** Never more turns are awaited at once than the worker limit, or than
    there are turns, and no turn is waiting, awaited or answered twice. *)
Theorem pool_is_bounded {P} `{ProposalLike P} (turn : ReasoningContext -> turn_end P)
    worker_limit contexts (s : pool P) :
  0 < worker_limit -> rtc (step turn) (start worker_limit contexts) s ->
  length (omap running_index (workers s)) <= min worker_limit (length contexts) /\
  NoDup (held s) /\ (forall k, k ∈ held s -> k < length contexts).
Proof.
  intros Hl Hr. apply reachable_ok in Hr as [Hok _ _]; [|done]. split; [|split].
  - rewrite <- (po_workers _ _ _ Hok). clear. induction (workers s) as [|[] ws IH]; cbn; lia.
  - by apply (held_NoDup worker_limit contexts).
  - intros k Hk. pose proof (elem_of_submseteq _ _ _ Hk (po_once _ _ _ Hok)) as Hin%elem_of_seq. lia.
Qed.

Lemma new_outcome_Ok {P} `{ProposalLike P} (o o' : TurnDispatchOutcome P) :
  new_outcome o = Ok o' -> o' = o /\ valid_outcome o = Ok tt.
Proof. unfold new_outcome. intros Ho. inv_ok. by destruct r. Qed.

Lemma finish_turn_context {P} `{ProposalLike P} (turn : ReasoningContext -> turn_end P) c o :
  finish_turn turn c = Ok o -> to_context o = c.
Proof. unfold finish_turn. destruct (turn c); [| |done]; by intros [-> _]%new_outcome_Ok. Qed.

(** [dispatch] answers on every path: an empty batch and a batch that fails
    its check raise, and a valid one gives the outcomes of its turns in the
    order of the batch, or the failure of one of them, for every schedule. *)
Theorem dispatch_every_schedule {P} `{ProposalLike P} (turn : ReasoningContext -> turn_end P)
    worker_limit schedule contexts :
  0 < worker_limit ->
  match contexts, _validate_batch contexts with
  | [], _ => dispatch turn worker_limit schedule contexts
             = raise ValueErrorC "dispatch requires at least one logical turn"
  | _, Raise e => dispatch turn worker_limit schedule contexts = Raise e
  | _, Ok _ =>
      match mapR (finish_turn turn) contexts with
      | Ok os => dispatch turn worker_limit schedule contexts = Ok os /\ map to_context os = contexts
      | Raise _ => exists c e, c ∈ contexts /\ finish_turn turn c = Raise e /\
                               dispatch turn worker_limit schedule contexts = Raise e
      end
  end.
Proof.
  intros Hl. unfold dispatch. destruct contexts as [|c0 l]; [done|].
  cbn [nonempty negb guard_not]. remember (c0 :: l) as contexts eqn:Hc.
  destruct (_validate_batch contexts) as [[]|e]; [|done]. cbn.
  set (s := run_schedule turn schedule _).
  destruct (settle_settles turn (measure s) s (le_n _)) as [Hr Hs].
  assert (Hok : pool_ok turn worker_limit contexts (settle turn (measure s) s)).
  { apply reachable_ok; [done|]. etrans; [apply step_rtc_schedule|exact Hr]. }
  destruct (settled_result turn worker_limit contexts _ Hl ltac:(by rewrite Hc) Hok Hs) as [(os & Hm & Ho)|(c & e & Hin & He & Ho)].
  - rewrite Hm. split; [done|].
    rewrite (mapR_map _ to_context id _ _ (finish_turn_context turn) Hm). apply map_id.
  - destruct (mapR (finish_turn turn) contexts) as [os|] eqn:Hm; [|by exists c, e].
    by apply (mapR_fails turn contexts c e Hin He) in Hm.
Qed.

End Dispatch.

(** ** A batch of three turns on two workers *)

Module DispatchDemo.
Import Dispatch.

(** A proposal that is only the identity of its turn. *)
#[export] Instance id_proposal : ProposalLike uuid := fun p => p.

Definition definition_of (agent : uuid) : PinnedAgentDefinition :=
  mkPinnedDefinition agent agent 1 "Analyst" "energy" "ANALYST" [] [] [] "assess" "1" "prompts/assess"
    "sha256:aaaaaaaaaaaaaaaaaaaaaaaaaaaaaaaaaaaaaaaaaaaaaaaaaaaaaaaaaaaaaaaa".

Definition context_of (agent turn_id : uuid) : ReasoningContext :=
  mkReasoningContext 1 2 agent 1 (definition_of agent) "assess" "1" "1.0" turn_id 7 8 1 Proposal.ASSESS
    "Choose a site" [] [] [] [] None true 1000 dzero (S754_finite false 1 0) 1.

Definition batch : list ReasoningContext := [context_of 21 31; context_of 22 32; context_of 23 33].

Example batch_valid : map ReasoningContext_validate batch = [Ok tt; Ok tt; Ok tt] /\ _validate_batch batch = Ok tt.
Proof. vm_compute. done. Qed.

(** The second turn times out; the others answer. *)
Definition turns (c : ReasoningContext) : turn_end uuid :=
  if (rc_turn_id c =? 32)%N then TimedOut else Returned (bare_execution (rc_turn_id c)).

(** The same with a strategy that fails, and one that answers for another turn. *)
Definition bad_turns (c : ReasoningContext) : turn_end uuid :=
  if (rc_turn_id c =? 32)%N then Failed (Exn PermanentPortErrorC "provider")
  else if (rc_turn_id c =? 33)%N then Returned (bare_execution 99%N)
  else Returned (bare_execution (rc_turn_id c)).

Definition summary (r : res (list (TurnDispatchOutcome uuid))) : res (list (uuid * string)) :=
  (fun os => map (fun o => (rc_turn_id (to_context o), to_event_type o)) os) <$> r.

(** The third turn answers first; the outcomes keep the order of the batch. *)
Example late_first_turn :
  summary (dispatch turns 2 [0; 1; 1; 1; 1; 0]%nat batch)
  = Ok [(31%N, "AGENT_TURN_COMPLETED"); (32%N, "TURN_TIMEOUT"); (33%N, "AGENT_TURN_COMPLETED")].
Proof. vm_compute. reflexivity. Qed.

(** Which failure is raised depends on the schedule. *)
Example failures_race :
  summary (dispatch bad_turns 3 [0; 1; 2; 1]%nat batch) = Raise (Exn PermanentPortErrorC "provider") /\
  summary (dispatch bad_turns 3 [0; 1; 2; 2]%nat batch)
  = Raise (Exn ValidationErrorC "dispatch proposal does not match its logical turn").
Proof. vm_compute. done. Qed.

Definition some_schedule : list nat := [0; 1; 1; 1; 1; 0; 1; 0]%nat.
Lemma pool_terminates_witness :
  (2 <= 8)%nat /\ exists s', step turns (run_schedule turns [0; 1]%nat (start 2 batch)) s'.
Proof.
  assert (Hn : nsteps (step turns) 2 (start 2 batch) (run_schedule turns [0; 1]%nat (start 2 batch))).
  { eapply nsteps_l; [by apply (step_worker _ _ _ 0%nat)|].
    eapply nsteps_l; [by apply (step_worker _ _ _ 1%nat)|]. apply nsteps_O. }
  destruct (pool_terminates turns 2 batch 2 _ Hn) as [H1 H2]. split; [exact H1|]. by apply H2.
Defined.

Lemma pool_is_bounded_witness :
  (length (omap running_index (workers (run_schedule turns [0; 1]%nat (start 2 batch)))) <= 2)%nat.
Proof.
  apply (pool_is_bounded turns 2 batch); [lia|apply step_rtc_schedule].
Defined.

Lemma dispatch_every_schedule_witness :
  exists os, mapR (finish_turn turns) batch = Ok os /\
  dispatch turns 2 some_schedule batch = Ok os /\ map to_context os = batch.
Proof.
  pose proof (dispatch_every_schedule turns 2 some_schedule batch ltac:(lia)) as Hd.
  destruct (mapR (finish_turn turns) batch) as [os|e] eqn:Hm; [|vm_compute in Hm; discriminate Hm].
  exists os. split; [done|exact Hd].
Defined.

End DispatchDemo.
