(* ===== verification/DispatchRuns.v ===== *)
(** * Runs of the shared worker pool

    A run of the pool of [Dispatch.v] with what it did: the turns it handed to
    the runtime and how their calls ended, in the order in which they happened.
    How a call ends is free: two runs that begin a turn at different moments may
    see it end differently. *)

From Stdlib Require Import Floats.SpecFloat.
From S2P Require Import Prelude.
From S2P Require Import PyDecimal.
From S2P Require Import Symbolic.
From S2P Require Import OrchestratorPolicy.
From S2P Require Import AgentRuntime.
From S2P Require Import Dispatch.

Module Runs.
Import Dispatch.

(** [run_turn(context)] is awaited, and its call ends. *)
Inductive action (P : Type) : Type :=
| Begins (index : nat) (context : ReasoningContext)
| Ends (index : nat) (how : turn_end P).
Arguments Begins {P}.
Arguments Ends {P}.

Definition begun {P} (a : action P) : option (nat * ReasoningContext) :=
  match a with Begins k c => Some (k, c) | Ends _ _ => None end.
Definition ended {P} (a : action P) : option (nat * turn_end P) :=
  match a with Ends k x => Some (k, x) | Begins _ _ => None end.
Definition begins {P} (log : list (action P)) : list (nat * ReasoningContext) := omap begun log.
Definition ends {P} (log : list (action P)) : list (nat * turn_end P) := omap ended log.

Section runs.
Context {P : Type} `{ProposalLike P}.
Implicit Types (s : pool P) (log : list (action P)).

(** What a worker does in a step: the call it was awaiting ends, the next one
    begins. *)
Definition actions_of (turn : ReasoningContext -> turn_end P) (before after : option worker) : list (action P) :=
  match before with Some (Running k c) => [Ends k (turn c)] | _ => [] end ++
  match after with Some (Running k c) => [Begins k c] | _ => [] end.

Inductive run (s0 : pool P) : list (action P) -> pool P -> Prop :=
| run_starts : run s0 [] s0
| run_works log s turn i s' : run s0 log s -> worker_step turn i s = Some s' ->
    run s0 (log ++ actions_of turn (workers s !! i) (workers s' !! i)) s'
| run_cancels log s i s' : run s0 log s -> cancel_step i s = Some s' -> run s0 log s'.

(** What a call that ended makes of its turn. *)
Definition outcome_of (c : ReasoningContext) (x : turn_end P) : res (TurnDispatchOutcome P) :=
  finish_turn (fun _ => x) c.

(** The first call that ended in a failure. *)
Fixpoint first_failure (contexts : list ReasoningContext) (l : list (nat * turn_end P)) : option exn :=
  match l with
  | [] => None
  | (k, x) :: l' =>
      match contexts !! k with
      | Some c => match outcome_of c x with Raise e => Some e | Ok _ => first_failure contexts l' end
      | None => first_failure contexts l'
      end
  end.

(** How the call of a turn ended in a run. *)
Definition end_in log (k : nat) : turn_end P :=
  match List.find (fun kx => Nat.eqb (fst kx) k) (ends log) with Some (_, x) => x | None => TimedOut end.

(** One worker that runs the turns in the order of the batch, each ending as it
    does in the run. *)
Definition one_by_one (contexts : list ReasoningContext) log : res (list (TurnDispatchOutcome P)) :=
  mapR (fun kc => outcome_of (snd kc) (end_in log (fst kc))) (enumerate contexts).

(** ** What a run has done so far *)

Context (worker_limit : nat) (contexts : list ReasoningContext).

Definition awaited s : list nat := omap running_index (workers s).

Record logged log s : Prop := {
  lo_shape : pool_shape worker_limit contexts s;
  lo_begins : begins log ++ pending s = enumerate contexts;
  lo_once : awaited s ++ map fst (ends log) ⊆+ map fst (begins log);
  lo_all : failure s = None -> map fst (begins log) ⊆+ awaited s ++ map fst (ends log);
  lo_outcomes : forall k x c o, (k, x) ∈ ends log -> contexts !! k = Some c -> outcome_of c x = Ok o ->
    outcomes s !! k = Some (Some o);
  lo_failure : failure s = first_failure contexts (ends log);
  lo_before : forall log1 k x log2, log = log1 ++ Ends k x :: log2 -> k ∈ map fst (begins log1)
}.

Lemma first_failure_app l1 l2 :
  first_failure contexts (l1 ++ l2)
  = match first_failure contexts l1 with Some e => Some e | None => first_failure contexts l2 end.
Proof.
  induction l1 as [|[k x] l1 IH]; [done|]. cbn. destruct (contexts !! k) as [c|]; [|done].
  by destruct (outcome_of c x).
Qed.

Lemma first_failure_None l :
  first_failure contexts l = None <->
  forall k x c, (k, x) ∈ l -> contexts !! k = Some c -> is_ok (outcome_of c x) = true.
Proof.
  induction l as [|[k x] l IH]; cbn; [split; [intros _ k x c Hin; by apply not_elem_of_nil in Hin|done]|].
  destruct (contexts !! k) as [c|] eqn:Hc; [destruct (outcome_of c x) eqn:Ho|]; rewrite ?IH; split.
  - intros Hl k' x' c' [[= -> ->]|Hin]%elem_of_cons Hc'; [|by eapply Hl].
    rewrite Hc in Hc'. injection Hc' as <-. by rewrite Ho.
  - intros Hl k' x' c' Hin. apply Hl. by right.
  - done.
  - intros Hl. specialize (Hl k x c ltac:(left) Hc). by rewrite Ho in Hl.
  - intros Hl k' x' c' [[= -> ->]|Hin]%elem_of_cons Hc'; [congruence|by eapply Hl].
  - intros Hl k' x' c' Hin. apply Hl. by right.
Qed.

Lemma begins_app log log' : begins (log ++ log') = begins log ++ begins log'.
Proof. apply omap_app. Qed.
Lemma ends_app log log' : ends (log ++ log') = ends log ++ ends log'.
Proof. apply omap_app. Qed.

Lemma begun_indices log s : logged log s -> map fst (begins log) ++ map fst (pending s) = seq 0 (length contexts).
Proof. intros Hlog. by rewrite <- map_app, (lo_begins _ _ Hlog), enumerate_fst. Qed.

Lemma once_NoDup log s : logged log s -> NoDup (awaited s ++ map fst (ends log)).
Proof.
  intros Hlog. pose proof (NoDup_seq 0 (length contexts)) as Hn. rewrite <- (begun_indices _ _ Hlog) in Hn.
  apply NoDup_app in Hn as (Hn & _ & _). destruct (submseteq_Permutation _ _ (lo_once _ _ Hlog)) as (l & Hl).
  rewrite Hl in Hn. by apply NoDup_app in Hn as (? & _ & _).
Qed.

Lemma first_failure_one k c x :
  contexts !! k = Some c ->
  first_failure contexts [(k, x)] = match outcome_of c x with Raise e => Some e | Ok _ => None end.
Proof. intros Hc. cbn. by rewrite Hc. Qed.

(** Nothing that ends comes before its begin: kept by one more action. *)
Lemma before_snoc log (a : action P) :
  (forall log1 k x log2, log = log1 ++ Ends k x :: log2 -> k ∈ map fst (begins log1)) ->
  (forall k x, a = Ends k x -> k ∈ map fst (begins log)) ->
  forall log1 k x log2, log ++ [a] = log1 ++ Ends k x :: log2 -> k ∈ map fst (begins log1).
Proof.
  intros Hlog Ha log1 k x log2 Heq. destruct log2 as [|b log2 _] using rev_ind.
  - apply app_inj_tail in Heq as [<- ->]. by eapply Ha.
  - rewrite app_comm_cons, app_assoc in Heq. apply app_inj_tail in Heq as [-> _]. by eapply Hlog.
Qed.

(** What keeps the record through a step that does [acts]. *)
Lemma logged_step log s acts s' :
  logged log s -> pool_shape worker_limit contexts s' -> length acts <= 1 ->
  begins acts ++ pending s' = pending s ->
  awaited s' ++ map fst (ends acts) ≡ₚ awaited s ++ map fst (begins acts) ->
  (forall k x, (k, x) ∈ ends acts -> k ∈ awaited s) ->
  (forall k, k ∉ map fst (ends acts) -> outcomes s' !! k = outcomes s !! k) ->
  (forall k x c o, (k, x) ∈ ends acts -> contexts !! k = Some c -> outcome_of c x = Ok o -> outcomes s' !! k = Some (Some o)) ->
  failure s' = match failure s with Some e => Some e | None => first_failure contexts (ends acts) end ->
  logged (log ++ acts) s'.
Proof.
  intros Hlog Hshape Hlen Hp Haw Hrun Hkeep Hnew Hfail. pose proof (once_NoDup _ _ Hlog) as Hnd.
  destruct Hlog as [_ Hb Ho Ha Hout Hf Hbefore].
  assert (Hperm : awaited s' ++ map fst (ends (log ++ acts)) ≡ₚ awaited s ++ map fst (ends log) ++ map fst (begins acts)).
  { rewrite ends_app, map_app, (Permutation_app_comm (map fst (ends log))), app_assoc, Haw. solve_Permutation. }
  split; [done|..].
  - by rewrite begins_app, <- app_assoc, Hp.
  - rewrite Hperm, begins_app, map_app, app_assoc. apply submseteq_skips_r, Ho.
  - intros Hn. rewrite Hperm, begins_app, map_app, app_assoc. apply submseteq_skips_r, Ha.
    by destruct (failure s); [rewrite Hfail in Hn|].
  - intros k x c o Hin Hc Hok. rewrite ends_app in Hin. apply elem_of_app in Hin as [Hin|Hin]; [|by eapply Hnew].
    rewrite Hkeep; [by eapply Hout|]. intros ((k' & x') & -> & Hk')%list_elem_of_fmap. apply Hrun in Hk'.
    apply NoDup_app in Hnd as (_ & Hnd & _). apply (Hnd _ Hk'). apply list_elem_of_fmap. by exists (k', x).
  - by rewrite Hfail, ends_app, first_failure_app, Hf.
  - destruct acts as [|a [|? ?]]; [by rewrite app_nil_r| |cbn in Hlen; lia]. apply before_snoc; [done|].
    intros k x ->. specialize (Hrun k x ltac:(left)). eapply elem_of_submseteq; [|exact Ho]. set_solver.
Qed.

Lemma awaited_split s w1 w w2 :
  workers s = w1 ++ w :: w2 -> awaited s = omap running_index w1 ++ omap running_index [w] ++ omap running_index w2.
Proof. unfold awaited. intros ->. by rewrite <- !omap_app. Qed.

(** One worker of the pool is replaced. *)
Lemma awaited_move s i w y f os fl :
  workers s !! i = Some w ->
  awaited (mkPool f os (<[i:=y]> (workers s)) fl) ++ omap running_index [w] ≡ₚ awaited s ++ omap running_index [y].
Proof.
  intros (w1 & w2 & Hw & Hu)%update_split. unfold awaited. cbn [workers]. rewrite Hu, Hw.
  change (w :: w2) with ([w] ++ w2). change (y :: w2) with ([y] ++ w2). rewrite !omap_app. solve_Permutation.
Qed.

Lemma awaited_elem s i k c : workers s !! i = Some (Running k c) -> k ∈ awaited s.
Proof. intros Hi%list_elem_of_lookup_2. apply list_elem_of_omap. by exists (Running k c). Qed.

Lemma logged_works turn log s i s' :
  logged log s -> worker_step turn i s = Some s' ->
  logged (log ++ actions_of turn (workers s !! i) (workers s' !! i)) s'.
Proof.
  intros Hlog Hs. pose proof (step_shape turn worker_limit contexts s s' (step_worker _ _ _ i Hs) (lo_shape _ _ Hlog)) as Hshape.
  unfold worker_step in Hs. destruct (workers s !! i) as [w|] eqn:Hi; [|done].
  assert (Hl : forall y, <[i:=y]> (workers s) !! i = Some y) by (intros; apply list_lookup_insert_eq; by eapply lookup_lt_Some).
  assert (Hctx : forall k c, Some w = Some (Running k c) -> contexts !! k = Some c).
  { intros k c [= ->]. apply (po_running _ _ _ (lo_shape _ _ Hlog)). by eapply list_elem_of_lookup_2. }
  destruct w as [|k c|]; [destruct (pending s) as [|[k c] rest] eqn:Hp|destruct (finish_turn turn c) as [o|e] eqn:Hfin|done];
    injection Hs as <-; cbn [workers] in *; rewrite Hl; cbn [actions_of app]; apply (logged_step _ s);
    cbn [pending outcomes failure length ends begins omap list_omap begun ended map fst app]; try done; try lia;
    try (by intros ? ? Hin%not_elem_of_nil); try (by intros ? ? ? ? Hin%not_elem_of_nil); try (by destruct (failure s)).
  all: try exact (awaited_move s i _ _ _ _ _ Hi).
  all: try (intros k' x' [= -> ->]%list_elem_of_singleton; by eapply awaited_elem).
  - intros k' Hk. apply list_lookup_insert_ne. set_solver.
  - intros k' x' c' o' [= -> ->]%list_elem_of_singleton Hc Ho. rewrite (Hctx k c eq_refl) in Hc. injection Hc as <-.
    unfold outcome_of, finish_turn in *. rewrite Hfin in Ho. injection Ho as ->.
    apply list_lookup_insert_eq. rewrite (po_length _ _ _ (lo_shape _ _ Hlog)).
    by eapply lookup_lt_Some, (Hctx k c).
  - rewrite (first_failure_one k c _ (Hctx k c eq_refl)). unfold outcome_of, finish_turn in *. rewrite Hfin. by destruct (failure s).
  - intros k' x' c' o' [= -> ->]%list_elem_of_singleton Hc Ho. rewrite (Hctx k c eq_refl) in Hc. injection Hc as <-.
    unfold outcome_of, finish_turn in *. by rewrite Hfin in Ho.
  - rewrite (first_failure_one k c _ (Hctx k c eq_refl)). unfold outcome_of, finish_turn in *. by rewrite Hfin.
Qed.

Lemma logged_cancels (turn : ReasoningContext -> turn_end P) log s i s' :
  logged log s -> cancel_step i s = Some s' -> logged log s'.
Proof.
  intros Hlog Hs. pose proof (step_shape turn worker_limit contexts s s' (step_cancel _ _ _ i Hs) (lo_shape _ _ Hlog)) as Hshape.
  unfold cancel_step in Hs. destruct (failure s) as [e|] eqn:He; [|done]. destruct (workers s !! i) as [w|] eqn:Hi; [|done].
  assert (Hs' : s' = mkPool (pending s) (outcomes s) (<[i:=Done]> (workers s)) (Some e)) by (destruct w; congruence).
  subst s'. destruct Hlog as [_ Hb Ho Ha Hout Hf Hbefore]. split; try done; cbn [failure]; [|congruence].
  etrans; [|exact Ho]. apply submseteq_skips_r. pose proof (awaited_move s i w Done (pending s) (outcomes s) (Some e) Hi) as Hp.
  rewrite app_nil_r in Hp. rewrite <- Hp. by apply submseteq_inserts_r.
Qed.

Lemma run_logged log s : 0 < worker_limit -> run (start worker_limit contexts) log s -> logged log s.
Proof.
  intros Hl. induction 1 as [|log s turn i s' _ IH Hs|log s i s' _ IH Hs]; [|by apply logged_works|by eapply (logged_cancels (fun _ => TimedOut))].
  assert (Haw : awaited (start worker_limit contexts : pool P) = []).
  { unfold awaited, start. cbn [workers]. generalize (min worker_limit (length contexts)). intros n; by induction n. }
  split; [by apply start_shape|done|by rewrite Haw|by intros _; apply submseteq_nil_l|by intros ? ? ? ? Hin%not_elem_of_nil|done|].
  intros [|] ? ? ?; done.
Qed.

(** ** Settled runs *)

Lemma end_in_elem log k x : NoDup (map fst (ends log)) -> (k, x) ∈ ends log -> end_in log k = x.
Proof.
  unfold end_in. induction (ends log) as [|[k' x'] l IH]; cbn; [by intros _ Hin%not_elem_of_nil|].
  intros [Hk Hnd]%NoDup_cons [[= -> ->]|Hin]%elem_of_cons; [by rewrite Nat.eqb_refl|].
  destruct (Nat.eqb_spec k' k) as [->|]; [|by apply IH]. destruct Hk. apply list_elem_of_fmap. by exists (k, x).
Qed.

Lemma settled_awaited s : settled s = true -> awaited s = [].
Proof.
  intros Hs. unfold awaited. assert (Hall : forall w, w ∈ workers s -> w = Done) by (intros w; by apply settled_done).
  clear Hs. induction (workers s) as [|w ws IH]; [done|]. rewrite (Hall w) by left. apply IH. intros w' Hw. apply Hall. by right.
Qed.

Lemma settled_drained s :
  0 < worker_limit -> contexts <> [] -> pool_shape worker_limit contexts s -> settled s = true -> failure s = None ->
  pending s = [].
Proof.
  intros Hl Hc Hok Hs Hf. apply (po_drained _ _ _ Hok Hf). pose proof (po_workers _ _ _ Hok) as Hw.
  destruct (workers s) as [|w ws] eqn:E; [destruct contexts; [done|cbn in Hw; lia]|].
  rewrite <- (settled_done s w Hs); [left|rewrite E; left].
Qed.

(** A settled pool without failure has begun and ended every turn. *)
Lemma settled_complete log s :
  0 < worker_limit -> contexts <> [] -> logged log s -> settled s = true -> failure s = None ->
  begins log = enumerate contexts /\ map fst (ends log) ≡ₚ seq 0 (length contexts) /\
  exists os, one_by_one contexts log = Ok os /\ result s = Ok os.
Proof.
  intros Hl Hc Hlog Hs Hf. pose proof (settled_drained s Hl Hc (lo_shape _ _ Hlog) Hs Hf) as Hp.
  pose proof (lo_begins _ _ Hlog) as Hb. rewrite Hp, app_nil_r in Hb. pose proof (begun_indices _ _ Hlog) as Hi.
  rewrite Hp, app_nil_r in Hi. pose proof (settled_awaited s Hs) as Ha.
  assert (Hends : map fst (ends log) ≡ₚ seq 0 (length contexts)).
  { pose proof (lo_once _ _ Hlog) as H1. pose proof (lo_all _ _ Hlog Hf) as H2. rewrite Ha, Hi in H1. rewrite Ha, Hi in H2.
    by apply (anti_symm submseteq). }
  split; [done|]. split; [done|]. exists (omap id (outcomes s)). pose proof (lo_failure _ _ Hlog) as Hnone.
  rewrite Hf in Hnone. symmetry in Hnone. rewrite first_failure_None in Hnone.
  pose proof (once_NoDup _ _ Hlog) as Hnd. rewrite Ha in Hnd. cbn [app] in Hnd.
  assert (Hall : forall k c, contexts !! k = Some c -> exists o, outcome_of c (end_in log k) = Ok o /\ outcomes s !! k = Some (Some o)).
  { intros k c Hk. assert (Hin : k ∈ map fst (ends log)).
    { rewrite Hends. apply elem_of_seq. apply lookup_lt_Some in Hk. lia. }
    apply list_elem_of_fmap in Hin as ([k' x] & -> & Hin). cbn [fst] in *. rewrite (end_in_elem _ _ _ Hnd Hin).
    pose proof (Hnone _ _ _ Hin Hk) as (o & Ho)%is_ok_exists. exists o. split; [done|]. by eapply (lo_outcomes _ _ Hlog). }
  unfold one_by_one, result. rewrite Hf.
  destruct (answered_all (fun kc => outcome_of (snd kc) (end_in log (fst kc))) (enumerate contexts) (outcomes s)) as [Hx Hm].
  - unfold enumerate. rewrite length_imap. apply (po_length _ _ _ (lo_shape _ _ Hlog)).
  - unfold enumerate. rewrite length_imap. intros k Hk. destruct (lookup_lt_is_Some_2 _ _ Hk) as [c Hc'].
    destruct (Hall k c Hc') as (o & _ & Ho). by exists o.
  - intros k o Hk. assert (Hlt : k < length contexts).
    { rewrite <- (po_length _ _ _ (lo_shape _ _ Hlog)). by eapply lookup_lt_Some. }
    destruct (lookup_lt_is_Some_2 _ _ Hlt) as [c Hc']. destruct (Hall k c Hc') as (o' & Ho & Hk').
    rewrite Hk in Hk'. injection Hk' as ->. exists (k, c). split; [|done]. unfold enumerate. by rewrite list_lookup_imap, Hc'.
  - by rewrite Hx, Hm.
Qed.

End runs.

(** The steps of chosen workers, each with how a call would end then. *)
Definition scheduled {P} `{ProposalLike P} (l : list ((ReasoningContext -> turn_end P) * nat)) (s : pool P)
    : list (action P) * pool P :=
  foldl (fun '(log, s) '(turn, i) =>
           match worker_step turn i s with
           | Some s' => (log ++ actions_of turn (workers s !! i) (workers s' !! i), s')
           | None => (log, s)
           end) ([], s) l.

Lemma scheduled_run {P} `{ProposalLike P} (l : list ((ReasoningContext -> turn_end P) * nat)) s :
  run s (fst (scheduled l s)) (snd (scheduled l s)).
Proof.
  unfold scheduled. assert (Hgen : forall log s1, run s log s1 ->
    let r := foldl (fun '(log, s) '(turn, i) => match worker_step turn i s with
               | Some s' => (log ++ actions_of turn (workers s !! i) (workers s' !! i), s') | None => (log, s) end) (log, s1) l
    in run s (fst r) (snd r)); [|apply Hgen; constructor].
  induction l as [|[turn i] l IH]; intros log s1 Hr; cbn; [done|].
  destruct (worker_step turn i s1) as [s2|] eqn:Hs; [|by apply IH]. apply IH. by eapply run_works.
Qed.

(** C18. However the event loop orders the workers, and however each call of the
    runtime ends, turns begin in the order of the batch, each at most once, each
    ends at most once and after it began; and once every worker is done the pool
    raises the failure of the first call that ended in one, or, when none did,
    every turn has begun and ended exactly once and the pool holds, in the order
    of the batch, what one worker running the turns one after the other would,
    each call ending as it did.  The final check of the code, that every slot is
    filled, never fails. *)
Theorem pool_is_sequential {P} `{ProposalLike P} worker_limit contexts log (s : pool P)
    (Hl : 0 < worker_limit) (Hc : contexts <> [])
    (Hr : run (start worker_limit contexts) log s) (Hs : settled s = true) :
  begins log `prefix_of` enumerate contexts /\ NoDup (map fst (ends log)) /\
  (forall log1 k x log2, log = log1 ++ Ends k x :: log2 -> k ∈ map fst (begins log1)) /\
  match first_failure contexts (ends log) with
  | Some e => result s = Raise e
  | None => begins log = enumerate contexts /\ map fst (ends log) ≡ₚ seq 0 (length contexts) /\
            exists os, one_by_one contexts log = Ok os /\ result s = Ok os
  end.
Proof.
  pose proof (run_logged _ _ _ _ Hl Hr) as Hlog. split; [|split; [|split; [apply (lo_before _ _ _ _ Hlog)|]]].
  - exists (pending s). by rewrite (lo_begins _ _ _ _ Hlog).
  - pose proof (once_NoDup _ _ _ _ Hlog) as Hnd. by apply NoDup_app in Hnd as (_ & _ & ?).
  - pose proof (lo_failure _ _ _ _ Hlog) as Hf. rewrite <- Hf. destruct (failure s) as [e|] eqn:Hfail.
    + unfold result. by rewrite Hfail.
    + by apply (settled_complete worker_limit).
Qed.

End Runs.

(** ** A batch of three turns on two workers *)

Module RunsDemo.
Import Dispatch Runs DispatchDemo.

Definition late (c : ReasoningContext) : turn_end uuid := TimedOut.

(** The second worker runs the second and third turns while the first turn is
    still awaited; the first turn then times out. *)
Definition choices : list ((ReasoningContext -> turn_end uuid) * nat) :=
  map (pair turns) [0; 1; 1; 1; 1; 1]%nat ++ map (pair late) [0; 0]%nat.
Definition log : list (action uuid) := fst (scheduled choices (start 2 batch)).
Definition final : pool uuid := snd (scheduled choices (start 2 batch)).

Example what_happened :
  map fst (begins log) = [0; 1; 2]%nat /\ map fst (ends log) = [1; 2; 0]%nat /\
  summary (result final) = Ok [(31%N, "TURN_TIMEOUT"); (32%N, "TURN_TIMEOUT"); (33%N, "AGENT_TURN_COMPLETED")].
Proof. vm_compute. done. Qed.

Lemma pool_is_sequential_witness :
  begins log = enumerate batch /\ exists os, one_by_one batch log = Ok os /\ result final = Ok os.
Proof.
  pose proof (pool_is_sequential 2 batch log final ltac:(lia) ltac:(discriminate) (scheduled_run choices (start 2 batch))
                ltac:(vm_compute; reflexivity)) as (_ & _ & _ & Hs).
  assert (Hf : first_failure batch (ends log) = None) by (vm_compute; reflexivity).
  rewrite Hf in Hs. destruct Hs as (Hb & _ & Ho). split; [exact Hb|exact Ho].
Defined.

End RunsDemo.
