(* ===== verification/Marl.v ===== *)
(** * Learning trajectories: the domain

    [app/domain/marl.py]: exact rationals, the identifiers, the immutable
    records of one episode with their validators, their canonical preimages and
    hashes, and the lifecycle of an episode.  A record that carries its own hash
    is [sealed]: its other fields and that hash.  The constants [schema_version]
    and [record_type] appear in the preimages only. *)

From Stdlib Require Import QArith Qreduction Qcanon.
From S2P Require Import Prelude.
From S2P Require Import Sha256.
From S2P Require Import Uuid5.
From S2P Require Import Json.
From S2P Require Import Symbolic.
From S2P Require Import ConsensusPorts.

Local Open Scope Z_scope.

Module Marl.

(** ** Identifiers and numbers *)

Definition ident_char (c : ascii) : bool :=
  is_lower c || is_digit c || existsb (Ascii.eqb c) ["_"%char; "."%char; "-"%char].
Definition version_char (c : ascii) : bool :=
  is_alnum c || existsb (Ascii.eqb c) ["_"%char; "."%char; "+"%char; "-"%char].
Definition reason_char (c : ascii) : bool := is_upper c || is_digit c || Ascii.eqb c "_"%char.

(** One character of a class, then at most [n] of another ([fullmatch]). *)
Definition class_match (first rest : ascii -> bool) (n : nat) (s : string) : bool :=
  match chars s with
  | c :: l => first c && forallb rest l && (length l <=? n)%nat
  | [] => false
  end.

Definition _identifier (value : string) : res string :=
  _ ← guard_not (negb (class_match is_lower ident_char 127 value))
        ValueErrorC "identifier must be lowercase ASCII and version-stable";
  Ok value.
Definition _reason (value : string) : res string :=
  _ ← guard_not (negb (class_match is_upper reason_char 63 value))
        ValueErrorC "reason must be a stable uppercase code";
  Ok value.
Definition _version (value : string) : res string :=
  _ ← guard_not (negb (class_match is_alnum version_char 127 value))
        ValueErrorC "version must be stable ASCII";
  Ok value.

(** [_DECIMAL_RE]: zero, or an optionally negative integer without leading
    zeros; then, optionally, a point and digits that do not end in zero. *)
Definition nonzero_digit (c : ascii) : bool := char_in 49 57 c.
Fixpoint decimal_tail (l : list ascii) (last_nonzero : bool) : bool :=
  match l with
  | [] => last_nonzero
  | c :: l' => is_digit c && decimal_tail l' (nonzero_digit c)
  end.
Fixpoint decimal_rest (l : list ascii) : bool :=
  match l with
  | [] => true
  | c :: l' => if is_digit c then decimal_rest l' else Ascii.eqb c "."%char && decimal_tail l' false
  end.
Definition decimal_re (s : string) : bool :=
  match chars s with
  | "0"%char :: l => match l with [] => true | c :: l' => Ascii.eqb c "."%char && decimal_tail l' false end
  | "-"%char :: c :: l => nonzero_digit c && decimal_rest l
  | c :: l => nonzero_digit c && decimal_rest l
  | [] => false
  end.
Definition _canonical_decimal (value : string) : res string :=
  _ ← guard_not (negb (decimal_re value) || String.eqb value "-0")
        ValueErrorC "decimal must be canonical, finite, plain, and free of trailing zeroes";
  Ok value.

Example decimal_examples :
  map (fun s => is_ok (_canonical_decimal s)) ["0"; "-0"; "10"; "1.50"; "1.05"; "-2.5"; "0.5"; "-0.5"; "01"; "."]
  = [true; false; true; false; true; true; true; false; false; false].
Proof. vm_compute. reflexivity. Qed.

(** ** Exact rationals

    [fractions.Fraction] is [Q] in lowest terms. *)

Record RationalV1 : Type := mkRational { numerator : Z; denominator : Z }.

#[global] Instance RationalV1_eq_dec : EqDecision RationalV1.
Proof. solve_decision. Defined.

(** [Field(gt=0)] and [reduced] *)
Definition RationalV1_ok (r : RationalV1) : bool :=
  (0 <? denominator r) && (Z.gcd (numerator r) (denominator r) =? 1).
Definition new_rational (r : RationalV1) : res RationalV1 :=
  _ ← guard_not (negb (RationalV1_ok r)) ValidationErrorC "rational must be reduced";
  Ok r.

Definition from_fraction (value : Q) : res RationalV1 :=
  new_rational (mkRational (Qnum value) (Zpos (Qden value))).
Definition rational_zero : RationalV1 := mkRational 0 1.

(** [Fraction(numerator, denominator)] *)
Definition fraction (r : RationalV1) : Q := Qred (numerator r # Z.to_pos (denominator r)).
Definition rational_add (a b : RationalV1) : res RationalV1 := from_fraction (Qred (fraction a + fraction b)).
Definition rational_mul (a b : RationalV1) : res RationalV1 := from_fraction (Qred (fraction a * fraction b)).

(** ** Enumerations *)

Inductive EpisodeStatus : Type := OPEN | COMPLETE | INCOMPLETE.
Inductive RewardStatus : Type := OBSERVED | NOT_APPLICABLE | MISSING_INPUT.
Inductive RewardDirection : Type := HIGHER_BETTER | LOWER_BETTER | NO_DIRECTION.
Inductive CreditStatus : Type := DIRECT | SHARED | ENVIRONMENT | NEUTRAL.
Inductive ActionKind : Type :=
| SPEAK | REQUEST_RETRIEVAL | REQUEST_SIMULATION | END_ROUND | TERMINATE | ESCALATE_TO_HUMAN.
Inductive DecisionOutcome : Type := ACCEPTED | REJECTED | NO_PROPOSAL.

#[global] Instance EpisodeStatus_eq_dec : EqDecision EpisodeStatus.
Proof. solve_decision. Defined.
#[global] Instance RewardStatus_eq_dec : EqDecision RewardStatus.
Proof. solve_decision. Defined.
#[global] Instance RewardDirection_eq_dec : EqDecision RewardDirection.
Proof. solve_decision. Defined.
#[global] Instance CreditStatus_eq_dec : EqDecision CreditStatus.
Proof. solve_decision. Defined.
#[global] Instance ActionKind_eq_dec : EqDecision ActionKind.
Proof. solve_decision. Defined.
#[global] Instance DecisionOutcome_eq_dec : EqDecision DecisionOutcome.
Proof. solve_decision. Defined.

Definition episode_status_value (s : EpisodeStatus) : string :=
  match s with OPEN => "OPEN" | COMPLETE => "COMPLETE" | INCOMPLETE => "INCOMPLETE" end.
Definition reward_status_value (s : RewardStatus) : string :=
  match s with
  | OBSERVED => "OBSERVED" | NOT_APPLICABLE => "NOT_APPLICABLE" | MISSING_INPUT => "MISSING_INPUT"
  end.
Definition direction_value (d : RewardDirection) : string :=
  match d with
  | HIGHER_BETTER => "HIGHER_BETTER" | LOWER_BETTER => "LOWER_BETTER" | NO_DIRECTION => "NO_DIRECTION"
  end.
Definition credit_status_value (s : CreditStatus) : string :=
  match s with
  | DIRECT => "DIRECT" | SHARED => "SHARED" | ENVIRONMENT => "ENVIRONMENT" | NEUTRAL => "NEUTRAL"
  end.
Definition kind_value (k : ActionKind) : string :=
  match k with
  | SPEAK => "SPEAK" | REQUEST_RETRIEVAL => "REQUEST_RETRIEVAL"
  | REQUEST_SIMULATION => "REQUEST_SIMULATION" | END_ROUND => "END_ROUND"
  | TERMINATE => "TERMINATE" | ESCALATE_TO_HUMAN => "ESCALATE_TO_HUMAN"
  end.
Definition decision_value (o : DecisionOutcome) : string :=
  match o with ACCEPTED => "ACCEPTED" | REJECTED => "REJECTED" | NO_PROPOSAL => "NO_PROPOSAL" end.
Definition feasibility_value (s : Feasibility.status) : string :=
  match s with
  | Feasibility.SAT => "SAT" | Feasibility.UNSAT => "UNSAT" | Feasibility.UNKNOWN => "UNKNOWN"
  end.

(** ** Canonical preimages *)

Definition canonical_hash (value : json) : res string := content_hash value.

Definition deterministic_uuid (namespace : uuid) (kind : string) (preimage : dict string json) : res uuid :=
  h ← canonical_hash (JObj preimage);
  Ok (uuid5 namespace (kind +:+ ":" +:+ h)).

Record sealed (A : Type) : Type := Seal { body : A; own_hash : string }.
Arguments Seal {A}.
Arguments body {A}.
Arguments own_hash {A}.

#[global] Instance sealed_eq_dec `{EqDecision A} : EqDecision (sealed A).
Proof. solve_decision. Defined.

(** A model with its own hash: the name of the hash field, the other fields as
    [model_dump(mode="json")] writes them, and the validation of the fields. *)
Class HashedModel (A : Type) : Type := {
  hash_field : string;
  preimage : A -> dict string json;
  check : A -> res unit
}.

Section hashed.
Context {A : Type} `{HashedModel A}.

Definition _dump (m : sealed A) : json :=
  JObj (preimage (body m) ++ [(hash_field (A := A), JStr (own_hash m))]).

Definition validate_hash (m : sealed A) : res unit :=
  expected ← canonical_hash (JObj (preimage (body m)));
  guard_not (negb (String.eqb (own_hash m) expected))
    ValueErrorC (hash_field (A := A) +:+ " does not match canonical preimage").

(** [create]: the value with a placeholder hash, which validates it, and the
    copy with the real one. *)
Definition create (a : A) : res (sealed A) :=
  _ ← check a;
  h ← canonical_hash (JObj (preimage a));
  Ok (Seal a h).

(** A value of the model: its fields were validated. *)
Definition model_ok (m : sealed A) : bool := is_ok (check (body m)) && digest_ok (own_hash m).

End hashed.

Definition jint (z : Z) : json := JInt z.
Definition juuid (u : uuid) : json := JStr (uuid_str u).
Definition jopt {A} (f : A -> json) (o : option A) : json := match o with Some a => f a | None => JNull end.

(** [Identifier], [ReasonCode] lengths. *)
Definition len_in (lo hi : Z) (s : string) : bool := (lo <=? str_len s) && (str_len s <=? hi).
Definition identifier_ok (s : string) : bool := is_ok (_identifier s).
Definition version_ok (s : string) : bool := is_ok (_version s).
Definition reason_ok (s : string) : bool := is_ok (_reason s).

(** [tuple(sorted(x)) != x] with Python's order on [str], on [UUID.bytes] and
    on pairs of [str]. *)
Definition hashes_sorted (l : list string) : bool := bool_decide (sort_by String.leb l = l).
Definition uuids_sorted (l : list uuid) : bool := bool_decide (sort_by N.leb l = l).
Definition pair_leb (a b : string * string) : bool :=
  match String.compare (fst a) (fst b) with
  | Lt => true
  | Gt => false
  | Eq => String.leb (snd a) (snd b)
  end.

(** ** Values *)

Record ImplementationRefV1 : Type := mkImplRef {
  implementation_id : string;
  implementation_version : string
}.

#[global] Instance ImplementationRefV1_eq_dec : EqDecision ImplementationRefV1.
Proof. solve_decision. Defined.

Definition ImplementationRefV1_ok (r : ImplementationRefV1) : bool :=
  identifier_ok (implementation_id r) && version_ok (implementation_version r).
Definition dump_ref (r : ImplementationRefV1) : json :=
  JObj [("implementation_id", JStr (implementation_id r));
        ("implementation_version", JStr (implementation_version r))].
Definition dump_rational (r : RationalV1) : json :=
  JObj [("numerator", jint (numerator r)); ("denominator", jint (denominator r))].

Record SourceSnapshot : Type := mkSnapshot {
  ss_source_id : uuid;
  ss_source_kind : string;
  ss_source_version : Z;
  ss_payload : dict string json
}.

#[global] Instance SourceSnapshotV1 : HashedModel SourceSnapshot := {|
  hash_field := "snapshot_hash";
  preimage s := [("schema_version", jint 1); ("source_id", juuid (ss_source_id s));
                 ("source_kind", JStr (ss_source_kind s));
                 ("source_version", jint (ss_source_version s)); ("payload", JObj (ss_payload s))];
  check s := guard_not (negb (identifier_ok (ss_source_kind s) && (1 <=? ss_source_version s)))
               ValidationErrorC "SourceSnapshotV1"
|}.

Record ObservationSource : Type := mkSource {
  os_ordinal : Z;
  os_snapshot : sealed SourceSnapshot
}.

#[global] Instance ObservationSourceV1 : HashedModel ObservationSource := {|
  hash_field := "source_hash";
  preimage s := [("schema_version", jint 1); ("ordinal", jint (os_ordinal s));
                 ("snapshot", _dump (os_snapshot s))];
  check s := guard_not (negb (0 <=? os_ordinal s)) ValidationErrorC "ObservationSourceV1"
|}.

Record ObservationFeature : Type := mkFeature {
  of_feature_id : string;
  of_feature_version : string;
  of_value : json;
  of_source_hashes : list string
}.

(** [ordered_sources] *)
Definition ordered_sources (f : ObservationFeature) : res unit :=
  _ ← guard_not (negb (hashes_sorted (of_source_hashes f))) ValueErrorC "feature source hashes must be ordered";
  _ ← guard_not (negb (bool_decide (NoDup (of_source_hashes f))))
        ValueErrorC "feature source hashes must be unique";
  _ ← canonical_json (of_value f);
  Ok tt.

#[global] Instance ObservationFeatureV1 : HashedModel ObservationFeature := {|
  hash_field := "feature_hash";
  preimage f := [("schema_version", jint 1); ("feature_id", JStr (of_feature_id f));
                 ("feature_version", JStr (of_feature_version f)); ("value", of_value f);
                 ("source_hashes", JList (map JStr (of_source_hashes f)))];
  check f :=
    _ ← guard_not (negb (identifier_ok (of_feature_id f) && version_ok (of_feature_version f)
                         && forallb digest_ok (of_source_hashes f)))
          ValidationErrorC "ObservationFeatureV1";
    ordered_sources f
|}.

Record MarlObservation : Type := mkObservation {
  mo_observation_id : uuid;
  mo_episode_id : uuid;
  mo_workspace_id : uuid;
  mo_session_id : uuid;
  mo_decision_index : Z;
  mo_environment_version : string;
  mo_observation_implementation : ImplementationRefV1;
  mo_ledger_seq : Z;
  mo_ledger_event_id : option uuid;
  mo_ledger_hash : string;
  mo_terminal : bool;
  mo_terminal_reason : option string;
  mo_sources : list (sealed ObservationSource);
  mo_features : list (sealed ObservationFeature);
  mo_sources_hash : string;
  mo_features_hash : string
}.

Definition feature_keys (o : MarlObservation) : list (string * string) :=
  map (fun f => (of_feature_id (body f), of_feature_version (body f))) (mo_features o).

(** [tuple(range(n))] *)
Definition range (n : nat) : list Z := map Z.of_nat (seq 0 n).

(** [shape_and_order] *)
Definition shape_and_order (o : MarlObservation) : res unit :=
  _ ← guard_not (negb (Bool.eqb (mo_terminal o) (is_some (mo_terminal_reason o))))
        ValueErrorC "terminal observation shape is inconsistent";
  _ ← guard_not (negb (bool_decide (map (fun s => os_ordinal (body s)) (mo_sources o)
                                    = range (length (mo_sources o)))))
        ValueErrorC "observation sources must use gapless ordinals";
  guard_not (negb (bool_decide (sort_by pair_leb (feature_keys o) = feature_keys o))
             || negb (bool_decide (NoDup (feature_keys o))))
    ValueErrorC "observation features must be uniquely ordered".

#[global] Instance MarlObservationV1 : HashedModel MarlObservation := {|
  hash_field := "observation_hash";
  preimage o := [("schema_version", jint 1); ("observation_id", juuid (mo_observation_id o));
    ("episode_id", juuid (mo_episode_id o)); ("workspace_id", juuid (mo_workspace_id o));
    ("session_id", juuid (mo_session_id o)); ("decision_index", jint (mo_decision_index o));
    ("environment_version", JStr (mo_environment_version o));
    ("observation_implementation", dump_ref (mo_observation_implementation o));
    ("ledger_seq", jint (mo_ledger_seq o)); ("ledger_event_id", jopt juuid (mo_ledger_event_id o));
    ("ledger_hash", JStr (mo_ledger_hash o)); ("terminal", JBool (mo_terminal o));
    ("terminal_reason", jopt JStr (mo_terminal_reason o));
    ("sources", JList (map _dump (mo_sources o))); ("features", JList (map _dump (mo_features o)));
    ("sources_hash", JStr (mo_sources_hash o)); ("features_hash", JStr (mo_features_hash o))];
  check o :=
    _ ← guard_not (negb ((0 <=? mo_decision_index o) && identifier_ok (mo_environment_version o)
          && (0 <=? mo_ledger_seq o) && digest_ok (mo_ledger_hash o)
          && opt_ok (len_in 1 64) (mo_terminal_reason o)
          && digest_ok (mo_sources_hash o) && digest_ok (mo_features_hash o)))
          ValidationErrorC "MarlObservationV1";
    shape_and_order o
|}.

Definition sources_hash (sources : list (sealed ObservationSource)) : res string :=
  canonical_hash (JList (map _dump sources)).
Definition features_hash (features : list (sealed ObservationFeature)) : res string :=
  canonical_hash (JList (map _dump features)).

(** [MarlObservationV1.create] *)
Definition create_observation (o : MarlObservation) : res (sealed MarlObservation) :=
  sh ← sources_hash (mo_sources o);
  fh ← features_hash (mo_features o);
  create (mkObservation (mo_observation_id o) (mo_episode_id o) (mo_workspace_id o) (mo_session_id o)
    (mo_decision_index o) (mo_environment_version o) (mo_observation_implementation o) (mo_ledger_seq o)
    (mo_ledger_event_id o) (mo_ledger_hash o) (mo_terminal o) (mo_terminal_reason o) (mo_sources o)
    (mo_features o) sh fh).

(** ** Actions and decisions *)

Record ProposedAction : Type := mkProposedAction {
  pa_proposal_id : uuid;
  pa_episode_id : uuid;
  pa_decision_index : Z;
  pa_observation_id : uuid;
  pa_observation_hash : string;
  pa_policy_implementation : ImplementationRefV1;
  pa_seed : Z;
  pa_kind : ActionKind;
  pa_agent_definition_ids : list uuid;
  pa_payload : dict string json
}.

#[global] Instance ProposedActionV1 : HashedModel ProposedAction := {|
  hash_field := "action_hash";
  preimage a := [("schema_version", jint 1); ("proposal_id", juuid (pa_proposal_id a));
    ("episode_id", juuid (pa_episode_id a)); ("decision_index", jint (pa_decision_index a));
    ("observation_id", juuid (pa_observation_id a)); ("observation_hash", JStr (pa_observation_hash a));
    ("policy_implementation", dump_ref (pa_policy_implementation a)); ("seed", jint (pa_seed a));
    ("kind", JStr (kind_value (pa_kind a)));
    ("agent_definition_ids", JList (map juuid (pa_agent_definition_ids a)));
    ("payload", JObj (pa_payload a))];
  check a :=
    _ ← guard_not (negb ((0 <=? pa_decision_index a) && digest_ok (pa_observation_hash a)))
          ValidationErrorC "ProposedActionV1";
    _ ← guard_not (negb (uuids_sorted (pa_agent_definition_ids a)))
          ValueErrorC "agent definition ids must be ordered";
    _ ← guard_not (negb (bool_decide (NoDup (pa_agent_definition_ids a))))
          ValueErrorC "agent definition ids must be unique";
    _ ← canonical_json (JObj (pa_payload a));
    Ok tt
|}.

Record ExecutedAction : Type := mkExecutedAction {
  ea_execution_id : uuid;
  ea_episode_id : uuid;
  ea_decision_index : Z;
  ea_kind : ActionKind;
  ea_agent_definition_ids : list uuid;
  ea_payload : dict string json
}.

#[global] Instance ExecutedActionV1 : HashedModel ExecutedAction := {|
  hash_field := "executed_action_hash";
  preimage a := [("schema_version", jint 1); ("execution_id", juuid (ea_execution_id a));
    ("episode_id", juuid (ea_episode_id a)); ("decision_index", jint (ea_decision_index a));
    ("kind", JStr (kind_value (ea_kind a)));
    ("agent_definition_ids", JList (map juuid (ea_agent_definition_ids a)));
    ("payload", JObj (ea_payload a))];
  check a :=
    _ ← guard_not (negb (0 <=? ea_decision_index a)) ValidationErrorC "ExecutedActionV1";
    _ ← guard_not (negb (uuids_sorted (ea_agent_definition_ids a)))
          ValueErrorC "agent definition ids must be ordered";
    _ ← canonical_json (JObj (ea_payload a));
    Ok tt
|}.

Record CoordinatorDecision : Type := mkDecision {
  cd_decision_id : uuid;
  cd_episode_id : uuid;
  cd_decision_index : Z;
  cd_observation_hash : string;
  cd_proposal_hash : option string;
  cd_outcome : DecisionOutcome;
  cd_reason : string;
  cd_coordinator_implementation : ImplementationRefV1;
  cd_executed_action_hash : option string;
  cd_feasibility_status : Feasibility.status
}.

#[global] Instance CoordinatorDecision_eq_dec : EqDecision CoordinatorDecision.
Proof. solve_decision. Defined.

(** [decision_shape] *)
Definition decision_shape (d : CoordinatorDecision) : res unit :=
  let accepted := bool_decide (cd_outcome d = ACCEPTED) in
  _ ← guard_not (bool_decide (cd_outcome d = NO_PROPOSAL) && is_some (cd_proposal_hash d))
        ValueErrorC "NO_PROPOSAL cannot reference a proposal";
  _ ← guard_not (accepted && is_none (cd_executed_action_hash d))
        ValueErrorC "accepted decision requires executed action";
  _ ← guard_not (negb accepted && is_some (cd_executed_action_hash d))
        ValueErrorC "only accepted decision may execute an action";
  _ ← guard_not (bool_decide (cd_feasibility_status d = Feasibility.UNSAT) && accepted)
        ValueErrorC "UNSAT proposals cannot be accepted";
  guard_not (bool_decide (cd_feasibility_status d = Feasibility.UNKNOWN) && accepted)
    ValueErrorC "UNKNOWN proposals must remain deferred".

#[global] Instance CoordinatorDecisionV1 : HashedModel CoordinatorDecision := {|
  hash_field := "decision_hash";
  preimage d := [("schema_version", jint 1); ("decision_id", juuid (cd_decision_id d));
    ("episode_id", juuid (cd_episode_id d)); ("decision_index", jint (cd_decision_index d));
    ("observation_hash", JStr (cd_observation_hash d)); ("proposal_hash", jopt JStr (cd_proposal_hash d));
    ("outcome", JStr (decision_value (cd_outcome d))); ("reason", JStr (cd_reason d));
    ("coordinator_implementation", dump_ref (cd_coordinator_implementation d));
    ("executed_action_hash", jopt JStr (cd_executed_action_hash d));
    ("feasibility_status", JStr (feasibility_value (cd_feasibility_status d)))];
  check d :=
    _ ← guard_not (negb ((0 <=? cd_decision_index d) && digest_ok (cd_observation_hash d)
          && opt_ok digest_ok (cd_proposal_hash d) && reason_ok (cd_reason d)
          && opt_ok digest_ok (cd_executed_action_hash d)))
          ValidationErrorC "CoordinatorDecisionV1";
    decision_shape d
|}.

(** ** Rewards and credits *)

Record RewardComponent : Type := mkReward {
  rw_component_id : uuid;
  rw_episode_id : uuid;
  rw_decision_index : Z;
  rw_ordinal : Z;
  rw_metric_id : string;
  rw_metric_version : string;
  rw_reward_implementation : ImplementationRefV1;
  rw_direction : RewardDirection;
  rw_pre_metric_value : option RationalV1;
  rw_post_metric_value : option RationalV1;
  rw_reward_value : RationalV1;
  rw_status : RewardStatus;
  rw_neutral_reason : option string;
  rw_source_hashes : list string
}.

(** [reward_shape] *)
Definition reward_shape (r : RewardComponent) : res unit :=
  _ ← guard_not (negb (hashes_sorted (rw_source_hashes r))) ValueErrorC "reward sources must be ordered";
  if bool_decide (rw_status r = OBSERVED) then
    _ ← guard_not (is_none (rw_pre_metric_value r) || is_none (rw_post_metric_value r))
          ValueErrorC "observed reward requires exact pre/post values";
    guard_not (is_some (rw_neutral_reason r)) ValueErrorC "observed reward cannot have neutral reason"
  else
    guard_not (negb (bool_decide (rw_reward_value r = rational_zero)) || is_none (rw_neutral_reason r))
      ValueErrorC "neutral reward must be zero and have a reason".

#[global] Instance RewardComponentV1 : HashedModel RewardComponent := {|
  hash_field := "component_hash";
  preimage r := [("schema_version", jint 1); ("component_id", juuid (rw_component_id r));
    ("episode_id", juuid (rw_episode_id r)); ("decision_index", jint (rw_decision_index r));
    ("ordinal", jint (rw_ordinal r)); ("metric_id", JStr (rw_metric_id r));
    ("metric_version", JStr (rw_metric_version r));
    ("reward_implementation", dump_ref (rw_reward_implementation r));
    ("direction", JStr (direction_value (rw_direction r)));
    ("pre_metric_value", jopt dump_rational (rw_pre_metric_value r));
    ("post_metric_value", jopt dump_rational (rw_post_metric_value r));
    ("reward_value", dump_rational (rw_reward_value r));
    ("status", JStr (reward_status_value (rw_status r)));
    ("neutral_reason", jopt JStr (rw_neutral_reason r));
    ("source_hashes", JList (map JStr (rw_source_hashes r)))];
  check r :=
    _ ← guard_not (negb ((0 <=? rw_decision_index r) && (0 <=? rw_ordinal r) && (rw_ordinal r <=? 4)
          && identifier_ok (rw_metric_id r) && version_ok (rw_metric_version r)
          && opt_ok (len_in 1 64) (rw_neutral_reason r) && forallb digest_ok (rw_source_hashes r)))
          ValidationErrorC "RewardComponentV1";
    reward_shape r
|}.

Record CreditAssignment : Type := mkCredit {
  cr_credit_id : uuid;
  cr_episode_id : uuid;
  cr_decision_index : Z;
  cr_reward_component_id : uuid;
  cr_reward_component_hash : string;
  cr_status : CreditStatus;
  cr_agent_definition_ids : list uuid;
  cr_source_hashes : list string;
  cr_share : RationalV1;
  cr_credited_value : RationalV1;
  cr_credit_implementation : ImplementationRefV1
}.

(** [credit_shape] *)
Definition credit_shape (c : CreditAssignment) : res unit :=
  _ ← guard_not (negb (uuids_sorted (cr_agent_definition_ids c))) ValueErrorC "credit agent ids must be ordered";
  _ ← guard_not (negb (hashes_sorted (cr_source_hashes c))) ValueErrorC "credit source hashes must be ordered";
  _ ← guard_not (bool_decide (cr_status c = NEUTRAL)
                 && (nonempty (cr_agent_definition_ids c)
                     || negb (bool_decide (cr_credited_value c = rational_zero))))
        ValueErrorC "neutral credit has no agents and exactly zero value";
  guard_not (bool_decide (cr_status c = SHARED) && (length (cr_agent_definition_ids c) <? 2)%nat)
    ValueErrorC "shared credit requires at least two agents".

#[global] Instance CreditAssignmentV1 : HashedModel CreditAssignment := {|
  hash_field := "credit_hash";
  preimage c := [("schema_version", jint 1); ("credit_id", juuid (cr_credit_id c));
    ("episode_id", juuid (cr_episode_id c)); ("decision_index", jint (cr_decision_index c));
    ("reward_component_id", juuid (cr_reward_component_id c));
    ("reward_component_hash", JStr (cr_reward_component_hash c));
    ("status", JStr (credit_status_value (cr_status c)));
    ("agent_definition_ids", JList (map juuid (cr_agent_definition_ids c)));
    ("source_hashes", JList (map JStr (cr_source_hashes c))); ("share", dump_rational (cr_share c));
    ("credited_value", dump_rational (cr_credited_value c));
    ("credit_implementation", dump_ref (cr_credit_implementation c))];
  check c :=
    _ ← guard_not (negb ((0 <=? cr_decision_index c) && digest_ok (cr_reward_component_hash c)
          && forallb digest_ok (cr_source_hashes c)))
          ValidationErrorC "CreditAssignmentV1";
    credit_shape c
|}.

(** ** Boundaries and transitions *)

Record DecisionBoundary : Type := mkBoundary {
  db_episode_id : uuid;
  db_decision_index : Z;
  db_observation : sealed MarlObservation;
  db_proposed_action : option (sealed ProposedAction);
  db_coordinator_decision : sealed CoordinatorDecision;
  db_executed_action : option (sealed ExecutedAction)
}.

Definition option_list {A B} (f : A -> B) (o : option A) : list B :=
  match o with Some a => [f a] | None => [] end.
Definition episode_refs (b : DecisionBoundary) : list uuid :=
  [mo_episode_id (body (db_observation b)); cd_episode_id (body (db_coordinator_decision b))]
  ++ option_list (fun a => pa_episode_id (body a)) (db_proposed_action b)
  ++ option_list (fun a => ea_episode_id (body a)) (db_executed_action b).
Definition index_refs (b : DecisionBoundary) : list Z :=
  [mo_decision_index (body (db_observation b)); cd_decision_index (body (db_coordinator_decision b))]
  ++ option_list (fun a => pa_decision_index (body a)) (db_proposed_action b)
  ++ option_list (fun a => ea_decision_index (body a)) (db_executed_action b).

(** [references] *)
Definition references (b : DecisionBoundary) : res unit :=
  let outcome := cd_outcome (body (db_coordinator_decision b)) in
  _ ← guard_not (existsb (fun e => negb (e =? db_episode_id b)%N) (episode_refs b))
        ValueErrorC "boundary episode references differ";
  _ ← guard_not (existsb (fun i => negb (i =? db_decision_index b)) (index_refs b))
        ValueErrorC "boundary decision indices differ";
  _ ← guard_not (mo_terminal (body (db_observation b)))
        ValueErrorC "decision boundary observation cannot be terminal";
  _ ← guard_not (negb (Bool.eqb (is_none (db_proposed_action b)) (bool_decide (outcome = NO_PROPOSAL))))
        ValueErrorC "proposal and coordinator decision shape differ";
  guard_not (negb (Bool.eqb (is_none (db_executed_action b)) (negb (bool_decide (outcome = ACCEPTED)))))
    ValueErrorC "execution and coordinator decision shape differ".

#[global] Instance DecisionBoundaryV1 : HashedModel DecisionBoundary := {|
  hash_field := "boundary_hash";
  preimage b := [("schema_version", jint 1); ("record_type", JStr "decision_boundary");
    ("episode_id", juuid (db_episode_id b)); ("decision_index", jint (db_decision_index b));
    ("observation", _dump (db_observation b)); ("proposed_action", jopt _dump (db_proposed_action b));
    ("coordinator_decision", _dump (db_coordinator_decision b));
    ("executed_action", jopt _dump (db_executed_action b))];
  check b :=
    _ ← guard_not (negb (0 <=? db_decision_index b)) ValidationErrorC "DecisionBoundaryV1";
    references b
|}.

Record Transition : Type := mkTransition {
  tr_episode_id : uuid;
  tr_decision_index : Z;
  tr_boundary : sealed DecisionBoundary;
  tr_post_observation : sealed MarlObservation;
  tr_rewards : list (sealed RewardComponent);
  tr_credits : list (sealed CreditAssignment);
  tr_terminal : bool
}.

Definition component_id (r : sealed RewardComponent) : uuid := rw_component_id (body r).

(** [by_component] and the credits of one component. *)
Definition by_component (t : Transition) : dict uuid (sealed RewardComponent) :=
  dict_of_list (map (fun r => (component_id r, r)) (tr_rewards t)).
Definition grouped (t : Transition) (component : uuid) : list (sealed CreditAssignment) :=
  List.filter (fun c => (cr_reward_component_id (body c) =? component)%N) (tr_credits t).

(** [sum((item.credited_value.fraction() for item in credits), Fraction())] *)
Definition fraction_sum (l : list Q) : Q := fold_left (fun a b => Qred (a + b)) l 0%Q.

Definition check_credit_reference (t : Transition) (c : sealed CreditAssignment) : res unit :=
  let message := "credit must reference an exact reward component" in
  match dict_get (cr_reward_component_id (body c)) (by_component t) with
  | None => raise ValueErrorC message
  | Some component =>
      guard_not (negb (String.eqb (own_hash component) (cr_reward_component_hash (body c)))) ValueErrorC message
  end.

Definition check_component (t : Transition) (item : uuid * sealed RewardComponent) : res unit :=
  let '(component_id, component) := item in
  let credits := grouped t component_id in
  _ ← (if negb (bool_decide (rw_status (body component) = OBSERVED)) then
         guard_not (negb (length credits =? 1)%nat
                    || match credits with
                       | c :: _ => negb (bool_decide (cr_status (body c) = NEUTRAL))
                       | [] => true
                       end)
           ValueErrorC "neutral component requires one explicit neutral credit"
       else guard_not (negb (nonempty credits)) ValueErrorC "observed component requires credit");
  let total := fraction_sum (map (fun c => fraction (cr_credited_value (body c))) credits) in
  guard_not (negb (Qeq_bool total (fraction (rw_reward_value (body component)))))
    ValueErrorC "credits must conserve the exact component reward".

Definition _validate_credit_conservation (t : Transition) : res unit :=
  _ ← foldR (fun _ c => check_credit_reference t c) tt (tr_credits t);
  foldR (fun _ item => check_component t item) tt (by_component t).

(** [transition_shape] *)
Definition transition_shape (t : Transition) : res unit :=
  let boundary := body (tr_boundary t) in
  let post := body (tr_post_observation t) in
  _ ← guard_not (negb (db_episode_id boundary =? tr_episode_id t)%N)
        ValueErrorC "transition boundary episode differs";
  _ ← guard_not (negb (db_decision_index boundary =? tr_decision_index t))
        ValueErrorC "transition boundary index differs";
  _ ← guard_not (negb (mo_episode_id post =? tr_episode_id t)%N)
        ValueErrorC "post-observation episode differs";
  _ ← guard_not (negb (mo_decision_index post =? tr_decision_index t + 1))
        ValueErrorC "post-observation index must follow the boundary";
  _ ← guard_not (mo_ledger_seq post <? mo_ledger_seq (body (db_observation boundary)))
        ValueErrorC "post-observation watermark cannot move backwards";
  _ ← guard_not (negb (Bool.eqb (tr_terminal t) (mo_terminal post)))
        ValueErrorC "terminal transition requires terminal post-observation";
  _ ← guard_not (negb (bool_decide (map (fun r => rw_ordinal (body r)) (tr_rewards t) = range 5)))
        ValueErrorC "reward vector must contain exactly five ordered components";
  _ ← guard_not (negb (length (remove_dups (map component_id (tr_rewards t))) =? 5)%nat)
        ValueErrorC "reward component identities must be unique";
  _validate_credit_conservation t.

#[global] Instance TransitionV1 : HashedModel Transition := {|
  hash_field := "transition_hash";
  preimage t := [("schema_version", jint 1); ("record_type", JStr "transition");
    ("episode_id", juuid (tr_episode_id t)); ("decision_index", jint (tr_decision_index t));
    ("boundary", _dump (tr_boundary t)); ("post_observation", _dump (tr_post_observation t));
    ("rewards", JList (map _dump (tr_rewards t))); ("credits", JList (map _dump (tr_credits t)));
    ("terminal", JBool (tr_terminal t))];
  check t :=
    _ ← guard_not (negb (0 <=? tr_decision_index t)) ValidationErrorC "TransitionV1";
    transition_shape t
|}.

Record IncompleteMarker : Type := mkMarker {
  im_marker_id : uuid;
  im_episode_id : uuid;
  im_open_decision_index : Z;
  im_reason : string;
  im_boundary_hash : option string
}.

#[global] Instance IncompleteMarker_eq_dec : EqDecision IncompleteMarker.
Proof. solve_decision. Defined.

#[global] Instance IncompleteMarkerV1 : HashedModel IncompleteMarker := {|
  hash_field := "incomplete_hash";
  preimage m := [("schema_version", jint 1); ("record_type", JStr "incomplete");
    ("marker_id", juuid (im_marker_id m)); ("episode_id", juuid (im_episode_id m));
    ("open_decision_index", jint (im_open_decision_index m)); ("reason", JStr (im_reason m));
    ("boundary_hash", jopt JStr (im_boundary_hash m))];
  check m :=
    guard_not (negb ((0 <=? im_open_decision_index m) && reason_ok (im_reason m)
                     && opt_ok digest_ok (im_boundary_hash m)))
      ValidationErrorC "IncompleteMarkerV1"
|}.

(** ** Episodes *)

Record MarlEpisodeV1 : Type := mkEpisode {
  ep_episode_id : uuid;
  ep_workspace_id : uuid;
  ep_session_id : uuid;
  ep_environment_version : string;
  ep_code_identity : string;
  ep_status : EpisodeStatus;
  ep_transitions : list (sealed Transition);
  ep_pending_boundary : option (sealed DecisionBoundary);
  ep_incomplete_marker : option (sealed IncompleteMarker)
}.

(** [unique_transition_identities] *)
Definition unique_transition_identities (values : list (sealed Transition)) : res unit :=
  guard_not (negb (bool_decide (NoDup (map own_hash values)))) ValueErrorC "transition identities must be unique".

Definition foreign_observation (e : MarlEpisodeV1) (o : MarlObservation) : bool :=
  negb (mo_workspace_id o =? ep_workspace_id e)%N || negb (mo_session_id o =? ep_session_id e)%N.
Definition foreign_transition (e : MarlEpisodeV1) (t : sealed Transition) : bool :=
  foreign_observation e (body (db_observation (body (tr_boundary (body t)))))
  || foreign_observation e (body (tr_post_observation (body t))).
Definition transition_count (e : MarlEpisodeV1) : Z := Z.of_nat (length (ep_transitions e)).

Definition open_shape (e : MarlEpisodeV1) : res unit :=
  _ ← guard_not (is_some (ep_incomplete_marker e)) ValueErrorC "open episode cannot contain incomplete marker";
  guard_not (match ep_pending_boundary e with
             | Some b => negb (db_decision_index (body b) =? transition_count e)
             | None => false
             end)
    ValueErrorC "pending boundary must be the next decision".

Definition complete_shape (e : MarlEpisodeV1) : res unit :=
  _ ← guard_not (match last (ep_transitions e) with
                 | Some t => negb (tr_terminal (body t))
                 | None => true
                 end)
        ValueErrorC "complete episode requires a terminal final transition";
  guard_not (is_some (ep_pending_boundary e) || is_some (ep_incomplete_marker e))
    ValueErrorC "complete episode cannot have open state".

Definition incomplete_shape (e : MarlEpisodeV1) : res unit :=
  match ep_incomplete_marker e with
  | None => raise ValueErrorC "incomplete episode requires marker"
  | Some m =>
      _ ← guard_not (negb (im_open_decision_index (body m) =? transition_count e))
            ValueErrorC "incomplete marker must identify the first unclosed decision";
      _ ← guard_not (negb (Bool.eqb (is_none (ep_pending_boundary e)) (is_none (im_boundary_hash (body m)))))
            ValueErrorC "incomplete marker boundary identity is inconsistent";
      guard_not (match ep_pending_boundary e with
                 | Some b => negb (bool_decide (Some (own_hash b) = im_boundary_hash (body m)))
                 | None => false
                 end)
        ValueErrorC "incomplete marker does not identify pending boundary"
  end.

(** [lifecycle] *)
Definition lifecycle (e : MarlEpisodeV1) : res unit :=
  _ ← guard_not (negb (bool_decide (map (fun t => tr_decision_index (body t)) (ep_transitions e)
                                    = range (length (ep_transitions e)))))
        ValueErrorC "transition decision indices must be gapless and ordered";
  _ ← guard_not (existsb (fun t => negb (tr_episode_id (body t) =? ep_episode_id e)%N) (ep_transitions e))
        ValueErrorC "transition belongs to another episode";
  _ ← guard_not (existsb (foreign_transition e) (ep_transitions e))
        ValueErrorC "transition scope differs from episode scope";
  _ ← guard_not (match ep_pending_boundary e with
                 | Some b => foreign_observation e (body (db_observation (body b)))
                 | None => false
                 end)
        ValueErrorC "pending boundary scope differs from episode scope";
  match ep_status e with
  | OPEN => open_shape e
  | COMPLETE => complete_shape e
  | INCOMPLETE => incomplete_shape e
  end.

(** [MarlEpisodeV1(...)] *)
Definition validate_episode (e : MarlEpisodeV1) : res MarlEpisodeV1 :=
  _ ← guard_not (negb (identifier_ok (ep_environment_version e) && digest_ok (ep_code_identity e)))
        ValidationErrorC "MarlEpisodeV1";
  _ ← unique_transition_identities (ep_transitions e);
  _ ← lifecycle e;
  Ok e.

Definition dump_episode (e : MarlEpisodeV1) : json :=
  JObj [("schema_version", jint 1); ("episode_id", juuid (ep_episode_id e));
    ("workspace_id", juuid (ep_workspace_id e)); ("session_id", juuid (ep_session_id e));
    ("environment_version", JStr (ep_environment_version e)); ("code_identity", JStr (ep_code_identity e));
    ("status", JStr (episode_status_value (ep_status e)));
    ("transitions", JList (map _dump (ep_transitions e)));
    ("pending_boundary", jopt _dump (ep_pending_boundary e));
    ("incomplete_marker", jopt _dump (ep_incomplete_marker e))].

Definition episode_hash (e : MarlEpisodeV1) : res string :=
  canonical_hash (JObj
    [("code_identity", JStr (ep_code_identity e)); ("environment_version", JStr (ep_environment_version e));
     ("episode_id", juuid (ep_episode_id e));
     ("incomplete_hash", jopt (fun m => JStr (own_hash m)) (ep_incomplete_marker e));
     ("pending_boundary_hash", jopt (fun b => JStr (own_hash b)) (ep_pending_boundary e));
     ("schema_version", jint 1); ("session_id", juuid (ep_session_id e));
     ("status", JStr (episode_status_value (ep_status e)));
     ("transition_hashes", JList (map (fun t => JStr (own_hash t)) (ep_transitions e)));
     ("workspace_id", juuid (ep_workspace_id e))]).

(** ** Facts about rationals *)

Lemma rational_ok_iff r :
  RationalV1_ok r = true <-> 0 < denominator r /\ Z.gcd (numerator r) (denominator r) = 1.
Proof. unfold RationalV1_ok. rewrite andb_true_iff, Z.ltb_lt, Z.eqb_eq. done. Qed.

Lemma fraction_of_ok r : RationalV1_ok r = true -> fraction r = (numerator r # Z.to_pos (denominator r)).
Proof.
  intros [Hd Hg]%rational_ok_iff. unfold fraction. apply Qred_iff. cbn. by rewrite Z2Pos.id.
Qed.

Lemma from_fraction_reduced (q : Q) :
  exists r, from_fraction (Qred q) = Ok r /\ RationalV1_ok r = true /\ fraction r = Qred q.
Proof.
  set (p := Qred q). assert (Hp : Qred p = p) by (unfold p; apply Qred_involutive).
  assert (Hok : RationalV1_ok (mkRational (Qnum p) (Zpos (Qden p))) = true).
  { apply rational_ok_iff. split; [done|]. cbn. by apply Qred_iff in Hp. }
  exists (mkRational (Qnum p) (Zpos (Qden p))). split; [|split; [done|]].
  - unfold from_fraction, new_rational. by rewrite Hok.
  - rewrite fraction_of_ok by done. cbn. by destruct p.
Qed.

Lemma rational_canonical a b :
  RationalV1_ok a = true -> RationalV1_ok b = true -> (fraction a == fraction b)%Q -> a = b.
Proof.
  intros Ha Hb Heq. assert (Hf : fraction a = fraction b).
  { apply Qred_complete in Heq. unfold fraction in *. by rewrite !Qred_involutive in Heq. }
  rewrite !fraction_of_ok in Hf by done. injection Hf as Hn Hd.
  apply rational_ok_iff in Ha as [Ha _], Hb as [Hb _].
  destruct a as [na da], b as [nb db]. cbn in *. f_equal; [done|].
  rewrite <- (Z2Pos.id da), <- (Z2Pos.id db) by done. by rewrite Hd.
Qed.

(** Arithmetic on canonical rationals stays canonical and exact: sums and
    products of reduced rationals are constructed without an error, are reduced,
    and denote the sum and product; and a number has one canonical form. *)
Theorem rationals_are_exact a b :
  RationalV1_ok a = true -> RationalV1_ok b = true ->
  (exists s, rational_add a b = Ok s /\ RationalV1_ok s = true /\ fraction s == fraction a + fraction b)%Q /\
  (exists p, rational_mul a b = Ok p /\ RationalV1_ok p = true /\ fraction p == fraction a * fraction b)%Q /\
  ((fraction a == fraction b)%Q -> a = b).
Proof.
  intros Ha Hb. split; [|split; [|by apply rational_canonical]].
  - destruct (from_fraction_reduced (fraction a + fraction b)%Q) as (s & Hs & Hok & Hf).
    exists s. split; [done|]. split; [done|]. rewrite Hf. apply Qred_correct.
  - destruct (from_fraction_reduced (fraction a * fraction b)%Q) as (p & Hp & Hok & Hf).
    exists p. split; [done|]. split; [done|]. rewrite Hf. apply Qred_correct.
Qed.

(** ** Sealed values *)

Section sealed_facts.
Context {A : Type} `{HashedModel A}.

Lemma validate_hash_Ok (m : sealed A) :
  validate_hash m = Ok tt <-> canonical_hash (JObj (preimage (body m))) = Ok (own_hash m).
Proof.
  unfold validate_hash. destruct (canonical_hash _) as [h|e]; cbn; [|done].
  rewrite guard_not_Ok, negb_false_iff, String.eqb_eq. split; [by intros ->|by intros [= ->]].
Qed.

Lemma create_Ok (a : A) m :
  create a = Ok m -> body m = a /\ check a = Ok tt /\ validate_hash m = Ok tt.
Proof.
  unfold create. intros Hm. inv_ok. destruct r. rewrite validate_hash_Ok. done.
Qed.

(** A created record carries the hash of its own fields; and two records
    whose hashes both verify and agree have the same fields up to the order of
    object members, unless SHA-256 collides on them. *)
Theorem sealed_roundtrip (a : A) m :
  create a = Ok m ->
  validate_hash m = Ok tt /\ body m = a /\
  forall m', validate_hash m' = Ok tt -> own_hash m' = own_hash m ->
  json_norm (JObj (preimage (body m'))) = json_norm (JObj (preimage a)) \/
  collide (JObj (preimage (body m'))) (JObj (preimage a)).
Proof.
  intros (<- & _ & Hv)%create_Ok. split; [done|]. split; [done|].
  intros m' Hv' Hh. apply validate_hash_Ok in Hv, Hv'. rewrite Hh in Hv'.
  by eapply content_hash_same.
Qed.

End sealed_facts.

(** ** Credit conservation *)

Lemma fraction_sum_spec l (x : Q) :
  (fold_left (fun a b => Qred (a + b)) l x == x + fold_right Qplus 0 l)%Q.
Proof.
  revert x; induction l as [|y l IH]; intros x; cbn; [ring|]. rewrite IH, Qred_correct. ring.
Qed.

(** Exact totals of a transition. *)
Definition total_reward (t : Transition) : Q :=
  fold_right Qplus 0%Q (map (fun r => fraction (rw_reward_value (body r))) (tr_rewards t)).
Definition total_credit (t : Transition) : Q :=
  fold_right Qplus 0%Q (map (fun c => fraction (cr_credited_value (body c))) (tr_credits t)).

Section partition.
Context {C : Type} (key : C -> uuid) (v : C -> Q).
Implicit Types (l : list C) (ids : list uuid).

Definition part l (i : uuid) : Q := fold_right Qplus 0%Q (map v (List.filter (fun c => (key c =? i)%N) l)).

Lemma part_cons c l i : part (c :: l) i == (if (key c =? i)%N then v c else 0) + part l i.
Proof. unfold part. cbn. destruct (key c =? i)%N; cbn; [done|ring]. Qed.

Lemma sum_one ids k (g : uuid -> Q) (x : Q) :
  NoDup ids -> k ∈ ids ->
  (fold_right Qplus 0 (map (fun i => (if (k =? i)%N then x else 0) + g i) ids)
   == x + fold_right Qplus 0 (map g ids))%Q.
Proof.
  assert (Hnone : forall ids, k ∉ ids ->
    (fold_right Qplus 0 (map (fun i => (if (k =? i)%N then x else 0) + g i) ids)
     == fold_right Qplus 0 (map g ids))%Q).
  { clear ids. intros ids; induction ids as [|i ids IH]; intros Hk; cbn; [done|].
    rewrite IH by set_solver. destruct (N.eqb_spec k i) as [->|]; [|ring]. destruct Hk. left. }
  induction 1 as [|i ids Hi Hn IH]; intros Hk; cbn; [by apply elem_of_nil in Hk|].
  destruct (N.eqb_spec k i) as [->|Hne]; [rewrite Hnone by done; ring|].
  rewrite IH by (apply elem_of_cons in Hk as [?|?]; done). ring.
Qed.

(** A sum is the sum over the values of a key of the parts with that value. *)
Lemma sum_parts l ids :
  NoDup ids -> (forall c, c ∈ l -> key c ∈ ids) ->
  (fold_right Qplus 0 (map v l) == fold_right Qplus 0 (map (part l) ids))%Q.
Proof.
  intros Hn. induction l as [|c l IH]; intros Hk; cbn.
  - clear. induction ids as [|i ids IH]; cbn; [done|]. rewrite <- IH. unfold part; cbn. ring.
  - rewrite IH by (intros c' Hc'; apply Hk; by right).
    rewrite <- (sum_one ids (key c) (part l) (v c) Hn (Hk c (list_elem_of_here _ _))).
    clear. induction ids as [|i ids IH]; cbn [map fold_right]; [done|]. by rewrite IH, part_cons.
Qed.

End partition.

Lemma NoDup_length_dups {A} `{EqDecision A} (l : list A) :
  length (remove_dups l) = length l -> NoDup l.
Proof.
  assert (Hle : forall l : list A, (length (remove_dups l) <= length l)%nat).
  { clear. induction l as [|x l IH]; cbn; [done|]. destruct (decide_rel _ x l); cbn; lia. }
  induction l as [|x l IH]; cbn; [constructor|]. specialize (Hle l).
  destruct (decide_rel _ x l) as [Hx|Hx]; cbn; intros Hl; [lia|].
  constructor; [done|]. apply IH. by injection Hl.
Qed.

Lemma conservation_parts t :
  transition_shape t = Ok tt ->
  NoDup (map component_id (tr_rewards t)) /\ length (tr_rewards t) = 5%nat /\
  (forall c, c ∈ tr_credits t -> cr_reward_component_id (body c) ∈ map component_id (tr_rewards t)) /\
  (forall r, r ∈ tr_rewards t ->
     (part (fun c => cr_reward_component_id (body c)) (fun c => fraction (cr_credited_value (body c)))
        (tr_credits t) (component_id r) == fraction (rw_reward_value (body r)))%Q).
Proof.
  unfold transition_shape. intros Ht. inv_ok.
  match goal with H : negb (bool_decide (_ = range 5)) = false |- _ =>
    apply negb_false_iff, bool_decide_eq_true_1 in H; pose proof (f_equal length H) as Hfive end.
  match goal with H : negb (_ =? 5)%nat = false |- _ =>
    apply negb_false_iff, Nat.eqb_eq in H; rename H into Hdup end.
  rewrite length_map in Hfive. cbn in Hfive.
  assert (Hn : NoDup (map component_id (tr_rewards t))).
  { apply NoDup_length_dups. by rewrite length_map, Hfive. }
  unfold _validate_credit_conservation in Ht. inv_ok.
  assert (Hby : by_component t = map (fun r => (component_id r, r)) (tr_rewards t)).
  { apply dict_of_list_nodup. by rewrite map_map. }
  split; [done|]. split; [done|]. split.
  - intros c Hc. match goal with H : foldR _ _ (tr_credits t) = Ok ?u |- _ =>
      destruct u; pose proof (proj1 (Forall_forall _ _) (proj1 (foldR_checks _ _) H) c Hc) as Href end.
    unfold check_credit_reference in Href. rewrite Hby in Href.
    destruct (dict_get _ _) as [rw|] eqn:Hget; [|done].
    apply dict_get_elem in Hget. apply list_elem_of_In, in_map_iff in Hget as (rw' & [= Hid ->] & Hrw).
    apply list_elem_of_In, in_map_iff. by exists rw.
  - intros rw Hrw. rewrite Hby in Ht.
    assert (Hc : check_component t (component_id rw, rw) = Ok tt).
    { apply (proj1 (Forall_forall _ _) (proj1 (foldR_checks _ _) Ht)). apply list_elem_of_In, in_map_iff. exists rw. split; [done|]. by apply list_elem_of_In. }
    unfold check_component in Hc. inv_ok.
    match goal with H : negb (Qeq_bool _ _) = false |- _ => apply negb_false_iff, Qeq_bool_iff in H; rewrite <- H end.
    unfold fraction_sum. rewrite fraction_sum_spec. unfold part, grouped. ring.
Qed.

(** C39. Credit is conserved exactly: in a valid transition there are five reward
    components with distinct identities, the credits of every component add up
    to its reward as exact rationals, and all credits together add up to all
    rewards; no credit is left out of the sum. *)
Theorem credits_are_conserved t :
  transition_shape t = Ok tt ->
  length (tr_rewards t) = 5%nat /\ NoDup (map component_id (tr_rewards t)) /\
  (forall r, r ∈ tr_rewards t ->
     fold_right Qplus 0 (map (fun c => fraction (cr_credited_value (body c))) (grouped t (component_id r)))
     == fraction (rw_reward_value (body r)))%Q /\
  (total_credit t == total_reward t)%Q.
Proof.
  intros (Hn & Hl & Hin & Hp)%conservation_parts. split; [done|]. split; [done|]. split; [exact Hp|].
  unfold total_credit, total_reward.
  rewrite (sum_parts (fun c => cr_reward_component_id (body c)) _ _ _ Hn Hin). rewrite map_map.
  clear - Hp. induction (tr_rewards t) as [|r l IH]; cbn [map fold_right]; [done|].
  rewrite (Hp r) by left. rewrite IH; [done|]. intros r' Hr'. apply Hp. by right.
Qed.

(** ** What a boundary may execute *)

Lemma decision_shape_Ok d :
  decision_shape d = Ok tt ->
  (cd_outcome d = ACCEPTED -> cd_feasibility_status d = Feasibility.SAT /\ is_Some (cd_executed_action_hash d)) /\
  (cd_outcome d <> ACCEPTED -> cd_executed_action_hash d = None) /\
  (cd_outcome d = NO_PROPOSAL -> cd_proposal_hash d = None).
Proof.
  unfold decision_shape. destruct (cd_outcome d), (cd_proposal_hash d), (cd_executed_action_hash d),
    (cd_feasibility_status d); try done; intros _; (split; [|split]); try done.
Qed.

Lemma references_Ok b :
  references b = Ok tt ->
  (forall e, e ∈ episode_refs b -> e = db_episode_id b) /\
  (forall i, i ∈ index_refs b -> i = db_decision_index b) /\
  mo_terminal (body (db_observation b)) = false /\
  (is_Some (db_proposed_action b) <-> cd_outcome (body (db_coordinator_decision b)) <> NO_PROPOSAL) /\
  (is_Some (db_executed_action b) <-> cd_outcome (body (db_coordinator_decision b)) = ACCEPTED).
Proof.
  assert (Hall : forall A (p : A -> bool) l, existsb p l = false -> forall x, x ∈ l -> p x = false).
  { intros A p l Hl x Hx. destruct (p x) eqn:Hp; [|done]. rewrite <- Hl. symmetry.
    apply existsb_exists. exists x. split; [by apply list_elem_of_In|done]. }
  unfold references. intros Hr. inv_ok.
  split; [|split; [|split; [done|]]].
  - intros e He. eapply Hall in He; [|eassumption]. by apply negb_false_iff, N.eqb_eq in He.
  - intros i Hi. eapply Hall in Hi; [|eassumption]. by apply negb_false_iff, Z.eqb_eq in Hi.
  - destruct (cd_outcome _), (db_proposed_action b), (db_executed_action b); cbn in *; try done;
      (split; split); intros; try done; by match goal with H : is_Some None |- _ => destruct H end.
Qed.

(** The coordinator keeps its authority: when a boundary and its decision are
    valid, an action was executed exactly when the decision accepted a proposal,
    every accepted proposal was feasible (SAT), there is a proposal exactly when
    the decision says so, and all parts belong to one episode and one decision. *)
Theorem executed_only_when_accepted (b : sealed DecisionBoundary) :
  check (body b) = Ok tt -> check (body (db_coordinator_decision (body b))) = Ok tt ->
  let d := body (db_coordinator_decision (body b)) in
  (is_Some (db_executed_action (body b)) <-> cd_outcome d = ACCEPTED) /\
  (cd_outcome d = ACCEPTED ->
     cd_feasibility_status d = Feasibility.SAT /\ is_Some (db_proposed_action (body b))) /\
  (is_Some (db_proposed_action (body b)) <-> cd_outcome d <> NO_PROPOSAL) /\
  Forall (fun e => e = db_episode_id (body b)) (episode_refs (body b)) /\
  Forall (fun i => i = db_decision_index (body b)) (index_refs (body b)).
Proof.
  cbn. intros Hb Hd. inv_ok.
  apply references_Ok in Hb as (He & Hi & _ & Hp & Hx).
  apply decision_shape_Ok in Hd as (Ha & _ & _).
  split; [done|]. split; [|split; [done|split; by apply Forall_forall]].
  intros Hacc. destruct (Ha Hacc) as [Hs _]. split; [done|]. apply Hp. by rewrite Hacc.
Qed.

End Marl.
