(* ===== verification/MarlStore.v ===== *)
(** * Learning trajectories: the in-memory store

    [app/adapters/inmemory/marl.py]: the store serializes its writers with a
    lock, so a call is one step; what [model_copy] does not validate is not
    validated here.  [MarlTrajectoryService] of [app/application/marl.py] only
    forwards to the store.  The theorems say what holds of every episode the
    store can reach, that calls can be repeated, and what a finalized episode
    keeps. *)

From S2P Require Import Prelude.
From S2P Require Import Clock.
From S2P Require Import Json.
From S2P Require Import Symbolic.
From S2P Require Import ConsensusPorts.
From S2P Require Import Marl.
Import Marl.

Local Open Scope Z_scope.

Module MarlStore.

(** ** Validation of the parts of an episode

    What [model_validate] runs again on the nested values. *)

Definition source_ok (s : sealed ObservationSource) : bool := model_ok (os_snapshot (body s)) && model_ok s.
Definition observation_ok (o : sealed MarlObservation) : bool :=
  forallb source_ok (mo_sources (body o)) && forallb model_ok (mo_features (body o))
  && ImplementationRefV1_ok (mo_observation_implementation (body o)) && model_ok o.
Definition proposed_ok (a : sealed ProposedAction) : bool :=
  ImplementationRefV1_ok (pa_policy_implementation (body a)) && model_ok a.
Definition decision_ok (d : sealed CoordinatorDecision) : bool :=
  ImplementationRefV1_ok (cd_coordinator_implementation (body d)) && model_ok d.
Definition boundary_ok (b : sealed DecisionBoundary) : bool :=
  observation_ok (db_observation (body b)) && opt_ok proposed_ok (db_proposed_action (body b))
  && decision_ok (db_coordinator_decision (body b)) && opt_ok model_ok (db_executed_action (body b))
  && model_ok b.
Definition reward_ok (r : sealed RewardComponent) : bool :=
  ImplementationRefV1_ok (rw_reward_implementation (body r)) && opt_ok RationalV1_ok (rw_pre_metric_value (body r))
  && opt_ok RationalV1_ok (rw_post_metric_value (body r)) && RationalV1_ok (rw_reward_value (body r))
  && model_ok r.
Definition credit_ok (c : sealed CreditAssignment) : bool :=
  RationalV1_ok (cr_share (body c)) && RationalV1_ok (cr_credited_value (body c))
  && ImplementationRefV1_ok (cr_credit_implementation (body c)) && model_ok c.
Definition transition_ok (t : sealed Transition) : bool :=
  boundary_ok (tr_boundary (body t)) && observation_ok (tr_post_observation (body t))
  && forallb reward_ok (tr_rewards (body t)) && forallb credit_ok (tr_credits (body t)) && model_ok t.
Definition episode_parts_ok (e : MarlEpisodeV1) : bool :=
  forallb transition_ok (ep_transitions e) && opt_ok boundary_ok (ep_pending_boundary e)
  && opt_ok model_ok (ep_incomplete_marker e).

(** [MarlEpisodeV1.model_validate({**episode.model_dump(mode="python"), ...})] *)
Definition model_validate (e : MarlEpisodeV1) : res MarlEpisodeV1 :=
  _ ← guard_not (negb (episode_parts_ok e)) ValidationErrorC "MarlEpisodeV1";
  validate_episode e.

(** ** Operations *)

Abbreviation episodes := (gmap (uuid * uuid) MarlEpisodeV1).

Definition _identity {A} `{HashedModel A} (value : sealed A) : res string := canonical_hash (_dump value).
Definition episode_identity (e : MarlEpisodeV1) : res string := canonical_hash (dump_episode e).

Definition _required (workspace_id episode_id : uuid) (s : episodes) : res MarlEpisodeV1 :=
  res_of_option MarlDomainErrorC "episode not found" (s !! (workspace_id, episode_id)).

Definition with_pending (e : MarlEpisodeV1) (b : option (sealed DecisionBoundary)) : MarlEpisodeV1 :=
  mkEpisode (ep_episode_id e) (ep_workspace_id e) (ep_session_id e) (ep_environment_version e)
    (ep_code_identity e) (ep_status e) (ep_transitions e) b (ep_incomplete_marker e).
Definition with_closed (e : MarlEpisodeV1) (t : sealed Transition) : MarlEpisodeV1 :=
  mkEpisode (ep_episode_id e) (ep_workspace_id e) (ep_session_id e) (ep_environment_version e)
    (ep_code_identity e) (ep_status e) (ep_transitions e ++ [t]) None (ep_incomplete_marker e).
Definition with_status (e : MarlEpisodeV1) (st : EpisodeStatus) (m : option (sealed IncompleteMarker))
    : MarlEpisodeV1 :=
  mkEpisode (ep_episode_id e) (ep_workspace_id e) (ep_session_id e) (ep_environment_version e)
    (ep_code_identity e) st (ep_transitions e) (ep_pending_boundary e) m.

Definition save (workspace_id episode_id : uuid) (e : MarlEpisodeV1) : ST episodes MarlEpisodeV1 :=
  s ← get_st; _ ← put_st (<[(workspace_id, episode_id) := e]> s); mret e.

Definition create (e : MarlEpisodeV1) : ST episodes MarlEpisodeV1 :=
  _ ← lift_res (guard_not (negb (bool_decide (ep_status e = OPEN)) || nonempty (ep_transitions e)
                           || is_some (ep_pending_boundary e))
                  MarlDomainErrorC "new episode must be empty and OPEN");
  s ← get_st;
  match s !! (ep_workspace_id e, ep_episode_id e) with
  | Some current =>
      i ← lift_res (episode_identity current);
      j ← lift_res (episode_identity e);
      if String.eqb i j then mret current
      else raise_st MarlConflictErrorC "episode identity conflicts with existing content"
  | None => save (ep_workspace_id e) (ep_episode_id e) e
  end.

Definition get (workspace_id episode_id : uuid) (s : episodes) : option MarlEpisodeV1 :=
  s !! (workspace_id, episode_id).

Definition capture (workspace_id : uuid) (b : sealed DecisionBoundary) : ST episodes MarlEpisodeV1 :=
  s ← get_st;
  e ← lift_res (_required workspace_id (db_episode_id (body b)) s);
  _ ← lift_res (guard_not (negb (bool_decide (ep_status e = OPEN)))
                  MarlConflictErrorC "finalized episode cannot accept a boundary");
  match ep_pending_boundary e with
  | Some pending =>
      i ← lift_res (_identity pending);
      j ← lift_res (_identity b);
      if String.eqb i j then mret e
      else raise_st MarlConflictErrorC "episode already has a pending boundary"
  | None =>
      _ ← lift_res (guard_not (negb (db_decision_index (body b) =? transition_count e))
                      MarlConflictErrorC "decision index must be the next gapless index");
      save workspace_id (ep_episode_id e) (with_pending e (Some b))
  end.

(** [episode.transitions[index]] for an index below the length; a negative one
    counts from the end, but validated indices are not negative. *)
Definition transition_at (e : MarlEpisodeV1) (i : Z) : res (sealed Transition) :=
  res_of_option IndexErrorC "tuple index out of range"
    (if 0 <=? i then ep_transitions e !! Z.to_nat i
     else if transition_count e + i <? 0 then None
     else ep_transitions e !! Z.to_nat (transition_count e + i)).

Definition close (workspace_id : uuid) (t : sealed Transition) : ST episodes MarlEpisodeV1 :=
  s ← get_st;
  e ← lift_res (_required workspace_id (tr_episode_id (body t)) s);
  if tr_decision_index (body t) <? transition_count e then
    current ← lift_res (transition_at e (tr_decision_index (body t)));
    i ← lift_res (_identity current);
    j ← lift_res (_identity t);
    if String.eqb i j then mret e
    else raise_st MarlConflictErrorC "transition identity conflicts with existing content"
  else
    match ep_status e, ep_pending_boundary e with
    | OPEN, Some pending =>
        i ← lift_res (_identity pending);
        j ← lift_res (_identity (tr_boundary (body t)));
        if String.eqb i j then save workspace_id (ep_episode_id e) (with_closed e t)
        else raise_st MarlConflictErrorC "transition does not close the pending boundary"
    | _, _ => raise_st MarlConflictErrorC "episode has no pending decision"
    end.

Definition finalize_complete (workspace_id episode_id : uuid) : ST episodes MarlEpisodeV1 :=
  s ← get_st;
  e ← lift_res (_required workspace_id episode_id s);
  match ep_status e with
  | COMPLETE => mret e
  | OPEN =>
      updated ← lift_res (model_validate (with_status e COMPLETE (ep_incomplete_marker e)));
      save workspace_id episode_id updated
  | INCOMPLETE => raise_st MarlConflictErrorC "episode is already incomplete"
  end.

Definition finalize_incomplete (workspace_id : uuid) (m : sealed IncompleteMarker) : ST episodes MarlEpisodeV1 :=
  s ← get_st;
  e ← lift_res (_required workspace_id (im_episode_id (body m)) s);
  match ep_status e with
  | INCOMPLETE =>
      if bool_decide (ep_incomplete_marker e = Some m) then mret e
      else raise_st MarlConflictErrorC "incomplete marker conflicts with existing marker"
  | OPEN =>
      updated ← lift_res (model_validate (with_status e INCOMPLETE (Some m)));
      save workspace_id (ep_episode_id e) updated
  | COMPLETE => raise_st MarlConflictErrorC "complete episode cannot become incomplete"
  end.

(** ** Calls *)

Inductive call : Type :=
| Create (e : MarlEpisodeV1)
| Capture (workspace_id : uuid) (b : sealed DecisionBoundary)
| Close (workspace_id : uuid) (t : sealed Transition)
| FinalizeComplete (workspace_id episode_id : uuid)
| FinalizeIncomplete (workspace_id : uuid) (m : sealed IncompleteMarker).

(** [MarlTrajectoryService.open/capture/close/complete/incomplete] *)
Definition serve (c : call) : ST episodes MarlEpisodeV1 :=
  match c with
  | Create e => create e
  | Capture w b => capture w b
  | Close w t => close w t
  | FinalizeComplete w i => finalize_complete w i
  | FinalizeIncomplete w m => finalize_incomplete w m
  end.

(** Arguments are values of their models: their constructors validated them. *)
Definition call_valid (c : call) : Prop :=
  match c with
  | Create e => episode_parts_ok e = true /\ is_ok (validate_episode e) = true
  | Capture _ b => boundary_ok b = true
  | Close _ t => transition_ok t = true
  | FinalizeComplete _ _ => True
  | FinalizeIncomplete _ m => model_ok m = true
  end.

(** ** What a call does *)

(** How a stored episode changes. *)
Inductive evolves (e : MarlEpisodeV1) : MarlEpisodeV1 -> Prop :=
| ev_capture b :
    ep_status e = OPEN -> ep_pending_boundary e = None -> boundary_ok b = true ->
    db_episode_id (body b) = ep_episode_id e -> db_decision_index (body b) = transition_count e ->
    evolves e (with_pending e (Some b))
| ev_close t pending i :
    ep_status e = OPEN -> ep_pending_boundary e = Some pending -> transition_ok t = true ->
    tr_episode_id (body t) = ep_episode_id e ->
    _identity pending = Ok i -> _identity (tr_boundary (body t)) = Ok i ->
    ~ collide (_dump pending) (_dump (tr_boundary (body t))) ->
    evolves e (with_closed e t)
| ev_finalize st m e' :
    ep_status e = OPEN -> st <> OPEN -> opt_ok model_ok m = true ->
    model_validate (with_status e st m) = Ok e' ->
    evolves e e'.

(** The two boundaries [close] compares are a collision of SHA-256. *)
Definition colliding (c : call) (s : episodes) : Prop :=
  match c with
  | Close w t => exists e pending, s !! (w, tr_episode_id (body t)) = Some e /\
      ep_pending_boundary e = Some pending /\ collide (_dump pending) (_dump (tr_boundary (body t)))
  | _ => False
  end.

(** Episodes are stored under their own scope. *)
Definition keyed (s : episodes) : Prop :=
  forall w i e, s !! (w, i) = Some e -> ep_workspace_id e = w /\ ep_episode_id e = i.

Lemma required_Some w i s e : _required w i s = Ok e -> s !! (w, i) = Some e.
Proof. unfold _required. by destruct (s !! (w, i)) as [e'|]; cbn; [intros [= ->]|]. Qed.

Lemma validate_episode_Ok e e' : validate_episode e = Ok e' -> e' = e /\ lifecycle e = Ok tt.
Proof. unfold validate_episode. intros He. inv_ok. by destruct r1. Qed.

Lemma model_validate_Ok e e' : model_validate e = Ok e' -> e' = e /\ episode_parts_ok e = true /\ lifecycle e = Ok tt.
Proof.
  unfold model_validate. intros He. apply guard_bind in He as [Hp [-> Hl]%validate_episode_Ok].
  split; [done|]. split; [by apply negb_false_iff|done].
Qed.

(** Every call returns a stored episode without changing the store, adds a new
    episode, lets one episode evolve, or fails without changing the store. *)
Inductive outcome (c : call) (s : episodes) : episodes -> res MarlEpisodeV1 -> Prop :=
| o_same w i e : s !! (w, i) = Some e -> outcome c s s (Ok e)
| o_new e : c = Create e -> s !! (ep_workspace_id e, ep_episode_id e) = None ->
    ep_status e = OPEN -> ep_transitions e = [] -> ep_pending_boundary e = None ->
    outcome c s (<[(ep_workspace_id e, ep_episode_id e) := e]> s) (Ok e)
| o_evolves w i e e' : s !! (w, i) = Some e -> evolves e e' ->
    outcome c s (<[(w, i) := e']> s) (Ok e')
| o_fails x : outcome c s s (Raise x).

Lemma create_outcome e s : outcome (Create e) s (fst (create e s)) (snd (create e s)).
Proof.
  unfold create. rewrite run_lift. destruct (guard_not _ _ _) as [[]|] eqn:Hg; [|apply o_fails].
  apply guard_not_Ok, orb_false_iff in Hg as [[H1 H2]%orb_false_iff H3].
  rewrite run_get. destruct (s !! _) as [cur|] eqn:Hs.
  - rewrite run_lift. destruct (episode_identity cur) as [i|]; [|apply o_fails]. rewrite run_lift.
    destruct (episode_identity e) as [j|]; [|apply o_fails].
    destruct (String.eqb i j); [by eapply o_same|apply o_fails].
  - unfold save. rewrite run_get, run_put. apply o_new; try done.
    + by apply negb_false_iff, bool_decide_eq_true_1 in H1.
    + by destruct (ep_transitions e).
    + by destruct (ep_pending_boundary e).
Qed.

Lemma capture_outcome w b s :
  keyed s -> boundary_ok b = true -> outcome (Capture w b) s (fst (capture w b s)) (snd (capture w b s)).
Proof.
  intros Hk Hb. unfold capture. rewrite run_get, run_lift.
  destruct (_required _ _ _) as [e|] eqn:Hr; [|apply o_fails]. apply required_Some in Hr.
  destruct (Hk _ _ _ Hr) as [Hw Hi].
  rewrite run_lift. destruct (guard_not _ _ _) as [[]|] eqn:Hg; [|apply o_fails].
  apply guard_not_Ok, negb_false_iff, bool_decide_eq_true_1 in Hg.
  destruct (ep_pending_boundary e) as [p|] eqn:Hp.
  - rewrite run_lift. destruct (_identity p) as [i|]; [|apply o_fails]. rewrite run_lift.
    destruct (_identity b) as [j|]; [|apply o_fails].
    destruct (String.eqb i j); [by eapply o_same|apply o_fails].
  - rewrite run_lift. destruct (guard_not _ _ _) as [[]|] eqn:Hx; [|apply o_fails].
    apply guard_not_Ok, negb_false_iff, Z.eqb_eq in Hx. unfold save. rewrite run_get, run_put, Hi.
    eapply o_evolves; [exact Hr|]. by apply ev_capture.
Qed.

Lemma close_outcome w t s :
  keyed s -> transition_ok t = true -> ~ colliding (Close w t) s ->
  outcome (Close w t) s (fst (close w t s)) (snd (close w t s)).
Proof.
  intros Hk Ht Hc. unfold close. rewrite run_get, run_lift.
  destruct (_required _ _ _) as [e|] eqn:Hr; [|apply o_fails]. apply required_Some in Hr.
  destruct (Hk _ _ _ Hr) as [Hw Hi].
  destruct (tr_decision_index (body t) <? transition_count e).
  - rewrite run_lift. destruct (transition_at _ _) as [cur|]; [|apply o_fails].
    rewrite run_lift. destruct (_identity cur) as [i|]; [|apply o_fails]. rewrite run_lift.
    destruct (_identity t) as [j|]; [|apply o_fails].
    destruct (String.eqb i j); [by eapply o_same|apply o_fails].
  - destruct (ep_status e) eqn:Hst; try apply o_fails.
    destruct (ep_pending_boundary e) as [p|] eqn:Hp; [|apply o_fails].
    rewrite run_lift. destruct (_identity p) as [i|] eqn:Hpi; [|apply o_fails]. rewrite run_lift.
    destruct (_identity (tr_boundary (body t))) as [j|] eqn:Hti; [|apply o_fails].
    destruct (String.eqb_spec i j) as [->|]; [|apply o_fails]. unfold save. rewrite run_get, run_put, Hi.
    eapply o_evolves; [exact Hr|]. eapply ev_close; try done.
    intros Hcol. apply Hc. by exists e, p.
Qed.

Lemma finalize_complete_outcome w i s :
  keyed s -> (forall e, s !! (w, i) = Some e -> ep_status e = OPEN -> ep_incomplete_marker e = None) ->
  outcome (FinalizeComplete w i) s (fst (finalize_complete w i s)) (snd (finalize_complete w i s)).
Proof.
  intros Hk Hm. unfold finalize_complete. rewrite run_get, run_lift.
  destruct (_required _ _ _) as [e|] eqn:Hr; [|apply o_fails]. apply required_Some in Hr.
  destruct (ep_status e) eqn:Hst; [|by eapply o_same|apply o_fails].
  rewrite run_lift. destruct (model_validate _) as [e'|] eqn:Hv; [|apply o_fails].
  unfold save. rewrite run_get, run_put. eapply o_evolves; [exact Hr|].
  rewrite (Hm e Hr Hst) in Hv. by apply (ev_finalize e COMPLETE None).
Qed.

Lemma finalize_incomplete_outcome w m s :
  keyed s -> model_ok m = true ->
  outcome (FinalizeIncomplete w m) s (fst (finalize_incomplete w m s)) (snd (finalize_incomplete w m s)).
Proof.
  intros Hk Hm. unfold finalize_incomplete. rewrite run_get, run_lift.
  destruct (_required _ _ _) as [e|] eqn:Hr; [|apply o_fails]. apply required_Some in Hr.
  destruct (Hk _ _ _ Hr) as [Hw Hi].
  destruct (ep_status e) eqn:Hst; [|apply o_fails|].
  - rewrite run_lift. destruct (model_validate _) as [e'|] eqn:Hv; [|apply o_fails].
    unfold save. rewrite run_get, run_put, Hi. eapply o_evolves; [exact Hr|].
    by apply (ev_finalize e INCOMPLETE (Some m)).
  - case_bool_decide; [by eapply o_same|apply o_fails].
Qed.

(** ** The invariant of an episode *)

Lemma range_S n : range (S n) = range n ++ [Z.of_nat n].
Proof. unfold range. by rewrite seq_S, map_app. Qed.

(** [Hn] equates two objects; [Heq] equates the values of one key. *)
Ltac same_member Hn k v Heq :=
  let w := fresh "w" in let Hin := fresh "Hin" in
  destruct (norm_field _ _ k v Hn) as (w & Hin & Heq);
  [ cbn [app preimage]; repeat first [apply list_elem_of_here | apply list_elem_of_further]
  | cbn [app preimage] in Hin;
    repeat (apply elem_of_cons in Hin as [Hin|Hin]; [try discriminate Hin|]);
    [ apply (f_equal snd) in Hin; cbn [snd] in Hin; subst w | by apply elem_of_nil in Hin ] ].

Lemma identity_fields (b b' : sealed DecisionBoundary) i :
  _identity b = Ok i -> _identity b' = Ok i -> ~ collide (_dump b) (_dump b') ->
  let o := body (db_observation (body b)) in
  let o' := body (db_observation (body b')) in
  db_decision_index (body b) = db_decision_index (body b') /\
  uuid_str (mo_workspace_id o) = uuid_str (mo_workspace_id o') /\
  uuid_str (mo_session_id o) = uuid_str (mo_session_id o').
Proof.
  cbn zeta. intros Hb Hb' Hc. destruct (content_hash_same _ _ _ Hb Hb') as [Hn|]; [|done].
  unfold _dump at 1 2 in Hn. split; [|].
  - same_member Hn "decision_index" (jint (db_decision_index (body b))) Heq. by injection Heq.
  - same_member Hn "observation" (_dump (db_observation (body b))) Ho. symmetry in Ho. unfold _dump in Ho.
    same_member Ho "workspace_id" (juuid (mo_workspace_id (body (db_observation (body b))))) Hw.
    same_member Ho "session_id" (juuid (mo_session_id (body (db_observation (body b))))) Hs.
    unfold juuid, json_norm in Hw, Hs. split; congruence.
Qed.

Lemma transition_ok_shape t : transition_ok t = true -> transition_shape (body t) = Ok tt.
Proof.
  unfold transition_ok, model_ok. rewrite !andb_true_iff. intros (_ & Hc & _).
  apply is_ok_exists in Hc as [[] Hc]. cbn in Hc. by inv_ok.
Qed.

Lemma transition_shape_index t :
  transition_shape t = Ok tt -> db_decision_index (body (tr_boundary t)) = tr_decision_index t.
Proof. unfold transition_shape. intros Ht. inv_ok. by apply Z.eqb_eq, negb_false_iff. Qed.

Record episode_inv (e : MarlEpisodeV1) : Prop := {
  ei_gapless : map (fun t => tr_decision_index (body t)) (ep_transitions e) = range (length (ep_transitions e));
  ei_own : Forall (fun t => tr_episode_id (body t) = ep_episode_id e) (ep_transitions e);
  ei_open : ep_status e = OPEN -> ep_incomplete_marker e = None /\
    forall b, ep_pending_boundary e = Some b ->
      db_decision_index (body b) = transition_count e /\ db_episode_id (body b) = ep_episode_id e;
  ei_closed : ep_status e <> OPEN -> lifecycle e = Ok tt
}.

Lemma evolves_ids e e' :
  evolves e e' -> ep_workspace_id e' = ep_workspace_id e /\ ep_episode_id e' = ep_episode_id e.
Proof. intros [| |st m e1 _ _ _ [-> _]%model_validate_Ok]; done. Qed.

Lemma evolves_inv e e' : episode_inv e -> evolves e e' -> episode_inv e'.
Proof.
  intros [Hg Ho Hopen Hcl] He. destruct He as [b Hst Hp Hb Hbi Hbd|t p i Hst Hp Ht Hti Hpi Hbi Hc|st m e1 Hst Hne Hm Hv].
  - split; cbn; try done. intros _. split; [by apply Hopen|]. by intros b' [= <-].
  - destruct (identity_fields _ _ _ Hpi Hbi Hc) as [Hidx _].
    rewrite (transition_shape_index _ (transition_ok_shape _ Ht)) in Hidx.
    destruct (Hopen Hst) as [Hm Hpb]. destruct (Hpb _ Hp) as [Hcnt _].
    split; cbn; try done.
    + fold (range (length (ep_transitions e ++ [t]))). rewrite map_app, length_app. cbn [map length].
      rewrite Nat.add_1_r, range_S, Hg. unfold transition_count in Hcnt. congruence.
    + apply Forall_app. split; [done|]. by constructor.
  - apply model_validate_Ok in Hv as (-> & Hparts & Hl). split; done.
Qed.

Lemma created_inv e :
  is_ok (validate_episode e) = true -> ep_status e = OPEN -> ep_transitions e = [] ->
  ep_pending_boundary e = None -> episode_inv e.
Proof.
  intros Hv Hst Ht Hp. apply is_ok_exists in Hv as [e' [_ Hl]%validate_episode_Ok].
  split; try by rewrite Ht.
  - intros _. split; [|by rewrite Hp]. unfold lifecycle in Hl. inv_ok. rewrite Hst in Hl.
    unfold open_shape in Hl. inv_ok. by destruct (ep_incomplete_marker e).
  - done.
Qed.

(** ** The reachable stores *)

Inductive reachable : episodes -> Prop :=
| reach_empty : reachable ∅
| reach_call c s s' r :
    reachable s -> call_valid c -> ~ colliding c s -> serve c s = (s', r) -> reachable s'.

Definition store_inv (s : episodes) : Prop :=
  keyed s /\ forall w i e, s !! (w, i) = Some e -> episode_inv e.

Lemma serve_outcome c s :
  store_inv s -> call_valid c -> ~ colliding c s -> outcome c s (fst (serve c s)) (snd (serve c s)).
Proof.
  intros [Hk Hi] Hv Hc. destruct c as [e|w b|w t|w i|w m]; cbn [serve call_valid] in *.
  - apply create_outcome.
  - by apply capture_outcome.
  - by apply close_outcome.
  - apply finalize_complete_outcome; [done|]. intros e He Ho. by apply (ei_open e (Hi _ _ _ He)).
  - by apply finalize_incomplete_outcome.
Qed.

Lemma outcome_inv c s s' r : store_inv s -> call_valid c -> outcome c s s' r -> store_inv s'.
Proof.
  intros Hinv Hv Ho. destruct Ho as [w i e He|e -> Hn Hst Ht Hp|w i e e' He Hev|x]; try done.
  - destruct Hinv as [Hk Hi]. split.
    + intros w i e0. intros [[[= <- <-] <-]|[_ He]]%lookup_insert_Some; [done|by apply Hk].
    + intros w i e0. intros [[_ <-]|[_ He]]%lookup_insert_Some; [|by eapply Hi].
      by apply created_inv; [apply Hv|..].
  - destruct Hinv as [Hk Hi]. destruct (evolves_ids _ _ Hev) as [Hw Hid]. split.
    + intros w' i' e0. intros [[[= <- <-] <-]|[_ He']]%lookup_insert_Some; [|by apply Hk].
      rewrite Hw, Hid. by apply Hk.
    + intros w' i' e0. intros [[_ <-]|[_ He']]%lookup_insert_Some; [|by eapply Hi].
      eapply evolves_inv; [by eapply Hi|done].
Qed.

Lemma reachable_inv s : reachable s -> store_inv s.
Proof.
  induction 1 as [|c s s' r Hr IH Hv Hc Hs].
  - split; intros w i e He; by rewrite lookup_empty in He.
  - pose proof (serve_outcome c s IH Hv Hc) as Ho. rewrite Hs in Ho. by eapply outcome_inv.
Qed.

(** ** What the store guarantees *)

(** C20. Every episode the store can reach is stored under its own workspace and
    identity, its transitions are numbered from zero without a gap and belong to
    it, an open one has no marker and its pending boundary is the next decision,
    and one that is no longer open satisfies the whole lifecycle check.  The
    calls take validated arguments; a close whose two boundaries are a SHA-256
    collision is set aside. *)
Theorem reachable_episodes s w i e :
  reachable s -> s !! (w, i) = Some e ->
  (ep_workspace_id e = w /\ ep_episode_id e = i) /\
  map (fun t => tr_decision_index (body t)) (ep_transitions e) = range (length (ep_transitions e)) /\
  Forall (fun t => tr_episode_id (body t) = i) (ep_transitions e) /\
  (ep_status e = OPEN -> ep_incomplete_marker e = None /\
     forall b, ep_pending_boundary e = Some b -> db_decision_index (body b) = transition_count e) /\
  (ep_status e <> OPEN -> lifecycle e = Ok tt).
Proof.
  intros [Hk Hi]%reachable_inv He. destruct (Hk _ _ _ He) as [Hw Hid].
  destruct (Hi _ _ _ He) as [Hg Ho Hop Hcl].
  split; [done|]. split; [done|]. split; [by rewrite <- Hid|]. split; [|done].
  intros Hst. destruct (Hop Hst) as [Hm Hb]. split; [done|]. intros b Hpb. by apply Hb.
Qed.

(** The store only ever appends: after any call every episode is still
    there with its transitions as a prefix of what it has now, a finalized
    episode is exactly what it was, and a call that raises changes nothing. *)
Theorem store_only_appends s c s' r w i e :
  reachable s -> call_valid c -> ~ colliding c s -> serve c s = (s', r) -> s !! (w, i) = Some e ->
  (exists e', s' !! (w, i) = Some e' /\ ep_transitions e `prefix_of` ep_transitions e' /\
     (ep_status e <> OPEN -> e' = e)) /\
  (forall x, r = Raise x -> s' = s).
Proof.
  intros Hr Hv Hc Hs He. apply reachable_inv in Hr as Hinv.
  pose proof (serve_outcome c s Hinv Hv Hc) as Ho. rewrite Hs in Ho. cbn in Ho.
  destruct Ho as [w' i' e0 He0|e0 -> Hn Hst Ht Hp|w' i' e0 e1 He0 Hev|x]; (split; [|try done]);
    try (exists e; split; [done|split; done]).
  - exists e. split; [|done]. rewrite lookup_insert_ne; [done|]. intros Heq. congruence.
  - destruct (decide ((w', i') = (w, i))) as [[= -> ->]|Hne].
    + exists e1. rewrite lookup_insert_eq. split; [done|]. assert (e0 = e) as -> by congruence.
      destruct Hev as [b Hst|t p j Hst|st m e1 Hst Hne Hm [-> _]%model_validate_Ok]; cbn; (split; [|done]);
        [done|by eexists|done].
    + exists e. rewrite lookup_insert_ne by done. done.
Qed.

(** The argument of a call has an identity: canonical JSON has no floats. *)
Definition call_hashable (c : call) : Prop :=
  match c with
  | Capture _ b => is_ok (_identity b) = true
  | Close _ t => is_ok (_identity t) = true
  | _ => True
  end.

Lemma identity_empty e :
  ep_transitions e = [] -> ep_pending_boundary e = None -> ep_incomplete_marker e = None ->
  exists i, episode_identity e = Ok i.
Proof.
  intros Ht Hp Hm. apply is_ok_exists. unfold episode_identity, canonical_hash. rewrite content_hash_total.
  unfold dump_episode. rewrite Ht, Hp, Hm. done.
Qed.

Lemma required_insert w i e s : _required w i (<[(w, i) := e]> s) = Ok e.
Proof. unfold _required. by rewrite lookup_insert_eq. Qed.

Lemma required_lookup w i e s : s !! (w, i) = Some e -> _required w i s = Ok e.
Proof. unfold _required. by intros ->. Qed.

Lemma transition_at_last e t :
  tr_decision_index (body t) = transition_count e ->
  transition_at (with_closed e t) (tr_decision_index (body t)) = Ok t.
Proof.
  intros ->. unfold transition_at, transition_count. rewrite (proj2 (Z.leb_le _ _)) by lia.
  cbn. rewrite Nat2Z.id, lookup_app_r, Nat.sub_diag by lia. done.
Qed.

Lemma create_again e s s' e' :
  is_ok (validate_episode e) = true -> create e s = (s', Ok e') -> create e s' = (s', Ok e').
Proof.
  intros Hv. unfold create. rewrite run_lift. destruct (guard_not _ _ _) as [[]|] eqn:Hg; [|done].
  rewrite run_get. destruct (s !! _) as [cur|] eqn:Hs.
  - rewrite run_lift. destruct (episode_identity cur) as [i|] eqn:Hi; [|done]. rewrite run_lift.
    destruct (episode_identity e) as [j|] eqn:Hj; [|done]. destruct (String.eqb i j) eqn:Hij; [|done].
    intros [= <- <-]. by rewrite run_lift, run_get, Hs, run_lift, Hi, run_lift, Hij.
  - unfold save. rewrite run_get, run_put. intros [= <- <-]. rewrite run_lift, run_get, lookup_insert_eq.
    apply guard_not_Ok, orb_false_iff in Hg as [[H1 H2]%orb_false_iff H3].
    apply negb_false_iff, bool_decide_eq_true_1 in H1.
    assert (Ht : ep_transitions e = []) by (by destruct (ep_transitions e)).
    assert (Hp : ep_pending_boundary e = None) by (by destruct (ep_pending_boundary e)).
    assert (Hm : ep_incomplete_marker e = None) by (by apply (ei_open e (created_inv e Hv H1 Ht Hp))).
    destruct (identity_empty e Ht Hp Hm) as [i Hi]. by rewrite run_lift, Hi, run_lift, String.eqb_refl.
Qed.

Lemma capture_again w b s s' e' :
  keyed s -> is_ok (_identity b) = true -> capture w b s = (s', Ok e') -> capture w b s' = (s', Ok e').
Proof.
  intros Hk Hb. apply is_ok_exists in Hb as [j Hj]. unfold capture. rewrite run_get, run_lift.
  destruct (_required _ _ _) as [e|] eqn:Hr; [|done]. apply required_Some in Hr as Hr'.
  destruct (Hk _ _ _ Hr') as [_ Hi]. rewrite run_lift.
  destruct (guard_not _ _ "finalized episode cannot accept a boundary") as [[]|] eqn:Hg; [|done]. destruct (ep_pending_boundary e) as [p|] eqn:Hp.
  - rewrite run_lift. destruct (_identity p) as [i|] eqn:Hpi; [|done]. rewrite run_lift, Hj.
    destruct (String.eqb i j) eqn:Hij; [|done]. intros [= <- <-].
    by rewrite run_get, run_lift, Hr, run_lift, Hg, Hp, run_lift, Hpi, run_lift, Hij.
  - rewrite run_lift. destruct (guard_not _ _ "decision index must be the next gapless index") as [[]|] eqn:Hx; [|done].
    unfold save. rewrite run_get, run_put, Hi. intros [= <- <-].
    rewrite run_get, run_lift, required_insert, run_lift. cbn [with_pending ep_status ep_pending_boundary].
    rewrite Hg, run_lift, Hj, run_lift. by rewrite String.eqb_refl.
Qed.

Lemma close_again w t s s' e' :
  store_inv s -> transition_ok t = true -> ~ colliding (Close w t) s -> is_ok (_identity t) = true ->
  close w t s = (s', Ok e') -> close w t s' = (s', Ok e').
Proof.
  intros [Hk Hinv] Ht Hc Hti. apply is_ok_exists in Hti as [j Hj]. unfold close. rewrite run_get, run_lift.
  destruct (_required _ _ _) as [e|] eqn:Hr; [|done]. apply required_Some in Hr as Hr'.
  destruct (Hk _ _ _ Hr') as [_ Hi].
  destruct (tr_decision_index (body t) <? transition_count e) eqn:Hlt.
  - rewrite run_lift. destruct (transition_at _ _) as [cur|] eqn:Hat; [|done].
    rewrite run_lift. destruct (_identity cur) as [i|] eqn:Hci; [|done]. rewrite run_lift, Hj.
    destruct (String.eqb i j) eqn:Hij; [|done]. intros [= <- <-].
    by rewrite run_get, run_lift, Hr, Hlt, run_lift, Hat, run_lift, Hci, run_lift, Hij.
  - destruct (ep_status e) eqn:Hst; try done. destruct (ep_pending_boundary e) as [p|] eqn:Hp; [|done].
    rewrite run_lift. destruct (_identity p) as [i|] eqn:Hpi; [|done]. rewrite run_lift.
    destruct (_identity (tr_boundary (body t))) as [k|] eqn:Hbi; [|done].
    destruct (String.eqb_spec i k) as [->|]; [|done]. unfold save. rewrite run_get, run_put, Hi.
    intros [= <- <-]. rewrite run_get, run_lift, required_insert.
    assert (Hidx : tr_decision_index (body t) = transition_count e).
    { destruct (identity_fields _ _ _ Hpi Hbi) as [Hidx _]; [intros Hcol; apply Hc; by exists e, p|].
      rewrite <- (transition_shape_index _ (transition_ok_shape _ Ht)), <- Hidx.
      by apply (ei_open e (Hinv _ _ _ Hr') Hst). }
    assert (transition_count (with_closed e t) = transition_count e + 1) as ->.
    { unfold transition_count, with_closed. cbn. rewrite length_app. cbn. lia. }
    rewrite (proj2 (Z.ltb_lt _ _)) by lia.
    by rewrite run_lift, transition_at_last, run_lift, Hj, run_lift, String.eqb_refl by done.
Qed.

Lemma finalize_complete_again w i s s' e' :
  finalize_complete w i s = (s', Ok e') -> finalize_complete w i s' = (s', Ok e').
Proof.
  unfold finalize_complete. rewrite run_get, run_lift. destruct (_required _ _ _) as [e|] eqn:Hr; [|done].
  destruct (ep_status e) eqn:Hst; [| |done].
  - rewrite run_lift. destruct (model_validate _) as [e1|] eqn:Hv; [|done].
    unfold save. rewrite run_get, run_put. intros [= <- <-]. rewrite run_get, run_lift, required_insert.
    apply model_validate_Ok in Hv as (-> & _). done.
  - intros [= <- <-]. by rewrite run_get, run_lift, Hr, Hst.
Qed.

Lemma finalize_incomplete_again w m s s' e' :
  keyed s -> finalize_incomplete w m s = (s', Ok e') -> finalize_incomplete w m s' = (s', Ok e').
Proof.
  intros Hk. unfold finalize_incomplete. rewrite run_get, run_lift.
  destruct (_required _ _ _) as [e|] eqn:Hr; [|done]. apply required_Some in Hr as Hr'.
  destruct (Hk _ _ _ Hr') as [_ Hi]. destruct (ep_status e) eqn:Hst; [|done|].
  - rewrite run_lift. destruct (model_validate _) as [e1|] eqn:Hv; [|done].
    unfold save. rewrite run_get, run_put, Hi. intros [= <- <-]. rewrite run_get, run_lift, required_insert.
    apply model_validate_Ok in Hv as (-> & _). cbn [with_status ep_status ep_incomplete_marker].
    by rewrite bool_decide_eq_true_2.
  - case_bool_decide as Hm; [|done]. intros [= <- <-].
    rewrite run_get, run_lift, Hr, Hst. by rewrite bool_decide_eq_true_2.
Qed.

(** Calls can be repeated: a call that succeeded returns the same episode
    when it is made again at once, and leaves the store as it is. *)
Theorem calls_repeat s c s' e :
  reachable s -> call_valid c -> call_hashable c -> ~ colliding c s ->
  serve c s = (s', Ok e) -> serve c s' = (s', Ok e).
Proof.
  intros [Hk Hi]%reachable_inv Hv Hh Hc. destruct c as [e0|w b|w t|w i|w m]; cbn [serve call_valid call_hashable] in *.
  - apply create_again, Hv.
  - by apply capture_again.
  - by apply close_again.
  - apply finalize_complete_again.
  - by apply finalize_incomplete_again.
Qed.

(** ** Episodes that can never be finalized

    [capture] does not compare the scope of the boundary with the episode's, and
    [close] copies without validation; only finalization checks the scope. *)

Definition ids_ok (o : MarlObservation) : bool := uuid_ok (mo_workspace_id o) && uuid_ok (mo_session_id o).

Definition doomed (e : MarlEpisodeV1) : Prop :=
  ep_status e = OPEN /\
  (existsb (foreign_transition e) (ep_transitions e) = true \/
   exists b, ep_pending_boundary e = Some b /\
     foreign_observation e (body (db_observation (body b))) = true /\
     ids_ok (body (db_observation (body b))) = true).

Lemma doomed_lifecycle e st m : doomed e -> lifecycle (with_status e st m) <> Ok tt.
Proof.
  intros [_ Hd] Hl. unfold lifecycle in Hl. inv_ok. cbn in *.
  destruct Hd as [Hf|(b & Hb & Hf & _)].
  - change (existsb (foreign_transition (with_status e st m)) (ep_transitions e)) with
      (existsb (foreign_transition e) (ep_transitions e)) in *. congruence.
  - rewrite Hb in *. change (foreign_observation (with_status e st m)) with (foreign_observation e) in *.
    congruence.
Qed.

Lemma doomed_evolves e e' :
  uuid_ok (ep_workspace_id e) = true -> uuid_ok (ep_session_id e) = true ->
  doomed e -> evolves e e' -> doomed e'.
Proof.
  intros Hw Hs Hd He. destruct He as [b Hst Hp Hb Hbi Hbd|t p i Hst Hp Ht Hti Hpi Hbi Hc|st m e1 Hst Hne Hm Hv].
  - destruct Hd as [_ [Hf|(b' & Hb' & _)]]; [|congruence]. split; [done|]. by left.
  - split; [done|]. left. cbn. rewrite existsb_app, orb_true_iff.
    destruct Hd as [_ [Hf|(b' & Hb' & Hf & Hids)]]; [by left|right]. cbn. rewrite orb_false_r.
    assert (b' = p) as -> by congruence.
    destruct (identity_fields _ _ _ Hpi Hbi Hc) as (_ & Hws & Hss).
    unfold foreign_transition. apply orb_true_iff. left. revert Hf.
    unfold foreign_observation, with_closed. cbn [ep_workspace_id ep_session_id].
    apply andb_true_iff in Hids as [Hi1 Hi2].
    rewrite !orb_true_iff, !negb_true_iff, !N.eqb_neq. intros [Hne|Hne]; [left|right]; intros Heq; apply Hne;
      apply uuid_str_inj; congruence.
  - exfalso. apply model_validate_Ok in Hv as (-> & _ & Hl). by apply doomed_lifecycle in Hl.
Qed.

(** One call of the store. *)
Definition serves (s s' : episodes) : Prop :=
  exists c r, call_valid c /\ ~ colliding c s /\ serve c s = (s', r).

(** An open episode whose pending boundary, or one of whose transitions,
    was observed in another workspace or session stays open for ever: whatever
    valid calls follow, it is never finalized, neither complete nor incomplete. *)
Theorem foreign_scope_never_finalizes s s' w i e :
  reachable s -> s !! (w, i) = Some e -> doomed e ->
  uuid_ok (ep_workspace_id e) = true -> uuid_ok (ep_session_id e) = true ->
  rtc serves s s' ->
  exists e', s' !! (w, i) = Some e' /\ ep_status e' = OPEN.
Proof.
  intros Hr He Hd Hw Hs Hrtc.
  enough (exists e', s' !! (w, i) = Some e' /\ doomed e') as (e' & He' & Hst & _) by (by exists e').
  revert e Hr He Hd Hw Hs. induction Hrtc as [s|s s1 s2 (c & r & Hv & Hc & Hsv) _ IH]; intros e Hr He Hd Hw Hs;
    [by exists e|].
  pose proof (serve_outcome c s (reachable_inv _ Hr) Hv Hc) as Ho. rewrite Hsv in Ho. cbn in Ho.
  assert (Hr1 : reachable s1) by (by apply (reach_call c s s1 r)).
  destruct Ho as [w' i' e0 He0|e0 -> Hn|w' i' e0 e1 He0 Hev|x]; try by apply (IH e).
  - apply (IH e); try done. rewrite lookup_insert_ne; [done|]. intros Heq. congruence.
  - destruct (decide ((w', i') = (w, i))) as [[= -> ->]|Hne].
    + assert (e0 = e) as -> by congruence. apply (IH e1); try done.
      * apply lookup_insert_eq.
      * by apply (doomed_evolves e).
      * by rewrite (proj1 (evolves_ids _ _ Hev)).
      * destruct Hev as [| |st m e1 _ _ _ [-> _]%model_validate_Ok]; done.
    + apply (IH e); try done. by rewrite lookup_insert_ne.
Qed.

End MarlStore.
