(* ===== verification/MarlBundle.v ===== *)
(** * Learning trajectories: rewards, registry and export

    [app/application/marl.py]: the exact reward vector, the registry of replay
    implementations, the limits on untrusted JSON and the export of a finalized
    episode as two canonical files.  An argument typed [Any] that should be a
    rational is [any_value]. *)

From Stdlib Require Import QArith Qreduction.
From S2P Require Import Prelude.
From S2P Require Import Sha256.
From S2P Require Import Json.
From S2P Require Import JsonLoads.
From S2P Require Import Symbolic.
From S2P Require Import ConsensusPorts.
From S2P Require Import Marl.
Import Marl.

Local Open Scope Z_scope.

Module MarlBundle.

(** ** The reward vector *)

Record reward_spec : Type := mkSpec {
  sp_metric_id : string;
  sp_metric_version : string;
  sp_implementation_id : string;
  sp_direction : RewardDirection
}.

Definition REWARD_SPECS : list reward_spec :=
  [mkSpec "ep-02" "1" "agora.reward.provenance-delta" HIGHER_BETTER;
   mkSpec "dh-03" "1" "agora.reward.attack-coverage-delta" HIGHER_BETTER;
   mkSpec "dh-02" "1" "agora.reward.disagreement-retention-delta" NO_DIRECTION;
   mkSpec "cq-03" "1" "agora.reward.flip-distance-delta" HIGHER_BETTER;
   mkSpec "ce-03" "1" "agora.reward.cost-delta" LOWER_BETTER].

Inductive any_value : Type :=
| AnyRational (r : RationalV1)
| AnyOther.

Record RewardInputV1 : Type := mkRewardInput {
  ri_pre_value : option any_value;
  ri_post_value : option any_value;
  ri_status : RewardStatus;
  ri_neutral_reason : option string;
  ri_source_hashes : list string
}.

Definition exact_delta (pre post : option any_value) (direction : RewardDirection) : res RationalV1 :=
  match pre, post with
  | Some (AnyRational a), Some (AnyRational b) =>
      let difference := Qred (fraction b - fraction a) in
      let difference := if bool_decide (direction = LOWER_BETTER) then Qopp difference else difference in
      from_fraction difference
  | _, _ => raise TypeErrorC "reward implementation requires exact rationals"
  end.

(** The field [RationalV1 | None] of the component. *)
Definition metric_value (v : option any_value) : res (option RationalV1) :=
  match v with
  | None => Ok None
  | Some (AnyRational r) => Ok (Some r)
  | Some AnyOther => raise ValidationErrorC "metric value must be a rational"
  end.

Definition build_component (episode_id : uuid) (decision_index ordinal : Z) (identity : uuid)
    (reward_input : RewardInputV1) (spec : reward_spec) : res (sealed RewardComponent) :=
  value ← (if bool_decide (ri_status reward_input = OBSERVED)
           then exact_delta (ri_pre_value reward_input) (ri_post_value reward_input) (sp_direction spec)
           else Ok rational_zero);
  pre ← metric_value (ri_pre_value reward_input);
  post ← metric_value (ri_post_value reward_input);
  create (mkReward identity episode_id decision_index ordinal (sp_metric_id spec) (sp_metric_version spec)
    (mkImplRef (sp_implementation_id spec) "1") (sp_direction spec) pre post value (ri_status reward_input)
    (ri_neutral_reason reward_input) (ri_source_hashes reward_input)).

(** [zip(component_ids, inputs, REWARD_SPECS, strict=True)] under [enumerate]. *)
Fixpoint build_from (episode_id : uuid) (decision_index ordinal : Z) (ids : list uuid)
    (inputs : list RewardInputV1) (specs : list reward_spec) : res (list (sealed RewardComponent)) :=
  match ids, inputs, specs with
  | [], [], [] => Ok []
  | i :: ids', r :: inputs', s :: specs' =>
      c ← build_component episode_id decision_index ordinal i r s;
      cs ← build_from episode_id decision_index (ordinal + 1) ids' inputs' specs';
      Ok (c :: cs)
  | _, _, _ => raise ValueErrorC "zip() arguments have different lengths"
  end.

Definition build_reward_vector (episode_id : uuid) (decision_index : Z) (component_ids : list uuid)
    (inputs : list RewardInputV1) : res (list (sealed RewardComponent)) :=
  build_from episode_id decision_index 0 component_ids inputs REWARD_SPECS.

(** ** The registry *)

(** What a registered function returns, or raises.  A feature is compared as
    JSON, a reward with a rational ([None] is any other value). *)
Abbreviation FeatureImplementation := (sealed SourceSnapshot -> res json).
Abbreviation RewardImplementation :=
  (option RationalV1 -> option RationalV1 -> RewardDirection -> res (option RationalV1)).
Abbreviation CoordinatorImplementation := (sealed DecisionBoundary -> res (sealed CoordinatorDecision)).

Record ImplementationRegistry : Type := mkRegistry {
  rg_features : gmap (string * string) FeatureImplementation;
  rg_rewards : gmap (string * string) RewardImplementation;
  rg_coordinators : gmap (string * string) CoordinatorImplementation;
  rg_credits : gset (string * string)
}.

Definition empty_registry : ImplementationRegistry := mkRegistry ∅ ∅ ∅ ∅.

Definition _key (ref : ImplementationRefV1) : string * string :=
  (implementation_id ref, implementation_version ref).

Definition _insert {F} (target : gmap (string * string) F) (ref : ImplementationRefV1) (function : F)
    : res (gmap (string * string) F) :=
  _ ← guard_not (is_some (target !! _key ref)) ValueErrorC "duplicate implementation";
  Ok (<[_key ref := function]> target).

Definition register_feature (ref : ImplementationRefV1) (f : FeatureImplementation) (g : ImplementationRegistry)
    : res ImplementationRegistry :=
  m ← _insert (rg_features g) ref f;
  Ok (mkRegistry m (rg_rewards g) (rg_coordinators g) (rg_credits g)).
Definition register_reward (ref : ImplementationRefV1) (f : RewardImplementation) (g : ImplementationRegistry)
    : res ImplementationRegistry :=
  m ← _insert (rg_rewards g) ref f;
  Ok (mkRegistry (rg_features g) m (rg_coordinators g) (rg_credits g)).
Definition register_coordinator (ref : ImplementationRefV1) (f : CoordinatorImplementation)
    (g : ImplementationRegistry) : res ImplementationRegistry :=
  m ← _insert (rg_coordinators g) ref f;
  Ok (mkRegistry (rg_features g) (rg_rewards g) m (rg_credits g)).
Definition register_credit (ref : ImplementationRefV1) (g : ImplementationRegistry) : res ImplementationRegistry :=
  _ ← guard_not (bool_decide (_key ref ∈ rg_credits g)) ValueErrorC "duplicate credit implementation";
  Ok (mkRegistry (rg_features g) (rg_rewards g) (rg_coordinators g) ({[_key ref]} ∪ rg_credits g)).

Definition feature (g : ImplementationRegistry) (ref : ImplementationRefV1) : option FeatureImplementation :=
  rg_features g !! _key ref.
Definition reward (g : ImplementationRegistry) (ref : ImplementationRefV1) : option RewardImplementation :=
  rg_rewards g !! _key ref.
Definition coordinator (g : ImplementationRegistry) (ref : ImplementationRefV1) : option CoordinatorImplementation :=
  rg_coordinators g !! _key ref.
Definition has_credit (g : ImplementationRegistry) (ref : ImplementationRefV1) : bool :=
  bool_decide (_key ref ∈ rg_credits g).

(** ** Limits on untrusted JSON *)

Record BundleLimits : Type := mkLimits {
  max_manifest_bytes : Z;
  max_trajectory_bytes : Z;
  max_records : Z;
  max_json_depth : Z;
  max_string_length : Z;
  max_array_items : Z
}.

Definition default_limits : BundleLimits :=
  mkLimits (256 * 1024) (64 * 1024 * 1024) 100000 64 1048576 100000.

(** [len] of a string given by its UTF-8 bytes. *)
Definition text_length (s : string) : Z :=
  Z.of_nat (length (List.filter (fun c => negb (continuation c)) (chars s))).

Section depth_and_size.
Variable limits : BundleLimits.

Definition check_text (depth : Z) (s : string) : res unit :=
  _ ← guard_not (max_json_depth limits <? depth) OverflowErrorC "JSON nesting exceeds limit";
  guard_not (max_string_length limits <? text_length s) OverflowErrorC "JSON string exceeds limit".

Fixpoint _depth_and_size (depth : Z) (value : json) : res unit :=
  match value with
  | JStr s => check_text depth s
  | JList l =>
      _ ← guard_not (max_json_depth limits <? depth) OverflowErrorC "JSON nesting exceeds limit";
      _ ← guard_not (max_array_items limits <? Z.of_nat (length l)) OverflowErrorC "JSON array exceeds limit";
      foldR (fun _ item => _depth_and_size (depth + 1) item) tt l
  | JObj l =>
      _ ← guard_not (max_json_depth limits <? depth) OverflowErrorC "JSON nesting exceeds limit";
      _ ← guard_not (max_array_items limits <? Z.of_nat (length l)) OverflowErrorC "JSON object exceeds limit";
      foldR (fun _ kv => _ ← check_text (depth + 1) (fst kv); _depth_and_size (depth + 1) (snd kv)) tt l
  | _ => guard_not (max_json_depth limits <? depth) OverflowErrorC "JSON nesting exceeds limit"
  end.

End depth_and_size.

(** ** Export *)

Definition TRAJECTORY_FILE : string := "trajectory.jsonl".
Definition MANIFEST_FILE : string := "manifest.json".

Record CanonicalTrajectoryBundle : Type := mkBundle { cb_manifest : string; cb_trajectory : string }.

Record TrajectoryManifestV1 : Type := mkManifest {
  tm_episode_id : uuid;
  tm_episode_status : EpisodeStatus;
  tm_environment_version : string;
  tm_code_identity : string;
  tm_observation_implementations : list ImplementationRefV1;
  tm_reward_implementations : list ImplementationRefV1;
  tm_credit_implementations : list ImplementationRefV1;
  tm_coordinator_implementations : list ImplementationRefV1;
  tm_trajectory_sha256 : string;
  tm_trajectory_byte_length : Z;
  tm_record_count : Z;
  tm_episode_hash : string
}.

Definition dump_manifest (m : TrajectoryManifestV1) : json :=
  JObj [("schema_version", jint 1); ("episode_id", juuid (tm_episode_id m));
    ("episode_status", JStr (episode_status_value (tm_episode_status m)));
    ("environment_version", JStr (tm_environment_version m)); ("code_identity", JStr (tm_code_identity m));
    ("observation_implementations", JList (map dump_ref (tm_observation_implementations m)));
    ("reward_implementations", JList (map dump_ref (tm_reward_implementations m)));
    ("credit_implementations", JList (map dump_ref (tm_credit_implementations m)));
    ("coordinator_implementations", JList (map dump_ref (tm_coordinator_implementations m)));
    ("trajectory_sha256", JStr (tm_trajectory_sha256 m));
    ("trajectory_byte_length", jint (tm_trajectory_byte_length m)); ("record_count", jint (tm_record_count m));
    ("episode_hash", JStr (tm_episode_hash m))].

Definition new_manifest (m : TrajectoryManifestV1) : res TrajectoryManifestV1 :=
  _ ← guard_not (negb (identifier_ok (tm_environment_version m) && digest_ok (tm_code_identity m)
        && digest_ok (tm_trajectory_sha256 m) && (0 <=? tm_trajectory_byte_length m)
        && (0 <=? tm_record_count m) && digest_ok (tm_episode_hash m)))
        ValidationErrorC "TrajectoryManifestV1";
  Ok m.

(** A line of the trajectory file. *)
Inductive record : Type :=
| RTransition (t : sealed Transition)
| RBoundary (b : sealed DecisionBoundary)
| RMarker (m : sealed IncompleteMarker).

Definition dump_record (r : record) : json :=
  match r with RTransition t => _dump t | RBoundary b => _dump b | RMarker m => _dump m end.

Inductive ref_attribute : Type := ObservationRefs | RewardRefs | CreditRefs | CoordinatorRefs.

Definition transition_refs (attribute : ref_attribute) (t : Transition) : list ImplementationRefV1 :=
  match attribute with
  | ObservationRefs =>
      map (fun o => mo_observation_implementation (body o))
        [db_observation (body (tr_boundary t)); tr_post_observation t]
  | RewardRefs => map (fun r => rw_reward_implementation (body r)) (tr_rewards t)
  | CreditRefs => map (fun c => cr_credit_implementation (body c)) (tr_credits t)
  | CoordinatorRefs => [cd_coordinator_implementation (body (db_coordinator_decision (body (tr_boundary t))))]
  end.

(** The values of a dictionary keyed by identity, in key order. *)
Definition _unique_refs (e : MarlEpisodeV1) (attribute : ref_attribute) : list ImplementationRefV1 :=
  let refs := flat_map (fun t => transition_refs attribute (body t)) (ep_transitions e) in
  let values := dict_of_list (map (fun r => (_key r, r)) refs) in
  map snd (sort_by (fun a b => pair_leb (fst a) (fst b)) values).

Definition newline : string := unchars [ascii_of_nat 10].

(** [b"".join(canonical_json(value) + b"\n" for value in values)] *)
Fixpoint jsonl (values : list json) : res string :=
  match values with
  | [] => Ok ""
  | v :: vs => line ← canonical_json v; rest ← jsonl vs; Ok (line +:+ newline +:+ rest)
  end.

Definition episode_records (e : MarlEpisodeV1) : list record :=
  map RTransition (ep_transitions e) ++ option_list RBoundary (ep_pending_boundary e)
  ++ option_list RMarker (ep_incomplete_marker e).

Definition episode_manifest (e : MarlEpisodeV1) (trajectory : string) (count : Z) (h : string)
    : TrajectoryManifestV1 :=
  mkManifest (ep_episode_id e) (ep_status e) (ep_environment_version e) (ep_code_identity e)
    (_unique_refs e ObservationRefs) (_unique_refs e RewardRefs) (_unique_refs e CreditRefs)
    (_unique_refs e CoordinatorRefs) ("sha256:" +:+ sha256_hex trajectory) (str_len trajectory) count h.

Definition export_episode (e : MarlEpisodeV1) : res CanonicalTrajectoryBundle :=
  _ ← guard_not (bool_decide (ep_status e = OPEN)) ValueErrorC "OPEN episode cannot be exported";
  let records := episode_records e in
  trajectory ← jsonl (map dump_record records);
  h ← episode_hash e;
  manifest ← new_manifest (episode_manifest e trajectory (Z.of_nat (length records)) h);
  text ← canonical_json (dump_manifest manifest);
  Ok (mkBundle (text +:+ newline) trajectory).

(** ** The reward vector is exact *)

Lemma opp_reduced (q : Q) : Qred (Qopp (Qred q)) = Qopp (Qred q).
Proof. by rewrite Qred_opp, Qcanon.Qred_involutive. Qed.

Lemma exact_delta_spec pre post d v :
  exact_delta pre post d = Ok v ->
  exists a b, pre = Some (AnyRational a) /\ post = Some (AnyRational b) /\ RationalV1_ok v = true /\
    (fraction v == if bool_decide (d = LOWER_BETTER) then fraction a - fraction b else fraction b - fraction a)%Q.
Proof.
  unfold exact_delta. destruct pre as [[a|]|]; [|done|done]. destruct post as [[b|]|]; [|done|done].
  intros Hv. exists a, b. split; [done|]. split; [done|]. case_bool_decide.
  - destruct (from_fraction_reduced (Qopp (Qred (fraction b - fraction a)))) as (r & Hr & Hok & Hf).
    rewrite opp_reduced in Hr, Hf. assert (r = v) as -> by congruence. split; [done|].
    rewrite Hf, Qred_correct. ring.
  - destruct (from_fraction_reduced (fraction b - fraction a)%Q) as (r & Hr & Hok & Hf).
    assert (r = v) as -> by congruence. split; [done|]. rewrite Hf. apply Qred_correct.
Qed.

(** What a component of the vector must be. *)
Record component_exact (episode_id : uuid) (decision_index ordinal : Z) (identity : uuid) (r : RewardInputV1)
    (s : reward_spec) (c : sealed RewardComponent) : Prop := {
  ce_place : rw_episode_id (body c) = episode_id /\ rw_decision_index (body c) = decision_index /\
             rw_ordinal (body c) = ordinal /\ rw_component_id (body c) = identity;
  ce_metric : rw_metric_id (body c) = sp_metric_id s /\ rw_direction (body c) = sp_direction s;
  ce_sealed : validate_hash c = Ok tt;
  ce_observed : ri_status r = OBSERVED ->
    exists a b, ri_pre_value r = Some (AnyRational a) /\ ri_post_value r = Some (AnyRational b) /\
      (fraction (rw_reward_value (body c))
       == if bool_decide (sp_direction s = LOWER_BETTER) then fraction a - fraction b else fraction b - fraction a)%Q;
  ce_neutral : ri_status r <> OBSERVED ->
    rw_reward_value (body c) = rational_zero /\ is_Some (ri_neutral_reason r)
}.

Lemma build_component_exact episode_id decision_index ordinal identity r s c :
  build_component episode_id decision_index ordinal identity r s = Ok c ->
  component_exact episode_id decision_index ordinal identity r s c.
Proof.
  unfold build_component. intros (value & Hval & Hc)%bind_Ok.
  apply bind_Ok in Hc as (pre & _ & Hc). apply bind_Ok in Hc as (post & _ & Hc).
  apply create_Ok in Hc as (Hb & Hck & Hh).
  split; rewrite ?Hb; cbn; try done.
  - intros Ho. rewrite bool_decide_eq_true_2 in Hval by done.
    destruct (exact_delta_spec _ _ _ _ Hval) as (a & b & Ha & Hb' & _ & Hf). by exists a, b.
  - intros Ho. rewrite bool_decide_eq_false_2 in Hval by done. injection Hval as <-. split; [done|].
    cbn in Hck. inv_ok. unfold reward_shape in Hck. cbn in Hck. inv_ok.
    rewrite bool_decide_eq_false_2 in Hck by done. apply guard_not_Ok, orb_false_iff in Hck as [_ Hn].
    by destruct (ri_neutral_reason r).
Qed.

Lemma build_from_exact episode_id decision_index ids inputs specs ordinal cs :
  build_from episode_id decision_index ordinal ids inputs specs = Ok cs ->
  length ids = length specs /\ length inputs = length specs /\ length cs = length specs /\
  forall k i r s c, ids !! k = Some i -> inputs !! k = Some r -> specs !! k = Some s -> cs !! k = Some c ->
    component_exact episode_id decision_index (ordinal + Z.of_nat k) i r s c.
Proof.
  revert ids inputs ordinal cs; induction specs as [|s specs IH]; intros [|i ids] [|r inputs] ordinal cs; cbn; try done.
  { by intros [= <-]. }
  intros (c & Hc & Hcs)%bind_Ok. apply bind_Ok in Hcs as (cs' & Hcs' & [= <-]).
  destruct (IH _ _ _ _ Hcs') as (H1 & H2 & H3 & H4). split; [lia|]. split; [lia|]. split; [cbn; lia|].
  intros [|k] i' r' s' c'; cbn.
  - intros [= <-] [= <-] [= <-] [= <-]. rewrite Z.add_0_r. by apply build_component_exact.
  - intros Hi Hr Hs Hc'. replace (ordinal + Z.of_nat (S k)) with (ordinal + 1 + Z.of_nat k) by lia. by apply H4.
Qed.

(** The reward vector is exact: when it is built there is one component per
    reward specification, in order and with the specification's metric and
    direction; an observed component's reward is the exact rational difference
    of its inputs, post minus pre, or pre minus post where lower is better; any
    other component is exactly zero and says why; and every component carries
    its own hash. *)
Theorem reward_vector_is_exact episode_id decision_index ids inputs cs :
  build_reward_vector episode_id decision_index ids inputs = Ok cs ->
  length cs = 5%nat /\
  forall k i r s c, ids !! k = Some i -> inputs !! k = Some r -> REWARD_SPECS !! k = Some s -> cs !! k = Some c ->
    component_exact episode_id decision_index (Z.of_nat k) i r s c.
Proof. intros (_ & _ & Hl & Hall)%build_from_exact. split; [exact Hl|exact Hall]. Qed.

(** ** The limits on untrusted JSON *)

(** How deep a value nests; the keys of an object nest like its values. *)
Fixpoint json_depth (v : json) : Z :=
  match v with
  | JList l => fold_right Z.max 0 (map (fun x => 1 + json_depth x) l)
  | JObj l => fold_right Z.max 0 (map (fun kv => 1 + json_depth (snd kv)) l)
  | _ => 0
  end.

(** Every string and key, array and object of a value is within the limits. *)
Fixpoint within (limits : BundleLimits) (v : json) : Prop :=
  match v with
  | JStr s => text_length s <= max_string_length limits
  | JList l => Z.of_nat (length l) <= max_array_items limits /\
               fold_right and True (map (within limits) l)
  | JObj l => Z.of_nat (length l) <= max_array_items limits /\
              fold_right and True (map (fun kv => text_length (fst kv) <= max_string_length limits
                                                  /\ within limits (snd kv)) l)
  | _ => True
  end.

Lemma max_le l d (m : Z) : fold_right Z.max 0 l + d <= m <-> d <= m /\ Forall (fun x => x + d <= m) l.
Proof.
  induction l as [|x l IH]; cbn; [split; [intros; split; [lia|constructor]|intros [? _]; lia]|].
  rewrite Forall_cons. split; [intros H; split; [|split; [|]]|intros (H1 & H2 & H3)].
  - lia.
  - lia.
  - apply IH. lia.
  - assert (fold_right Z.max 0 l + d <= m) by (apply IH; done). lia.
Qed.

Lemma fold_and {A} (P : A -> Prop) l : fold_right and True (map P l) <-> Forall P l.
Proof. induction l as [|x l IH]; cbn; [by split; constructor|]. rewrite Forall_cons. by rewrite IH. Qed.

Lemma guard_lt a b msg : guard_not (a <? b) OverflowErrorC msg = Ok tt <-> b <= a.
Proof. rewrite guard_not_Ok. rewrite Z.ltb_ge. done. Qed.

Lemma bind_unit (m : res unit) (k : res unit) : (_ ← m; k) = Ok tt <-> m = Ok tt /\ k = Ok tt.
Proof. destruct m as [[]|e]; cbn; split; [auto|by intros [_ ?]|done|by intros [? _]]. Qed.

(** The size check passes exactly the values within the limits: nested at
    most [max_json_depth] deep, no string or key longer, and no array or object
    larger, than allowed. *)
Theorem depth_and_size_is_exact limits depth v :
  _depth_and_size limits depth v = Ok tt <-> json_depth v + depth <= max_json_depth limits /\ within limits v.
Proof.
  revert depth; induction v as [|b|z|f|s|l IH|l IH] using json_ind'; intros depth; cbn [_depth_and_size json_depth within].
  1-4: rewrite guard_lt; cbn; split; [intros; split; [lia|done]|intros [? _]; lia].
  - unfold check_text. rewrite bind_unit, !guard_lt. split; intros [? ?]; split; lia.
  - rewrite !bind_unit, !guard_lt, foldR_checks, max_le, fold_and, Forall_map.
    assert (Hl : Forall (fun x => _depth_and_size limits (depth + 1) x = Ok tt) l <->
                 Forall (fun x => 1 + json_depth x + depth <= max_json_depth limits) l /\ Forall (within limits) l).
    { rewrite <- Forall_and. rewrite !Forall_forall in *. split; intros H x Hx; specialize (H x Hx);
        rewrite (IH x Hx) in *; (destruct H as [H1 H2]; split; [lia|done]). }
    rewrite Hl. tauto.
  - rewrite !bind_unit, !guard_lt, foldR_checks, max_le, fold_and, Forall_map.
    assert (Hl : Forall (fun kv => (_ ← check_text limits (depth + 1) (fst kv); _depth_and_size limits (depth + 1) (snd kv)) = Ok tt) l <->
                 Forall (fun kv => 1 + json_depth (snd kv) + depth <= max_json_depth limits) l /\
                 Forall (fun kv => text_length (fst kv) <= max_string_length limits /\ within limits (snd kv)) l).
    { rewrite <- Forall_and. rewrite !Forall_forall in *. unfold check_text.
      assert (Hn : forall w, 0 <= json_depth w).
      { clear. intros [| | | | |l|l]; cbn; try lia; induction l; cbn; lia. }
      split; intros H x Hx; specialize (H x Hx); rewrite !bind_unit, !guard_lt, (IH x Hx) in *;
        specialize (Hn (snd x)); intuition lia. }
    rewrite Hl. tauto.
Qed.

End MarlBundle.
