(* ===== verification/MarlVerify.v ===== *)
(** * Learning trajectories: hermetic verification

    [app/application/marl.py]: [verify_bundle] and what it calls, stage by stage:
    the entry set, the byte limits, decoding and parsing, the schema version, the
    closed schema, canonical encoding, the manifest, the order of records, every
    child hash, the references, the episode, and the replay with the registry.
    Each stage either returns the first failure or what the next stage needs.
    Decoding JSON text into a model is the validation library's:
    [decode_*] return [None] where it raises. *)

From Stdlib Require Import QArith.
From S2P Require Import Prelude.
From S2P Require Import PyDecimal.
From S2P Require Import Sha256.
From S2P Require Import Json.
From S2P Require Import JsonLoads.
From S2P Require Import Symbolic.
From S2P Require Import ConsensusPorts.
From S2P Require Import Marl.
From S2P Require Import MarlBundle.
Import Marl MarlBundle.

Local Open Scope Z_scope.

Module MarlVerify.

(** ** Results *)

Inductive ReplayOutcome : Type := VERIFIED | REPLAY_INCOMPLETE | FAILED.

Inductive FailureCode : Type :=
| BUNDLE_ENTRY_SET | RESOURCE_LIMIT_EXCEEDED | INVALID_UTF8 | INVALID_JSON | UNSUPPORTED_SCHEMA_VERSION
| SCHEMA_VIOLATION | NONCANONICAL_ENCODING | MANIFEST_MISMATCH | ORDER_VIOLATION | HASH_MISMATCH
| REFERENCE_MISMATCH | UNKNOWN_IMPLEMENTATION | REPLAY_MISMATCH | EPISODE_INCOMPLETE.

Inductive VerificationStage : Type :=
| BUNDLE | RESOURCE | DECODE | PARSE | SCHEMA | CANONICAL | MANIFEST | ORDER | HASH | REFERENCE
| IMPLEMENTATION | REPLAY | COMPLETENESS.

#[global] Instance ReplayOutcome_eq_dec : EqDecision ReplayOutcome.
Proof. solve_decision. Defined.
#[global] Instance FailureCode_eq_dec : EqDecision FailureCode.
Proof. solve_decision. Defined.
#[global] Instance VerificationStage_eq_dec : EqDecision VerificationStage.
Proof. solve_decision. Defined.

Record ReplayFailureV1 : Type := mkFailure {
  rf_code : FailureCode;
  rf_stage : VerificationStage;
  rf_file : string;
  rf_line : option Z;
  rf_decision_index : option Z;
  rf_detail : string;
  rf_expected_hash : option string;
  rf_actual_hash : option string
}.

Record ReplayVerificationV1 : Type := mkVerification {
  rv_outcome : ReplayOutcome;
  rv_integrity_valid : bool;
  rv_replay_verified : bool;
  rv_episode_id : option uuid;
  rv_checked_record_count : Z;
  rv_expected_trajectory_hash : option string;
  rv_actual_trajectory_hash : option string;
  rv_expected_episode_hash : option string;
  rv_actual_episode_hash : option string;
  rv_first_failure : option ReplayFailureV1
}.

#[global] Instance ReplayFailureV1_eq_dec : EqDecision ReplayFailureV1.
Proof. solve_decision. Defined.
#[global] Instance ReplayVerificationV1_eq_dec : EqDecision ReplayVerificationV1.
Proof. solve_decision. Defined.

(** [result_shape] *)
Definition result_shape (v : ReplayVerificationV1) : res unit :=
  let verified := bool_decide (rv_outcome v = VERIFIED) in
  _ ← guard_not (verified && (negb (rv_integrity_valid v) || negb (rv_replay_verified v)
                              || is_some (rv_first_failure v)))
        ValueErrorC "verified result shape is invalid";
  guard_not (negb verified && is_none (rv_first_failure v))
    ValueErrorC "non-verified result requires one first failure".

(** What a failure knows besides its code: the keyword arguments of [_failure]. *)
Record failure_info : Type := mkInfo {
  fi_episode_id : option uuid;
  fi_checked : Z;
  fi_line : option Z;
  fi_decision_index : option Z;
  fi_trajectory : option (string * string);
  fi_episode : option (string * string);
  fi_integrity_valid : bool;
  fi_outcome : ReplayOutcome
}.

Definition no_info : failure_info := mkInfo None 0 None None None None false FAILED.
Definition about (episode_id : uuid) : failure_info := mkInfo (Some episode_id) 0 None None None None false FAILED.

Definition _failure (code : FailureCode) (stage : VerificationStage) (file detail : string) (i : failure_info)
    : ReplayVerificationV1 :=
  let hash (o : option string) := if bool_decide (code = HASH_MISMATCH) then o else None in
  mkVerification (fi_outcome i) (fi_integrity_valid i) false (fi_episode_id i) (fi_checked i)
    (fst <$> fi_trajectory i) (snd <$> fi_trajectory i) (fst <$> fi_episode i) (snd <$> fi_episode i)
    (Some (mkFailure code stage file (fi_line i) (fi_decision_index i) detail
             (hash (fst <$> fi_episode i)) (hash (snd <$> fi_episode i)))).

(** A stage: the failure it returns, or its value. *)
Definition stage (A : Type) : Type := ReplayVerificationV1 + A.
#[global] Instance stage_ret : MRet stage := fun A a => inr a.
#[global] Instance stage_bind : MBind stage := fun A B f m =>
  match m with inl v => inl v | inr a => f a end.
Definition fail_when (cond : bool) (v : ReplayVerificationV1) : stage unit := if cond then inl v else inr tt.

(** ** Decoding and parsing *)

(** [data.splitlines(keepends=True)] on bytes. *)
Fixpoint splitlines_go (l cur : list ascii) : list string :=
  match l with
  | [] => match cur with [] => [] | _ => [unchars (rev cur)] end
  | c :: r =>
      if (nat_of_ascii c =? 10)%nat then unchars (rev (c :: cur)) :: splitlines_go r []
      else if (nat_of_ascii c =? 13)%nat then
        match r with
        | d :: r' => if (nat_of_ascii d =? 10)%nat
                     then unchars (rev (d :: c :: cur)) :: splitlines_go r' []
                     else unchars (rev (c :: cur)) :: splitlines_go r []
        | [] => [unchars (rev (c :: cur))]
        end
      else splitlines_go r (c :: cur)
  end.
Definition splitlines (s : string) : list string := splitlines_go (chars s) [].

Definition bom : list ascii := map ascii_of_nat [239; 187; 191]%nat.

(** [_parse_file]; the exceptions of the parser and of the size check are told
    apart by their class. *)
Definition _parse_file (data file : string) (limits : BundleLimits) (line : option Z) : stage json :=
  let info := mkInfo None 0 line None None None false FAILED in
  if negb (utf8_valid (chars data)) then inl (_failure INVALID_UTF8 DECODE file "invalid UTF-8" info) else
  let has_bom := is_some (after_prefix bom (chars data)) in
  let parse_text := unchars (default (chars data) (after_prefix bom (chars data))) in
  match (value ← loads parse_text; _ ← _depth_and_size limits 0 value; Ok value) with
  | Raise x =>
      if bool_decide (exn_cls x = OverflowErrorC)
      then inl (_failure RESOURCE_LIMIT_EXCEEDED RESOURCE file (exn_msg x) info)
      else inl (_failure INVALID_JSON PARSE file "invalid JSON" info)
  | Ok value =>
      _ ← fail_when has_bom (_failure NONCANONICAL_ENCODING CANONICAL file "UTF-8 BOM is forbidden" info);
      mret value
  end.

(** Every line, in order, numbered from one. *)
Fixpoint parse_lines (limits : BundleLimits) (n : Z) (lines : list string) : stage (list json) :=
  match lines with
  | [] => mret []
  | raw :: rest =>
      v ← _parse_file raw TRAJECTORY_FILE limits (Some n);
      vs ← parse_lines limits (n + 1) rest;
      mret (v :: vs)
  end.

(** [float(text) == 1]: the nearest binary64 of the decimal is one. *)
Definition float_is_one (text : string) : bool :=
  match dec_of_string text with
  | Ok d =>
      let q := if 0 <=? d_exp d then inject_Z (dint d * 10 ^ d_exp d)
               else (dint d # Z.to_pos (10 ^ (- d_exp d))) in
      Qle_bool ((2 ^ 54 - 1) # (2 ^ 54)) q && Qle_bool q ((2 ^ 53 + 1) # (2 ^ 53))
  | Raise _ => false
  end.

(** [_schema_version], and [version is not None and version != SCHEMA_VERSION]. *)
Definition _schema_version (v : json) : option json :=
  match v with
  | JObj l => match dict_get "schema_version" l with Some JNull => None | o => o end
  | _ => None
  end.
Definition equals_one (v : json) : bool :=
  match v with
  | JInt z => z =? 1
  | JBool b => b
  | JFloat text => float_is_one text
  | _ => false
  end.
Definition unsupported (v : json) : bool :=
  match _schema_version v with Some version => negb (equals_one version) | None => false end.

(** [enumerate(records_raw, 1)]: the line of the first unsupported version. *)
Fixpoint first_unsupported (n : Z) (l : list json) : option Z :=
  match l with
  | [] => None
  | v :: l' => if unsupported v then Some n else first_unsupported (n + 1) l'
  end.

Definition check_versions (manifest : json) (records : list json) : stage unit :=
  let fail file line :=
    inl (_failure UNSUPPORTED_SCHEMA_VERSION SCHEMA file "unsupported schema version"
           (mkInfo None 0 line None None None false FAILED)) in
  if unsupported manifest then fail MANIFEST_FILE None else
  match first_unsupported 1 records with
  | Some n => fail TRAJECTORY_FILE (Some n)
  | None =>
      if is_some (_schema_version manifest) then inr tt else fail MANIFEST_FILE None
  end.

(** ** Child hashes *)

Definition check_all {A} (f : A -> res unit) (l : list A) : res unit := foldR (fun _ x => f x) tt l.
Definition check_opt {A} (f : A -> res unit) (o : option A) : res unit :=
  match o with Some a => f a | None => Ok tt end.

Definition validate_source (s : sealed ObservationSource) : res unit :=
  _ ← validate_hash (os_snapshot (body s)); validate_hash s.

Definition validate_observation (o : sealed MarlObservation) : res unit :=
  _ ← check_all validate_hash (mo_features (body o));
  sh ← sources_hash (mo_sources (body o));
  _ ← guard_not (negb (String.eqb (mo_sources_hash (body o)) sh)) ValueErrorC "sources hash mismatch";
  fh ← features_hash (mo_features (body o));
  _ ← guard_not (negb (String.eqb (mo_features_hash (body o)) fh)) ValueErrorC "features hash mismatch";
  validate_hash o.

Definition validate_actions (b : sealed DecisionBoundary) : res unit :=
  _ ← check_opt validate_hash (db_proposed_action (body b));
  _ ← check_opt validate_hash (db_executed_action (body b));
  _ ← validate_hash (db_coordinator_decision (body b));
  validate_hash b.

Definition _validate_child_hashes (t : sealed Transition) : res unit :=
  let boundary := tr_boundary (body t) in
  let pre := db_observation (body boundary) in
  let post := tr_post_observation (body t) in
  _ ← check_all validate_source (mo_sources (body pre) ++ mo_sources (body post));
  _ ← check_all validate_observation [pre; post];
  _ ← validate_actions boundary;
  _ ← check_all validate_hash (tr_rewards (body t));
  _ ← check_all validate_hash (tr_credits (body t));
  validate_hash t.

Definition _validate_boundary_hashes (b : sealed DecisionBoundary) : res unit :=
  let observation := db_observation (body b) in
  _ ← check_all validate_source (mo_sources (body observation));
  _ ← check_all validate_hash (mo_features (body observation));
  _ ← validate_hash observation;
  validate_actions b.

Definition _validate_incomplete_hashes (b : sealed DecisionBoundary) (marker : option (sealed IncompleteMarker))
    : res unit :=
  _ ← _validate_boundary_hashes b;
  match marker with
  | None => raise ValueErrorC "incomplete marker boundary reference mismatch"
  | Some m =>
      _ ← guard_not (negb (bool_decide (im_boundary_hash (body m) = Some (own_hash b))))
            ValueErrorC "incomplete marker boundary reference mismatch";
      validate_hash m
  end.

(** ** Replay *)

(** Python's [==] on JSON values without floats: booleans are integers and the
    order of members does not matter. *)
Definition as_int (v : json) : option Z :=
  match v with JInt z => Some z | JBool b => Some (if b then 1 else 0) | _ => None end.
Fixpoint py_eqb (v w : json) {struct v} : bool :=
  match v, w with
  | JNull, JNull => true
  | JStr s, JStr t => String.eqb s t
  | JList l, JList m =>
      (fix go l m := match l, m with
                     | [], [] => true
                     | x :: l', y :: m' => py_eqb x y && go l' m'
                     | _, _ => false
                     end) l m
  | JObj l, JObj m =>
      (length l =? length m)%nat
      && (fix go l := match l with
                      | [] => true
                      | (k, x) :: l' => match dict_get k m with
                                        | Some y => py_eqb x y && go l'
                                        | None => false
                                        end
                      end) l
  | _, _ => match as_int v, as_int w with Some a, Some b => a =? b | _, _ => false end
  end.

(** [{item.source_hash: item.snapshot for item in observation.sources}] *)
Definition snapshots (o : sealed MarlObservation) : dict string (sealed SourceSnapshot) :=
  dict_of_list (map (fun s => (own_hash s, os_snapshot (body s))) (mo_sources (body o))).

Section replay.
Variable registry : ImplementationRegistry.

Definition replay_feature (o : sealed MarlObservation) (f : sealed ObservationFeature) : res unit :=
  match feature registry (mkImplRef (of_feature_id (body f)) (of_feature_version (body f))) with
  | None => raise LookupErrorC "unknown observation implementation"
  | Some function =>
      match of_source_hashes (body f) with
      | [h] =>
          match dict_get h (snapshots o) with
          | Some snapshot =>
              v ← function snapshot;
              guard_not (negb (py_eqb v (of_value (body f)))) RuntimeErrorC "observation feature replay mismatch"
          | None => raise ReferenceErrorC "feature source reference mismatch"
          end
      | _ => raise ReferenceErrorC "feature source reference mismatch"
      end
  end.

Definition replay_coordinator (b : sealed DecisionBoundary) : res unit :=
  match coordinator registry (cd_coordinator_implementation (body (db_coordinator_decision (body b)))) with
  | None => raise LookupErrorC "unknown coordinator implementation"
  | Some function =>
      d ← function b;
      guard_not (negb (bool_decide (d = db_coordinator_decision (body b))))
        RuntimeErrorC "coordinator replay mismatch"
  end.

Definition replay_reward (r : sealed RewardComponent) : res unit :=
  match reward registry (rw_reward_implementation (body r)) with
  | None => raise LookupErrorC "unknown reward implementation"
  | Some function =>
      if bool_decide (rw_status (body r) = OBSERVED) then
        computed ← function (rw_pre_metric_value (body r)) (rw_post_metric_value (body r)) (rw_direction (body r));
        guard_not (negb (bool_decide (computed = Some (rw_reward_value (body r)))))
          RuntimeErrorC "reward replay mismatch"
      else Ok tt
  end.

Definition replay_credit (c : sealed CreditAssignment) : res unit :=
  guard_not (negb (has_credit registry (cr_credit_implementation (body c))))
    LookupErrorC "unknown credit implementation".

Definition _replay_transition (t : sealed Transition) : res unit :=
  _ ← check_all (fun o => check_all (replay_feature o) (mo_features (body o)))
        [db_observation (body (tr_boundary (body t))); tr_post_observation (body t)];
  _ ← replay_coordinator (tr_boundary (body t));
  _ ← check_all replay_reward (tr_rewards (body t));
  check_all replay_credit (tr_credits (body t)).

End replay.

(** The classes below [LookupError], and below [ReferenceError] or
    [RuntimeError], among the exceptions of this model. *)
Definition is_lookup_error (c : exn_class) : bool := bool_decide (c ∈ [LookupErrorC; KeyErrorC; IndexErrorC]).
Definition is_replay_error (c : exn_class) : bool :=
  bool_decide (c ∈ [ReferenceErrorC; RuntimeErrorC; MarlDomainErrorC; MarlConflictErrorC]).

(** ** Verification *)

Definition transitions_of (l : list record) : list (sealed Transition) :=
  omap (fun r => match r with RTransition t => Some t | _ => None end) l.
Definition boundaries_of (l : list record) : list (sealed DecisionBoundary) :=
  omap (fun r => match r with RBoundary b => Some b | _ => None end) l.
Definition markers_of (l : list record) : list (sealed IncompleteMarker) :=
  omap (fun r => match r with RMarker m => Some m | _ => None end) l.

Definition is_marker (r : option record) : bool := match r with Some (RMarker _) => true | _ => false end.
Definition is_boundary (r : option record) : bool := match r with Some (RBoundary _) => true | _ => false end.

(** The boundary is the last record but one and the marker the last: with at
    most one of each, their place says which they are. *)
Definition misordered (records : list record) : bool :=
  let transitions := transitions_of records in
  let boundaries := boundaries_of records in
  let markers := markers_of records in
  let last_is_marker := is_marker (last records) in
  negb (bool_decide (map (fun t => tr_decision_index (body t)) transitions = range (length transitions)))
  || (1 <? length boundaries)%nat || (1 <? length markers)%nat
  || match boundaries with
     | b :: _ => negb (db_decision_index (body b) =? Z.of_nat (length transitions))
     | [] => false
     end
  || (nonempty boundaries
      && (negb (nonempty markers)
          || negb (last_is_marker && is_boundary (last (take (length records - 1) records)))))
  || (nonempty markers && negb last_is_marker).

Definition record_episode_ids (records : list record) : list uuid :=
  map (fun t => tr_episode_id (body t)) (transitions_of records)
  ++ map (fun b => db_episode_id (body b)) (boundaries_of records)
  ++ map (fun m => im_episode_id (body m)) (markers_of records).

Section verify.
Variable decode_manifest : string -> option TrajectoryManifestV1.
Variable decode_transition : string -> option (sealed Transition).
Variable decode_boundary : string -> option (sealed DecisionBoundary).
Variable decode_marker : string -> option (sealed IncompleteMarker).

(** Does a value of the key select the model? *)
Definition has_type (l : dict string json) (name : string) : bool :=
  match dict_get "record_type" l with Some (JStr s) => String.eqb s name | _ => false end.

(** One raw record; [None] where decoding raises. *)
Definition decode_record (l : dict string json) : option record :=
  match canonical_json (JObj l) with
  | Raise _ => None
  | Ok text =>
      if has_type l "incomplete" then RMarker <$> decode_marker text
      else if has_type l "decision_boundary" then RBoundary <$> decode_boundary text
      else RTransition <$> decode_transition text
  end.

Definition schema_violation (file detail : string) : ReplayVerificationV1 :=
  _failure SCHEMA_VIOLATION SCHEMA file detail no_info.

Fixpoint decode_records (raws : list json) : stage (list record) :=
  match raws with
  | [] => mret []
  | JObj l :: rest =>
      match decode_record l with
      | Some r => rs ← decode_records rest; mret (r :: rs)
      | None => inl (schema_violation MANIFEST_FILE "closed schema validation failed")
      end
  | _ :: _ => inl (schema_violation TRAJECTORY_FILE "record must be an object")
  end.

Definition decode_schema (manifest_value : json) (raws : list json) : stage (TrajectoryManifestV1 * list record) :=
  let violation := schema_violation MANIFEST_FILE "closed schema validation failed" in
  match canonical_json manifest_value with
  | Raise _ => inl violation
  | Ok text =>
      match decode_manifest text with
      | None => inl violation
      | Some manifest => records ← decode_records raws; mret (manifest, records)
      end
  end.

(** [not line.endswith(b"\n")] *)
Definition ends_with_newline (s : string) : bool :=
  match last (chars s) with Some c => (nat_of_ascii c =? 10)%nat | None => false end.

Definition same_text (bytes : string) (canonical : res string) : bool :=
  match canonical with Ok s => String.eqb bytes s | Raise _ => false end.

Definition check_canonical (manifest_bytes trajectory_bytes : string) (lines : list string)
    (manifest : TrajectoryManifestV1) (raws : list json) : stage unit :=
  let i := about (tm_episode_id manifest) in
  _ ← fail_when (negb (same_text manifest_bytes (jsonl [dump_manifest manifest])))
        (_failure NONCANONICAL_ENCODING CANONICAL MANIFEST_FILE "manifest is not one JCS object with final LF" i);
  fail_when (negb (forallb ends_with_newline lines) || negb (same_text trajectory_bytes (jsonl raws)))
    (_failure NONCANONICAL_ENCODING CANONICAL TRAJECTORY_FILE "trajectory records must be JCS with LF" i).

Definition actual_trajectory (trajectory_bytes : string) : string := "sha256:" +:+ sha256_hex trajectory_bytes.

Definition check_manifest (trajectory_bytes : string) (manifest : TrajectoryManifestV1) (count : nat) : stage unit :=
  let actual := actual_trajectory trajectory_bytes in
  fail_when (negb (String.eqb (tm_trajectory_sha256 manifest) actual)
             || negb (tm_trajectory_byte_length manifest =? str_len trajectory_bytes)
             || negb (tm_record_count manifest =? Z.of_nat count))
    (_failure MANIFEST_MISMATCH MANIFEST MANIFEST_FILE "trajectory digest, length, or count differs"
       (mkInfo (Some (tm_episode_id manifest)) 0 None None (Some (tm_trajectory_sha256 manifest, actual)) None
          false FAILED)).

(** What every later failure reports: the episode and the trajectory hashes. *)
Definition located (manifest : TrajectoryManifestV1) (actual : string) (checked : Z) (line decision_index : option Z)
    (episode : option (string * string)) (integrity_valid : bool) : failure_info :=
  mkInfo (Some (tm_episode_id manifest)) checked line decision_index
    (Some (tm_trajectory_sha256 manifest, actual)) episode integrity_valid FAILED.

(** The first transition with a bad hash: every exception of the check is a
    [ValueError]. *)
Fixpoint check_hashes (manifest : TrajectoryManifestV1) (actual : string) (index : Z)
    (transitions : list (sealed Transition)) : stage unit :=
  match transitions with
  | [] => mret tt
  | t :: rest =>
      match _validate_child_hashes t with
      | Ok _ => check_hashes manifest actual (index + 1) rest
      | Raise x =>
          inl (_failure HASH_MISMATCH HASH TRAJECTORY_FILE (exn_msg x)
                 (located manifest actual index (Some (index + 1)) (Some (tr_decision_index (body t))) None false))
      end
  end.

Definition check_pending (manifest : TrajectoryManifestV1) (actual : string) (count : Z)
    (boundaries : list (sealed DecisionBoundary)) (markers : list (sealed IncompleteMarker)) : stage unit :=
  match boundaries with
  | [] => mret tt
  | b :: _ =>
      match _validate_incomplete_hashes b (head markers) with
      | Ok _ => mret tt
      | Raise x =>
          inl (_failure HASH_MISMATCH HASH TRAJECTORY_FILE (exn_msg x)
                 (located manifest actual count (Some (count + 1)) (Some (db_decision_index (body b))) None false))
      end
  end.

Definition foreign_environment (manifest : TrajectoryManifestV1) (t : sealed Transition) : bool :=
  let env o := mo_environment_version (body o) in
  negb (String.eqb (env (db_observation (body (tr_boundary (body t))))) (tm_environment_version manifest))
  || negb (String.eqb (env (tr_post_observation (body t))) (tm_environment_version manifest)).

Definition check_references (manifest : TrajectoryManifestV1) (records : list record) : stage unit :=
  let i := about (tm_episode_id manifest) in
  _ ← fail_when (existsb (fun e => negb (e =? tm_episode_id manifest)%N) (record_episode_ids records))
        (_failure REFERENCE_MISMATCH REFERENCE TRAJECTORY_FILE "record episode id differs from manifest" i);
  fail_when (existsb (foreign_environment manifest) (transitions_of records))
    (_failure REFERENCE_MISMATCH REFERENCE TRAJECTORY_FILE "record environment version differs from manifest" i).

(** The arguments of [MarlEpisodeV1(...)], with the scope of a transition. *)
Definition declared_episode (manifest : TrajectoryManifestV1) (records : list record) (t : sealed Transition)
    : MarlEpisodeV1 :=
  let o := body (db_observation (body (tr_boundary (body t)))) in
  mkEpisode (tm_episode_id manifest) (mo_workspace_id o) (mo_session_id o) (tm_environment_version manifest)
    (tm_code_identity manifest) (tm_episode_status manifest) (transitions_of records) (head (boundaries_of records))
    (head (markers_of records)).

(** [MarlEpisodeV1(...)], with the scope of [transitions[0]]. *)
Definition build_episode (manifest : TrajectoryManifestV1) (records : list record) : stage MarlEpisodeV1 :=
  let failed := inl (_failure REFERENCE_MISMATCH REFERENCE TRAJECTORY_FILE
                       "episode references or lifecycle are inconsistent" (about (tm_episode_id manifest))) in
  match transitions_of records with
  | [] => failed
  | t :: _ =>
      match validate_episode (declared_episode manifest records t) with
      | Ok e => mret e
      | Raise _ => failed
      end
  end.

(** Replay in order: the failure, or the exception of a registered function
    that the code does not catch. *)
Fixpoint replay_all (registry : ImplementationRegistry) (info : Z -> sealed Transition -> failure_info) (index : Z)
    (transitions : list (sealed Transition)) : res (stage unit) :=
  match transitions with
  | [] => Ok (mret tt)
  | t :: rest =>
      match _replay_transition registry t with
      | Ok _ => replay_all registry info (index + 1) rest
      | Raise x =>
          if is_lookup_error (exn_cls x) then
            Ok (inl (_failure UNKNOWN_IMPLEMENTATION IMPLEMENTATION TRAJECTORY_FILE (exn_msg x) (info index t)))
          else if is_replay_error (exn_cls x) then
            Ok (inl (_failure REPLAY_MISMATCH REPLAY TRAJECTORY_FILE (exn_msg x) (info index t)))
          else Raise x
      end
  end.

(** What the static stages establish. *)
Record authentic : Type := mkAuthentic {
  au_manifest : TrajectoryManifestV1;
  au_records : list record;
  au_episode : MarlEpisodeV1;
  au_episode_hash : string
}.

(** Up to the closed schema: the manifest, the records and the raw values. *)
Definition read_bundle (manifest_bytes trajectory_bytes : string) (entry_names : list string)
    (limits : BundleLimits) : stage (TrajectoryManifestV1 * list record * list json) :=
  _ ← fail_when (negb (bool_decide (sort_by String.leb entry_names = [MANIFEST_FILE; TRAJECTORY_FILE])))
        (_failure BUNDLE_ENTRY_SET BUNDLE "bundle"
           "bundle must contain exactly manifest.json and trajectory.jsonl" no_info);
  let oversized := max_manifest_bytes limits <? str_len manifest_bytes in
  _ ← fail_when (oversized || (max_trajectory_bytes limits <? str_len trajectory_bytes))
        (_failure RESOURCE_LIMIT_EXCEEDED RESOURCE (if oversized then MANIFEST_FILE else TRAJECTORY_FILE)
           "file exceeds configured byte limit" no_info);
  manifest_value ← _parse_file manifest_bytes MANIFEST_FILE limits None;
  let lines := splitlines trajectory_bytes in
  _ ← fail_when (max_records limits <? Z.of_nat (length lines))
        (_failure RESOURCE_LIMIT_EXCEEDED RESOURCE TRAJECTORY_FILE "record count exceeds configured limit" no_info);
  raws ← parse_lines limits 1 lines;
  _ ← check_versions manifest_value raws;
  '(manifest, records) ← decode_schema manifest_value raws;
  mret (manifest, records, raws).

(** The episode hash; it is never an exception, because its preimage has no float. *)
Definition check_episode_hash (manifest : TrajectoryManifestV1) (actual : string) (count : Z) (e : MarlEpisodeV1)
    : stage string :=
  let h := match episode_hash e with Ok h => h | Raise _ => "" end in
  _ ← fail_when (negb (String.eqb h (tm_episode_hash manifest)))
        (_failure HASH_MISMATCH HASH MANIFEST_FILE "episode hash differs"
           (located manifest actual count None None (Some (tm_episode_hash manifest, h)) false));
  mret h.

(** From canonical encoding to the episode hash. *)
Definition check_bundle (manifest_bytes trajectory_bytes : string) (manifest : TrajectoryManifestV1)
    (records : list record) (raws : list json) : stage authentic :=
  let actual := actual_trajectory trajectory_bytes in
  let transitions := transitions_of records in
  let count := Z.of_nat (length transitions) in
  _ ← check_canonical manifest_bytes trajectory_bytes (splitlines trajectory_bytes) manifest raws;
  _ ← check_manifest trajectory_bytes manifest (length records);
  _ ← fail_when (misordered records)
        (_failure ORDER_VIOLATION ORDER TRAJECTORY_FILE
           "decision indices must be gapless and incomplete marker last" (about (tm_episode_id manifest)));
  _ ← check_hashes manifest actual 0 transitions;
  _ ← check_pending manifest actual count (boundaries_of records) (markers_of records);
  _ ← check_references manifest records;
  e ← build_episode manifest records;
  h ← check_episode_hash manifest actual count e;
  mret (mkAuthentic manifest records e h).

(** Everything but the replay. *)
Definition authenticate (manifest_bytes trajectory_bytes : string) (entry_names : list string)
    (limits : BundleLimits) : stage authentic :=
  '(manifest, records, raws) ← read_bundle manifest_bytes trajectory_bytes entry_names limits;
  check_bundle manifest_bytes trajectory_bytes manifest records raws.

Definition verify_bundle (manifest_bytes trajectory_bytes : string) (registry : ImplementationRegistry)
    (entry_names : list string) (limits : BundleLimits) : res ReplayVerificationV1 :=
  match authenticate manifest_bytes trajectory_bytes entry_names limits with
  | inl failure => Ok failure
  | inr a =>
      let manifest := au_manifest a in
      let count := Z.of_nat (length (au_records a)) in
      let actual := actual_trajectory trajectory_bytes in
      let episode := Some (tm_episode_hash manifest, au_episode_hash a) in
      replayed ← replay_all registry
        (fun index t => located manifest actual index (Some (index + 1)) (Some (tr_decision_index (body t)))
                          episode true)
        0 (transitions_of (au_records a));
      match replayed with
      | inl failure => Ok failure
      | inr _ =>
          if bool_decide (ep_status (au_episode a) = INCOMPLETE) then
            Ok (_failure EPISODE_INCOMPLETE COMPLETENESS TRAJECTORY_FILE
                  "trajectory is authentic but episode is incomplete"
                  (mkInfo (Some (tm_episode_id manifest)) count (Some count) None
                     (Some (tm_trajectory_sha256 manifest, actual)) episode true REPLAY_INCOMPLETE))
          else
            Ok (mkVerification VERIFIED true true (Some (tm_episode_id manifest)) count
                  (Some (tm_trajectory_sha256 manifest)) (Some actual) (Some (tm_episode_hash manifest))
                  (Some (au_episode_hash a)) None)
      end
  end.

End verify.
(** ** Lemmas on stages *)

Lemma stage_bind_inr {A B} (m : stage A) (f : A -> stage B) b :
  m ≫= f = inr b <-> exists a, m = inr a /\ f a = inr b.
Proof. destruct m as [v|a]; cbn; split; [done|by intros (? & ? & _)|eauto|by intros (? & [= <-] & ?)]. Qed.

Lemma fail_when_inr cond v u : fail_when cond v = inr u <-> cond = false.
Proof. by destruct cond, u. Qed.

Lemma check_all_Ok {A} (f : A -> res unit) l : check_all f l = Ok tt <-> Forall (fun x => f x = Ok tt) l.
Proof. apply foldR_checks. Qed.

Section verify_facts.
Variable decode_manifest : string -> option TrajectoryManifestV1.
Variable decode_transition : string -> option (sealed Transition).
Variable decode_boundary : string -> option (sealed DecisionBoundary).
Variable decode_marker : string -> option (sealed IncompleteMarker).
Local Abbreviation authenticate_ := (authenticate decode_manifest decode_transition decode_boundary decode_marker).
Local Abbreviation verify_ := (verify_bundle decode_manifest decode_transition decode_boundary decode_marker).

Lemma check_hashes_inr manifest actual index l u :
  check_hashes manifest actual index l = inr u -> Forall (fun t => _validate_child_hashes t = Ok tt) l.
Proof.
  revert index; induction l as [|t l IH]; intros index; cbn; [done|].
  destruct (_validate_child_hashes t) as [[]|x] eqn:Ht; [|done]. intros Hl. constructor; [done|by eapply IH].
Qed.

Lemma validate_episode_same e e' : validate_episode e = Ok e' -> e' = e.
Proof. unfold validate_episode. intros Hv. inv_ok. done. Qed.

Lemma build_episode_inr manifest records e :
  build_episode manifest records = inr e ->
  validate_episode e = Ok e /\ exists t, head (transitions_of records) = Some t /\ e = declared_episode manifest records t.
Proof.
  unfold build_episode. destruct (transitions_of records) as [|t l] eqn:Ht; [done|].
  destruct (validate_episode _) as [e'|x] eqn:Hv; [|done]. intros [= <-].
  pose proof (validate_episode_same _ _ Hv) as ->. split; [done|]. by exists t.
Qed.

Lemma episode_hash_total e : exists h, episode_hash e = Ok h.
Proof.
  apply is_ok_exists. unfold episode_hash, canonical_hash. rewrite content_hash_total. cbn [float_free forallb snd].
  destruct (ep_incomplete_marker e), (ep_pending_boundary e); cbn [jopt float_free andb]; rewrite ?andb_true_r;
    apply forallb_forall; by intros x (y & <- & _)%in_map_iff.
Qed.

(** What authentication establishes, apart from the reading of the files. *)
Record authenticated (mb tb : string) (raws : list json) (a : authentic) : Prop := {
  an_manifest_text : jsonl [dump_manifest (au_manifest a)] = Ok mb;
  an_trajectory_text : jsonl raws = Ok tb;
  an_sha256 : tm_trajectory_sha256 (au_manifest a) = actual_trajectory tb;
  an_length : tm_trajectory_byte_length (au_manifest a) = str_len tb;
  an_count : tm_record_count (au_manifest a) = Z.of_nat (length (au_records a));
  an_order : misordered (au_records a) = false;
  an_hashes : Forall (fun t => _validate_child_hashes t = Ok tt) (transitions_of (au_records a));
  an_pending : forall b, head (boundaries_of (au_records a)) = Some b ->
    _validate_incomplete_hashes b (head (markers_of (au_records a))) = Ok tt;
  an_ids : Forall (fun e => e = tm_episode_id (au_manifest a)) (record_episode_ids (au_records a));
  an_environment : forall t, t ∈ transitions_of (au_records a) ->
    mo_environment_version (body (db_observation (body (tr_boundary (body t))))) = tm_environment_version (au_manifest a) /\
    mo_environment_version (body (tr_post_observation (body t))) = tm_environment_version (au_manifest a);
  an_built : exists t, head (transitions_of (au_records a)) = Some t /\
    au_episode a = declared_episode (au_manifest a) (au_records a) t;
  an_episode : validate_episode (au_episode a) = Ok (au_episode a);
  an_episode_hash : episode_hash (au_episode a) = Ok (tm_episode_hash (au_manifest a));
  an_stated_hash : au_episode_hash a = tm_episode_hash (au_manifest a)
}.

Lemma an_transitions mb tb raws a : authenticated mb tb raws a -> ep_transitions (au_episode a) = transitions_of (au_records a).
Proof. intros Ha. by destruct (an_built _ _ _ _ Ha) as (t & _ & ->). Qed.

Lemma same_text_Ok bytes c : same_text bytes c = true -> c = Ok bytes.
Proof. unfold same_text. destruct c; [|done]. by intros ->%String.eqb_eq. Qed.

Lemma check_canonical_inr mb tb lines manifest raws u :
  check_canonical mb tb lines manifest raws = inr u ->
  jsonl [dump_manifest manifest] = Ok mb /\ jsonl raws = Ok tb.
Proof.
  unfold check_canonical. intros (u1 & Hm%fail_when_inr & Ht%fail_when_inr)%stage_bind_inr.
  apply orb_false_iff in Ht as [_ Ht]. by split; apply same_text_Ok, negb_false_iff.
Qed.

Lemma check_manifest_inr tb manifest n u :
  check_manifest tb manifest n = inr u ->
  tm_trajectory_sha256 manifest = actual_trajectory tb /\ tm_trajectory_byte_length manifest = str_len tb /\
  tm_record_count manifest = Z.of_nat n.
Proof.
  unfold check_manifest. rewrite fail_when_inr, !orb_false_iff, !negb_false_iff, String.eqb_eq, !Z.eqb_eq. tauto.
Qed.

Lemma existsb_false {A} (f : A -> bool) l : existsb f l = false <-> forall x, x ∈ l -> f x = false.
Proof.
  rewrite <- not_true_iff_false, existsb_exists. setoid_rewrite <- list_elem_of_In. split.
  - intros Hn x Hx. apply not_true_iff_false. intros Hf. apply Hn. by exists x.
  - intros Hall (x & Hx & Hf). by rewrite Hall in Hf.
Qed.

Lemma check_references_inr manifest records u :
  check_references manifest records = inr u ->
  Forall (fun e => e = tm_episode_id manifest) (record_episode_ids records) /\
  forall t, t ∈ transitions_of records ->
    mo_environment_version (body (db_observation (body (tr_boundary (body t))))) = tm_environment_version manifest /\
    mo_environment_version (body (tr_post_observation (body t))) = tm_environment_version manifest.
Proof.
  unfold check_references. intros (u1 & Hi%fail_when_inr & He%fail_when_inr)%stage_bind_inr.
  rewrite existsb_false in Hi. rewrite existsb_false in He. split.
  - apply Forall_forall. intros e Hin. by apply N.eqb_eq, negb_false_iff, Hi.
  - intros t Ht. specialize (He t Ht). unfold foreign_environment in He.
    by rewrite orb_false_iff, !negb_false_iff, !String.eqb_eq in He.
Qed.

Lemma check_pending_inr manifest actual n bs ms u :
  check_pending manifest actual n bs ms = inr u -> forall b, head bs = Some b -> _validate_incomplete_hashes b (head ms) = Ok tt.
Proof.
  unfold check_pending. destruct bs as [|b bs]; [done|]. cbn [head].
  destruct (_validate_incomplete_hashes b (head ms)) as [[]|x] eqn:Hx; [|done]. by intros _ b' [= <-].
Qed.

Lemma check_episode_hash_inr manifest actual count e h :
  check_episode_hash manifest actual count e = inr h ->
  episode_hash e = Ok (tm_episode_hash manifest) /\ h = tm_episode_hash manifest.
Proof.
  unfold check_episode_hash. destruct (episode_hash_total e) as (k & ->).
  intros (u & Hk%fail_when_inr & [= <-])%stage_bind_inr. apply negb_false_iff, String.eqb_eq in Hk. by subst k.
Qed.

Lemma check_bundle_inr mb tb manifest records raws a :
  check_bundle mb tb manifest records raws = inr a -> authenticated mb tb raws a.
Proof.
  unfold check_bundle. intros Ha.
  repeat match goal with
  | H : _ ≫= _ = inr _ |- _ => apply stage_bind_inr in H as (? & ? & H)
  | H : fail_when _ _ = inr _ |- _ => apply fail_when_inr in H
  end.
  injection Ha as <-.
  match goal with H : check_canonical _ _ _ _ _ = _ |- _ => apply check_canonical_inr in H as [? ?] end.
  match goal with H : check_manifest _ _ _ = _ |- _ => apply check_manifest_inr in H as (? & ? & ?) end.
  match goal with H : check_hashes _ _ _ _ = _ |- _ => apply check_hashes_inr in H end.
  match goal with H : check_references _ _ = _ |- _ => apply check_references_inr in H as [? ?] end.
  match goal with H : check_pending _ _ _ _ _ = _ |- _ => pose proof (check_pending_inr _ _ _ _ _ _ H) end.
  match goal with H : build_episode _ _ = _ |- _ => apply build_episode_inr in H as (? & ?) end.
  match goal with H : check_episode_hash _ _ _ _ = _ |- _ => apply check_episode_hash_inr in H as (? & ?) end.
  by split.
Qed.

Lemma authenticate_inr mb tb names limits a :
  authenticate_ mb tb names limits = inr a ->
  exists raws, read_bundle decode_manifest decode_transition decode_boundary decode_marker mb tb names limits
    = inr (au_manifest a, au_records a, raws) /\ authenticated mb tb raws a.
Proof.
  unfold MarlVerify.authenticate. intros ([[manifest records] raws] & Hr & Ha)%stage_bind_inr.
  exists raws. split; [|by eapply check_bundle_inr]. rewrite Hr. revert Ha. unfold check_bundle. intros Ha.
  repeat match goal with H : _ ≫= _ = inr _ |- _ => apply stage_bind_inr in H as (? & ? & H) end.
  by injection Ha as <-.
Qed.

(** ** Replay *)

Lemma replay_all_inr registry info index l u :
  replay_all registry info index l = Ok (inr u) -> Forall (fun t => _replay_transition registry t = Ok tt) l.
Proof.
  revert index; induction l as [|t l IH]; intros index; cbn [replay_all]; [done|].
  destruct (_replay_transition registry t) as [[]|x] eqn:Ht; [intros Hl; constructor; [done|by apply (IH _ Hl)]|].
  destruct (is_lookup_error _); [done|]. by destruct (is_replay_error _).
Qed.

(** What a failure of the replay looks like. *)
Lemma replay_all_inl registry info index l v :
  (forall i t, fi_outcome (info i t) = FAILED) ->
  replay_all registry info index l = Ok (inl v) -> rv_outcome v = FAILED /\ is_some (rv_first_failure v) = true.
Proof.
  intros Hi. revert index; induction l as [|t l IH]; intros index; cbn [replay_all]; [done|].
  destruct (_replay_transition registry t) as [u|x]; [apply IH|].
  destruct (is_lookup_error _); [intros [= <-]; by split; [apply Hi|]|].
  destruct (is_replay_error _); [intros [= <-]; by split; [apply Hi|]|done].
Qed.

Lemma replay_all_ok registry info index l :
  Forall (fun t => _replay_transition registry t = Ok tt) l -> replay_all registry info index l = Ok (inr tt).
Proof. intros Hl. revert index. induction Hl as [|t l Ht _ IH]; intros index; [done|]. cbn [replay_all]. by rewrite Ht, IH. Qed.

Lemma verify_bundle_cases mb tb registry names limits v :
  verify_ mb tb registry names limits = Ok v ->
  (exists x, authenticate_ mb tb names limits = inl x /\ v = x) \/
  (exists a, authenticate_ mb tb names limits = inr a /\
     ((rv_outcome v = FAILED /\ is_some (rv_first_failure v) = true) \/
      (Forall (fun t => _replay_transition registry t = Ok tt) (transitions_of (au_records a)) /\
       rv_integrity_valid v = true /\
       (rv_replay_verified v = is_none (rv_first_failure v)) /\
       rv_outcome v = (if bool_decide (ep_status (au_episode a) = INCOMPLETE) then REPLAY_INCOMPLETE else VERIFIED) /\
       is_none (rv_first_failure v) = bool_decide (rv_outcome v = VERIFIED)))).
Proof.
  unfold MarlVerify.verify_bundle. destruct (authenticate_ mb tb names limits) as [x|a]; [intros [= <-]; left; by exists x|].
  intros Hv. right. exists a. split; [done|]. apply bind_Ok in Hv as ([f|u] & Hr & Hv).
  - left. injection Hv as <-. eapply replay_all_inl; [|exact Hr]. done.
  - right. apply replay_all_inr in Hr. split; [done|]. revert Hv. case_bool_decide; by intros [= <-].
Qed.

(** A failure before the replay. *)
Definition plain_failure (v : ReplayVerificationV1) : Prop :=
  rv_outcome v = FAILED /\ rv_integrity_valid v = false /\ rv_replay_verified v = false /\
  is_some (rv_first_failure v) = true.

Definition fails_plainly {A} (m : stage A) : Prop := forall v, m = inl v -> plain_failure v.

Lemma fails_bind {A B} (m : stage A) (f : A -> stage B) :
  fails_plainly m -> (forall a, fails_plainly (f a)) -> fails_plainly (m ≫= f).
Proof. intros Hm Hf v. destruct m as [x|a]; cbn; [by intros [= <-]; apply Hm|apply Hf]. Qed.

Lemma fails_when cond v : plain_failure v -> fails_plainly (fail_when cond v).
Proof. intros Hv w. unfold fail_when. by destruct cond; intros [= <-]. Qed.

Lemma fails_ret {A} (a : A) : fails_plainly (mret a).
Proof. by intros v. Qed.

Lemma parse_file_fails data file limits line : fails_plainly (_parse_file data file limits line).
Proof.
  unfold _parse_file. intros v. destruct (negb _); [by intros [= <-]|].
  destruct (loads _ ≫= _) as [value|x]; [|destruct (bool_decide _); by intros [= <-]].
  apply fails_bind; [by apply fails_when|]. intros; apply fails_ret.
Qed.

Lemma parse_lines_fails limits n l : fails_plainly (parse_lines limits n l).
Proof.
  revert n; induction l as [|raw l IH]; intros n; cbn; [apply fails_ret|].
  apply fails_bind; [apply parse_file_fails|]. intros. apply fails_bind; [apply IH|]. intros; apply fails_ret.
Qed.

Lemma check_versions_fails m l : fails_plainly (check_versions m l).
Proof.
  unfold check_versions. intros v. destruct (unsupported m); [by intros [= <-]|].
  destruct (first_unsupported 1 l); [by intros [= <-]|]. destruct (is_some _); [done|by intros [= <-]].
Qed.

Lemma decode_schema_fails m l :
  fails_plainly (decode_schema decode_manifest decode_transition decode_boundary decode_marker m l).
Proof.
  unfold decode_schema. intros v. destruct (canonical_json m); [|by intros [= <-]].
  destruct (decode_manifest _); [|by intros [= <-]]. apply fails_bind; [|intros; apply fails_ret].
  induction l as [|[] l IH]; cbn; try (by intros ? [= <-]).
  destruct (decode_record _ _ _ _); [|by intros ? [= <-]]. apply fails_bind; [apply IH|]. intros; apply fails_ret.
Qed.

Lemma check_hashes_fails manifest actual index l : fails_plainly (check_hashes manifest actual index l).
Proof.
  revert index; induction l as [|t l IH]; intros index; cbn; [apply fails_ret|].
  destruct (_validate_child_hashes t); [apply IH|by intros ? [= <-]].
Qed.

Lemma check_pending_fails manifest actual n bs ms : fails_plainly (check_pending manifest actual n bs ms).
Proof.
  unfold check_pending. destruct bs as [|b bs]; [apply fails_ret|].
  destruct (_validate_incomplete_hashes b _); [apply fails_ret|by intros ? [= <-]].
Qed.

Lemma build_episode_fails manifest records : fails_plainly (build_episode manifest records).
Proof.
  unfold build_episode. destruct (transitions_of records); [by intros ? [= <-]|].
  destruct (validate_episode _); [apply fails_ret|by intros ? [= <-]].
Qed.

Lemma authenticate_fails mb tb names limits : fails_plainly (authenticate_ mb tb names limits).
Proof.
  unfold MarlVerify.authenticate, read_bundle, check_bundle, check_canonical, check_manifest, check_references,
    check_episode_hash.
  repeat lazymatch goal with
  | |- fails_plainly (_ ≫= _) => apply fails_bind
  | |- fails_plainly (fail_when _ _) => by apply fails_when
  | |- fails_plainly (mret _) => apply fails_ret
  | |- fails_plainly _ =>
      first [ apply parse_file_fails | apply parse_lines_fails | apply check_versions_fails
            | apply decode_schema_fails | apply check_hashes_fails | apply check_pending_fails
            | apply build_episode_fails ]
  | |- forall _ : _ * _ * _, _ => intros [[? ?] ?]; cbn zeta iota beta
  | |- forall _ : _ * _, _ => intros [? ?]; cbn zeta iota beta
  | |- forall _, _ => intros ?; cbn zeta
  end.
Qed.

(** What the files decode to, within the limits. *)
Record read_as (mb tb : string) (names : list string) (limits : BundleLimits) (raws : list json) (a : authentic)
    : Prop := {
  dc_names : sort_by String.leb names = [MANIFEST_FILE; TRAJECTORY_FILE];
  dc_size : str_len mb <= max_manifest_bytes limits /\ str_len tb <= max_trajectory_bytes limits;
  dc_count : Z.of_nat (length (splitlines tb)) <= max_records limits;
  dc_lines : parse_lines limits 1 (splitlines tb) = inr raws;
  dc_manifest : exists value text, _parse_file mb MANIFEST_FILE limits None = inr value /\
    canonical_json value = Ok text /\ decode_manifest text = Some (au_manifest a);
  dc_records : Forall2 (fun raw r => exists l, raw = JObj l /\
    decode_record decode_transition decode_boundary decode_marker l = Some r) raws (au_records a)
}.

Lemma decode_records_inr raws rs :
  decode_records decode_transition decode_boundary decode_marker raws = inr rs ->
  Forall2 (fun raw r => exists l, raw = JObj l /\ decode_record decode_transition decode_boundary decode_marker l = Some r) raws rs.
Proof.
  revert rs; induction raws as [|[| | | | | |l] raws IH]; intros rs; cbn [decode_records]; try done.
  { intros [= <-]. constructor. }
  destruct (decode_record _ _ _ l) as [x|] eqn:Hx; [|done]. intros (rs' & Hrs & [= <-])%stage_bind_inr.
  constructor; [by exists l|by apply IH].
Qed.

Lemma decode_schema_inr value raws m rs :
  decode_schema decode_manifest decode_transition decode_boundary decode_marker value raws = inr (m, rs) ->
  (exists text, canonical_json value = Ok text /\ decode_manifest text = Some m) /\
  decode_records decode_transition decode_boundary decode_marker raws = inr rs.
Proof.
  unfold decode_schema. destruct (canonical_json value) as [text|] eqn:Ht; [|done].
  destruct (decode_manifest text) as [m1|] eqn:Hm; [|done].
  intros (rs1 & Hrs & [= -> ->])%stage_bind_inr. split; [by exists text|done].
Qed.

Lemma read_bundle_read_as mb tb names limits a raws :
  read_bundle decode_manifest decode_transition decode_boundary decode_marker mb tb names limits
    = inr (au_manifest a, au_records a, raws) ->
  read_as mb tb names limits raws a.
Proof.
  unfold read_bundle. intros Hr.
  apply stage_bind_inr in Hr as (? & Hn%fail_when_inr & Hr). apply stage_bind_inr in Hr as (? & Hz%fail_when_inr & Hr).
  apply stage_bind_inr in Hr as (value & Hv & Hr). apply stage_bind_inr in Hr as (? & Hc%fail_when_inr & Hr).
  apply stage_bind_inr in Hr as (raws' & Hl & Hr). apply stage_bind_inr in Hr as (? & _ & Hr).
  apply stage_bind_inr in Hr as ([m rs] & Hd & [= -> -> ->]).
  apply decode_schema_inr in Hd as [(text & Ht & Hm) Hrs].
  apply negb_false_iff, bool_decide_eq_true in Hn. apply orb_false_iff in Hz as [Hz1%Z.ltb_ge Hz2%Z.ltb_ge].
  apply Z.ltb_ge in Hc.
  split; [done|done|done|done|by exists value, text|by apply decode_records_inr].
Qed.

(** ** Registered functions that raise only what the replay catches *)

Definition caught {A} (r : res A) : Prop :=
  match r with Ok _ => True | Raise x => is_lookup_error (exn_cls x) || is_replay_error (exn_cls x) = true end.

Record well_behaved (g : ImplementationRegistry) : Prop := {
  wb_features : forall k f s, rg_features g !! k = Some f -> caught (f s);
  wb_rewards : forall k f a b d, rg_rewards g !! k = Some f -> caught (f a b d);
  wb_coordinators : forall k f b, rg_coordinators g !! k = Some f -> caught (f b)
}.

Lemma caught_bind {A B} (m : res A) (f : A -> res B) : caught m -> (forall a, caught (f a)) -> caught (m ≫= f).
Proof. destruct m; cbn; auto. Qed.

Lemma caught_guard cond c msg :
  is_lookup_error c || is_replay_error c = true -> caught (guard_not cond c msg).
Proof. by destruct cond. Qed.

Lemma caught_all {A} (f : A -> res unit) l : (forall x, caught (f x)) -> caught (check_all f l).
Proof.
  intros Hf. unfold check_all. induction l as [|x l IH]; cbn [foldR]; [done|]. apply caught_bind; [done|].
  by intros [].
Qed.

Lemma replay_transition_caught g t : well_behaved g -> caught (_replay_transition g t).
Proof.
  intros [Hf Hr Hc]. unfold _replay_transition.
  apply caught_bind; [|intros _; apply caught_bind; [|intros _; apply caught_bind; [|intros _]]].
  - apply caught_all. intros o. apply caught_all. intros f. unfold replay_feature, feature.
    destruct (rg_features g !! _) as [fn|] eqn:Hfn; [|done]. destruct (of_source_hashes _) as [|h []]; try done.
    destruct (dict_get h _); [|done]. apply caught_bind; [by eapply Hf|]. intros. by apply caught_guard.
  - unfold replay_coordinator, coordinator. destruct (rg_coordinators g !! _) as [fn|] eqn:Hfn; [|done].
    apply caught_bind; [by eapply Hc|]. intros. by apply caught_guard.
  - apply caught_all. intros r. unfold replay_reward, reward.
    destruct (rg_rewards g !! _) as [fn|] eqn:Hfn; [|done]. case_bool_decide; [|done].
    apply caught_bind; [by eapply Hr|]. intros. by apply caught_guard.
  - apply caught_all. intros c. by apply caught_guard.
Qed.

Lemma replay_all_answers g info index l : well_behaved g -> exists m, replay_all g info index l = Ok m.
Proof.
  intros Hg. revert index; induction l as [|t l IH]; intros index; cbn [replay_all]; [by eexists|].
  pose proof (replay_transition_caught g t Hg) as Ht.
  destruct (_replay_transition g t) as [|x]; [apply IH|]. cbn in Ht.
  destruct (is_lookup_error _); [by eexists|]. destruct (is_replay_error _); [by eexists|done].
Qed.

(** ** What verification means *)

(** Every answer of [verify_bundle] has the documented shape: VERIFIED
    exactly without a first failure, with both flags set; a bundle whose
    integrity was not established is FAILED; and the verification answers at all
    whenever the registered functions raise only what the replay catches. *)
Theorem verification_shape mb tb registry names limits :
  (forall v, verify_ mb tb registry names limits = Ok v ->
     result_shape v = Ok tt /\ (rv_outcome v = VERIFIED <-> rv_first_failure v = None) /\
     (rv_outcome v = VERIFIED -> rv_integrity_valid v = true /\ rv_replay_verified v = true) /\
     (rv_integrity_valid v = false -> rv_outcome v = FAILED)) /\
  (well_behaved registry -> exists v, verify_ mb tb registry names limits = Ok v).
Proof.
  split.
  - intros v Hv. apply verify_bundle_cases in Hv as [(x & Hx & ->)|(a & Ha & [[Ho Hf]|(_ & Hi & Hr & Ho & Hf)])].
    + destruct (authenticate_fails _ _ _ _ _ Hx) as (Ho & Hi & Hr & Hf). unfold result_shape.
      rewrite Ho, Hi. destruct (rv_first_failure x); [|done]. done.
    + unfold result_shape. rewrite Ho. destruct (rv_first_failure v); [|done]. done.
    + unfold result_shape. rewrite Ho, Hi, Hr in *. destruct (rv_first_failure v), (bool_decide _); done.
  - intros Hg. unfold MarlVerify.verify_bundle. destruct (authenticate_ mb tb names limits) as [x|a]; [by eexists|].
    destruct (replay_all_answers registry
      (fun index t => located (au_manifest a) (actual_trajectory tb) index (Some (index + 1))
         (Some (tr_decision_index (body t))) (Some (tm_episode_hash (au_manifest a), au_episode_hash a)) true)
      0 (transitions_of (au_records a)) Hg) as [m ->].
    destruct m as [f|u]; cbn; [by eexists|]. destruct (bool_decide _); by eexists.
Qed.

(** C19. VERIFIED is earned: the two files are the manifest and the trajectory, in
    canonical form.  The manifest's bytes are the canonical text of the manifest
    they decode to, the trajectory's those of its JSON values, one per line,
    which decode one by one to the records.  The manifest states the trajectory's
    digest, length and count; every hash inside every transition, and of a
    pending boundary with its marker, verifies; all records belong to the
    manifest's episode and all observations to its environment; the episode made
    of the manifest and the records passes its lifecycle check and has the stated
    hash; it is not INCOMPLETE; and every feature, decision, reward and credit
    was replayed with the registry. *)
Theorem verified_is_genuine mb tb registry names limits v :
  verify_ mb tb registry names limits = Ok v -> rv_outcome v = VERIFIED ->
  exists a raws,
    read_as mb tb names limits raws a /\ authenticated mb tb raws a /\
    Forall (fun t => _replay_transition registry t = Ok tt) (ep_transitions (au_episode a)) /\
    ep_status (au_episode a) <> INCOMPLETE.
Proof.
  intros Hv Ho. apply verify_bundle_cases in Hv as [(x & Hx & ->)|(a & Ha & [[Hfo Hf]|(Hr & _ & _ & Hst & _)])].
  - destruct (authenticate_fails _ _ _ _ _ Hx) as (Hfo & _). congruence.
  - congruence.
  - destruct (authenticate_inr _ _ _ _ _ Ha) as (raws & Hread & Hauth).
    exists a, raws. split; [by apply read_bundle_read_as|]. split; [done|]. split; [by rewrite (an_transitions _ _ _ _ Hauth)|].
    intros Hi. rewrite bool_decide_eq_true_2 in Hst by done. congruence.
Qed.

(** The manifest pins the trajectory: if two trajectories pass the integrity
    checks with the same manifest bytes, they are the same bytes, or a collision
    of SHA-256. *)
Theorem manifest_pins_trajectory mb tb tb' r r' names limits v v' :
  verify_bundle decode_manifest decode_transition decode_boundary decode_marker mb tb r names limits = Ok v ->
  verify_bundle decode_manifest decode_transition decode_boundary decode_marker mb tb' r' names limits = Ok v' ->
  rv_integrity_valid v = true -> rv_integrity_valid v' = true ->
  tb = tb' \/ (tb <> tb' /\ sha256_hex tb = sha256_hex tb').
Proof.
  assert (Hauth : forall t g w, verify_ mb t g names limits = Ok w -> rv_integrity_valid w = true ->
    exists m value text, tm_trajectory_sha256 m = actual_trajectory t /\
      _parse_file mb MANIFEST_FILE limits None = inr value /\ canonical_json value = Ok text /\
      decode_manifest text = Some m).
  { intros t g w Hw Hi. unfold MarlVerify.verify_bundle in Hw.
    destruct (authenticate_ mb t names limits) as [x|a] eqn:Ha.
    - injection Hw as <-. destruct (authenticate_fails _ _ _ _ _ Ha) as (_ & Hi' & _). congruence.
    - destruct (authenticate_inr _ _ _ _ _ Ha) as (raws & Hread & Hau).
      destruct (dc_manifest _ _ _ _ _ _ (read_bundle_read_as _ _ _ _ _ _ Hread)) as (value & text & Hp & Hc & Hd).
      exists (au_manifest a), value, text. split; [apply Hau|done]. }
  intros Hv Hv' Hi Hi'. destruct (Hauth _ _ _ Hv Hi) as (m & value & text & Hm & Hp & Hc & Hd).
  destruct (Hauth _ _ _ Hv' Hi') as (m' & value' & text' & Hm' & Hp' & Hc' & Hd').
  assert (value' = value) as -> by congruence. assert (text' = text) as -> by congruence.
  assert (m' = m) as -> by congruence.
  destruct (decide (tb = tb')) as [|Hne]; [by left|right]. split; [done|].
  apply (prefix_inj "sha256:"). unfold actual_trajectory in *. congruence.
Qed.

End verify_facts.

End MarlVerify.
