(* ===== verification/MarlRoundTrip.v ===== *)
(** * Learning trajectories: what is exported verifies

    [export_episode] and [verify_bundle] of [app/application/marl.py] together:
    the two files written for a complete episode are read back as the same
    manifest and records, pass every check, and replay.  The hypotheses are the
    ones the code relies on: the hashes of the episode were computed by its
    constructors, its strings are ASCII, it is within the limits, the decoder
    inverts the canonical text, and the registry reproduces what was captured. *)

From S2P Require Import Prelude.
From S2P Require Import Sha256.
From S2P Require Import Json.
From S2P Require Import JsonLoads.
From S2P Require Import Symbolic.
From S2P Require Import ConsensusPorts.
From S2P Require Import Marl.
From S2P Require Import MarlBundle.
From S2P Require Import MarlVerify.
Import Marl MarlBundle MarlVerify.

Local Open Scope Z_scope.

Module MarlRoundTrip.

(** ** Reading one line *)

Definition plain (v : json) : bool := readable v && ascii_text v.
Definition fits (limits : BundleLimits) (v : json) : Prop := _depth_and_size limits 0 (json_norm v) = Ok tt.

Lemma plain_float_free v : plain v = true -> float_free v = true.
Proof. intros [Hr _]%andb_true_iff. by apply readable_float_free. Qed.

Lemma printable_ascii c : printable c = true -> ascii_char c = true.
Proof. destruct c as [[] [] [] [] [] [] [] []]; intros Hc; try discriminate Hc; reflexivity. Qed.

Lemma canonical_chars v s :
  plain v = true -> canonical_json v = Ok s -> forallb printable (chars s) = true.
Proof.
  intros Hv Hs. pose proof (plain_float_free v Hv) as Hf. apply andb_true_iff in Hv as [Hr Ha].
  destruct (canonical_json_total v Hf) as (s' & Hs' & Hc). assert (s' = s) as -> by congruence.
  rewrite Hc. apply print_printable; [by apply json_norm_float_free|by apply ascii_text_norm].
Qed.

Lemma utf8_ascii l : forallb ascii_char l = true -> utf8_valid l = true.
Proof.
  induction l as [|c l IH]; [done|]. cbn [forallb utf8_valid]. intros [Hc Hl]%andb_true_iff.
  unfold byte_in. change (char_in 0 127 c) with (ascii_char c). rewrite Hc. by apply IH.
Qed.

Lemma no_bom l : forallb ascii_char l = true -> after_prefix bom l = None.
Proof.
  destruct l as [|c l]; [done|]. cbn [forallb]. intros [Hc _]%andb_true_iff.
  destruct c as [[] [] [] [] [] [] [] []]; try discriminate Hc; reflexivity.
Qed.

Lemma parse_canonical v s file limits line :
  plain v = true -> fits limits v -> canonical_json v = Ok s ->
  _parse_file (s +:+ newline) file limits line = inr (json_norm v).
Proof.
  intros Hv Hfit Hs. pose proof (canonical_chars v s Hv Hs) as Hp.
  assert (Ha : forallb ascii_char (chars (s +:+ newline)) = true).
  { rewrite chars_app, forallb_app, andb_true_iff. split; [|reflexivity].
    rewrite forallb_forall in *. intros c Hc. by apply printable_ascii, Hp. }
  unfold _parse_file. rewrite (utf8_ascii _ Ha), (no_bom _ Ha). cbn [negb is_some is_none default from_option id].
  rewrite unchars_chars. apply andb_true_iff in Hv as [Hr _]. unfold newline.
  rewrite (loads_line v s Hr Hs). cbn [mbind res_bind]. unfold fits in Hfit. by rewrite Hfit.
Qed.

(** ** Lines of a file *)

Definition line_of (v : json) : string :=
  match canonical_json v with Ok s => s +:+ newline | Raise _ => "" end.

Lemma splitlines_line l rest cur :
  forallb printable l = true ->
  splitlines_go (l ++ ascii_of_nat 10 :: rest) cur
  = unchars (rev cur ++ l ++ [ascii_of_nat 10]) :: splitlines_go rest [].
Proof.
  revert cur; induction l as [|c l IH]; intros cur; cbn [forallb app splitlines_go].
  - done.
  - intros [Hc Hl]%andb_true_iff. unfold printable, char_in in Hc.
    apply andb_true_iff in Hc as [Hc%Nat.leb_le _].
    rewrite (proj2 (Nat.eqb_neq _ 10)), (proj2 (Nat.eqb_neq _ 13)) by lia.
    rewrite IH by done. cbn [rev]. by rewrite <- app_assoc.
Qed.

Lemma jsonl_lines vs :
  Forall (fun v => plain v = true) vs ->
  exists t, jsonl vs = Ok t /\ splitlines t = map line_of vs /\
    Forall (fun v => exists s, canonical_json v = Ok s /\ line_of v = s +:+ newline) vs.
Proof.
  induction 1 as [|v vs Hv _ IH]; [by exists ""|].
  destruct IH as (t & Ht & Hl & Hall).
  destruct (canonical_json_total v (plain_float_free v Hv)) as (s & Hs & _).
  assert (Hline : line_of v = s +:+ newline) by (unfold line_of; by rewrite Hs).
  exists (s +:+ newline +:+ t). cbn [jsonl]. rewrite Hs, Ht. split; [done|]. split.
  - unfold splitlines in *. rewrite !chars_app. change (chars newline) with [ascii_of_nat 10]. cbn [app].
    rewrite splitlines_line by (by apply (canonical_chars v)). rewrite Hl. cbn [map rev app]. f_equal.
    rewrite Hline, <- (unchars_chars (s +:+ newline)), chars_app. done.
  - constructor; [by exists s|done].
Qed.

Lemma parse_lines_canonical limits vs n :
  Forall (fun v => plain v = true /\ fits limits v) vs ->
  parse_lines limits n (map line_of vs) = inr (map json_norm vs).
Proof.
  intros Hvs. revert n; induction Hvs as [|v vs [Hv Hf] _ IH]; intros n; [done|]. cbn [map parse_lines].
  destruct (canonical_json_total v (plain_float_free v Hv)) as (s & Hs & _).
  assert (line_of v = s +:+ newline) as -> by (unfold line_of; by rewrite Hs).
  rewrite (parse_canonical v s _ limits _ Hv Hf Hs). cbn [mbind stage_bind]. by rewrite IH.
Qed.

Lemma jsonl_norm vs : Forall (fun v => float_free v = true) vs -> jsonl (map json_norm vs) = jsonl vs.
Proof. induction 1 as [|v vs Hv _ IH]; [done|]. cbn [map jsonl]. by rewrite (canonical_norm v Hv), IH. Qed.

Lemma lines_end vs :
  Forall (fun v => exists s, canonical_json v = Ok s /\ line_of v = s +:+ newline) vs ->
  forallb ends_with_newline (map line_of vs) = true.
Proof.
  induction 1 as [|v vs (s & _ & Hl) _ IH]; [done|]. cbn [map forallb]. rewrite IH, andb_true_r, Hl.
  unfold ends_with_newline. rewrite chars_app. change (chars newline) with [ascii_of_nat 10].
  by rewrite last_snoc.
Qed.

(** ** Looking into the records *)

(** The keys of a record are distinct. *)
Ltac distinct_keys := cbn [map fst app preimage]; apply (bool_decide_eq_true_1 _); vm_compute; reflexivity.

Lemma transition_members (t : sealed Transition) :
  exists m, json_norm (_dump t) = JObj m /\ dict_get "schema_version" m = Some (jint 1) /\
    dict_get "record_type" m = Some (JStr "transition").
Proof.
  assert (Hn : NoDup (map fst (preimage (body t) ++ [(hash_field (A := Transition), JStr (own_hash t))])))
    by distinct_keys.
  destruct (dict_get_norm _ "schema_version" (jint 1) Hn) as (m & Hm & Hs); [reflexivity|].
  destruct (dict_get_norm _ "record_type" (JStr "transition") Hn) as (m' & Hm' & Hr); [reflexivity|].
  exists m. unfold _dump. split; [exact Hm|]. split; [exact Hs|].
  assert (m' = m) as <- by congruence. exact Hr.
Qed.

Lemma manifest_members m :
  exists d, json_norm (dump_manifest m) = JObj d /\ dict_get "schema_version" d = Some (jint 1).
Proof.
  destruct (dict_get_norm (match dump_manifest m with JObj l => l | _ => [] end) "schema_version" (jint 1))
    as (d & Hd & Hs); [distinct_keys|reflexivity|]. by exists d.
Qed.

Lemma supported_of m : dict_get "schema_version" m = Some (jint 1) -> unsupported (JObj m) = false.
Proof. intros Hm. unfold unsupported, _schema_version. by rewrite Hm. Qed.

Lemma no_unsupported l n : Forall (fun v => unsupported v = false) l -> first_unsupported n l = None.
Proof. intros Hl. revert n; induction Hl as [|v l Hv _ IH]; intros n; [done|]. cbn. rewrite Hv. apply IH. Qed.

Lemma versions_pass m ts :
  check_versions (json_norm (dump_manifest m)) (map json_norm (map _dump (ts : list (sealed Transition)))) = inr tt.
Proof.
  destruct (manifest_members m) as (d & Hd & Hs). unfold check_versions. rewrite Hd, (supported_of d Hs).
  rewrite no_unsupported.
  - unfold _schema_version. by rewrite Hs.
  - rewrite map_map. apply Forall_map, Forall_forall. intros t _.
    destruct (transition_members t) as (mt & Ht & Hv & _). rewrite Ht. by apply supported_of.
Qed.

Lemma transitions_of_map ts : transitions_of (map RTransition ts) = ts.
Proof. unfold transitions_of. induction ts as [|t ts IH]; [done|]. cbn. by rewrite IH. Qed.

Lemma boundaries_of_map ts : boundaries_of (map RTransition ts) = [].
Proof. unfold boundaries_of. by induction ts. Qed.

Lemma markers_of_map ts : markers_of (map RTransition ts) = [].
Proof. unfold markers_of. by induction ts. Qed.

(** ** Export, then verify *)

Section round_trip.
Variable decode_manifest : string -> option TrajectoryManifestV1.
Variable decode_transition : string -> option (sealed Transition).
Variable decode_boundary : string -> option (sealed DecisionBoundary).
Variable decode_marker : string -> option (sealed IncompleteMarker).
Variable registry : ImplementationRegistry.
Variable limits : BundleLimits.

(** The decoder gives back the value whose canonical text it reads. *)
Definition decodes {A} (decode : string -> option A) (dump : A -> json) (a : A) : Prop :=
  forall text, canonical_json (dump a) = Ok text -> decode text = Some a.

(** What makes the bundle of an episode readable: the values the constructors
    leave, the limits, and a decoder that inverts the text. *)
Record checkable (e : MarlEpisodeV1) (b : CanonicalTrajectoryBundle) (manifest : TrajectoryManifestV1) : Prop := {
  ck_valid : validate_episode e = Ok e;
  ck_manifest : exists h, episode_hash e = Ok h /\
    manifest = episode_manifest e (cb_trajectory b) (Z.of_nat (length (ep_transitions e))) h;
  ck_hashes : Forall (fun t => _validate_child_hashes t = Ok tt) (ep_transitions e);
  ck_environment : existsb (foreign_environment manifest) (ep_transitions e) = false;
  ck_records : Forall (fun t => plain (_dump t) = true /\ fits limits (_dump t)) (ep_transitions e);
  ck_plain_manifest : plain (dump_manifest manifest) = true /\ fits limits (dump_manifest manifest);
  ck_sizes : str_len (cb_manifest b) <= max_manifest_bytes limits /\
    str_len (cb_trajectory b) <= max_trajectory_bytes limits /\
    Z.of_nat (length (ep_transitions e)) <= max_records limits;
  ck_decode_manifest : decodes decode_manifest dump_manifest manifest;
  ck_decode_transitions : Forall (decodes decode_transition _dump) (ep_transitions e)
}.

(** The files of an episode without open state. *)
Record written (e : MarlEpisodeV1) (b : CanonicalTrajectoryBundle) (manifest : TrajectoryManifestV1) : Prop := {
  wr_closed : ep_pending_boundary e = None /\ ep_incomplete_marker e = None /\ ep_transitions e <> [];
  wr_trajectory : jsonl (map _dump (ep_transitions e)) = Ok (cb_trajectory b);
  wr_manifest : exists text, canonical_json (dump_manifest manifest) = Ok text /\ cb_manifest b = text +:+ newline
}.

Lemma complete_parts e : validate_episode e = Ok e -> ep_status e = COMPLETE ->
  ep_pending_boundary e = None /\ ep_incomplete_marker e = None /\ ep_transitions e <> [].
Proof.
  intros Hv Hc. unfold validate_episode in Hv. inv_ok.
  match goal with H : lifecycle e = _ |- _ => unfold lifecycle in H; inv_ok end. rewrite Hc in *.
  match goal with H : complete_shape e = _ |- _ => unfold complete_shape in H; inv_ok end.
  destruct (ep_pending_boundary e), (ep_incomplete_marker e); try done. repeat split. intros Hts. by rewrite Hts in *.
Qed.

Lemma export_written e b manifest :
  checkable e b manifest -> ep_status e = COMPLETE -> export_episode e = Ok b -> written e b manifest.
Proof.
  intros Hck Hc Hb. destruct (complete_parts e (ck_valid _ _ _ Hck) Hc) as (Hpb & Him & Hne).
  destruct (ck_manifest _ _ _ Hck) as (h & Hh & Hm). unfold export_episode, episode_records in Hb.
  rewrite Hpb, Him in Hb. cbn [option_list] in Hb. rewrite !app_nil_r, map_map, length_map in Hb. inv_ok.
  cbn [cb_trajectory cb_manifest] in *. split; [done|done|].
  match goal with H : new_manifest _ = Ok _ |- _ => unfold new_manifest in H; inv_ok end.
  eexists. split; [|reflexivity].
  match goal with H : episode_hash e = Ok ?g |- context [episode_manifest _ _ _ ?k] =>
    assert (k = g) as -> by congruence end. done.
Qed.

Section episode.
Context (e : MarlEpisodeV1) (b : CanonicalTrajectoryBundle) (manifest : TrajectoryManifestV1).
Hypothesis Hck : checkable e b manifest.
Hypothesis Hwr : written e b manifest.
Local Abbreviation ts := (ep_transitions e).
Local Abbreviation dumps := (map _dump ts).

Lemma files : jsonl dumps = Ok (cb_trajectory b) /\
  exists text, canonical_json (dump_manifest manifest) = Ok text /\ cb_manifest b = text +:+ newline.
Proof. exact (conj (wr_trajectory _ _ _ Hwr) (wr_manifest _ _ _ Hwr)). Qed.

Lemma dumps_fit : Forall (fun v => plain v = true /\ fits limits v) dumps.
Proof. apply Forall_map. exact (ck_records _ _ _ Hck). Qed.

Lemma dumps_plain : Forall (fun v => plain v = true) dumps.
Proof. eapply Forall_impl; [exact dumps_fit|]. by intros v [Hv _]. Qed.

Lemma dumps_float_free : Forall (fun v => float_free v = true) dumps.
Proof. eapply Forall_impl; [exact dumps_plain|]. exact plain_float_free. Qed.

Lemma trajectory_lines : splitlines (cb_trajectory b) = map line_of dumps /\
  Forall (fun v => exists s, canonical_json v = Ok s /\ line_of v = s +:+ newline) dumps.
Proof.
  destruct files as [Hj _]. destruct (jsonl_lines dumps dumps_plain) as (t & Ht & Hl & Hall).
  assert (t = cb_trajectory b) as -> by congruence. done.
Qed.

Lemma decode_one t : plain (_dump t) = true -> decodes decode_transition _dump t ->
  exists m, json_norm (_dump t) = JObj m /\
    decode_record decode_transition decode_boundary decode_marker m = Some (RTransition t).
Proof.
  intros Hp Hd. destruct (transition_members t) as (m & Hm & _ & Hr). exists m. split; [done|].
  destruct (canonical_json_total (_dump t) (plain_float_free _ Hp)) as (s & Hs & _).
  unfold decode_record, has_type. rewrite Hr, <- Hm, (canonical_norm _ (plain_float_free _ Hp)), Hs.
  cbn [String.eqb Ascii.eqb Bool.eqb]. by rewrite (Hd s Hs).
Qed.

Lemma decode_all : decode_records decode_transition decode_boundary decode_marker (map json_norm dumps)
  = inr (map RTransition ts).
Proof.
  pose proof (ck_records _ _ _ Hck) as Hr. pose proof (ck_decode_transitions _ _ _ Hck) as Hd.
  clear Hck Hwr. induction ts as [|t l IH]; [done|].
  apply Forall_cons in Hr as [[Hp _] Hr], Hd as [Ht Hd].
  destruct (decode_one t Hp Ht) as (m & Hm & Hdec). cbn [map decode_records]. by rewrite Hm, Hdec, (IH Hr Hd).
Qed.

Lemma read_exported :
  read_bundle decode_manifest decode_transition decode_boundary decode_marker (cb_manifest b) (cb_trajectory b)
    [MANIFEST_FILE; TRAJECTORY_FILE] limits = inr (manifest, map RTransition ts, map json_norm dumps).
Proof.
  destruct files as [_ (text & Ht & Hm)], trajectory_lines as [Hl _].
  destruct (ck_plain_manifest _ _ _ Hck) as [Hp Hf], (ck_sizes _ _ _ Hck) as (Hs1 & Hs2 & Hs3).
  unfold read_bundle. change (sort_by String.leb [MANIFEST_FILE; TRAJECTORY_FILE]) with [MANIFEST_FILE; TRAJECTORY_FILE].
  rewrite bool_decide_true by done. cbn [negb fail_when].
  rewrite (proj2 (Z.ltb_ge _ _) Hs1), (proj2 (Z.ltb_ge _ _) Hs2). cbn [orb fail_when mbind stage_bind].
  rewrite Hm, (parse_canonical _ _ _ _ _ Hp Hf Ht). cbn [mbind stage_bind].
  rewrite Hl, !length_map, (proj2 (Z.ltb_ge _ _) Hs3). cbn [fail_when mbind stage_bind].
  rewrite (parse_lines_canonical _ _ _ dumps_fit). cbn [mbind stage_bind].
  rewrite versions_pass. cbn [mbind stage_bind]. unfold decode_schema.
  rewrite (canonical_norm _ (plain_float_free _ Hp)), Ht, (ck_decode_manifest _ _ _ Hck _ Ht), decode_all.
  reflexivity.
Qed.

Lemma exported_canonical :
  check_canonical (cb_manifest b) (cb_trajectory b) (splitlines (cb_trajectory b)) manifest
    (map json_norm dumps) = inr tt.
Proof.
  destruct files as [Hj (text & Ht & Hm)], trajectory_lines as [Hl Hends].
  unfold check_canonical. cbn [jsonl]. rewrite Ht. cbn [mbind res_bind].
  rewrite (jsonl_norm _ dumps_float_free), Hj, Hl, (lines_end _ Hends). unfold same_text.
  change (newline +:+ "") with newline. rewrite Hm, !String.eqb_refl. reflexivity.
Qed.

(** The episode's records are its transitions. *)
Lemma record_lists : transitions_of (map RTransition ts) = ts /\ boundaries_of (map RTransition ts) = [] /\
  markers_of (map RTransition ts) = [].
Proof. by rewrite transitions_of_map, boundaries_of_map, markers_of_map. Qed.

Lemma episode_checked :
  map (fun t => tr_decision_index (body t)) ts = range (length ts) /\
  existsb (fun t => negb (tr_episode_id (body t) =? ep_episode_id e)%N) ts = false /\
  existsb (foreign_transition e) ts = false.
Proof.
  pose proof (ck_valid _ _ _ Hck) as Hv. unfold validate_episode in Hv. inv_ok.
  match goal with H : lifecycle e = _ |- _ => unfold lifecycle in H; inv_ok end.
  repeat match goal with H : negb (bool_decide _) = false |- _ => apply negb_false_iff, bool_decide_eq_true in H end.
  done.
Qed.

Lemma exported_ordered : misordered (map RTransition ts) = false.
Proof.
  destruct record_lists as (Ht & Hb & Hm), episode_checked as (Hi & _).
  unfold misordered. rewrite Ht, Hb, Hm, Hi, bool_decide_true by done. reflexivity.
Qed.

Lemma exported_hashes n actual : check_hashes manifest actual n ts = inr tt.
Proof.
  pose proof (ck_hashes _ _ _ Hck) as Hh. clear Hck Hwr. revert n. induction ts as [|t l IH]; intros n; [done|].
  apply Forall_cons in Hh as [Ht Hh]. cbn [check_hashes]. by rewrite Ht, IH.
Qed.

Lemma manifest_fields : tm_episode_id manifest = ep_episode_id e /\ tm_episode_status manifest = ep_status e /\
  tm_environment_version manifest = ep_environment_version e /\ tm_code_identity manifest = ep_code_identity e.
Proof. destruct (ck_manifest _ _ _ Hck) as (h & _ & ->). done. Qed.

Lemma exported_references : check_references manifest (map RTransition ts) = inr tt.
Proof.
  destruct record_lists as (Ht & Hb & Hm), episode_checked as (_ & He & _), manifest_fields as (Hid & _).
  unfold check_references, record_episode_ids. rewrite Ht, Hb, Hm, Hid, !app_nil_r.
  rewrite (ck_environment _ _ _ Hck). replace (existsb _ _) with false; [done|].
  rewrite <- He. clear. induction ts as [|t l IH]; [done|]. cbn [map existsb]. by rewrite IH.
Qed.

Lemma exported_episode : build_episode manifest (map RTransition ts) = inr e.
Proof.
  destruct record_lists as (Ht & Hb & Hm), episode_checked as (_ & _ & Hf), (wr_closed _ _ _ Hwr) as (Hpb & Him & Hne).
  destruct manifest_fields as (Hid & Hst & Hev & Hci).
  unfold build_episode, declared_episode. rewrite Ht, Hb, Hm, Hid, Hst, Hev, Hci. destruct ts as [|t l] eqn:Hts; [done|].
  cbn [existsb] in Hf. apply orb_false_iff in Hf as [[Hf _]%orb_false_iff _].
  unfold foreign_observation in Hf. apply orb_false_iff in Hf as [Hw%negb_false_iff Hs%negb_false_iff].
  apply N.eqb_eq in Hw as ->, Hs as ->. cbn [head]. rewrite <- Hts, <- Hpb, <- Him.
  replace (mkEpisode _ _ _ _ _ _ _ _ _) with e by (by destruct e). by rewrite (ck_valid _ _ _ Hck).
Qed.

Lemma manifest_pins : exists h, episode_hash e = Ok h /\ tm_episode_hash manifest = h /\
  tm_trajectory_sha256 manifest = actual_trajectory (cb_trajectory b) /\
  tm_trajectory_byte_length manifest = str_len (cb_trajectory b) /\
  tm_record_count manifest = Z.of_nat (length ts).
Proof. destruct (ck_manifest _ _ _ Hck) as (h & Hh & ->). by exists h. Qed.

Lemma exported_manifest : check_manifest (cb_trajectory b) manifest (length (map RTransition ts)) = inr tt.
Proof.
  destruct manifest_pins as (h & _ & _ & Hsha & Hlen & Hn). unfold check_manifest.
  by rewrite Hsha, Hlen, Hn, length_map, String.eqb_refl, !Z.eqb_refl.
Qed.

Lemma exported_authentic : authenticate decode_manifest decode_transition decode_boundary decode_marker
  (cb_manifest b) (cb_trajectory b) [MANIFEST_FILE; TRAJECTORY_FILE] limits
  = inr (mkAuthentic manifest (map RTransition ts) e (tm_episode_hash manifest)).
Proof.
  destruct record_lists as (Ht & Hb & Hm), manifest_pins as (h & Hh & Heh & _).
  unfold authenticate. rewrite read_exported. cbn [mbind stage_bind]. unfold check_bundle.
  rewrite exported_canonical. cbn [mbind stage_bind]. rewrite exported_manifest. cbn [mbind stage_bind].
  rewrite exported_ordered. cbn [mbind stage_bind fail_when].
  rewrite Ht, Hb, Hm, exported_hashes. cbn [mbind stage_bind check_pending].
  rewrite exported_references. cbn [mbind stage_bind]. rewrite exported_episode. cbn [mbind stage_bind].
  unfold check_episode_hash. rewrite Hh, Heh, String.eqb_refl. reflexivity.
Qed.

(** The replay decides: the registry reproduces every transition, or the first
    one it does not reproduce decides the answer. *)
Lemma closed_verifies : ep_status e <> INCOMPLETE -> Forall (fun t => _replay_transition registry t = Ok tt) ts ->
  verify_bundle decode_manifest decode_transition decode_boundary decode_marker
    (cb_manifest b) (cb_trajectory b) registry [MANIFEST_FILE; TRAJECTORY_FILE] limits
  = Ok (mkVerification VERIFIED true true (Some (ep_episode_id e)) (Z.of_nat (length ts))
          (Some (tm_trajectory_sha256 manifest)) (Some (tm_trajectory_sha256 manifest))
          (Some (tm_episode_hash manifest)) (Some (tm_episode_hash manifest)) None).
Proof.
  intros Hst Hr. unfold verify_bundle. rewrite exported_authentic.
  cbn [au_manifest au_records au_episode au_episode_hash].
  destruct record_lists as (Ht & _), manifest_fields as (Hid & _), manifest_pins as (h & _ & _ & Hsha & _).
  rewrite Ht, (replay_all_ok registry _ _ _ Hr). cbn [mbind res_bind].
  rewrite bool_decide_false by done. by rewrite length_map, Hid, <- Hsha.
Qed.

Lemma uncaught_escapes x t l : ts = t :: l -> _replay_transition registry t = Raise x ->
  is_lookup_error (exn_cls x) || is_replay_error (exn_cls x) = false ->
  verify_bundle decode_manifest decode_transition decode_boundary decode_marker
    (cb_manifest b) (cb_trajectory b) registry [MANIFEST_FILE; TRAJECTORY_FILE] limits = Raise x.
Proof.
  intros Hts Hx [Hl He]%orb_false_iff. unfold verify_bundle. rewrite exported_authentic.
  cbn [au_manifest au_records au_episode au_episode_hash]. destruct record_lists as (Ht & _).
  rewrite Ht, Hts. cbn [replay_all]. by rewrite Hx, Hl, He.
Qed.

End episode.

(** C17. What [export_episode] writes for a complete episode, [verify_bundle]
    verifies, where the episode is one the package can have captured: it is
    validated, its child hashes verify and its observations are all of its
    environment version; its texts are
    ASCII, its files within the limits, and the library's decoders give back the
    values whose canonical texts they read.  The two files are then read back as
    the manifest and the transitions they were written from, every check passes,
    and when the registry reproduces every transition the result is VERIFIED with
    every record counted. *)
Theorem export_verifies e b manifest :
  ep_status e = COMPLETE -> export_episode e = Ok b -> checkable e b manifest ->
  Forall (fun t => _replay_transition registry t = Ok tt) (ep_transitions e) ->
  verify_bundle decode_manifest decode_transition decode_boundary decode_marker
    (cb_manifest b) (cb_trajectory b) registry [MANIFEST_FILE; TRAJECTORY_FILE] limits
  = Ok (mkVerification VERIFIED true true (Some (ep_episode_id e)) (Z.of_nat (length (ep_transitions e)))
          (Some (tm_trajectory_sha256 manifest)) (Some (tm_trajectory_sha256 manifest))
          (Some (tm_episode_hash manifest)) (Some (tm_episode_hash manifest)) None).
Proof.
  intros Hc Hb Hck Hr. apply closed_verifies; [done|by apply export_written|by rewrite Hc|done].
Qed.

End round_trip.

End MarlRoundTrip.
