(* ===== verification/MarlExamples.v ===== *)
(** * Learning trajectories: concrete episodes

    One decision and one transition, built with the constructors of the model;
    the theorems on the trajectory files applied to them, and the examples that
    show behaviours a reader would not expect. *)

From Stdlib Require Import QArith.
From S2P Require Import Prelude.
From S2P Require Import Clock.
From S2P Require Import Json.
From S2P Require Import JsonLoads.
From S2P Require Import ConsensusPorts.
From S2P Require Import Marl.
From S2P Require Import MarlStore.
From S2P Require Import MarlBundle.
From S2P Require Import MarlVerify.
Import MarlStore MarlBundle MarlVerify Marl.

Local Open Scope Z_scope.

Module MarlDemo.

(** The value of a call that returns. *)
Definition returned {A} (r : res A) : match r with Ok _ => A | Raise _ => unit end :=
  match r with Ok a => a | Raise _ => tt end.

Definition digest : string := "sha256:aaaaaaaaaaaaaaaaaaaaaaaaaaaaaaaaaaaaaaaaaaaaaaaaaaaaaaaaaaaaaaaa".
Definition impl (name : string) : ImplementationRefV1 := mkImplRef name "1".

(** Episode 10 of workspace 1 and session 2. *)
Definition observe (workspace : uuid) (id : uuid) (index seq : Z) (terminal : bool) : MarlObservation :=
  mkObservation id 10 workspace 2 index "env" (impl "obs") seq None digest terminal
    (if terminal then Some "DONE" else None) [] [] "" "".

Definition pre_observation : sealed MarlObservation := Eval vm_compute in returned (create_observation (observe 1 20 0 5 false)).
Definition post_observation : sealed MarlObservation := Eval vm_compute in returned (create_observation (observe 1 21 1 7 true)).
Definition foreign_post : sealed MarlObservation := Eval vm_compute in returned (create_observation (observe 3 22 0 5 false)).

Definition proposal : sealed ProposedAction := Eval vm_compute in
  returned (create (mkProposedAction 30 10 0 20 (own_hash pre_observation) (impl "policy") 7 SPEAK [] [])).
Definition execution : sealed ExecutedAction := Eval vm_compute in
  returned (create (mkExecutedAction 31 10 0 SPEAK [] [])).
Definition decision : sealed CoordinatorDecision := Eval vm_compute in
  returned (create (mkDecision 32 10 0 (own_hash pre_observation) (Some (own_hash proposal)) ACCEPTED "OK"
                      (impl "coordinator") (Some (own_hash execution)) Feasibility.SAT)).
Definition boundary : sealed DecisionBoundary := Eval vm_compute in
  returned (create (mkBoundary 10 0 pre_observation (Some proposal) decision (Some execution))).

(** Two observed components and three that were not applicable. *)
Definition observed (pre post : RationalV1) : RewardInputV1 :=
  mkRewardInput (Some (AnyRational pre)) (Some (AnyRational post)) OBSERVED None [].
Definition missing : RewardInputV1 := mkRewardInput None None NOT_APPLICABLE (Some "NO_DATA") [].
Definition inputs : list RewardInputV1 :=
  [observed (mkRational 1 3) (mkRational 1 2); missing; missing; missing;
   observed (mkRational 1 1) (mkRational 5 2)].
Definition rewards : list (sealed RewardComponent) := Eval vm_compute in
  returned (build_reward_vector 10 0 [40; 41; 42; 43; 44]%N inputs).

Example reward_values :
  map (fun r => rw_reward_value (body r)) rewards
  = [mkRational 1 6; mkRational 0 1; mkRational 0 1; mkRational 0 1; mkRational (-3) 2].
Proof. vm_compute. reflexivity. Qed.

Definition credit_for (r : sealed RewardComponent) (id : uuid) (st : CreditStatus) (v : RationalV1)
    : res (sealed CreditAssignment) :=
  create (mkCredit id 10 0 (rw_component_id (body r)) (own_hash r) st [] [] (mkRational 1 1) v (impl "credit")).

(** The first reward is split in two. *)
Definition credits : list (sealed CreditAssignment) := Eval vm_compute in
  match rewards with
  | [a; b; c; d; e] =>
      flat_map (fun r => match r with Ok x => [x] | Raise _ => [] end)
        [credit_for a 50 DIRECT (mkRational 1 12); credit_for a 51 ENVIRONMENT (mkRational 1 12);
         credit_for b 52 NEUTRAL rational_zero; credit_for c 53 NEUTRAL rational_zero;
         credit_for d 54 NEUTRAL rational_zero; credit_for e 55 DIRECT (mkRational (-3) 2)]
  | _ => []
  end.
Definition transition : sealed Transition := Eval vm_compute in
  returned (create (mkTransition 10 0 boundary post_observation rewards credits true)).

Definition open_episode : MarlEpisodeV1 := mkEpisode 10 1 2 "env" digest OPEN [] None None.

(** ** The domain *)

Lemma rationals_are_exact_witness :
  exists s, rational_add (mkRational 1 6) (mkRational 1 3) = Ok s /\ s = mkRational 1 2.
Proof.
  destruct (rationals_are_exact (mkRational 1 6) (mkRational 1 3) eq_refl eq_refl) as ((s & Hs & Hok & Hv) & _).
  exists s. split; [exact Hs|]. vm_compute in Hs. congruence.
Defined.

Lemma sealed_roundtrip_witness : validate_hash decision = Ok tt /\ body decision = body decision.
Proof.
  assert (Hc : create (body decision) = Ok decision) by (vm_compute; reflexivity).
  destruct (sealed_roundtrip (body decision) decision Hc) as (H & Hb & _). exact (conj H Hb).
Defined.

Lemma credits_are_conserved_witness : (total_credit (body transition) == total_reward (body transition))%Q.
Proof. apply (credits_are_conserved (body transition)). vm_compute. reflexivity. Defined.

Lemma executed_only_when_accepted_witness :
  is_Some (db_executed_action (body boundary)) /\ cd_feasibility_status (body decision) = Feasibility.SAT.
Proof.
  destruct (executed_only_when_accepted boundary ltac:(vm_compute; reflexivity) ltac:(vm_compute; reflexivity))
    as (He & Ha & _).
  split; [by apply He|]. by apply Ha.
Defined.

Lemma reward_vector_is_exact_witness :
  length rewards = 5%nat /\
  exists c, rewards !! 4%nat = Some c /\
    component_exact 10 0 4 44 (observed (mkRational 1 1) (mkRational 5 2))
      (mkSpec "ce-03" "1" "agora.reward.cost-delta" LOWER_BETTER) c.
Proof.
  destruct (reward_vector_is_exact 10 0 [40; 41; 42; 43; 44]%N inputs rewards) as [Hl Hc];
    [vm_compute; reflexivity|]. split; [exact Hl|]. eexists. split; [reflexivity|].
  exact (Hc 4%nat _ _ _ _ eq_refl eq_refl eq_refl eq_refl).
Defined.

(** ** The store *)

Definition after (calls : list call) : episodes := foldl (fun s c => fst (serve c s)) ∅ calls.

Lemma reach_next s c : reachable s -> call_valid c -> ~ colliding c s -> reachable (fst (serve c s)).
Proof.
  intros Hs Hv Hc. destruct (serve c s) as [s' r] eqn:He. cbn. by apply (reach_call c s s' r).
Qed.

Definition life : list call :=
  [Create open_episode; Capture 1 boundary; Close 1 transition; FinalizeComplete 1 10].

Lemma own_boundary_no_collision s :
  (forall e, s !! (1%N, 10%N) = Some e -> forall p, ep_pending_boundary e = Some p -> p = boundary) ->
  ~ colliding (Close 1 transition) s.
Proof.
  intros Hp (e & p & He & Hpe & x & y & Hx & Hy & Hne & _).
  rewrite (Hp e He p Hpe) in Hx. change (tr_boundary (body transition)) with boundary in Hy. congruence.
Qed.

Lemma captured_reachable : reachable (after (take 2 life)).
Proof.
  apply (reach_next (after (take 1 life)) (Capture 1 boundary)); [|vm_compute; reflexivity|intros []].
  apply (reach_next ∅ (Create open_episode)); [apply reach_empty|split; vm_compute; reflexivity|intros []].
Qed.

Lemma close_safe : ~ colliding (Close 1 transition) (after (take 2 life)).
Proof.
  apply own_boundary_no_collision. intros e He p Hp. vm_compute in He. injection He as <-.
  vm_compute in Hp. injection Hp as <-. vm_compute. reflexivity.
Qed.

Lemma closed_reachable : reachable (after (take 3 life)).
Proof.
  apply (reach_next (after (take 2 life)) (Close 1 transition)); [apply captured_reachable|vm_compute; reflexivity|].
  apply close_safe.
Qed.

Lemma completed_reachable : reachable (after life).
Proof. apply (reach_next (after (take 3 life)) (FinalizeComplete 1 10)); [apply closed_reachable|done|intros []]. Qed.

Definition completed_episode : MarlEpisodeV1 := mkEpisode 10 1 2 "env" digest COMPLETE [transition] None None.

Example life_completes : after life !! (1%N, 10%N) = Some completed_episode.
Proof. vm_compute. reflexivity. Qed.

Lemma reachable_episodes_witness : lifecycle completed_episode = Ok tt.
Proof.
  apply (reachable_episodes (after life) 1 10 completed_episode completed_reachable life_completes).
  discriminate.
Defined.

Definition captured_episode : MarlEpisodeV1 := mkEpisode 10 1 2 "env" digest OPEN [] (Some boundary) None.

Lemma store_only_appends_witness :
  exists e', after (take 3 life) !! (1%N, 10%N) = Some e' /\ [] `prefix_of` ep_transitions e'.
Proof.
  destruct (store_only_appends (after (take 2 life)) (Close 1 transition) (after (take 3 life))
              (snd (serve (Close 1 transition) (after (take 2 life)))) 1 10 captured_episode) as ((e' & He' & Hp & _) & _).
  - apply captured_reachable.
  - vm_compute. reflexivity.
  - apply close_safe.
  - vm_compute. reflexivity.
  - vm_compute. reflexivity.
  - exists e'. split; [exact He'|exact Hp].
Defined.

Definition closed_episode : MarlEpisodeV1 := mkEpisode 10 1 2 "env" digest OPEN [transition] None None.

Lemma calls_repeat_witness :
  serve (Close 1 transition) (after (take 3 life)) = (after (take 3 life), Ok closed_episode).
Proof.
  apply (calls_repeat (after (take 2 life)) (Close 1 transition)).
  - apply captured_reachable.
  - vm_compute. reflexivity.
  - vm_compute. reflexivity.
  - apply close_safe.
  - vm_compute. reflexivity.
Defined.

(** A captured boundary, sent again after its decision was closed, is refused by
    this store. *)
Example recapture_refused :
  snd (serve (Capture 1 boundary) (after (take 3 life)))
  = raise MarlConflictErrorC "decision index must be the next gapless index".
Proof. vm_compute. reflexivity. Qed.

(** A boundary observed in workspace 3, captured for an episode of workspace 1. *)
Definition foreign_decision : sealed CoordinatorDecision := Eval vm_compute in
  returned (create (mkDecision 33 10 0 (own_hash foreign_post) None NO_PROPOSAL "NONE" (impl "coordinator") None
                      Feasibility.UNKNOWN)).
Definition foreign_boundary : sealed DecisionBoundary := Eval vm_compute in
  returned (create (mkBoundary 10 0 foreign_post None foreign_decision None)).
Definition foreign_marker : sealed IncompleteMarker := Eval vm_compute in
  returned (create (mkMarker 60 10 0 "CRASH" (Some (own_hash foreign_boundary)))).
Definition stuck_episode : MarlEpisodeV1 := mkEpisode 10 1 2 "env" digest OPEN [] (Some foreign_boundary) None.
Definition stuck : episodes := after [Create open_episode; Capture 1 foreign_boundary].

Example stuck_calls :
  stuck !! (1%N, 10%N) = Some stuck_episode /\
  snd (serve (FinalizeIncomplete 1 foreign_marker) stuck)
  = raise ValueErrorC "pending boundary scope differs from episode scope".
Proof. vm_compute. done. Qed.

Lemma stuck_reachable : reachable stuck.
Proof.
  apply (reach_next (after (take 1 life)) (Capture 1 foreign_boundary)); [|vm_compute; reflexivity|intros []].
  apply (reach_next ∅ (Create open_episode)); [apply reach_empty|split; vm_compute; reflexivity|intros []].
Qed.

Lemma foreign_scope_never_finalizes_witness :
  exists e', fst (serve (FinalizeIncomplete 1 foreign_marker) stuck) !! (1%N, 10%N) = Some e' /\ ep_status e' = OPEN.
Proof.
  apply (foreign_scope_never_finalizes stuck _ 1 10 stuck_episode).
  - apply stuck_reachable.
  - apply stuck_calls.
  - split; [reflexivity|]. right. exists foreign_boundary. repeat split; vm_compute; reflexivity.
  - vm_compute. reflexivity.
  - vm_compute. reflexivity.
  - apply rtc_once. exists (FinalizeIncomplete 1 foreign_marker), (snd (serve (FinalizeIncomplete 1 foreign_marker) stuck)).
    split; [vm_compute; reflexivity|]. split; [intros []|vm_compute; reflexivity].
Defined.

End MarlDemo.
