(* ===== verification/MarlBundleExamples.v ===== *)
(** * Learning trajectories: concrete bundles

    The episode of [MarlExamples.v] exported, read back, verified and replayed;
    the theorems on bundles applied to it, and bundles whose verification a
    reader would not expect. *)

From S2P Require Import Prelude.
From S2P Require Import Clock.
From S2P Require Import Sha256.
From S2P Require Import Json.
From S2P Require Import JsonLoads.
From S2P Require Import ConsensusPorts.
From S2P Require Import Marl.
From S2P Require Import MarlBundle.
From S2P Require Import MarlVerify.
From S2P Require Import MarlRoundTrip.
From S2P Require Import MarlExamples.
Import MarlBundle MarlVerify MarlRoundTrip MarlDemo Marl.

Local Open Scope Z_scope.

Module MarlBundleDemo.

(** ** A registry and a decoder *)

Definition delta (a b : option RationalV1) (d : RewardDirection) : res (option RationalV1) :=
  v ← exact_delta (AnyRational <$> a) (AnyRational <$> b) d; Ok (Some v).

Definition registry_with (reward_function : RewardImplementation) : ImplementationRegistry :=
  mkRegistry ∅
    (list_to_map (map (fun r => (_key (rw_reward_implementation (body r)), reward_function)) rewards))
    {[_key (impl "coordinator") := fun b => Ok (db_coordinator_decision (body b))]}
    {[_key (impl "credit")]}.
Definition registry : ImplementationRegistry := registry_with delta.

(** The validation library on the texts that occur. *)
Definition decode_of {A} (dump : A -> json) (values : list A) (text : string) : option A :=
  List.find (fun a => bool_decide (canonical_json (dump a) = Ok text)) values.

Lemma decode_of_decodes {A} (dump : A -> json) (a : A) : decodes (decode_of dump [a]) dump a.
Proof. intros text Ht. unfold decode_of. cbn. by rewrite bool_decide_true. Qed.

(** The value of a call that returns. *)
Definition or_else {A} (d : A) (r : res A) : A := match r with Ok a => a | Raise _ => d end.

Definition bundle : CanonicalTrajectoryBundle :=
  or_else (mkBundle "" "") (export_episode completed_episode).
Definition completed_hash : string := Eval vm_compute in
  or_else "" (episode_hash completed_episode).
Definition manifest : TrajectoryManifestV1 := Eval vm_compute in
  episode_manifest completed_episode (cb_trajectory bundle) 1 completed_hash.

Local Abbreviation check_with m g b entries :=
  (verify_bundle (decode_of dump_manifest [m]) (decode_of _dump [transition]) (decode_of _dump [boundary])
    (decode_of _dump [foreign_marker]) (cb_manifest b) (cb_trajectory b) g entries default_limits).

Lemma transition_fits : plain (_dump transition) = true /\ fits default_limits (_dump transition).
Proof. split; vm_compute; reflexivity. Qed.

Lemma transition_hashes : _validate_child_hashes transition = Ok tt.
Proof. vm_compute. reflexivity. Qed.

Definition entries : list string := [MANIFEST_FILE; TRAJECTORY_FILE].

(** The records of [bundle] under a manifest of the given episode. *)
Lemma readable_bundle e m b :
  ep_transitions e = [transition] -> validate_episode e = Ok e ->
  (exists h, episode_hash e = Ok h /\ m = episode_manifest e (cb_trajectory b) 1 h) ->
  tm_environment_version m = "env" -> plain (dump_manifest m) = true /\ fits default_limits (dump_manifest m) ->
  str_len (cb_manifest b) <= 256 * 1024 /\ str_len (cb_trajectory b) <= 64 * 1024 * 1024 ->
  checkable (decode_of dump_manifest [m]) (decode_of _dump [transition]) default_limits e b m.
Proof.
  intros Hts Hv Hm Henv Hplain [Hs Ht]. split; rewrite ?Hts; try done.
  - constructor; [exact transition_hashes|constructor].
  - cbn [existsb]. unfold foreign_environment. rewrite Henv. reflexivity.
  - constructor; [|constructor]. exact transition_fits.
  - apply decode_of_decodes.
  - constructor; [apply decode_of_decodes|constructor].
Qed.

Lemma completed_manifest : exists h, episode_hash completed_episode = Ok h /\
  manifest = episode_manifest completed_episode (cb_trajectory bundle) 1 h.
Proof. exists completed_hash. split; vm_compute; reflexivity. Qed.

Lemma completed_checkable :
  checkable (decode_of dump_manifest [manifest]) (decode_of _dump [transition]) default_limits completed_episode
    bundle manifest.
Proof.
  apply readable_bundle; [reflexivity|vm_compute; reflexivity|exact completed_manifest|reflexivity|..].
  - split; vm_compute; reflexivity.
  - split; vm_compute; discriminate.
Qed.

Lemma completed_exported : export_episode completed_episode = Ok bundle.
Proof. vm_compute. reflexivity. Qed.

Lemma completed_replays : Forall (fun t => _replay_transition registry t = Ok tt) (ep_transitions completed_episode).
Proof. constructor; [|constructor]. vm_compute. reflexivity. Qed.

Lemma export_verifies_witness :
  exists v, check_with manifest registry bundle entries = Ok v /\ rv_outcome v = VERIFIED.
Proof.
  eexists. split.
  - exact (export_verifies _ _ (decode_of _dump [boundary]) (decode_of _dump [foreign_marker]) registry
             default_limits completed_episode bundle manifest eq_refl completed_exported completed_checkable
             completed_replays).
  - reflexivity.
Defined.

Lemma completed_written : written completed_episode bundle manifest.
Proof. eapply export_written; [exact completed_checkable|reflexivity|exact completed_exported]. Qed.

Lemma verified_bundle : exists v, check_with manifest registry bundle entries = Ok v /\
  rv_outcome v = VERIFIED /\ rv_integrity_valid v = true.
Proof.
  eexists. split; [|split; [|]].
  - exact (closed_verifies _ _ (decode_of _dump [boundary]) (decode_of _dump [foreign_marker]) registry
             default_limits completed_episode bundle manifest completed_checkable completed_written
             ltac:(discriminate) completed_replays).
  - reflexivity.
  - reflexivity.
Qed.

(** The two files decode to the captured transition, and it replays. *)
Lemma verified_is_genuine_witness :
  exists a, ep_status (au_episode a) <> INCOMPLETE /\
    Forall (fun t => _replay_transition registry t = Ok tt) (ep_transitions (au_episode a)).
Proof.
  destruct verified_bundle as (v & Hv & Ho & _).
  destruct (verified_is_genuine _ _ _ _ (cb_manifest bundle) (cb_trajectory bundle) registry entries default_limits
              v Hv Ho) as (a & _ & _ & _ & Hr & Hs).
  exists a. exact (conj Hs Hr).
Defined.

Lemma verification_shape_witness : exists v, check_with manifest registry bundle entries = Ok v /\
  result_shape v = Ok tt.
Proof.
  destruct verified_bundle as (v & Hv & _). exists v. split; [exact Hv|].
  exact (proj1 (proj1 (verification_shape _ _ _ _ (cb_manifest bundle) (cb_trajectory bundle) registry entries
                         default_limits) v Hv)).
Defined.

Lemma manifest_pins_trajectory_witness :
  cb_trajectory bundle = cb_trajectory bundle \/
  (cb_trajectory bundle <> cb_trajectory bundle /\
   sha256_hex (cb_trajectory bundle) = sha256_hex (cb_trajectory bundle)).
Proof.
  destruct verified_bundle as (v & Hv & _ & Hi).
  exact (manifest_pins_trajectory _ _ _ _ (cb_manifest bundle) (cb_trajectory bundle) (cb_trajectory bundle)
           registry registry entries default_limits v v Hv Hv Hi Hi).
Defined.

(** ** Bundles a reader would not expect *)

(** The same records under a manifest whose status is OPEN, which
    [export_episode] refuses to write, are VERIFIED. *)
Definition open_hash : string := Eval vm_compute in or_else "" (episode_hash closed_episode).
Definition open_manifest : TrajectoryManifestV1 := Eval vm_compute in
  episode_manifest closed_episode (cb_trajectory bundle) 1 open_hash.
Definition open_bundle : CanonicalTrajectoryBundle :=
  mkBundle (or_else "" (jsonl [dump_manifest open_manifest])) (cb_trajectory bundle).

Example open_is_not_exported : export_episode closed_episode = raise ValueErrorC "OPEN episode cannot be exported".
Proof. reflexivity. Qed.

Lemma open_checkable :
  checkable (decode_of dump_manifest [open_manifest]) (decode_of _dump [transition]) default_limits closed_episode
    open_bundle open_manifest.
Proof.
  apply readable_bundle; [reflexivity|vm_compute; reflexivity| |reflexivity|..].
  - exists open_hash. split; vm_compute; reflexivity.
  - split; vm_compute; reflexivity.
  - split; vm_compute; discriminate.
Qed.

Lemma open_written : written closed_episode open_bundle open_manifest.
Proof.
  split; [done|exact (wr_trajectory _ _ _ completed_written)|].
  exists (or_else "" (canonical_json (dump_manifest open_manifest))). split; vm_compute; reflexivity.
Qed.

Example open_is_verified : exists v, check_with open_manifest registry open_bundle entries = Ok v /\
  rv_outcome v = VERIFIED /\ tm_episode_status open_manifest = OPEN.
Proof.
  eexists. split; [|split; [|]].
  - exact (closed_verifies _ _ (decode_of _dump [boundary]) (decode_of _dump [foreign_marker]) registry
             default_limits closed_episode open_bundle open_manifest open_checkable open_written
             ltac:(discriminate) completed_replays).
  - reflexivity.
  - reflexivity.
Qed.

(** An episode that was lost before its first decision closed is exported, and
    its bundle never passes the references stage. *)
Definition lost_marker : sealed IncompleteMarker := Eval vm_compute in
  returned (create (mkMarker 61 10 0 "CRASH" None)).
Definition lost_episode : MarlEpisodeV1 := mkEpisode 10 1 2 "env" digest INCOMPLETE [] None (Some lost_marker).
Definition lost_bundle : CanonicalTrajectoryBundle :=
  or_else (mkBundle "" "") (export_episode lost_episode).
Definition lost_hash : string := Eval vm_compute in
  or_else "" (episode_hash lost_episode).
Definition lost_manifest : TrajectoryManifestV1 := Eval vm_compute in
  episode_manifest lost_episode (cb_trajectory lost_bundle) 1 lost_hash.

Example lost_is_exported : export_episode lost_episode = Ok lost_bundle.
Proof. vm_compute. reflexivity. Qed.

Example lost_is_not_verified : exists v,
  verify_bundle (decode_of dump_manifest [lost_manifest]) (decode_of _dump [transition]) (decode_of _dump [boundary])
    (decode_of _dump [lost_marker]) (cb_manifest lost_bundle) (cb_trajectory lost_bundle) registry entries
    default_limits = Ok v /\
  rf_code <$> rv_first_failure v = Some REFERENCE_MISMATCH.
Proof. eexists. split; [vm_compute; reflexivity|reflexivity]. Qed.

(** A registered reward function that raises [TypeError] (as [exact_delta] does
    on a metric that is not a rational): its exception leaves [verify_bundle]. *)
Definition raising : RewardImplementation := fun _ _ _ => raise TypeErrorC "reward implementation requires exact rationals".

Example exceptions_escape :
  check_with manifest (registry_with raising) bundle entries
  = raise TypeErrorC "reward implementation requires exact rationals".
Proof.
  apply (uncaught_escapes _ _ _ _ _ default_limits completed_episode bundle manifest completed_checkable
           completed_written _ transition []); [reflexivity|vm_compute; reflexivity|reflexivity].
Qed.

End MarlBundleDemo.
