(* ===== verification/Replay.v ===== *)
(** * Session replay: values and their validators

    [app/domain/replay.py]: the recorded session a replay starts from, the
    request, what an implementation returns, the structured differences and
    failures, and the result.  A model's constructor is [new_*]: it returns its
    argument, or raises what a field constraint or the model validator raises.
    [valid_*] says that a value has passed its constructor. *)

From S2P Require Import Prelude.
From S2P Require Import Sha256.
From S2P Require Import Json.
From S2P Require Import Symbolic.
From S2P Require Import ConsensusPorts.
From S2P Require Import ConsensusFacts.
From S2P Require Import Ledger.

Local Open Scope Z_scope.

Module Replay.

(** ** Enumerations *)

Inductive ReplayMode : Type := STRICT | TOLERANT | LIVE.

Inductive ReplayOutcome : Type := VERIFIED | MATCHED | DIFFERENT | LIVE_STARTED | FAILED.

Inductive ReplayStepKind : Type :=
| ARTIFACT | EVENT | METRIC | CONSENSUS | SYMBOLIC | SIMULATION | RETRIEVAL | LLM.

Inductive ReplayStepPolicy : Type := RECORDED | DETERMINISTIC | EXTERNAL.

Inductive ReplayDifferenceKind : Type :=
| IMPLEMENTATION | PROVIDER | MODEL | CONFIGURATION | OUTPUT | STATUS | TIMING_SENSITIVE.

Inductive ReplayFailureReason : Type :=
| HISTORICAL_REPLAY_UNAVAILABLE | MANIFEST_MISMATCH | LEDGER_INTEGRITY | LEDGER_MISMATCH
| UNKNOWN_IMPLEMENTATION | NONDETERMINISTIC_IMPLEMENTATION | OUTPUT_MISMATCH | MARL_REPLAY_FAILED
| LIVE_LAUNCH_UNAVAILABLE | INVALID_LIVE_IDENTITY.

#[global] Instance ReplayMode_eq_dec : EqDecision ReplayMode.
Proof. solve_decision. Defined.
#[global] Instance ReplayOutcome_eq_dec : EqDecision ReplayOutcome.
Proof. solve_decision. Defined.
#[global] Instance ReplayStepKind_eq_dec : EqDecision ReplayStepKind.
Proof. solve_decision. Defined.
#[global] Instance ReplayStepPolicy_eq_dec : EqDecision ReplayStepPolicy.
Proof. solve_decision. Defined.
#[global] Instance ReplayDifferenceKind_eq_dec : EqDecision ReplayDifferenceKind.
Proof. solve_decision. Defined.
#[global] Instance ReplayFailureReason_eq_dec : EqDecision ReplayFailureReason.
Proof. solve_decision. Defined.

(** ** Models *)

Record ReplayManifestRef : Type := mkManifestRef {
  mr_manifest_id : uuid;
  mr_manifest_version : Z;
  mr_manifest_hash : string
}.

Record ReplayImplementationIdentity : Type := mkIdentity {
  ri_implementation_id : string;
  ri_implementation_version : string;
  ri_provider : option string;
  ri_model : option string;
  ri_configuration_hash : option string
}.

Record ReplayStep : Type := mkStep {
  rs_step_id : uuid;
  rs_order : Z;
  rs_kind : ReplayStepKind;
  rs_policy : ReplayStepPolicy;
  rs_implementation : option ReplayImplementationIdentity;
  rs_input : dict string json;
  rs_input_hash : string;
  rs_expected_output : dict string json;
  rs_expected_output_hash : string;
  rs_expected_status : option string;
  rs_tolerant_reexecution_allowed : bool;
  rs_timing_sensitive : bool
}.

Record MarlReplayBundle : Type := mkMarlBundle { mb_manifest : string; mb_trajectory : string }.

Record HistoricalReplay : Type := mkHistorical {
  hr_workspace_id : uuid;
  hr_source_session_id : uuid;
  hr_manifest : ReplayManifestRef;
  hr_ledger_events : list LedgerEvent;
  hr_steps : list ReplayStep;
  hr_marl_bundles : list MarlReplayBundle
}.

Record ReplayImplementationSelection : Type := mkSelection {
  is_step_id : uuid;
  is_implementation : ReplayImplementationIdentity
}.

Record ReplayRequest : Type := mkRequest {
  rr_workspace_id : uuid;
  rr_source_session_id : uuid;
  rr_manifest : ReplayManifestRef;
  rr_mode : ReplayMode;
  rr_selections : list ReplayImplementationSelection
}.

Record ReplayExecution : Type := mkExecution {
  rx_implementation : ReplayImplementationIdentity;
  rx_output : dict string json;
  rx_output_hash : string;
  rx_status : option string
}.

Record ReplayDifference : Type := mkDifference {
  rd_order : Z;
  rd_step_id : uuid;
  rd_kind : ReplayStepKind;
  rd_difference : ReplayDifferenceKind;
  rd_field : string;
  rd_expected : option string;
  rd_actual : option string
}.

Record ReplayMismatch : Type := mkMismatch {
  rm_reason : ReplayFailureReason;
  rm_detail : string;
  rm_order : option Z;
  rm_step_id : option uuid;
  rm_expected_hash : option string;
  rm_actual_hash : option string
}.

Record LiveReplayLaunch : Type := mkLaunch {
  ll_mode : ReplayMode;
  ll_source_session_id : uuid;
  ll_session_id : uuid;
  ll_manifest_id : uuid;
  ll_event_ids : list uuid;
  ll_result_ids : list uuid
}.

Record ReplayResult : Type := mkResult {
  rp_mode : ReplayMode;
  rp_outcome : ReplayOutcome;
  rp_workspace_id : uuid;
  rp_source_session_id : uuid;
  rp_source_manifest : ReplayManifestRef;
  rp_integrity_valid : bool;
  rp_byte_identical : bool;
  rp_checked_steps : Z;
  rp_differences : list ReplayDifference;
  rp_first_mismatch : option ReplayMismatch;
  rp_session_id : option uuid;
  rp_manifest_id : option uuid;
  rp_event_ids : list uuid;
  rp_result_ids : list uuid
}.

#[global] Instance ReplayManifestRef_eq_dec : EqDecision ReplayManifestRef.
Proof. solve_decision. Defined.
#[global] Instance ReplayImplementationIdentity_eq_dec : EqDecision ReplayImplementationIdentity.
Proof. solve_decision. Defined.
#[global] Instance ReplayDifference_eq_dec : EqDecision ReplayDifference.
Proof. solve_decision. Defined.
#[global] Instance ReplayMismatch_eq_dec : EqDecision ReplayMismatch.
Proof. solve_decision. Defined.
#[global] Instance ReplayResult_eq_dec : EqDecision ReplayResult.
Proof. solve_decision. Defined.

(** ** Validators *)

(** [_not_blank], as a condition. *)
Definition _not_blank (value : string) : bool := negb (blank value).

Definition manifest_ref_ok (r : ReplayManifestRef) : bool :=
  (0 <? mr_manifest_version r) && digest_ok (mr_manifest_hash r).
Definition new_manifest_ref : ReplayManifestRef -> res ReplayManifestRef :=
  construct manifest_ref_ok "ReplayManifestRef".

Definition identity_ok (i : ReplayImplementationIdentity) : bool :=
  _not_blank (ri_implementation_id i) && _not_blank (ri_implementation_version i)
  && opt_ok _not_blank (ri_provider i) && opt_ok _not_blank (ri_model i)
  && opt_ok digest_ok (ri_configuration_hash i).
Definition new_identity : ReplayImplementationIdentity -> res ReplayImplementationIdentity :=
  construct identity_ok "ReplayImplementationIdentity".

Definition step_fields_ok (s : ReplayStep) : bool :=
  (0 <? rs_order s) && digest_ok (rs_input_hash s) && digest_ok (rs_expected_output_hash s)
  && opt_ok _not_blank (rs_expected_status s).

(** [ReplayStep.coherent] *)
Definition coherent_step (s : ReplayStep) : res unit :=
  ih ← content_hash (JObj (rs_input s));
  _ ← guard_not (negb (String.eqb (rs_input_hash s) ih)) ValueErrorC "input_hash does not match replay input";
  oh ← content_hash (JObj (rs_expected_output s));
  _ ← guard_not (negb (String.eqb (rs_expected_output_hash s) oh)) ValueErrorC
        "expected_output_hash does not match replay output";
  let recorded := bool_decide (rs_policy s = RECORDED) in
  _ ← guard_not (negb recorded && is_none (rs_implementation s)) ValueErrorC
        "executable replay steps require an implementation identity";
  _ ← guard_not (recorded && rs_tolerant_reexecution_allowed s) ValueErrorC
        "recorded-only steps cannot permit re-execution";
  guard_not (bool_decide (rs_policy s = EXTERNAL) && negb (rs_tolerant_reexecution_allowed s)) ValueErrorC
    "external steps must explicitly permit tolerant re-execution".

Definition new_step (s : ReplayStep) : res ReplayStep :=
  _ ← construct step_fields_ok "ReplayStep" s;
  _ ← validated "ReplayStep" (coherent_step s);
  Ok s.

(** [len(set(ids)) != len(ids)], negated. *)
Definition all_distinct (ids : list uuid) : bool := bool_decide (NoDup ids).

(** [tuple(range(1, n + 1))] *)
Definition from_one (n : nat) : list Z := map Z.of_nat (seq 1 n).

(** [HistoricalReplay.coherent] *)
Definition coherent_history (h : HistoricalReplay) : res unit :=
  let events := hr_ledger_events h in
  let orders := map rs_order (hr_steps h) in
  _ ← guard_not
        (existsb (fun e => negb (bool_decide (la_workspace_id (le_append e) = hr_workspace_id h))
                           || negb (bool_decide (la_session_id (le_append e) = hr_source_session_id h))) events)
        ValueErrorC "ledger events must belong to the replay source session";
  _ ← guard_not (negb (bool_decide (map le_ledger_seq events = from_one (length events)))) ValueErrorC
        "historical ledger events must be gapless and ordered";
  _ ← guard_not (negb (bool_decide (orders = sort_by Z.leb orders)) || negb (bool_decide (NoDup orders)))
        ValueErrorC "replay steps must have unique deterministic order";
  guard_not (negb (all_distinct (map rs_step_id (hr_steps h)))) ValueErrorC "replay step ids must be unique".

Definition new_historical (h : HistoricalReplay) : res HistoricalReplay :=
  _ ← validated "HistoricalReplay" (coherent_history h);
  Ok h.

(** [ReplayRequest.selection_shape] *)
Definition selection_shape (r : ReplayRequest) : res unit :=
  _ ← guard_not (negb (all_distinct (map is_step_id (rr_selections r)))) ValueErrorC
        "implementation selection step ids must be unique";
  guard_not (bool_decide (rr_mode r = STRICT) && nonempty (rr_selections r)) ValueErrorC
    "strict replay cannot override pinned implementations".

Definition new_request (r : ReplayRequest) : res ReplayRequest :=
  _ ← validated "ReplayRequest" (selection_shape r);
  Ok r.

(** [ReplayExecution.coherent_hash] *)
Definition coherent_hash (x : ReplayExecution) : res unit :=
  oh ← content_hash (JObj (rx_output x));
  guard_not (negb (String.eqb (rx_output_hash x) oh)) ValueErrorC
    "output_hash does not match replay execution output".

Definition new_execution (x : ReplayExecution) : res ReplayExecution :=
  _ ← construct (fun x => digest_ok (rx_output_hash x) && opt_ok _not_blank (rx_status x)) "ReplayExecution" x;
  _ ← validated "ReplayExecution" (coherent_hash x);
  Ok x.

Definition new_difference : ReplayDifference -> res ReplayDifference :=
  construct (fun d => (0 <? rd_order d) && _not_blank (rd_field d)) "ReplayDifference".

Definition mismatch_ok (m : ReplayMismatch) : bool :=
  _not_blank (rm_detail m) && opt_ok (Z.ltb 0) (rm_order m) && opt_ok digest_ok (rm_expected_hash m)
  && opt_ok digest_ok (rm_actual_hash m).
Definition new_mismatch : ReplayMismatch -> res ReplayMismatch := construct mismatch_ok "ReplayMismatch".

(** [LiveReplayLaunch.live_identity] *)
Definition live_identity (l : LiveReplayLaunch) : res unit :=
  _ ← guard_not (negb (bool_decide (ll_mode l = LIVE))) ValueErrorC "live replay launch must be marked REPLAY_LIVE";
  _ ← guard_not (bool_decide (ll_session_id l = ll_source_session_id l)) ValueErrorC
        "live replay must allocate a new session id";
  _ ← guard_not (negb (nonempty (ll_event_ids l)) || negb (nonempty (ll_result_ids l))) ValueErrorC
        "live replay must allocate new event and result identities";
  _ ← guard_not (negb (all_distinct (ll_event_ids l))) ValueErrorC "live replay event ids must be unique";
  guard_not (negb (all_distinct (ll_result_ids l))) ValueErrorC "live replay result ids must be unique".

Definition new_launch (l : LiveReplayLaunch) : res LiveReplayLaunch :=
  _ ← validated "LiveReplayLaunch" (live_identity l);
  Ok l.

(** [ReplayResult.result_shape]: the branch of each mode. *)
Definition strict_shape (r : ReplayResult) : res unit :=
  _ ← (if bool_decide (rp_outcome r = VERIFIED)
       then guard_not (negb (rp_integrity_valid r) || negb (rp_byte_identical r) || is_some (rp_first_mismatch r))
              ValueErrorC "verified strict replay has an invalid result shape"
       else guard_not (negb (bool_decide (rp_outcome r = FAILED)) || is_none (rp_first_mismatch r))
              ValueErrorC "strict replay must be VERIFIED or FAILED with a mismatch");
  guard_not (nonempty (rp_differences r) || is_some (rp_session_id r)) ValueErrorC
    "strict replay cannot contain diffs or a new session".

Definition tolerant_shape (r : ReplayResult) : res unit :=
  let failed := bool_decide (rp_outcome r = FAILED) in
  _ ← guard_not (negb (bool_decide (rp_outcome r ∈ [MATCHED; DIFFERENT; FAILED]))) ValueErrorC
        "tolerant replay has an invalid outcome";
  _ ← guard_not (failed && is_none (rp_first_mismatch r)) ValueErrorC "failed tolerant replay requires a reason";
  _ ← guard_not (negb failed && is_some (rp_first_mismatch r)) ValueErrorC
        "completed tolerant replay cannot contain a strict failure";
  _ ← guard_not (is_some (rp_session_id r)) ValueErrorC "tolerant replay cannot create a session";
  _ ← guard_not (bool_decide (rp_outcome r = MATCHED) && nonempty (rp_differences r)) ValueErrorC
        "matched tolerant replay cannot contain differences";
  guard_not (bool_decide (rp_outcome r = DIFFERENT) && negb (nonempty (rp_differences r))) ValueErrorC
    "different tolerant replay requires a structured diff".

Definition live_shape (r : ReplayResult) : res unit :=
  if bool_decide (rp_outcome r = FAILED) then
    _ ← guard_not (is_none (rp_first_mismatch r)) ValueErrorC "failed live replay requires a reason";
    guard_not (is_some (rp_session_id r)) ValueErrorC "failed live replay cannot expose a new session"
  else
    _ ← guard_not (negb (bool_decide (rp_outcome r = LIVE_STARTED))) ValueErrorC
          "live replay must report LIVE_STARTED";
    _ ← guard_not (is_none (rp_session_id r) || is_none (rp_manifest_id r) || negb (nonempty (rp_event_ids r))
                   || negb (nonempty (rp_result_ids r))
                   || bool_decide (rp_session_id r = Some (rp_source_session_id r))) ValueErrorC
          "live replay requires fresh session, manifest, event and result ids";
    guard_not (rp_byte_identical r || is_some (rp_first_mismatch r) || nonempty (rp_differences r)) ValueErrorC
      "live replay is a new execution, not a verification or diff".

Definition result_shape (r : ReplayResult) : res unit :=
  match rp_mode r with
  | STRICT => strict_shape r
  | TOLERANT => tolerant_shape r
  | LIVE => live_shape r
  end.

Definition new_result (r : ReplayResult) : res ReplayResult :=
  _ ← construct (fun r => 0 <=? rp_checked_steps r) "ReplayResult" r;
  _ ← validated "ReplayResult" (result_shape r);
  Ok r.

(** ** What the validators establish *)

Definition valid_step (s : ReplayStep) : Prop :=
  new_step s = Ok s /\ opt_ok identity_ok (rs_implementation s) = true.
Definition valid_execution (x : ReplayExecution) : Prop :=
  new_execution x = Ok x /\ identity_ok (rx_implementation x) = true.
Definition valid_history (h : HistoricalReplay) : Prop :=
  new_historical h = Ok h /\ Forall valid_step (hr_steps h) /\ Forall event_valid (hr_ledger_events h).

Lemma step_facts s : valid_step s ->
  0 < rs_order s /\ digest_ok (rs_expected_output_hash s) = true /\
  content_hash (JObj (rs_input s)) = Ok (rs_input_hash s) /\
  content_hash (JObj (rs_expected_output s)) = Ok (rs_expected_output_hash s) /\
  (rs_policy s <> RECORDED -> is_Some (rs_implementation s)) /\
  (rs_policy s = EXTERNAL -> rs_tolerant_reexecution_allowed s = true).
Proof.
  intros [Hs _]. unfold new_step in Hs. apply bind_Ok in Hs as (s' & [Hf ->]%construct_Ok & Hs).
  apply bind_Ok in Hs as (u & Hc%validated_Ok & _). unfold coherent_step in Hc.
  apply bind_Ok in Hc as (ih & Hih & [Hi%negb_false_iff%String.eqb_eq Hc]%guard_bind).
  apply bind_Ok in Hc as (oh & Hoh & [Ho%negb_false_iff%String.eqb_eq Hc]%guard_bind).
  apply guard_bind in Hc as [H1 Hc]. apply guard_bind in Hc as [_ H2%guard_not_Ok].
  unfold step_fields_ok in Hf. rewrite !andb_true_iff in Hf. destruct Hf as (((Hf1 & Hf2) & Hf3) & Hf4).
  split_and!; [lia|done|congruence|congruence| |].
  - intros Hp. rewrite bool_decide_false in H1 by done. destruct (rs_implementation s); [by eexists|done].
  - intros Hp. rewrite bool_decide_true in H2 by done. by apply negb_false_iff.
Qed.

Lemma execution_facts x : valid_execution x ->
  digest_ok (rx_output_hash x) = true /\ content_hash (JObj (rx_output x)) = Ok (rx_output_hash x).
Proof.
  intros [Hx _]. unfold new_execution in Hx. apply bind_Ok in Hx as (x' & [Hf ->]%construct_Ok & Hx).
  apply bind_Ok in Hx as (u & Hc%validated_Ok & _). unfold coherent_hash in Hc.
  apply bind_Ok in Hc as (oh & Hoh & Hg%guard_not_Ok%negb_false_iff%String.eqb_eq).
  apply andb_true_iff in Hf as [Hd _]. split; [done|congruence].
Qed.

Lemma history_facts h : valid_history h ->
  Forall (fun e => la_workspace_id (le_append e) = hr_workspace_id h /\
                   la_session_id (le_append e) = hr_source_session_id h) (hr_ledger_events h) /\
  map le_ledger_seq (hr_ledger_events h) = from_one (length (hr_ledger_events h)) /\
  NoDup (map rs_step_id (hr_steps h)).
Proof.
  intros [Hh _]. unfold new_historical in Hh. apply bind_Ok in Hh as (u & Hc%validated_Ok & _).
  unfold coherent_history in Hc. apply guard_bind in Hc as [He Hc]. apply guard_bind in Hc as [Hq Hc].
  apply guard_bind in Hc as [_ Hd%guard_not_Ok]. split_and!.
  - apply Forall_forall. intros e Hin%list_elem_of_In. rewrite <- not_true_iff_false, existsb_exists in He.
    destruct (decide (la_workspace_id (le_append e) = hr_workspace_id h /\
                      la_session_id (le_append e) = hr_source_session_id h)) as [|Hn]; [done|].
    exfalso. apply He. exists e. split; [done|]. apply orb_true_iff. rewrite !negb_true_iff, !bool_decide_eq_false.
    destruct (decide (la_workspace_id (le_append e) = hr_workspace_id h)); tauto.
  - by apply negb_false_iff, bool_decide_eq_true in Hq.
  - by apply negb_false_iff, bool_decide_eq_true in Hd.
Qed.

Lemma event_digest e : event_valid e -> digest_ok (le_event_hash e) = true /\ (0 < le_ledger_seq e).
Proof.
  intros (a & _ & Hf & _)%new_event_Ok. unfold event_fields_ok in Hf. rewrite !andb_true_iff in Hf.
  destruct Hf as (((H1 & H2) & H3) & H4). split; [done|lia].
Qed.

Lemma new_mismatch_Ok m m' : new_mismatch m = Ok m' <-> mismatch_ok m = true /\ m' = m.
Proof. unfold new_mismatch, construct. destruct (mismatch_ok m); split; [by intros [= <-]|by intros [_ ->]|done|by intros []]. Qed.

End Replay.
