(* ===== verification/ReplayService.v ===== *)
(** * Session replay: the service

    [app/application/replay.py]: [SessionReplayService.replay] and what it
    calls.  The ledger is any [LedgerReader]; [LedgerReaderLaws] says what a
    verification promises to a reader, and the SQL ledger discharges it.  The
    replay source, the registered functions and the live launcher are code
    outside the service: each is a function that returns or raises.  The MARL
    bundles go through [MarlVerify]. *)

From S2P Require Import Prelude.
From S2P Require Import Sha256.
From S2P Require Import Json.
From S2P Require Import Symbolic.
From S2P Require Import ConsensusPorts.
From S2P Require Import ConsensusFacts.
From S2P Require Import Ledger.
From S2P Require Import Marl.
From S2P Require Import MarlBundle.
From S2P Require Import MarlVerify.
From S2P Require Import Replay.
Import Replay.

Local Open Scope Z_scope.

Module Service.

(** ** The ledger as the service reads it *)

Class LedgerReader (L : Type) : Type := {
  lr_verify : uuid -> uuid -> L -> res LedgerVerification;
  lr_read : uuid -> uuid -> Z -> Z -> L -> res (list LedgerEvent);
  lr_size : L -> nat
}.

#[global] Instance sql_reader : LedgerReader ledger := {|
  lr_verify := Ledger.verify;
  lr_read := Ledger.read;
  lr_size st := length (lg_events st)
|}.

Definition _LEDGER_READ_LIMIT : Z := 1000.

(** ** Implementations *)

Record ReplayImplementation : Type := mkImplementation {
  im_identity : ReplayImplementationIdentity;
  im_execute : dict string json -> res ReplayExecution;
  im_deterministic : bool;
  im_external : bool
}.

Definition ReplayImplementationRegistry : Type := gmap (string * string) ReplayImplementation.

Definition _key (i : ReplayImplementationIdentity) : string * string :=
  (ri_implementation_id i, ri_implementation_version i).

Definition register_step (g : ReplayImplementationRegistry) (i : ReplayImplementation)
    : res ReplayImplementationRegistry :=
  let key := _key (im_identity i) in
  _ ← guard_not (is_some (g !! key)) ValueErrorC "duplicate replay implementation identity";
  Ok (<[key := i]> g).

Definition new_registry (implementations : list ReplayImplementation) : res ReplayImplementationRegistry :=
  foldR register_step ∅ implementations.

Definition resolve (g : ReplayImplementationRegistry) (i : ReplayImplementationIdentity)
    : option ReplayImplementation := g !! _key i.

(** ** Failures *)

(** [_failed] *)
Definition _failed (request : ReplayRequest) (mismatch : ReplayMismatch) (checked : Z) : res ReplayResult :=
  new_result (mkResult (rr_mode request) FAILED (rr_workspace_id request) (rr_source_session_id request)
    (rr_manifest request)
    (negb (bool_decide (rm_reason mismatch ∈ [LEDGER_INTEGRITY; LEDGER_MISMATCH])))
    false checked [] (Some mismatch) None None [] []).

(** A mismatch that names no step and no hashes, and one of a step. *)
Definition plain_mismatch (reason : ReplayFailureReason) (detail : string) : res ReplayMismatch :=
  new_mismatch (mkMismatch reason detail None None None None).
Definition step_mismatch (reason : ReplayFailureReason) (detail : string) (s : ReplayStep) : res ReplayMismatch :=
  new_mismatch (mkMismatch reason detail (Some (rs_order s)) (Some (rs_step_id s)) None None).

(** [return self._failed(request, ReplayMismatch(...), checked=...)] *)
Definition fail_with (request : ReplayRequest) (mismatch : res ReplayMismatch) (checked : Z) : res ReplayResult :=
  m ← mismatch; _failed request m checked.

(** [some_check(...)] and, when it found nothing, the next one. *)
Definition and_then (first second : res (option ReplayMismatch)) : res (option ReplayMismatch) :=
  found ← first;
  match found with Some m => Ok (Some m) | None => second end.

Definition found (m : res ReplayMismatch) : res (option ReplayMismatch) := Some <$> m.

(** ** The source *)

Definition _validate_source (request : ReplayRequest) (historical : HistoricalReplay)
    : res (option ReplayMismatch) :=
  if negb (bool_decide (rr_workspace_id request = hr_workspace_id historical))
     || negb (bool_decide (rr_source_session_id request = hr_source_session_id historical))
     || negb (bool_decide (rr_manifest request = hr_manifest historical)) then
    found (plain_mismatch MANIFEST_MISMATCH
             "request does not identify the supplied historical session and manifest")
  else
    let selected := map is_step_id (rr_selections request) in
    let available := map rs_step_id (hr_steps historical) in
    if negb (bool_decide (selected ⊆ available)) then
      found (plain_mismatch MANIFEST_MISMATCH "implementation selection references an unknown historical step")
    else Ok None.

(** ** One step *)

(** [_strict_mismatch] *)
Definition _strict_mismatch (s : ReplayStep) (x : ReplayExecution) : res (option ReplayMismatch) :=
  if negb (bool_decide (Some (rx_implementation x) = rs_implementation s)) then
    found (step_mismatch UNKNOWN_IMPLEMENTATION
             "executor did not use the exact pinned implementation identity" s)
  else if negb (String.eqb (rx_output_hash x) (rs_expected_output_hash s)) then
    found (new_mismatch (mkMismatch OUTPUT_MISMATCH "deterministic output differs from the historical output"
             (Some (rs_order s)) (Some (rs_step_id s)) (Some (rs_expected_output_hash s)) (Some (rx_output_hash x))))
  else if negb (bool_decide (rx_status x = rs_expected_status s)) then
    found (step_mismatch OUTPUT_MISMATCH "deterministic status differs from the historical status" s)
  else Ok None.

(** [fields] of [_differences], with what [getattr] reads. *)
Definition compared_fields
    : list (string * ReplayDifferenceKind * (ReplayImplementationIdentity -> option string)) :=
  [("implementation_id", IMPLEMENTATION, fun i => Some (ri_implementation_id i));
   ("implementation_version", IMPLEMENTATION, fun i => Some (ri_implementation_version i));
   ("provider", PROVIDER, ri_provider); ("model", MODEL, ri_model);
   ("configuration_hash", CONFIGURATION, ri_configuration_hash)].

(** One comparison: the difference it appends, if any. *)
Definition compare_field (s : ReplayStep) (kind : ReplayDifferenceKind) (field : string)
    (expected actual : option string) : list ReplayDifference :=
  if bool_decide (expected = actual) then []
  else [mkDifference (rs_order s) (rs_step_id s) (rs_kind s) kind field expected actual].

(** What [_differences] appends, in order, on the pinned identity. *)
Definition all_differences (s : ReplayStep) (pinned : ReplayImplementationIdentity) (x : ReplayExecution)
    : list ReplayDifference :=
  flat_map (fun '(field, kind, get) => compare_field s kind field (get pinned) (get (rx_implementation x)))
    compared_fields
  ++ compare_field s OUTPUT "output_hash" (Some (rs_expected_output_hash s)) (Some (rx_output_hash x))
  ++ compare_field s (if rs_timing_sensitive s then TIMING_SENSITIVE else STATUS) "status"
       (rs_expected_status s) (rx_status x).

(** [_differences] *)
Definition _differences (s : ReplayStep) (x : ReplayExecution) : res (list ReplayDifference) :=
  match rs_implementation s with
  | None => raise AssertionErrorC ""
  | Some pinned => mapR new_difference (all_differences s pinned x)
  end.

(** ** The two re-executions *)

Section execution.
Variable implementations : ReplayImplementationRegistry.
Variable request : ReplayRequest.

Definition completed (outcome : ReplayOutcome) (checked : Z) (differences : list ReplayDifference)
    : res ReplayResult :=
  new_result (mkResult (rr_mode request) outcome (rr_workspace_id request) (rr_source_session_id request)
    (rr_manifest request) true (negb (nonempty differences)) checked differences None None None [] []).

(** The loop of [_strict] and what follows it. *)
Fixpoint strict_loop (checked : Z) (steps : list ReplayStep) : res ReplayResult :=
  match steps with
  | [] => completed VERIFIED checked []
  | s :: rest =>
      if bool_decide (rs_policy s = RECORDED) then strict_loop (checked + 1) rest
      else
        match rs_implementation s with
        | None => raise AssertionErrorC ""
        | Some identity =>
            match resolve implementations identity with
            | None =>
                fail_with request
                  (step_mismatch UNKNOWN_IMPLEMENTATION "the exact pinned implementation is unavailable" s) checked
            | Some implementation =>
                if im_external implementation || negb (im_deterministic implementation) then
                  fail_with request
                    (step_mismatch NONDETERMINISTIC_IMPLEMENTATION
                       "strict replay prohibits external or nondeterministic execution" s) checked
                else
                  x ← im_execute implementation (rs_input s);
                  mismatch ← _strict_mismatch s x;
                  match mismatch with
                  | Some m => _failed request m (checked + 1)
                  | None => strict_loop (checked + 1) rest
                  end
            end
        end
  end.

Definition _strict (historical : HistoricalReplay) : res ReplayResult := strict_loop 0 (hr_steps historical).

(** [{item.step_id: item.implementation for item in ...}] *)
Definition selections : gmap uuid ReplayImplementationIdentity :=
  is_implementation <$> index_by is_step_id (rr_selections request).

(** The loop of [_tolerant] and what follows it. *)
Fixpoint tolerant_loop (checked : Z) (differences : list ReplayDifference) (steps : list ReplayStep)
    : res ReplayResult :=
  match steps with
  | [] => completed (if nonempty differences then DIFFERENT else MATCHED) checked differences
  | s :: rest =>
      if bool_decide (rs_policy s = RECORDED) then tolerant_loop (checked + 1) differences rest
      else if bool_decide (rs_policy s = EXTERNAL) && negb (rs_tolerant_reexecution_allowed s)
      then tolerant_loop checked differences rest
      else
        match rs_implementation s with
        | None => raise AssertionErrorC ""
        | Some pinned =>
            let identity := default pinned (selections !! rs_step_id s) in
            match resolve implementations identity with
            | None =>
                fail_with request
                  (step_mismatch UNKNOWN_IMPLEMENTATION
                     "the selected tolerant replay implementation is unavailable" s) checked
            | Some implementation =>
                x ← im_execute implementation (rs_input s);
                ds ← _differences s x;
                tolerant_loop (checked + 1) (differences ++ ds) rest
            end
        end
  end.

Definition _tolerant (historical : HistoricalReplay) : res ReplayResult := tolerant_loop 0 [] (hr_steps historical).

End execution.

(** ** Live replay *)

Definition LiveReplayLauncher : Type :=
  ReplayRequest -> HistoricalReplay -> gmap uuid ReplayImplementationIdentity -> res LiveReplayLaunch.

Definition historical_ids (h : HistoricalReplay) : gset uuid :=
  list_to_set (map (fun e => la_id (le_append e)) (hr_ledger_events h))
  ∪ list_to_set (map rs_step_id (hr_steps h))
  ∪ {[mr_manifest_id (hr_manifest h); hr_source_session_id h]}.

Definition new_ids (l : LiveReplayLaunch) : gset uuid :=
  {[ll_session_id l; ll_manifest_id l]} ∪ list_to_set (ll_event_ids l) ∪ list_to_set (ll_result_ids l).

Definition _live (launcher : option LiveReplayLauncher) (request : ReplayRequest) (historical : HistoricalReplay)
    : res ReplayResult :=
  match launcher with
  | None =>
      fail_with request (plain_mismatch LIVE_LAUNCH_UNAVAILABLE "live replay launcher is unavailable") 0
  | Some launch =>
      l ← launch request historical (selections request);
      if negb (bool_decide (ll_source_session_id l = hr_source_session_id historical)) then
        fail_with request
          (plain_mismatch INVALID_LIVE_IDENTITY "live replay did not link to the historical source session") 0
      else if negb (bool_decide (historical_ids historical ∩ new_ids l = ∅)) then
        fail_with request (plain_mismatch INVALID_LIVE_IDENTITY "live replay reused a historical identity") 0
      else
        new_result (mkResult (rr_mode request) LIVE_STARTED (rr_workspace_id request)
          (rr_source_session_id request) (rr_manifest request) true false 0 [] None
          (Some (ll_session_id l)) (Some (ll_manifest_id l)) (ll_event_ids l) (ll_result_ids l))
  end.

(** ** The service *)

Section service.
Context {L : Type} `{LedgerReader L}.

(** The loop that reads the session in batches, from a sequence number: the rest
    of its events.  The fuel is one more than the events the ledger holds. *)
Fixpoint read_loop (fuel : nat) (ws sid : uuid) (next_seq : Z) (st : L) : res (list LedgerEvent) :=
  match fuel with
  | O => raise RuntimeErrorC "the ledger keeps returning full batches"
  | S fuel' =>
      batch ← lr_read ws sid next_seq _LEDGER_READ_LIMIT st;
      if Z.of_nat (length batch) <? _LEDGER_READ_LIMIT then Ok batch
      else
        match last batch with
        | None => raise IndexErrorC "tuple index out of range"
        | Some e =>
            rest ← read_loop fuel' ws sid (le_ledger_seq e + 1) st;
            Ok (batch ++ rest)
        end
  end.

(** [zip(historical.ledger_events, actual)]: the first pair of different hashes. *)
Fixpoint first_divergence (recorded replayed : list LedgerEvent) : option (LedgerEvent * LedgerEvent) :=
  match recorded, replayed with
  | r :: recorded', p :: replayed' =>
      if String.eqb (le_event_hash r) (le_event_hash p) then first_divergence recorded' replayed' else Some (r, p)
  | _, _ => None
  end.

Definition compare_events (recorded replayed : list LedgerEvent) : res (option ReplayMismatch) :=
  match first_divergence recorded replayed with
  | Some (r, p) =>
      found (new_mismatch (mkMismatch LEDGER_MISMATCH
               "historical ledger differs at the first recorded event hash"
               (Some (le_ledger_seq r)) None (Some (le_event_hash r)) (Some (le_event_hash p))))
  | None =>
      if (length recorded =? length replayed)%nat then Ok None
      else found (new_mismatch (mkMismatch LEDGER_MISMATCH
                    "historical ledger event count differs from the replay source"
                    (Some (Z.of_nat (Nat.min (length recorded) (length replayed)) + 1)) None None None))
  end.

(** [verification.reason or "..."] *)
Definition reason_or (reason : option string) (fallback : string) : string :=
  match reason with Some r => if filled r then r else fallback | None => fallback end.

Definition _verify_ledger (historical : HistoricalReplay) (st : L) : res (option ReplayMismatch) :=
  let ws := hr_workspace_id historical in
  let sid := hr_source_session_id historical in
  verification ← lr_verify ws sid st;
  if negb (lv_valid verification) then
    found (new_mismatch (mkMismatch LEDGER_INTEGRITY
             (reason_or (lv_reason verification) "reasoning ledger verification failed")
             (lv_first_invalid_seq verification) None None None))
  else
    actual ← read_loop (S (lr_size st)) ws sid 1 st;
    compare_events (hr_ledger_events historical) actual.

(** The MARL registry and the decoders of the validation library. *)
Variable marl_implementations : option MarlBundle.ImplementationRegistry.
Variable decode_manifest : string -> option MarlBundle.TrajectoryManifestV1.
Variable decode_transition : string -> option (Marl.sealed Marl.Transition).
Variable decode_boundary : string -> option (Marl.sealed Marl.DecisionBoundary).
Variable decode_marker : string -> option (Marl.sealed Marl.IncompleteMarker).

Definition verify_marl_bundle (b : MarlReplayBundle) (registry : MarlBundle.ImplementationRegistry)
    : res MarlVerify.ReplayVerificationV1 :=
  MarlVerify.verify_bundle decode_manifest decode_transition decode_boundary decode_marker
    (mb_manifest b) (mb_trajectory b) registry [MarlBundle.MANIFEST_FILE; MarlBundle.TRAJECTORY_FILE]
    MarlBundle.default_limits.

Definition marl_mismatch (v : MarlVerify.ReplayVerificationV1) : res ReplayMismatch :=
  new_mismatch
    match MarlVerify.rv_first_failure v with
    | Some f =>
        mkMismatch MARL_REPLAY_FAILED (MarlVerify.rf_detail f) (Z.succ <$> MarlVerify.rf_decision_index f) None
          (MarlVerify.rf_expected_hash f) (MarlVerify.rf_actual_hash f)
    | None => mkMismatch MARL_REPLAY_FAILED "MARL replay failed" None None None None
    end.

(** [for bundle in historical.marl_bundles: ...] *)
Fixpoint verify_bundles (registry : MarlBundle.ImplementationRegistry) (bundles : list MarlReplayBundle)
    : res (option ReplayMismatch) :=
  match bundles with
  | [] => Ok None
  | b :: rest =>
      v ← verify_marl_bundle b registry;
      if bool_decide (MarlVerify.rv_outcome v = MarlVerify.VERIFIED) then verify_bundles registry rest
      else found (marl_mismatch v)
  end.

Definition _verify_marl (historical : HistoricalReplay) : res (option ReplayMismatch) :=
  match hr_marl_bundles historical with
  | [] => Ok None
  | bundles =>
      match marl_implementations with
      | None =>
          found (plain_mismatch UNKNOWN_IMPLEMENTATION "Phase 12 MARL implementation registry is unavailable")
      | Some registry => verify_bundles registry bundles
      end
  end.

Variable source : uuid -> uuid -> ReplayManifestRef -> res (option HistoricalReplay).
Variable implementations : ReplayImplementationRegistry.
Variable live_launcher : option LiveReplayLauncher.

Definition replay_mode (request : ReplayRequest) (historical : HistoricalReplay) : res ReplayResult :=
  match rr_mode request with
  | STRICT => _strict implementations request historical
  | TOLERANT => _tolerant implementations request historical
  | LIVE => _live live_launcher request historical
  end.

(** The three checks every mode starts with. *)
Definition source_mismatch (request : ReplayRequest) (historical : HistoricalReplay) (st : L)
    : res (option ReplayMismatch) :=
  and_then (_validate_source request historical)
    (and_then (_verify_ledger historical st) (_verify_marl historical)).

Definition replay (request : ReplayRequest) (st : L) : res ReplayResult :=
  historical ← source (rr_workspace_id request) (rr_source_session_id request) (rr_manifest request);
  match historical with
  | None =>
      fail_with request
        (plain_mismatch HISTORICAL_REPLAY_UNAVAILABLE "the exact historical session and manifest are unavailable") 0
  | Some h =>
      mismatch ← source_mismatch request h st;
      match mismatch with
      | Some m => _failed request m 0
      | None => replay_mode request h
      end
  end.

End service.

End Service.
