(* ===== verification/ReplayFacts.v ===== *)
(** * Session replay: what it promises

    [LedgerReaderLaws] is the contract of a ledger towards a reader; the SQL
    ledger is an instance.  Against it: the batched read returns the whole
    session, STRICT verifies exactly what reproduces, TOLERANT reports exactly
    what differs, LIVE starts only under fresh identities, and every replay of
    well-formed inputs answers. *)

From S2P Require Import Prelude.
From S2P Require Import Sha256.
From S2P Require Import Json.
From S2P Require Import Symbolic.
From S2P Require Import ConsensusPorts.
From S2P Require Import ConsensusFacts.
From S2P Require Import Ledger.
From S2P Require Import Marl.
From S2P Require Import MarlBundle.
From S2P Require Import MarlVerify.
From S2P Require Import Replay.
From S2P Require Import ReplayService.
Import Replay Service.

Local Open Scope Z_scope.

(** ** What a verification promises to a reader *)

Definition numbered_from_one (es : list LedgerEvent) : Prop :=
  forall i e, es !! i = Some e -> le_ledger_seq e = 1 + Z.of_nat i.

(** [es] is the session: every read is a slice of it. *)
Record whole_session {L} `{LedgerReader L} (ws sid : uuid) (st : L) (es : list LedgerEvent) : Prop := {
  wh_bound : (length es <= lr_size st)%nat;
  wh_numbered : numbered_from_one es;
  wh_valid : Forall event_valid es;
  wh_read : forall from limit, 0 < from -> 0 < limit ->
    lr_read ws sid from limit st = Ok (take (Z.to_nat limit) (drop (Z.to_nat (from - 1)) es))
}.

Class LedgerReaderLaws (L : Type) `{LedgerReader L} : Prop := {
  lr_verified : forall ws sid st v, lr_verify ws sid st = Ok v -> lv_valid v = true ->
    exists es, whole_session ws sid st es;
  lr_refused : forall ws sid st v, lr_verify ws sid st = Ok v -> lv_valid v = false ->
    exists reason, lv_reason v = Some reason /\ blank reason = false /\
      opt_ok (Z.ltb 0) (lv_first_invalid_seq v) = true
}.

Lemma new_verification_Ok v v' :
  new_verification v = Ok v' ->
  v' = v /\ opt_ok (Z.ltb 0) (lv_first_invalid_seq v) = true /\ failure_shape v = Ok tt.
Proof.
  unfold new_verification. intros (u & [Hf ->]%construct_Ok & H)%bind_Ok.
  apply bind_Ok in H as ([] & Hs%validated_Ok & [= <-]). apply andb_true_iff in Hf as [_ Hf].
  split; [done|]. split; [|done]. destruct (lv_first_invalid_seq v); exact Hf.
Qed.

Lemma verify_loop_reason seq prev es fs reason :
  verify_loop seq prev es = Ok (inr (fs, reason)) -> blank reason = false.
Proof.
  revert seq prev; induction es as [|e es IH]; intros seq prev; cbn [verify_loop]; [done|].
  destruct (negb _); [by intros [= _ <-]|]. intros (ph & _ & H)%bind_Ok.
  destruct (negb _); [by injection H as _ <-|]. destruct (negb _); [by injection H as _ <-|].
  apply bind_Ok in H as (eh & _ & H). destruct (negb _); [by injection H as _ <-|]. by apply IH in H.
Qed.

Lemma sql_refused ws sid st v :
  Ledger.verify ws sid st = Ok v -> lv_valid v = false ->
  exists reason, lv_reason v = Some reason /\ blank reason = false /\
    opt_ok (Z.ltb 0) (lv_first_invalid_seq v) = true.
Proof.
  unfold Ledger.verify. destruct (lg_heads st !! _) as [h|].
  - intros (es & _ & (f & Hf & H)%bind_Ok)%bind_Ok Hv. destruct f as [[fs reason]|].
    + apply new_verification_Ok in H as (-> & Ho & _). exists reason. split; [done|]. split; [|done].
      unfold _verify_events in Hf. apply bind_Ok in Hf as (r & Hr & Hf). destruct r as [p|[fs' r']].
      * destruct (negb _); [by injection Hf as _ <-|]. destruct (negb _); [by injection Hf as _ <-|done].
      * injection Hf as -> ->. by eapply verify_loop_reason.
    + apply new_verification_Ok in H as (-> & _ & _). done.
  - intros H Hv. apply new_verification_Ok in H as (-> & Ho & _). by eexists.
Qed.

Lemma chain_whole_session ws sid st h es :
  mapR _event_from_row (session_rows ws sid st) = Ok es ->
  chain 1 GENESIS_HASH es (head_hash h) -> whole_session ws sid st es.
Proof.
  intros Hes Hc. split.
  - pose proof Hes as HF%mapR_Ok%Forall2_length. rewrite <- HF. unfold session_rows. rewrite sort_by_length.
    cbn [lr_size sql_reader]. apply List.filter_length_le.
  - intros i e. by eapply chain_seq.
  - apply Forall_forall. intros e He. destruct (mapR_elem _ _ _ _ Hes He) as (r & _ & Hr).
    by apply event_from_row_facts in Hr as [? _].
  - intros from limit Hf Hl. cbn [lr_read sql_reader]. unfold Ledger.read, guard_not.
    replace (from <=? 0) with false by lia. replace (limit <=? 0) with false by lia. cbn [mbind res_bind].
    rewrite (chain_suffix _ es 1 GENESIS_HASH (head_hash h)) by done.
    apply mapR_Ok, Forall2_take, Forall2_drop, mapR_Ok. done.
Qed.

#[global] Instance sql_reader_laws : LedgerReaderLaws ledger.
Proof.
  split.
  - intros ws sid st v Hv Hval. destruct (proj1 (verify_valid ws sid st v Hv) Hval) as (h & es & _ & Hes & Hc & _).
    exists es. by eapply chain_whole_session.
  - intros ws sid st v. apply sql_refused.
Qed.

(** ** The batched read *)

Section reading.
Context {L : Type} `{LedgerReader L}.

Lemma last_of_slice {A} (l : list A) k e :
  (0 < k)%nat -> length (take k l) = k -> last (take k l) = Some e -> l !! (k - 1)%nat = Some e.
Proof. intros Hk Hlen. rewrite last_lookup, Hlen. rewrite lookup_take_lt by lia. by replace (Init.Nat.pred k) with (k - 1)%nat by lia. Qed.

Lemma read_loop_rest ws sid st es fuel next :
  whole_session ws sid st es -> 0 < next ->
  (length (drop (Z.to_nat (next - 1)) es) < fuel)%nat ->
  read_loop fuel ws sid next st = Ok (drop (Z.to_nat (next - 1)) es).
Proof.
  intros Hw. assert (Hpos : 0 < _LEDGER_READ_LIMIT) by done.
  revert next; induction fuel as [|fuel IH]; intros next Hn Hf; [lia|]. cbn [read_loop].
  rewrite (wh_read _ _ _ _ Hw) by done. cbn [mbind res_bind].
  remember (drop (Z.to_nat (next - 1)) es) as rest eqn:Hrest.
  remember (Z.to_nat _LEDGER_READ_LIMIT) as k eqn:Hk. pose proof (length_take rest k) as Hlen.
  destruct (Z.ltb_spec (Z.of_nat (length (take k rest))) _LEDGER_READ_LIMIT) as [Hs|Hs].
  { rewrite take_ge; [done|lia]. }
  destruct (last (take k rest)) as [e|] eqn:He.
  2: { apply last_None in He. rewrite He in Hs. cbn in Hs. lia. }
  apply last_of_slice in He; [|lia|lia]. rewrite Hrest, lookup_drop in He.
  apply (wh_numbered _ _ _ _ Hw) in He. rewrite He.
  assert (Hd : drop (Z.to_nat (1 + Z.of_nat (Z.to_nat (next - 1) + (k - 1)) + 1 - 1)) es = drop k rest).
  { rewrite Hrest, drop_drop. f_equal. lia. }
  rewrite IH; [|lia|rewrite Hd, length_drop; lia]. rewrite Hd. cbn [mbind res_bind]. by rewrite take_drop.
Qed.

Lemma read_loop_whole ws sid st es :
  whole_session ws sid st es -> read_loop (S (lr_size st)) ws sid 1 st = Ok es.
Proof. intros Hw. rewrite (read_loop_rest _ _ _ _ _ _ Hw); [done|lia|]. rewrite length_drop. pose proof (wh_bound _ _ _ _ Hw). lia. Qed.

End reading.

(** ** The batched read ends *)

(** The rows of a session from a sequence number on. *)
Definition rows_from (ws sid : uuid) (from : Z) (st : ledger) : list row :=
  List.filter (fun r => from <=? rw_ledger_seq r) (session_rows ws sid st).

Lemma session_rows_sorted ws sid st :
  StronglySorted (fun a b => (rw_ledger_seq a <=? rw_ledger_seq b) = true) (session_rows ws sid st).
Proof. apply sort_by_sorted; intros; [rewrite !Z.leb_le; lia|rewrite Z.leb_le in *; lia]. Qed.

(** In a sorted list, what lies above the last of a prefix lies behind it. *)
Lemma above_prefix k r (l : list row) :
  StronglySorted (fun a b => (rw_ledger_seq a <=? rw_ledger_seq b) = true) l ->
  last (take k l) = Some r ->
  (length (List.filter (fun x => (rw_ledger_seq r + 1 <=? rw_ledger_seq x)%Z) l) <= length l - length (take k l))%nat.
Proof.
  intros Hs. revert k; induction Hs as [|x l Hs IH Hx]; intros [|k]; try done. cbn [take]. intros Hr.
  assert (Hxr : rw_ledger_seq x <= rw_ledger_seq r).
  { apply last_Some_elem_of in Hr. apply elem_of_cons in Hr as [->|Hr%elem_of_take]; [lia|].
    destruct Hr as (i & Hi & _). rewrite List.Forall_forall in Hx. apply Z.leb_le, Hx.
    by eapply list_elem_of_In, list_elem_of_lookup_2. }
  cbn [List.filter length]. replace (rw_ledger_seq r + 1 <=? rw_ledger_seq x) with false by lia.
  destruct (take k l) as [|y l'] eqn:Hk.
  - pose proof (List.filter_length_le (fun x => rw_ledger_seq r + 1 <=? rw_ledger_seq x) l). cbn [length]. lia.
  - rewrite <- Hk in *. assert (Hr' : last (take k l) = Some r) by (rewrite Hk in Hr |- *; exact Hr).
    specialize (IH k Hr'). lia.
Qed.

Lemma filter_leb_trans a b (l : list row) :
  a <= b ->
  List.filter (fun r => b <=? rw_ledger_seq r) (List.filter (fun r => a <=? rw_ledger_seq r) l)
  = List.filter (fun r => b <=? rw_ledger_seq r) l.
Proof.
  intros Hab. induction l as [|x l IH]; [done|]. cbn [List.filter].
  destruct (Z.leb_spec a (rw_ledger_seq x)); cbn [List.filter]; rewrite IH; [done|].
  by replace (b <=? rw_ledger_seq x) with false by lia.
Qed.

Lemma filter_sorted {A} (R : A -> A -> Prop) (f : A -> bool) l : StronglySorted R l -> StronglySorted R (List.filter f l).
Proof.
  induction 1 as [|x l _ IH Hx]; [constructor|]. cbn [List.filter]. destruct (f x); [|done].
  constructor; [done|]. rewrite List.Forall_forall in *. intros y [Hy _]%List.filter_In. auto.
Qed.

(** A full batch leaves fewer rows, whatever the tables hold. *)
Lemma full_batch_progress ws sid st next batch e :
  lr_read ws sid next _LEDGER_READ_LIMIT st = Ok batch -> last batch = Some e ->
  next <= le_ledger_seq e /\
  (length (rows_from ws sid (le_ledger_seq e + 1) st) < length (rows_from ws sid next st))%nat.
Proof.
  cbn [lr_read sql_reader]. unfold Ledger.read. intros (u1 & _ & (u2 & _ & Hb)%bind_Ok)%bind_Ok Hl.
  fold (rows_from ws sid next st) in Hb. remember (Z.to_nat _LEDGER_READ_LIMIT) as k eqn:Hk.
  apply mapR_Ok in Hb. rewrite last_lookup in Hl.
  destruct (Forall2_lookup_r _ _ _ _ _ Hb Hl) as (r & Hr & He%event_from_row_facts).
  assert (Hlast : last (take k (rows_from ws sid next st)) = Some r)
    by (rewrite last_lookup; by rewrite (Forall2_length _ _ _ Hb)).
  destruct He as (_ & Hseq & _). rewrite Hseq.
  assert (Hge : next <= rw_ledger_seq r).
  { apply last_Some_elem_of, elem_of_take in Hlast as (i & Hi & _).
    apply list_elem_of_lookup_2, filter_elem in Hi as [_ Hi]. lia. }
  split; [done|]. unfold rows_from at 1. rewrite <- (filter_leb_trans next) by lia. fold (rows_from ws sid next st).
  assert (Hpos : (0 < length (take k (rows_from ws sid next st)))%nat) by (destruct (take k _); [done|cbn; lia]).
  eapply Nat.le_lt_trans; [eapply above_prefix; [apply filter_sorted, session_rows_sorted|exact Hlast]|].
  rewrite length_take in *. lia.
Qed.

Lemma read_loop_fuel ws sid (st : ledger) fuel fuel' next :
  (length (rows_from ws sid next st) < fuel)%nat -> (length (rows_from ws sid next st) < fuel')%nat ->
  read_loop fuel ws sid next st = read_loop fuel' ws sid next st.
Proof.
  revert fuel' next; induction fuel as [|fuel IH]; intros [|fuel'] next H1 H2; try lia. cbn [read_loop].
  destruct (lr_read ws sid next _LEDGER_READ_LIMIT st) as [batch|x] eqn:Hb; [|done]. cbn [mbind res_bind].
  destruct (_ <? _); [done|]. destruct (last batch) as [e|] eqn:He; [|done].
  destruct (full_batch_progress _ _ _ _ _ _ Hb He) as [_ Hlt]. rewrite (IH fuel'); [done|lia|lia].
Qed.

Lemma rows_from_bound ws sid from st : (length (rows_from ws sid from st) <= length (lg_events st))%nat.
Proof.
  unfold rows_from, session_rows. etransitivity; [apply List.filter_length_le|]. rewrite sort_by_length.
  apply List.filter_length_le.
Qed.

(** The batched read ends: over the SQL ledger the loop that reads a session a
    thousand events at a time needs no more rounds than there are events in the
    tables, whatever the tables hold; and when the verification accepts the
    session it returns the session's rows as events, all of them, in order. *)
Theorem batched_read_is_complete ws sid (st : ledger) fuel (Hf : (length (lg_events st) < fuel)%nat) :
  (forall fuel', (fuel <= fuel')%nat -> read_loop fuel' ws sid 1 st = read_loop fuel ws sid 1 st) /\
  (forall v, Ledger.verify ws sid st = Ok v -> lv_valid v = true ->
   exists es, mapR _event_from_row (session_rows ws sid st) = Ok es /\ read_loop fuel ws sid 1 st = Ok es).
Proof.
  pose proof (rows_from_bound ws sid 1 st) as Hb. split.
  - intros fuel' Hle. apply read_loop_fuel; lia.
  - intros v Hv Hval. destruct (proj1 (verify_valid ws sid st v Hv) Hval) as (h & es & _ & Hes & Hc & _).
    exists es. split; [done|]. rewrite <- (read_loop_whole ws sid st es) by by eapply chain_whole_session.
    apply read_loop_fuel; cbn [lr_size sql_reader]; lia.
Qed.

(** ** Comparing the recorded events with the ledger's *)

Lemma first_divergence_None recorded replayed :
  first_divergence recorded replayed = None -> length recorded = length replayed ->
  map le_event_hash recorded = map le_event_hash replayed.
Proof.
  revert replayed; induction recorded as [|r recorded IH]; intros [|p replayed]; try done.
  cbn [first_divergence]. destruct (String.eqb_spec (le_event_hash r) (le_event_hash p)) as [Heq|]; [|done].
  intros Hd [= Hl]. cbn [map]. by rewrite Heq, (IH replayed).
Qed.

Lemma first_divergence_same recorded replayed :
  map le_event_hash recorded = map le_event_hash replayed -> first_divergence recorded replayed = None.
Proof.
  revert replayed; induction recorded as [|r recorded IH]; intros [|p replayed]; try done.
  cbn [map first_divergence]. intros [= Hh Hr]. rewrite Hh, String.eqb_refl. by apply IH.
Qed.

Lemma compare_events_None recorded replayed :
  compare_events recorded replayed = Ok None <-> map le_event_hash recorded = map le_event_hash replayed.
Proof.
  unfold compare_events. split.
  - destruct (first_divergence recorded replayed) as [[r p]|] eqn:Hd.
    { unfold found. intros (m & _ & ?)%fmap_Ok. done. }
    destruct (Nat.eqb_spec (length recorded) (length replayed)); [by intros _; apply first_divergence_None|].
    unfold found. intros (m & _ & ?)%fmap_Ok. done.
  - intros Heq. rewrite first_divergence_same by done. apply (f_equal length) in Heq. rewrite !length_map in Heq.
    by rewrite Heq, Nat.eqb_refl.
Qed.

(** The pair at which the comparison stops. *)
Lemma first_divergence_elem recorded replayed r p :
  first_divergence recorded replayed = Some (r, p) -> r ∈ recorded /\ p ∈ replayed.
Proof.
  revert replayed; induction recorded as [|r' recorded IH]; intros [|p' replayed]; try done.
  cbn [first_divergence]. destruct (String.eqb _ _); [intros (? & ?)%IH; split; by right|].
  intros [= -> ->]. split; by left.
Qed.

Lemma found_not_None m : found m <> Ok None.
Proof. unfold found. intros (x & _ & ?)%fmap_Ok. done. Qed.

Lemma and_then_None a b : and_then a b = Ok None <-> a = Ok None /\ b = Ok None.
Proof.
  unfold and_then. destruct a as [[m|]|x]; cbn; split; [done|by intros []|by split|by intros []|done|by intros []].
Qed.

Lemma validate_source_None request h :
  _validate_source request h = Ok None <->
  rr_workspace_id request = hr_workspace_id h /\ rr_source_session_id request = hr_source_session_id h /\
  rr_manifest request = hr_manifest h /\ map is_step_id (rr_selections request) ⊆ map rs_step_id (hr_steps h).
Proof.
  unfold _validate_source.
  destruct (decide (rr_workspace_id request = hr_workspace_id h)) as [H1|H1];
    [rewrite (bool_decide_true _ H1)|rewrite (bool_decide_false _ H1)]; cbn [negb orb];
    [|split; [by intros ?%found_not_None|by intros []]].
  destruct (decide (rr_source_session_id request = hr_source_session_id h)) as [H2|H2];
    [rewrite (bool_decide_true _ H2)|rewrite (bool_decide_false _ H2)]; cbn [negb orb];
    [|split; [by intros ?%found_not_None|by intros (_ & ? & _)]].
  destruct (decide (rr_manifest request = hr_manifest h)) as [H3|H3];
    [rewrite (bool_decide_true _ H3)|rewrite (bool_decide_false _ H3)]; cbn [negb orb];
    [|split; [by intros ?%found_not_None|by intros (_ & _ & ? & _)]].
  destruct (bool_decide (_ ⊆ _)) eqn:H4; cbn [negb].
  - apply bool_decide_eq_true in H4. by split.
  - apply bool_decide_eq_false in H4. split; [by intros ?%found_not_None|by intros (_ & _ & _ & ?)].
Qed.

(** ** Re-executing one step *)

(** The step is on record only, or its pinned implementation reproduces it. *)
Definition reproduced (g : ReplayImplementationRegistry) (s : ReplayStep) : Prop :=
  rs_policy s = RECORDED \/
  exists i implementation x,
    rs_implementation s = Some i /\ resolve g i = Some implementation /\
    im_external implementation = false /\ im_deterministic implementation = true /\
    im_execute implementation (rs_input s) = Ok x /\
    rx_implementation x = i /\ rx_output_hash x = rs_expected_output_hash s /\ rx_status x = rs_expected_status s.

Lemma strict_mismatch_None s x :
  _strict_mismatch s x = Ok None <->
  Some (rx_implementation x) = rs_implementation s /\ rx_output_hash x = rs_expected_output_hash s /\
  rx_status x = rs_expected_status s.
Proof.
  unfold _strict_mismatch. case_bool_decide as H1; cbn [negb]; [|split; [by intros ?%found_not_None|by intros [? _]]].
  destruct (String.eqb_spec (rx_output_hash x) (rs_expected_output_hash s)); cbn [negb];
    [|split; [by intros ?%found_not_None|by intros (_ & ? & _)]].
  case_bool_decide as H3; cbn [negb]; [by split|split; [by intros ?%found_not_None|by intros (_ & _ & ?)]].
Qed.

Lemma new_replay_result_Ok r r' : new_result r = Ok r' -> r' = r /\ result_shape r = Ok tt /\ 0 <= rp_checked_steps r.
Proof.
  unfold new_result. intros (u & [Hc ->]%construct_Ok & H)%bind_Ok.
  apply bind_Ok in H as ([] & Hs%validated_Ok & [= <-]). split; [done|]. split; [done|lia].
Qed.

Lemma failed_outcome request m checked r :
  _failed request m checked = Ok r -> rp_outcome r = FAILED /\ rp_first_mismatch r = Some m.
Proof. unfold _failed. by intros (-> & _)%new_replay_result_Ok. Qed.

Lemma fail_with_outcome request m checked r : fail_with request m checked = Ok r -> rp_outcome r = FAILED.
Proof. unfold fail_with. intros (m' & _ & Hr)%bind_Ok. exact (proj1 (failed_outcome _ _ _ _ Hr)). Qed.

(** The result of a strict replay in which everything matched. *)
Definition verified_result (request : ReplayRequest) (checked : Z) : ReplayResult :=
  mkResult (rr_mode request) VERIFIED (rr_workspace_id request) (rr_source_session_id request)
    (rr_manifest request) true true checked [] None None None [] [].

Lemma completed_verified request checked :
  rr_mode request = STRICT -> 0 <= checked -> completed request VERIFIED checked [] = Ok (verified_result request checked).
Proof.
  intros Hm Hc. unfold completed, new_result, construct. cbn [rp_checked_steps].
  replace (0 <=? checked) with true by lia. cbn [mbind res_bind]. unfold result_shape. cbn [rp_mode]. unfold verified_result; by rewrite Hm.
Qed.

Lemma strict_loop_reproduced g request checked steps :
  rr_mode request = STRICT -> 0 <= checked -> Forall (reproduced g) steps ->
  strict_loop g request checked steps = Ok (verified_result request (checked + Z.of_nat (length steps))).
Proof.
  intros Hm Hc Hs. revert checked Hc; induction Hs as [|s steps Hs _ IH]; intros checked Hc.
  { cbn [strict_loop length]. rewrite Z.add_0_r. by apply completed_verified. }
  cbn [strict_loop length]. replace (checked + Z.of_nat (S (length steps))) with (checked + 1 + Z.of_nat (length steps)) by lia.
  destruct Hs as [Hp|(i & impl & x & Hi & Hr & He & Hd & Hx & H1 & H2 & H3)].
  - rewrite bool_decide_true by done. apply IH. lia.
  - destruct (bool_decide (rs_policy s = RECORDED)); [apply IH; lia|].
    rewrite Hi, Hr, He, Hd. cbn [negb orb]. rewrite Hx. cbn [mbind res_bind].
    rewrite (proj2 (strict_mismatch_None s x)) by (split_and!; congruence). cbn [mbind res_bind]. apply IH. lia.
Qed.

Lemma strict_loop_verified g request checked steps r :
  strict_loop g request checked steps = Ok r -> rp_outcome r = VERIFIED -> Forall (reproduced g) steps.
Proof.
  revert checked; induction steps as [|s steps IH]; intros checked H Ho; [constructor|]. cbn [strict_loop] in H.
  destruct (bool_decide (rs_policy s = RECORDED)) eqn:Hp.
  { constructor; [left; by apply bool_decide_eq_true in Hp|by eapply IH]. }
  destruct (rs_implementation s) as [i|] eqn:Hi; [|done].
  destruct (resolve g i) as [impl|] eqn:Hr; [|apply fail_with_outcome in H; congruence].
  destruct (im_external impl || negb (im_deterministic impl)) eqn:Hd; [apply fail_with_outcome in H; congruence|].
  apply orb_false_iff in Hd as [He Hd%negb_false_iff].
  apply bind_Ok in H as (x & Hx & H). apply bind_Ok in H as ([m|] & Hm & H); [apply failed_outcome in H as [? _]; congruence|].
  constructor; [|by eapply IH]. apply strict_mismatch_None in Hm as (H1 & H2 & H3).
  right. exists i, impl, x. split_and!; try done. rewrite Hi in H1. congruence.
Qed.

(** A strict replay ends verified or failed. *)
Lemma strict_loop_outcome g request checked steps r :
  strict_loop g request checked steps = Ok r -> rp_outcome r = VERIFIED \/ rp_outcome r = FAILED.
Proof.
  revert checked; induction steps as [|s steps IH]; intros checked H; cbn [strict_loop] in H.
  { unfold completed in H. apply new_replay_result_Ok in H as (-> & _). by left. }
  destruct (bool_decide _); [by eapply IH|]. destruct (rs_implementation s) as [i|]; [|done].
  destruct (resolve g i) as [impl|]; [|right; by eapply fail_with_outcome].
  destruct (_ || _); [right; by eapply fail_with_outcome|].
  apply bind_Ok in H as (x & _ & H). apply bind_Ok in H as ([m|] & _ & H); [right; exact (proj1 (failed_outcome _ _ _ _ H))|].
  by eapply IH.
Qed.

(** ** The MARL bundles *)

Section service_facts.
Context {L : Type} `{LedgerReaderLaws L}.
Variable marl_implementations : option MarlBundle.ImplementationRegistry.
Variable decode_manifest : string -> option MarlBundle.TrajectoryManifestV1.
Variable decode_transition : string -> option (Marl.sealed Marl.Transition).
Variable decode_boundary : string -> option (Marl.sealed Marl.DecisionBoundary).
Variable decode_marker : string -> option (Marl.sealed Marl.IncompleteMarker).
Variable source : uuid -> uuid -> ReplayManifestRef -> res (option HistoricalReplay).
Variable implementations : ReplayImplementationRegistry.
Local Abbreviation bundle_check := (verify_marl_bundle decode_manifest decode_transition decode_boundary decode_marker).
Local Abbreviation marl_check :=
  (_verify_marl marl_implementations decode_manifest decode_transition decode_boundary decode_marker).
Local Abbreviation checks :=
  (source_mismatch marl_implementations decode_manifest decode_transition decode_boundary decode_marker).
Local Abbreviation replay_ := (fun launcher =>
  replay marl_implementations decode_manifest decode_transition decode_boundary decode_marker source
    implementations launcher).

Definition bundle_verified (registry : MarlBundle.ImplementationRegistry) (b : MarlReplayBundle) : Prop :=
  exists v, bundle_check b registry = Ok v /\ MarlVerify.rv_outcome v = MarlVerify.VERIFIED.

Lemma verify_bundles_None registry bundles :
  verify_bundles decode_manifest decode_transition decode_boundary decode_marker registry bundles = Ok None <->
  Forall (bundle_verified registry) bundles.
Proof.
  induction bundles as [|b bundles IH]; cbn [verify_bundles]; [split; [constructor|done]|].
  rewrite Forall_cons, bind_Ok. split.
  - intros (v & Hv & Hr). case_bool_decide; [|by apply found_not_None in Hr]. split; [by exists v|by apply IH].
  - intros ((v & Hv & Ho) & Hb). exists v. split; [done|]. rewrite bool_decide_true by done. by apply IH.
Qed.

(** Every bundle verifies with the registry of the service. *)
Definition bundles_verified (bundles : list MarlReplayBundle) : Prop :=
  bundles = [] \/ exists registry, marl_implementations = Some registry /\ Forall (bundle_verified registry) bundles.

Lemma verify_marl_None h : marl_check h = Ok None <-> bundles_verified (hr_marl_bundles h).
Proof.
  unfold _verify_marl, bundles_verified. destruct (hr_marl_bundles h) as [|b bundles]; [split; [by left|done]|].
  destruct marl_implementations as [registry|].
  - rewrite verify_bundles_None. split; [intros; right; by eexists|intros [|(? & [= <-] & ?)]; done].
  - split; [by intros ?%found_not_None|intros [|(? & ? & _)]; done].
Qed.

Lemma verify_ledger_None h st :
  _verify_ledger h st = Ok None <->
  exists v es, lr_verify (hr_workspace_id h) (hr_source_session_id h) st = Ok v /\ lv_valid v = true /\
    whole_session (hr_workspace_id h) (hr_source_session_id h) st es /\
    map le_event_hash (hr_ledger_events h) = map le_event_hash es.
Proof.
  unfold _verify_ledger. rewrite bind_Ok. split.
  - intros (v & Hv & Hr). destruct (lv_valid v) eqn:Hval; cbn [negb] in Hr; [|by apply found_not_None in Hr].
    destruct (lr_verified _ _ _ _ Hv Hval) as (es & Hw). rewrite (read_loop_whole _ _ _ _ Hw) in Hr.
    cbn [mbind res_bind] in Hr. apply compare_events_None in Hr. by exists v, es.
  - intros (v & es & Hv & Hval & Hw & Heq). exists v. split; [done|]. rewrite Hval. cbn [negb].
    rewrite (read_loop_whole _ _ _ _ Hw). cbn [mbind res_bind]. by apply compare_events_None.
Qed.

(** What every mode checks first. *)
Record authentic_source (request : ReplayRequest) (h : HistoricalReplay) (st : L) : Prop := {
  as_workspace : rr_workspace_id request = hr_workspace_id h;
  as_session : rr_source_session_id request = hr_source_session_id h;
  as_manifest : rr_manifest request = hr_manifest h;
  as_selected : map is_step_id (rr_selections request) ⊆ map rs_step_id (hr_steps h);
  as_ledger : exists v es, lr_verify (hr_workspace_id h) (hr_source_session_id h) st = Ok v /\ lv_valid v = true /\
    whole_session (hr_workspace_id h) (hr_source_session_id h) st es /\
    map le_event_hash (hr_ledger_events h) = map le_event_hash es;
  as_bundles : bundles_verified (hr_marl_bundles h)
}.

Lemma source_mismatch_None request h st : checks request h st = Ok None <-> authentic_source request h st.
Proof.
  unfold source_mismatch. rewrite !and_then_None, validate_source_None, verify_ledger_None, verify_marl_None. split.
  - intros ((? & ? & ? & ?) & ? & ?). by split.
  - intros []. by split_and!.
Qed.

Lemma strict_iff launcher request st r (Hm : rr_mode request = STRICT) :
  replay_ launcher request st = Ok r /\ rp_outcome r = VERIFIED <->
  exists h, source (rr_workspace_id request) (rr_source_session_id request) (rr_manifest request) = Ok (Some h) /\
    authentic_source request h st /\ Forall (reproduced implementations) (hr_steps h) /\
    r = verified_result request (Z.of_nat (length (hr_steps h))).
Proof.
  unfold replay. split.
  - intros [([h|] & Hs & Hr)%bind_Ok Ho]; [|apply fail_with_outcome in Hr; congruence].
    apply bind_Ok in Hr as ([m|] & Hc & Hr); [apply failed_outcome in Hr as [? _]; congruence|].
    exists h. split; [done|]. apply source_mismatch_None in Hc. split; [done|].
    unfold replay_mode in Hr. rewrite Hm in Hr. pose proof (strict_loop_verified _ _ _ _ _ Hr Ho) as Hall.
    split; [done|]. unfold _strict in Hr. rewrite strict_loop_reproduced in Hr by done. by injection Hr.
  - intros (h & Hs & Ha & Hall & ->). split; [|done]. rewrite Hs. cbn [mbind res_bind].
    apply source_mismatch_None in Ha. rewrite Ha. cbn [mbind res_bind]. unfold replay_mode, _strict. rewrite Hm.
    by rewrite strict_loop_reproduced.
Qed.

(** C25. STRICT replay verifies exactly what reproduces: the source has the
    requested session and manifest, the ledger's verification accepts the
    session, its event hashes are those on record, one for one and none left
    over, every MARL bundle verifies, and every executable step reproduces its
    output hash and status on the pinned, deterministic, internal
    implementation.  Then the result counts every step and carries no
    difference, mismatch or new identity. *)
Theorem strict_verifies_exactly launcher request st r (Hm : rr_mode request = STRICT) :
  replay_ launcher request st = Ok r /\ rp_outcome r = VERIFIED <->
  exists h, source (rr_workspace_id request) (rr_source_session_id request) (rr_manifest request) = Ok (Some h) /\
    authentic_source request h st /\ Forall (reproduced implementations) (hr_steps h) /\
    r = verified_result request (Z.of_nat (length (hr_steps h))).
Proof. by apply strict_iff. Qed.

(** ** Tolerant replay *)

(** What one step contributes to the differences of a tolerant replay: nothing
    when it is not re-executed, otherwise every difference between what is on
    record and what the selected implementation, or the pinned one, returned. *)
Definition reexecuted (request : ReplayRequest) (s : ReplayStep) (ds : list ReplayDifference) : Prop :=
  (rs_policy s = RECORDED /\ ds = []) \/
  (rs_policy s = EXTERNAL /\ rs_tolerant_reexecution_allowed s = false /\ ds = []) \/
  ((rs_policy s = DETERMINISTIC \/ rs_policy s = EXTERNAL /\ rs_tolerant_reexecution_allowed s = true) /\
   exists pinned implementation x,
     rs_implementation s = Some pinned /\
     resolve implementations (default pinned (selections request !! rs_step_id s)) = Some implementation /\
     im_execute implementation (rs_input s) = Ok x /\ ds = all_differences s pinned x).

Lemma compare_field_nil s kind field a b : compare_field s kind field a b = [] <-> a = b.
Proof. unfold compare_field. case_bool_decide; split; try done. Qed.

(** No difference means that identity, output hash and status agree. *)
Lemma all_differences_nil s pinned x :
  all_differences s pinned x = [] <->
  rx_implementation x = pinned /\ rx_output_hash x = rs_expected_output_hash s /\ rx_status x = rs_expected_status s.
Proof.
  unfold all_differences, compared_fields. cbn [flat_map]. rewrite <- !app_assoc.
  repeat setoid_rewrite app_nil. rewrite !compare_field_nil.
  destruct pinned as [i v p m c], x as [[i' v' p' m' c'] o oh st]. cbn [ri_implementation_id ri_implementation_version
    ri_provider ri_model ri_configuration_hash rx_implementation rx_output_hash rx_status].
  split.
  - intros ([= ->] & [= ->] & -> & -> & -> & _ & [= ->] & ->). done.
  - intros ([= -> -> -> -> ->] & -> & ->). done.
Qed.

Lemma differences_Ok s x ds :
  _differences s x = Ok ds -> exists pinned, rs_implementation s = Some pinned /\ ds = all_differences s pinned x.
Proof.
  unfold _differences. destruct (rs_implementation s) as [pinned|]; [|done]. intros Hd. exists pinned. split; [done|].
  apply mapR_Ok in Hd. induction Hd as [|d d' l l' Hd _ IH]; [done|].
  unfold new_difference in Hd. apply construct_Ok in Hd as [_ ->]. by rewrite IH.
Qed.

Lemma tolerant_loop_completes request checked ds steps r :
  tolerant_loop implementations request checked ds steps = Ok r -> rp_outcome r <> FAILED ->
  exists dss, Forall2 (reexecuted request) steps dss /\ rp_differences r = ds ++ concat dss /\
    rp_outcome r = (if nonempty (ds ++ concat dss) then DIFFERENT else MATCHED) /\
    rp_byte_identical r = negb (nonempty (ds ++ concat dss)) /\ rp_first_mismatch r = None.
Proof.
  revert checked ds; induction steps as [|s steps IH]; intros checked ds Hr Ho; cbn [tolerant_loop] in Hr.
  { exists []. split; [constructor|]. cbn [concat]. rewrite app_nil_r. unfold completed in Hr.
    apply new_replay_result_Ok in Hr as (-> & _). done. }
  (* a step that adds nothing *)
  assert (Hskip : forall c, reexecuted request s [] -> tolerant_loop implementations request c ds steps = Ok r ->
    exists dss, Forall2 (reexecuted request) (s :: steps) dss /\ rp_differences r = ds ++ concat dss /\
      rp_outcome r = (if nonempty (ds ++ concat dss) then DIFFERENT else MATCHED) /\
      rp_byte_identical r = negb (nonempty (ds ++ concat dss)) /\ rp_first_mismatch r = None).
  { intros c Hs Hc. destruct (IH _ _ Hc Ho) as (dss & Hf & Hrest). exists ([] :: dss). split; [by constructor|done]. }
  destruct (bool_decide (rs_policy s = RECORDED)) eqn:Hp.
  { eapply Hskip; [|done]. left. by apply bool_decide_eq_true in Hp. }
  destruct (bool_decide (rs_policy s = EXTERNAL) && negb (rs_tolerant_reexecution_allowed s)) eqn:He.
  { eapply Hskip; [|done]. right; left. apply andb_true_iff in He as [He%bool_decide_eq_true Ha%negb_true_iff]. done. }
  destruct (rs_implementation s) as [pinned|] eqn:Hi; [|done].
  destruct (resolve implementations _) as [impl|] eqn:Hres; [|destruct (Ho (fail_with_outcome _ _ _ _ Hr))].
  apply bind_Ok in Hr as (x & Hx & Hr). apply bind_Ok in Hr as (d & Hd & Hr).
  apply differences_Ok in Hd as (pinned' & Hi' & ->). rewrite Hi in Hi'. injection Hi' as <-.
  destruct (IH _ _ Hr Ho) as (dss & Hf & H1 & H2 & H3 & H4). exists (all_differences s pinned x :: dss).
  cbn [concat]. rewrite app_assoc. split; [|done]. constructor; [|done]. right; right.
  apply bool_decide_eq_false in Hp. split; [|by exists pinned, impl, x].
  destruct (rs_policy s); [done|by left|right]. by destruct (rs_tolerant_reexecution_allowed s).
Qed.

(** What a tolerant replay that does not fail has done, whatever the policies. *)
Lemma tolerant_completes launcher request st r :
  rr_mode request = TOLERANT -> replay_ launcher request st = Ok r -> rp_outcome r <> FAILED ->
  exists h dss,
    source (rr_workspace_id request) (rr_source_session_id request) (rr_manifest request) = Ok (Some h) /\
    authentic_source request h st /\ Forall2 (reexecuted request) (hr_steps h) dss /\
    rp_differences r = concat dss /\
    (rp_outcome r = MATCHED <-> Forall (fun ds => ds = []) dss) /\
    (rp_outcome r = DIFFERENT <-> rp_differences r <> []) /\
    (rp_byte_identical r = true <-> rp_outcome r = MATCHED) /\ rp_first_mismatch r = None.
Proof.
  intros Hm Hr Ho. unfold replay in Hr. apply bind_Ok in Hr as ([h|] & Hs & Hr); [|destruct (Ho (fail_with_outcome _ _ _ _ Hr))].
  apply bind_Ok in Hr as ([m|] & Hc & Hr); [exfalso; by destruct (failed_outcome _ _ _ _ Hr)|].
  unfold replay_mode, _tolerant in Hr. rewrite Hm in Hr.
  destruct (tolerant_loop_completes _ _ _ _ _ Hr Ho) as (dss & Hf & H1 & H2 & H3 & H4). cbn [app] in *.
  exists h, dss. split; [done|]. split; [by apply source_mismatch_None|]. split; [done|]. split; [done|].
  rewrite <- concat_nil_Forall, H2, H3, H1. destruct (concat dss); cbn [nonempty negb]; split_and!; done.
Qed.

(** The step's policy permits tolerant re-execution. *)
Definition permits (s : ReplayStep) : bool :=
  negb (bool_decide (rs_policy s = RECORDED)) && rs_tolerant_reexecution_allowed s.

(** What a step contributes: nothing unless it is permitted, and then the
    differences between the record and what the selected implementation, or else
    the pinned one, returned on the recorded input. *)
Definition reported (request : ReplayRequest) (s : ReplayStep) (ds : list ReplayDifference) : Prop :=
  if permits s then
    exists pinned implementation x,
      rs_implementation s = Some pinned /\
      resolve implementations (default pinned (selections request !! rs_step_id s)) = Some implementation /\
      im_execute implementation (rs_input s) = Ok x /\ ds = all_differences s pinned x /\
      (ds = [] <-> rx_implementation x = pinned /\ rx_output_hash x = rs_expected_output_hash s /\
                   rx_status x = rs_expected_status s)
  else ds = [].

Lemma reexecuted_reported request s ds :
  (rs_policy s = DETERMINISTIC -> rs_tolerant_reexecution_allowed s = true) ->
  reexecuted request s ds -> reported request s ds.
Proof.
  intros Hd. unfold reported, permits.
  intros [[-> ->]|[(-> & -> & ->)|(Hp & pinned & implementation & x & Hi & Hr & Hx & Hds)]]; [done|done|].
  assert (Ha : rs_tolerant_reexecution_allowed s = true) by (destruct Hp as [Hp|[_ Hp]]; [by apply Hd|done]).
  rewrite Ha, bool_decide_false by (destruct Hp as [Hp|[Hp _]]; by rewrite Hp). cbn [negb andb].
  exists pinned, implementation, x. subst ds. split_and!; try done; apply all_differences_nil.
Qed.

(** C36. TOLERANT replay reports exactly what differs: on a history whose
    deterministic steps all permit it, one that does not fail has checked the
    same source as a strict replay, re-executed exactly the permitted steps, with
    the selected implementation or else the pinned one, and lists the differences
    of each step in step order; it is MATCHED and byte-identical when there is
    none, otherwise DIFFERENT.  A permitted step contributes none exactly when
    identity, output hash and status are the recorded ones. *)
Theorem tolerant_reports_exactly launcher request st r h (Hm : rr_mode request = TOLERANT)
    (Hs : source (rr_workspace_id request) (rr_source_session_id request) (rr_manifest request) = Ok (Some h))
    (Hd : forall s, s ∈ hr_steps h -> rs_policy s = DETERMINISTIC -> rs_tolerant_reexecution_allowed s = true)
    (Hr : replay_ launcher request st = Ok r) (Ho : rp_outcome r <> FAILED) :
  exists dss,
    authentic_source request h st /\ Forall2 (reported request) (hr_steps h) dss /\
    rp_differences r = concat dss /\
    (rp_outcome r = MATCHED <-> Forall (fun ds => ds = []) dss) /\
    (rp_outcome r = DIFFERENT <-> rp_differences r <> []) /\
    (rp_byte_identical r = true <-> rp_outcome r = MATCHED) /\ rp_first_mismatch r = None.
Proof.
  destruct (tolerant_completes launcher request st r Hm Hr Ho) as (h' & dss & Hs' & Ha & Hf & Hrest).
  rewrite Hs in Hs'. injection Hs' as <-. exists dss. split; [done|]. split; [|done].
  assert (Hall : Forall (fun s => rs_policy s = DETERMINISTIC -> rs_tolerant_reexecution_allowed s = true) (hr_steps h))
    by (apply Forall_forall; exact Hd).
  clear - Hall Hf. induction Hf as [|s ds ss dss Hx _ IH]; [constructor|]. apply Forall_cons in Hall as [Hp Hall].
  constructor; [by apply reexecuted_reported|by apply IH].
Qed.

(** ** Live replay *)

Lemma fresh_ids h l id :
  historical_ids h ∩ new_ids l = ∅ ->
  id = ll_session_id l \/ id = ll_manifest_id l \/ id ∈ ll_event_ids l \/ id ∈ ll_result_ids l ->
  id <> hr_source_session_id h /\ id <> mr_manifest_id (hr_manifest h) /\
  (forall e, e ∈ hr_ledger_events h -> id <> la_id (le_append e)) /\
  (forall s, s ∈ hr_steps h -> id <> rs_step_id s).
Proof.
  intros Hd Hid. assert (Hnew : id ∈ new_ids l) by (unfold new_ids; set_solver).
  assert (Hold : id ∈ historical_ids h -> False) by (intros Hold; apply (not_elem_of_empty (C:=gset uuid) id); rewrite <- Hd; set_solver).
  unfold historical_ids in Hold. split_and!.
  - intros ->. apply Hold. set_solver.
  - intros ->. apply Hold. set_solver.
  - intros e He ->. apply Hold, elem_of_union_l, elem_of_union_l, elem_of_list_to_set.
    by apply (list_elem_of_fmap_2 (fun e => la_id (le_append e))).
  - intros s Hs ->. apply Hold, elem_of_union_l, elem_of_union_r, elem_of_list_to_set.
    by apply (list_elem_of_fmap_2 rs_step_id).
Qed.

(** LIVE is the only mode that can start a session: the launcher cannot
    influence any other replay.  What LIVE reports as started passed the same
    source checks, and none of the session, manifest, event and result
    identities it allocated is an identity of the recorded session: not its id,
    not its manifest's, not an event's, not a step's. *)
Theorem live_is_fresh launcher request st :
  (rr_mode request <> LIVE -> forall other, replay_ launcher request st = replay_ other request st) /\
  (forall r, replay_ launcher request st = Ok r -> rp_outcome r = LIVE_STARTED ->
   rr_mode request = LIVE /\
   exists h session manifest,
     source (rr_workspace_id request) (rr_source_session_id request) (rr_manifest request) = Ok (Some h) /\
     authentic_source request h st /\ rp_session_id r = Some session /\ rp_manifest_id r = Some manifest /\
     rp_event_ids r <> [] /\ rp_result_ids r <> [] /\
     (forall id, id = session \/ id = manifest \/ id ∈ rp_event_ids r \/ id ∈ rp_result_ids r ->
        id <> rr_source_session_id request /\ id <> mr_manifest_id (rr_manifest request) /\
        (forall e, e ∈ hr_ledger_events h -> id <> la_id (le_append e)) /\
        (forall s, s ∈ hr_steps h -> id <> rs_step_id s))).
Proof.
  split.
  { intros Hm other. unfold replay, replay_mode. by destruct (rr_mode request). }
  intros r Hr Ho. unfold replay in Hr. apply bind_Ok in Hr as ([h|] & Hs & Hr); [|apply fail_with_outcome in Hr; congruence].
  apply bind_Ok in Hr as ([m|] & Hc & Hr); [apply failed_outcome in Hr as [? _]; congruence|].
  apply source_mismatch_None in Hc. pose proof (as_session _ _ _ Hc) as Hsid. pose proof (as_manifest _ _ _ Hc) as Hman.
  unfold replay_mode in Hr. destruct (rr_mode request) eqn:Hm; [exfalso|exfalso|].
  - destruct (strict_loop_outcome _ _ _ _ _ Hr); congruence.
  - assert (Hf : rp_outcome r <> FAILED) by congruence.
    destruct (tolerant_loop_completes _ _ _ _ _ Hr Hf) as (dss & _ & _ & H2 & _). rewrite Ho in H2. by destruct (nonempty _).
  - split; [done|]. unfold _live in Hr. destruct launcher as [launch|]; [|apply fail_with_outcome in Hr; congruence].
    apply bind_Ok in Hr as (l & Hl & Hr). destruct (negb (bool_decide (ll_source_session_id l = _))).
    { apply fail_with_outcome in Hr; congruence. }
    destruct (bool_decide (historical_ids h ∩ new_ids l = ∅)) eqn:Hd; cbn [negb] in Hr;
      [|apply fail_with_outcome in Hr; congruence].
    apply bool_decide_eq_true in Hd. apply new_replay_result_Ok in Hr as (-> & Hsh & _). unfold result_shape in Hsh.
    cbn [rp_mode] in Hsh. rewrite Hm in Hsh. unfold live_shape in Hsh. rewrite bool_decide_false in Hsh by done.
    apply guard_bind in Hsh as [_ Hsh]. apply guard_bind in Hsh as [Hne _]. cbn [rp_event_ids rp_result_ids] in Hne.
    exists h, (ll_session_id l), (ll_manifest_id l). cbn [rp_session_id rp_manifest_id rp_event_ids rp_result_ids].
    split_and!; try done.
    + intros Hnil. by rewrite Hnil, !orb_true_r in Hne.
    + intros Hnil. by rewrite Hnil, !orb_true_r in Hne.
    + intros id Hid. rewrite Hsid, Hman. exact (fresh_ids h l id Hd Hid).
Qed.

(** ** Every replay answers *)

(** The result answers the request, and says what failed when it failed. *)
Record answers (request : ReplayRequest) (r : ReplayResult) : Prop := {
  an_mode : rp_mode r = rr_mode request;
  an_session : rp_source_session_id r = rr_source_session_id request;
  an_manifest : rp_source_manifest r = rr_manifest request;
  an_shape : result_shape r = Ok tt;
  an_failed : rp_outcome r = FAILED <-> is_Some (rp_first_mismatch r);
  an_integrity : rp_integrity_valid r = false <->
    exists m, rp_first_mismatch r = Some m /\ rm_reason m ∈ [LEDGER_INTEGRITY; LEDGER_MISMATCH]
}.
Definition answered (request : ReplayRequest) (m : res ReplayResult) : Prop := exists r, m = Ok r /\ answers request r.

Lemma new_result_answers request r :
  0 <= rp_checked_steps r -> answers request r -> answered request (new_result r).
Proof.
  intros Hc Ha. exists r. split; [|done]. unfold new_result, construct.
  replace (0 <=? rp_checked_steps r) with true by lia. cbn [mbind res_bind]. by rewrite (an_shape _ _ Ha).
Qed.

Lemma failed_answers request m checked : 0 <= checked -> answered request (_failed request m checked).
Proof.
  intros Hc. apply new_result_answers; [done|]. split; try done; cbn [rp_integrity_valid rp_first_mismatch].
  - unfold result_shape. cbn [rp_mode]. by destruct (rr_mode request).
  - rewrite negb_false_iff, bool_decide_eq_true. split; [by exists m|by intros (? & [= <-] & ?)].
Qed.

Lemma plain_mismatch_Ok reason detail : blank detail = false -> exists m, plain_mismatch reason detail = Ok m.
Proof. intros Hb. eexists. apply new_mismatch_Ok. split; [|done]. unfold mismatch_ok, _not_blank. cbn [rm_detail]. by rewrite Hb. Qed.

Lemma step_mismatch_Ok reason detail s :
  blank detail = false -> 0 < rs_order s -> exists m, step_mismatch reason detail s = Ok m.
Proof.
  intros Hb Ho. eexists. apply new_mismatch_Ok. split; [|done]. unfold mismatch_ok, _not_blank.
  cbn [rm_detail rm_order rm_expected_hash rm_actual_hash opt_ok]. rewrite Hb.
  by replace (0 <? rs_order s) with true by lia.
Qed.

Lemma fail_with_answers request mismatch checked :
  0 <= checked -> (exists m, mismatch = Ok m) -> answered request (fail_with request mismatch checked).
Proof. intros Hc (m & ->). unfold fail_with. cbn [mbind res_bind]. by apply failed_answers. Qed.

Lemma completed_answers request checked ds :
  0 <= checked -> rr_mode request <> LIVE ->
  answered request (completed request (if bool_decide (rr_mode request = STRICT) then VERIFIED
                                       else if nonempty ds then DIFFERENT else MATCHED) checked
                      (if bool_decide (rr_mode request = STRICT) then [] else ds)).
Proof.
  intros Hc Hm. apply new_result_answers; [done|]. split; try done.
  - unfold result_shape. cbn [rp_mode]. destruct (rr_mode request); [done| |done]. by destruct ds.
  - cbn [rp_outcome rp_first_mismatch]. destruct (bool_decide _); [|destruct (nonempty ds)]; (split; [done|by intros []]).
  - cbn. split; [done|by intros (? & ? & _)].
Qed.

(** A valid step on whose input every registered function returns a valid execution. *)
Definition runnable (s : ReplayStep) : Prop :=
  valid_step s /\
  forall key implementation, implementations !! key = Some implementation ->
    exists x, im_execute implementation (rs_input s) = Ok x /\ valid_execution x.

(** What the code outside the service delivers. *)
Record well_formed (launcher : option LiveReplayLauncher) (request : ReplayRequest) (h : HistoricalReplay) (st : L)
    : Prop := {
  wf_history : valid_history h;
  wf_ledger : exists v, lr_verify (hr_workspace_id h) (hr_source_session_id h) st = Ok v;
  wf_marl : forall registry b, marl_implementations = Some registry -> b ∈ hr_marl_bundles h ->
    exists v, bundle_check b registry = Ok v;
  wf_steps : Forall runnable (hr_steps h);
  wf_launch : forall launch, launcher = Some launch ->
    exists l, launch request h (selections request) = Ok l /\ new_launch l = Ok l
}.

Lemma strict_mismatch_answers s x : valid_step s -> valid_execution x -> exists o, _strict_mismatch s x = Ok o.
Proof.
  intros Hs Hx. destruct (step_facts s Hs) as (Ho & Hd & _). destruct (execution_facts x Hx) as [Hxd _].
  unfold _strict_mismatch, found. destruct (negb _).
  { destruct (step_mismatch_Ok UNKNOWN_IMPLEMENTATION
      "executor did not use the exact pinned implementation identity" s) as [m ->]; [done..|]. by eexists. }
  destruct (negb _).
  { unfold new_mismatch, construct, mismatch_ok. cbn [rm_detail rm_order rm_expected_hash rm_actual_hash opt_ok].
    rewrite Hd, Hxd. replace (0 <? rs_order s) with true by lia. by eexists. }
  destruct (negb _); [|by eexists].
  destruct (step_mismatch_Ok OUTPUT_MISMATCH
    "deterministic status differs from the historical status" s) as [m ->]; [done..|]. by eexists.
Qed.

Lemma strict_loop_answers request checked steps :
  rr_mode request = STRICT -> 0 <= checked -> Forall runnable steps ->
  answered request (strict_loop implementations request checked steps).
Proof.
  intros Hm Hc Hs. revert checked Hc; induction Hs as [|s steps [Hs Hx] _ IH]; intros checked Hc; cbn [strict_loop].
  { pose proof (completed_answers request checked [] Hc) as Ha. rewrite bool_decide_true in Ha by done.
    apply Ha. by rewrite Hm. }
  destruct (step_facts s Hs) as (Ho & _ & _ & _ & Hi & _).
  destruct (bool_decide (rs_policy s = RECORDED)) eqn:Hp; [apply IH; lia|]. apply bool_decide_eq_false in Hp.
  destruct (Hi Hp) as (i & ->). destruct (resolve implementations i) as [impl|] eqn:Hr.
  2: { apply fail_with_answers, step_mismatch_Ok; done. }
  destruct (_ || _); [apply fail_with_answers, step_mismatch_Ok; done|].
  destruct (Hx _ _ Hr) as (x & -> & Hv). cbn [mbind res_bind].
  destruct (strict_mismatch_answers s x Hs Hv) as ([m|] & ->); cbn [mbind res_bind]; [apply failed_answers|apply IH]; lia.
Qed.

Lemma compare_field_fields s kind field a b :
  _not_blank field = true ->
  Forall (fun d => rd_order d = rs_order s /\ _not_blank (rd_field d) = true) (compare_field s kind field a b).
Proof. intros Hf. unfold compare_field. destruct (bool_decide _); [constructor|]. by constructor. Qed.

Lemma all_differences_fields s pinned x :
  Forall (fun d => rd_order d = rs_order s /\ _not_blank (rd_field d) = true) (all_differences s pinned x).
Proof.
  unfold all_differences, compared_fields. cbn [flat_map].
  repeat (apply Forall_app; split); try (by apply compare_field_fields). constructor.
Qed.

Lemma differences_answers s x pinned :
  valid_step s -> rs_implementation s = Some pinned -> exists ds, _differences s x = Ok ds.
Proof.
  intros Hs Hi. destruct (step_facts s Hs) as (Ho & _). unfold _differences. rewrite Hi. apply mapR_exists.
  intros d Hd. exists d. unfold new_difference, construct.
  destruct (proj1 (Forall_forall _ _) (all_differences_fields s pinned x) d Hd) as [-> ->]. by replace (0 <? rs_order s) with true by lia.
Qed.

Lemma tolerant_loop_answers request checked ds steps :
  rr_mode request = TOLERANT -> 0 <= checked -> Forall runnable steps ->
  answered request (tolerant_loop implementations request checked ds steps).
Proof.
  intros Hm Hc Hs. revert checked ds Hc; induction Hs as [|s steps [Hs Hx] _ IH]; intros checked ds Hc; cbn [tolerant_loop].
  { pose proof (completed_answers request checked ds Hc) as Ha. rewrite bool_decide_false in Ha by (by rewrite Hm).
    apply Ha. by rewrite Hm. }
  destruct (step_facts s Hs) as (Ho & _ & _ & _ & Hi & _).
  destruct (bool_decide (rs_policy s = RECORDED)) eqn:Hp; [apply IH; lia|]. apply bool_decide_eq_false in Hp.
  destruct (_ && _); [by apply IH|]. destruct (Hi Hp) as (i & Hi'). rewrite Hi'.
  destruct (resolve implementations _) as [impl|] eqn:Hr; [|apply fail_with_answers, step_mismatch_Ok; done].
  destruct (Hx _ _ Hr) as (x & -> & Hv). cbn [mbind res_bind].
  destruct (differences_answers s x i Hs Hi') as (d & ->). cbn [mbind res_bind]. apply IH. lia.
Qed.

Lemma validate_source_answers request h : exists o, _validate_source request h = Ok o.
Proof.
  unfold _validate_source, found. destruct (_ || _); [|destruct (negb _); [|by eexists]].
  - destruct (plain_mismatch_Ok MANIFEST_MISMATCH
      "request does not identify the supplied historical session and manifest") as [m ->]; [done|]. by eexists.
  - destruct (plain_mismatch_Ok MANIFEST_MISMATCH
      "implementation selection references an unknown historical step") as [m ->]; [done|]. by eexists.
Qed.

Lemma compare_events_answers recorded replayed :
  Forall event_valid recorded -> Forall event_valid replayed -> exists o, compare_events recorded replayed = Ok o.
Proof.
  intros Hr Hp. unfold compare_events, found, new_mismatch, construct.
  destruct (first_divergence recorded replayed) as [[r p]|] eqn:Hd.
  - destruct (first_divergence_elem _ _ _ _ Hd) as [Hir Hip]. rewrite Forall_forall in Hr, Hp.
    destruct (event_digest r (Hr r Hir)) as [Hrd Hrs]. destruct (event_digest p (Hp p Hip)) as [Hpd _].
    unfold mismatch_ok. cbn [rm_detail rm_order rm_expected_hash rm_actual_hash opt_ok]. rewrite Hrd, Hpd.
    replace (0 <? le_ledger_seq r) with true by lia. by eexists.
  - destruct (_ =? _)%nat; [by eexists|]. unfold mismatch_ok.
    cbn [rm_detail rm_order rm_expected_hash rm_actual_hash opt_ok].
    generalize (Nat.min (length recorded) (length replayed)). intros n.
    assert (0 <? Z.of_nat n + 1 = true) as -> by (apply Z.ltb_lt; clear; lia). by eexists.
Qed.

Lemma verify_ledger_answers h st :
  (exists v, lr_verify (hr_workspace_id h) (hr_source_session_id h) st = Ok v) ->
  Forall event_valid (hr_ledger_events h) -> exists o, _verify_ledger h st = Ok o.
Proof.
  intros (v & Hv) He. unfold _verify_ledger. rewrite Hv. cbn [mbind res_bind].
  destruct (lv_valid v) eqn:Hval; cbn [negb].
  - destruct (lr_verified _ _ _ _ Hv Hval) as (es & Hw). rewrite (read_loop_whole _ _ _ _ Hw). cbn [mbind res_bind].
    apply compare_events_answers; [done|by eapply wh_valid].
  - destruct (lr_refused _ _ _ _ Hv Hval) as (reason & Hr & Hb & Ho). rewrite Hr. unfold reason_or.
    unfold found, new_mismatch, construct, mismatch_ok, _not_blank.
    cbn [rm_detail rm_order rm_expected_hash rm_actual_hash opt_ok]. rewrite Ho.
    destruct (filled reason); [rewrite Hb|]; by eexists.
Qed.

(** The report of a failed MARL verification could not be built: the error of
    that construction. *)
Definition unreportable (h : HistoricalReplay) (e : exn) : Prop :=
  exists registry b v, marl_implementations = Some registry /\ b ∈ hr_marl_bundles h /\
    bundle_check b registry = Ok v /\ MarlVerify.rv_outcome v <> MarlVerify.VERIFIED /\ marl_mismatch v = Raise e.

Lemma verify_marl_answers launcher request h st :
  well_formed launcher request h st ->
  (exists o, marl_check h = Ok o) \/ exists e, marl_check h = Raise e /\ unreportable h e.
Proof.
  intros Hw. pose proof (wf_marl _ _ _ _ Hw) as Hm. unfold _verify_marl, unreportable.
  destruct (hr_marl_bundles h) as [|b bundles]; [left; by eexists|]. destruct marl_implementations as [registry|].
  2: { left. destruct (plain_mismatch_Ok UNKNOWN_IMPLEMENTATION "Phase 12 MARL implementation registry is unavailable")
         as [m Hpm]; [done|]. unfold found. rewrite Hpm. by eexists. }
  revert Hm. generalize (b :: bundles) as l. intros l. induction l as [|x l IH]; intros Hm; cbn [verify_bundles]; [left; by eexists|].
  destruct (Hm registry x) as (v & Hv); [done|left|]. rewrite Hv. cbn [mbind res_bind]. case_bool_decide as Ho.
  - destruct IH as [Hok|(e & He & registry' & b' & v' & ? & Hin & ?)]; [intros ? ? ? ?; apply Hm; [done|by right]|by left|].
    right. exists e. split; [done|]. exists registry', b', v'. split; [done|]. split; [by right|done].
  - unfold found. destruct (marl_mismatch v) as [m|e] eqn:Hmm; [left; by eexists|]. right. exists e. split; [done|].
    exists registry, x, v. split_and!; try done. left.
Qed.

Lemma live_answers launcher request h st :
  well_formed launcher request h st -> rr_mode request = LIVE -> authentic_source request h st ->
  answered request (_live launcher request h).
Proof.
  intros Hw Hm Ha. unfold _live. destruct launcher as [launch|].
  2: { by apply fail_with_answers, plain_mismatch_Ok. }
  destruct (wf_launch _ _ _ _ Hw launch eq_refl) as (l & -> & Hl). cbn [mbind res_bind].
  case_bool_decide as Hs; cbn [negb]; [|by apply fail_with_answers, plain_mismatch_Ok].
  destruct (negb _); [by apply fail_with_answers, plain_mismatch_Ok|].
  unfold new_launch in Hl. apply bind_Ok in Hl as ([] & Hl%validated_Ok & _). unfold live_identity in Hl.
  apply guard_bind in Hl as [_ Hl]. apply guard_bind in Hl as [Hne Hl]. apply guard_bind in Hl as [Hids _].
  apply bool_decide_eq_false in Hne. apply orb_false_iff in Hids as [He%negb_false_iff Hr%negb_false_iff].
  apply new_result_answers; [done|]. split; try done; cbn [rp_outcome rp_first_mismatch rp_integrity_valid].
  - unfold result_shape. cbn [rp_mode]. rewrite Hm. unfold live_shape. rewrite bool_decide_false by done.
    cbn [rp_outcome rp_session_id rp_manifest_id rp_event_ids rp_result_ids rp_source_session_id rp_byte_identical
         rp_first_mismatch rp_differences]. rewrite He, Hr. rewrite (bool_decide_false (Some _ = _)); [done|].
    intros [= Heq]. apply Hne. rewrite Heq, Hs. by apply (as_session _ _ _ Ha).
  - split; [done|by intros []].
  - split; [done|by intros (? & ? & _)].
Qed.

(** C34. Every replay answers or says what it cannot report: when the source
    answers, its history is valid, the ledger's verification does not raise, the
    registered functions and the launcher return valid values and every MARL
    bundle's verification returns, the replay returns a result of its request's
    mode, session and manifest with the documented shape, which names a first
    mismatch exactly when it FAILED, and denies integrity exactly when that
    mismatch is one of the ledger's.  The one other end is the error of building
    the report of a MARL bundle whose verification did not succeed. *)
Theorem replay_answers launcher request st o
    (Hs : source (rr_workspace_id request) (rr_source_session_id request) (rr_manifest request) = Ok o)
    (Hw : forall h, o = Some h -> well_formed launcher request h st) :
  (exists r, replay_ launcher request st = Ok r /\ answers request r) \/
  exists h e, o = Some h /\ unreportable h e /\ replay_ launcher request st = Raise e.
Proof.
  unfold replay. rewrite Hs. cbn [mbind res_bind].
  destruct o as [h|]; [|left; by apply fail_with_answers, plain_mismatch_Ok]. specialize (Hw h eq_refl).
  pose proof (wf_history _ _ _ _ Hw) as (_ & Hst & Hev).
  assert (Hc : (exists m, checks request h st = Ok m) \/ exists e, checks request h st = Raise e /\ unreportable h e).
  { unfold source_mismatch, and_then. destruct (validate_source_answers request h) as ([m|] & ->); [left; by eexists|].
    destruct (verify_ledger_answers h st (wf_ledger _ _ _ _ Hw) Hev) as ([m|] & ->); [left; by eexists|].
    cbn [mbind res_bind]. destruct (verify_marl_answers _ _ _ _ Hw) as [([m|] & ->)|(e & -> & He)]; [left; by eexists|left; by eexists|].
    right. by exists e. }
  destruct Hc as [(m & Hc)|(e & Hc & He)]; rewrite Hc; cbn [mbind res_bind]; [left|right; by exists h, e].
  destruct m as [m|]; [by apply failed_answers|].
  apply source_mismatch_None in Hc. unfold replay_mode. destruct (rr_mode request) eqn:Hm.
  - apply strict_loop_answers; try done. exact (wf_steps _ _ _ _ Hw).
  - apply tolerant_loop_answers; try done. exact (wf_steps _ _ _ _ Hw).
  - by eapply live_answers.
Qed.

End service_facts.

(** ** Strict replay over the SQL ledger *)

Lemma whole_session_unique {L} `{LedgerReader L} ws sid (st : L) es fs :
  whole_session ws sid st es -> whole_session ws sid st fs -> es = fs.
Proof.
  intros He Hf. set (n := Z.of_nat (length es + length fs) + 1).
  pose proof (wh_read _ _ _ _ He 1 n ltac:(lia) ltac:(unfold n; lia)) as H1.
  pose proof (wh_read _ _ _ _ Hf 1 n ltac:(lia) ltac:(unfold n; lia)) as H2. rewrite H1 in H2. injection H2 as H2.
  rewrite !drop_0, !take_ge in H2 by (unfold n; lia). done.
Qed.

(** The hashes an event carries are the hashes of its own content. *)
Definition honest (e : LedgerEvent) : Prop :=
  ledger_payload_hash (la_payload (le_append e)) = Ok (le_payload_hash e) /\
  ledger_event_hash e = Ok (le_event_hash e).

Lemma chain_honest seq prev es final : chain seq prev es final -> Forall honest es.
Proof.
  revert seq prev; induction es as [|e es IH]; intros seq prev; [constructor|]. cbn [chain].
  intros [Hl Hc]. constructor; [|by eapply IH]. split; apply Hl.
Qed.

Lemma same_hashes_same_events es fs :
  map le_event_hash es = map le_event_hash fs ->
  Forall event_valid es -> Forall event_valid fs -> Forall event_typed es -> Forall event_typed fs ->
  Forall honest es -> Forall honest fs -> Forall2 same_event es fs \/ hash_collision es fs.
Proof.
  revert fs; induction es as [|e es IH]; intros [|f fs]; try done; [left; constructor|].
  cbn [map]. rewrite !Forall_cons. intros [= Hh Hr] [? ?] [? ?] [? ?] [? ?] [[? ?] ?] [[? ?] ?].
  destruct (same_hash_same_event e f) as [Hs|Hc]; try done.
  - destruct (IH fs) as [Hall|Hc]; try done; [left; by constructor|].
    right. eapply hash_collision_mono; [| |exact Hc]; set_solver.
  - right. eapply hash_collision_mono; [| |exact Hc]; set_solver.
Qed.

(** Two outputs with one hash: equal up to the order of members, or a collision. *)
Definition same_output (out expected : dict string json) : Prop :=
  json_norm (JObj out) = json_norm (JObj expected) \/ collide (JObj out) (JObj expected).

(** The executable steps of a history, re-run by their pinned implementations,
    return the outputs on record. *)
Definition outputs_reproduced (g : ReplayImplementationRegistry) (s : ReplayStep) : Prop :=
  rs_policy s = RECORDED \/
  exists i implementation x,
    rs_implementation s = Some i /\ resolve g i = Some implementation /\
    im_execute implementation (rs_input s) = Ok x /\ same_output (rx_output x) (rs_expected_output s).

Lemma reproduced_outputs g s :
  (forall key implementation input x, g !! key = Some implementation ->
     im_execute implementation input = Ok x -> valid_execution x) ->
  valid_step s -> reproduced g s -> outputs_reproduced g s.
Proof.
  intros Hx Hs [Hp|(i & impl & x & Hi & Hr & _ & _ & He & _ & Ho & _)]; [by left|right].
  exists i, impl, x. split_and!; try done.
  destruct (execution_facts x (Hx _ _ _ _ Hr He)) as [_ Hh]. destruct (step_facts s Hs) as (_ & _ & _ & Hh' & _).
  eapply content_hash_same; [exact Hh|]. by rewrite Ho.
Qed.

(** C9. What a verified strict replay over the SQL ledger means: the events on
    record are the events of the session's rows, one for one and field by field
    (payloads up to the order of members), and every executable step, re-run,
    returned the output on record: unless SHA-256 collides on these very values.
    The hypotheses are what the service does not check itself: that the hashes
    of the recorded events are those of their own content, and that registered
    functions return validated executions. *)
Theorem verified_replay_is_the_session marl dm dt db dk source implementations launcher request (st : ledger) r h
    (Hm : rr_mode request = STRICT)
    (Hr : replay marl dm dt db dk source implementations launcher request st = Ok r)
    (Ho : rp_outcome r = VERIFIED)
    (Hs : source (rr_workspace_id request) (rr_source_session_id request) (rr_manifest request) = Ok (Some h))
    (Hv : valid_history h) (Hh : Forall honest (hr_ledger_events h)) (Ht : Forall event_typed (hr_ledger_events h))
    (Hx : forall key implementation input x, implementations !! key = Some implementation ->
       im_execute implementation input = Ok x -> valid_execution x) :
  exists es,
    mapR _event_from_row (session_rows (rr_workspace_id request) (rr_source_session_id request) st) = Ok es /\
    session_chain (rr_workspace_id request) (rr_source_session_id request) st /\
    (Forall event_typed es ->
     Forall2 same_event (hr_ledger_events h) es \/ hash_collision (hr_ledger_events h) es) /\
    Forall (outputs_reproduced implementations) (hr_steps h).
Proof.
  destruct (proj1 (strict_iff marl dm dt db dk source implementations launcher request st r Hm) (conj Hr Ho))
    as (h' & Hs' & Ha & Hall & _).
  rewrite Hs in Hs'. injection Hs' as <-. destruct Ha as [Hw Hsid _ _ (v & es & Hver & Hval & Hwh & Heq) _].
  rewrite Hw, Hsid. pose proof (proj1 (verify_valid _ _ _ _ Hver) Hval) as Hsc. pose proof Hsc as (hd & fs & _ & Hfs & Hc & _).
  assert (fs = es) as -> by (eapply whole_session_unique; [by eapply chain_whole_session|exact Hwh]).
  exists es. split_and!; try done.
  - intros Hte. apply same_hashes_same_events; try done; [apply Hv|by eapply wh_valid|by eapply chain_honest].
  - destruct Hv as (_ & Hst & _). rewrite Forall_forall in *. intros s Hin. apply reproduced_outputs; auto.
Qed.
