(* ===== verification/ReplayExamples.v ===== *)
(** * Session replay: concrete replays

    The session of [LedgerExamples.v] replayed in the three modes, the theorems
    of [ReplayFacts.v] applied to it, and two replays a reader would not
    expect. *)

From S2P Require Import Prelude.
From S2P Require Import Sha256.
From S2P Require Import Clock.
From S2P Require Import Json.
From S2P Require Import Symbolic.
From S2P Require Import ConsensusPorts.
From S2P Require Import Ledger.
From S2P Require Import MarlVerify.
From S2P Require Import LedgerExamples.
From S2P Require Import Replay.
From S2P Require Import ReplayService.
From S2P Require Import ReplayFacts.
Import LedgerDemo Replay Service.

Local Open Scope Z_scope.

Module ReplayDemo.

(** ** A recorded session *)

Definition hash_of (d : dict string json) : string :=
  match content_hash (JObj d) with Ok h => h | Raise _ => "" end.

Definition digest : string := Eval vm_compute in hash_of [].
Definition manifest_ref : ReplayManifestRef := mkManifestRef 500 1 digest.
Definition doubler : ReplayImplementationIdentity := mkIdentity "double" "1" None None None.
Definition tripler : ReplayImplementationIdentity := mkIdentity "double" "2" (Some "lab") None None.

Definition number (n : Z) : dict string json := [("n", JInt n)].
Definition two_hash : string := Eval vm_compute in hash_of (number 2).
Definition four_hash : string := Eval vm_compute in hash_of (number 4).

Definition recorded_step : ReplayStep :=
  mkStep 601 1 EVENT RECORDED None (number 2) two_hash (number 4) four_hash None false false.
Definition double_step : ReplayStep :=
  mkStep 602 2 METRIC DETERMINISTIC (Some doubler) (number 2) two_hash (number 4) four_hash (Some "OK") false false.

Definition history : HistoricalReplay :=
  mkHistorical 1 2 manifest_ref two_events [recorded_step; double_step] [].
Definition source (ws sid : uuid) (m : ReplayManifestRef) : res (option HistoricalReplay) :=
  Ok (if bool_decide ((ws, sid, m) = (1%N, 2%N, manifest_ref)) then Some history else None).

(** A registered function: multiplication, with the validated execution. *)
Definition multiply (identity : ReplayImplementationIdentity) (k : Z) (input : dict string json) : res ReplayExecution :=
  let out := number (match dict_get "n" input with Some (JInt n) => k * n | _ => 0 end) in
  h ← content_hash (JObj out);
  new_execution (mkExecution identity out h (Some "OK")).

Definition implementations : ReplayImplementationRegistry :=
  match new_registry [mkImplementation doubler (multiply doubler 2) true false;
                      mkImplementation tripler (multiply tripler 3) true false] with
  | Ok g => g
  | Raise _ => ∅
  end.

Example no_two_of_one_version :
  is_ok (new_registry [mkImplementation doubler (multiply doubler 2) true false;
                       mkImplementation doubler (multiply doubler 3) false true]) = false.
Proof. vm_compute. reflexivity. Qed.

Definition launcher (r : ReplayRequest) (h : HistoricalReplay) (s : gmap uuid ReplayImplementationIdentity)
    : res LiveReplayLaunch :=
  new_launch (mkLaunch LIVE (hr_source_session_id h) 900 901 [902%N; 903%N] [904%N]).

Definition no_decoder {A} (text : string) : option A := None.
Definition run (launch : option LiveReplayLauncher) (r : ReplayRequest) (st : ledger) : res ReplayResult :=
  replay None no_decoder no_decoder no_decoder no_decoder source implementations launch r st.

Definition strict_request : ReplayRequest := mkRequest 1 2 manifest_ref STRICT [].
Definition tolerant_request : ReplayRequest := mkRequest 1 2 manifest_ref TOLERANT [mkSelection 602 tripler].
Definition live_request : ReplayRequest := mkRequest 1 2 manifest_ref LIVE [].

(** ** What it is made of is valid *)

Lemma two_valid : Forall event_valid two_events.
Proof. repeat constructor; vm_compute; reflexivity. Defined.

Lemma two_typed : Forall event_typed two_events.
Proof. repeat constructor; vm_compute; reflexivity. Defined.

Lemma two_honest : Forall honest two_events.
Proof. repeat constructor; vm_compute; reflexivity. Defined.

Lemma history_valid : valid_history history.
Proof.
  split; [vm_compute; reflexivity|]. split; [|exact two_valid].
  repeat constructor; vm_compute; reflexivity.
Defined.

Lemma multiply_valid i k input x :
  identity_ok i = true -> multiply i k input = Ok x -> valid_execution x.
Proof.
  unfold multiply. intros Hi (h & Hh & Hx)%bind_Ok. unfold new_execution in Hx.
  apply bind_Ok in Hx as (y & Hc%ConsensusFacts.construct_Ok & Hx). apply bind_Ok in Hx as (u & Hu & [= <-]).
  destruct Hc as [Hf ->]. split; [|exact Hi]. unfold new_execution, construct. rewrite Hf. cbn [mbind res_bind].
  rewrite Hu. reflexivity.
Qed.

Lemma implementations_valid key implementation input x :
  implementations !! key = Some implementation -> im_execute implementation input = Ok x -> valid_execution x.
Proof.
  assert (Hi : implementations = <[("double", "2") := mkImplementation tripler (multiply tripler 3) true false]>
                 (<[("double", "1") := mkImplementation doubler (multiply doubler 2) true false]> ∅)) by reflexivity.
  rewrite Hi. intros [[_ <-]|[_ [[_ <-]|[_ H]]%lookup_insert_Some]]%lookup_insert_Some; cbn [im_execute].
  - apply multiply_valid. reflexivity.
  - apply multiply_valid. reflexivity.
  - by destruct (lookup_empty_Some _ _ H).
Qed.

Lemma two_whole : whole_session 1 2 two two_events.
Proof.
  destruct (proj1 (verify_valid 1 2 two _ two_verifies) eq_refl) as (h & es & _ & Hes & Hc & _).
  rewrite two_reads in Hes. injection Hes as <-. by eapply chain_whole_session; [exact two_reads|].
Qed.

(** The source is authentic for any request of this session. *)
Lemma authentic_history mode selected :
  map is_step_id selected ⊆ map rs_step_id (hr_steps history) ->
  authentic_source None no_decoder no_decoder no_decoder no_decoder (mkRequest 1 2 manifest_ref mode selected)
    history two.
Proof.
  intros Hs. split; try reflexivity; [exact Hs| |by left].
  eexists _, two_events. split; [exact two_verifies|]. split; [reflexivity|]. split; [exact two_whole|reflexivity].
Qed.

(** ** The theorems, applied *)

Lemma double_reproduced : Forall (reproduced implementations) (hr_steps history).
Proof.
  constructor; [by left|]. constructor; [|constructor]. right.
  exists doubler, (mkImplementation doubler (multiply doubler 2) true false),
    (mkExecution doubler (number 4) four_hash (Some "OK")).
  split_and!; try reflexivity.
Qed.

Definition strict_result : ReplayResult := verified_result strict_request 2.

Lemma strict_verifies_exactly_witness :
  run None strict_request two = Ok strict_result /\ rp_outcome strict_result = VERIFIED.
Proof.
  apply (strict_verifies_exactly None no_decoder no_decoder no_decoder no_decoder source implementations None
           strict_request two strict_result eq_refl).
  exists history. split; [reflexivity|]. split; [exact (authentic_history STRICT [] (list_subseteq_nil _))|].
  split; [exact double_reproduced|reflexivity].
Defined.

Lemma strict_runs : run None strict_request two = Ok strict_result.
Proof. vm_compute. reflexivity. Qed.

Lemma verified_replay_is_the_session_witness :
  Forall2 same_event two_events two_events \/ hash_collision two_events two_events.
Proof.
  destruct (verified_replay_is_the_session None no_decoder no_decoder no_decoder no_decoder source implementations
    None strict_request two strict_result history eq_refl strict_runs eq_refl eq_refl history_valid two_honest
    two_typed implementations_valid) as (es & Hes & _ & Hsame & _).
  pose proof (eq_trans (eq_sym two_reads) Hes) as Heq. injection Heq as <-. apply Hsame. exact two_typed.
Defined.

Lemma batched_read_is_complete_witness : read_loop 3 1 2 1 two = Ok two_events.
Proof.
  destruct (proj2 (batched_read_is_complete 1 2 two 3 (proj1 (Nat.ltb_lt 2 3) eq_refl)) _ two_verifies eq_refl)
    as (es & Hes & Hr).
  rewrite two_reads in Hes. injection Hes as <-. exact Hr.
Defined.

(** The selection of version 2 is reported: another version, another provider,
    another output. *)
Definition tolerant_result : ReplayResult := Eval vm_compute in
  match run None tolerant_request two with Ok r => r | Raise _ => strict_result end.

Lemma tolerant_runs : run None tolerant_request two = Ok tolerant_result.
Proof. vm_compute. reflexivity. Qed.

Example tolerant_differences :
  rp_outcome tolerant_result = DIFFERENT /\
  map rd_difference (rp_differences tolerant_result) = [IMPLEMENTATION; PROVIDER; OUTPUT].
Proof. split; reflexivity. Qed.

(** The same session where the policy of the deterministic step permits it. *)
Definition permitted_step : ReplayStep :=
  mkStep 602 2 METRIC DETERMINISTIC (Some doubler) (number 2) two_hash (number 4) four_hash (Some "OK") true false.
Definition permitting_history : HistoricalReplay :=
  mkHistorical 1 2 manifest_ref two_events [recorded_step; permitted_step] [].
Definition permitting_source (ws sid : uuid) (m : ReplayManifestRef) : res (option HistoricalReplay) :=
  Ok (Some permitting_history).

Lemma permitting_runs :
  replay None no_decoder no_decoder no_decoder no_decoder permitting_source implementations None tolerant_request two
  = Ok tolerant_result.
Proof. vm_compute. reflexivity. Qed.

Lemma tolerant_reports_exactly_witness :
  exists dss, Forall2 (reported implementations tolerant_request) [recorded_step; permitted_step] dss /\
    rp_differences tolerant_result = concat dss.
Proof.
  destruct (tolerant_reports_exactly None no_decoder no_decoder no_decoder no_decoder permitting_source implementations None
    tolerant_request two tolerant_result permitting_history eq_refl eq_refl) as (dss & _ & Hf & Hd & _).
  - intros s [->|[->|Hs%not_elem_of_nil]%elem_of_cons]%elem_of_cons; [discriminate|reflexivity|by destruct Hs].
  - exact permitting_runs.
  - discriminate.
  - exists dss. exact (conj Hf Hd).
Defined.

Definition live_result : ReplayResult :=
  mkResult LIVE LIVE_STARTED 1 2 manifest_ref true false 0 [] None (Some 900%N) (Some 901%N) [902%N; 903%N] [904%N].

Lemma live_runs : run (Some launcher) live_request two = Ok live_result.
Proof. vm_compute. reflexivity. Qed.

Lemma live_is_fresh_witness : forall e, e ∈ two_events -> 900%N <> la_id (le_append e).
Proof.
  destruct (proj2 (live_is_fresh None no_decoder no_decoder no_decoder no_decoder source implementations
    (Some launcher) live_request two) live_result live_runs eq_refl)
    as (_ & h & session & manifest & Hs & _ & Hsession & _ & _ & _ & Hfresh).
  assert (h = history) as -> by (revert Hs; cbn; unfold source; intros [= <-]; reflexivity).
  injection Hsession as <-. exact (proj1 (proj2 (proj2 (Hfresh 900%N (or_introl eq_refl))))).
Defined.

Lemma history_well_formed r : well_formed None no_decoder no_decoder no_decoder no_decoder implementations
  None r history two.
Proof.
  split; [exact history_valid|eexists; exact two_verifies|done| |done].
  assert (Hrun : forall s, rs_input s = number 2 -> valid_step s -> runnable implementations s).
  { intros s Hin Hs. split; [exact Hs|]. intros key implementation Hi. rewrite Hin.
    assert (He : exists x, im_execute implementation (number 2) = Ok x).
    { assert (Heq : implementations = <[("double", "2") := mkImplementation tripler (multiply tripler 3) true false]>
                 (<[("double", "1") := mkImplementation doubler (multiply doubler 2) true false]> ∅)) by reflexivity.
      rewrite Heq in Hi. apply lookup_insert_Some in Hi as [[_ <-]|[_ [[_ <-]|[_ H]]%lookup_insert_Some]].
      - eexists. vm_compute. reflexivity.
      - eexists. vm_compute. reflexivity.
      - by destruct (lookup_empty_Some _ _ H). }
    destruct He as (x & Hx). exists x. split; [exact Hx|by eapply implementations_valid]. }
  destruct history_valid as (_ & Hst & _). apply Forall_cons in Hst as [H1 Hst]. apply Forall_cons in Hst as [H2 _].
  constructor; [by apply Hrun|]. constructor; [by apply Hrun|constructor].
Qed.

Lemma replay_answers_witness :
  exists r, run None tolerant_request two = Ok r /\ answers tolerant_request r.
Proof.
  destruct (replay_answers None no_decoder no_decoder no_decoder no_decoder source implementations None
           tolerant_request two (Some history) eq_refl) as [H|(h & e & [= <-] & (registry & b & v & _ & Hb & _) & _)].
  - intros h [= <-]. apply history_well_formed.
  - exact H.
  - by apply not_elem_of_nil in Hb.
Defined.

(** ** Replays a reader would not expect *)

(** A recorded event whose payload was rewritten: only its event hash is
    compared, so the strict replay still verifies. *)
Definition rewritten (e : LedgerEvent) : LedgerEvent :=
  let a := le_append e in
  mkEvent (mkAppend (la_id a) (la_workspace_id a) (la_session_id a) "REWRITTEN" (la_payload_schema_version a)
             (la_causation_id a) (la_correlation_id a) (la_actor_class a) (la_actor_id a) (la_round a) []
             (la_recorded_at a))
    (le_ledger_seq e) (le_payload_hash e) (le_prev_hash e) (le_event_hash e).
Definition rewritten_history : HistoricalReplay :=
  mkHistorical 1 2 manifest_ref (map rewritten two_events) [recorded_step; double_step] [].

Example rewritten_history_verifies :
  new_historical rewritten_history = Ok rewritten_history /\ Forall event_valid (map rewritten two_events) /\
  replay None no_decoder no_decoder no_decoder no_decoder (fun _ _ _ => Ok (Some rewritten_history)) implementations
    None strict_request two = Ok strict_result.
Proof. split; [vm_compute; reflexivity|]. split; [repeat constructor; vm_compute; reflexivity|vm_compute; reflexivity]. Qed.

(** A deterministic step whose policy does not permit tolerant re-execution is
    re-executed all the same. *)
Example unpermitted_step_is_reexecuted :
  rs_tolerant_reexecution_allowed double_step = false /\ rp_outcome tolerant_result = DIFFERENT.
Proof. split; reflexivity. Qed.

(** A failure of the MARL verification with an empty detail, as a registered
    function that raises [LookupError("")] gives, cannot be reported: the
    replay raises instead of answering. *)
Definition silent_failure : MarlVerify.ReplayVerificationV1 :=
  MarlVerify._failure MarlVerify.UNKNOWN_IMPLEMENTATION MarlVerify.IMPLEMENTATION "trajectory.jsonl" ""
    (MarlVerify.mkInfo None 0 None None None None true MarlVerify.FAILED).

Example silent_failure_raises :
  MarlVerify.result_shape silent_failure = Ok tt /\ marl_mismatch silent_failure = raise ValidationErrorC "ReplayMismatch".
Proof. split; reflexivity. Qed.

End ReplayDemo.
