(* ===== verification/Adapters.v ===== *)
(** * In-memory cache and object store

    [app/adapters/inmemory/cache.py] and [app/adapters/inmemory/object_store.py].
    An operation of the cache takes the reading of the monotonic clock it would
    make; time is counted in nanoseconds and added exactly, where the source adds
    floats.  Bodies and values are byte strings. *)

From S2P Require Import Prelude.
From S2P Require Import Sha256.
From S2P Require Import Json.
From S2P Require Import Symbolic.
From S2P Require Import ConsensusPorts.

(** [d.pop(key, None)] *)
Definition dict_pop {V} (k : string) (d : dict string V) : dict string V :=
  List.filter (fun kv => negb (String.eqb (fst kv) k)) d.

Module Cache.

Definition _MAX_TTL_S : Z := 24 * 60 * 60.
Definition second : Z := 1000000000.

(** [_Entry] *)
Record entry : Type := mkEntry { en_value : string; en_expires_at : Z }.

Definition cache : Type := dict string entry.

Definition ttl_ok (ttl_s : Z) : bool := (0 <? ttl_s)%Z && (ttl_s <=? _MAX_TTL_S)%Z.

Definition get (key : string) (now : Z) : ST cache (option string) :=
  c ← get_st;
  match dict_get key c with
  | None => mret None
  | Some e =>
      if (en_expires_at e <=? now)%Z then _ ← put_st (dict_pop key c); mret None
      else mret (Some (en_value e))
  end.

Definition set (key value : string) (ttl_s now : Z) : ST cache unit :=
  _ ← lift_res (guard_not (negb (ttl_ok ttl_s)) PermanentPortErrorC "cache entries require a TTL");
  c ← get_st;
  put_st (dict_set key (mkEntry value (now + ttl_s * second)) c).

Definition delete (key : string) : ST cache unit := c ← get_st; put_st (dict_pop key c).

(** [int(current.value or b"0") + 1] *)
Definition next_count (e : entry) : res Z :=
  n ← int_of_string (if String.eqb (en_value e) "" then "0" else en_value e);
  Ok (n + 1)%Z.

Definition increment (key : string) (ttl_s now : Z) : ST cache Z :=
  _ ← lift_res (guard_not (negb (ttl_ok ttl_s)) PermanentPortErrorC "rate-limit windows require a TTL");
  c ← get_st;
  match dict_get key c with
  | Some e =>
      if (en_expires_at e <=? now)%Z then
        _ ← put_st (dict_set key (mkEntry "1" (now + ttl_s * second)) c); mret 1%Z
      else
        n ← lift_res (next_count e);
        _ ← put_st (dict_set key (mkEntry (Z_str n) (en_expires_at e)) c);
        mret n
  | None => _ ← put_st (dict_set key (mkEntry "1" (now + ttl_s * second)) c); mret 1%Z
  end.

Definition close : ST cache unit := put_st [].

Definition keys (now : Z) (c : cache) : list string :=
  map fst (List.filter (fun kv => (now <? en_expires_at (snd kv))%Z) c).

(** ** The fixed window *)

(** Successive increments of one key, each with its TTL and clock reading. *)
Fixpoint increments (key : string) (calls : list (Z * Z)) : ST cache (list Z) :=
  match calls with
  | [] => mret []
  | (ttl_s, now) :: calls' =>
      n ← increment key ttl_s now;
      ns ← increments key calls';
      mret (n :: ns)
  end.

(** No live entry under the key. *)
Definition idle (key : string) (now : Z) (c : cache) : Prop :=
  forall e, dict_get key c = Some e -> (en_expires_at e <= now)%Z.

Lemma increment_idle key ttl_s now c :
  ttl_ok ttl_s = true -> idle key now c ->
  increment key ttl_s now c = (dict_set key (mkEntry "1" (now + ttl_s * second)) c, Ok 1%Z).
Proof.
  intros Ht Hi. unfold increment. rewrite run_lift, Ht. cbn [negb guard_not]. rewrite run_get.
  destruct (dict_get key c) as [e|] eqn:E; [|done]. by rewrite (proj2 (Z.leb_le _ _) (Hi e E)).
Qed.

Lemma increment_live key ttl_s now c n expires :
  ttl_ok ttl_s = true -> (0 < n)%Z -> (now < expires)%Z -> dict_get key c = Some (mkEntry (Z_str n) expires) ->
  increment key ttl_s now c = (dict_set key (mkEntry (Z_str (n + 1)) expires) c, Ok (n + 1)%Z).
Proof.
  intros Ht Hn Hnow Hg. unfold increment. rewrite run_lift, Ht. cbn [negb guard_not]. rewrite run_get, Hg.
  cbn [en_expires_at]. rewrite (proj2 (Z.leb_gt expires now) Hnow).
  assert (Hc : next_count (mkEntry (Z_str n) expires) = Ok (n + 1)%Z).
  { unfold next_count. cbn [en_value]. destruct (String.eqb_spec (Z_str n) "") as [He|_].
    - exfalso. destruct (Z_str_chars n) as (ds & Hne & _ & Hc & _).
      rewrite (proj2 (Z.ltb_ge n 0)) in Hc by lia. rewrite He in Hc. by apply Hne.
    - by rewrite int_of_str by lia. }
  by rewrite run_lift, Hc.
Qed.

Lemma count_from n k :
  map (fun i => n + Z.of_nat i)%Z (seq 0 (S k)) = n :: map (fun i => n + 1 + Z.of_nat i)%Z (seq 0 k).
Proof.
  cbn [seq map]. rewrite Z.add_0_r, <- seq_shift, map_map. f_equal. apply map_ext. intros i. lia.
Qed.

Lemma increments_live key calls c n expires :
  (0 < n)%Z -> dict_get key c = Some (mkEntry (Z_str n) expires) ->
  (forall t now, (t, now) ∈ calls -> ttl_ok t = true /\ (now < expires)%Z) ->
  exists c', increments key calls c = (c', Ok (map (fun i => n + 1 + Z.of_nat i)%Z (seq 0 (length calls)))) /\
    dict_get key c' = Some (mkEntry (Z_str (n + Z.of_nat (length calls))) expires).
Proof.
  revert c n; induction calls as [|[t now] calls IH]; intros c n Hn Hg Hc; cbn [increments].
  { exists c. split; [done|]. cbn. by rewrite Z.add_0_r. }
  destruct (Hc t now) as [Ht Hnow]; [left|].
  rewrite run_bind, (increment_live key t now c n expires Ht Hn Hnow Hg), run_bind.
  destruct (IH (dict_set key (mkEntry (Z_str (n + 1)) expires) c) (n + 1)%Z) as (c' & -> & Hg').
  - lia.
  - rewrite dict_get_set. by rewrite decide_True.
  - intros t' now' Hin. apply Hc. by right.
  - exists c'. split.
    + cbn [length]. by rewrite count_from.
    + rewrite Hg'. cbn [length]. do 3 f_equal. lia.
Qed.

(** The rate limit's fixed window: from a key with no live entry, increments
    before the first one's expiry count 1, 2, 3, ... whatever TTL they carry, the
    window's end stays where the first increment put it, and the first increment
    from that time on starts a new window at 1. *)
Theorem fixed_window key ttl_s now calls c (Ht : ttl_ok ttl_s = true) (Hi : idle key now c)
    (Hc : forall t n, (t, n) ∈ calls -> ttl_ok t = true /\ (n < now + ttl_s * second)%Z) :
  exists c', increments key ((ttl_s, now) :: calls) c
      = (c', Ok (map (fun i => 1 + Z.of_nat i)%Z (seq 0 (S (length calls))))) /\
    dict_get key c' = Some (mkEntry (Z_str (1 + Z.of_nat (length calls))) (now + ttl_s * second)) /\
    forall t later, ttl_ok t = true -> (now + ttl_s * second <= later)%Z ->
      snd (increment key t later c') = Ok 1%Z.
Proof.
  cbn [increments]. rewrite run_bind, (increment_idle key ttl_s now c Ht Hi), run_bind.
  destruct (increments_live key calls (dict_set key (mkEntry "1" (now + ttl_s * second)) c) 1 (now + ttl_s * second))
    as (c' & -> & Hg); [lia|rewrite dict_get_set; by rewrite decide_True|done|].
  exists c'. split_and!; [|done|].
  - by rewrite count_from.
  - intros t later Htt Hlate. rewrite (increment_idle key t later c' Htt); [done|].
    intros e He. rewrite Hg in He. injection He as <-. done.
Qed.

End Cache.

Module ObjectStore.

(** [_Blob] *)
Record blob : Type := mkBlob {
  bl_body : string;
  bl_content_type : string;
  bl_metadata : dict string string;
  bl_digest : string
}.

(** [ObjectRef] of [app/ports/storage.py] *)
Record ObjectRef : Type := mkRef {
  or_bucket : string;
  or_key : string;
  or_digest : string;
  or_content_type : string;
  or_size : option Z
}.

Abbreviation objects := (gmap (string * string) blob).

Definition MODES : list string := ["read"; "write"].

Definition _digest_of (body : string) : string := "sha256:" +:+ sha256_hex body.

Definition at_ref (ref : ObjectRef) : string * string := (or_bucket ref, or_key ref).

Definition put (bucket key body content_type : string) (metadata : dict string string) : ST objects ObjectRef :=
  _ ← lift_res (guard_not (String.eqb bucket "" || String.eqb key "") PermanentPortErrorC
                  "bucket and key are both required");
  st ← get_st;
  let digest := _digest_of body in
  _ ← put_st (<[(bucket, key) := mkBlob body content_type metadata digest]> st);
  mret (mkRef bucket key digest content_type (Some (str_len body))).

Definition get (ref : ObjectRef) (st : objects) : res string :=
  b ← res_of_option NotFoundObjectErrorC (or_bucket ref +:+ "/" +:+ or_key ref +:+ " is not stored")
        (st !! at_ref ref);
  _ ← guard_not (negb (String.eqb (or_digest ref) "") && negb (String.eqb (or_digest ref) (bl_digest b)))
        IntegrityObjectErrorC
        ("digest mismatch for " +:+ or_bucket ref +:+ "/" +:+ or_key ref +:+ ": asked for " +:+ or_digest ref
         +:+ ", stored " +:+ bl_digest b);
  Ok (bl_body b).

Definition presign (ref : ObjectRef) (mode : string) (ttl_s : Z) (st : objects) : res string :=
  _ ← guard_not (negb (bool_decide (mode ∈ MODES))) PermanentPortErrorC "unsupported presign mode";
  _ ← guard_not (ttl_s <=? 0)%Z PermanentPortErrorC "presigned URLs must expire";
  _ ← guard_not (is_none (st !! at_ref ref) && String.eqb mode "read") NotFoundObjectErrorC
        (or_bucket ref +:+ "/" +:+ or_key ref +:+ " is not stored");
  Ok ("memory://" +:+ or_bucket ref +:+ "/" +:+ or_key ref +:+ "?mode=" +:+ mode +:+ "&expires_in=" +:+ Z_str ttl_s).

Definition remove (ref : ObjectRef) : ST objects unit := st ← get_st; put_st (delete (at_ref ref) st).

Definition close : ST objects unit := put_st ∅.

(** ** Reads return what was asked for *)

Inductive op : Type :=
| Put (bucket key body content_type : string) (metadata : dict string string)
| Remove (ref : ObjectRef)
| Close.

Definition exec (o : op) (st : objects) : objects :=
  match o with
  | Put bucket key body ct md => fst (put bucket key body ct md st)
  | Remove ref => fst (remove ref st)
  | Close => fst (close st)
  end.

Inductive reachable : objects -> Prop :=
| reach_empty : reachable ∅
| reach_step st o : reachable st -> reachable (exec o st).

Lemma reachable_digests st : reachable st -> forall k b, st !! k = Some b -> bl_digest b = _digest_of (bl_body b).
Proof.
  induction 1 as [|st o _ IH]; intros k b; [by rewrite lookup_empty|]. destruct o as [bucket key body ct md|ref|]; cbn [exec].
  - unfold put. rewrite run_lift. unfold guard_not. destruct (_ || _); cbn [raise fst]; [apply IH|].
    rewrite run_get, run_put. cbn [mret ST_ret fst]. destruct (decide (k = (bucket, key))) as [->|Hne].
    + rewrite lookup_insert_eq. by intros [= <-].
    + rewrite lookup_insert_ne by done. apply IH.
  - unfold remove. rewrite run_get. cbn [put_st fst]. intros [_ H]%lookup_delete_Some. by eapply IH.
  - unfold close. cbn [put_st fst]. by rewrite lookup_empty.
Qed.

(** Content-addressed reads: in every reachable store, reading by a reference
    with a digest returns bytes with exactly that digest, fails as not found
    exactly when nothing is stored under the key and as an integrity error
    exactly when other bytes are; and reading by the reference a put returned
    gives back the bytes put. *)
Theorem reads_are_content_addressed st (Hr : reachable st) :
  (forall ref, or_digest ref <> "" ->
     match get ref st with
     | Ok body => _digest_of body = or_digest ref
     | Raise x => (exn_cls x = NotFoundObjectErrorC /\ st !! at_ref ref = None) \/
                  (exn_cls x = IntegrityObjectErrorC /\
                   exists b, st !! at_ref ref = Some b /\ _digest_of (bl_body b) <> or_digest ref)
     end) /\
  forall bucket key body ct md st' ref, put bucket key body ct md st = (st', Ok ref) ->
    reachable st' /\ get ref st' = Ok body.
Proof.
  split.
  - intros ref Hd. unfold get. destruct (st !! at_ref ref) as [b|] eqn:Hb; [|by left]. cbn [res_of_option mbind res_bind].
    pose proof (reachable_digests st Hr _ _ Hb) as Hdig. unfold guard_not.
    destruct (String.eqb_spec (or_digest ref) "") as [?|_]; [done|]. cbn [negb andb].
    destruct (String.eqb_spec (or_digest ref) (bl_digest b)) as [He|He]; cbn [negb raise mbind res_bind].
    + congruence.
    + right. split; [done|]. exists b. split; [done|congruence].
  - intros bucket key body ct md st' ref H.
    assert (Hst : st' = exec (Put bucket key body ct md) st) by (cbn [exec]; by rewrite H).
    split; [rewrite Hst; by constructor|]. unfold put in H. rewrite run_lift in H. unfold guard_not in H.
    destruct (_ || _); [done|]. rewrite run_get, run_put in H. injection H as <- <-.
    unfold get. cbn [or_bucket or_key or_digest at_ref]. rewrite lookup_insert_eq. cbn [res_of_option mbind res_bind bl_digest].
    by rewrite String.eqb_refl, andb_false_r.
Qed.

End ObjectStore.
