(* ===== verification/RunManifest.v ===== *)
(** * Run manifests

    [app/domain/run_manifest.py]: the pins of a run, the document with its
    canonical bytes, hash and id, the two-state manifest;
    [app/db/run_manifest.py]: the repository over its table;
    [app/application/run_manifest.py]: creation, finalization, and the replay
    source that resolves finalized manifests, over the in-memory object store.
    How the validation library writes a datetime or a decimal as JSON, and how
    it reads a document back, is not the repository's code: [write] and
    [decode]. *)

From S2P Require Import Prelude.
From S2P Require Import PyDecimal.
From S2P Require Import Sha256.
From S2P Require Import Uuid5.
From S2P Require Import Json.
From S2P Require Import Symbolic.
From S2P Require Import ConsensusPorts.
From S2P Require Import ConsensusFacts.
From S2P Require Import Ledger.
From S2P Require Import Adapters.
From S2P Require Import Replay.
From S2P Require Import ReplayService.
Import Replay Service.

Local Open Scope Z_scope.

Module Manifest.

(** ** Pins *)

Record CodePin : Type := mkCodePin { cp_git_sha : string; cp_image_digests : dict string string }.
Record SchemaPin : Type := mkSchemaPin { sp_migration_head : string; sp_artifact_schema_version : Z }.
Record ConsensusPin : Type := mkConsensusPin {
  np_strategy_id : string;
  np_strategy_version : string;
  np_parameters : dict string json;
  np_input_hash : option string
}.
Record InferencePin : Type := mkInferencePin {
  ip_provider : string;
  ip_model : string;
  ip_api_version : option string;
  ip_temperature : dec;
  ip_max_output_tokens : Z;
  ip_stop : list string;
  ip_timeout_s : dec;
  ip_seed : option Z
}.
Record AgentPin : Type := mkAgentPin {
  ap_definition_id : uuid;
  ap_definition_version : Z;
  ap_prompt_ref : string;
  ap_prompt_hash : string;
  ap_strategy_id : string;
  ap_strategy_version : string;
  ap_inference : option InferencePin
}.
Record RetrievalPin : Type := mkRetrievalPin {
  rp_query_hash : string;
  rp_namespace_ids : list uuid;
  rp_index_version : string;
  rp_embedding_model : string;
  rp_embedding_version : string;
  rp_reranker_version : option string
}.
Record MetricPin : Type := mkMetricPin {
  mp_metric_id : string;
  mp_metric_version : string;
  mp_inputs_hash : option string;
  mp_code_version : option string
}.
Record SymbolicPin : Type := mkSymbolicPin {
  yp_formalization_revision_id : uuid;
  yp_ast_hash : string;
  yp_engine : string;
  yp_engine_version : string;
  yp_timeout_ms : Z;
  yp_configuration_id : string;
  yp_evidence_hash : option string
}.
Record SimulationPin : Type := mkSimulationPin {
  sm_run_id : uuid;
  sm_spec_hash : string;
  sm_engine : string;
  sm_engine_version : string;
  sm_seed : Z
}.
Record MarlPin : Type := mkMarlPin {
  lp_episode_id : uuid;
  lp_environment_version : string;
  lp_code_identity : string;
  lp_trajectory_hash : string;
  lp_episode_hash : string
}.
Inductive content_kind : Type := SOURCE | CHUNK | ARTIFACT_CONTENT | PROVIDER_RESPONSE.
Record ContentPin : Type := mkContentPin {
  tp_content_id : uuid;
  tp_kind : content_kind;
  tp_version : option Z;
  tp_ref : option string;
  tp_content_hash : string
}.
Record RandomnessPin : Type := mkRandomnessPin { dp_use : string; dp_seed : Z; dp_stream : Z }.

#[global] Instance content_kind_eq_dec : EqDecision content_kind.
Proof. solve_decision. Defined.

(** The field constraints and field validators of each pin. *)
Definition valid_image (value : string) : bool :=
  is_some (strip_prefix (chars "sha256:") (chars value)) && (str_len value =? 71).

(** [CodePin.valid_images]: the digests sorted by name. *)
Definition valid_images (values : dict string string) : res (dict string string) :=
  _ ← guard_not (negb (nonempty values)) ValueErrorC "at least one image digest is required";
  _ ← guard_not (existsb (fun kv => blank (fst kv)) values) ValueErrorC "image names must not be blank";
  _ ← guard_not (existsb (fun kv => negb (valid_image (snd kv))) values) ValueErrorC
        "image digests must use sha256 content identity";
  Ok (sort_by (fun a b => String.leb (fst a) (fst b)) values).

Definition new_code_pin (p : CodePin) : res CodePin :=
  validated "CodePin"
    (_ ← guard_not (blank (cp_git_sha p)) ValueErrorC "value must not be blank";
     images ← valid_images (cp_image_digests p);
     Ok (mkCodePin (cp_git_sha p) images)).

Definition schema_pin_ok (p : SchemaPin) : bool :=
  _not_blank (sp_migration_head p) && (0 <? sp_artifact_schema_version p).
Definition consensus_pin_ok (p : ConsensusPin) : bool :=
  _not_blank (np_strategy_id p) && _not_blank (np_strategy_version p) && opt_ok digest_ok (np_input_hash p).
Definition inference_pin_ok (p : InferencePin) : bool :=
  _not_blank (ip_provider p) && _not_blank (ip_model p) && dleb dzero (ip_temperature p)
  && dleb (ip_temperature p) (dec_of_Z 2) && (0 <? ip_max_output_tokens p) && negb (dleb (ip_timeout_s p) dzero).
Definition agent_pin_ok (p : AgentPin) : bool :=
  (0 <? ap_definition_version p) && _not_blank (ap_prompt_ref p) && digest_ok (ap_prompt_hash p)
  && _not_blank (ap_strategy_id p) && _not_blank (ap_strategy_version p) && opt_ok inference_pin_ok (ap_inference p).
Definition retrieval_pin_ok (p : RetrievalPin) : bool :=
  digest_ok (rp_query_hash p) && _not_blank (rp_index_version p) && _not_blank (rp_embedding_model p)
  && _not_blank (rp_embedding_version p).
Definition metric_pin_ok (p : MetricPin) : bool :=
  _not_blank (mp_metric_id p) && _not_blank (mp_metric_version p) && opt_ok digest_ok (mp_inputs_hash p).
Definition symbolic_pin_ok (p : SymbolicPin) : bool :=
  digest_ok (yp_ast_hash p) && _not_blank (yp_engine p) && _not_blank (yp_engine_version p)
  && (0 <? yp_timeout_ms p) && _not_blank (yp_configuration_id p) && opt_ok digest_ok (yp_evidence_hash p).
Definition simulation_pin_ok (p : SimulationPin) : bool :=
  digest_ok (sm_spec_hash p) && _not_blank (sm_engine p) && _not_blank (sm_engine_version p).
Definition marl_pin_ok (p : MarlPin) : bool :=
  _not_blank (lp_environment_version p) && digest_ok (lp_code_identity p) && digest_ok (lp_trajectory_hash p)
  && digest_ok (lp_episode_hash p).
Definition content_pin_ok (p : ContentPin) : bool :=
  opt_ok (Z.ltb 0) (tp_version p) && digest_ok (tp_content_hash p).
Definition randomness_pin_ok (p : RandomnessPin) : bool := _not_blank (dp_use p) && (0 <=? dp_stream p).

(** ** The document *)

Record RunManifestDocument : Type := mkDocument {
  rd_workspace_id : uuid;
  rd_session_id : uuid;
  rd_source_session_id : option uuid;
  rd_code : CodePin;
  rd_schema_pin : SchemaPin;
  rd_configuration_hash : string;
  rd_protocol : string;
  rd_rounds : Z;
  rd_budget : dict string json;
  rd_consensus : ConsensusPin;
  rd_agents : list AgentPin;
  rd_retrieval : list RetrievalPin;
  rd_metrics : list MetricPin;
  rd_symbolic : list SymbolicPin;
  rd_simulations : list SimulationPin;
  rd_marl : list MarlPin;
  rd_contents : list ContentPin;
  rd_randomness : list RandomnessPin;
  rd_replay_steps : list ReplayStep;
  rd_marl_bundles : list MarlReplayBundle;
  rd_started_at : datetime
}.

(** [manifest_version: Literal[1]] and [ordering: Literal["ledger_seq"]] *)
Definition MANIFEST_VERSION : Z := 1.
Definition ORDERING : string := "ledger_seq".

Definition document_fields_ok (d : RunManifestDocument) : bool :=
  schema_pin_ok (rd_schema_pin d) && digest_ok (rd_configuration_hash d) && _not_blank (rd_protocol d)
  && (0 <? rd_rounds d) && consensus_pin_ok (rd_consensus d) && forallb agent_pin_ok (rd_agents d)
  && forallb retrieval_pin_ok (rd_retrieval d) && forallb metric_pin_ok (rd_metrics d)
  && forallb symbolic_pin_ok (rd_symbolic d) && forallb simulation_pin_ok (rd_simulations d)
  && forallb marl_pin_ok (rd_marl d) && forallb content_pin_ok (rd_contents d)
  && forallb randomness_pin_ok (rd_randomness d).

(** [len(set(values)) != len(values)] for one of the [identities]. *)
Definition unique {A} `{EqDecision A} (label : string) (values : list A) : res unit :=
  guard_not (negb (bool_decide (NoDup values))) ValueErrorC (label +:+ " must be unique").

(** [required_pins] *)
Definition required_pins (d : RunManifestDocument) : res unit :=
  let orders := map rs_order (rd_replay_steps d) in
  _ ← guard_not (bool_decide (rd_source_session_id d = Some (rd_session_id d))) ValueErrorC
        "source session must differ from run session";
  _ ← guard_not (negb (nonempty (rd_agents d)) || negb (nonempty (rd_metrics d)) || negb (nonempty (rd_contents d))
                 || negb (nonempty (rd_replay_steps d))) ValueErrorC
        "agents, metrics, contents and replay steps are required";
  _ ← unique "agent definitions" (map (fun a => (ap_definition_id a, ap_definition_version a)) (rd_agents d));
  _ ← unique "metric definitions" (map (fun m => (mp_metric_id m, mp_metric_version m)) (rd_metrics d));
  _ ← unique "content identities" (map (fun c => (tp_kind c, tp_content_id c, tp_version c)) (rd_contents d));
  _ ← unique "replay steps" (map rs_step_id (rd_replay_steps d));
  guard_not (negb (bool_decide (orders = sort_by Z.leb orders))) ValueErrorC
    "replay steps must be deterministically ordered".

Definition with_code (d : RunManifestDocument) (code : CodePin) (started_at : datetime) : RunManifestDocument :=
  mkDocument (rd_workspace_id d) (rd_session_id d) (rd_source_session_id d) code (rd_schema_pin d)
    (rd_configuration_hash d) (rd_protocol d) (rd_rounds d) (rd_budget d) (rd_consensus d) (rd_agents d)
    (rd_retrieval d) (rd_metrics d) (rd_symbolic d) (rd_simulations d) (rd_marl d) (rd_contents d)
    (rd_randomness d) (rd_replay_steps d) (rd_marl_bundles d) started_at.

Definition new_document (d : RunManifestDocument) : res RunManifestDocument :=
  validated "RunManifestDocument"
    (code ← new_code_pin (rd_code d);
     _ ← construct document_fields_ok "RunManifestDocument" d;
     started_at ← _aware_utc (rd_started_at d);
     _ ← required_pins d;
     Ok (with_code d code started_at)).

(** ** Canonical bytes *)

Definition jopt {A} (f : A -> json) (o : option A) : json := match o with Some a => f a | None => JNull end.
Definition juuid (u : uuid) : json := JStr (uuid_str u).
Definition jlist {A} (f : A -> json) (l : list A) : json := JList (map f l).
Definition jstrings (d : dict string string) : json := JObj (map (fun kv => (fst kv, JStr (snd kv))) d).

Definition kind_value (k : content_kind) : string :=
  match k with
  | SOURCE => "SOURCE" | CHUNK => "CHUNK" | ARTIFACT_CONTENT => "ARTIFACT" | PROVIDER_RESPONSE => "PROVIDER_RESPONSE"
  end.
Definition step_kind_value (k : ReplayStepKind) : string :=
  match k with
  | ARTIFACT => "ARTIFACT" | EVENT => "EVENT" | METRIC => "METRIC" | CONSENSUS => "CONSENSUS"
  | SYMBOLIC => "SYMBOLIC" | SIMULATION => "SIMULATION" | RETRIEVAL => "RETRIEVAL" | LLM => "LLM"
  end.
Definition policy_value (p : ReplayStepPolicy) : string :=
  match p with RECORDED => "RECORDED" | DETERMINISTIC => "DETERMINISTIC" | EXTERNAL => "EXTERNAL" end.

(** How the validation library writes what JSON has no type for. *)
Record writer : Type := mkWriter {
  write_datetime : datetime -> string;
  write_decimal : dec -> string;
  write_bytes : string -> string
}.

Section dump.
Variable write : writer.

Definition dump_inference (p : InferencePin) : json :=
  JObj [("provider", JStr (ip_provider p)); ("model", JStr (ip_model p));
        ("api_version", jopt JStr (ip_api_version p)); ("temperature", JStr (write_decimal write (ip_temperature p)));
        ("max_output_tokens", JInt (ip_max_output_tokens p)); ("stop", jlist JStr (ip_stop p));
        ("timeout_s", JStr (write_decimal write (ip_timeout_s p))); ("seed", jopt JInt (ip_seed p))].

Definition dump_agent (p : AgentPin) : json :=
  JObj [("definition_id", juuid (ap_definition_id p)); ("definition_version", JInt (ap_definition_version p));
        ("prompt_ref", JStr (ap_prompt_ref p)); ("prompt_hash", JStr (ap_prompt_hash p));
        ("strategy_id", JStr (ap_strategy_id p)); ("strategy_version", JStr (ap_strategy_version p));
        ("inference", jopt dump_inference (ap_inference p))].

Definition dump_retrieval (p : RetrievalPin) : json :=
  JObj [("query_hash", JStr (rp_query_hash p)); ("namespace_ids", jlist juuid (rp_namespace_ids p));
        ("index_version", JStr (rp_index_version p)); ("embedding_model", JStr (rp_embedding_model p));
        ("embedding_version", JStr (rp_embedding_version p)); ("reranker_version", jopt JStr (rp_reranker_version p))].

Definition dump_metric (p : MetricPin) : json :=
  JObj [("metric_id", JStr (mp_metric_id p)); ("metric_version", JStr (mp_metric_version p));
        ("inputs_hash", jopt JStr (mp_inputs_hash p)); ("code_version", jopt JStr (mp_code_version p))].

Definition dump_symbolic (p : SymbolicPin) : json :=
  JObj [("formalization_revision_id", juuid (yp_formalization_revision_id p)); ("ast_hash", JStr (yp_ast_hash p));
        ("engine", JStr (yp_engine p)); ("engine_version", JStr (yp_engine_version p));
        ("timeout_ms", JInt (yp_timeout_ms p)); ("configuration_id", JStr (yp_configuration_id p));
        ("evidence_hash", jopt JStr (yp_evidence_hash p))].

Definition dump_simulation (p : SimulationPin) : json :=
  JObj [("run_id", juuid (sm_run_id p)); ("spec_hash", JStr (sm_spec_hash p)); ("engine", JStr (sm_engine p));
        ("engine_version", JStr (sm_engine_version p)); ("seed", JInt (sm_seed p))].

Definition dump_marl (p : MarlPin) : json :=
  JObj [("episode_id", juuid (lp_episode_id p)); ("environment_version", JStr (lp_environment_version p));
        ("code_identity", JStr (lp_code_identity p)); ("trajectory_hash", JStr (lp_trajectory_hash p));
        ("episode_hash", JStr (lp_episode_hash p))].

Definition dump_content (p : ContentPin) : json :=
  JObj [("content_id", juuid (tp_content_id p)); ("kind", JStr (kind_value (tp_kind p)));
        ("version", jopt JInt (tp_version p)); ("ref", jopt JStr (tp_ref p));
        ("content_hash", JStr (tp_content_hash p))].

Definition dump_randomness (p : RandomnessPin) : json :=
  JObj [("use", JStr (dp_use p)); ("seed", JInt (dp_seed p)); ("stream", JInt (dp_stream p))].

Definition dump_identity (i : ReplayImplementationIdentity) : json :=
  JObj [("implementation_id", JStr (ri_implementation_id i));
        ("implementation_version", JStr (ri_implementation_version i)); ("provider", jopt JStr (ri_provider i));
        ("model", jopt JStr (ri_model i)); ("configuration_hash", jopt JStr (ri_configuration_hash i))].

Definition dump_step (s : ReplayStep) : json :=
  JObj [("step_id", juuid (rs_step_id s)); ("order", JInt (rs_order s));
        ("kind", JStr (step_kind_value (rs_kind s))); ("policy", JStr (policy_value (rs_policy s)));
        ("implementation", jopt dump_identity (rs_implementation s)); ("input", JObj (rs_input s));
        ("input_hash", JStr (rs_input_hash s)); ("expected_output", JObj (rs_expected_output s));
        ("expected_output_hash", JStr (rs_expected_output_hash s));
        ("expected_status", jopt JStr (rs_expected_status s));
        ("tolerant_reexecution_allowed", JBool (rs_tolerant_reexecution_allowed s));
        ("timing_sensitive", JBool (rs_timing_sensitive s))].

Definition dump_bundle (b : MarlReplayBundle) : json :=
  JObj [("manifest", JStr (write_bytes write (mb_manifest b)));
        ("trajectory", JStr (write_bytes write (mb_trajectory b)))].

(** [document.model_dump(mode="json", by_alias=True)] *)
Definition dump_document (d : RunManifestDocument) : json :=
  JObj [("manifest_version", JInt MANIFEST_VERSION); ("workspace_id", juuid (rd_workspace_id d));
        ("session_id", juuid (rd_session_id d)); ("source_session_id", jopt juuid (rd_source_session_id d));
        ("code", JObj [("git_sha", JStr (cp_git_sha (rd_code d)));
                       ("image_digests", jstrings (cp_image_digests (rd_code d)))]);
        ("schema", JObj [("migration_head", JStr (sp_migration_head (rd_schema_pin d)));
                         ("artifact_schema_version", JInt (sp_artifact_schema_version (rd_schema_pin d)))]);
        ("configuration_hash", JStr (rd_configuration_hash d)); ("protocol", JStr (rd_protocol d));
        ("rounds", JInt (rd_rounds d)); ("budget", JObj (rd_budget d));
        ("consensus", JObj [("strategy_id", JStr (np_strategy_id (rd_consensus d)));
                            ("strategy_version", JStr (np_strategy_version (rd_consensus d)));
                            ("parameters", JObj (np_parameters (rd_consensus d)));
                            ("input_hash", jopt JStr (np_input_hash (rd_consensus d)))]);
        ("agents", jlist dump_agent (rd_agents d)); ("retrieval", jlist dump_retrieval (rd_retrieval d));
        ("metrics", jlist dump_metric (rd_metrics d)); ("symbolic", jlist dump_symbolic (rd_symbolic d));
        ("simulations", jlist dump_simulation (rd_simulations d)); ("marl", jlist dump_marl (rd_marl d));
        ("contents", jlist dump_content (rd_contents d)); ("randomness", jlist dump_randomness (rd_randomness d));
        ("replay_steps", jlist dump_step (rd_replay_steps d)); ("marl_bundles", jlist dump_bundle (rd_marl_bundles d));
        ("started_at", JStr (write_datetime write (rd_started_at d))); ("ordering", JStr ORDERING)].

Definition run_manifest_bytes (d : RunManifestDocument) : res string := canonical_json (dump_document d).
Definition run_manifest_hash (d : RunManifestDocument) : res string := content_hash (dump_document d).

Definition _MANIFEST_NAMESPACE : uuid := 0x28ba96d9cdea4e80b7fe9cbdf8907344.

Definition run_manifest_id (d : RunManifestDocument) : res uuid :=
  h ← run_manifest_hash d; Ok (uuid5 _MANIFEST_NAMESPACE h).

End dump.

(** ** The manifest of a session *)

Inductive RunManifestStatus : Type := CREATED | FINALIZED.

#[global] Instance RunManifestStatus_eq_dec : EqDecision RunManifestStatus.
Proof. solve_decision. Defined.
#[global] Instance ObjectRef_eq_dec : EqDecision ObjectStore.ObjectRef.
Proof. solve_decision. Defined.

Record RunManifest : Type := mkManifest {
  mf_id : uuid;
  mf_workspace_id : uuid;
  mf_session_id : uuid;
  mf_source_session_id : option uuid;
  mf_manifest_version : Z;
  mf_status : RunManifestStatus;
  mf_manifest_ref : option ObjectStore.ObjectRef;
  mf_manifest_hash : option string;
  mf_git_sha : string;
  mf_image_digests : dict string string;
  mf_model_pins : dict string json;
  mf_prompt_hashes : dict string string;
  mf_seed : option Z;
  mf_created_at : datetime;
  mf_finalized_at : option datetime
}.

(** [lifecycle_shape] *)
Definition lifecycle_shape (m : RunManifest) : res unit :=
  _ ← guard_not (bool_decide (mf_source_session_id m = Some (mf_session_id m))) ValueErrorC
        "source session must differ from run session";
  match mf_status m with
  | CREATED =>
      guard_not (is_some (mf_manifest_ref m) || is_some (mf_manifest_hash m) || is_some (mf_finalized_at m))
        ValueErrorC "created manifest cannot contain finalized fields"
  | FINALIZED =>
      guard_not (is_none (mf_manifest_ref m) || is_none (mf_manifest_hash m) || is_none (mf_finalized_at m))
        ValueErrorC "finalized manifest requires ref, hash and finalized_at"
  end.

(** [timestamps_utc] *)
Definition opt_utc (t : option datetime) : res (option datetime) :=
  match t with Some t => u ← _aware_utc t; Ok (Some u) | None => Ok None end.

Definition with_times (m : RunManifest) (created_at : datetime) (finalized_at : option datetime) : RunManifest :=
  mkManifest (mf_id m) (mf_workspace_id m) (mf_session_id m) (mf_source_session_id m) (mf_manifest_version m)
    (mf_status m) (mf_manifest_ref m) (mf_manifest_hash m) (mf_git_sha m) (mf_image_digests m) (mf_model_pins m)
    (mf_prompt_hashes m) (mf_seed m) created_at finalized_at.

Definition manifest_fields_ok (m : RunManifest) : bool :=
  (0 <? mf_manifest_version m) && opt_ok digest_ok (mf_manifest_hash m) && _not_blank (mf_git_sha m).

Definition new_manifest (m : RunManifest) : res RunManifest :=
  _ ← construct manifest_fields_ok "RunManifest" m;
  validated "RunManifest"
    (created_at ← _aware_utc (mf_created_at m);
     finalized_at ← opt_utc (mf_finalized_at m);
     _ ← lifecycle_shape m;
     Ok (with_times m created_at finalized_at)).

(** [RunManifest.ref] *)
Definition ref (m : RunManifest) : res ReplayManifestRef :=
  match mf_status m, mf_manifest_hash m with
  | FINALIZED, Some h => new_manifest_ref (mkManifestRef (mf_id m) (mf_manifest_version m) h)
  | _, _ => raise ValueErrorC "only a finalized manifest is replayable"
  end.

(** Python's [==]: a dict is compared without its order, an aware datetime by its
    instant. *)
Definition time_eqb (a b : datetime) : bool :=
  match dt_offset a, dt_offset b with
  | Some _, Some _ => dt_utc a =? dt_utc b
  | None, None => dt_local a =? dt_local b
  | _, _ => false
  end.
Definition opt_time_eqb (a b : option datetime) : bool :=
  match a, b with Some a, Some b => time_eqb a b | None, None => true | _, _ => false end.
Definition strings_eqb (a b : dict string string) : bool := py_eqb (jstrings a) (jstrings b).
Definition same_manifest (a b : RunManifest) : bool :=
  bool_decide (mf_id a = mf_id b) && bool_decide (mf_workspace_id a = mf_workspace_id b)
  && bool_decide (mf_session_id a = mf_session_id b)
  && bool_decide (mf_source_session_id a = mf_source_session_id b)
  && (mf_manifest_version a =? mf_manifest_version b) && bool_decide (mf_status a = mf_status b)
  && bool_decide (mf_manifest_ref a = mf_manifest_ref b) && bool_decide (mf_manifest_hash a = mf_manifest_hash b)
  && String.eqb (mf_git_sha a) (mf_git_sha b) && strings_eqb (mf_image_digests a) (mf_image_digests b)
  && py_eqb (JObj (mf_model_pins a)) (JObj (mf_model_pins b))
  && strings_eqb (mf_prompt_hashes a) (mf_prompt_hashes b) && bool_decide (mf_seed a = mf_seed b)
  && time_eqb (mf_created_at a) (mf_created_at b) && opt_time_eqb (mf_finalized_at a) (mf_finalized_at b).

(** ** The table *)

Record row : Type := mkRow {
  mw_id : uuid;
  mw_workspace_id : uuid;
  mw_session_id : uuid;
  mw_source_session_id : option uuid;
  mw_manifest_version : Z;
  mw_status : string;
  mw_manifest_bucket : option string;
  mw_manifest_ref : option string;
  mw_manifest_hash : option string;
  mw_manifest_size : option Z;
  mw_git_sha : string;
  mw_image_digests : dict string string;
  mw_model_pins : dict string json;
  mw_prompt_hashes : dict string string;
  mw_seed : option Z;
  mw_created_at : datetime;
  mw_finalized_at : option datetime
}.

Definition status_value (s : RunManifestStatus) : string :=
  match s with CREATED => "CREATED" | FINALIZED => "FINALIZED" end.
(** [RunManifestStatus(text)] *)
Definition status_of (s : string) : res RunManifestStatus :=
  match s with
  | "CREATED" => Ok CREATED
  | "FINALIZED" => Ok FINALIZED
  | _ => raise ValueErrorC "not a valid RunManifestStatus"
  end.

(** [_manifest] *)
Definition row_ref (r : row) : option ObjectStore.ObjectRef :=
  match mw_manifest_ref r, mw_manifest_bucket r, mw_manifest_hash r with
  | Some key, Some bucket, Some hash =>
      Some (ObjectStore.mkRef bucket key hash "application/json" (mw_manifest_size r))
  | _, _, _ => None
  end.
Definition _manifest (r : row) : res RunManifest :=
  status ← status_of (mw_status r);
  new_manifest (mkManifest (mw_id r) (mw_workspace_id r) (mw_session_id r) (mw_source_session_id r)
    (mw_manifest_version r) status (row_ref r) (mw_manifest_hash r) (mw_git_sha r) (mw_image_digests r)
    (mw_model_pins r) (mw_prompt_hashes r) (mw_seed r) (mw_created_at r) (mw_finalized_at r)).

(** The row [create] adds. *)
Definition created_row (m : RunManifest) : row :=
  mkRow (mf_id m) (mf_workspace_id m) (mf_session_id m) (mf_source_session_id m) (mf_manifest_version m)
    (status_value (mf_status m)) None None None None (mf_git_sha m) (mf_image_digests m) (mf_model_pins m)
    (mf_prompt_hashes m) (mf_seed m) (mf_created_at m) None.

(** The columns [finalize] assigns. *)
Definition finalized_row (m : RunManifest) (o : ObjectStore.ObjectRef) (r : row) : row :=
  mkRow (mw_id r) (mw_workspace_id r) (mw_session_id r) (mw_source_session_id r) (mw_manifest_version r)
    (status_value (mf_status m)) (Some (ObjectStore.or_bucket o)) (Some (ObjectStore.or_key o)) (mf_manifest_hash m)
    (ObjectStore.or_size o) (mw_git_sha r) (mw_image_digests r) (mw_model_pins r) (mw_prompt_hashes r) (mw_seed r)
    (mw_created_at r) (mf_finalized_at m).

(** ** The repository *)
Module Repository.

Definition of_session (ws sid : uuid) (r : row) : bool :=
  bool_decide (mw_workspace_id r = ws) && bool_decide (mw_session_id r = sid).

Definition optional (r : option row) : res (option RunManifest) :=
  match r with Some r => m ← _manifest r; Ok (Some m) | None => Ok None end.

Definition get_for_session (ws sid : uuid) (rows : list row) : res (option RunManifest) :=
  optional (List.find (of_session ws sid) rows).

Definition matches_ref (ws sid : uuid) (reference : ReplayManifestRef) (r : row) : bool :=
  of_session ws sid r && bool_decide (mw_id r = mr_manifest_id reference)
  && (mw_manifest_version r =? mr_manifest_version reference)
  && bool_decide (mw_manifest_hash r = Some (mr_manifest_hash reference))
  && String.eqb (mw_status r) (status_value FINALIZED).

Definition get_finalized (ws sid : uuid) (reference : ReplayManifestRef) (rows : list row)
    : res (option RunManifest) :=
  optional (List.find (matches_ref ws sid reference) rows).

(** The unique constraints [flush] runs into: the id, and the session. *)
Definition taken (m : RunManifest) (rows : list row) : bool :=
  existsb (fun r => bool_decide (mw_id r = mf_id m)
                    || of_session (mf_workspace_id m) (mf_session_id m) r) rows.

Definition create (m : RunManifest) : ST (list row) RunManifest :=
  rows ← get_st;
  existing ← lift_res (get_for_session (mf_workspace_id m) (mf_session_id m) rows);
  match existing with
  | Some e =>
      if same_manifest e m then mret e
      else raise_st RunManifestConflictC "session already has a different run manifest"
  | None =>
      _ ← lift_res (guard_not (taken m rows) RunManifestConflictC "run manifest identity already exists");
      _ ← put_st (rows ++ [created_row m]);
      mret m
  end.

(** Assignments to the row with an id. *)
Definition update_row (id : uuid) (f : row -> row) (rows : list row) : list row :=
  map (fun r => if bool_decide (mw_id r = id) then f r else r) rows.

Definition finalize (m : RunManifest) : ST (list row) RunManifest :=
  match mf_status m, mf_manifest_ref m with
  | FINALIZED, Some o =>
      rows ← get_st;
      current ← lift_res (get_for_session (mf_workspace_id m) (mf_session_id m) rows);
      match current with
      | None => raise_st RunManifestConflictC "run manifest does not exist"
      | Some c =>
          if bool_decide (mf_status c = FINALIZED) then
            if same_manifest c m then mret c
            else raise_st RunManifestConflictC "finalized run manifest is immutable"
          else
            match List.find (fun r => bool_decide (mw_id r = mf_id m)) rows with
            | None => raise_st RunManifestConflictC "run manifest does not exist"
            | Some _ =>
                _ ← put_st (update_row (mf_id m) (finalized_row m o) rows);
                mret m
            end
      end
  | _, _ => raise_st ValueErrorC "finalize requires a finalized manifest"
  end.

End Repository.

(** ** The service *)

(** The table and the object store. *)
Record store : Type := mkStore { st_rows : list row; st_objects : gmap (string * string) ObjectStore.blob }.

Definition on_rows {A} (m : ST (list row) A) : ST store A := fun st =>
  let '(rows, r) := m (st_rows st) in (mkStore rows (st_objects st), r).
Definition on_objects {A} (m : ST (gmap (string * string) ObjectStore.blob) A) : ST store A := fun st =>
  let '(objects, r) := m (st_objects st) in (mkStore (st_rows st) objects, r).

Definition _ROW_NAMESPACE : uuid := 0x7626d3dcbd3148cab0a595d61655a66f.
Definition row_id (ws sid : uuid) : uuid := uuid5 _ROW_NAMESPACE (uuid_str ws +:+ ":" +:+ uuid_str sid).

(** What [create] pins. *)
Record creation : Type := mkCreation {
  cr_workspace_id : uuid;
  cr_session_id : uuid;
  cr_source_session_id : option uuid;
  cr_git_sha : string;
  cr_image_digests : dict string string;
  cr_model_pins : dict string json;
  cr_prompt_hashes : dict string string;
  cr_seed : option Z;
  cr_created_at : datetime
}.

Definition created_manifest (c : creation) : RunManifest :=
  mkManifest (row_id (cr_workspace_id c) (cr_session_id c)) (cr_workspace_id c) (cr_session_id c)
    (cr_source_session_id c) 1 CREATED None None (cr_git_sha c) (cr_image_digests c) (cr_model_pins c)
    (cr_prompt_hashes c) (cr_seed c) (cr_created_at c) None.

Definition create (c : creation) : ST store RunManifest :=
  m ← lift_res (new_manifest (created_manifest c));
  on_rows (Repository.create m).

(** [{str(item.definition_id): item.inference.model for item in document.agents if ...}] *)
Definition expected_models (d : RunManifestDocument) : dict string json :=
  dict_of_list (omap (fun a => match ap_inference a with
                               | Some i => Some (uuid_str (ap_definition_id a), JStr (ip_model i))
                               | None => None
                               end) (rd_agents d)).
Definition expected_prompts (d : RunManifestDocument) : dict string string :=
  dict_of_list (map (fun a => (uuid_str (ap_definition_id a), ap_prompt_hash a)) (rd_agents d)).

Definition _validate_document (current : RunManifest) (d : RunManifestDocument) : res unit :=
  _ ← guard_not (negb (bool_decide (rd_workspace_id d = mf_workspace_id current))
                 || negb (bool_decide (rd_session_id d = mf_session_id current))
                 || negb (bool_decide (rd_source_session_id d = mf_source_session_id current))
                 || negb (MANIFEST_VERSION =? mf_manifest_version current)
                 || negb (String.eqb (cp_git_sha (rd_code d)) (mf_git_sha current))
                 || negb (strings_eqb (cp_image_digests (rd_code d)) (mf_image_digests current))) RunManifestConflictC
        "final manifest differs from immutable creation pins";
  guard_not (negb (py_eqb (JObj (expected_models d)) (JObj (mf_model_pins current)))
             || negb (strings_eqb (expected_prompts d) (mf_prompt_hashes current))) RunManifestConflictC
    "final manifest agent pins differ from creation pins".

(** [digest.removeprefix("sha256:")] *)
Definition removeprefix (prefix s : string) : string :=
  match strip_prefix (chars prefix) (chars s) with Some l => unchars l | None => s end.

Definition object_key (ws : uuid) (digest : string) : string :=
  "workspaces/" +:+ uuid_str ws +:+ "/manifests/" +:+ removeprefix "sha256:" digest +:+ ".json".

Definition object_metadata (ws sid : uuid) (current : RunManifest) : dict string string :=
  [("workspace_id", uuid_str ws); ("session_id", uuid_str sid); ("manifest_id", uuid_str (mf_id current));
   ("manifest_version", Z_str (mf_manifest_version current))].

(** [current.model_copy(update={...})]; [model_validate] of an instance returns
    it as it is. *)
Definition finalized (current : RunManifest) (o : ObjectStore.ObjectRef) (digest : string) (at_ : datetime) : RunManifest :=
  mkManifest (mf_id current) (mf_workspace_id current) (mf_session_id current) (mf_source_session_id current)
    (mf_manifest_version current) FINALIZED (Some o) (Some digest) (mf_git_sha current) (mf_image_digests current)
    (mf_model_pins current) (mf_prompt_hashes current) (mf_seed current) (mf_created_at current) (Some at_).

Section manifest_service.
Variable write : writer.
Variable bucket : string.

Definition finalize (ws sid : uuid) (d : RunManifestDocument) (finalized_at : datetime) : ST store RunManifest :=
  st ← get_st;
  current ← lift_res (Repository.get_for_session ws sid (st_rows st));
  match current with
  | None => raise_st RunManifestConflictC "run manifest was not created with the session"
  | Some c =>
      _ ← lift_res (_validate_document c d);
      digest ← lift_res (run_manifest_hash write d);
      body ← lift_res (run_manifest_bytes write d);
      o ← on_objects (ObjectStore.put bucket (object_key ws digest) body "application/json"
                        (object_metadata ws sid c));
      _ ← lift_res (guard_not (negb (String.eqb (ObjectStore.or_digest o) digest)) RunManifestConflictC
                      "object store returned a different manifest digest");
      on_rows (Repository.finalize (finalized c o digest finalized_at))
  end.

(** ** The replay source *)

Variable decode : string -> option RunManifestDocument.
Context {L : Type} `{LedgerReader L}.

(** [PersistedReplaySource.load]; a body that does not decode is the validation
    library's error. *)
Definition load (ws sid : uuid) (manifest : ReplayManifestRef) (st : store) (l : L)
    : res (option HistoricalReplay) :=
  record ← Repository.get_finalized ws sid manifest (st_rows st);
  match record with
  | None => Ok None
  | Some r =>
      match mf_manifest_ref r, mf_manifest_hash r with
      | Some o, Some hash =>
          body ← ObjectStore.get o (st_objects st);
          d ← res_of_option ValidationErrorC "RunManifestDocument" (decode body);
          bytes ← run_manifest_bytes write d;
          h ← run_manifest_hash write d;
          _ ← guard_not (negb (String.eqb bytes body) || negb (String.eqb h hash)) RunManifestConflictC
                "stored manifest bytes are not canonical or hash-valid";
          events ← read_loop (S (lr_size l)) ws sid 1 l;
          m ← ref r;
          history ← new_historical (mkHistorical ws sid m events (rd_replay_steps d) (rd_marl_bundles d));
          Ok (Some history)
      | _, _ => Ok None
      end
  end.

End manifest_service.

End Manifest.
