(* ===== verification/RunManifestFacts.v ===== *)
(** * Run manifests: what they promise

    The table keeps one row per session, a finalized row never changes and its
    object stays readable, a finalized manifest is loaded with exactly the steps
    it was finalized with, a requested manifest hash pins them, and with this
    source the replay compares the ledger only with itself. *)

From S2P Require Import Prelude.
From S2P Require Import Clock.
From S2P Require Import Sha256.
From S2P Require Import Json.
From S2P Require Import Symbolic.
From S2P Require Import ConsensusPorts.
From S2P Require Import ConsensusFacts.
From S2P Require Import Ledger.
From S2P Require Import Adapters.
From S2P Require Import Replay.
From S2P Require Import ReplayService.
From S2P Require Import ReplayFacts.
From S2P Require Import RunManifest.
Import Replay Service Manifest.

Local Open Scope Z_scope.

(** ** Validated manifests *)

Lemma new_manifest_Ok m m' :
  new_manifest m = Ok m' ->
  exists created_at finalized_at, m' = with_times m created_at finalized_at /\ manifest_fields_ok m = true /\
    _aware_utc (mf_created_at m) = Ok created_at /\ opt_utc (mf_finalized_at m) = Ok finalized_at /\
    lifecycle_shape m = Ok tt.
Proof.
  unfold new_manifest. intros (u & [Hf ->]%construct_Ok & H)%bind_Ok. apply validated_Ok in H.
  apply bind_Ok in H as (c & Hc & H). apply bind_Ok in H as (f & Hfin & H).
  apply bind_Ok in H as ([] & Hs & [= <-]). by exists c, f.
Qed.

(** What a row reads back as. *)
Lemma manifest_of_row r m :
  _manifest r = Ok m ->
  mf_id m = mw_id r /\ mf_workspace_id m = mw_workspace_id r /\ mf_session_id m = mw_session_id r /\
  mf_manifest_version m = mw_manifest_version r /\ mf_manifest_hash m = mw_manifest_hash r /\
  mf_manifest_ref m = row_ref r /\ status_of (mw_status r) = Ok (mf_status m) /\
  opt_ok digest_ok (mw_manifest_hash r) = true.
Proof.
  unfold _manifest. intros (s & Hs & H)%bind_Ok. apply new_manifest_Ok in H as (c & f & -> & Hf & _).
  unfold manifest_fields_ok in Hf. cbn [mf_manifest_hash] in Hf. rewrite !andb_true_iff in Hf.
  destruct Hf as ((_ & Hf) & _). done.
Qed.

Lemma status_of_Ok s st : status_of s = Ok st <-> s = status_value st.
Proof.
  split; [|intros ->; by destruct st].
  unfold status_of. intros H. destruct (decide (s = "CREATED")) as [->|H1]; [by injection H as <-|].
  destruct (decide (s = "FINALIZED")) as [->|H2]; [by injection H as <-|].
  exfalso. revert H. repeat (match goal with |- context [match ?x with _ => _ end] => destruct x end; try done).
Qed.

(** ** The invariant of the table and the objects *)

Definition session_of (r : row) : uuid * uuid := (mw_workspace_id r, mw_session_id r).

(** A finalized row names an object under its own digest, and it is stored. *)
Definition finalized_well (bucket : string) (objects : gmap (string * string) ObjectStore.blob) (r : row) : Prop :=
  mw_status r = status_value FINALIZED ->
  exists b, objects !! (bucket, object_key (mw_workspace_id r) (ObjectStore._digest_of (ObjectStore.bl_body b))) = Some b /\
    ObjectStore.bl_digest b = ObjectStore._digest_of (ObjectStore.bl_body b) /\
    mw_manifest_hash r = Some (ObjectStore.bl_digest b) /\ mw_manifest_bucket r = Some bucket /\
    mw_manifest_ref r = Some (object_key (mw_workspace_id r) (ObjectStore.bl_digest b)).

Record manifest_inv (bucket : string) (st : store) : Prop := {
  mi_ids : NoDup (map mw_id (st_rows st));
  mi_sessions : NoDup (map session_of (st_rows st));
  mi_final : Forall (finalized_well bucket (st_objects st)) (st_rows st)
}.

Lemma of_session_spec ws sid r : Repository.of_session ws sid r = true <-> session_of r = (ws, sid).
Proof.
  unfold Repository.of_session, session_of. rewrite andb_true_iff, !bool_decide_eq_true.
  split; [by intros [-> ->]|by intros [= -> ->]].
Qed.

(** The first row with a key that no two rows share is the row. *)
Lemma find_unique {A K} (key : A -> K) (f : A -> bool) k l r :
  (forall x, f x = true -> key x = k) -> NoDup (map key l) -> r ∈ l -> f r = true -> List.find f l = Some r.
Proof.
  intros Hf. induction l as [|x l IH]; cbn [map List.find]; [by intros _ ?%not_elem_of_nil|].
  rewrite NoDup_cons, elem_of_cons. intros [Hx Hn] Hr Hfr. destruct Hr as [->|Hr]; [by rewrite Hfr|].
  destruct (f x) eqn:Hfx; [|by apply IH]. exfalso. apply Hx. rewrite (Hf x Hfx), <- (Hf r Hfr).
  by apply list_elem_of_fmap_2.
Qed.

Lemma find_elem {A} (f : A -> bool) l x : List.find f l = Some x -> x ∈ l /\ f x = true.
Proof. intros [Hin Hf]%List.find_some. by rewrite list_elem_of_In. Qed.

(** [get_for_session] and [get_finalized] on a stored row. *)
Lemma get_for_session_Some ws sid rows m :
  Repository.get_for_session ws sid rows = Ok (Some m) ->
  exists r, r ∈ rows /\ session_of r = (ws, sid) /\ _manifest r = Ok m.
Proof.
  unfold Repository.get_for_session, Repository.optional. destruct (List.find _ rows) as [r|] eqn:Hf; [|done].
  intros (m' & Hm & [= <-])%bind_Ok. apply find_elem in Hf as [Hin Hs%of_session_spec]. by exists r.
Qed.

Lemma matches_ref_spec ws sid reference r :
  Repository.matches_ref ws sid reference r = true <->
  session_of r = (ws, sid) /\ mw_id r = mr_manifest_id reference /\
  mw_manifest_version r = mr_manifest_version reference /\ mw_manifest_hash r = Some (mr_manifest_hash reference) /\
  mw_status r = status_value FINALIZED.
Proof.
  unfold Repository.matches_ref. rewrite !andb_true_iff, of_session_spec, !bool_decide_eq_true, Z.eqb_eq, String.eqb_eq.
  tauto.
Qed.

Lemma get_finalized_Some ws sid reference rows m :
  Repository.get_finalized ws sid reference rows = Ok (Some m) ->
  exists r, r ∈ rows /\ Repository.matches_ref ws sid reference r = true /\ _manifest r = Ok m.
Proof.
  unfold Repository.get_finalized, Repository.optional. destruct (List.find _ rows) as [r|] eqn:Hf; [|done].
  intros (m' & Hm & [= <-])%bind_Ok. apply find_elem in Hf as [Hin Hs]. by exists r.
Qed.

(** ** What a requested manifest pins *)

Section load.
Variable write : writer.
Variable decode : string -> option RunManifestDocument.
Context {L : Type} `{LedgerReader L}.

(** A loaded history: a document whose canonical bytes are stored and hash to the
    requested digest, and the events the ledger returned. *)
Lemma load_Some ws sid manifest st (l : L) h :
  load write decode ws sid manifest st l = Ok (Some h) ->
  exists d body events,
    h = mkHistorical ws sid manifest events (rd_replay_steps d) (rd_marl_bundles d) /\
    new_historical h = Ok h /\ decode body = Some d /\ run_manifest_bytes write d = Ok body /\
    run_manifest_hash write d = Ok (mr_manifest_hash manifest) /\
    read_loop (S (lr_size l)) ws sid 1 l = Ok events.
Proof.
  unfold load. intros (record & Hr & H0)%bind_Ok. destruct record as [r|]; [|done].
  apply get_finalized_Some in Hr as (row & _ & Hm%matches_ref_spec & Hrow).
  destruct Hm as (_ & Hid & Hver & Hhash & Hst).
  destruct (manifest_of_row _ _ Hrow) as (Hid' & _ & _ & Hver' & Hhash' & _ & Hs & _).
  rewrite Hst in Hs. apply status_of_Ok in Hs.
  destruct (mf_manifest_ref r) as [o|]; [|done]. rewrite Hhash', Hhash in H0.
  apply bind_Ok in H0 as (body & _ & H0). apply bind_Ok in H0 as (d & Hd & H0).
  apply bind_Ok in H0 as (bytes & Hb & H0). apply bind_Ok in H0 as (hash & Hh & H0).
  apply guard_bind in H0 as [Hc H0]. apply orb_false_iff in Hc as [Hc1%negb_false_iff%String.eqb_eq Hc2%negb_false_iff%String.eqb_eq].
  apply bind_Ok in H0 as (events & He & H0). apply bind_Ok in H0 as (m & Hm & H0).
  apply bind_Ok in H0 as (hist & Hn & [= <-]).
  assert (Href : m = manifest).
  { unfold ref in Hm. rewrite Hhash', Hhash in Hm. destruct (mf_status r); [done|].
    unfold new_manifest_ref in Hm. apply construct_Ok in Hm as [_ ->]. rewrite Hid', Hver', Hid, Hver.
    by destruct manifest. }
  subst m. assert (Heq : hist = mkHistorical ws sid manifest events (rd_replay_steps d) (rd_marl_bundles d)).
  { revert Hn. unfold new_historical. by intros (u & _ & [= <-])%bind_Ok. }
  exists d, body, events. rewrite <- Heq in Hn. split_and!; try done.
  - unfold res_of_option in Hd. destruct (decode body); [by injection Hd as ->|done].
  - by rewrite Hb, Hc1.
  - by rewrite Hh, Hc2.
Qed.

(** A requested manifest pins what is replayed: two loads of the same
    manifest id, version and hash, from any two states of the table, the object
    store and the ledger, return the same steps and the same MARL bundles, or
    two stored bodies that collide under SHA-256. *)
Theorem manifest_pins_history ws sid manifest st st' (l l' : L) h h'
    (H1 : load write decode ws sid manifest st l = Ok (Some h))
    (H2 : load write decode ws sid manifest st' l' = Ok (Some h')) :
  (hr_manifest h = manifest /\ hr_manifest h' = manifest /\
   hr_steps h = hr_steps h' /\ hr_marl_bundles h = hr_marl_bundles h') \/
  exists body body', body <> body' /\ sha256_hex body = sha256_hex body'.
Proof.
  apply load_Some in H1 as (d & body & es & -> & _ & Hd & Hb & Hh & _).
  apply load_Some in H2 as (d' & body' & es' & -> & _ & Hd' & Hb' & Hh' & _).
  destruct (decide (body = body')) as [<-|Hne].
  - left. assert (d' = d) as -> by congruence. done.
  - right. exists body, body'. split; [done|]. apply (prefix_inj "sha256:").
    unfold run_manifest_hash, content_hash in Hh, Hh'. unfold run_manifest_bytes in Hb, Hb'. rewrite Hb in Hh.
    rewrite Hb' in Hh'. cbn [mbind res_bind] in Hh, Hh'. congruence.
Qed.

(** With this source a replay compares the ledger with itself: on a history
    the source has loaded from the ledger the service reads, the ledger check
    passes exactly when the ledger's own verification does.  It never reports
    that the ledger differs from the recorded run. *)
Theorem persisted_ledger_never_differs ws sid manifest st (l : L) h v
    (H1 : load write decode ws sid manifest st l = Ok (Some h))
    (Hv : lr_verify ws sid l = Ok v) :
  (lv_valid v = true -> _verify_ledger h l = Ok None) /\
  (forall m, _verify_ledger h l = Ok (Some m) -> rm_reason m = LEDGER_INTEGRITY).
Proof.
  apply load_Some in H1 as (d & body & es & -> & _ & _ & _ & _ & Hr).
  unfold _verify_ledger. cbn [hr_workspace_id hr_source_session_id hr_ledger_events]. rewrite Hv. cbn [mbind res_bind].
  assert (Hc : compare_events es es = Ok None) by by apply compare_events_None.
  destruct (lv_valid v); cbn [negb].
  - rewrite Hr. cbn [mbind res_bind]. by rewrite Hc.
  - split; [done|]. unfold found. intros m (m' & Hm & [= ->])%fmap_Ok.
    unfold new_mismatch in Hm. by apply construct_Ok in Hm as [_ ->].
Qed.

End load.

(** ** The operations of the service *)

Section service_facts.
Variable write : writer.
Variable bucket : string.

Lemma digest_of_text body : "sha256:" +:+ sha256_hex body = ObjectStore._digest_of body.
Proof. done. Qed.

Lemma hash_of_bytes d body digest :
  run_manifest_bytes write d = Ok body -> run_manifest_hash write d = Ok digest -> digest = ObjectStore._digest_of body.
Proof. unfold run_manifest_bytes, run_manifest_hash, content_hash. intros ->. by intros [= <-]. Qed.

Lemma removeprefix_app p s : removeprefix p (p +:+ s) = s.
Proof. unfold removeprefix. rewrite chars_app, strip_prefix_app. apply unchars_chars. Qed.

(** The key of a manifest's object tells its digest. *)
Lemma object_key_inj ws ws' b b' :
  object_key ws (ObjectStore._digest_of b) = object_key ws' (ObjectStore._digest_of b') ->
  sha256_hex b = sha256_hex b'.
Proof.
  unfold object_key, ObjectStore._digest_of. rewrite !removeprefix_app. intros Hk%(f_equal chars).
  rewrite !chars_app in Hk. destruct (sha256_hex_shape b) as [Hl _], (sha256_hex_shape b') as [Hl' _].
  rewrite !app_assoc in Hk. apply app_inj_2 in Hk as [Hk _]; [|done].
  apply app_inj_2 in Hk as [_ Hk]; [|by rewrite !length_chars, Hl, Hl'].
  by rewrite <- (unchars_chars (sha256_hex b)), Hk, unchars_chars.
Qed.

Lemma put_runs key body ct md objects :
  ObjectStore.put bucket key body ct md objects
  = if String.eqb bucket "" || String.eqb key "" then (objects, raise PermanentPortErrorC "bucket and key are both required")
    else (<[(bucket, key) := ObjectStore.mkBlob body ct md (ObjectStore._digest_of body)]> objects,
          Ok (ObjectStore.mkRef bucket key (ObjectStore._digest_of body) ct (Some (str_len body)))).
Proof. unfold ObjectStore.put. rewrite run_lift. unfold guard_not. by destruct (_ || _). Qed.

(** The blob [finalize] puts, and what it puts in the row. *)
Definition manifest_blob (ws sid : uuid) (c : RunManifest) (body : string) : ObjectStore.blob :=
  ObjectStore.mkBlob body "application/json" (object_metadata ws sid c) (ObjectStore._digest_of body).
Definition manifest_object (ws : uuid) (body : string) : ObjectStore.ObjectRef :=
  ObjectStore.mkRef bucket (object_key ws (ObjectStore._digest_of body)) (ObjectStore._digest_of body)
    "application/json" (Some (str_len body)).

(** What [finalize] has read and written when it got as far as the repository. *)
Record finalizing (ws sid : uuid) (d : RunManifestDocument) (st : store) (r : row) (c : RunManifest) (body : string)
    : Prop := {
  fz_find : List.find (Repository.of_session ws sid) (st_rows st) = Some r;
  fz_current : _manifest r = Ok c;
  fz_document : _validate_document c d = Ok tt;
  fz_bytes : run_manifest_bytes write d = Ok body;
  fz_hash : run_manifest_hash write d = Ok (ObjectStore._digest_of body);
  fz_bucket : String.eqb bucket "" = false
}.

Definition with_object (ws sid : uuid) (c : RunManifest) (body : string) (st : store)
    : gmap (string * string) ObjectStore.blob :=
  <[(bucket, object_key ws (ObjectStore._digest_of body)) := manifest_blob ws sid c body]> (st_objects st).

Definition proposed (ws : uuid) (c : RunManifest) (body : string) (at_ : datetime) : RunManifest :=
  finalized c (manifest_object ws body) (ObjectStore._digest_of body) at_.

Lemma manifest_session ws sid r c :
  Repository.of_session ws sid r = true -> _manifest r = Ok c ->
  mf_workspace_id c = ws /\ mf_session_id c = sid /\ mf_id c = mw_id r.
Proof.
  intros Hs%of_session_spec Hc. destruct (manifest_of_row _ _ Hc) as (Hid & Hw & Hsid & _).
  unfold session_of in Hs. split_and!; congruence.
Qed.

(** What [finalize] does from there. *)
Lemma finalize_runs ws sid d at_ st r c body :
  finalizing ws sid d st r c body ->
  finalize write bucket ws sid d at_ st =
    match mf_status c with
    | FINALIZED =>
        (mkStore (st_rows st) (with_object ws sid c body st),
         if same_manifest c (proposed ws c body at_) then Ok c
         else raise RunManifestConflictC "finalized run manifest is immutable")
    | CREATED =>
        (mkStore (Repository.update_row (mw_id r) (finalized_row (proposed ws c body at_) (manifest_object ws body))
                    (st_rows st)) (with_object ws sid c body st),
         Ok (proposed ws c body at_))
    end.
Proof.
  intros [Hf Hc Hv Hb Hh Hbk]. unfold finalize. rewrite run_get, run_lift.
  unfold Repository.get_for_session, Repository.optional. rewrite Hf, Hc. cbn [mbind res_bind].
  rewrite run_lift, Hv, run_lift, Hh, run_lift, Hb, run_bind. unfold on_objects. rewrite put_runs, Hbk.
  replace (String.eqb (object_key ws (ObjectStore._digest_of body)) "") with false by reflexivity.
  cbn [orb]. rewrite run_lift. cbn [ObjectStore.or_digest]. rewrite String.eqb_refl. cbn [negb guard_not].
  destruct (find_elem _ _ _ Hf) as [Hin Hs]. destruct (manifest_session _ _ _ _ Hs Hc) as (Hw & Hsid & Hid).
  fold (manifest_object ws body) (manifest_blob ws sid c body) (with_object ws sid c body st) (proposed ws c body at_).
  unfold on_rows, Repository.finalize. cbn [mf_status mf_manifest_ref proposed finalized st_rows].
  fold (proposed ws c body at_). rewrite run_get, run_lift. cbn [mf_workspace_id mf_session_id proposed finalized].
  fold (proposed ws c body at_). rewrite Hw, Hsid. unfold Repository.get_for_session, Repository.optional.
  rewrite Hf, Hc. cbn [mbind res_bind]. destruct (mf_status c) eqn:Hstat.
  - rewrite bool_decide_false by done. cbn [mf_id proposed finalized]. fold (proposed ws c body at_).
    rewrite Hid. destruct (List.find (fun r0 => bool_decide (mw_id r0 = mw_id r)) (st_rows st)) as [r0|] eqn:Hfr.
    + rewrite run_put. done.
    + exfalso. pose proof (List.find_none _ _ Hfr r (proj1 (list_elem_of_In _ _) Hin)) as Hn. cbn in Hn.
      by rewrite bool_decide_true in Hn.
  - rewrite bool_decide_true by done. destruct (same_manifest c _); done.
Qed.

(** Every run of [finalize] raises with nothing written, or gets there. *)
Lemma finalize_cases ws sid d at_ st :
  (exists x, finalize write bucket ws sid d at_ st = (st, Raise x)) \/
  exists r c body, finalizing ws sid d st r c body.
Proof.
  unfold finalize. rewrite run_get, run_lift. unfold Repository.get_for_session, Repository.optional.
  destruct (List.find (Repository.of_session ws sid) (st_rows st)) as [r|] eqn:Hf; [|left; by eexists].
  destruct (_manifest r) as [c|x] eqn:Hc; cbn [mbind res_bind]; [|left; by eexists].
  rewrite run_lift. destruct (_validate_document c d) as [[]|x] eqn:Hv; [|left; by eexists].
  rewrite run_lift. destruct (run_manifest_hash write d) as [digest|x] eqn:Hh; [|left; by eexists].
  rewrite run_lift. destruct (run_manifest_bytes write d) as [body|x] eqn:Hb; [|left; by eexists].
  pose proof (hash_of_bytes _ _ _ Hb Hh) as ->. rewrite run_bind. unfold on_objects. rewrite put_runs.
  destruct (String.eqb bucket "") eqn:Hbk; [left; eexists; by destruct st|]. right. by exists r, c, body.
Qed.

(** Every run of [create]. *)
Lemma create_cases c st :
  (exists out, create c st = (st, out)) \/
  exists m, new_manifest (created_manifest c) = Ok m /\ Repository.taken m (st_rows st) = false /\
    create c st = (mkStore (st_rows st ++ [created_row m]) (st_objects st), Ok m).
Proof.
  unfold create. rewrite run_lift. destruct (new_manifest _) as [m|x] eqn:Hm; [|left; by eexists].
  unfold on_rows, Repository.create. rewrite run_get, run_lift.
  destruct (Repository.get_for_session _ _ _) as [[e|]|x]; [| |left; eexists; by destruct st].
  - left. destruct (same_manifest e m); eexists; by destruct st.
  - rewrite run_lift. unfold guard_not. destruct (Repository.taken m (st_rows st)) eqn:Ht;
      [left; eexists; by destruct st|]. rewrite run_put. right. by exists m.
Qed.

Inductive op : Type :=
| Create (c : creation)
| Finalize (ws sid : uuid) (d : RunManifestDocument) (at_ : datetime).

Definition exec (o : op) (st : store) : store :=
  match o with
  | Create c => fst (create c st)
  | Finalize ws sid d at_ => fst (finalize write bucket ws sid d at_ st)
  end.

Inductive reachable : store -> Prop :=
| reach_empty : reachable (mkStore [] ∅)
| reach_step st o : reachable st -> reachable (exec o st).

(** ** One row per session, finalized once *)

Lemma update_row_map {K} (g : row -> K) id f rows :
  (forall r, g (f r) = g r) -> map g (Repository.update_row id f rows) = map g rows.
Proof.
  intros Hf. unfold Repository.update_row. rewrite map_map. apply map_ext. intros r. by destruct (bool_decide _).
Qed.

Lemma update_row_elem id f rows r :
  r ∈ Repository.update_row id f rows <->
  exists r0, r0 ∈ rows /\ r = if bool_decide (mw_id r0 = id) then f r0 else r0.
Proof. unfold Repository.update_row. rewrite list_elem_of_fmap. split; intros (r0 & ? & ?); exists r0; by split. Qed.

Lemma same_id_same_row rows r r' :
  NoDup (map mw_id rows) -> r ∈ rows -> r' ∈ rows -> mw_id r = mw_id r' -> r = r'.
Proof.
  induction rows as [|x rows IH]; cbn [map]; [by intros _ ?%not_elem_of_nil|].
  rewrite NoDup_cons, !elem_of_cons. intros [Hx Hn] [->|Hr] [->|Hr'] Heq; try done.
  - exfalso. apply Hx. rewrite Heq. by apply list_elem_of_fmap_2.
  - exfalso. apply Hx. rewrite <- Heq. by apply list_elem_of_fmap_2.
  - by apply IH.
Qed.

(** Putting an object of a manifest leaves every finalized row well: the key
    tells the digest. *)
Lemma well_after_put ws sid c body st r :
  finalized_well bucket (st_objects st) r -> finalized_well bucket (with_object ws sid c body st) r.
Proof.
  intros Hw Hs. destruct (Hw Hs) as (b & Hb & Hd & Hh & Hbk & Hk). unfold with_object.
  destruct (decide (object_key ws (ObjectStore._digest_of body)
                    = object_key (mw_workspace_id r) (ObjectStore._digest_of (ObjectStore.bl_body b)))) as [Heq|Hne].
  - pose proof (object_key_inj _ _ _ _ Heq) as Hsha.
    assert (Hdig : ObjectStore._digest_of body = ObjectStore._digest_of (ObjectStore.bl_body b))
      by (unfold ObjectStore._digest_of; by rewrite Hsha).
    exists (manifest_blob ws sid c body). cbn [ObjectStore.bl_body ObjectStore.bl_digest manifest_blob].
    rewrite <- Hdig in *. rewrite Heq, lookup_insert_eq. by rewrite Hd in Hh, Hk.
  - exists b. rewrite lookup_insert_ne by congruence. done.
Qed.

Lemma exec_inv o st : manifest_inv bucket st -> manifest_inv bucket (exec o st).
Proof.
  intros Hi. destruct o as [c|ws sid d at_]; cbn [exec].
  - destruct (create_cases c st) as [(out & ->)|(m & Hm & Ht & ->)]; [done|]. cbn [fst].
    assert (Hcr : mf_status m = CREATED) by (pose proof (new_manifest_Ok _ _ Hm) as (ca & fa & -> & _); reflexivity).
    clear Hm. unfold Repository.taken in Ht. rewrite <- not_true_iff_false, existsb_exists in Ht.
    destruct Hi as [Hids Hses Hfin].
    split; cbn [st_rows st_objects]; rewrite ?map_app; try (apply NoDup_app; split_and!; [done| |apply NoDup_singleton]).
    + intros x Hx Hx'%list_elem_of_singleton. apply list_elem_of_fmap in Hx as (r & -> & Hr%list_elem_of_In).
      apply Ht. exists r. split; [exact Hr|]. apply orb_true_iff. left. apply bool_decide_eq_true. exact Hx'.
    + intros x Hx Hx'%list_elem_of_singleton. apply list_elem_of_fmap in Hx as (r & -> & Hr%list_elem_of_In).
      apply Ht. exists r. split; [exact Hr|]. apply orb_true_iff. right. apply of_session_spec. exact Hx'.
    + apply Forall_app. split; [exact Hfin|]. constructor; [|constructor].
      unfold finalized_well. cbn [mw_status created_row]. rewrite Hcr. discriminate.
  - destruct (finalize_cases ws sid d at_ st) as [(x & ->)|(r & c & body & Hz)]; [done|].
    assert (Hw : Forall (finalized_well bucket (with_object ws sid c body st)) (st_rows st)).
    { eapply Forall_impl; [exact (mi_final _ _ Hi)|]. intros r'. apply well_after_put. }
    rewrite (finalize_runs _ _ _ _ _ _ _ _ Hz). destruct (mf_status c); cbn [fst]; [|by split; [apply Hi|apply Hi|]].
    split; cbn [st_rows st_objects].
    + rewrite update_row_map by done. apply Hi.
    + rewrite update_row_map by done. apply Hi.
    + apply Forall_forall. intros r' (r0 & Hr0 & ->)%update_row_elem. rewrite Forall_forall in Hw.
      case_bool_decide as Hid; [|by apply Hw]. intros _.
      destruct (find_elem _ _ _ (fz_find _ _ _ _ _ _ _ Hz)) as [Hin Hs%of_session_spec].
      assert (r0 = r) as -> by (eapply same_id_same_row; [exact (mi_ids _ _ Hi)|done..]).
      assert (Hws : mw_workspace_id r = ws) by (by injection Hs).
      exists (manifest_blob ws sid c body). cbn [ObjectStore.bl_body ObjectStore.bl_digest manifest_blob].
      unfold with_object. cbn [mw_workspace_id finalized_row]. rewrite Hws, lookup_insert_eq. done.
Qed.

Lemma manifest_reachable_inv st : reachable st -> manifest_inv bucket st.
Proof.
  induction 1 as [|st o _ IH]; [|by apply exec_inv]. split; cbn; [apply NoDup_nil_2|apply NoDup_nil_2|constructor].
Qed.

(** A finalized row survives every operation. *)
Lemma exec_keeps_final o st r :
  manifest_inv bucket st -> r ∈ st_rows st -> mw_status r = status_value FINALIZED -> r ∈ st_rows (exec o st).
Proof.
  intros Hi Hr Hs. destruct o as [c|ws sid d at_]; cbn [exec].
  - destruct (create_cases c st) as [(out & ->)|(m & _ & _ & ->)]; [done|]. cbn. apply elem_of_app. by left.
  - destruct (finalize_cases ws sid d at_ st) as [(x & ->)|(r0 & c & body & Hz)]; [done|].
    rewrite (finalize_runs _ _ _ _ _ _ _ _ Hz). destruct (mf_status c) eqn:Hc; [|done]. cbn [fst st_rows]. apply update_row_elem. exists r. split; [done|]. rewrite bool_decide_false; [done|].
    intros Hid. destruct (find_elem _ _ _ (fz_find _ _ _ _ _ _ _ Hz)) as [Hin _].
    assert (r = r0) as -> by (eapply same_id_same_row; [exact (mi_ids _ _ Hi)|done..]).
    destruct (manifest_of_row _ _ (fz_current _ _ _ _ _ _ _ Hz)) as (_ & _ & _ & _ & _ & _ & Hst & _).
    rewrite Hs in Hst. apply status_of_Ok in Hst. rewrite Hc in Hst. done.
Qed.

(** C13. Finalized exactly once: in every reachable state the table has one row per
    session and per id, and whatever is created or finalized next, a finalized
    row stays as it is and its reference still reads bytes whose digest is the
    manifest's hash. *)
Theorem finalized_is_final st (Hr : reachable st) :
  NoDup (map mw_id (st_rows st)) /\ NoDup (map session_of (st_rows st)) /\
  forall r o, r ∈ st_rows st -> mw_status r = status_value FINALIZED ->
    r ∈ st_rows (exec o st) /\
    exists reference body, row_ref r = Some reference /\ mw_manifest_hash r = Some (ObjectStore._digest_of body) /\
      ObjectStore.get reference (st_objects (exec o st)) = Ok body.
Proof.
  pose proof (manifest_reachable_inv _ Hr) as Hi. split; [apply Hi|]. split; [apply Hi|]. intros r o Hin Hs.
  pose proof (exec_keeps_final o st r Hi Hin Hs) as Hin'. split; [done|].
  pose proof (exec_inv o st Hi) as Hi'. destruct (proj1 (Forall_forall _ _) (mi_final _ _ Hi') r Hin' Hs) as (b & Hb & Hd & Hh & Hbk & Hk).
  eexists _, (ObjectStore.bl_body b). unfold row_ref. rewrite Hk, Hbk, Hh. split; [done|]. split; [by rewrite <- Hd|].
  unfold ObjectStore.get, ObjectStore.at_ref. cbn [ObjectStore.or_bucket ObjectStore.or_key ObjectStore.or_digest].
  rewrite Hd, Hb. cbn [res_of_option mbind res_bind]. rewrite Hd, String.eqb_refl. by rewrite andb_false_r.
Qed.

(** ** Finalizing and loading *)

(** A row of one session as the table holds it after a successful [finalize]. *)
Record finalized_as (ws sid : uuid) (m : RunManifest) (body : string) (st : store) (r : row) (c : RunManifest) : Prop := {
  fa_in : r ∈ st_rows st;
  fa_session : session_of r = (ws, sid);
  fa_status : mw_status r = status_value FINALIZED;
  fa_hash : mw_manifest_hash r = Some (ObjectStore._digest_of body);
  fa_reads : _manifest r = Ok c;
  fa_same : mf_id m = mf_id c /\ mf_manifest_version m = mf_manifest_version c /\
            mf_manifest_hash m = mf_manifest_hash c /\ mf_status m = mf_status c;
  fa_object : exists md, st_objects st !! (bucket, object_key ws (ObjectStore._digest_of body))
                = Some (ObjectStore.mkBlob body "application/json" md (ObjectStore._digest_of body))
}.

(** A created row, finalized, reads back. *)
Lemma finalized_row_reads ws sid r c body at_ u :
  _manifest r = Ok c -> mf_status c = CREATED -> session_of r = (ws, sid) -> _aware_utc at_ = Ok u ->
  _manifest (finalized_row (proposed ws c body at_) (manifest_object ws body) r)
  = Ok (with_times (proposed ws c body at_) (mf_created_at c) (Some u)).
Proof.
  intros Hr Hc Hs Hu. unfold _manifest in *. apply bind_Ok in Hr as (s & Hst & Hm).
  apply new_manifest_Ok in Hm as (ca & fa & -> & Hf & Hca & _ & Hsh). cbn [mf_status with_times] in Hc. subst s.
  cbn [mw_status finalized_row mf_status proposed finalized status_value status_of mbind res_bind].
  unfold row_ref. cbn [mw_manifest_ref mw_manifest_bucket mw_manifest_hash mw_manifest_size finalized_row
    mf_manifest_hash proposed finalized ObjectStore.or_bucket ObjectStore.or_key ObjectStore.or_size manifest_object].
  unfold new_manifest, construct. unfold manifest_fields_ok in Hf |- *.
  cbn [mf_manifest_version mf_manifest_hash mf_git_sha mf_created_at mf_finalized_at opt_ok mw_manifest_version
       mw_git_sha mw_created_at mw_finalized_at finalized_row] in Hf, Hca |- *.
  rewrite !andb_true_iff in Hf. destruct Hf as ((-> & _) & ->).
  replace (digest_ok (ObjectStore._digest_of body)) with true by (symmetry; apply digest_ok_sha).
  cbn [andb mbind res_bind]. rewrite Hca. cbn [mbind res_bind mf_finalized_at proposed finalized opt_utc].
  rewrite Hu. cbn [mbind res_bind]. unfold lifecycle_shape in *.
  cbn [mf_source_session_id mf_session_id mf_status mf_manifest_ref mf_manifest_hash mf_finalized_at
       mw_source_session_id mw_session_id finalized_row] in *.
  apply guard_bind in Hsh as [Hsrc _]. rewrite Hsrc. cbn [guard_not mbind res_bind is_none orb validated].
  f_equal.
Qed.

Lemma same_manifest_facts a b :
  same_manifest a b = true ->
  mf_id a = mf_id b /\ mf_manifest_version a = mf_manifest_version b /\ mf_manifest_hash a = mf_manifest_hash b /\
  mf_status a = mf_status b.
Proof.
  unfold same_manifest. rewrite !andb_true_iff, !bool_decide_eq_true, Z.eqb_eq. tauto.
Qed.

Lemma finalize_stores ws sid d at_ u st st' m :
  manifest_inv bucket st -> _aware_utc at_ = Ok u -> finalize write bucket ws sid d at_ st = (st', Ok m) ->
  exists r c body, run_manifest_bytes write d = Ok body /\
    run_manifest_hash write d = Ok (ObjectStore._digest_of body) /\ finalized_as ws sid m body st' r c.
Proof.
  intros Hi Hu Hf. destruct (finalize_cases ws sid d at_ st) as [(x & Hx)|(r & c & body & Hz)]; [congruence|].
  destruct (find_elem _ _ _ (fz_find _ _ _ _ _ _ _ Hz)) as [Hin Hs].
  pose proof (proj1 (of_session_spec _ _ _) Hs) as Hses. pose proof (fz_current _ _ _ _ _ _ _ Hz) as Hr.
  rewrite (finalize_runs _ _ _ _ _ _ _ _ Hz) in Hf. destruct (mf_status c) eqn:Hstat.
  - injection Hf as <- <-.
    pose proof (finalized_row_reads ws sid r c body at_ u Hr Hstat Hses Hu) as Hread.
    exists (finalized_row (proposed ws c body at_) (manifest_object ws body) r),
      (with_times (proposed ws c body at_) (mf_created_at c) (Some u)), body.
    split; [apply Hz|]. split; [apply Hz|].
    split; [| |reflexivity|reflexivity|exact Hread|split_and!; reflexivity|].
    + cbn [st_rows]. apply update_row_elem. exists r. split; [done|]. by rewrite bool_decide_true.
    + exact Hses.
    + exists (object_metadata ws sid c). cbn [st_objects]. unfold with_object. by rewrite lookup_insert_eq.
  - destruct (same_manifest c (proposed ws c body at_)) eqn:Hsame; [|done]. injection Hf as <- <-.
    apply same_manifest_facts in Hsame as (_ & _ & Hh & _). cbn [mf_manifest_hash proposed finalized] in Hh.
    destruct (manifest_of_row _ _ Hr) as (_ & _ & _ & _ & Hh' & _ & Hst & _).
    exists r, c, body. split; [apply Hz|]. split; [apply Hz|]. split; try done.
    + apply status_of_Ok in Hst. by rewrite Hst, Hstat.
    + by rewrite <- Hh', Hh.
    + exists (object_metadata ws sid c). cbn [st_objects]. unfold with_object. by rewrite lookup_insert_eq.
Qed.

(** ** Finalizing twice *)

(** Dictionaries have distinct keys. *)
Definition manifest_wf (m : RunManifest) : Prop :=
  json_wf (jstrings (mf_image_digests m)) /\ json_wf (JObj (mf_model_pins m)) /\ json_wf (jstrings (mf_prompt_hashes m)).

Lemma time_eqb_refl t : time_eqb t t = true.
Proof. unfold time_eqb. destruct (dt_offset t); apply Z.eqb_refl. Qed.

Lemma time_eqb_utc t u : _aware_utc t = Ok u -> time_eqb u t = true.
Proof.
  unfold _aware_utc, time_eqb. destruct (dt_offset t) as [o|] eqn:Ho; [|done]. intros [= <-].
  unfold utc_datetime. cbn [dt_offset]. apply Z.eqb_eq. unfold dt_utc. cbn. rewrite Ho. cbn. lia.
Qed.

(** What is read back equals what [finalize] proposes the second time. *)
Lemma same_as_proposed ws c body at_ u :
  manifest_wf c -> _aware_utc at_ = Ok u ->
  let c' := with_times (proposed ws c body at_) (mf_created_at c) (Some u) in
  same_manifest c' (proposed ws c' body at_) = true.
Proof.
  intros (H1 & H2 & H3) Hu c'. unfold same_manifest, strings_eqb.
  cbn [c' mf_id mf_workspace_id mf_session_id mf_source_session_id mf_manifest_version mf_status mf_manifest_ref
       mf_manifest_hash mf_git_sha mf_image_digests mf_model_pins mf_prompt_hashes mf_seed mf_created_at mf_finalized_at
       with_times proposed finalized opt_time_eqb].
  rewrite !bool_decide_true by done. rewrite Z.eqb_refl, String.eqb_refl, !py_eqb_refl by done.
  by rewrite time_eqb_refl, (time_eqb_utc _ _ Hu).
Qed.

Lemma with_object_metadata ws sid c c' body st rows :
  mf_id c' = mf_id c -> mf_manifest_version c' = mf_manifest_version c ->
  with_object ws sid c' body (mkStore rows (with_object ws sid c body st)) = with_object ws sid c body st.
Proof.
  intros Hid Hv. unfold with_object at 1. cbn [st_objects]. unfold with_object, manifest_blob, object_metadata.
  by rewrite Hid, Hv, insert_insert_eq.
Qed.

(** Finalization is idempotent: repeating a successful [finalize] changes
    neither the table nor the object store, and returns the same manifest, or
    its reading from the table, equal to it under Python's [==]. *)
Theorem finalize_idempotent ws sid d at_ u st st' m (Hr : reachable st) (Hu : _aware_utc at_ = Ok u)
    (Hf : finalize write bucket ws sid d at_ st = (st', Ok m)) (Hwf : manifest_wf m) :
  exists m', finalize write bucket ws sid d at_ st' = (st', Ok m') /\ (m' = m \/ same_manifest m' m = true).
Proof.
  pose proof (manifest_reachable_inv _ Hr) as Hi.
  destruct (finalize_cases ws sid d at_ st) as [(x & Hx)|(r & c & body & Hz)]; [congruence|].
  rewrite (finalize_runs _ _ _ _ _ _ _ _ Hz) in Hf. destruct Hz as [Hfind Hc Hv Hb Hh Hbk].
  destruct (find_elem _ _ _ Hfind) as [Hin Hs]. destruct (mf_status c) eqn:Hstat.
  - injection Hf as <- <-. pose proof (proj1 (of_session_spec _ _ _) Hs) as Hses.
    pose proof (finalized_row_reads ws sid r c body at_ u Hc Hstat Hses Hu) as Hread.
    set (r' := finalized_row (proposed ws c body at_) (manifest_object ws body) r) in *.
    set (c' := with_times (proposed ws c body at_) (mf_created_at c) (Some u)) in *.
    set (rows' := Repository.update_row (mw_id r) _ (st_rows st)).
    assert (Hfind' : List.find (Repository.of_session ws sid) rows' = Some r').
    { apply (find_unique session_of _ (ws, sid)).
      - intros x. apply of_session_spec.
      - unfold rows'. rewrite update_row_map by done. apply Hi.
      - apply update_row_elem. exists r. split; [done|]. by rewrite bool_decide_true.
      - exact Hs. }
    assert (Hz' : finalizing ws sid d (mkStore rows' (with_object ws sid c body st)) r' c' body).
    { split; done. }
    pose proof (same_as_proposed ws c body at_ u Hwf Hu) as Hsame. cbn zeta in Hsame. fold c' in Hsame.
    assert (Hst' : mf_status c' = FINALIZED) by done.
    assert (Heq : same_manifest c' (proposed ws c body at_) = true) by exact Hsame.
    exists c'. rewrite (finalize_runs _ _ _ _ _ _ _ _ Hz'), Hst', Hsame.
    rewrite with_object_metadata by done. split; [done|by right].
  - destruct (same_manifest c (proposed ws c body at_)) eqn:Hsame; [|done]. injection Hf as <- <-.
    assert (Hz' : finalizing ws sid d (mkStore (st_rows st) (with_object ws sid c body st)) r c body) by (by split).
    exists c. rewrite (finalize_runs _ _ _ _ _ _ _ _ Hz'), Hstat, Hsame. rewrite with_object_metadata by done.
    split; [done|by left].
Qed.

End service_facts.

(** ** A finalized run is replayable *)

Lemma numbered_map es : numbered_from_one es -> map le_ledger_seq es = from_one (length es).
Proof.
  intros Hn. apply list_eq. intros i. unfold from_one. rewrite !list_lookup_fmap.
  destruct (es !! i) as [e|] eqn:He; cbn.
  - rewrite lookup_seq_lt by by eapply lookup_lt_Some. cbn. rewrite (Hn _ _ He). f_equal. lia.
  - rewrite lookup_seq_ge; [done|]. by apply lookup_ge_None.
Qed.

Lemma session_rows_events ws sid (st : ledger) es :
  mapR _event_from_row (session_rows ws sid st) = Ok es ->
  Forall (fun e => la_workspace_id (le_append e) = ws /\ la_session_id (le_append e) = sid) es.
Proof.
  intros Hes. apply Forall_forall. intros e He. destruct (mapR_elem _ _ _ _ Hes He) as (r & Hr & Hre).
  apply event_from_row_facts in Hre as (_ & _ & _ & -> & ->).
  unfold session_rows in Hr. apply sort_by_elem, filter_elem in Hr as [_ Hr]. unfold Ledger.of_session in Hr.
  by apply andb_true_iff in Hr as [?%bool_decide_eq_true ?%bool_decide_eq_true].
Qed.

(** What a history of stored events and validated steps needs to be coherent. *)
Lemma coherent_steps ws sid reference es steps bundles :
  Forall (fun e => la_workspace_id (le_append e) = ws /\ la_session_id (le_append e) = sid) es ->
  numbered_from_one es -> map rs_order steps = sort_by Z.leb (map rs_order steps) -> NoDup (map rs_order steps) ->
  NoDup (map rs_step_id steps) ->
  new_historical (mkHistorical ws sid reference es steps bundles) = Ok (mkHistorical ws sid reference es steps bundles).
Proof.
  intros He Hn Hs Ho Hd. unfold new_historical, coherent_history.
  cbn [hr_ledger_events hr_steps hr_workspace_id hr_source_session_id].
  replace (existsb _ es) with false.
  2: { symmetry. apply not_true_iff_false. rewrite existsb_exists. intros (e & Hin%list_elem_of_In & Hb).
       rewrite Forall_forall in He. destruct (He e Hin) as [H1 H2]. by rewrite !bool_decide_true in Hb. }
  rewrite (bool_decide_true (map le_ledger_seq es = _)) by by apply numbered_map.
  rewrite (bool_decide_true (map rs_order steps = _)) by done. rewrite (bool_decide_true (NoDup (map rs_order steps))) by done.
  unfold all_distinct. by rewrite bool_decide_true.
Qed.

Lemma document_steps d d' : new_document d = Ok d' ->
  map rs_order (rd_replay_steps d) = sort_by Z.leb (map rs_order (rd_replay_steps d)) /\
  NoDup (map rs_step_id (rd_replay_steps d)).
Proof.
  unfold new_document. rewrite validated_Ok. intros (code & _ & (u & _ & (t & _ & (u' & Hp & _)%bind_Ok)%bind_Ok)%bind_Ok)%bind_Ok.
  unfold required_pins, unique in Hp. repeat (apply guard_bind in Hp as [? Hp]).
  apply guard_not_Ok, negb_false_iff, bool_decide_eq_true in Hp. split; [done|].
  match goal with H : negb (bool_decide (NoDup (map rs_step_id _))) = false |- _ =>
    by apply negb_false_iff, bool_decide_eq_true in H end.
Qed.

(** C12. A finalized run is replayable: after [finalize] returned for a validated
    document whose steps have distinct orders, the source resolves the manifest's
    reference over any SQL ledger that verifies for the session, to exactly that
    document's steps and bundles and all events of the session's rows in order. *)
Theorem finalized_run_loads write bucket decode ws sid d at_ u st st' m (l : ledger) v
    (Hr : reachable write bucket st) (Hu : _aware_utc at_ = Ok u)
    (Hf : finalize write bucket ws sid d at_ st = (st', Ok m))
    (Hdec : forall body, run_manifest_bytes write d = Ok body -> decode body = Some d)
    (Hd : new_document d = Ok d) (Ho : NoDup (map rs_order (rd_replay_steps d)))
    (Hv : Ledger.verify ws sid l = Ok v) (Hval : lv_valid v = true) :
  exists reference es, ref m = Ok reference /\ mapR _event_from_row (session_rows ws sid l) = Ok es /\
    load write decode ws sid reference st' l
    = Ok (Some (mkHistorical ws sid reference es (rd_replay_steps d) (rd_marl_bundles d))).
Proof.
  pose proof (manifest_reachable_inv _ _ _ Hr) as Hi.
  assert (Hi' : manifest_inv bucket st').
  { pose proof (exec_inv write bucket (Finalize ws sid d at_) st Hi) as H0. cbn [exec] in H0. by rewrite Hf in H0. }
  destruct (finalize_stores write bucket ws sid d at_ u st st' m Hi Hu Hf) as (r & c & body & Hb & Hh & Hfa).
  destruct Hfa as [Hin Hses Hstat Hhash Hread (Hid & Hver & Hmh & Hst) (md & Hobj)].
  destruct (manifest_of_row _ _ Hread) as (Hid' & Hws & Hsid & Hver' & Hh' & Href & Hs' & _).
  destruct (proj1 (verify_valid ws sid l v Hv) Hval) as (hd & es & _ & Hes & Hc & _).
  pose proof (chain_whole_session ws sid l hd es Hes Hc) as Hwhole.
  (* the reference *)
  set (reference := mkManifestRef (mw_id r) (mw_manifest_version r) (ObjectStore._digest_of body)).
  rewrite Hstat in Hs'. apply status_of_Ok in Hs'.
  assert (Hcs : mf_status c = FINALIZED) by (by destruct (mf_status c)).
  assert (Hpos : manifest_fields_ok c = true).
  { unfold _manifest in Hread. apply bind_Ok in Hread as (s & _ & Hn). by apply new_manifest_Ok in Hn as (ca & fa & -> & Hn & _). }
  assert (Hrefc : ref c = Ok reference).
  { unfold ref. rewrite Hcs, Hh', Hhash. unfold new_manifest_ref, construct, manifest_ref_ok. cbn [mr_manifest_version mr_manifest_hash].
    unfold manifest_fields_ok in Hpos. rewrite !andb_true_iff in Hpos. destruct Hpos as ((-> & _) & _).
    replace (digest_ok (ObjectStore._digest_of body)) with true by (symmetry; apply digest_ok_sha).
    cbn [andb]. unfold reference. by rewrite Hid', Hver'. }
  exists reference, es. split; [|split; [done|]].
  { unfold ref in *. by rewrite Hst, Hmh, Hid, Hver. }
  unfold load, Repository.get_finalized, Repository.optional.
  rewrite (find_unique session_of _ (ws, sid) (st_rows st') r); [|by intros x [? _]%matches_ref_spec|apply Hi'|done|].
  2: { apply matches_ref_spec. done. }
  rewrite Hread. cbn [mbind res_bind]. rewrite Href, Hh', Hhash.
  destruct (proj1 (Forall_forall _ _) (mi_final _ _ Hi') r Hin Hstat) as (b & _ & _ & Hbh & Hbk & Hk).
  rewrite Hhash in Hbh. injection Hbh as Hbd. rewrite <- Hbd in Hk.
  assert (Hw : mw_workspace_id r = ws) by (by injection Hses). rewrite Hw in Hk.
  unfold row_ref. rewrite Hk, Hbk, Hhash. unfold ObjectStore.get, ObjectStore.at_ref.
  cbn [ObjectStore.or_bucket ObjectStore.or_key ObjectStore.or_digest]. rewrite Hobj.
  cbn [res_of_option mbind res_bind ObjectStore.bl_digest ObjectStore.bl_body]. rewrite String.eqb_refl, andb_false_r.
  cbn [guard_not mbind res_bind]. rewrite (Hdec body Hb). cbn [res_of_option mbind res_bind]. rewrite Hb, Hh.
  cbn [mbind res_bind]. rewrite !String.eqb_refl. cbn [negb orb guard_not mbind res_bind].
  rewrite (read_loop_whole ws sid l es Hwhole). cbn [mbind res_bind]. rewrite Hrefc. cbn [mbind res_bind].
  destruct (document_steps d d Hd) as [Hord Hids].
  rewrite coherent_steps; [done| |apply Hwhole|done..]. by apply session_rows_events in Hes.
Qed.
