(* ===== verification/RunManifestExamples.v ===== *)
(** * Run manifests: a concrete run

    A manifest created, finalized and loaded for the session of
    [LedgerExamples.v], the theorems of [RunManifestFacts.v] applied to it, and
    two runs a reader would not expect. *)

From S2P Require Import Prelude.
From S2P Require Import PyDecimal.
From S2P Require Import Clock.
From S2P Require Import Sha256.
From S2P Require Import Json.
From S2P Require Import ConsensusPorts.
From S2P Require Import Ledger.
From S2P Require Import LedgerExamples.
From S2P Require Import Replay.
From S2P Require Import ReplayService.
From S2P Require Import ReplayFacts.
From S2P Require Import ReplayExamples.
From S2P Require Import RunManifest.
From S2P Require Import RunManifestFacts.
Import LedgerDemo Replay Service ReplayDemo Manifest.

Local Open Scope Z_scope.

Module RunManifestDemo.

(** ** A document *)

Definition writer_demo : writer := mkWriter (fun t => stamp (dt_utc t)) dec_str (fun s => s).

Definition agent : AgentPin :=
  mkAgentPin 700 1 "prompts/analyst" digest "weighted" "1"
    (Some (mkInferencePin "lab" "m1" None dzero 1024 [] (dec_of_Z 30) (Some 7))).

Definition document_with (steps : list ReplayStep) : RunManifestDocument :=
  mkDocument 1 2 None (mkCodePin "abc123" [("api", digest)]) (mkSchemaPin "0012" 1) digest "debate" 2 [("tokens", JInt 9)]
    (mkConsensusPin "weighted" "1" [] None) [agent] [] [mkMetricPin "m" "1" None None] [] [] []
    [mkContentPin 800 ARTIFACT_CONTENT (Some 1) None digest] [] steps [] (at_micros 0).
Definition document : RunManifestDocument := document_with [recorded_step; double_step].

Lemma document_valid : new_document document = Ok document.
Proof. vm_compute. reflexivity. Qed.

Definition decode_demo (d : RunManifestDocument) (text : string) : option RunManifestDocument :=
  if bool_decide (run_manifest_bytes writer_demo d = Ok text) then Some d else None.

Lemma decode_decodes d body : run_manifest_bytes writer_demo d = Ok body -> decode_demo d body = Some d.
Proof. intros Hb. unfold decode_demo. by rewrite bool_decide_true. Qed.

(** ** Its life *)

Definition creation_demo : creation :=
  mkCreation 1 2 None "abc123" [("api", digest)] [(uuid_str 700, JStr "m1")] [(uuid_str 700, digest)] None (at_micros 0).
Definition created : store := exec writer_demo "bucket" (Create creation_demo) (mkStore [] ∅).
Local Abbreviation finalize_demo := (finalize writer_demo "bucket" 1 2 document (at_micros 50)).
Definition final_store : store := exec writer_demo "bucket" (Finalize 1 2 document (at_micros 50)) created.

Lemma created_reachable : reachable writer_demo "bucket" created.
Proof. exact (reach_step writer_demo "bucket" _ (Create creation_demo) (reach_empty writer_demo "bucket")). Qed.

Lemma final_reachable : reachable writer_demo "bucket" final_store.
Proof. exact (reach_step writer_demo "bucket" _ (Finalize 1 2 document (at_micros 50)) created_reachable). Qed.

Definition final_manifest : RunManifest := Eval vm_compute in
  match snd (finalize_demo created) with Ok m => m | Raise _ => created_manifest creation_demo end.

Lemma finalized_demo : finalize_demo created = (final_store, Ok final_manifest).
Proof.
  assert (Hs : snd (finalize_demo created) = Ok final_manifest) by (vm_compute; reflexivity).
  rewrite <- Hs. unfold final_store. cbn [exec]. apply surjective_pairing.
Qed.

Definition final_ref : ReplayManifestRef := Eval vm_compute in
  match ref final_manifest with Ok r => r | Raise _ => manifest_ref end.

Lemma final_ref_is : ref final_manifest = Ok final_ref.
Proof. vm_compute. reflexivity. Qed.

Lemma orders_distinct : NoDup (map rs_order (rd_replay_steps document)).
Proof. apply (bool_decide_unpack _). vm_compute. exact I. Qed.

Lemma finalized_run_loads_witness :
  exists reference es, ref final_manifest = Ok reference /\
    load writer_demo (decode_demo document) 1 2 reference final_store two
    = Ok (Some (mkHistorical 1 2 reference es (rd_replay_steps document) [])).
Proof.
  destruct (finalized_run_loads writer_demo "bucket" (decode_demo document) 1 2 document (at_micros 50) (at_micros 50)
    created final_store final_manifest two _ created_reachable eq_refl finalized_demo (decode_decodes document)
    document_valid orders_distinct two_verifies eq_refl)
    as (reference & es & Hr & _ & Hl).
  exists reference, es. exact (conj Hr Hl).
Defined.

(** The history the replay starts from. *)
Definition loaded : HistoricalReplay :=
  mkHistorical 1 2 final_ref two_events (rd_replay_steps document) [].

Lemma loads : load writer_demo (decode_demo document) 1 2 final_ref final_store two = Ok (Some loaded).
Proof. vm_compute. reflexivity. Qed.

Lemma manifest_pins_history_witness :
  (hr_steps loaded = hr_steps loaded) \/ exists body body', body <> body' /\ sha256_hex body = sha256_hex body'.
Proof.
  destruct (manifest_pins_history writer_demo (decode_demo document) 1 2 final_ref final_store final_store two two
              loaded loaded loads loads) as [(_ & _ & Hs & _)|Hc]; [left; exact Hs|right; exact Hc].
Defined.

Lemma persisted_ledger_never_differs_witness : _verify_ledger loaded two = Ok None.
Proof.
  exact (proj1 (persisted_ledger_never_differs writer_demo (decode_demo document) 1 2 final_ref final_store two
                  loaded _ loads two_verifies) eq_refl).
Defined.

Lemma finalized_is_final_witness : NoDup (map mw_id (st_rows final_store)).
Proof. exact (proj1 (finalized_is_final writer_demo "bucket" final_store final_reachable)). Defined.

Lemma final_wf : manifest_wf final_manifest.
Proof.
  split; [|split]; cbn; (split; [|done]); (apply NoDup_cons; split; [by apply not_elem_of_nil|constructor]).
Qed.

Lemma finalize_idempotent_witness :
  exists m', finalize_demo final_store = (final_store, Ok m') /\
    (m' = final_manifest \/ same_manifest m' final_manifest = true).
Proof.
  exact (finalize_idempotent writer_demo "bucket" 1 2 document (at_micros 50) (at_micros 50) created final_store
           final_manifest created_reachable eq_refl finalized_demo final_wf).
Defined.

(** ** Runs a reader would not expect *)

(** Two steps with one order: the document validates, is finalized, and can never
    be loaded. *)
Definition doubled : RunManifestDocument :=
  document_with [recorded_step;
                 mkStep 602 1 METRIC RECORDED None (number 2) two_hash (number 4) four_hash None false false].
Definition doubled_store : store := fst (finalize writer_demo "bucket" 1 2 doubled (at_micros 50) created).
Definition doubled_ref : ReplayManifestRef := Eval vm_compute in
  match snd (finalize writer_demo "bucket" 1 2 doubled (at_micros 50) created) with
  | Ok m => match ref m with Ok r => r | Raise _ => manifest_ref end
  | Raise _ => manifest_ref
  end.

Example doubled_is_finalized :
  new_document doubled = Ok doubled /\
  is_ok (snd (finalize writer_demo "bucket" 1 2 doubled (at_micros 50) created)) = true.
Proof. split; vm_compute; reflexivity. Qed.

Example doubled_never_loads :
  load writer_demo (decode_demo doubled) 1 2 doubled_ref doubled_store two
  = raise ValidationErrorC "HistoricalReplay: replay steps must have unique deterministic order".
Proof. vm_compute. reflexivity. Qed.

(** A ledger rebuilt after the run, with another second event and a consistent
    chain: the strict replay of the finalized manifest verifies. *)
Definition rebuilt : ledger := fst (append (event 101 "SESSION_CANCELLED" 1 20) one).

Definition deployed (request : ReplayRequest) (st : ledger) : res ReplayResult :=
  replay None no_decoder no_decoder no_decoder no_decoder
    (fun ws sid m => load writer_demo (decode_demo document) ws sid m final_store st) implementations None request st.
Definition final_request : ReplayRequest := mkRequest 1 2 final_ref STRICT [].

Example rebuilt_ledger_verifies :
  lg_events rebuilt <> lg_events two /\
  rp_outcome <$> deployed final_request two = Ok VERIFIED /\
  rp_outcome <$> deployed final_request rebuilt = Ok VERIFIED.
Proof. split; [vm_compute; discriminate|]. split; vm_compute; reflexivity. Qed.

End RunManifestDemo.
