(* ===== verification/Mcp.v ===== *)
(** * Tool calls: values and their validators

    [app/domain/mcp.py] and [app/ports/mcp.py]: the server reference, the trusted
    context of a call, tool descriptors, calls, results and failures, with the
    bounds on untrusted JSON.  A model's constructor is [new_*]. *)

From S2P Require Import Prelude.
From S2P Require Import PyDecimal.
From S2P Require Import Sha256.
From S2P Require Import Json.
From S2P Require Import Symbolic.
From S2P Require Import ConsensusPorts.
From S2P Require Import ConsensusFacts.
From S2P Require Import Ledger.
From S2P Require Import Adapters.

Local Open Scope Z_scope.

Module Mcp.

(** ** Enumerations *)

Inductive MCPProtocolVersion : Type := V2025_06_18.
Inductive ToolClass : Type := READ_SANE | READ_RISKY | WRITE | EXECUTE | EXTERNAL_NET.
Inductive ToolPermission : Type := NO_PERMISSION | READ | PERMISSION_APPROVAL_REQUIRED.
Inductive ToolContentKind : Type := TEXT | JSON | BLOB_REF.
Inductive ToolTrustClass : Type := TOOL_UNTRUSTED | SYNTHETIC.

Inductive MCPFailureCode : Type :=
| AUTHENTICATION_FAILED | AUTHORIZATION_DENIED | INVALID_CONTEXT | INVALID_ARGUMENTS | MCP_TOOL_NOT_FOUND
| UPSTREAM_PROTOCOL_ERROR | MCP_UPSTREAM_UNAVAILABLE | TIMEOUT | CANCELLED | MCP_RESULT_INVALID.

Inductive ToolFailureCode : Type :=
| AUTH_REQUIRED | FORBIDDEN | SERVER_NOT_REGISTERED | TOOL_NOT_FOUND | MANIFEST_DRIFT | ARGUMENT_INVALID
| APPROVAL_REQUIRED | RATE_LIMITED | BUDGET_EXCEEDED | TOOL_TIMEOUT | TOOL_CANCELLED | UPSTREAM_UNAVAILABLE
| PROTOCOL_ERROR | RESULT_INVALID | RESULT_TOO_LARGE | INJECTION_SUSPECTED | OPERATION_CONFLICT.

#[global] Instance MCPProtocolVersion_eq_dec : EqDecision MCPProtocolVersion.
Proof. solve_decision. Defined.
#[global] Instance ToolClass_eq_dec : EqDecision ToolClass.
Proof. solve_decision. Defined.
#[global] Instance ToolPermission_eq_dec : EqDecision ToolPermission.
Proof. solve_decision. Defined.
#[global] Instance ToolContentKind_eq_dec : EqDecision ToolContentKind.
Proof. solve_decision. Defined.
#[global] Instance ToolTrustClass_eq_dec : EqDecision ToolTrustClass.
Proof. solve_decision. Defined.
#[global] Instance MCPFailureCode_eq_dec : EqDecision MCPFailureCode.
Proof. solve_decision. Defined.
#[global] Instance ToolFailureCode_eq_dec : EqDecision ToolFailureCode.
Proof. solve_decision. Defined.

(** ** Bounds on untrusted JSON *)

Definition _MAX_ARGUMENT_BYTES : Z := 64 * 1024.
Definition _MAX_RESULT_BYTES : Z := 256 * 1024.
Definition _MAX_JSON_DEPTH : Z := 8.
Definition _MAX_JSON_MEMBERS : Z := 256.

(** The [walk] of [_bounded_json]; its sum is not used.  A key is walked as a
    value one level down. *)
Fixpoint walk (label : string) (depth : Z) (item : json) : res unit :=
  _ ← guard_not (_MAX_JSON_DEPTH <? depth) ValueErrorC (label +:+ " exceeds the depth limit");
  match item with
  | JObj l =>
      _ ← guard_not (_MAX_JSON_MEMBERS <? Z.of_nat (length l)) ValueErrorC (label +:+ " exceeds the member limit");
      foldR (fun _ kv =>
               _ ← guard_not (_MAX_JSON_DEPTH <? depth + 1) ValueErrorC (label +:+ " exceeds the depth limit");
               walk label (depth + 1) (snd kv)) tt l
  | JList l => foldR (fun _ child => walk label (depth + 1) child) tt l
  | _ => Ok tt
  end.

(** [_bounded_json] *)
Definition _bounded_json (label : string) (value : dict string json) : res (dict string json) :=
  encoded ← canonical_json (JObj value);
  _ ← guard_not (_MAX_ARGUMENT_BYTES <? str_len encoded) ValueErrorC (label +:+ " exceeds the byte limit");
  _ ← walk label 0 (JObj value);
  Ok value.

(** ** Models *)

Definition _not_blank (value : string) : bool := negb (blank value).

(** [_TOOL_NAME]: two words of at most 63 characters around a dot, each a lower
    case letter followed by letters, digits, underscores and hyphens. *)
Definition word_char (c : ascii) : bool :=
  is_lower c || is_digit c || Ascii.eqb c "_"%char || Ascii.eqb c "-"%char.
Definition tool_word (l : list ascii) : bool :=
  match l with
  | c :: l' => is_lower c && (length l' <=? 62)%nat && forallb word_char l'
  | [] => false
  end.
Fixpoint split_dot (cur l : list ascii) : option (list ascii * list ascii) :=
  match l with
  | [] => None
  | c :: l' => if Ascii.eqb c "."%char then Some (rev cur, l') else split_dot (c :: cur) l'
  end.
Definition tool_name_ok (s : string) : bool :=
  match split_dot [] (chars s) with Some (a, b) => tool_word a && tool_word b | None => false end.

(** [UUID.version] *)
Definition uuid_version (u : uuid) : option N :=
  if N.testbit u 63 && negb (N.testbit u 62) then Some (N.land (N.shiftr u 76) 15) else None.

Record UpstreamServerRef : Type := mkServer {
  us_server_id : string;
  us_version : Z;
  us_endpoint : string;
  us_manifest_hash : string
}.

Record MCPCallContext : Type := mkContext {
  cx_workload_subject : string;
  cx_workspace_id : uuid;
  cx_session_id : uuid;
  cx_agent_definition_id : uuid;
  cx_agent_definition_version : Z;
  cx_initiating_actor_class : option ActorClass;
  cx_initiating_actor_id : option uuid;
  cx_operation_id : uuid;
  cx_correlation_id : uuid;
  cx_round : Z;
  cx_deadline_at : datetime
}.

Record MCPServerCapabilities : Type := mkCapabilities {
  sc_protocol_version : MCPProtocolVersion;
  sc_tools : bool;
  sc_resources : bool;
  sc_prompts : bool;
  sc_cancellation : bool;
  sc_progress : bool
}.

Record ToolDescriptor : Type := mkDescriptor {
  td_server : UpstreamServerRef;
  td_name : string;
  td_description : string;
  td_input_schema : dict string json;
  td_output_schema : option (dict string json);
  td_tool_class : ToolClass;
  td_permission : ToolPermission;
  td_manifest_hash : string
}.

Record ToolCall : Type := mkCall {
  tc_context : MCPCallContext;
  tc_server : UpstreamServerRef;
  tc_tool_name : string;
  tc_arguments : dict string json;
  tc_args_hash : string;
  tc_timeout_s : dec;
  tc_approval_id : option uuid
}.

Record ToolContent : Type := mkContent { tt_kind : ToolContentKind; tt_value : json }.

Record ToolResult : Type := mkToolResult {
  tr_operation_id : uuid;
  tr_correlation_id : uuid;
  tr_server : UpstreamServerRef;
  tr_tool_name : string;
  tr_content : list ToolContent;
  tr_content_hash : string;
  tr_source_uri : option string;
  tr_retrieved_at : datetime;
  tr_trust_class : ToolTrustClass;
  tr_raw_artifact_ref : option ObjectStore.ObjectRef;
  tr_truncated : bool;
  tr_original_bytes : Z;
  tr_returned_bytes : Z;
  tr_upstream_request_id : option string
}.

Record MCPFailure : Type := mkMCPFailure {
  mf_code : MCPFailureCode;
  mf_retryable : bool;
  mf_operation_id : option uuid;
  mf_correlation_id : option uuid
}.

Record ToolFailure : Type := mkToolFailure {
  tf_code : ToolFailureCode;
  tf_detail : string;
  tf_retryable : bool;
  tf_operation_id : option uuid;
  tf_correlation_id : option uuid
}.

(** What an [MCPFailureError] carries. *)
Inductive failure : Type := MCP (f : MCPFailure) | Tool (f : ToolFailure).

(** [app/ports/mcp.py] *)
Record WorkloadPrincipal : Type := mkPrincipal {
  wp_subject : string;
  wp_audience : string;
  wp_service_role : string;
  wp_expires_at : Z
}.

#[global] Instance UpstreamServerRef_eq_dec : EqDecision UpstreamServerRef.
Proof. solve_decision. Defined.
#[global] Instance MCPCallContext_eq_dec : EqDecision MCPCallContext.
Proof. solve_decision. Defined.

(** ** Validators *)

Definition new_server (s : UpstreamServerRef) : res UpstreamServerRef :=
  construct (fun s => _not_blank (us_server_id s) && (0 <? us_version s)
                      && (is_some (strip_prefix (chars "http://") (chars (us_endpoint s)))
                          || is_some (strip_prefix (chars "https://") (chars (us_endpoint s))))
                      && digest_ok (us_manifest_hash s)) "UpstreamServerRef" s.

Definition with_deadline (c : MCPCallContext) (t : datetime) : MCPCallContext :=
  mkContext (cx_workload_subject c) (cx_workspace_id c) (cx_session_id c) (cx_agent_definition_id c)
    (cx_agent_definition_version c) (cx_initiating_actor_class c) (cx_initiating_actor_id c) (cx_operation_id c)
    (cx_correlation_id c) (cx_round c) t.

Definition new_context (c : MCPCallContext) : res MCPCallContext :=
  validated "MCPCallContext"
    (_ ← guard_not (negb (_not_blank (cx_workload_subject c) && (0 <? cx_agent_definition_version c)
                          && (1 <=? cx_round c))) ValueErrorC "value must not be blank";
     _ ← guard_not (negb (bool_decide (uuid_version (cx_operation_id c) = Some 7%N)
                          && bool_decide (uuid_version (cx_correlation_id c) = Some 7%N))) ValueErrorC
           "operation and correlation identities must be UUIDv7";
     t ← _aware_utc (cx_deadline_at c);
     _ ← guard_not (negb (Bool.eqb (is_none (cx_initiating_actor_class c)) (is_none (cx_initiating_actor_id c))))
           ValueErrorC "initiating actor class and id must be supplied together";
     Ok (with_deadline c t)).

(** The frozen mapping of [fixture_policy_shape]. *)
Definition expected_permission (c : ToolClass) : ToolPermission :=
  match c with
  | READ_SANE | READ_RISKY => READ
  | WRITE => PERMISSION_APPROVAL_REQUIRED
  | EXECUTE | EXTERNAL_NET => NO_PERMISSION
  end.

Definition fixture_policy_shape (d : ToolDescriptor) : res unit :=
  _ ← guard_not (match dict_get "type" (td_input_schema d) with
                 | Some (JStr s) => negb (String.eqb s "object")
                 | _ => true
                 end) ValueErrorC "tool input schema must describe an object";
  _ ← guard_not (match dict_get "additionalProperties" (td_input_schema d) with
                 | Some (JBool false) => false
                 | _ => true
                 end) ValueErrorC "tool input schema must reject unknown fields";
  _ ← guard_not (negb (bool_decide (td_permission d = expected_permission (td_tool_class d)))) ValueErrorC
        "tool permission does not match the frozen class mapping";
  _ ← canonical_json (JObj (td_input_schema d));
  match td_output_schema d with Some o => _ ← canonical_json (JObj o); Ok tt | None => Ok tt end.

Definition new_descriptor (d : ToolDescriptor) : res ToolDescriptor :=
  validated "ToolDescriptor"
    (_ ← guard_not (negb (tool_name_ok (td_name d) && _not_blank (td_description d)
                          && digest_ok (td_manifest_hash d))) ValueErrorC "value must not be blank";
     _ ← _bounded_json "input schema" (td_input_schema d);
     _ ← match td_output_schema d with
         | Some o => _ ← _bounded_json "output schema" o; Ok tt
         | None => Ok tt
         end;
     _ ← fixture_policy_shape d;
     Ok d).

Definition tool_args_hash (arguments : dict string json) : res string := content_hash (JObj arguments).

Definition new_call (c : ToolCall) : res ToolCall :=
  validated "ToolCall"
    (_ ← guard_not (negb (tool_name_ok (tc_tool_name c) && digest_ok (tc_args_hash c)
                          && negb (dleb (tc_timeout_s c) dzero) && dleb (tc_timeout_s c) (dec_of_Z 30))) ValueErrorC
           "value out of range";
     _ ← _bounded_json "tool arguments" (tc_arguments c);
     h ← tool_args_hash (tc_arguments c);
     _ ← guard_not (negb (String.eqb (tc_args_hash c) h)) ValueErrorC "args_hash does not match canonical arguments";
     Ok c).

(** [ToolContent.kind_matches_value] *)
Definition kind_matches_value (c : ToolContent) : res unit :=
  _ ← guard_not (bool_decide (tt_kind c = TEXT) && match tt_value c with JStr _ => false | _ => true end)
        ValueErrorC "TEXT tool content requires a string value";
  _ ← guard_not (bool_decide (tt_kind c = BLOB_REF) && match tt_value c with JObj _ => false | _ => true end)
        ValueErrorC "BLOB_REF tool content requires an object reference value";
  text ← canonical_json (tt_value c);
  guard_not (_MAX_RESULT_BYTES <? str_len text) ValueErrorC "tool content exceeds the byte limit".

Definition new_content (c : ToolContent) : res ToolContent :=
  _ ← validated "ToolContent" (kind_matches_value c); Ok c.

Definition content_kind_value (k : ToolContentKind) : string :=
  match k with TEXT => "TEXT" | JSON => "JSON" | BLOB_REF => "BLOB_REF" end.

(** [item.model_dump(mode="json")] *)
Definition dump_content (c : ToolContent) : json :=
  JObj [("kind", JStr (content_kind_value (tt_kind c))); ("value", tt_value c); ("untrusted", JBool true)].

(** [ToolResult.coherent_result] *)
Definition coherent_result (r : ToolResult) : res unit :=
  _ ← guard_not (negb (nonempty (tr_content r))) ValueErrorC "tool result content must not be empty";
  _ ← guard_not (tr_original_bytes r <? tr_returned_bytes r) ValueErrorC
        "returned bytes cannot exceed original bytes";
  _ ← guard_not (negb (Bool.eqb (tr_truncated r) (tr_returned_bytes r <? tr_original_bytes r))) ValueErrorC
        "truncation flag must match result byte counts";
  h ← content_hash (JList (map dump_content (tr_content r)));
  guard_not (negb (String.eqb (tr_content_hash r) h)) ValueErrorC
    "content_hash does not match canonical tool content".

Definition with_retrieved (r : ToolResult) (t : datetime) : ToolResult :=
  mkToolResult (tr_operation_id r) (tr_correlation_id r) (tr_server r) (tr_tool_name r) (tr_content r)
    (tr_content_hash r) (tr_source_uri r) t (tr_trust_class r) (tr_raw_artifact_ref r) (tr_truncated r)
    (tr_original_bytes r) (tr_returned_bytes r) (tr_upstream_request_id r).

Definition new_tool_result (r : ToolResult) : res ToolResult :=
  validated "ToolResult"
    (_ ← guard_not (negb (tool_name_ok (tr_tool_name r) && digest_ok (tr_content_hash r)
                          && (0 <=? tr_original_bytes r) && (0 <=? tr_returned_bytes r))) ValueErrorC
           "value out of range";
     t ← _aware_utc (tr_retrieved_at r);
     _ ← coherent_result r;
     Ok (with_retrieved r t)).

Definition new_tool_failure (f : ToolFailure) : res ToolFailure :=
  construct (fun f => _not_blank (tf_detail f)) "ToolFailure" f.

Definition new_principal (p : WorkloadPrincipal) : res WorkloadPrincipal :=
  construct (fun p => _not_blank (wp_subject p) && _not_blank (wp_audience p) && _not_blank (wp_service_role p)
                      && (0 <? wp_expires_at p)) "WorkloadPrincipal" p.

(** ** The bounds, exactly *)

(** Within the depth and member limits when [d] more levels are allowed. *)
Fixpoint json_within (d : Z) (v : json) {struct v} : Prop :=
  0 <= d /\
  match v with
  | JObj l =>
      Z.of_nat (length l) <= _MAX_JSON_MEMBERS /\
      (fix go (l : dict string json) := match l with [] => True | kx :: l' => (1 <= d /\ json_within (d - 1) (snd kx)) /\ go l' end) l
  | JList l => (fix go l := match l with [] => True | x :: l' => json_within (d - 1) x /\ go l' end) l
  | _ => True
  end.

Lemma walk_exact label v d : walk label (_MAX_JSON_DEPTH - d) v = Ok tt <-> json_within d v.
Proof.
  revert d; induction v as [|b|z|r|s|l IH|l IH] using json_ind'; intros d; cbn [walk json_within];
    rewrite guard_bind, Z.ltb_ge;
    try (split; [intros [? _]; split; [lia|done]|intros [? _]; split; [lia|done]]).
  - assert (Heq : foldR (fun _ child => walk label (_MAX_JSON_DEPTH - d + 1) child) tt l = Ok tt <->
      (fix go l := match l with [] => True | x :: l' => json_within (d - 1) x /\ go l' end) l).
    { induction IH as [|x l Hx _ IHl]; [done|]. cbn [foldR]. rewrite bind_Ok, <- IHl, <- Hx.
      replace (_MAX_JSON_DEPTH - (d - 1)) with (_MAX_JSON_DEPTH - d + 1) by lia.
      split; [intros ([] & ? & ?); done|intros [? ?]; by exists tt]. }
    rewrite Heq. split; intros [? ?]; (split; [lia|done]).
  - rewrite guard_bind, Z.ltb_ge.
    assert (Heq : foldR (fun _ kv => _ ← guard_not (_MAX_JSON_DEPTH <? _MAX_JSON_DEPTH - d + 1) ValueErrorC
                               (label +:+ " exceeds the depth limit");
                          walk label (_MAX_JSON_DEPTH - d + 1) (snd kv)) tt l = Ok tt <->
      (fix go (l : dict string json) := match l with [] => True | kx :: l' => (1 <= d /\ json_within (d - 1) (snd kx)) /\ go l' end) l).
    { induction IH as [|x l Hx _ IHl]; [done|]. cbn [foldR]. rewrite bind_Ok, <- IHl, <- Hx.
      replace (_MAX_JSON_DEPTH - (d - 1)) with (_MAX_JSON_DEPTH - d + 1) by lia.
      split.
      - intros ([] & [? ?]%guard_bind & ?). split; [split; [lia|done]|done].
      - intros [[? ?] ?]. exists tt. split; [apply guard_bind; split; [lia|done]|done]. }
    rewrite Heq. split; intros [? ?]; (split; [lia|done]).
Qed.

(** Untrusted arguments and schemas are bounded exactly: a JSON object passes
    when and only when it has a canonical text of at most 64 KiB, no object in it
    has more than 256 members, and no value or key lies deeper than eight
    levels; and it passes unchanged. *)
Theorem bounded_json_is_exact label value :
  _bounded_json label value = Ok value <->
  (exists text, canonical_json (JObj value) = Ok text /\ str_len text <= _MAX_ARGUMENT_BYTES) /\
  json_within _MAX_JSON_DEPTH (JObj value).
Proof.
  rewrite <- (walk_exact label), Z.sub_diag. unfold _bounded_json. rewrite bind_Ok. split.
  - intros (text & Ht & [Hb Hw]%guard_bind). apply bind_Ok in Hw as ([] & Hw & _). split; [|done].
    exists text. split; [done|lia].
  - intros [(text & Ht & Hb) Hw]. exists text. split; [done|]. apply guard_bind. split; [lia|]. by rewrite Hw.
Qed.

End Mcp.
