(* ===== verification/McpGateway.v ===== *)
(** * The tool gateway

    [app/application/mcp_gateway.py] and [app/application/mcp_context.py].  The
    admission of a call reads only the token verifier, the context authority and
    the clock, and is a function; the gateway's own tables are a step relation.
    The lock is never held across an await, so a critical section and the code
    up to the next await are one step, and every order of steps is an order in
    which the event loop may run the calls.  Time is exact: the rounding of
    [float] in the timeout is left out. *)

From S2P Require Import Prelude.
From S2P Require Import PyDecimal.
From S2P Require Import Json.
From S2P Require Import Symbolic.
From S2P Require Import ConsensusPorts.
From S2P Require Import Ledger.
From S2P Require Import Coordinator.
From S2P Require Import Mcp.
Import Mcp.

Local Open Scope Z_scope.

Module Gateway.

(** ** Replies

    A call returns a value, raises [MCPGatewayError] with its failure, lets
    another exception through, or is cancelled ([CancelledError]). *)
Inductive reply (A : Type) : Type :=
| Value (a : A)
| Failed (f : failure)
| Escaped (x : exn)
| Interrupted.
Arguments Value {A} a.
Arguments Failed {A} f.
Arguments Escaped {A} x.
Arguments Interrupted {A}.

#[global] Instance reply_bind : MBind reply := fun A B f m =>
  match m with
  | Value a => f a
  | Failed x => Failed x
  | Escaped x => Escaped x
  | Interrupted => Interrupted
  end.

Definition refuse_if (cond : bool) (f : failure) : reply unit := if cond then Failed f else Value tt.

(** ** Identities and failures *)

(** [MCPCallIdentity] *)
Record identity : Type := mkIdentity {
  id_server : UpstreamServerRef;
  id_tool_name : string;
  id_context : MCPCallContext;
  id_args_hash : string
}.

#[global] Instance identity_eq_dec : EqDecision identity.
Proof. solve_decision. Defined.

Definition identity_of (call : ToolCall) : identity :=
  mkIdentity (tc_server call) (tc_tool_name call) (tc_context call) (tc_args_hash call).

Definition op_of (call : ToolCall) : uuid := cx_operation_id (tc_context call).

Definition context_failure (code : ToolFailureCode) (detail : string) (c : MCPCallContext) : failure :=
  Tool (mkToolFailure code detail false (Some (cx_operation_id c)) (Some (cx_correlation_id c))).

(** [_failure] *)
Definition _failure (code : ToolFailureCode) (call : ToolCall) (detail : string) : failure :=
  Tool (mkToolFailure code detail (bool_decide (code = TOOL_TIMEOUT) || bool_decide (code = UPSTREAM_UNAVAILABLE))
          (Some (op_of call)) (Some (cx_correlation_id (tc_context call)))).

(** ** The context authority *)

(** [MCPContextAuthority]: what [validate] raises, and what it promises of a
    context it accepts. *)
Class ContextAuthority : Type := {
  validate : MCPCallContext -> WorkloadPrincipal -> res unit;
  affine : MCPCallContext -> WorkloadPrincipal -> Prop
}.

Class ContextAuthorityLaws (A : ContextAuthority) : Prop :=
  validate_affine : forall c p, validate c p = Ok tt -> affine c p.

Definition exact_agent (c : MCPCallContext) (d : AgentDefinition) : bool :=
  bool_decide (ad_id d = cx_agent_definition_id c) && (ad_version d =? cx_agent_definition_version c).

(** [SessionMCPContextAuthority.validate], the store being the coordinator's. *)
Definition session_validate (w : world) (context : MCPCallContext) (principal : WorkloadPrincipal) : res unit :=
  _ ← guard_not (negb (String.eqb (wp_subject principal) (cx_workload_subject context)))
        MCPContextAuthorizationC "workload subject does not match trusted context";
  _ ← guard_not (negb (String.eqb (wp_service_role principal) "reasoning-worker"))
        MCPContextAuthorizationC "workload service role is not authorized";
  m ← membership (cx_workspace_id context) (cx_session_id context) (cx_round context) w;
  _ ← guard_not (negb (bool_decide (ms_workspace_id m = cx_workspace_id context)
                       && bool_decide (ms_session_id m = cx_session_id context)
                       && (ms_round m =? cx_round context)))
        MCPContextAuthorizationC "membership snapshot identity does not match";
  guard_not (negb (Nat.eqb (length (List.filter (exact_agent context) (ms_definitions m))) 1))
    MCPContextAuthorizationC "workspace, session, and exact agent affinity failed".

(** The agent named by the context is effective, exactly once, in the round. *)
Definition effective_agent (w : world) (c : MCPCallContext) (p : WorkloadPrincipal) : Prop :=
  wp_subject p = cx_workload_subject c /\ wp_service_role p = "reasoning-worker" /\
  exists m d, membership (cx_workspace_id c) (cx_session_id c) (cx_round c) w = Ok m /\
    List.filter (exact_agent c) (ms_definitions m) = [d].

#[global] Instance session_authority (w : world) : ContextAuthority :=
  {| validate := session_validate w; affine := effective_agent w |}.

(** ** The fixture's shapes *)

(** [_fixture_manifest_valid] *)
Definition fixture_schema : dict string json :=
  [("type", JStr "object");
   ("properties", JObj [("value", JObj [("type", JStr "string"); ("maxLength", JInt 128)]);
                        ("delay_ms", JObj [("type", JStr "integer"); ("minimum", JInt 0); ("maximum", JInt 30000)]);
                        ("fail", JObj [("type", JStr "boolean")])]);
   ("required", JList [JStr "value"]);
   ("additionalProperties", JBool false)].

Definition _fixture_manifest_valid (tools : list ToolDescriptor) : bool :=
  match tools with
  | [t] => String.eqb (td_name t) "fixture.read_echo" && py_eqb (JObj (td_input_schema t)) (JObj fixture_schema)
  | _ => false
  end.

Definition _fixture_result_valid (value : json) : bool :=
  match value with
  | JObj d => match dict_get "fixture" d, dict_get "value" d with
              | Some (JBool true), Some (JStr _) => true
              | _, _ => false
              end
  | _ => false
  end.

Definition only_keys (keys : list string) (d : dict string json) : bool :=
  forallb (fun kv => existsb (String.eqb (fst kv)) keys) d.

Definition _fixture_arguments_valid (arguments : dict string json) : bool :=
  match dict_get "value" arguments with
  | Some value =>
      only_keys ["value"; "delay_ms"; "fail"] arguments
      && match value with JStr s => str_len s <=? 128 | _ => false end
      && match dict_get "delay_ms" arguments with
         | None => true
         | Some (JInt n) => (0 <=? n) && (n <=? 30000)
         | Some _ => false
         end
      && match dict_get "fail" arguments with None | Some (JBool _) => true | Some _ => false end
  | None => false
  end.

Definition forbidden_context_arguments : list string :=
  ["workload_subject"; "workspace_id"; "session_id"; "agent_definition_id"; "agent_definition_version";
   "operation_id"; "correlation_id"; "round"; "deadline_at"; "timeout_s"].

(** ** Admission *)

Definition second : Z := 1000000.

Section admission.
Variable token_verifier : string -> res WorkloadPrincipal.
Context `{ContextAuthority}.
Variable fixture_server : UpstreamServerRef.
Variable allowed_subject : string.

(** [_verify] *)
Definition _verify (now : Z) (token : string) (context : MCPCallContext) : reply WorkloadPrincipal :=
  _ ← refuse_if (String.eqb token "") (context_failure AUTH_REQUIRED "workload authentication required" context);
  principal ← match token_verifier token with
              | Ok p => Value p
              | Raise x =>
                  match exn_cls x with
                  | InvalidWorkloadTokenC =>
                      Failed (context_failure AUTH_REQUIRED "workload authentication failed" context)
                  | _ => Escaped x
                  end
              end;
  _ ← refuse_if (negb (String.eqb (wp_audience principal) "mcp-gateway")
                 || negb (String.eqb (wp_subject principal) (cx_workload_subject context))
                 || negb (String.eqb (wp_subject principal) allowed_subject))
        (context_failure FORBIDDEN "workload identity is not authorized" context);
  _ ← refuse_if (wp_expires_at principal <=? Z.quot now second)
        (context_failure AUTH_REQUIRED "workload token expired" context);
  Value principal.

(** [_authorize] *)
Definition _authorize (context : MCPCallContext) (principal : WorkloadPrincipal) : reply unit :=
  match validate context principal with
  | Ok _ => Value tt
  | Raise x =>
      match exn_cls x with
      | MCPContextAuthorizationC =>
          Failed (MCP (mkMCPFailure INVALID_CONTEXT false (Some (cx_operation_id context))
                         (Some (cx_correlation_id context))))
      | _ => Escaped x
      end
  end.

(** [(deadline_at - now).total_seconds()] *)
Definition remaining_s (now : Z) (c : MCPCallContext) : dec :=
  let us := dt_utc (cx_deadline_at c) - now in Dec (us <? 0) (Z.abs_N us) (-6).

Definition effective_timeout (now : Z) (call : ToolCall) : dec :=
  dmin (dmin (tc_timeout_s call) (dec_of_Z 30)) (remaining_s now (tc_context call)).

Definition with_timeout (c : ToolCall) (t : dec) : ToolCall :=
  mkCall (tc_context c) (tc_server c) (tc_tool_name c) (tc_arguments c) (tc_args_hash c) t (tc_approval_id c).

(** The checks of [invoke] on the call itself; the result is the call sent. *)
Definition check_call (now : Z) (call : ToolCall) : reply ToolCall :=
  _ ← refuse_if (negb (bool_decide (tc_server call = fixture_server)))
        (_failure FORBIDDEN call "fixture authorization failed");
  _ ← refuse_if (negb (String.eqb (tc_tool_name call) "fixture.read_echo"))
        (_failure TOOL_NOT_FOUND call "tool not found");
  _ ← refuse_if (existsb (fun k => is_some (dict_get k (tc_arguments call))) forbidden_context_arguments)
        (_failure ARGUMENT_INVALID call "trusted context fields are not tool arguments");
  _ ← refuse_if (negb (_fixture_arguments_valid (tc_arguments call)))
        (_failure ARGUMENT_INVALID call "tool arguments are invalid");
  _ ← refuse_if (dleb (effective_timeout now call) dzero) (_failure TOOL_TIMEOUT call "trusted deadline expired");
  Value (with_timeout call (effective_timeout now call)).

(** [invoke] up to the lock; the clock is read twice. *)
Definition admit_call (now now' : Z) (token : string) (call : ToolCall) : reply ToolCall :=
  principal ← _verify now token (tc_context call);
  _ ← _authorize (tc_context call) principal;
  check_call now' call.

(** [cancel], whose upstream request cannot fail. *)
Definition cancel (now : Z) (token : string) (context : MCPCallContext) : reply unit :=
  principal ← _verify now token context;
  _authorize context principal.

End admission.

(** ** Initialization *)

Record session : Type := mkSession { gs_capabilities : option MCPServerCapabilities; gs_tools : list ToolDescriptor }.

Definition protocol_failure (detail : string) : failure := Tool (mkToolFailure PROTOCOL_ERROR detail false None None).

(** [initialize], on what the provider answers. *)
Definition initialize (capabilities : reply MCPServerCapabilities) (tools : reply (list ToolDescriptor)) (g : session)
    : session * reply MCPServerCapabilities :=
  match (c ← capabilities; t ← tools; Value (c, t)) with
  | Value (c, t) =>
      if negb (sc_tools c) || sc_resources c || sc_prompts c
      then (g, Failed (protocol_failure "upstream did not negotiate the authorized tools-only capability"))
      else if negb (_fixture_manifest_valid t)
      then (g, Failed (protocol_failure "fixture tool manifest is not authorized"))
      else (mkSession (Some c) t, Value c)
  | r => (g, _ ← r; Interrupted)
  end.

(** [list_tools] after its admission. *)
Definition list_tools (capabilities : reply MCPServerCapabilities) (tools : reply (list ToolDescriptor)) (g : session)
    : session * reply (list ToolDescriptor) :=
  match gs_tools g with
  | [] => let '(g', r) := initialize capabilities tools g in (g', _ ← r; Value (gs_tools g'))
  | _ => (g, Value (gs_tools g))
  end.

End Gateway.
