(* ===== verification/McpCalls.v ===== *)
(** * Concurrent tool calls

    The tables of [MCPGateway] in [app/application/mcp_gateway.py]: results by
    operation ([_dedup]), calls under way ([_inflight]), the futures of the
    upstream calls and the callers that await them.  An event is what the event
    loop may do next: take an arriving call, end an upstream call, resume a
    caller, end a caller's request to cancel upstream, or cancel a caller.  A
    future that has ended stays in the list, so answers can be traced to it. *)

From S2P Require Import Prelude.
From S2P Require Import Json.
From S2P Require Import PyDecimal.
From S2P Require Import Symbolic.
From S2P Require Import Mcp.
From S2P Require Import McpGateway.
Import Mcp.
Import Gateway.

Module Calls.

(** ** State *)

(** How [wait_for(provider.invoke(...))] ends. *)
Inductive ended : Type :=
| Answered (r : ToolResult)
| TimedOut
| Cancelled
| Refused (f : failure)
| Broke (x : exn).

(** A future: running, asked to cancel, or done. *)
Inductive flight_state : Type := Running | Cancelling | Finished (e : ended).

Record flight : Type := mkFlight { fl_call : ToolCall; fl_state : flight_state }.
Definition fl_identity (fl : flight) : identity := identity_of (fl_call fl).

(** A caller of [invoke]: awaiting a future, awaiting the upstream cancellation
    before it raises, or done. *)
Inductive phase : Type :=
| Awaiting (fid : nat) (owner : bool)
| Closing (owner : bool) (f : failure)
| Done (r : reply ToolResult).

Record caller : Type := mkCaller { ca_call : ToolCall; ca_phase : phase }.

Record gateway : Type := mkGateway {
  dedup : dict uuid (identity * ToolResult);
  inflight : gmap uuid (identity * nat);
  flights : list flight;
  callers : list caller
}.

Definition idle : gateway := mkGateway [] ∅ [] [].

Definition _max_dedup_entries : nat := 1024.

(** ** Operations *)

Definition with_dedup (s : gateway) d : gateway := mkGateway d (inflight s) (flights s) (callers s).
Definition with_inflight (s : gateway) m : gateway := mkGateway (dedup s) m (flights s) (callers s).
Definition with_flights (s : gateway) l : gateway := mkGateway (dedup s) (inflight s) l (callers s).
Definition with_callers (s : gateway) l : gateway := mkGateway (dedup s) (inflight s) (flights s) l.

Definition join_call (call : ToolCall) (p : phase) (s : gateway) : gateway :=
  with_callers s (callers s ++ [mkCaller call p]).

Definition conflict (call : ToolCall) : failure :=
  _failure OPERATION_CONFLICT call "operation identity was reused with different call identity".

(** [asyncio.ensure_future(asyncio.wait_for(...))] and its entry. *)
Definition launch (call effective_call : ToolCall) (s : gateway) : gateway :=
  mkGateway (dedup s)
    (<[op_of call := (identity_of call, length (flights s))]> (inflight s))
    (flights s ++ [mkFlight effective_call Running])
    (callers s ++ [mkCaller call (Awaiting (length (flights s)) true)]).

(** The first critical section of [invoke]. *)
Definition enter (call effective_call : ToolCall) (s : gateway) : gateway :=
  match dict_get (op_of call) (dedup s) with
  | Some (prior, result) =>
      join_call call (Done (if bool_decide (prior = identity_of call) then Value result else Failed (conflict call))) s
  | None =>
      match inflight s !! op_of call with
      | Some (prior, fid) =>
          join_call call (if bool_decide (prior = identity_of call) then Awaiting fid false
                          else Done (Failed (conflict call))) s
      | None => launch call effective_call s
      end
  end.

(** The [finally] of the owner. *)
Definition release (owner : bool) (op : uuid) (s : gateway) : gateway :=
  if owner then with_inflight s (delete op (inflight s)) else s.

Definition set_phase (i : nat) (call : ToolCall) (p : phase) (s : gateway) : gateway :=
  with_callers s (<[i := mkCaller call p]> (callers s)).

(** Leave [invoke]: the [finally], then return or raise. *)
Definition leave (i : nat) (call : ToolCall) (owner : bool) (r : reply ToolResult) (s : gateway) : gateway :=
  set_phase i call (Done r) (release owner (op_of call) s).

(** The checks of the answer against the call. *)
Definition result_matches (call : ToolCall) (r : ToolResult) : bool :=
  bool_decide (tr_operation_id r = op_of call)
  && bool_decide (tr_correlation_id r = cx_correlation_id (tc_context call))
  && bool_decide (tr_server r = tc_server call)
  && String.eqb (tr_tool_name r) (tc_tool_name call)
  && bool_decide (tr_trust_class r = TOOL_UNTRUSTED)
  && bool_decide (tr_source_uri r = Some (us_endpoint (tc_server call)))
  && match tr_content r with
     | [c] => bool_decide (tt_kind c = JSON) && _fixture_result_valid (tt_value c)
     | _ => false
     end.

(** [self._dedup[operation_id] = (identity, result)], the oldest entry going
    first when the table is full. *)
Definition remember (id : identity) (r : ToolResult) (d : dict uuid (identity * ToolResult))
    : dict uuid (identity * ToolResult) :=
  dict_set (cx_operation_id (id_context id)) (id, r)
    (if (_max_dedup_entries <=? length d)%nat then tail d else d).

(** A caller resumes on the end of its future. *)
Definition resume (i : nat) (call : ToolCall) (owner : bool) (e : ended) (s : gateway) : gateway :=
  match e with
  | Answered r =>
      if result_matches call r
      then with_dedup (leave i call owner (Value r) s) (remember (identity_of call) r (dedup s))
      else leave i call owner (Failed (_failure RESULT_INVALID call "upstream result identity failed")) s
  | TimedOut => set_phase i call (Closing owner (_failure TOOL_TIMEOUT call "tool call timed out")) s
  | Cancelled =>
      if owner then set_phase i call (Closing true (_failure TOOL_CANCELLED call "tool call cancelled")) s
      else leave i call false (Failed (_failure TOOL_CANCELLED call "tool call cancelled")) s
  | Refused f => leave i call owner (Failed f) s
  | Broke x => leave i call owner (Escaped x) s
  end.

(** [pending.cancel()] *)
Definition request_cancel (fid : nat) (s : gateway) : gateway :=
  match flights s !! fid with
  | Some (mkFlight c Running) => with_flights s (<[fid := mkFlight c Cancelling]> (flights s))
  | _ => s
  end.

(** The task of caller [i] is cancelled. *)
Definition interrupt (i : nat) (call : ToolCall) (p : phase) (s : gateway) : option gateway :=
  match p with
  | Awaiting fid true =>
      Some (set_phase i call (Closing true (_failure TOOL_CANCELLED call "tool call cancelled")) (request_cancel fid s))
  | Awaiting _ false => Some (leave i call false (Failed (_failure TOOL_CANCELLED call "tool call cancelled")) s)
  | Closing owner _ => Some (leave i call owner Interrupted s)
  | Done _ => None
  end.

(** ** Events *)

Inductive event : Type :=
| Arrive (token : string) (call : ToolCall) (now now' : Z)
| Finish (fid : nat) (e : ended)
| Wake (i : nat)
| Close (i : nat)
| Cancel (i : nat).

Section calls.
Variable token_verifier : string -> res WorkloadPrincipal.
Context `{ContextAuthority}.
Variable fixture_server : UpstreamServerRef.
Variable allowed_subject : string.

Definition admitted (token : string) (call : ToolCall) (now now' : Z) : reply ToolCall :=
  admit_call token_verifier fixture_server allowed_subject now now' token call.

Definition arrive (token : string) (call : ToolCall) (now now' : Z) (s : gateway) : gateway :=
  match admitted token call now now' with
  | Value effective_call => enter call effective_call s
  | Failed f => join_call call (Done (Failed f)) s
  | Escaped x => join_call call (Done (Escaped x)) s
  | Interrupted => join_call call (Done Interrupted) s
  end.

Definition finish (fid : nat) (e : ended) (s : gateway) : option gateway :=
  match flights s !! fid with
  | Some (mkFlight c (Running | Cancelling)) => Some (with_flights s (<[fid := mkFlight c (Finished e)]> (flights s)))
  | _ => None
  end.

Definition wake (i : nat) (s : gateway) : option gateway :=
  match callers s !! i with
  | Some (mkCaller call (Awaiting fid owner)) =>
      match flights s !! fid with
      | Some (mkFlight _ (Finished e)) => Some (resume i call owner e s)
      | _ => None
      end
  | _ => None
  end.

Definition close (i : nat) (s : gateway) : option gateway :=
  match callers s !! i with
  | Some (mkCaller call (Closing owner f)) => Some (leave i call owner (Failed f) s)
  | _ => None
  end.

Definition step (e : event) (s : gateway) : option gateway :=
  match e with
  | Arrive token call now now' => Some (arrive token call now now' s)
  | Finish fid e => finish fid e s
  | Wake i => wake i s
  | Close i => close i s
  | Cancel i => match callers s !! i with Some (mkCaller call p) => interrupt i call p s | None => None end
  end.

(** The states runs of allowed events reach. *)
Inductive reachable (allowed : event -> Prop) : gateway -> Prop :=
| reach_idle : reachable allowed idle
| reach_step e s s' : reachable allowed s -> allowed e -> step e s = Some s' -> reachable allowed s'.

Fixpoint steps (es : list event) (s : gateway) : option gateway :=
  match es with
  | [] => Some s
  | e :: es' => match step e s with Some s' => steps es' s' | None => None end
  end.

End calls.
End Calls.
