(* ===== verification/McpFacts.v ===== *)
(** * The tool gateway: what it guarantees

    Admission against the promise of the context authority, the invariant of the
    gateway's tables by induction on runs, and what it gives: one upstream call
    per operation, authentic answers, one answer per operation, no stuck caller
    and no entry left behind. *)

From S2P Require Import Prelude.
From S2P Require Import PyDecimal.
From S2P Require Import Json.
From S2P Require Import Symbolic.
From S2P Require Import ConsensusPorts.
From S2P Require Import Ledger.
From S2P Require Import Coordinator.
From S2P Require Import Mcp.
From S2P Require Import McpGateway.
From S2P Require Import McpCalls.
Import Mcp.
Import Gateway.
Import Calls.

(** ** Replies *)

Lemma bind_Value {A B} (m : reply A) (f : A -> reply B) b :
  m ≫= f = Value b <-> exists a, m = Value a /\ f a = Value b.
Proof. destruct m; cbn; split; naive_solver. Qed.

Lemma refuse_Value {B} cond x (k : reply B) b :
  (_ ← refuse_if cond x; k) = Value b <-> cond = false /\ k = Value b.
Proof. unfold refuse_if. destruct cond; cbn; naive_solver. Qed.

(** ** Admission *)

#[global] Instance session_authority_laws (w : world) : ContextAuthorityLaws (session_authority w).
Proof.
  intros c p. cbn [validate session_authority affine]. unfold session_validate, effective_agent.
  intros (Hs & (Hr & (m & Hm & (_ & Hl)%guard_bind)%bind_Ok)%guard_bind)%guard_bind.
  apply negb_false_iff in Hs, Hr. apply String.eqb_eq in Hs, Hr. split; [done|]. split; [done|].
  apply guard_not_Ok, negb_false_iff, Nat.eqb_eq in Hl. exists m.
  destruct (List.filter (exact_agent c) (ms_definitions m)) as [|d [|]] eqn:E; try done. by exists d.
Qed.

Section admission.
Variable token_verifier : string -> res WorkloadPrincipal.
Context `{Hlaws : ContextAuthorityLaws}.
Variable fixture_server : UpstreamServerRef.
Variable allowed_subject : string.

(** The workload a token speaks for, checked against the context. *)
Definition authentic (now : Z) (token : string) (c : MCPCallContext) (p : WorkloadPrincipal) : Prop :=
  token <> "" /\ token_verifier token = Ok p /\ wp_audience p = "mcp-gateway" /\
  wp_subject p = cx_workload_subject c /\ wp_subject p = allowed_subject /\
  (Z.quot now second < wp_expires_at p)%Z.

Lemma verify_exact now token c p :
  _verify token_verifier allowed_subject now token c = Value p <-> authentic now token c p.
Proof.
  unfold _verify, authentic. rewrite refuse_Value, bind_Value. split.
  - intros (Ht & q & Hq & [Hw [He Hp]%refuse_Value]%refuse_Value). injection Hp as ->.
    destruct (token_verifier token) as [q|x]; [injection Hq as ->|by destruct (exn_cls x)].
    rewrite !orb_false_iff, !negb_false_iff, !String.eqb_eq in Hw. apply Z.leb_gt in He.
    apply String.eqb_neq in Ht. by destruct Hw as [[? ?] ?].
  - intros (Ht & -> & Ha & Hs & Hal & He). split; [by apply String.eqb_neq|]. exists p. split; [done|].
    rewrite !refuse_Value, !orb_false_iff, !negb_false_iff, !String.eqb_eq, Z.leb_gt. done.
Qed.

Lemma authorize_exact c p u : _authorize c p = Value u <-> validate c p = Ok tt.
Proof. destruct u. unfold _authorize. destruct (validate c p) as [[]|x]; [done|]. by destruct (exn_cls x). Qed.

(** What the fixture tool may be called with. *)
Definition fixture_call (now : Z) (call : ToolCall) : Prop :=
  tc_server call = fixture_server /\ tc_tool_name call = "fixture.read_echo" /\
  existsb (fun k => is_some (dict_get k (tc_arguments call))) forbidden_context_arguments = false /\
  _fixture_arguments_valid (tc_arguments call) = true /\
  dleb (effective_timeout now call) dzero = false.

Lemma check_call_exact now call eff :
  check_call fixture_server now call = Value eff <->
  fixture_call now call /\ eff = with_timeout call (effective_timeout now call).
Proof.
  unfold check_call, fixture_call. rewrite !refuse_Value, !negb_false_iff, String.eqb_eq, bool_decide_eq_true.
  split; [intros (? & ? & ? & ? & ? & [= <-])|intros [(? & ? & ? & ? & ?) ->]]; done.
Qed.

(** The arguments checked twice: a valid argument object has no other names than
    its own three, so none of the trusted context's. *)
Lemma valid_arguments_trusted a :
  _fixture_arguments_valid a = true ->
  existsb (fun k => is_some (dict_get k a)) forbidden_context_arguments = false.
Proof.
  unfold _fixture_arguments_valid. destruct (dict_get "value" a) as [v|]; [|done].
  rewrite !andb_true_iff. intros [[[Hk _] _] _].
  assert (Hn : forall k x, dict_get k a = Some x -> In k ["value"; "delay_ms"; "fail"]).
  { clear v. induction a as [|[k' v'] a IH]; [done|]. cbn in Hk. apply andb_true_iff in Hk as [Hk' Hk]. intros k x.
    cbn [dict_get]. destruct (decide (k = k')) as [->|]; [|by apply IH].
    intros _. rewrite !orb_true_iff, !String.eqb_eq in Hk'. cbn. naive_solver. }
  apply not_true_is_false. intros (k & Hin & Hs)%existsb_exists.
  destruct (dict_get k a) as [x|] eqn:E; [|done]. apply Hn in E. cbn in Hin, E. naive_solver.
Qed.

(** A tool call is admitted exactly when its token is verified for the gateway's
    audience, its subject is the context's and the allowed one and it has not
    expired, the context authority accepts the context, and the call names the
    fixture's server and tool with valid arguments and time left; what is sent is
    the call with the tightest of its own, the global and the remaining timeout,
    and what the authority promises of the context holds. *)
Lemma admission_exact now now' token call eff :
  admit_call token_verifier fixture_server allowed_subject now now' token call = Value eff <->
  exists p, authentic now token (tc_context call) p /\
    validate (tc_context call) p = Ok tt /\ affine (tc_context call) p /\
    tc_server call = fixture_server /\ tc_tool_name call = "fixture.read_echo" /\
    _fixture_arguments_valid (tc_arguments call) = true /\
    dleb (effective_timeout now' call) dzero = false /\
    eff = with_timeout call (effective_timeout now' call).
Proof.
  unfold admit_call. rewrite bind_Value. setoid_rewrite verify_exact. split.
  - intros (p & Hp & ([] & Ha%authorize_exact & [(? & ? & _ & ? & ?) ->]%check_call_exact)%bind_Value).
    exists p. eauto 10 using validate_affine.
  - intros (p & Hp & Hv & _ & ? & ? & ? & ? & ->). exists p. split; [done|]. apply bind_Value.
    exists tt. split; [by apply authorize_exact|]. apply check_call_exact. split; [|done].
    repeat split; try done. by apply valid_arguments_trusted.
Qed.

Lemma admitted_call now now' token call eff :
  admit_call token_verifier fixture_server allowed_subject now now' token call = Value eff ->
  exists t, eff = with_timeout call t.
Proof.
  unfold admit_call. intros (p & _ & (u & _ & [_ ->]%check_call_exact)%bind_Value)%bind_Value. eauto.
Qed.

End admission.

(** ** The invariant of the tables *)

Definition owned (c : caller) : option uuid :=
  match ca_phase c with
  | Awaiting _ true | Closing true _ => Some (op_of (ca_call c))
  | _ => None
  end.

(** [r] is the answer of an upstream call with this identity. *)
Definition answered (s : gateway) (id : identity) (r : ToolResult) : Prop :=
  exists fid fl, flights s !! fid = Some fl /\ fl_identity fl = id /\ fl_state fl = Finished (Answered r).

Definition phase_ok (s : gateway) (c : caller) : Prop :=
  match ca_phase c with
  | Awaiting fid owner =>
      (exists fl, flights s !! fid = Some fl /\ fl_identity fl = identity_of (ca_call c)) /\
      (owner = true -> inflight s !! op_of (ca_call c) = Some (identity_of (ca_call c), fid))
  | Closing true _ =>
      exists fid fl, inflight s !! op_of (ca_call c) = Some (identity_of (ca_call c), fid) /\
        flights s !! fid = Some fl /\ fl_state fl <> Running
  | Done (Value r) => answered s (identity_of (ca_call c)) r /\ result_matches (ca_call c) r = true
  | _ => True
  end.

Definition entry_ok (s : gateway) (op : uuid) (id : identity) (fid : nat) : Prop :=
  cx_operation_id (id_context id) = op /\
  (exists fl, flights s !! fid = Some fl /\ fl_identity fl = id) /\
  exists i c, callers s !! i = Some c /\ owned c = Some op.

Definition result_ok (s : gateway) (op : uuid) (v : identity * ToolResult) : Prop :=
  cx_operation_id (id_context v.1) = op /\ answered s v.1 v.2 /\
  exists call, identity_of call = v.1 /\ result_matches call v.2 = true.

Record table_inv (s : gateway) : Prop := {
  inv_phase : forall i c, callers s !! i = Some c -> phase_ok s c;
  inv_entry : forall op id fid, inflight s !! op = Some (id, fid) -> entry_ok s op id fid;
  inv_owner : forall i j c d op, callers s !! i = Some c -> callers s !! j = Some d ->
    owned c = Some op -> owned d = Some op -> i = j;
  inv_running : forall fid fl, flights s !! fid = Some fl -> fl_state fl = Running ->
    inflight s !! op_of (fl_call fl) = Some (fl_identity fl, fid);
  inv_result : forall op v, (op, v) ∈ dedup s -> result_ok s op v;
  inv_bound : (length (dedup s) <= _max_dedup_entries)%nat;
  inv_keys : NoDup (dedup s).*1
}.

Lemma owned_op c op : owned c = Some op -> op = op_of (ca_call c).
Proof. unfold owned. destruct (ca_phase c) as [? []|[] ?|]; naive_solver. Qed.

(** ** Preservation, transition by transition *)

(** Futures only move forward. *)
Definition flights_le (s s' : gateway) : Prop :=
  forall fid fl, flights s !! fid = Some fl ->
    exists fl', flights s' !! fid = Some fl' /\ fl_call fl' = fl_call fl /\
      (forall e, fl_state fl = Finished e -> fl_state fl' = Finished e) /\
      (fl_state fl <> Running -> fl_state fl' <> Running).

Lemma flights_le_refl s s' : flights s' = flights s -> flights_le s s'.
Proof. intros E fid fl Hl. exists fl. rewrite E. naive_solver. Qed.

Lemma answered_mono s s' id r : flights_le s s' -> answered s id r -> answered s' id r.
Proof.
  intros Hle (fid & fl & Hl & Hi & Hf). destruct (Hle _ _ Hl) as (fl' & Hl' & Hc & Hs & _).
  exists fid, fl'. unfold fl_identity in *. rewrite Hc. auto.
Qed.

Lemma phase_mono s s' c : flights_le s s' -> inflight s' = inflight s -> phase_ok s c -> phase_ok s' c.
Proof.
  intros Hle Hi. unfold phase_ok. destruct (ca_phase c) as [fid o|[] f|[r| | |]]; try done.
  - intros ((fl & Hl & Hid) & Ho). destruct (Hle _ _ Hl) as (fl' & Hl' & Hc & _). rewrite Hi. split; [|done].
    exists fl'. unfold fl_identity in *. by rewrite Hc.
  - intros (fid & fl & Hin & Hl & Hr). destruct (Hle _ _ Hl) as (fl' & Hl' & _ & _ & Hs). rewrite Hi. naive_solver.
  - intros [? ?]. split; [by eapply answered_mono|done].
Qed.

Lemma result_mono s s' op v : flights_le s s' -> result_ok s op v -> result_ok s' op v.
Proof. intros Hle (? & ? & ?). split; [done|]. split; [by eapply answered_mono|done]. Qed.

Lemma flights_inv s l :
  table_inv s -> flights_le s (with_flights s l) ->
  (forall fid fl, l !! fid = Some fl -> fl_state fl = Running -> flights s !! fid = Some fl) ->
  table_inv (with_flights s l).
Proof.
  intros [Hp He Ho Hr Hd Hb Hk] Hle Hrun. split; cbn [with_flights dedup inflight flights callers]; try done.
  - intros i c Hc. eapply phase_mono; eauto.
  - intros op id fid Hin. destruct (He _ _ _ Hin) as (? & (fl & Hl & <-) & ?). split; [done|]. split; [|done].
    destruct (Hle _ _ Hl) as (fl' & Hl' & Hc & _). exists fl'. unfold fl_identity. by rewrite Hc.
  - intros fid fl Hl Hs. eauto.
  - intros op v Hv. eapply result_mono; eauto.
Qed.

Lemma join_inv s call p :
  table_inv s -> phase_ok s (mkCaller call p) -> owned (mkCaller call p) = None -> table_inv (join_call call p s).
Proof.
  intros [Hp He Ho Hr Hd Hb Hk] Hph Hown. split; cbn [join_call with_callers dedup inflight flights callers]; try done.
  - intros i c [[_ Hc]|[_ <-]]%lookup_snoc_Some; [|done]. by apply Hp in Hc.
  - intros op id fid Hin. destruct (He _ _ _ Hin) as (? & ? & i & c & Hc & Hoc). split; [done|]. split; [done|].
    exists i, c. split; [|done]. by apply lookup_app_l_Some.
  - intros i j c d op [[_ Hc]|[_ <-]]%lookup_snoc_Some [[_ Hd']|[_ <-]]%lookup_snoc_Some; [eauto|congruence..].
Qed.

Lemma launch_inv s call eff :
  table_inv s -> identity_of eff = identity_of call -> inflight s !! op_of call = None ->
  table_inv (launch call eff s).
Proof.
  intros Hinv Hid Hnone. pose proof Hinv as [Hp He Ho Hr Hd Hb Hk].
  assert (Hop : op_of eff = op_of call) by (unfold op_of; by injection Hid as _ _ -> _).
  assert (Hle : flights_le s (launch call eff s)).
  { intros fid fl Hl. exists fl. cbn. split; [by apply lookup_app_l_Some|naive_solver]. }
  assert (Hfree : forall i c, callers s !! i = Some c -> owned c <> Some (op_of call)).
  { intros i c Hc Hoc. apply Hp in Hc as Hph. apply owned_op in Hoc as Heq. unfold owned, phase_ok in *.
    destruct (ca_phase c) as [? []|[] ?|]; rewrite <- ?Heq in Hph; naive_solver. }
  assert (Hin : forall c i, callers s !! i = Some c -> phase_ok (launch call eff s) c).
  { intros c i Hc. apply Hp in Hc as Hph. apply Hfree in Hc as Hne. unfold phase_ok, owned in *. cbn [launch inflight].
    destruct (ca_phase c) as [fid o|[] f|[r| | |]]; try done.
    - destruct Hph as ((fl & Hl & Hidl) & How). split.
      + exists fl. split; [by apply lookup_app_l_Some|done].
      + intros ->. rewrite lookup_insert_ne; [by apply How|]. intros E. by rewrite E in Hne.
    - destruct Hph as (fid & fl & Hi & Hl & Hs). exists fid, fl. rewrite lookup_insert_ne by (intros E; by rewrite E in Hne).
      split; [done|]. split; [by apply lookup_app_l_Some|done].
    - destruct Hph as [Ha Hm]. split; [by eapply answered_mono|done]. }
  split; cbn [launch dedup inflight flights callers]; try done.
  - intros i c [[_ Hc]|[_ <-]]%lookup_snoc_Some; [by eapply Hin|]. split; [|intros _; apply lookup_insert_eq].
    exists (mkFlight eff Running). split; [by apply lookup_snoc_Some; right|done].
  - intros op id fid [[<- [= <- <-]]|[Hne Hi]]%lookup_insert_Some.
    + split; [done|]. split.
      * exists (mkFlight eff Running). split; [by apply lookup_snoc_Some; right|done].
      * exists (length (callers s)), (mkCaller call (Awaiting (length (flights s)) true)).
        split; [by apply lookup_snoc_Some; right|done].
    + destruct (He _ _ _ Hi) as (? & (fl & Hl & ?) & i & c & Hc & ?). split; [done|].
      split; [exists fl|exists i, c]; (split; [by apply lookup_app_l_Some|done]).
  - intros i j c d op [[_ Hc]|[-> <-]]%lookup_snoc_Some [[_ Hd']|[-> <-]]%lookup_snoc_Some; [eauto| | |done].
    + intros H1 [= <-]. by apply Hfree in Hc.
    + intros [= <-] H1. by apply Hfree in Hd'.
  - intros fid fl [[_ Hl]|[-> <-]]%lookup_snoc_Some Hs.
    + apply Hr in Hl as Hi; [|done]. rewrite lookup_insert_ne; [done|]. intros E. by rewrite <- E, Hnone in Hi.
    + cbn [fl_call]. unfold fl_identity. cbn [fl_call]. by rewrite Hop, Hid, lookup_insert_eq.
  - intros op v Hv. eapply result_mono; eauto.
Qed.

(** Caller [i] is held by [call] and, if it owns an entry, its future has been
    asked to end. *)
Definition may_leave (s : gateway) (i : nat) (call : ToolCall) (owner : bool) : Prop :=
  (exists p, callers s !! i = Some (mkCaller call p) /\
     owned (mkCaller call p) = (if owner then Some (op_of call) else None)) /\
  (owner = true -> exists fid fl, inflight s !! op_of call = Some (identity_of call, fid) /\
     flights s !! fid = Some fl /\ fl_state fl <> Running).

Lemma leave_inv s i call owner r :
  table_inv s -> may_leave s i call owner ->
  match r with Value v => answered s (identity_of call) v /\ result_matches call v = true | _ => True end ->
  table_inv (leave i call owner r s).
Proof.
  intros [Hp He Ho Hr Hd Hb Hk] [(p & Hc & Hown) Hfl] Hv.
  assert (Hi : (i < length (callers s))%nat) by by eapply lookup_lt_Some.
  assert (Hin : forall op v, inflight (leave i call owner r s) !! op = Some v <->
            inflight s !! op = Some v /\ (owner = true -> op <> op_of call)).
  { intros op v. destruct owner; cbn; [rewrite lookup_delete_Some|]; naive_solver. }
  assert (Hfs : flights (leave i call owner r s) = flights s) by by destruct owner.
  assert (Hcs : callers (leave i call owner r s) = <[i := mkCaller call (Done r)]> (callers s)) by by destruct owner.
  assert (Hds : dedup (leave i call owner r s) = dedup s) by by destruct owner.
  assert (Hle : flights_le s (leave i call owner r s)) by by apply flights_le_refl.
  assert (Hother : forall j c, j <> i -> callers s !! j = Some c -> owner = true -> owned c <> Some (op_of call)).
  { intros j c Hj Hcj -> Hoc. apply Hj. eapply Ho; eauto. }
  split; rewrite ?Hfs, ?Hds; try done.
  - intros j c. rewrite Hcs. intros [(-> & <- & _)|[Hne Hcj]]%list_lookup_insert_Some.
    + unfold phase_ok. cbn [ca_phase ca_call]. destruct r as [v| | |]; try done.
      destruct Hv as [Ha Hm]. split; [by eapply answered_mono|done].
    + apply Hp in Hcj as Hph. assert (Hnop := Hother j c (not_eq_sym Hne) Hcj).
      unfold phase_ok, owned in *. rewrite Hfs. destruct (ca_phase c) as [fid o|[] f|[v| | |]]; try done.
      * split; [apply Hph|]. intros ->. apply Hin. split; [by apply Hph|]. intros Hot E. by apply Hnop in Hot; rewrite E in Hot.
      * destruct Hph as (fid & fl & Hx & Hl & Hs). exists fid, fl. split; [|done]. apply Hin. split; [done|].
        intros Hot E. by apply Hnop in Hot; rewrite E in Hot.
      * destruct Hph as [Ha Hm]. split; [by eapply answered_mono|done].
  - intros op id fid [Hx Hnop]%Hin. destruct (He _ _ _ Hx) as (? & ? & j & c & Hcj & Hoc).
    split; [done|]. rewrite Hfs. split; [done|]. exists j, c. rewrite Hcs. split; [|done].
    rewrite list_lookup_insert_ne; [done|]. intros ->. rewrite Hc in Hcj. injection Hcj as <-. rewrite Hown in Hoc.
    destruct owner; [|done]. injection Hoc as <-. by apply Hnop.
  - intros j k c d op. rewrite Hcs.
    intros [(-> & <- & _)|[_ Hj]]%list_lookup_insert_Some [(-> & <- & _)|[_ Hk']]%list_lookup_insert_Some; try done.
    apply (Ho _ _ _ _ _ Hj Hk').
  - intros fid fl Hl Hs. apply Hin. split; [by apply Hr|]. intros -> E. specialize (Hr _ _ Hl Hs). rewrite E in Hr.
    destruct (Hfl eq_refl) as (fid' & fl' & Hx & Hl' & Hs'). assert (fid' = fid) as -> by congruence. congruence.
  - intros op v Hin'. eapply result_mono; eauto.
Qed.

Lemma closing_inv s i call owner f :
  table_inv s -> may_leave s i call owner -> table_inv (set_phase i call (Closing owner f) s).
Proof.
  intros [Hp He Ho Hr Hd Hb Hk] [(p & Hc & Hown) Hfl].
  assert (Hi : (i < length (callers s))%nat) by by eapply lookup_lt_Some.
  assert (Hsame : owned (mkCaller call (Closing owner f)) = owned (mkCaller call p)) by (rewrite Hown; by destruct owner).
  split; cbn [set_phase with_callers dedup inflight flights callers]; try done.
  - intros j c [(-> & <- & _)|[_ Hcj]]%list_lookup_insert_Some; [|by apply Hp in Hcj].
    unfold phase_ok. cbn [ca_phase ca_call]. destruct owner; [by apply Hfl|done].
  - intros op id fid Hx. destruct (He _ _ _ Hx) as (? & ? & j & c & Hcj & Hoc). split; [done|]. split; [done|].
    destruct (decide (j = i)) as [->|Hne].
    + exists i, (mkCaller call (Closing owner f)). cbn. split; [by apply list_lookup_insert_eq|]. congruence.
    + exists j, c. cbn. by rewrite list_lookup_insert_ne.
  - intros j k c d op. intros [(-> & <- & _)|[Hj Hcj]]%list_lookup_insert_Some
      [(-> & <- & _)|[Hk' Hck]]%list_lookup_insert_Some; rewrite ?Hsame; eauto.
Qed.

Lemma max_positive : (0 < _max_dedup_entries)%nat.
Proof. apply Nat.lt_0_succ. Qed.

Lemma remember_inv s id r :
  table_inv s -> result_ok s (cx_operation_id (id_context id)) (id, r) ->
  table_inv (with_dedup s (remember id r (dedup s))).
Proof.
  intros [Hp He Ho Hr Hd Hb Hk] Hok. split; cbn [with_dedup dedup inflight flights callers]; try done.
  - intros op v [[-> ->]|Hin]%dict_set_elem; [done|]. apply Hd.
    destruct (_max_dedup_entries <=? length (dedup s))%nat; [|done]. destruct (dedup s); [done|by right].
  - unfold remember. etransitivity; [apply dict_set_length|].
    pose proof max_positive. destruct (Nat.leb_spec _max_dedup_entries (length (dedup s))); [|lia].
    destruct (dedup s); cbn [tail length] in *; lia.
  - apply dict_set_NoDup. destruct (_max_dedup_entries <=? length (dedup s))%nat; [|done].
    destruct (dedup s); [done|]. by apply NoDup_cons in Hk as [_ Hk].
Qed.

(** ** Every run *)

Lemma waiting_may_leave s i call fid owner fl :
  table_inv s -> callers s !! i = Some (mkCaller call (Awaiting fid owner)) ->
  flights s !! fid = Some fl -> fl_state fl <> Running -> may_leave s i call owner.
Proof.
  intros Hinv Hc Hl Hs. destruct (inv_phase _ Hinv _ _ Hc) as [_ Ho]. cbn in Ho. split.
  - exists (Awaiting fid owner). split; [done|by destruct owner].
  - intros ->. exists fid, fl. auto.
Qed.

Lemma closing_may_leave s i call owner f :
  table_inv s -> callers s !! i = Some (mkCaller call (Closing owner f)) -> may_leave s i call owner.
Proof.
  intros Hinv Hc. pose proof (inv_phase _ Hinv _ _ Hc) as Hp. split.
  - exists (Closing owner f). split; [done|by destruct owner].
  - intros ->. apply Hp.
Qed.

Lemma resume_inv s i call fid owner fl e :
  table_inv s -> callers s !! i = Some (mkCaller call (Awaiting fid owner)) ->
  flights s !! fid = Some fl -> fl_state fl = Finished e -> table_inv (resume i call owner e s).
Proof.
  intros Hinv Hc Hl Hs. assert (Hml : may_leave s i call owner) by (eapply waiting_may_leave; eauto; by rewrite Hs).
  destruct (inv_phase _ Hinv _ _ Hc) as [(fl' & Hl' & Hid) _]. cbn [ca_call] in Hid.
  assert (fl' = fl) as -> by congruence.
  destruct e as [r| | |f|x]; cbn [resume].
  - destruct (result_matches call r) eqn:Hm; [|by apply leave_inv].
    assert (Ha : answered s (identity_of call) r) by (exists fid, fl; by rewrite <- Hid).
    assert (Hd : dedup (leave i call owner (Value r) s) = dedup s) by by destruct owner.
    rewrite <- Hd. apply remember_inv; [by apply leave_inv|]. split; [done|]. split; [|by exists call].
    eapply answered_mono; [|done]. apply flights_le_refl. by destruct owner.
  - by apply closing_inv.
  - destruct owner; [by apply closing_inv|by apply leave_inv].
  - by apply leave_inv.
  - by apply leave_inv.
Qed.

Lemma request_cancel_flights fid s :
  exists l, request_cancel fid s = with_flights s l /\
    flights_le s (with_flights s l) /\
    (forall k fl, l !! k = Some fl -> fl_state fl = Running -> flights s !! k = Some fl) /\
    (forall fl, l !! fid = Some fl -> fl_state fl <> Running).
Proof.
  unfold request_cancel.
  assert (Hsame : (forall fl, flights s !! fid = Some fl -> fl_state fl <> Running) ->
    exists l, s = with_flights s l /\ flights_le s (with_flights s l) /\
    (forall k fl, l !! k = Some fl -> fl_state fl = Running -> flights s !! k = Some fl) /\
    (forall fl, l !! fid = Some fl -> fl_state fl <> Running)).
  { intros H. exists (flights s). split; [by destruct s|]. split; [by apply flights_le_refl|done]. }
  destruct (flights s !! fid) as [[c []]|] eqn:Hl; try (apply Hsame; naive_solver).
  assert (Hlt : (fid < length (flights s))%nat) by by eapply lookup_lt_Some.
  eexists. split; [done|]. cbn [with_flights flights]. split; [|split].
  - intros k fl Hk. destruct (decide (k = fid)) as [->|Hne].
    + exists (mkFlight c Cancelling). cbn. rewrite list_lookup_insert_eq by done. naive_solver.
    + exists fl. cbn. rewrite list_lookup_insert_ne by done. naive_solver.
  - intros k fl [(-> & <- & _)|[_ Hk]]%list_lookup_insert_Some Hs; done.
  - intros fl. rewrite list_lookup_insert_eq by done. by intros [= <-].
Qed.

Lemma interrupt_inv s s' i call p :
  table_inv s -> callers s !! i = Some (mkCaller call p) -> interrupt i call p s = Some s' -> table_inv s'.
Proof.
  intros Hinv Hc. destruct p as [fid []|owner f|r]; cbn [interrupt]; intros [= <-].
  - destruct (request_cancel_flights fid s) as (l & -> & Hle & Hrun & Hno).
    assert (Hinv' : table_inv (with_flights s l)) by by apply flights_inv.
    destruct (inv_phase _ Hinv' _ _ Hc) as [(fl & Hl & _) _].
    apply closing_inv; [done|]. eapply waiting_may_leave; eauto.
  - apply leave_inv; [done| |done]. split; [by exists (Awaiting fid false)|done].
  - apply leave_inv; [done|by eapply closing_may_leave|done].
Qed.

(** ** One answer per operation

    While no caller is cancelled and nothing is evicted. *)

(** The future ended with an answer its callers accept. *)
Definition delivered (fl : flight) (r : ToolResult) : Prop :=
  fl_state fl = Finished (Answered r) /\ result_matches (fl_call fl) r = true.

Record answers_inv (s : gateway) : Prop := {
  ans_running : forall fid fl, flights s !! fid = Some fl -> fl_state fl <> Cancelling;
  ans_kept : forall fid fl r, flights s !! fid = Some fl -> delivered fl r ->
    dict_get (op_of (fl_call fl)) (dedup s) = Some (fl_identity fl, r) \/
    exists i call, callers s !! i = Some (mkCaller call (Awaiting fid true));
  ans_unique : forall fid gid fl gl r q, flights s !! fid = Some fl -> flights s !! gid = Some gl ->
    delivered fl r -> delivered gl q -> op_of (fl_call fl) = op_of (fl_call gl) -> fid = gid;
  ans_settled : forall op v id fid fl, dict_get op (dedup s) = Some v -> inflight s !! op = Some (id, fid) ->
    flights s !! fid = Some fl -> fl_state fl <> Running;
  ans_done : forall op v, (op, v) ∈ dedup s ->
    exists j call r, callers s !! j = Some (mkCaller call (Done r)) /\ op_of call = op
}.

Lemma matches_identity c c' r : identity_of c = identity_of c' -> result_matches c r = result_matches c' r.
Proof. intros [= H1 H2 H3 _]. unfold result_matches, op_of. by rewrite H1, H2, H3. Qed.

Lemma same_op c c' : identity_of c = identity_of c' -> op_of c = op_of c'.
Proof. unfold op_of. by intros [= _ _ -> _]. Qed.

Lemma answered_delivered s c r :
  answered s (identity_of c) r -> result_matches c r = true ->
  exists fid fl, flights s !! fid = Some fl /\ delivered fl r /\ fl_identity fl = identity_of c /\
    op_of (fl_call fl) = op_of c.
Proof.
  intros (fid & fl & Hl & Hi & Hf) Hm. exists fid, fl. split; [done|].
  split; [split; [done|by rewrite (matches_identity _ c)]|]. split; [done|by apply same_op].
Qed.

Lemma stored_delivered s op id r :
  table_inv s -> (op, (id, r)) ∈ dedup s ->
  exists fid fl, flights s !! fid = Some fl /\ delivered fl r /\ fl_identity fl = id /\ op_of (fl_call fl) = op.
Proof.
  intros Hinv (Hop & Ha & c & Hc & Hm)%(inv_result _ Hinv). cbn in *. subst id op. by apply answered_delivered.
Qed.

(** A running future's owner awaits it. *)
Lemma running_owner s fid fl :
  table_inv s -> flights s !! fid = Some fl -> fl_state fl = Running ->
  inflight s !! op_of (fl_call fl) = Some (fl_identity fl, fid) /\
  exists i call, callers s !! i = Some (mkCaller call (Awaiting fid true)) /\ identity_of call = fl_identity fl.
Proof.
  intros Hinv Hl Hs. pose proof (inv_running _ Hinv _ _ Hl Hs) as Hi. split; [done|].
  destruct (inv_entry _ Hinv _ _ _ Hi) as (_ & _ & i & [call p] & Hc & Ho).
  apply owned_op in Ho as Hop. cbn [ca_call] in Hop.
  pose proof (inv_phase _ Hinv _ _ Hc) as Hp. unfold owned, phase_ok in Ho, Hp. cbn [ca_call ca_phase] in Ho, Hp.
  destruct p as [gid []|[] f|]; try done.
  - destruct Hp as [_ Hp]. specialize (Hp eq_refl). rewrite <- Hop, Hi in Hp. assert (gid = fid) as -> by congruence.
    exists i, call. split; [done|congruence].
  - destruct Hp as (gid & gl & Hg & Hgl & Hgs). rewrite <- Hop, Hi in Hg. assert (gid = fid) as -> by congruence. congruence.
Qed.

Lemma join_answers s call p : answers_inv s -> answers_inv (join_call call p s).
Proof.
  intros [Hr Hk Hu Hs Hd]. split; cbn [join_call with_callers dedup inflight flights callers]; try done.
  - intros fid fl r Hl Hdl. destruct (Hk _ _ _ Hl Hdl) as [?|(i & c & Hc)]; [by left|right].
    exists i, c. by apply lookup_app_l_Some.
  - intros op v (j & c & r & Hc & ?)%Hd. exists j, c, r. split; [by apply lookup_app_l_Some|done].
Qed.

Lemma launch_answers s call eff :
  answers_inv s -> table_inv s -> dict_get (op_of call) (dedup s) = None -> answers_inv (launch call eff s).
Proof.
  intros [Hr Hk Hu Hs Hd] Hinv Hnone. split; cbn [launch dedup inflight flights callers]; try done.
  - intros fid fl [[_ Hl]|[_ <-]]%lookup_snoc_Some; [by eapply Hr|done].
  - intros fid fl r [[_ Hl]|[_ <-]]%lookup_snoc_Some Hdl; [|by destruct Hdl].
    destruct (Hk _ _ _ Hl Hdl) as [?|(i & c & Hc)]; [by left|right]. exists i, c. by apply lookup_app_l_Some.
  - intros fid gid fl gl r q [[_ Hl]|[_ <-]]%lookup_snoc_Some [[_ Hg]|[_ <-]]%lookup_snoc_Some H1 H2 Hop;
      [by eapply Hu|by destruct H2|by destruct H1..].
  - intros op v id fid fl Hv [[<- _]|[Hne Hi]]%lookup_insert_Some; [congruence|].
    intros [[_ Hl]|[-> _]]%lookup_snoc_Some; [by eapply Hs|].
    destruct (inv_entry _ Hinv _ _ _ Hi) as (_ & (fl' & Hl & _) & _). apply lookup_lt_Some in Hl. lia.
  - intros op v (j & c & r & Hc & ?)%Hd. exists j, c, r. split; [by apply lookup_app_l_Some|done].
Qed.

Lemma finish_answers s fid c e :
  answers_inv s -> table_inv s -> flights s !! fid = Some (mkFlight c Running) ->
  answers_inv (with_flights s (<[fid := mkFlight c (Finished e)]> (flights s))).
Proof.
  intros [Hr Hk Hu Hs Hd] Hinv Hl. destruct (running_owner _ _ _ Hinv Hl eq_refl) as (Hi & i & call & Hc & _).
  assert (Hno : forall gid gl q, flights s !! gid = Some gl -> delivered gl q ->
            op_of (fl_call gl) = op_of c -> fid = gid).
  { intros gid gl q Hgl Hq Hop. destruct (Hk _ _ _ Hgl Hq) as [Hst|(j & d & Hj)].
    - rewrite Hop in Hst. by destruct (Hs _ _ _ _ _ Hst Hi Hl).
    - destruct (inv_phase _ Hinv _ _ Hj) as [(gl' & Hgl' & Hid) Hown]. specialize (Hown eq_refl). cbn [ca_call] in *.
      assert (gl' = gl) as -> by congruence. apply same_op in Hid. rewrite <- Hid, Hop in Hown. cbn [fl_call] in Hi.
      congruence. }
  split; cbn [with_flights dedup inflight flights callers]; try done.
  - intros k fl [(-> & <- & _)|[_ Hk']]%list_lookup_insert_Some; [done|by eapply Hr].
  - intros k fl r [(-> & <- & _)|[_ Hk']]%list_lookup_insert_Some Hdl; [right; eauto|by apply Hk].
  - intros k g fl gl r q [(-> & <- & _)|[Hne Hf]]%list_lookup_insert_Some
      [(<- & <- & _)|[Hne' Hg]]%list_lookup_insert_Some H1 H2 Hop; [done|by eapply Hno| |by eapply Hu].
    symmetry. by eapply Hno.
  - intros op v id k fl Hv Hin [(-> & <- & _)|[_ Hk']]%list_lookup_insert_Some; [done|by eapply Hs].
Qed.

(** Caller [i] leaves, and the results become [d']. *)
Lemma leave_answers s i call owner r d' :
  answers_inv s -> callers s !! i <> None ->
  (forall op v, dict_get op (dedup s) = Some v -> dict_get op d' = Some v) ->
  (forall op v, (op, v) ∈ d' -> (op, v) ∈ dedup s \/ op = op_of call) ->
  (forall op v id fid fl, dict_get op d' = Some v -> dict_get op (dedup s) = None ->
     inflight s !! op = Some (id, fid) -> flights s !! fid = Some fl -> fl_state fl <> Running) ->
  (forall p fl fid q, callers s !! i = Some (mkCaller p (Awaiting fid true)) -> flights s !! fid = Some fl ->
     delivered fl q -> dict_get (op_of (fl_call fl)) d' = Some (fl_identity fl, q)) ->
  (forall c p q, callers s !! i = Some (mkCaller c p) -> p = Done q -> op_of c = op_of call) ->
  answers_inv (with_dedup (leave i call owner r s) d').
Proof.
  intros [Hr Hk Hu Hs Hd] Hi Hkeep Hnew Hset Hwit Hdone.
  assert (Hlt : (i < length (callers s))%nat) by (destruct (callers s !! i) eqn:E; [by eapply lookup_lt_Some|done]).
  assert (Hfs : flights (with_dedup (leave i call owner r s) d') = flights s) by by destruct owner.
  assert (Hcs : callers (with_dedup (leave i call owner r s) d') = <[i := mkCaller call (Done r)]> (callers s))
    by by destruct owner.
  assert (Hin : forall op v, inflight (with_dedup (leave i call owner r s) d') !! op = Some v -> inflight s !! op = Some v).
  { intros op v. destruct owner; cbn; [rewrite lookup_delete_Some|]; naive_solver. }
  split; rewrite ?Hfs; try done; cbn [with_dedup dedup].
  - intros fid fl q Hl Hq. destruct (Hk _ _ _ Hl Hq) as [?|(j & c & Hc)]; [left; by apply Hkeep|].
    destruct (decide (j = i)) as [->|Hne]; [left; by eapply Hwit|right; exists j, c].
    by rewrite Hcs, list_lookup_insert_ne.
  - intros op v id fid fl Hv Hx%Hin Hl. destruct (dict_get op (dedup s)) as [v'|] eqn:E; [by eapply Hs|by eapply Hset].
  - intros op v [Hx| ->]%Hnew.
    + destruct (Hd _ _ Hx) as (j & c & q & Hc & Hop). destruct (decide (j = i)) as [->|Hne].
      * exists i, call, r. rewrite Hcs, list_lookup_insert_eq by done. split; [done|]. by rewrite <- (Hdone _ _ _ Hc eq_refl).
      * exists j, c, q. by rewrite Hcs, list_lookup_insert_ne.
    + exists i, call, r. by rewrite Hcs, list_lookup_insert_eq.
Qed.

(** Leaving without a result to store. *)
Lemma give_up_answers s i call owner r p :
  answers_inv s -> callers s !! i = Some (mkCaller call p) ->
  (forall fid fl q, p = Awaiting fid true -> flights s !! fid = Some fl -> ~ delivered fl q) ->
  answers_inv (leave i call owner r s).
Proof.
  intros Ha Hc Hno. replace (leave i call owner r s) with (with_dedup (leave i call owner r s) (dedup s)) by by destruct owner.
  apply leave_answers; try done; [by rewrite Hc|auto|congruence| |naive_solver].
  intros p' fl fid q Hc' Hl Hq. rewrite Hc in Hc'. exfalso. eapply Hno; [by injection Hc'|done|done].
Qed.

Lemma closing_answers s i call fid owner f :
  answers_inv s -> callers s !! i = Some (mkCaller call (Awaiting fid owner)) ->
  (forall fl q, flights s !! fid = Some fl -> ~ delivered fl q) ->
  answers_inv (set_phase i call (Closing owner f) s).
Proof.
  intros [Hr Hk Hu Hs Hd] Hc Hno. split; cbn [set_phase with_callers dedup inflight flights callers]; try done.
  - intros k fl q Hl Hq. destruct (Hk _ _ _ Hl Hq) as [?|(j & c & Hj)]; [by left|right; exists j, c].
    rewrite list_lookup_insert_ne; [done|]. intros ->. assert (k = fid) as -> by congruence. by eapply Hno.
  - intros op v (j & c & q & Hj & ?)%Hd. exists j, c, q. rewrite list_lookup_insert_ne; [done|]. intros ->. congruence.
Qed.

(** The stored operations are those of callers that are done. *)
Lemma dedup_below_callers s i c :
  answers_inv s -> table_inv s -> callers s !! i = Some c -> (forall r, ca_phase c <> Done r) ->
  (length (dedup s) < length (callers s))%nat.
Proof.
  intros [_ _ _ _ Hd] Hinv Hi Hnd. rewrite <- (length_fmap fst).
  assert (Hlt : (i < length (callers s))%nat) by by eapply lookup_lt_Some.
  rewrite (delete_Permutation _ _ _ Hi). cbn [length]. apply Nat.lt_succ_r.
  rewrite <- (length_fmap (fun c => op_of (ca_call c)) (delete i (callers s))).
  apply submseteq_length, NoDup_submseteq; [apply Hinv|].
  intros op ([op' v] & -> & Hv)%list_elem_of_fmap. destruct (Hd _ _ Hv) as (j & d & r & Hj & <-).
  apply list_elem_of_fmap. exists (mkCaller d (Done r)). split; [done|].
  apply list_elem_of_lookup. destruct (decide (j < i)%nat).
  - exists j. by rewrite list_lookup_delete_lt.
  - assert (j <> i) by (intros ->; rewrite Hi in Hj; injection Hj as ->; by eapply Hnd).
    exists (pred j). rewrite list_lookup_delete_ge by lia. by replace (S (pred j)) with j by lia.
Qed.

Lemma store_answers s i call fid owner fl r :
  answers_inv s -> table_inv s -> (length (callers s) <= _max_dedup_entries)%nat ->
  callers s !! i = Some (mkCaller call (Awaiting fid owner)) -> flights s !! fid = Some fl ->
  fl_state fl = Finished (Answered r) -> result_matches call r = true ->
  answers_inv (with_dedup (leave i call owner (Value r) s) (remember (identity_of call) r (dedup s))).
Proof.
  intros Ha Hinv Hmax Hc Hl Hs Hm. pose proof (inv_phase _ Hinv _ _ Hc) as [(fl' & Hl' & Hid) _].
  cbn [ca_call] in Hid. assert (fl' = fl) as -> by congruence. clear Hl'. apply same_op in Hid as Hop.
  assert (Hq : delivered fl r) by (split; [done|by rewrite (matches_identity _ call)]).
  assert (Hroom : (length (dedup s) < length (callers s))%nat) by by eapply dedup_below_callers.
  unfold remember. replace (_max_dedup_entries <=? length (dedup s))%nat with false by (symmetry; apply Nat.leb_gt; lia).
  change (cx_operation_id (id_context (identity_of call))) with (op_of call).
  apply leave_answers; [done|by rewrite Hc|..].
  - intros op [id q] Hv. rewrite dict_get_set. case_decide as E; [|done]. subst op.
    apply dict_get_elem, (stored_delivered _ _ _ _ Hinv) in Hv as (gid & gl & Hgl & Hgq & <- & Hgop).
    assert (gid = fid) as -> by (eapply (ans_unique _ Ha); eauto; congruence).
    assert (gl = fl) as -> by congruence. destruct Hgq as [Hgs _]. rewrite Hid. congruence.
  - intros op v [[-> _]|?]%dict_set_elem; [by right|by left].
  - intros op v id gid gl. rewrite dict_get_set. case_decide as E; [subst op|congruence]. intros _ Hnone Hi Hgl.
    destruct (ans_kept _ Ha _ _ _ Hl Hq) as [Hk|(j & d & Hj)]; [rewrite Hop in Hk; congruence|].
    destruct (inv_phase _ Hinv _ _ Hj) as [(fl' & Hl' & Hd) Hown]. specialize (Hown eq_refl). cbn [ca_call] in *.
    assert (fl' = fl) as -> by congruence. apply same_op in Hd. rewrite <- Hd, Hop, Hi in Hown.
    assert (gid = fid) as -> by congruence. assert (gl = fl) as -> by congruence. by rewrite Hs.
  - intros p gl gid q Hc' Hgl Hgq. assert (gid = fid) as -> by congruence. assert (gl = fl) as -> by congruence.
    rewrite Hop, dict_get_set, decide_True by done. destruct Hgq as [Hgs _]. unfold fl_identity in *. congruence.
  - intros d p q Hc' ->. congruence.
Qed.

Lemma resume_answers s i call fid owner fl e :
  answers_inv s -> table_inv s -> (length (callers s) <= _max_dedup_entries)%nat ->
  callers s !! i = Some (mkCaller call (Awaiting fid owner)) -> flights s !! fid = Some fl ->
  fl_state fl = Finished e -> answers_inv (resume i call owner e s).
Proof.
  intros Ha Hinv Hmax Hc Hl Hs. pose proof (inv_phase _ Hinv _ _ Hc) as [(fl' & Hl' & Hid) _].
  cbn [ca_call] in Hid. assert (fl' = fl) as -> by congruence.
  assert (Hno : (forall r, e = Answered r -> result_matches call r = false) ->
            forall gl q, flights s !! fid = Some gl -> ~ delivered gl q).
  { intros Hf gl q Hgl [Hq Hm]. assert (gl = fl) as -> by congruence. rewrite (matches_identity _ call) in Hm by done.
    rewrite Hf in Hm; [done|congruence]. }
  assert (Hup : (forall r, e = Answered r -> result_matches call r = false) ->
            forall k gl q, Awaiting fid owner = Awaiting k true -> flights s !! k = Some gl -> ~ delivered gl q).
  { intros Hf k gl q [= <- _]. by apply Hno. }
  destruct e as [r| | |f|x]; cbn [resume].
  - destruct (result_matches call r) eqn:Hm; [by eapply store_answers|].
    eapply give_up_answers; [done..|]. apply Hup. congruence.
  - eapply closing_answers; [done..|]. by apply Hno.
  - destruct owner; [eapply closing_answers; [done..|]; by apply Hno|].
    eapply give_up_answers; [done..|]. by apply Hup.
  - eapply give_up_answers; [done..|]. by apply Hup.
  - eapply give_up_answers; [done..|]. by apply Hup.
Qed.

Definition uninterrupted (e : event) : Prop := match e with Cancel _ => False | _ => True end.

Section runs.
Variable token_verifier : string -> res WorkloadPrincipal.
Context `{ContextAuthority}.
Variable fixture_server : UpstreamServerRef.
Variable allowed_subject : string.

Lemma enter_inv s call t :
  table_inv s -> table_inv (enter call (with_timeout call t) s).
Proof.
  intros Hinv. unfold enter. destruct (dict_get (op_of call) (dedup s)) as [[prior r]|] eqn:Hd.
  - apply join_inv; [done| |done]. unfold phase_ok. cbn. apply dict_get_elem, (inv_result _ Hinv) in Hd.
    destruct Hd as (_ & Ha & c & Hc & Hm). cbn in *. case_bool_decide as Hp; [|done]. subst prior.
    rewrite <- Hp. split; [done|]. rewrite <- Hm. unfold identity_of in Hp. injection Hp as H1 H2 H3 H4. unfold result_matches, op_of. by rewrite <- H1, <- H2, <- H3.
  - destruct (inflight s !! op_of call) as [[prior fid]|] eqn:Hi.
    + apply join_inv; [done| |by case_bool_decide]. unfold phase_ok. cbn. case_bool_decide as Hp; [|done]. subst prior.
      split; [|done]. by destruct (inv_entry _ Hinv _ _ _ Hi) as (_ & ? & _).
    + by apply launch_inv.
Qed.

Lemma step_inv e s s' :
  table_inv s -> step token_verifier fixture_server allowed_subject e s = Some s' -> table_inv s'.
Proof.
  intros Hinv. destruct e as [token call now now'|fid e|i|i|i]; cbn [step].
  - intros [= <-]. unfold arrive. destruct (admitted _ _ _ _ _ _ _) as [eff|f|x|] eqn:Ha; try by apply join_inv.
    apply admitted_call in Ha as [t ->]. by apply enter_inv.
  - unfold finish. destruct (flights s !! fid) as [[c [| |]]|] eqn:Hl; try done; intros [= <-];
      assert (Hlt : (fid < length (flights s))%nat) by (by eapply lookup_lt_Some);
      (apply flights_inv; [done| |]; [|intros k fl [(-> & <- & _)|[_ Hk]]%list_lookup_insert_Some Hs; done]);
      intros k fl Hk; destruct (decide (k = fid)) as [->|Hne]; cbn;
      rewrite ?list_lookup_insert_eq, ?list_lookup_insert_ne by done; naive_solver.
  - unfold wake. destruct (callers s !! i) as [[call [fid owner| |]]|] eqn:Hc; try done.
    destruct (flights s !! fid) as [[c [| |e]]|] eqn:Hl; try done. intros [= <-]. by eapply resume_inv.
  - unfold close. destruct (callers s !! i) as [[call [|owner f|]]|] eqn:Hc; try done. intros [= <-].
    apply leave_inv; [done|by eapply closing_may_leave|done].
  - destruct (callers s !! i) as [[call p]|] eqn:Hc; [|done]. by apply interrupt_inv.
Qed.

Lemma idle_inv : table_inv idle.
Proof. split; cbn; try done; [set_solver|apply Nat.le_0_l|constructor]. Qed.

Lemma runs_inv allowed s : reachable token_verifier fixture_server allowed_subject allowed s -> table_inv s.
Proof. induction 1; [apply idle_inv|by eapply step_inv]. Qed.

Lemma enter_answers s call t :
  answers_inv s -> table_inv s -> answers_inv (enter call (with_timeout call t) s).
Proof.
  intros Ha Hinv. unfold enter. destruct (dict_get (op_of call) (dedup s)) as [[prior r]|] eqn:Hd; [by apply join_answers|].
  destruct (inflight s !! op_of call) as [[prior fid]|]; [by apply join_answers|by apply launch_answers].
Qed.

Lemma step_answers e s s' :
  answers_inv s -> table_inv s -> (length (callers s) <= _max_dedup_entries)%nat -> uninterrupted e ->
  step token_verifier fixture_server allowed_subject e s = Some s' -> answers_inv s'.
Proof.
  intros Ha Hinv Hmax Hu. destruct e as [token call now now'|fid e|i|i|i]; cbn [step]; [| | | |done].
  - intros [= <-]. unfold arrive. destruct (admitted _ _ _ _ _ _ _) as [eff|f|x|] eqn:Had; try by apply join_answers.
    apply admitted_call in Had as [t ->]. by apply enter_answers.
  - unfold finish. destruct (flights s !! fid) as [[c [| |]]|] eqn:Hl; try done; intros [= <-]; [by apply finish_answers|].
    by destruct (ans_running _ Ha _ _ Hl).
  - unfold wake. destruct (callers s !! i) as [[call [fid owner| |]]|] eqn:Hc; try done.
    destruct (flights s !! fid) as [[c [| |e]]|] eqn:Hl; try done. intros [= <-]. by eapply resume_answers.
  - unfold close. destruct (callers s !! i) as [[call [|owner f|]]|] eqn:Hc; try done. intros [= <-].
    by eapply give_up_answers.
Qed.

Lemma step_callers e s s' :
  step token_verifier fixture_server allowed_subject e s = Some s' -> (length (callers s) <= length (callers s'))%nat.
Proof.
  assert (Hset : forall i call p s0, length (callers (set_phase i call p s0)) = length (callers s0))
    by (intros; apply length_insert).
  assert (Hleave : forall i call o r, length (callers (leave i call o r s)) = length (callers s))
    by (intros i call [] r; apply length_insert).
  assert (Hjoin : forall call p, length (callers (join_call call p s)) = S (length (callers s)))
    by (intros; cbn; rewrite length_app; cbn; lia).
  destruct e as [token call now now'|fid e|i|i|i]; cbn [step].
  - intros [= <-]. unfold arrive, enter. repeat case_match; rewrite ?Hjoin; try lia. cbn. rewrite length_app. lia.
  - unfold finish. repeat case_match; try done; by intros [= <-].
  - unfold wake, resume. repeat case_match; try done; intros [= <-]; cbn [with_dedup callers]; rewrite ?Hset, ?Hleave; done.
  - unfold close. repeat case_match; try done; intros [= <-]. by rewrite Hleave.
  - unfold interrupt, request_cancel. repeat case_match; try done; intros [= <-]; by rewrite ?Hset, ?Hleave.
Qed.

Lemma uninterrupted_answers s :
  reachable token_verifier fixture_server allowed_subject uninterrupted s ->
  (length (callers s) <= _max_dedup_entries)%nat -> answers_inv s.
Proof.
  induction 1 as [|e s s' Hr IH Hu Hs]; intros Hmax.
  - split; cbn; intros; set_solver.
  - apply step_callers in Hs as Hle. apply (step_answers e s s'); [apply IH; lia|by eapply runs_inv|lia|done|done].
Qed.

(** ** What runs guarantee *)

(** C10. At most one upstream call per operation: in every run, two upstream calls
    of one operation that still run (and were not asked to stop) are the same,
    and the caller that started it, with the same identity, is still waiting for
    it. *)
Theorem single_flight allowed s fid gid fl gl
    (Hr : reachable token_verifier fixture_server allowed_subject allowed s)
    (Hf : flights s !! fid = Some fl) (Hfr : fl_state fl = Running)
    (Hg : flights s !! gid = Some gl) (Hgr : fl_state gl = Running)
    (Hop : op_of (fl_call fl) = op_of (fl_call gl)) :
  fid = gid /\
  exists i call, callers s !! i = Some (mkCaller call (Awaiting fid true)) /\ identity_of call = fl_identity fl.
Proof.
  apply runs_inv in Hr as Hinv. destruct (running_owner _ _ _ Hinv Hf Hfr) as [Hi Hc].
  destruct (running_owner _ _ _ Hinv Hg Hgr) as [Hj _]. rewrite Hop, Hj in Hi. split; [congruence|done].
Qed.

(** C35. Answers are authentic: in every run, what a call returns, and what is kept
    for repetition, is the answer of an upstream call with the same server, tool,
    trusted context and arguments, and passes every check of the answer against
    the call; at most 1024 results are kept, one per operation. *)
Theorem answers_are_authentic allowed s
    (Hr : reachable token_verifier fixture_server allowed_subject allowed s) :
  (forall i call r, callers s !! i = Some (mkCaller call (Done (Value r))) ->
     answered s (identity_of call) r /\ result_matches call r = true) /\
  (forall op id r, dict_get op (dedup s) = Some (id, r) ->
     answered s id r /\ exists call, identity_of call = id /\ op_of call = op /\ result_matches call r = true) /\
  (length (dedup s) <= 1024)%nat /\ NoDup (dedup s).*1.
Proof.
  apply runs_inv in Hr as Hinv. split; [|split; [|split; [apply (inv_bound _ Hinv)|apply (inv_keys _ Hinv)]]].
  - intros i call r Hc. exact (inv_phase _ Hinv _ _ Hc).
  - intros op id r (Hop & Ha & c & Hc & Hm)%dict_get_elem%(inv_result _ Hinv). cbn in *. split; [done|].
    exists c. split; [done|]. by subst id op.
Qed.

(** C31. One answer per operation: in a run of at most 1024 calls whose callers are
    not cancelled, all calls of one operation that return a value return the same
    value for the same identity, and one upstream call delivered it. *)
Theorem one_answer_per_operation s
    (Hr : reachable token_verifier fixture_server allowed_subject uninterrupted s)
    (Hmax : (length (callers s) <= 1024)%nat) :
  (forall i j c d q r, callers s !! i = Some (mkCaller c (Done (Value q))) ->
     callers s !! j = Some (mkCaller d (Done (Value r))) -> op_of c = op_of d ->
     q = r /\ identity_of c = identity_of d) /\
  (forall fid gid fl gl q r, flights s !! fid = Some fl -> flights s !! gid = Some gl ->
     delivered fl q -> delivered gl r -> op_of (fl_call fl) = op_of (fl_call gl) -> fid = gid).
Proof.
  apply runs_inv in Hr as Hinv. apply uninterrupted_answers in Hr as Ha; [|done].
  split; [|exact (ans_unique _ Ha)]. intros i j c d q r Hc Hd Hop.
  destruct (inv_phase _ Hinv _ _ Hc) as [Hac Hmc], (inv_phase _ Hinv _ _ Hd) as [Had Hmd]. cbn [ca_call] in *.
  destruct (answered_delivered _ _ _ Hac Hmc) as (fid & fl & Hl & Hq & Hi & Ho).
  destruct (answered_delivered _ _ _ Had Hmd) as (gid & gl & Hgl & Hgq & Hgi & Hgo).
  assert (fid = gid) as -> by (eapply (ans_unique _ Ha); eauto; congruence).
  assert (gl = fl) as -> by congruence. split; [destruct Hq, Hgq|]; congruence.
Qed.

(** Everything sent upstream was admitted. *)
Lemma sent_admitted allowed s fid fl :
  reachable token_verifier fixture_server allowed_subject allowed s -> flights s !! fid = Some fl ->
  exists token call now now',
    admit_call token_verifier fixture_server allowed_subject now now' token call = Value (fl_call fl).
Proof.
  intros Hr. revert fid fl. induction Hr as [|e s s' Hr IH _ Hs]; intros fid fl; [done|].
  assert (Hleave : forall i call o r, flights (leave i call o r s) = flights s) by by intros i call [] r.
  assert (Hput : forall k c st st', flights s !! k = Some (mkFlight c st) ->
            <[k := mkFlight c st']> (flights s) !! fid = Some fl ->
            exists token call now now',
              admit_call token_verifier fixture_server allowed_subject now now' token call = Value (fl_call fl)).
  { intros k c st st' Hk [(<- & <- & _)|[_ Hl]]%list_lookup_insert_Some; [exact (IH _ _ Hk)|exact (IH _ _ Hl)]. }
  destruct e as [token call now now'|k e|i|i|i]; cbn [step] in Hs.
  - injection Hs as <-. unfold arrive, admitted.
    destruct (admit_call _ _ _ _ _ _ _) as [eff|f|x|] eqn:Ha; try exact (IH fid fl).
    unfold enter, launch. repeat case_match; try exact (IH fid fl).
    intros [[_ Hl]|[_ <-]]%lookup_snoc_Some; [exact (IH _ _ Hl)|]. cbn [fl_call]. eauto.
  - unfold finish in Hs. repeat case_match; try done; injection Hs as <-; subst; cbn [with_flights flights]; eauto.
  - unfold wake, resume in Hs. repeat case_match; try done; injection Hs as <-; cbn [with_dedup set_phase with_callers flights];
      rewrite ?Hleave; exact (IH fid fl).
  - unfold close in Hs. repeat case_match; try done; injection Hs as <-. rewrite Hleave. exact (IH fid fl).
  - unfold interrupt, request_cancel in Hs. repeat case_match; try done; injection Hs as <-;
      cbn [with_flights set_phase with_callers flights]; rewrite ?Hleave; subst; eauto.
Qed.

(** ** Callers settle *)

Definition rank (c : caller) : nat := match ca_phase c with Awaiting _ _ => 2 | Closing _ _ => 1 | Done _ => 0 end.
Definition pending (s : gateway) : nat := sum_list_with rank (callers s).

Lemma sum_insert {A} (f : A -> nat) l i x y :
  l !! i = Some x -> sum_list_with f (<[i := y]> l) + f x = sum_list_with f l + f y.
Proof.
  revert i; induction l as [|a l IH]; intros [|i] Hi; try done.
  - injection Hi as ->. change (f y + sum_list_with f l + f x = f x + sum_list_with f l + f y). lia.
  - apply IH in Hi. change (f a + sum_list_with f (<[i := y]> l) + f x = f a + sum_list_with f l + f y). lia.
Qed.

Lemma set_phase_pending s i call p q :
  callers s !! i = Some (mkCaller call p) -> rank (mkCaller call q) < rank (mkCaller call p) ->
  pending (set_phase i call q s) < pending s.
Proof. intros Hc Hr. unfold pending. cbn. pose proof (sum_insert rank _ _ _ (mkCaller call q) Hc). lia. Qed.

Lemma leave_pending s i call p o r :
  callers s !! i = Some (mkCaller call p) -> (forall q, p <> Done q) -> pending (leave i call o r s) < pending s.
Proof.
  intros Hc Hp. replace (pending s) with (pending (release o (op_of call) s)) by by destruct o.
  eapply set_phase_pending; [by destruct o|]. cbn. destruct p; cbn; [lia..|by edestruct Hp].
Qed.

Definition resumes (e : event) : Prop := match e with Wake _ | Close _ => True | _ => False end.

Lemma resumes_step e s s' :
  resumes e -> step token_verifier fixture_server allowed_subject e s = Some s' ->
  flights s' = flights s /\ pending s' < pending s.
Proof.
  assert (Hleave : forall i call o r, flights (leave i call o r s) = flights s) by by intros i call [] r.
  destruct e as [token call now now'|k e|i|i|i]; try done; intros _; cbn [step].
  - unfold wake. destruct (callers s !! i) as [[call [fid o| |]]|] eqn:Hc; try done.
    destruct (flights s !! fid) as [[c [| |e]]|]; try done. unfold resume.
    repeat case_match; intros [= <-]; cbn [with_dedup flights]; rewrite ?Hleave; (split; [done|]);
      first [change (pending (leave i call o (Value r) s) < pending s); by eapply leave_pending
            |by eapply leave_pending|eapply set_phase_pending; [done|cbn; lia]].
  - unfold close. destruct (callers s !! i) as [[call [|o f|]]|] eqn:Hc; try done. intros [= <-].
    split; [apply Hleave|by eapply leave_pending].
Qed.

Lemma steps_reachable allowed es s s' :
  reachable token_verifier fixture_server allowed_subject allowed s -> Forall allowed es ->
  steps token_verifier fixture_server allowed_subject es s = Some s' ->
  reachable token_verifier fixture_server allowed_subject allowed s'.
Proof.
  intros Hr Hall. revert s Hr. induction Hall as [|e es He _ IH]; intros s Hr; cbn; [by intros [= <-]|].
  destruct (step _ _ _ e s) as [s1|] eqn:Hs; [|done]. apply IH. by eapply reach_step.
Qed.

Lemma steps_pending es s s' :
  Forall resumes es -> steps token_verifier fixture_server allowed_subject es s = Some s' ->
  flights s' = flights s /\ length es + pending s' <= pending s.
Proof.
  intros Hall. revert s. induction Hall as [|e es He _ IH]; intros s; cbn; [intros [= <-]; split; [done|lia]|].
  destruct (step _ _ _ e s) as [s1|] eqn:Hs; [|done]. apply resumes_step in Hs as [Hf Hp]; [|done].
  intros [Hf' Hp']%IH. split; [congruence|lia].
Qed.

Lemma pending_bound s : pending s <= 2 * length (callers s).
Proof.
  unfold pending. induction (callers s) as [|c l IH]; [cbn; lia|].
  assert (rank c <= 2) by (unfold rank; destruct (ca_phase c); lia).
  change (rank c + sum_list_with rank l <= 2 * S (length l)). lia.
Qed.

(** C32. No call is stuck and nothing is left behind: once the upstream calls of a
    run have ended, the callers resume in at most two steps each, in any order;
    and when none can resume every call has returned or raised and no operation
    is registered as under way. *)
Theorem callers_settle s es s'
    (Hr : reachable token_verifier fixture_server allowed_subject (fun _ => True) s)
    (Hend : forall fid fl, flights s !! fid = Some fl -> exists e, fl_state fl = Finished e)
    (Hes : Forall resumes es)
    (Hs : steps token_verifier fixture_server allowed_subject es s = Some s') :
  length es <= 2 * length (callers s) /\
  ((forall e, resumes e -> step token_verifier fixture_server allowed_subject e s' = None) ->
     (forall i c, callers s' !! i = Some c -> exists r, ca_phase c = Done r) /\ inflight s' = ∅).
Proof.
  apply steps_pending in Hs as Hp; [|done]. destruct Hp as [Hf Hp]. pose proof (pending_bound s).
  split; [lia|]. intros Hstop. apply steps_reachable with (allowed := fun _ => True) in Hs as Hr'; [|done|by apply Forall_true].
  apply runs_inv in Hr' as Hinv.
  assert (Hdone : forall i c, callers s' !! i = Some c -> exists r, ca_phase c = Done r).
  { intros i [call [fid o|o f|r]] Hc; [| |by exists r].
    - destruct (inv_phase _ Hinv _ _ Hc) as [(fl & Hl & _) _]. pose proof Hl as Hl0. rewrite Hf in Hl0.
      apply Hend in Hl0 as [e He]. specialize (Hstop (Wake i) I). cbn in Hstop. unfold wake in Hstop.
      rewrite Hc, Hl in Hstop. destruct fl as [c st]. cbn in He. by subst st.
    - specialize (Hstop (Close i) I). cbn in Hstop. unfold close in Hstop. by rewrite Hc in Hstop. }
  split; [done|]. apply map_empty. intros op. apply eq_None_not_Some. intros [[id fid] Hi].
  destruct (inv_entry _ Hinv _ _ _ Hi) as (_ & _ & i & c & Hc & Ho). apply Hdone in Hc as [r Hr0].
  unfold owned in Ho. by rewrite Hr0 in Ho.
Qed.

End runs.

(** ** What reaches the upstream server *)

Lemma effective_timeout_bounds now call :
  dleb (effective_timeout now call) dzero = false -> dltb dzero (effective_timeout now call) = true /\
  dleb (effective_timeout now call) (dec_of_Z 30) = true.
Proof.
  intros H. split; [by rewrite dltb_negb, H|].
  eapply dleb_trans; [apply dmin_le_l|apply dmin_le_r].
Qed.

Section upstream.
Variable token_verifier : string -> res WorkloadPrincipal.
Context `{Hlaws : ContextAuthorityLaws}.
Variable fixture_server : UpstreamServerRef.
Variable allowed_subject : string.

(** C11. Nothing unauthorized reaches the tool server: in every run, each call sent
    upstream carries a context whose workload token was verified for the gateway,
    unexpired and of the allowed subject, what the context authority promises of
    that context, the fixture's server and tool, valid arguments, and a timeout
    between zero and thirty seconds. *)
Theorem upstream_calls_are_authorized allowed s fid fl
    (Hr : reachable token_verifier fixture_server allowed_subject allowed s)
    (Hl : flights s !! fid = Some fl) :
  exists now token p, authentic token_verifier allowed_subject now token (tc_context (fl_call fl)) p /\
    affine (tc_context (fl_call fl)) p /\
    tc_server (fl_call fl) = fixture_server /\ tc_tool_name (fl_call fl) = "fixture.read_echo" /\
    _fixture_arguments_valid (tc_arguments (fl_call fl)) = true /\
    dltb dzero (tc_timeout_s (fl_call fl)) = true /\ dleb (tc_timeout_s (fl_call fl)) (dec_of_Z 30) = true.
Proof.
  destruct (sent_admitted _ _ _ _ _ _ _ Hr Hl) as (token & call & now & now' & Ha).
  apply admission_exact in Ha as (p & Hp & _ & Haf & Hsv & Ht & Hv & He & ->); [|done].
  apply effective_timeout_bounds in He. exists now, token, p. by destruct He.
Qed.

End upstream.
