(* ===== verification/Cursor.v ===== *)
(** * Page cursors

    The cursors of [app/db/reasoning_graph.py]: base64 of a small JSON object
    that names an offset and the digest of the query.  [base64] is given on bytes
    as the standard library has it, [b64decode] with [validate=True]. *)

From S2P Require Import Prelude.
From S2P Require Import Sha256.
From S2P Require Import Json.
From S2P Require Import JsonLoads.

Local Open Scope N_scope.

(** ** Base64 *)

Definition b64_char (n : N) : ascii :=
  ascii_of_N (if n <? 26 then 65 + n
              else if n <? 52 then 71 + n
              else if n <? 62 then n - 4
              else if n =? 62 then 45 else 95).

(** The value of a digit; [altchars] are translated first, so the standard
    spellings of 62 and 63 are read as well. *)
Definition b64_value (c : ascii) : option N :=
  let n := N_of_ascii c in
  if (65 <=? n) && (n <=? 90) then Some (n - 65)
  else if (97 <=? n) && (n <=? 122) then Some (n - 71)
  else if (48 <=? n) && (n <=? 57) then Some (n + 4)
  else if (n =? 45) || (n =? 43) then Some 62
  else if (n =? 95) || (n =? 47) then Some 63
  else None.

(** [base64.urlsafe_b64encode(l).decode().rstrip("=")] *)
Fixpoint b64_encode (l : list ascii) : list ascii :=
  match l with
  | a :: b :: c :: l' =>
      let x := N_of_ascii a in let y := N_of_ascii b in let z := N_of_ascii c in
      b64_char (x / 4) :: b64_char (x mod 4 * 16 + y / 16) :: b64_char (y mod 16 * 4 + z / 64)
        :: b64_char (z mod 64) :: b64_encode l'
  | [a; b] =>
      let x := N_of_ascii a in let y := N_of_ascii b in
      [b64_char (x / 4); b64_char (x mod 4 * 16 + y / 16); b64_char (y mod 16 * 4)]
  | [a] => let x := N_of_ascii a in [b64_char (x / 4); b64_char (x mod 4 * 16)]
  | [] => []
  end.

Definition b64_pad (l : list ascii) : list ascii :=
  l ++ replicate (match (length l mod 4)%nat with O => 0 | m => 4 - m end)%nat "="%char.

(** [base64.b64decode(l, altchars=b"-_", validate=True)] *)
Fixpoint b64_decode (l : list ascii) : option (list ascii) :=
  match l with
  | [] => Some []
  | a :: b :: c :: d :: l' =>
      x ← b64_value a; y ← b64_value b;
      if Ascii.eqb c "="%char then
        if Ascii.eqb d "="%char && bool_decide (l' = []) then Some [ascii_of_N (x * 4 + y / 16)] else None
      else
        z ← b64_value c;
        if Ascii.eqb d "="%char then
          if bool_decide (l' = [])
          then Some [ascii_of_N (x * 4 + y / 16); ascii_of_N (y mod 16 * 16 + z / 4)] else None
        else
          w ← b64_value d;
          r ← b64_decode l';
          Some (ascii_of_N (x * 4 + y / 16) :: ascii_of_N (y mod 16 * 16 + z / 4)
                  :: ascii_of_N (z mod 4 * 64 + w) :: r)
  | _ => None
  end.

Example base64_examples :
  (unchars (b64_pad (b64_encode (chars "light w"))), unchars (b64_encode (map ascii_of_nat [255; 239]%nat)),
   unchars <$> b64_decode (chars "bGlnaHQgd28="), b64_decode (chars "bGl"), b64_decode (chars "bG=u"))
  = ("bGlnaHQgdw==", "_-8", Some "light wo", None, None).
Proof. vm_compute. reflexivity. Qed.

Lemma b64_digit n : n < 64 -> b64_value (b64_char n) = Some n /\ Ascii.eqb (b64_char n) "="%char = false.
Proof.
  intros Hn.
  assert (Hall : forallb (fun k => bool_decide (b64_value (b64_char k) = Some k) && negb (Ascii.eqb (b64_char k) "="%char))
            (map N.of_nat (seq 0 64)) = true) by (vm_compute; reflexivity).
  rewrite forallb_forall in Hall. specialize (Hall n). rewrite andb_true_iff, bool_decide_eq_true, negb_true_iff in Hall.
  apply Hall, in_map_iff. exists (N.to_nat n). split; [lia|]. apply in_seq. lia.
Qed.

Lemma byte_bound a : N_of_ascii a < 256.
Proof. apply N_ascii_bounded. Qed.

Lemma byte_again a n : n = N_of_ascii a -> ascii_of_N n = a.
Proof. intros ->. apply ascii_N_embedding. Qed.

(** Three bytes through four digits. *)
Lemma sextets x y z : x < 256 -> y < 256 -> z < 256 ->
  (x / 4 < 64 /\ x mod 4 * 16 + y / 16 < 64 /\ y mod 16 * 4 + z / 64 < 64 /\ z mod 64 < 64) /\
  x / 4 * 4 + (x mod 4 * 16 + y / 16) / 16 = x /\
  (x mod 4 * 16 + y / 16) mod 16 * 16 + (y mod 16 * 4 + z / 64) / 4 = y /\
  (y mod 16 * 4 + z / 64) mod 4 * 64 + z mod 64 = z.
Proof.
  intros Hx Hy Hz.
  assert (Hd : forall n k, k <> 0 -> n / k * k + n mod k = n) by (intros n k Hk; pose proof (N.Div0.div_mod n k); lia).
  assert (Hm : forall n k, k <> 0 -> n mod k < k) by (intros; by apply N.mod_lt).
  assert (Hs : forall q r k, r < k -> (q * k + r) / k = q /\ (q * k + r) mod k = r).
  { intros q r k Hr. split; [rewrite N.div_add_l, N.div_small by lia; lia|].
    by rewrite N.add_comm, N.Div0.mod_add, N.mod_small by lia. }
  assert (Hb : forall n k m, n < k * m -> k <> 0 -> n / k < m) by (intros; apply N.Div0.div_lt_upper_bound; lia).
  pose proof (Hb y 16 16 Hy ltac:(done)) as Hy16. pose proof (Hb z 64 4 Hz ltac:(done)) as Hz64.
  destruct (Hs (x mod 4) (y / 16) 16 Hy16) as [-> ->], (Hs (y mod 16) (z / 64) 4 Hz64) as [-> ->].
  pose proof (Hm x 4 ltac:(done)). pose proof (Hm y 16 ltac:(done)). pose proof (Hm z 64 ltac:(done)).
  pose proof (Hb x 4 64 Hx ltac:(done)). rewrite !Hd by done. lia.
Qed.

Lemma b64_encode_three (P : list ascii -> Prop) :
  P [] -> (forall a, P [a]) -> (forall a b, P [a; b]) ->
  (forall a b c l, P l -> P (a :: b :: c :: l)) -> forall l, P l.
Proof.
  intros H0 H1 H2 H3. assert (Hall : forall n l, (length l <= n)%nat -> P l).
  { induction n as [|n IH]; intros [|a [|b [|c l]]] Hl; cbn in Hl; try lia; auto. apply H3, IH. lia. }
  intros l. by apply (Hall (length l)).
Qed.

Lemma b64_pad_four a b c d l : b64_pad (a :: b :: c :: d :: l) = a :: b :: c :: d :: b64_pad l.
Proof.
  unfold b64_pad. cbn [length app]. replace (S (S (S (S (length l))))) with (length l + 1 * 4)%nat by lia.
  by rewrite Nat.Div0.mod_add.
Qed.

(** Decoding what was encoded and stripped gives the bytes back. *)
Lemma b64_round_trip l : b64_decode (b64_pad (b64_encode l)) = Some l.
Proof.
  induction l as [|a|a b|a b c l IH] using b64_encode_three.
  - done.
  - destruct (sextets (N_of_ascii a) 0 0) as [(H1 & H2 & _) (E1 & _)]; [apply byte_bound|lia|lia|].
    replace (0 / 16) with 0 in * by done. rewrite N.add_0_r in *.
    cbn [b64_encode]. unfold b64_pad. cbn [length app replicate Nat.modulo Nat.divmod fst snd Nat.sub b64_decode].
    rewrite (proj1 (b64_digit _ H1)). cbn [mbind option_bind]. rewrite (proj1 (b64_digit _ H2)). cbn.
    by rewrite (byte_again a).
  - destruct (sextets (N_of_ascii a) (N_of_ascii b) 0) as [(H1 & H2 & H3 & _) (E1 & E2 & _)]; [apply byte_bound|apply byte_bound|lia|].
    replace (0 / 64) with 0 in * by done. rewrite N.add_0_r in *.
    cbn [b64_encode]. unfold b64_pad. cbn [length app replicate Nat.modulo Nat.divmod fst snd Nat.sub b64_decode].
    rewrite (proj1 (b64_digit _ H1)). cbn [mbind option_bind]. rewrite (proj1 (b64_digit _ H2)). cbn [mbind option_bind].
    rewrite (proj2 (b64_digit _ H3)), (proj1 (b64_digit _ H3)). cbn. by rewrite (byte_again a), (byte_again b).
  - destruct (sextets (N_of_ascii a) (N_of_ascii b) (N_of_ascii c)) as [(H1 & H2 & H3 & H4) (E1 & E2 & E3)];
      [apply byte_bound..|].
    cbn [b64_encode]. rewrite b64_pad_four. cbn [b64_decode].
    rewrite (proj1 (b64_digit _ H1)). cbn [mbind option_bind]. rewrite (proj1 (b64_digit _ H2)). cbn [mbind option_bind].
    rewrite (proj2 (b64_digit _ H3)), (proj1 (b64_digit _ H3)). cbn [mbind option_bind].
    rewrite (proj2 (b64_digit _ H4)), (proj1 (b64_digit _ H4)). cbn [mbind option_bind]. rewrite IH. cbn [mbind option_bind].
    by rewrite (byte_again a), (byte_again b), (byte_again c).
Qed.

(** ** Cursors *)

(** [_encode_cursor]: [json.dumps] of these two members is their canonical text. *)
Definition cursor_payload (offset : Z) (fingerprint : string) : json :=
  JObj [("offset", JInt offset); ("query", JStr fingerprint)].

Definition _encode_cursor (offset : Z) (fingerprint : string) : res string :=
  text ← canonical_json (cursor_payload offset fingerprint);
  Ok (unchars (b64_encode (chars text))).

(** A byte of ASCII other than NUL: text made of them is read as UTF-8. *)
Definition plain_byte (c : ascii) : bool := char_in 1 127 c.

Definition invalid_cursor {A} : res A := raise ValueErrorC "invalid traversal cursor".

(** Numbers of at most 63 bits are within Python's digit limit. *)
Lemma dec_digits_length f n acc : (length (chars (dec_digits_go f n acc)) <= f + length (chars acc))%nat.
Proof.
  revert n acc; induction f as [|f IH]; intros n acc; [done|]. rewrite dec_digits_go_S.
  assert (Hc : forall c s, length (chars (String c s)) = S (length (chars s))) by done.
  destruct (n <? 10); [rewrite Hc; lia|]. etransitivity; [apply IH|]. rewrite Hc. lia.
Qed.

Lemma size_nat_le p k : N.pos p < 2 ^ N.of_nat k -> (Pos.size_nat p <= k)%nat.
Proof.
  revert k; induction p as [p IH|p IH|]; intros [|k]; cbn [Pos.size_nat];
    rewrite ?Nat2N.inj_succ, ?N.pow_succ_r'; change (2 ^ N.of_nat 0) with 1; intros Hp; try lia;
    apply le_n_S, IH; lia.
Qed.

Definition digit_room : Z := 2 ^ 63.

Lemma machine_int_readable z : (0 <= z < digit_room)%Z -> int_readable z = true.
Proof.
  intros Hz. unfold int_readable. apply Nat.leb_le. etransitivity; [apply dec_digits_length|].
  change (length (chars "")) with 0%nat. rewrite Nat.add_0_r.
  assert (Hsz : (N.size_nat (Z.abs_N z) <= 63)%nat).
  { destruct (Z.abs_N z) as [|p] eqn:E; [apply Nat.le_0_l|]. apply size_nat_le. unfold digit_room in Hz.
    change (2 ^ N.of_nat 63) with (Z.to_N (2 ^ 63)). lia. }
  apply le_n_S in Hsz. etransitivity; [exact Hsz|]. apply Nat.leb_le. vm_compute. reflexivity.
Qed.

Section cursors.

(** The decoding [json.loads] does of bytes that are not all plain. *)
Variable decode_other : list ascii -> res string.

Definition _parse_cursor (cursor : string) : res json :=
  _ ← guard_not (negb (forallb ascii_char (chars cursor))) ValueErrorC
        "string argument should contain only ASCII characters";
  match b64_decode (b64_pad (chars cursor)) with
  | Some bytes =>
      text ← (if forallb plain_byte bytes then Ok (unchars bytes) else decode_other bytes);
      loads text
  | None => raise ValueErrorC "invalid base64"
  end.

(** [_decode_cursor] *)
Definition _decode_cursor (cursor : option string) (fingerprint : string) : res Z :=
  match cursor with
  | None => Ok 0%Z
  | Some c =>
      match _parse_cursor c with
      | Ok (JObj payload) =>
          if negb (Nat.eqb (length payload) 2) then invalid_cursor
          else match dict_get "offset" payload, dict_get "query" payload with
               | Some offset, Some query =>
                   match query with
                   | JStr q => if String.eqb q fingerprint then
                                 match offset with
                                 | JInt n => if (n <? 0)%Z then invalid_cursor else Ok n
                                 | _ => invalid_cursor
                                 end
                               else invalid_cursor
                   | _ => invalid_cursor
                   end
               | _, _ => invalid_cursor
               end
      | _ => invalid_cursor
      end
  end.

Lemma b64_alphabet n : n < 64 -> ascii_char (b64_char n) = true.
Proof.
  intros Hn. assert (Hall : forallb (fun k => ascii_char (b64_char k)) (map N.of_nat (seq 0 64)) = true)
    by (vm_compute; reflexivity).
  rewrite forallb_forall in Hall. apply Hall, in_map_iff. exists (N.to_nat n). split; [lia|]. apply in_seq. lia.
Qed.

Lemma b64_encode_ascii l : forallb ascii_char (b64_encode l) = true.
Proof.
  induction l as [|a|a b|a b c l IH] using b64_encode_three; [done|..];
    cbn [b64_encode forallb]; rewrite ?IH, !andb_true_iff.
  - destruct (sextets (N_of_ascii a) 0 0) as [(H1 & H2 & _) _]; [apply byte_bound|lia|lia|].
    replace (0 / 16) with 0 in H2 by done. rewrite N.add_0_r in H2. auto using b64_alphabet.
  - destruct (sextets (N_of_ascii a) (N_of_ascii b) 0) as [(H1 & H2 & H3 & _) _]; [apply byte_bound|apply byte_bound|lia|].
    replace (0 / 64) with 0 in H3 by done. rewrite N.add_0_r in H3. auto using b64_alphabet.
  - destruct (sextets (N_of_ascii a) (N_of_ascii b) (N_of_ascii c)) as [(H1 & H2 & H3 & H4) _]; [apply byte_bound..|].
    auto 6 using b64_alphabet.
Qed.

Lemma printable_plain c : printable c = true -> plain_byte c = true.
Proof. destruct c as [[] [] [] [] [] [] [] []]; intros Hc; try discriminate Hc; reflexivity. Qed.

(** Decoding a cursor that was issued for [fingerprint]. *)
Lemma cursor_decodes offset fingerprint c fp' :
  (0 <= offset)%Z -> int_readable offset = true -> forallb ascii_char (chars fingerprint) = true ->
  _encode_cursor offset fingerprint = Ok c ->
  _decode_cursor (Some c) fp' = if String.eqb fingerprint fp' then Ok offset else invalid_cursor.
Proof.
  intros Hpos Hint Hfp (text & Ht & [= <-])%bind_Ok.
  assert (Hr : readable (cursor_payload offset fingerprint) = true) by (unfold cursor_payload; cbn [readable forallb map fst snd]; by rewrite Hint).
  assert (Hplain : forallb plain_byte (chars text) = true).
  { destruct (canonical_json_total _ (readable_float_free _ Hr)) as (s & Hs & Hc).
    assert (s = text) as -> by congruence. rewrite Hc. apply forallb_forall. intros x Hx. apply printable_plain.
    assert (Hp : forallb printable (print (json_norm (cursor_payload offset fingerprint))) = true).
    { apply print_printable; [by apply json_norm_float_free, readable_float_free|]. apply ascii_text_norm. cbn. by rewrite Hfp. }
    rewrite forallb_forall in Hp. by apply Hp. }
  unfold _decode_cursor, _parse_cursor. rewrite chars_unchars, b64_encode_ascii. cbn [negb guard_not mbind res_bind].
  rewrite b64_round_trip, Hplain. cbn [mbind res_bind]. rewrite unchars_chars, (loads_canonical _ _ Hr Ht).
  change (json_norm (cursor_payload offset fingerprint)) with (cursor_payload offset fingerprint).
  unfold cursor_payload. cbn [length Nat.eqb negb dict_get]. repeat first [rewrite decide_True by done|rewrite decide_False by done].
  destruct (String.eqb fingerprint fp'); [|done]. by rewrite (proj2 (Z.ltb_ge _ _) Hpos).
Qed.

Lemma encode_cursor_total offset fingerprint : is_ok (_encode_cursor offset fingerprint) = true.
Proof.
  unfold _encode_cursor. destruct (canonical_json_total (cursor_payload offset fingerprint) eq_refl) as (s & -> & _). done.
Qed.

End cursors.
