(* ===== verification/ReasoningGraph.v ===== *)
(** * The reasoning graph

    [app/domain/reasoning_graph.py] and [app/db/reasoning_graph.py]: nodes and
    edges with their validators, the two tables with their unique constraints,
    the recursive query that walks the graph, and its pages.  A row of the
    recursive query carries the path it walked, so a level of rows is all simple
    paths of one length. *)

From S2P Require Import Prelude.
From S2P Require Import PyDecimal.
From S2P Require Import Sha256.
From S2P Require Import Json.
From S2P Require Import JsonLoads.
From S2P Require Import Symbolic.
From S2P Require Import ConsensusPorts.
From S2P Require Import Ledger.
From S2P Require Import Cursor.

Module Graph.

(** ** Values *)

(** [app/domain/reasoning.py] *)
Inductive ArtifactKind : Type :=
| CLAIM | FACT | ASSUMPTION | INFERENCE | PROPOSITION | EVIDENCE | UNCERTAINTY | RISK | IMPACT | OBJECTIVE
| CONSTRAINT | ALTERNATIVE | POSITION | CRITIQUE.

Inductive GraphEdgeType : Type :=
| SUPPORTS | OPPOSES | CONTRADICTS | DERIVED_FROM | BASED_ON_ASSUMPTION | FORMALIZES | QUANTIFIES | IMPACTS
| CONSTRAINS | VIOLATES | SATISFIES | INFEASIBLE_UNKNOWN | ATTACKS | RESPONDS_TO | SUPERSEDES | ADVOCATES.

#[global] Instance ArtifactKind_eq_dec : EqDecision ArtifactKind.
Proof. solve_decision. Defined.
#[global] Instance GraphEdgeType_eq_dec : EqDecision GraphEdgeType.
Proof. solve_decision. Defined.

Definition edge_type_value (t : GraphEdgeType) : string :=
  match t with
  | SUPPORTS => "SUPPORTS" | OPPOSES => "OPPOSES" | CONTRADICTS => "CONTRADICTS" | DERIVED_FROM => "DERIVED_FROM"
  | BASED_ON_ASSUMPTION => "BASED_ON_ASSUMPTION" | FORMALIZES => "FORMALIZES" | QUANTIFIES => "QUANTIFIES"
  | IMPACTS => "IMPACTS" | CONSTRAINS => "CONSTRAINS" | VIOLATES => "VIOLATES" | SATISFIES => "SATISFIES"
  | INFEASIBLE_UNKNOWN => "INFEASIBLE_UNKNOWN" | ATTACKS => "ATTACKS" | RESPONDS_TO => "RESPONDS_TO"
  | SUPERSEDES => "SUPERSEDES" | ADVOCATES => "ADVOCATES"
  end.

Record GraphNode : Type := mkNode {
  gn_id : uuid;
  gn_workspace_id : uuid;
  gn_session_id : uuid;
  gn_kind : ArtifactKind;
  gn_ref_id : uuid;
  gn_label : string;
  gn_attrs : dict string json
}.

(** A weight is the decimal its [float] prints as. *)
Record GraphEdge : Type := mkEdge {
  ge_id : uuid;
  ge_workspace_id : uuid;
  ge_session_id : uuid;
  ge_from_node : uuid;
  ge_to_node : uuid;
  ge_edge_type : GraphEdgeType;
  ge_weight : option dec;
  ge_qualifier : dict string json;
  ge_actor_class : ActorClass;
  ge_actor_id : uuid
}.

Record TraversalResult : Type := mkTraversal {
  tv_nodes : list GraphNode;
  tv_edges : list GraphEdge;
  tv_truncated : bool;
  tv_next_cursor : option string
}.

(** [_json_object] *)
Definition _json_object (value : dict string json) : res unit := _ ← canonical_json (JObj value); Ok tt.

Definition new_node (n : GraphNode) : res GraphNode :=
  validated "GraphNode"
    (_ ← guard_not (negb (filled (gn_label n)) || blank (gn_label n)) ValueErrorC "label must not be blank";
     _ ← _json_object (gn_attrs n);
     Ok n).

Definition weight_ok (w : option dec) : bool :=
  match w with Some d => dleb dzero d && dleb d dunit | None => true end.

Definition new_edge (e : GraphEdge) : res GraphEdge :=
  validated "GraphEdge"
    (_ ← guard_not (negb (weight_ok (ge_weight e))) ValueErrorC "weight";
     _ ← _json_object (ge_qualifier e);
     _ ← guard_not (bool_decide (ge_from_node e = ge_to_node e)) ValueErrorC "graph edges cannot be self-loops";
     Ok e).

(** ** Tables *)

Record graph : Type := mkGraph { gd_nodes : list GraphNode; gd_edges : list GraphEdge }.

(** A value stored in a [NUMERIC(6, 5)] column: five places, ties away from zero. *)
Definition numeric_5 (d : dec) : dec :=
  if (-5 <=? d_exp d)%Z then d
  else let k := (10 ^ (-5 - d_exp d))%Z in
       Dec (d_neg d) (Z.to_N ((2 * Z.of_N (d_coef d) + k) / (2 * k))) (-5).

Definition stored_edge (e : GraphEdge) : GraphEdge :=
  mkEdge (ge_id e) (ge_workspace_id e) (ge_session_id e) (ge_from_node e) (ge_to_node e) (ge_edge_type e)
    (numeric_5 <$> ge_weight e) (ge_qualifier e) (ge_actor_class e) (ge_actor_id e).

(** The primary key and the unique constraints of [graph_nodes]. *)
Definition node_conflict (n m : GraphNode) : bool :=
  bool_decide (gn_id m = gn_id n)
  || (bool_decide (gn_session_id m = gn_session_id n) && bool_decide (gn_ref_id m = gn_ref_id n)).

Definition add_node (n : GraphNode) : ST graph unit :=
  g ← get_st;
  _ ← lift_res (guard_not (existsb (node_conflict n) (gd_nodes g)) IntegrityErrorC "graph_nodes");
  put_st (mkGraph (gd_nodes g ++ [n]) (gd_edges g)).

Definition edge_conflict (e f : GraphEdge) : bool :=
  bool_decide (ge_id f = ge_id e)
  || (bool_decide (ge_session_id f = ge_session_id e) && bool_decide (ge_from_node f = ge_from_node e)
      && bool_decide (ge_to_node f = ge_to_node e) && bool_decide (ge_edge_type f = ge_edge_type e)).

Definition add_edge (e : GraphEdge) : ST graph unit :=
  g ← get_st;
  _ ← lift_res (guard_not (existsb (edge_conflict e) (gd_edges g)) IntegrityErrorC "graph_edges");
  put_st (mkGraph (gd_nodes g) (gd_edges g ++ [stored_edge e])).

Definition node_for_artifact (workspace_id session_id artifact_id : uuid) (g : graph) : option GraphNode :=
  List.find (fun n => bool_decide (gn_workspace_id n = workspace_id) && bool_decide (gn_session_id n = session_id)
                      && bool_decide (gn_ref_id n = artifact_id)) (gd_nodes g).

(** ** The recursive query *)

Inductive direction : Type := Backward | Forward | Both.

Definition direction_value (d : direction) : string :=
  match d with Backward => "backward" | Forward => "forward" | Both => "both" end.

Record query : Type := mkQuery {
  qu_direction : direction;
  qu_workspace_id : uuid;
  qu_session_id : uuid;
  qu_root_ids : list uuid;
  qu_max_depth : Z;
  qu_edge_types : option (list GraphEdgeType)
}.

(** The edges the join may use. *)
Definition eligible (q : query) (e : GraphEdge) : bool :=
  bool_decide (ge_workspace_id e = qu_workspace_id q) && bool_decide (ge_session_id e = qu_session_id q)
  && match qu_edge_types q with Some l => bool_decide (ge_edge_type e ∈ l) | None => true end.

(** The join condition and the next node, by direction. *)
Definition next_node (d : direction) (e : GraphEdge) (node : uuid) : option uuid :=
  match d with
  | Backward => if bool_decide (ge_to_node e = node) then Some (ge_from_node e) else None
  | Forward => if bool_decide (ge_from_node e = node) then Some (ge_to_node e) else None
  | Both =>
      if bool_decide (ge_from_node e = node) || bool_decide (ge_to_node e = node)
      then Some (if bool_decide (ge_to_node e = node) then ge_from_node e else ge_to_node e)
      else None
  end.

Record walk_row : Type := mkRow { w_node : uuid; w_depth : nat; w_path : list uuid; w_edge : option uuid }.

(** The non-recursive term, and the recursive one on one row. *)
Definition root_rows (q : query) : list walk_row := map (fun r => mkRow r 0 [r] None) (qu_root_ids q).

Definition extend_row (q : query) (g : graph) (w : walk_row) : list walk_row :=
  omap (fun e => if eligible q e then
                   n ← next_node (qu_direction q) e (w_node w);
                   if bool_decide (n ∈ w_path w) then None
                   else Some (mkRow n (S (w_depth w)) (w_path w ++ [n]) (Some (ge_id e)))
                 else None) (gd_edges g).

(** The rows of one depth, and of all up to [max_depth + 1]. *)
Fixpoint level (q : query) (g : graph) (k : nat) : list walk_row :=
  match k with O => root_rows q | S k' => flat_map (extend_row q g) (level q g k') end.

Definition walk_rows (q : query) (g : graph) : list walk_row :=
  flat_map (level q g) (seq 0 (S (S (Z.to_nat (qu_max_depth q))))).

(** ** One page *)

Definition sorted_ids (l : list uuid) : list uuid := sort_by N.leb (remove_dups l).

(** [_query_fingerprint]: the [json.dumps] of ASCII members is canonical. *)
Definition fingerprint_query (q : query) : json :=
  JObj [("direction", JStr (direction_value (qu_direction q)));
        ("edge_types", match qu_edge_types q with
                       | None => JNull
                       | Some l => JList (map JStr (sort_by String.leb (map edge_type_value l)))
                       end);
        ("max_depth", JInt (qu_max_depth q));
        ("root_ids", JList (map JStr (sort_by String.leb (map uuid_str (qu_root_ids q)))));
        ("session_id", JStr (uuid_str (qu_session_id q)));
        ("workspace_id", JStr (uuid_str (qu_workspace_id q)))].

Definition _query_fingerprint (q : query) : res string :=
  text ← canonical_json (fingerprint_query q); Ok (sha256_hex text).

Definition in_scope (q : query) (workspace_id session_id : uuid) : bool :=
  bool_decide (workspace_id = qu_workspace_id q) && bool_decide (session_id = qu_session_id q).

(** [select(...).where(id.in_(ids)).order_by(id)] *)
Definition node_rows (q : query) (g : graph) (ids : list uuid) : list GraphNode :=
  sort_by (fun a b => (gn_id a <=? gn_id b)%N)
    (List.filter (fun n => in_scope q (gn_workspace_id n) (gn_session_id n) && bool_decide (gn_id n ∈ ids)) (gd_nodes g)).

Definition edge_rows (q : query) (g : graph) (ids : list uuid) : list GraphEdge :=
  sort_by (fun a b => (ge_id a <=? ge_id b)%N)
    (List.filter (fun e => in_scope q (ge_workspace_id e) (ge_session_id e) && bool_decide (ge_id e ∈ ids)) (gd_edges g)).

Definition within_bound (q : query) (g : graph) : list walk_row :=
  List.filter (fun w => (Z.of_nat (w_depth w) <=? qu_max_depth q)%Z) (walk_rows q g).

Definition node_ids (q : query) (g : graph) : list uuid := sorted_ids (map w_node (within_bound q g)).
Definition edge_ids (q : query) (g : graph) : list uuid := sorted_ids (omap w_edge (within_bound q g)).
Definition truncated (q : query) (g : graph) : bool :=
  Nat.ltb (length (within_bound q g)) (length (walk_rows q g)).
Definition member_count (q : query) (g : graph) : Z :=
  (Z.of_nat (length (node_ids q g)) + Z.of_nat (length (edge_ids q g)))%Z.

(** [l[i:j]] for [0 <= i]. *)
Definition slice {A} (i j : Z) (l : list A) : list A := take (Z.to_nat (j - i)) (drop (Z.to_nat i) l).

Definition MAX_ALLOWED_DEPTH : Z := 12.
Definition DEFAULT_MAX_DEPTH : Z := 12.
Definition MAX_SUBGRAPH_DEPTH : Z := 5.
Definition MAX_PAGE_SIZE : Z := 200.

Section pages.
Variable decode_other : list ascii -> res string.

(** [_walk] *)
Definition _walk (q : query) (depth_cap page_size : Z) (cursor : option string) (g : graph) : res TraversalResult :=
  _ ← guard_not (qu_max_depth q <? 0)%Z ValueErrorC "max_depth must not be negative";
  _ ← guard_not (depth_cap <? qu_max_depth q)%Z ValueErrorC ("max_depth must not exceed " +:+ Z_str depth_cap);
  _ ← guard_not ((page_size <? 1)%Z || (MAX_PAGE_SIZE <? page_size)%Z) ValueErrorC "page_size must be between 1 and 200";
  fingerprint ← _query_fingerprint q;
  offset ← _decode_cursor decode_other cursor fingerprint;
  let count := member_count q g in
  let n := Z.of_nat (length (node_ids q g)) in
  _ ← guard_not ((count <? offset)%Z || ((offset =? count)%Z && is_some cursor)) ValueErrorC "invalid traversal cursor";
  let page_end := Z.min (offset + page_size) count in
  next_cursor ← (if (page_end <? count)%Z then Some <$> _encode_cursor page_end fingerprint else Ok None);
  Ok (mkTraversal
        (node_rows q g (slice (Z.min offset n) (Z.min page_end n) (node_ids q g)))
        (edge_rows q g (slice (Z.max 0 (offset - n)) (Z.max 0 (page_end - n)) (edge_ids q g)))
        (truncated q g) next_cursor).

Definition trace_backward (workspace_id session_id node_id : uuid) (max_depth : Z)
    (edge_types : option (list GraphEdgeType)) (page_size : Z) (cursor : option string) (g : graph) : res TraversalResult :=
  _walk (mkQuery Backward workspace_id session_id [node_id] max_depth edge_types) MAX_ALLOWED_DEPTH page_size cursor g.

Definition trace_forward (workspace_id session_id node_id : uuid) (max_depth : Z)
    (edge_types : option (list GraphEdgeType)) (page_size : Z) (cursor : option string) (g : graph) : res TraversalResult :=
  _walk (mkQuery Forward workspace_id session_id [node_id] max_depth edge_types) MAX_ALLOWED_DEPTH page_size cursor g.

Definition subgraph (workspace_id session_id : uuid) (root_ids : list uuid) (max_depth : Z)
    (edge_types : option (list GraphEdgeType)) (page_size : Z) (cursor : option string) (g : graph) : res TraversalResult :=
  _ ← guard_not (bool_decide (root_ids = [])) ValueErrorC "subgraph requires at least one root id";
  _walk (mkQuery Both workspace_id session_id root_ids max_depth edge_types) MAX_SUBGRAPH_DEPTH page_size cursor g.

(** A reader's loop: pages until there is no cursor, each folded into [acc]; the
    fuel is a bound on the pages. *)
Fixpoint follow {A} (step : A -> TraversalResult -> A) (fuel : nat) (q : query) (depth_cap page_size : Z)
    (cursor : option string) (g : graph) (acc : A) : res A :=
  match fuel with
  | O => raise RuntimeErrorC "out of fuel"
  | S fuel' =>
      page ← _walk q depth_cap page_size cursor g;
      match tv_next_cursor page with
      | None => Ok (step acc page)
      | Some c => follow step fuel' q depth_cap page_size (Some c) g (step acc page)
      end
  end.

End pages.
End Graph.
