(* ===== verification/GraphFacts.v ===== *)
(** * The reasoning graph: what a traversal returns

    The recursive query walks simple paths; its members are exactly the nodes
    within the depth bound and the edges on such paths.  Following the cursors
    of a query gives every member once. *)

From S2P Require Import Prelude.
From S2P Require Import PyDecimal.
From S2P Require Import Sha256.
From S2P Require Import Clock.
From S2P Require Import Json.
From S2P Require Import JsonLoads.
From S2P Require Import Symbolic.
From S2P Require Import ConsensusPorts.
From S2P Require Import Ledger.
From S2P Require Import Cursor.
From S2P Require Import ReasoningGraph.
Import Graph.

(** ** Simple paths *)

Section paths.
Variable q : query.
Variable g : graph.

(** One edge the query may use, from [u] to [v]. *)
Definition hop_by (e : GraphEdge) (u v : uuid) : Prop :=
  e ∈ gd_edges g /\ eligible q e = true /\ next_node (qu_direction q) e u = Some v.
Definition hop (u v : uuid) : Prop := exists e, hop_by e u v.

(** A simple path from [r], with all its nodes. *)
Inductive trail (r : uuid) : list uuid -> uuid -> Prop :=
| trail_root : trail r [r] r
| trail_step p u v : trail r p u -> hop u v -> v ∉ p -> trail r (p ++ [v]) v.

Lemma trail_end r p v : trail r p v -> v ∈ p /\ r ∈ p /\ (0 < length p)%nat.
Proof.
  induction 1 as [|p u v _ (_ & Hr & Hp) _ _].
  - split; [left|split; [left|apply Nat.lt_0_succ]].
  - rewrite length_app. split; [set_solver|]. split; [set_solver|cbn; lia].
Qed.

Lemma trail_NoDup r p v : trail r p v -> NoDup p.
Proof.
  induction 1 as [|p u v _ IH _ Hv]; [apply NoDup_singleton|]. apply NoDup_app. split; [done|].
  split; [set_solver|apply NoDup_singleton].
Qed.

(** Every node of a simple path ends a shorter one. *)
Lemma trail_prefix r p u v : trail r p u -> v ∈ p -> exists p', trail r p' v /\ p' `prefix_of` p.
Proof.
  induction 1 as [|p u w Ht IH Hh Hw]; intros Hv.
  - apply list_elem_of_singleton in Hv as ->. exists [r]. split; [constructor|done].
  - apply elem_of_app in Hv as [Hv| ->%list_elem_of_singleton].
    + destruct (IH Hv) as (p' & Hp' & Hpre). exists p'. split; [done|]. etransitivity; [done|by eexists].
    + exists (p ++ [w]). split; [by eapply trail_step|done].
Qed.

(** Its first [n] nodes are one too. *)
Lemma trail_take r p v n : trail r p v -> (0 < n <= length p)%nat -> exists w, trail r (take n p) w.
Proof.
  induction 1 as [|p u w Ht IH Hh Hw]; intros Hn.
  - exists r. destruct n as [|n]; [lia|]. cbn [take]. rewrite take_nil. constructor.
  - rewrite length_app in Hn. cbn in Hn. destruct (decide (n <= length p)%nat) as [Hle|Hgt].
    + rewrite take_app_le by done. apply IH. lia.
    + exists w. rewrite take_ge by (rewrite length_app; cbn; lia). by eapply trail_step.
Qed.

Lemma trail_nsteps r p v : trail r p v -> nsteps hop (pred (length p)) r v.
Proof.
  induction 1 as [|p u w Ht IH Hh Hw]; [constructor|]. rewrite length_app. cbn [length].
  replace (pred (length p + 1)) with (pred (length p) + 1)%nat by (apply trail_end in Ht; lia).
  eapply nsteps_trans; [done|by apply nsteps_once].
Qed.

(** Reaching a node in [k] hops, some simple path of at most [k] hops ends there. *)
Lemma nsteps_trail k r v : nsteps hop k r v -> exists p, trail r p v /\ (length p <= S k)%nat.
Proof.
  revert v; induction k as [|k IH]; intros v Hk.
  - inversion Hk; subst. exists [v]. split; [constructor|done].
  - apply nsteps_inv_r in Hk as (u & Hu & Hh). destruct (IH _ Hu) as (p & Hp & Hl).
    destruct (decide (v ∈ p)) as [Hv|Hv].
    + destruct (trail_prefix _ _ _ _ Hp Hv) as (p' & Hp' & Hpre). exists p'. split; [done|].
      apply prefix_length in Hpre. lia.
    + exists (p ++ [v]). split; [by eapply trail_step|]. rewrite length_app. cbn. lia.
Qed.

Lemma reachable_trail r v : rtc hop r v <-> exists p, trail r p v.
Proof.
  split.
  - intros [k Hk]%rtc_nsteps. destruct (nsteps_trail _ _ _ Hk) as (p & ? & _). by exists p.
  - intros (p & Hp). apply rtc_nsteps. exists (pred (length p)). by apply trail_nsteps.
Qed.

(** ** The rows of the query *)

Lemma extend_row_elem w x :
  x ∈ extend_row q g w <->
  exists e, hop_by e (w_node w) (w_node x) /\ w_node x ∉ w_path w /\
    x = mkRow (w_node x) (S (w_depth w)) (w_path w ++ [w_node x]) (Some (ge_id e)).
Proof.
  unfold extend_row, hop_by. rewrite list_elem_of_omap. split.
  - intros (e & He & Hx). destruct (eligible q e) eqn:Hel; [|done].
    destruct (next_node (qu_direction q) e (w_node w)) as [n|] eqn:Hn; [|done]. cbn in Hx.
    case_bool_decide as Hp; [done|]. injection Hx as <-. exists e. cbn. auto.
  - intros (e & (He & Hel & Hn) & Hp & ->). cbn in *. exists e. split; [done|]. rewrite Hel, Hn. cbn.
    by rewrite bool_decide_false.
Qed.

(** The rows of depth [k] are the simple paths of [k] hops. *)
Lemma level_sound k w :
  w ∈ level q g k -> w_depth w = k /\ length (w_path w) = S k /\
    exists r, r ∈ qu_root_ids q /\ trail r (w_path w) (w_node w).
Proof.
  revert w; induction k as [|k IH]; intros w; cbn [level].
  - unfold root_rows. intros (r & -> & Hr)%list_elem_of_fmap. cbn. split; [done|]. split; [done|].
    exists r. split; [done|constructor].
  - intros (w' & Hin & Hw')%list_elem_of_In%in_flat_map. apply list_elem_of_In in Hin, Hw'.
    destruct (IH _ Hin) as (Hd & Hl & r & Hr & Ht). apply extend_row_elem in Hw' as (e & He & Hp & ->). cbn.
    rewrite length_app, Hl, Hd. split; [done|]. split; [cbn; lia|]. exists r. split; [done|].
    eapply trail_step; [done|by exists e|done].
Qed.

Lemma level_complete r p v :
  r ∈ qu_root_ids q -> trail r p v -> exists w, w ∈ level q g (pred (length p)) /\ w_node w = v /\ w_path w = p.
Proof.
  intros Hr. induction 1 as [|p u w Ht (x & Hx & Hn & Hpx) (e & He) Hw].
  - exists (mkRow r 0 [r] None). split; [|done]. cbn. apply list_elem_of_fmap. eauto.
  - rewrite length_app. cbn [length]. replace (pred (length p + 1)) with (S (pred (length p))) by (apply trail_end in Ht; lia).
    exists (mkRow w (S (w_depth x)) (p ++ [w]) (Some (ge_id e))). split; [|done]. cbn [level].
    apply list_elem_of_In, in_flat_map. exists x. split; [by apply list_elem_of_In|]. apply list_elem_of_In, extend_row_elem.
    exists e. cbn. subst. auto.
Qed.

Lemma level_edge k w e_id :
  w ∈ level q g k -> w_edge w = Some e_id ->
  exists e r p u, ge_id e = e_id /\ r ∈ qu_root_ids q /\ trail r p u /\ length p = k /\ hop_by e u (w_node w) /\ w_node w ∉ p.
Proof.
  destruct k as [|k]; cbn [level].
  - unfold root_rows. by intros (r & -> & Hr)%list_elem_of_fmap.
  - intros (w' & Hin & Hw')%list_elem_of_In%in_flat_map. apply list_elem_of_In in Hin, Hw'.
    destruct (level_sound _ _ Hin) as (Hd & Hl & r & Hr & Ht). apply extend_row_elem in Hw' as (e & He & Hp & Hx).
    rewrite Hx. cbn. intros [= <-]. exists e, r, (w_path w'), (w_node w'). auto 10.
Qed.

Lemma walk_rows_elem w : w ∈ walk_rows q g <-> exists k, (k <= S (Z.to_nat (qu_max_depth q)))%nat /\ w ∈ level q g k.
Proof.
  unfold walk_rows. rewrite list_elem_of_In, in_flat_map. split.
  - intros (k & Hk%in_seq & Hw). exists k. split; [lia|by apply list_elem_of_In].
  - intros (k & Hk & Hw). exists k. split; [apply in_seq; lia|by apply list_elem_of_In].
Qed.

Hypothesis Hdepth : (0 <= qu_max_depth q)%Z.

Lemma within_bound_elem w :
  w ∈ within_bound q g <-> exists k, (k <= Z.to_nat (qu_max_depth q))%nat /\ w ∈ level q g k.
Proof.
  unfold within_bound. rewrite list_elem_of_In, filter_In, <- list_elem_of_In, walk_rows_elem, Z.leb_le. split.
  - intros [(k & Hk & Hw) Hd]. exists k. destruct (level_sound _ _ Hw) as (<- & _). split; [lia|done].
  - intros (k & Hk & Hw). split; [exists k; split; [lia|done]|]. destruct (level_sound _ _ Hw) as (-> & _). lia.
Qed.

Lemma sorted_ids_elem l x : x ∈ sorted_ids l <-> x ∈ l.
Proof. unfold sorted_ids. by rewrite sort_by_elem, elem_of_remove_dups. Qed.

(** The nodes of a traversal. *)
Lemma node_ids_elem v :
  v ∈ node_ids q g <-> exists r k, r ∈ qu_root_ids q /\ (k <= Z.to_nat (qu_max_depth q))%nat /\ nsteps hop k r v.
Proof.
  unfold node_ids. rewrite sorted_ids_elem, list_elem_of_fmap. split.
  - intros (w & -> & (k & Hk & Hw)%within_bound_elem). destruct (level_sound _ _ Hw) as (_ & Hl & r & Hr & Ht).
    exists r, k. split; [done|]. split; [done|]. apply trail_nsteps in Ht. by rewrite Hl in Ht.
  - intros (r & k & Hr & Hk & Hs). destruct (nsteps_trail _ _ _ Hs) as (p & Hp & Hl).
    destruct (level_complete _ _ _ Hr Hp) as (w & Hw & <- & _). exists w. split; [done|].
    apply within_bound_elem. exists (pred (length p)). split; [lia|done].
Qed.

(** The edges of a traversal: those that extend a simple path within the bound. *)
Lemma edge_ids_elem x :
  x ∈ edge_ids q g <-> exists e r p u v, ge_id e = x /\ r ∈ qu_root_ids q /\ trail r p u /\
    (length p <= Z.to_nat (qu_max_depth q))%nat /\ hop_by e u v /\ v ∉ p.
Proof.
  unfold edge_ids. rewrite sorted_ids_elem, list_elem_of_omap. split.
  - intros (w & (k & Hk & Hw)%within_bound_elem & He). destruct (level_edge _ _ _ Hw He) as (e & r & p & u & ? & ? & ? & ? & ? & ?).
    exists e, r, p, u, (w_node w). split; [done|]. split; [done|]. split; [done|]. split; [lia|done].
  - intros (e & r & p & u & v & <- & Hr & Ht & Hl & He & Hv).
    destruct (level_complete _ _ _ Hr Ht) as (w & Hw & <- & Hp).
    assert (Hpos : (0 < length p)%nat) by apply (trail_end _ _ _ Ht).
    exists (mkRow v (S (w_depth w)) (p ++ [v]) (Some (ge_id e))). split; [|done]. apply within_bound_elem.
    exists (length p). split; [done|]. replace (length p) with (S (pred (length p))) by lia. cbn [level].
    apply list_elem_of_In, in_flat_map. exists w. split; [by apply list_elem_of_In|].
    apply list_elem_of_In, extend_row_elem. exists e. cbn. by rewrite Hp.
Qed.

(** [truncated]: some simple path is longer than the bound. *)
Lemma truncated_iff :
  truncated q g = true <-> exists r p v, r ∈ qu_root_ids q /\ trail r p v /\ length p = S (S (Z.to_nat (qu_max_depth q))).
Proof.
  assert (Hf : forall {A} (f : A -> bool) l, (length (List.filter f l) < length l)%nat <-> exists x, x ∈ l /\ f x = false).
  { intros A f l. induction l as [|x l IH]; cbn; [split; [lia|by intros (x & Hx%not_elem_of_nil & _)]|].
    destruct (f x) eqn:E; cbn; rewrite <- ?Nat.succ_lt_mono.
    - rewrite IH. split; [intros (y & ? & ?); exists y; split; [by right|done]|].
      intros (y & [->|Hy]%elem_of_cons & Hfy); [congruence|by exists y].
    - split; [intros _; exists x; split; [left|done]|intros _]. pose proof (filter_length_le f l). lia. }
  unfold truncated. rewrite Nat.ltb_lt. unfold within_bound. rewrite Hf. split.
  - intros (w & (k & Hk & Hw)%walk_rows_elem & Hd%Z.leb_gt). destruct (level_sound _ _ Hw) as (Hdk & Hl & r & Hr & Ht).
    exists r, (w_path w), (w_node w). split; [done|]. split; [done|]. lia.
  - intros (r & p & v & Hr & Ht & Hl). destruct (level_complete _ _ _ Hr Ht) as (w & Hw & _).
    exists w. rewrite walk_rows_elem. split; [eexists; split; [|done]; lia|]. apply Z.leb_gt.
    destruct (level_sound _ _ Hw) as (-> & _). lia.
Qed.

(** Nothing reachable is hidden by a walk that is not truncated. *)
Lemma untruncated_closure v :
  truncated q g = false -> (v ∈ node_ids q g <-> exists r, r ∈ qu_root_ids q /\ rtc hop r v).
Proof.
  intros Ht. rewrite node_ids_elem. split.
  - intros (r & k & Hr & _ & Hs). exists r. split; [done|]. apply rtc_nsteps. by exists k.
  - intros (r & Hr & (p & Hp)%reachable_trail). exists r, (pred (length p)). split; [done|].
    split; [|by apply trail_nsteps].
    destruct (decide (length p <= S (Z.to_nat (qu_max_depth q)))%nat) as [|Hgt]; [lia|]. exfalso.
    destruct (trail_take _ _ _ (S (S (Z.to_nat (qu_max_depth q)))) Hp) as [w Hw]; [lia|].
    apply not_true_iff_false in Ht. apply Ht, truncated_iff. exists r, (take (S (S (Z.to_nat (qu_max_depth q)))) p), w.
    rewrite length_take. split; [done|]. split; [done|lia].
Qed.

(** A walk is truncated where a simple path as long as the bound goes on. *)
Lemma truncated_past :
  truncated q g = true <-> exists r p u e v, r ∈ qu_root_ids q /\ trail r p u /\
    length p = S (Z.to_nat (qu_max_depth q)) /\ hop_by e u v /\ v ∉ p.
Proof.
  rewrite truncated_iff. split.
  - intros (r & p & v & Hr & Ht & Hl). destruct Ht as [|p u v Ht (e & He) Hv]; [done|].
    rewrite length_app in Hl. cbn [length] in Hl. exists r, p, u, e, v. split; [done|]. split; [done|]. split; [lia|done].
  - intros (r & p & u & e & v & Hr & Ht & Hl & He & Hv). exists r, (p ++ [v]), v. split; [done|].
    split; [eapply trail_step; [done|by exists e|done]|]. rewrite length_app. cbn [length]. lia.
Qed.

(** Nor is an edge of a simple path. *)
Lemma untruncated_edges x :
  truncated q g = false -> (x ∈ edge_ids q g <-> exists e r p u v, ge_id e = x /\ r ∈ qu_root_ids q /\ trail r p u /\
    hop_by e u v /\ v ∉ p).
Proof.
  intros Ht. rewrite edge_ids_elem. split; [naive_solver|]. intros (e & r & p & u & v & Hx & Hr & Hp & He & Hv).
  exists e, r, p, u, v. split_and!; try done.
  destruct (decide (length p <= Z.to_nat (qu_max_depth q))%nat) as [|Hgt]; [done|]. exfalso.
  assert (Hw : trail r (p ++ [v]) v) by (eapply trail_step; [done|by exists e|done]).
  destruct (trail_take _ _ _ (S (S (Z.to_nat (qu_max_depth q)))) Hw) as [w Hw']; [rewrite length_app; cbn [length]; lia|].
  apply not_true_iff_false in Ht. apply Ht, truncated_iff. exists r, (take (S (S (Z.to_nat (qu_max_depth q)))) (p ++ [v])), w.
  split; [done|]. split; [done|]. rewrite length_take, length_app. cbn [length]. lia.
Qed.

End paths.

(** ** Strictly sorted identifiers *)

Lemma sorted_ids_strict l : StronglySorted N.lt (sorted_ids l).
Proof.
  unfold sorted_ids. set (m := remove_dups l).
  assert (Hn : NoDup (sort_by N.leb m)) by (rewrite (sort_by_perm N.leb); apply NoDup_remove_dups).
  assert (Hs : StronglySorted (fun a b => N.leb a b = true) (sort_by N.leb m)).
  { apply sort_by_sorted; [intros x y; rewrite !N.leb_le; lia|intros x y z; rewrite !N.leb_le; lia]. }
  induction Hs as [|x k Hs IH Hx]; [constructor|]. apply NoDup_cons in Hn as [Hxk Hn].
  constructor; [by apply IH|]. rewrite Forall_forall in *. intros y Hy. specialize (Hx y Hy). apply N.leb_le in Hx.
  assert (x <> y) by (intros ->; done). lia.
Qed.

Lemma sorted_split (l l1 l2 : list uuid) x y :
  StronglySorted N.lt l -> l = l1 ++ l2 -> x ∈ l1 -> y ∈ l2 -> (x < y)%N.
Proof.
  intros Hs -> Hx Hy. induction l1 as [|z l1 IH]; [by apply not_elem_of_nil in Hx|].
  cbn in Hs. apply StronglySorted_inv in Hs as [Hs Hz]. apply elem_of_cons in Hx as [->|Hx]; [|by apply IH].
  rewrite Forall_forall in Hz. apply Hz, elem_of_app. by right.
Qed.

(** Rows selected by two sets of keys, the first below the second. *)
Section rows.
Context {A : Type} (key : A -> N).
Let le (a b : A) : bool := (key a <=? key b)%N.

Lemma insert_before x l1 l2 :
  (forall y, y ∈ l2 -> (key x < key y)%N) -> insert_by le x (l1 ++ l2) = insert_by le x l1 ++ l2.
Proof.
  intros H2. induction l1 as [|z l1 IH]; cbn.
  - destruct l2 as [|y l2]; [done|]. cbn. unfold le. rewrite (proj2 (N.leb_le _ _)); [done|].
    specialize (H2 y). pose proof (H2 ltac:(left)). lia.
  - rewrite IH. by destruct (le x z).
Qed.

Lemma insert_after x l1 l2 :
  (forall y, y ∈ l1 -> (key y < key x)%N) -> insert_by le x (l1 ++ l2) = l1 ++ insert_by le x l2.
Proof.
  intros H1. induction l1 as [|z l1 IH]; [done|]. cbn [insert_by app].
  assert (le x z = false) as ->. { apply N.leb_gt, H1. left. }
  rewrite IH; [done|]. intros y Hy. apply H1. by right.
Qed.

Lemma sort_by_cons x l : sort_by le (x :: l) = insert_by le x (sort_by le l).
Proof. done. Qed.

Lemma sort_filter_app (f p1 p2 : A -> bool) t :
  (forall x y, p1 x = true -> p2 y = true -> (key x < key y)%N) ->
  sort_by le (List.filter (fun x => f x && (p1 x || p2 x)) t) =
  sort_by le (List.filter (fun x => f x && p1 x) t) ++ sort_by le (List.filter (fun x => f x && p2 x) t).
Proof.
  intros H. induction t as [|x t IH]; [done|]. cbn [List.filter].
  destruct (f x) eqn:Ef; cbn [andb]; [|done]. destruct (p1 x) eqn:E1, (p2 x) eqn:E2; cbn [orb];
    [by pose proof (N.lt_irrefl _ (H x x E1 E2))| | |done]; rewrite !sort_by_cons, IH.
  - apply insert_before. intros y Hy. apply sort_by_elem, list_elem_of_In, filter_In in Hy as [_ Hy].
    apply andb_true_iff in Hy as [_ Hy]. by apply H.
  - apply insert_after. intros y Hy. apply sort_by_elem, list_elem_of_In, filter_In in Hy as [_ Hy].
    apply andb_true_iff in Hy as [_ Hy]. by apply H.
Qed.

Lemma rows_app (f : A -> bool) (t : list A) (l l1 l2 : list uuid) :
  StronglySorted N.lt l -> l = l1 ++ l2 ->
  sort_by le (List.filter (fun x => f x && bool_decide (key x ∈ l)) t) =
  sort_by le (List.filter (fun x => f x && bool_decide (key x ∈ l1)) t)
  ++ sort_by le (List.filter (fun x => f x && bool_decide (key x ∈ l2)) t).
Proof.
  intros Hs Hl. rewrite <- sort_filter_app.
  - f_equal. apply filter_ext. intros x. f_equal. rewrite <- bool_decide_or. apply bool_decide_ext.
    by rewrite Hl, elem_of_app.
  - intros x y Hx%bool_decide_eq_true Hy%bool_decide_eq_true. by eapply sorted_split.
Qed.

Lemma rows_length (f : A -> bool) (t : list A) (l : list uuid) :
  NoDup (map key t) -> (length (sort_by le (List.filter (fun x => f x && bool_decide (key x ∈ l)) t)) <= length l)%nat.
Proof.
  intros Hn. rewrite sort_by_length, <- (length_map key). apply submseteq_length, NoDup_submseteq.
  - induction t as [|x t IH]; [constructor|]. cbn [map] in Hn. apply NoDup_cons in Hn as [Hx Hn]. cbn [List.filter].
    destruct (_ && _); [|by apply IH]. cbn [map]. apply NoDup_cons. split; [|by apply IH].
    intros (y & Hy & Hin)%list_elem_of_In%in_map_iff. apply filter_In in Hin as [Hin _]. apply Hx.
    rewrite <- Hy. apply list_elem_of_In, in_map_iff. by exists y.
  - intros k (y & <- & Hin)%list_elem_of_In%in_map_iff. apply filter_In in Hin as [_ Hin].
    apply andb_true_iff in Hin as [_ Hin]. by apply bool_decide_eq_true in Hin.
Qed.

End rows.

(** ** Pages *)

Lemma node_rows_app q g l l1 l2 :
  StronglySorted N.lt l -> l = l1 ++ l2 -> node_rows q g l = node_rows q g l1 ++ node_rows q g l2.
Proof. intros Hs Hl. apply (rows_app gn_id (fun n => in_scope q (gn_workspace_id n) (gn_session_id n)) _ l l1 l2 Hs Hl). Qed.

Lemma edge_rows_app q g l l1 l2 :
  StronglySorted N.lt l -> l = l1 ++ l2 -> edge_rows q g l = edge_rows q g l1 ++ edge_rows q g l2.
Proof. intros Hs Hl. apply (rows_app ge_id (fun e => in_scope q (ge_workspace_id e) (ge_session_id e)) _ l l1 l2 Hs Hl). Qed.

Lemma double_nil {A} (l : list A) : l = l ++ l -> l = [].
Proof. intros H. apply (f_equal length) in H. rewrite length_app in H. by destruct l; [|cbn in H; lia]. Qed.

Lemma no_node_rows q g : node_rows q g [] = [].
Proof. apply double_nil, node_rows_app; [constructor|done]. Qed.

Lemma no_edge_rows q g : edge_rows q g [] = [].
Proof. apply double_nil, edge_rows_app; [constructor|done]. Qed.

Lemma slice_app {A} (a b : Z) (l : list A) :
  (0 <= a <= b)%Z -> slice a (Z.of_nat (length l)) l = slice a b l ++ slice b (Z.of_nat (length l)) l.
Proof.
  intros Hab. unfold slice. set (n := Z.of_nat (length l)).
  rewrite (take_ge (drop (Z.to_nat a) l)) by (rewrite length_drop; lia).
  rewrite (take_ge (drop (Z.to_nat b) l)) by (rewrite length_drop; lia).
  replace (drop (Z.to_nat b) l) with (drop (Z.to_nat (b - a)) (drop (Z.to_nat a) l))
    by (rewrite drop_drop; f_equal; lia).
  by rewrite take_drop.
Qed.

Lemma slice_all {A} (l : list A) : slice 0 (Z.of_nat (length l)) l = l.
Proof. unfold slice. cbn [Z.to_nat drop]. rewrite drop_0. apply take_ge. lia. Qed.

Lemma slice_empty {A} (a b : Z) (l : list A) : (b <= a)%Z -> slice a b l = [].
Proof. intros Hab. unfold slice. replace (Z.to_nat (b - a)) with 0%nat by lia. by rewrite take_0. Qed.

Lemma slice_length {A} (a b : Z) (l : list A) : (0 <= a <= b)%Z -> (Z.of_nat (length (slice a b l)) <= b - a)%Z.
Proof. intros Hab. unfold slice. rewrite length_take. lia. Qed.

Lemma slice_sorted a b l : StronglySorted N.lt l -> StronglySorted N.lt (slice a b l).
Proof.
  intros Hs. unfold slice. rewrite <- (take_drop (Z.to_nat a) l) in Hs.
  assert (Hl : StronglySorted N.lt (drop (Z.to_nat a) l)).
  { induction (take (Z.to_nat a) l) as [|x m IH]; [done|]. cbn in Hs. by apply StronglySorted_inv in Hs as [Hs _]; apply IH. }
  clear Hs. revert Hl. generalize (drop (Z.to_nat a) l) as m, (Z.to_nat (b - a)) as k.
  intros m k Hl. revert k. induction Hl as [|x m Hm IH Hx]; intros [|k]; cbn; [constructor..|].
  constructor; [by apply IH|]. by apply Forall_take.
Qed.

Lemma fingerprint_ok q :
  exists fp, _query_fingerprint q = Ok fp /\ forallb ascii_char (chars fp) = true.
Proof.
  unfold _query_fingerprint. destruct (canonical_json_total (fingerprint_query q)) as (s & -> & _).
  { unfold fingerprint_query. cbn [float_free forallb snd]. destruct (qu_edge_types q); cbn [float_free andb];
      rewrite ?andb_true_r; rewrite ?andb_true_iff; repeat split; apply forallb_forall; by intros x (y & <- & _)%in_map_iff. }
  exists (sha256_hex s). split; [done|]. destruct (sha256_hex_shape s) as [_ Hf]. apply forallb_forall.
  rewrite Forall_forall in Hf. intros c Hc%list_elem_of_In%Hf. revert Hc. clear.
  destruct c as [[] [] [] [] [] [] [] []]; intros Hc; try discriminate Hc; reflexivity.
Qed.

Section pages.
Variable decode_other : list ascii -> res string.
Variable q : query.
Variable g : graph.
Variables depth_cap page_size : Z.
Hypothesis Hdepth : (0 <= qu_max_depth q <= depth_cap)%Z.
Hypothesis Hsize : (1 <= page_size <= MAX_PAGE_SIZE)%Z.

Let count := member_count q g.
Let n := Z.of_nat (length (node_ids q g)).
Let m := Z.of_nat (length (edge_ids q g)).

Definition page_at (o : Z) (next : option string) : TraversalResult :=
  mkTraversal
    (node_rows q g (slice (Z.min o n) (Z.min (Z.min (o + page_size) count) n) (node_ids q g)))
    (edge_rows q g (slice (Z.max 0 (o - n)) (Z.max 0 (Z.min (o + page_size) count - n)) (edge_ids q g)))
    (truncated q g) next.

(** A page at the offset its cursor names. *)
Lemma walk_page fp cursor o :
  _query_fingerprint q = Ok fp -> _decode_cursor decode_other cursor fp = Ok o ->
  (0 <= o <= count)%Z -> (o = count -> cursor = None) ->
  _walk decode_other q depth_cap page_size cursor g =
    (next ← (if (Z.min (o + page_size) count <? count)%Z then Some <$> _encode_cursor (Z.min (o + page_size) count) fp
             else Ok None);
     Ok (page_at o next)).
Proof.
  intros Hfp Ho Hb Hn. unfold _walk.
  rewrite (proj2 (Z.ltb_ge _ 0)) by lia. rewrite (proj2 (Z.ltb_ge _ (qu_max_depth q))) by lia.
  rewrite (proj2 (Z.ltb_ge page_size 1)), (proj2 (Z.ltb_ge MAX_PAGE_SIZE _)) by lia. cbn [orb guard_not mbind res_bind].
  rewrite Hfp. cbn [mbind res_bind]. rewrite Ho. cbn [mbind res_bind]. fold count n.
  assert ((count <? o)%Z || (o =? count)%Z && is_some cursor = false) as ->.
  { rewrite (proj2 (Z.ltb_ge _ _)) by lia. cbn [orb]. destruct (Z.eqb_spec o count) as [E|]; [|done]. by rewrite (Hn E). }
  reflexivity.
Qed.

(** What is still to be read from an offset. *)
Definition nodes_from (o : Z) : list GraphNode := node_rows q g (slice (Z.min o n) n (node_ids q g)).
Definition edges_from (o : Z) : list GraphEdge := edge_rows q g (slice (Z.max 0 (o - n)) m (edge_ids q g)).

Lemma page_splits o next :
  (0 <= o <= count)%Z ->
  nodes_from o = tv_nodes (page_at o next) ++ nodes_from (Z.min (o + page_size) count) /\
  edges_from o = tv_edges (page_at o next) ++ edges_from (Z.min (o + page_size) count).
Proof.
  intros Ho. assert (Hc : count = (n + m)%Z) by done. unfold nodes_from, edges_from, page_at. cbn [tv_nodes tv_edges].
  set (o' := Z.min (o + page_size) count). assert (o <= o' <= count)%Z by lia. split.
  - apply node_rows_app; [apply slice_sorted, sorted_ids_strict|]. apply slice_app. lia.
  - apply edge_rows_app; [apply slice_sorted, sorted_ids_strict|]. apply slice_app. lia.
Qed.

Hypothesis Hroom : (count < digit_room)%Z.

Definition good_page (p : TraversalResult) : Prop :=
  (exists o next, (0 <= o <= count)%Z /\ p = page_at o next) /\ tv_truncated p = truncated q g.

Lemma follow_from {A} (step : A -> TraversalResult -> A) fuel fp cursor o acc :
  _query_fingerprint q = Ok fp -> forallb ascii_char (chars fp) = true ->
  _decode_cursor decode_other cursor fp = Ok o -> (0 <= o <= count)%Z -> (o = count -> cursor = None) ->
  (Z.to_nat (count - o) < fuel)%nat ->
  exists pages, follow decode_other step fuel q depth_cap page_size cursor g acc = Ok (foldl step acc pages) /\
    concat (map tv_nodes pages) = nodes_from o /\ concat (map tv_edges pages) = edges_from o /\
    Forall good_page pages /\ pages <> [].
Proof.
  intros Hfp Hasc. revert cursor o acc; induction fuel as [|fuel IH]; intros cursor o acc Ho Hb Hn Hf; [lia|].
  cbn [follow]. rewrite (walk_page fp cursor o) by done.
  destruct (Z.ltb_spec (Z.min (o + page_size) count) count) as [Hlt|Hge].
  - set (o' := Z.min (o + page_size) count) in *.
    pose proof (encode_cursor_total o' fp) as Hok. destruct (_encode_cursor o' fp) as [c|x] eqn:Hc; [|done].
    cbn [fmap res_fmap mbind res_bind tv_next_cursor page_at].
    destruct (IH (Some c) o' (step acc (page_at o (Some c)))) as (pages & Hr & Hns & Hes & Hgp & _).
    + rewrite (cursor_decodes decode_other o' fp c fp); [by rewrite String.eqb_refl|lia| |done|done].
      apply machine_int_readable. lia.
    + lia.
    + lia.
    + lia.
    + exists (page_at o (Some c) :: pages). cbn [foldl map concat].
      destruct (page_splits o (Some c) Hb) as [Hpn Hpe]. fold o' in Hpn, Hpe. rewrite Hns, Hes, Hpn, Hpe.
      split; [exact Hr|]. split; [done|]. split; [done|]. split; [|done]. constructor; [|done].
      split; [by exists o, (Some c)|done].
  - cbn [mbind res_bind page_at tv_next_cursor]. exists [page_at o None]. cbn [foldl map concat].
    rewrite !app_nil_r. destruct (page_splits o None Hb) as [Hpn Hpe].
    replace (Z.min (o + page_size) count) with count in Hpn, Hpe by lia.
    assert (Hc : count = (n + m)%Z) by done.
    assert (nodes_from count = []) as Hn0 by (unfold nodes_from; rewrite slice_empty by lia; apply no_node_rows).
    assert (edges_from count = []) as He0 by (unfold edges_from; rewrite slice_empty by lia; apply no_edge_rows).
    rewrite Hn0, app_nil_r in Hpn. rewrite He0, app_nil_r in Hpe. rewrite Hpn, Hpe.
    split; [done|]. split; [done|]. split; [done|]. split; [|done]. constructor; [|done]. split; [by exists o, None|done].
Qed.

End pages.

(** ** What traversals guarantee *)

(** C28. A traversal is exact within its depth: its nodes are those some root reaches
    in at most [max_depth] hops over edges of the session and the given types,
    its edges those that extend a simple path from a root within the bound (an
    edge that only closes a cycle extends none).  When it is not reported as
    truncated, nothing is missing: its nodes are all that a root reaches at any
    distance, its edges all that extend a simple path of any length; and when it
    is, some simple path has reached the bound with a neighbour not yet on it. *)
Theorem traversal_is_exact q g (Hd : (0 <= qu_max_depth q)%Z) :
  (forall v, v ∈ node_ids q g <->
     exists r k, r ∈ qu_root_ids q /\ (k <= Z.to_nat (qu_max_depth q))%nat /\ nsteps (hop q g) k r v) /\
  (forall x, x ∈ edge_ids q g <->
     exists e r p u v, ge_id e = x /\ r ∈ qu_root_ids q /\ trail q g r p u /\
       (length p <= Z.to_nat (qu_max_depth q))%nat /\ hop_by q g e u v /\ v ∉ p) /\
  (truncated q g = false ->
     (forall v, v ∈ node_ids q g <-> exists r, r ∈ qu_root_ids q /\ rtc (hop q g) r v) /\
     (forall x, x ∈ edge_ids q g <->
        exists e r p u v, ge_id e = x /\ r ∈ qu_root_ids q /\ trail q g r p u /\ hop_by q g e u v /\ v ∉ p)) /\
  (truncated q g = true ->
     exists r p u e v, r ∈ qu_root_ids q /\ trail q g r p u /\ length p = S (Z.to_nat (qu_max_depth q)) /\
       hop_by q g e u v /\ v ∉ p).
Proof.
  split; [intros v; by apply node_ids_elem|]. split; [intros x; by apply edge_ids_elem|]. split.
  - intros Ht. split; [intros v; by apply untruncated_closure|intros x; by apply untruncated_edges].
  - by apply truncated_past.
Qed.

(** The tables' primary keys. *)
Definition keys_ok (g : graph) : Prop := NoDup (map gn_id (gd_nodes g)) /\ NoDup (map ge_id (gd_edges g)).

Lemma page_size_bound q g page_size o next :
  keys_ok g -> (1 <= page_size)%Z -> (0 <= o <= member_count q g)%Z ->
  let p := page_at q g page_size o next in
  (Z.of_nat (length (tv_nodes p)) + Z.of_nat (length (tv_edges p)) <= page_size)%Z.
Proof.
  intros [Hkn Hke] Hs Ho. unfold page_at. cbn [tv_nodes tv_edges].
  set (n := Z.of_nat (length (node_ids q g))). set (o' := Z.min (o + page_size) (member_count q g)).
  assert (Ho' : (o <= o' <= o + page_size)%Z) by (unfold o'; lia).
  assert (Hn0 : (0 <= n)%Z) by (unfold n; lia).
  pose proof (rows_length gn_id (fun n => in_scope q (gn_workspace_id n) (gn_session_id n)) (gd_nodes g)
                (slice (Z.min o n) (Z.min o' n) (node_ids q g)) Hkn) as H1.
  pose proof (rows_length ge_id (fun e => in_scope q (ge_workspace_id e) (ge_session_id e)) (gd_edges g)
                (slice (Z.max 0 (o - n)) (Z.max 0 (o' - n)) (edge_ids q g)) Hke) as H2.
  pose proof (slice_length (Z.min o n) (Z.min o' n) (node_ids q g) ltac:(lia)) as H3.
  pose proof (slice_length (Z.max 0 (o - n)) (Z.max 0 (o' - n)) (edge_ids q g) ltac:(lia)) as H4.
  unfold node_rows, edge_rows. lia.
Qed.

(** C29. Paging loses and repeats nothing: following the cursors of a traversal from
    its first page ends, and the pages together hold every node row of its
    members in order of id, then every edge row, each once; no page is larger
    than the page size and all agree on [truncated]. *)
Theorem pages_cover_traversal decode_other q g depth_cap page_size fuel
    (Hk : keys_ok g) (Hd : (0 <= qu_max_depth q <= depth_cap)%Z) (Hs : (1 <= page_size <= MAX_PAGE_SIZE)%Z)
    (Hr : (member_count q g < digit_room)%Z) (Hf : (member_count q g < Z.of_nat fuel)%Z) :
  exists pages,
    follow decode_other (fun l p => l ++ [p]) fuel q depth_cap page_size None g [] = Ok pages /\
    concat (map tv_nodes pages) = node_rows q g (node_ids q g) /\
    concat (map tv_edges pages) = edge_rows q g (edge_ids q g) /\
    Forall (fun p => tv_truncated p = truncated q g /\
                     (Z.of_nat (length (tv_nodes p)) + Z.of_nat (length (tv_edges p)) <= page_size)%Z) pages.
Proof.
  destruct (fingerprint_ok q) as (fp & Hfp & Hasc).
  assert (Hc : (0 <= member_count q g)%Z) by (unfold member_count; lia).
  destruct (follow_from decode_other q g depth_cap page_size Hd Hs Hr (fun l p => l ++ [p]) fuel fp None 0 []
              Hfp Hasc eq_refl) as (pages & Hp & Hn & He & Hg & _); [lia|done|lia|].
  exists pages. replace pages with (foldl (fun l p => l ++ [p]) [] pages) at 1.
  2: { enough (Hgen : forall l, foldl (fun l p => l ++ [p]) l pages = l ++ pages) by apply (Hgen []). clear.
       induction pages as [|p pages IH]; intros l; cbn; [by rewrite app_nil_r|]. by rewrite IH, <- app_assoc. }
  split; [done|]. rewrite Hn, He. unfold nodes_from, edges_from.
  rewrite (Z.min_l 0) by lia. rewrite (Z.max_l 0 (0 - _)) by lia. rewrite !slice_all. split; [done|]. split; [done|].
  eapply Forall_impl; [exact Hg|]. intros p [(o & next & Ho & ->) Ht]. split; [done|].
  apply page_size_bound; [done|lia|done].
Qed.

(** ** Cursors belong to their query *)

Lemma fingerprint_norm q : json_norm (fingerprint_query q) = fingerprint_query q.
Proof.
  assert (Hl : forall l, map json_norm (map JStr l) = map JStr l) by (intros l; rewrite map_map; by apply map_ext).
  unfold fingerprint_query. cbn [json_norm map fst snd]. rewrite Hl.
  destruct (qu_edge_types q); cbn [json_norm]; rewrite ?Hl; reflexivity.
Qed.

Lemma direction_value_inj d d' : direction_value d = direction_value d' -> d = d'.
Proof. by destruct d, d'. Qed.

Lemma edge_type_value_inj t t' : edge_type_value t = edge_type_value t' -> t = t'.
Proof. destruct t, t'; intros H; try reflexivity; discriminate H. Qed.

(** Queries that differ at most in the order of their roots and types. *)
Definition same_query (q q' : query) : Prop :=
  qu_direction q = qu_direction q' /\ qu_workspace_id q = qu_workspace_id q' /\ qu_session_id q = qu_session_id q' /\
  qu_root_ids q ≡ₚ qu_root_ids q' /\ qu_max_depth q = qu_max_depth q' /\
  match qu_edge_types q, qu_edge_types q' with
  | Some l, Some l' => l ≡ₚ l'
  | None, None => True
  | _, _ => False
  end.

Lemma sorted_map_perm {A} (f : A -> string) l l' :
  (forall x y, x ∈ l -> y ∈ l' -> f x = f y -> x = y) ->
  map JStr (sort_by String.leb (map f l)) = map JStr (sort_by String.leb (map f l')) -> l ≡ₚ l'.
Proof.
  intros Hinj H. apply (f_equal (map (fun j => match j with JStr s => s | _ => "" end))) in H.
  rewrite !map_map, !map_id in H. assert (Hp : map f l ≡ₚ map f l').
  { rewrite <- (sort_by_perm String.leb (map f l)), H. apply sort_by_perm. }
  clear H. revert l' Hinj Hp. induction l as [|x l IH]; intros l' Hinj Hp.
  - apply Permutation_nil in Hp. by destruct l'.
  - cbn in Hp. assert (Hx : f x ∈ map f l') by (rewrite <- Hp; left).
    apply list_elem_of_In, in_map_iff in Hx as (y & Hy & Hin%list_elem_of_In).
    assert (x = y) as <- by (apply Hinj; [left|done|done]).
    apply elem_of_Permutation in Hin as [m Hm]. rewrite Hm in Hp |- *. cbn in Hp. apply Permutation_cons_inv in Hp.
    constructor. apply IH; [|done]. intros a b Ha Hb. apply Hinj; [by right|rewrite Hm; by right].
Qed.

Definition query_ok (q : query) : bool :=
  uuid_ok (qu_workspace_id q) && uuid_ok (qu_session_id q) && forallb uuid_ok (qu_root_ids q).

(** Stated on variables: the texts themselves are never evaluated. *)
Lemma members_inj a b c d e f a' b' c' d' e' f' :
  JObj [("direction", a); ("edge_types", b); ("max_depth", c); ("root_ids", d); ("session_id", e); ("workspace_id", f)]
  = JObj [("direction", a'); ("edge_types", b'); ("max_depth", c'); ("root_ids", d'); ("session_id", e'); ("workspace_id", f')] ->
  a = a' /\ b = b' /\ c = c' /\ d = d' /\ e = e' /\ f = f'.
Proof. by intros [= -> -> -> -> -> ->]. Qed.

Lemma jstr_inj s t : JStr s = JStr t -> s = t.
Proof. by intros [= ->]. Qed.

Lemma fingerprint_query_inj q q' :
  query_ok q = true -> query_ok q' = true -> fingerprint_query q = fingerprint_query q' -> same_query q q'.
Proof.
  unfold query_ok. rewrite !andb_true_iff. intros [[Hw Hs] Hr] [[Hw' Hs'] Hr'] H.
  rewrite forallb_forall in Hr, Hr'. apply members_inj in H as (Hdir%jstr_inj & Hty & [= Hdep] & [= Hroots] & Hsid%jstr_inj & Hwid%jstr_inj).
  split; [by apply direction_value_inj|]. split; [by apply uuid_str_inj|]. split; [by apply uuid_str_inj|].
  split; [|split; [done|]].
  - apply (sorted_map_perm uuid_str); [|done]. intros x y Hx Hy. apply uuid_str_inj; [apply Hr|apply Hr'];
      by apply list_elem_of_In.
  - destruct (qu_edge_types q), (qu_edge_types q'); try done. injection Hty as Hty.
    apply (sorted_map_perm edge_type_value); [|done]. intros x y _ _. apply edge_type_value_inj.
Qed.

(** A cursor continues only the query it was issued for: when a page of [q']
    accepts the cursor of a page of [q], the two queries have the same direction,
    tenant, session, roots, depth and edge types, or their two texts are a
    collision of SHA-256. *)
Theorem cursors_are_bound decode_other q q' g g' cap size cap' size' cursor c page page'
    (Hq : query_ok q = true) (Hq' : query_ok q' = true) (Hr : (member_count q g < digit_room)%Z)
    (H : _walk decode_other q cap size cursor g = Ok page) (Hc : tv_next_cursor page = Some c)
    (H' : _walk decode_other q' cap' size' (Some c) g' = Ok page') :
  same_query q q' \/ collide (fingerprint_query q) (fingerprint_query q').
Proof.
  unfold _walk in H. apply guard_bind in H as [_ [_ [Hsz H]%guard_bind]%guard_bind].
  apply bind_Ok in H as (fp & Hfp & (o & Ho & [_ H]%guard_bind)%bind_Ok). apply bind_Ok in H as (next & Hnext & [= <-]).
  cbn [tv_next_cursor] in Hc. subst next. destruct (Z.ltb_spec (Z.min (o + size) (member_count q g)) (member_count q g));
    [|done]. apply fmap_Ok in Hnext as (c' & Hc & [= <-]).
  unfold _walk in H'. apply guard_bind in H' as [_ [_ [_ H']%guard_bind]%guard_bind].
  apply bind_Ok in H' as (fp' & Hfp' & (o' & Ho' & _)%bind_Ok).
  assert (Hasc : forallb ascii_char (chars fp) = true).
  { destruct (fingerprint_ok q) as (f & Hf & ?). by replace fp with f by congruence. }
  assert (Hpos : (0 <= o)%Z).
  { destruct cursor as [c0|]; cbn [_decode_cursor] in Ho; [|by injection Ho as <-].
    repeat (case_match; try discriminate Ho). injection Ho as <-. by apply Z.ltb_ge. }
  apply orb_false_iff in Hsz as [Hsz _]. apply Z.ltb_ge in Hsz.
  rewrite (cursor_decodes decode_other (Z.min (o + size) (member_count q g)) fp c fp') in Ho';
    [|unfold member_count in *; lia|apply machine_int_readable; unfold member_count in *; lia|done|done].
  destruct (String.eqb_spec fp fp') as [<-|]; [|done].
  apply bind_Ok in Hfp as (t & Ht & [= Hx]), Hfp' as (t' & Ht' & [= Hx']).
  destruct (decide (t = t')) as [<-|Hne].
  - left. apply fingerprint_query_inj; [done..|]. rewrite <- (fingerprint_norm q), <- (fingerprint_norm q').
    by eapply canonical_json_inj.
  - right. exists t, t'. split; [done|]. split; [done|]. split; [done|congruence].
Qed.
