(* ===== verification/DecimalText.v ===== *)
(** * Decimal texts

    [app/domain/reasoning.py]: the patterns of [DecimalString] and
    [UnitDecimalString] and the normaliser [_decimal], whose [\d] is a digit of any
    script.  The lemmas give the shape of such a text, the number it denotes, and
    that the normalised text is the only one of its number in ASCII. *)

From S2P Require Import Prelude.
From S2P Require Import PyDecimal.
From S2P Require Import Json.
From S2P Require Import Symbolic.

(** The longest prefix satisfying [f], and the rest. *)
Fixpoint span (f : ascii -> bool) (l : list ascii) : list ascii * list ascii :=
  match l with
  | c :: l' => if f c then let '(a, b) := span f l' in (c :: a, b) else ([], l)
  | [] => ([], [])
  end.

(** Digits without a leading zero, and an optional fraction. *)
Definition int_part (l : list ascii) : bool :=
  match l with
  | [] => false
  | [_] => true
  | c :: _ => negb (Ascii.eqb c "0"%char)
  end.
Definition frac_part (digit : ascii -> bool) (l : list ascii) : bool :=
  match l with
  | [] => true
  | c :: f => Ascii.eqb c "."%char && nonempty f && forallb digit f
  end.

Definition minus_of (l : list ascii) : bool * list ascii :=
  match l with
  | c :: l' => if Ascii.eqb c "-"%char then (true, l') else (false, l)
  | [] => (false, [])
  end.

(** The pattern of [DecimalString]: a sign, zero or digits after one that is not
    zero, a fraction.  The first digit is an ASCII one; [\d] is a digit of any
    script, so what follows is read through [ascii_digits]. *)
Definition DecimalString (s : string) : bool :=
  match snd (minus_of (chars s)) with
  | c :: r =>
      is_digit c
      && (if Ascii.eqb c "0"%char then frac_part is_digit (ascii_digits r)
          else frac_part is_digit (snd (span is_digit (ascii_digits r))))
  | [] => false
  end.

(** The pattern of [UnitDecimalString]: zero with any sign, a proper fraction, or
    one, on a decimal string.  Its zeros are ASCII, its [\d] digits of any script. *)
Definition UnitDecimalString (s : string) : bool :=
  DecimalString s &&
  let '(neg, l) := minus_of (chars s) in
  match l with
  | c :: r =>
      let zeros := frac_part (fun x => Ascii.eqb x "0"%char) r in
      (Ascii.eqb c "0"%char && (zeros || (negb neg && frac_part is_digit (ascii_digits r))))
      || (Ascii.eqb c "1"%char && negb neg && zeros)
  | [] => false
  end.

(** [s.rstrip(c)] *)
Fixpoint drop_char (c : ascii) (l : list ascii) : list ascii :=
  match l with
  | x :: l' => if Ascii.eqb x c then drop_char c l' else l
  | [] => []
  end.
Definition rstrip (c : ascii) (l : list ascii) : list ascii := rev (drop_char c (rev l)).

Definition _decimal (s : string) : res string :=
  _ ← guard_not (existsb (fun c => Ascii.eqb (lower_char c) "e"%char) (chars s) || negb (DecimalString s)) ValueErrorC
        "must be a plain decimal string without exponent notation";
  let result := if existsb (Ascii.eqb "."%char) (chars s)
                then unchars (rstrip "."%char (rstrip "0"%char (chars s))) else s in
  Ok (if String.eqb result "-0" || String.eqb result "" then "0" else result).

Example _decimal_examples :
  map _decimal ["0.50"; "-0.0"; "12"; "7.00"; "-0"; "-1.250"; "0"]
  = map Ok ["0.5"; "0"; "12"; "7"; "0"; "-1.25"; "0"]
  /\ map (fun s => is_ok (_decimal s)) ["1e3"; ".5"; "1."; "01"; "+1"; ""; " 1"; "1_0"]
     = [false; false; false; false; false; false; false; false]
  /\ map UnitDecimalString ["0.50"; "-0.0"; "1.00"; "0"; "1"; "1.01"; "-0.5"; "2"; "00"; "0."]
     = [true; true; true; true; true; false; false; false; false; false].
Proof. vm_compute. done. Qed.

(** [1] and [0.5], each followed by an Arabic-Indic zero: one number, two normal
    texts. *)
Definition arabic_zero : string := unchars (map ascii_of_nat [217; 160]%nat).
Example other_scripts :
  map _decimal ["1" +:+ arabic_zero; "0.5" +:+ arabic_zero; "0.5" +:+ arabic_zero +:+ "0"; arabic_zero]
  = [Ok ("1" +:+ arabic_zero); Ok ("0.5" +:+ arabic_zero); Ok ("0.5" +:+ arabic_zero);
     raise ValueErrorC "must be a plain decimal string without exponent notation"]
  /\ map dec_of_string ["1" +:+ arabic_zero; "10"; "0.5" +:+ arabic_zero] = [Ok (Dec false 10 0); Ok (Dec false 10 0); Ok (Dec false 50 (-2))]
  /\ map UnitDecimalString ["0.5" +:+ arabic_zero; "1." +:+ arabic_zero; "-0." +:+ arabic_zero] = [true; false; false].
Proof. vm_compute. done. Qed.

(** ** The shape of a decimal text *)

Definition all_digits (l : list ascii) : Prop := Forall (fun c => is_digit c = true) l.

(** Text that reads as digits of some scripts, and the bytes it is made of. *)
Definition digit_text (l : list ascii) : Prop := all_digits (ascii_digits l).
Definition digit_byte (c : ascii) : bool := is_digit c || negb (ascii_char c).
Definition ascii_string (s : string) : bool := forallb ascii_char (chars s).

Lemma all_digits_ascii l : all_digits l -> ascii_digits l = l.
Proof. intros Hl. apply ascii_digits_id. eapply Forall_impl; [exact Hl|exact is_digit_ascii]. Qed.

Lemma digit_text_bytes l : digit_text l -> Forall (fun c => digit_byte c = true) l.
Proof.
  intros Hl. apply Forall_forall. intros c Hc. unfold digit_byte. destruct (ascii_char c) eqn:Ha; [|apply orb_true_r].
  rewrite orb_false_r. unfold digit_text, all_digits in Hl. rewrite Forall_forall in Hl. by apply Hl, ascii_digits_elem.
Qed.

(** An integer part starts with an ASCII digit. *)
Definition leading (l : list ascii) : bool := match l with c :: _ => is_digit c && int_part l | [] => false end.

(** A sign, integer digits and fraction digits, and their spelling. *)
Definition fraction (f : list ascii) : list ascii := match f with [] => [] | _ => "."%char :: f end.
Definition spell (neg : bool) (i f : list ascii) : list ascii :=
  (if neg then ["-"%char] else []) ++ i ++ fraction f.

Lemma forallb_Forall {A} (f : A -> bool) l : forallb f l = true <-> Forall (fun x => f x = true) l.
Proof.
  induction l as [|x l IH]; cbn; [by split|]. by rewrite andb_true_iff, Forall_cons, IH.
Qed.

Record shape (s : string) (neg : bool) (i f : list ascii) : Prop := {
  sh_text : chars s = spell neg i f;
  sh_int : leading i = true;
  sh_i : digit_text i;
  sh_f : digit_text f
}.

Lemma span_spec f l a b :
  span f l = (a, b) -> l = a ++ b /\ Forall (fun c => f c = true) a /\
  match b with [] => True | c :: _ => f c = false end.
Proof.
  revert a b; induction l as [|c l IH]; intros a b; cbn; [by intros [= <- <-]|].
  destruct (f c) eqn:Hc; [|intros [= <- <-]; by rewrite Hc].
  destruct (span f l) as [a' b'] eqn:E. intros [= <- <-]. destruct (IH _ _ eq_refl) as (-> & Ha & Hb).
  split; [done|]. split; [by constructor|done].
Qed.

Lemma span_app f a b :
  Forall (fun c => f c = true) a -> match b with [] => True | c :: _ => f c = false end -> span f (a ++ b) = (a, b).
Proof.
  intros Ha Hb. induction Ha as [|c a Hc Ha IH]; cbn; [|by rewrite Hc, IH].
  destruct b as [|c b]; [done|]. cbn. by rewrite Hb.
Qed.

Lemma minus_of_spec l neg r : minus_of l = (neg, r) -> l = (if neg then ["-"%char] else []) ++ r.
Proof.
  destruct l as [|c l]; cbn; [by intros [= <- <-]|].
  destruct (Ascii.eqb_spec c "-"%char) as [->|]; by intros [= <- <-].
Qed.

Lemma digit_not c x : is_digit c = true -> is_digit x = false -> Ascii.eqb c x = false.
Proof. intros Hc Hx. destruct (Ascii.eqb_spec c x) as [->|]; [congruence|done]. Qed.

Lemma digit_byte_not c x : digit_byte c = true -> digit_byte x = false -> Ascii.eqb c x = false.
Proof. intros Hc Hx. destruct (Ascii.eqb_spec c x) as [->|]; [congruence|done]. Qed.

Lemma leading_cons l : leading l = true -> exists c r, l = c :: r /\ is_digit c = true /\ int_part (c :: r) = true.
Proof. destruct l as [|c r]; [done|]. intros [Hc Hi]%andb_true_iff. eauto. Qed.

Lemma leading_nonempty l : leading l = true -> l <> [].
Proof. by destruct l. Qed.

Lemma minus_of_leading (neg : bool) i r :
  leading i = true -> minus_of ((if neg then ["-"%char] else []) ++ i ++ r) = (neg, i ++ r).
Proof.
  intros (c & l & -> & Hc & _)%leading_cons. destruct neg; cbn; [done|]. by rewrite digit_not.
Qed.

Lemma frac_part_fraction digit r : frac_part digit r = true -> exists f, r = fraction f /\ Forall (fun c => digit c = true) f.
Proof.
  destruct r as [|c f]; cbn; [by exists []|]. intros [[H1 H2]%andb_true_iff H3]%andb_true_iff.
  apply Ascii.eqb_eq in H1 as ->. exists f. split; [by destruct f|]. by apply forallb_Forall.
Qed.

Lemma fraction_frac_part digit f : Forall (fun c => digit c = true) f -> frac_part digit (fraction f) = true.
Proof. intros Hf. destruct f as [|c f]; [done|]. by apply (forallb_Forall digit (c :: f)). Qed.

Lemma fraction_not_digit f : match fraction f with [] => True | c :: _ => is_digit c = false end.
Proof. by destruct f. Qed.

Lemma ascii_digits_fraction i f : ascii_digits (i ++ fraction f) = ascii_digits i ++ fraction (ascii_digits f).
Proof.
  destruct f as [|c f]; [by rewrite !app_nil_r|]. cbn [fraction]. rewrite ascii_digits_sep by done. f_equal.
  by destruct (ascii_digits (c :: f)) eqn:E; [apply ascii_digits_nil in E|].
Qed.

Lemma ascii_digits_spell neg i f : ascii_digits (spell neg i f) = spell neg (ascii_digits i) (ascii_digits f).
Proof.
  unfold spell. rewrite <- ascii_digits_fraction. destruct neg; [|done]. by apply (ascii_digits_cons "-"%char).
Qed.

(** What reads as digits and a fraction is digits and a fraction. *)
Lemma fraction_read r i f :
  ascii_digits r = i ++ fraction f -> exists i' f', r = i' ++ fraction f' /\ ascii_digits i' = i /\ ascii_digits f' = f.
Proof.
  destruct f as [|c f]; cbn [fraction].
  - rewrite app_nil_r. intros Hr. exists r, []. split; [by rewrite app_nil_r|]. by split.
  - intros (l1 & l2 & -> & H1 & H2)%ascii_digits_split; [|done..]. exists l1, l2. split; [|done].
    by destruct l2.
Qed.

Lemma decimal_string_shape s : DecimalString s = true <-> exists neg i f, shape s neg i f.
Proof.
  unfold DecimalString. split.
  - destruct (minus_of (chars s)) as [neg l] eqn:Em. apply minus_of_spec in Em. cbn [snd].
    destruct l as [|c r]; [done|]. intros [Hc H]%andb_true_iff.
    assert (Hr : exists i f, ascii_digits r = i ++ fraction f /\ all_digits i /\ all_digits f /\
                   (Ascii.eqb c "0"%char = true -> i = [])).
    { destruct (Ascii.eqb c "0"%char).
      - apply frac_part_fraction in H as (f & Hr & Hf). exists [], f. split; [done|]. split; [constructor|by split].
      - destruct (span is_digit (ascii_digits r)) as [i q] eqn:Es. apply span_spec in Es as (Hr & Hi & _).
        apply frac_part_fraction in H as (f & Hq & Hf). cbn [snd] in Hq. exists i, f. by rewrite Hr, Hq. }
    destruct Hr as (i & f & Hr & Hi & Hf & Hz). destruct (fraction_read _ _ _ Hr) as (i' & f' & -> & <- & <-).
    exists neg, (c :: i'), f'. split; [done| | |done].
    + cbn [leading]. rewrite Hc. cbn [int_part]. destruct i' as [|d i']; [done|]. apply negb_true_iff, not_true_iff_false.
      intros H0. apply Hz, ascii_digits_nil in H0. done.
    + unfold digit_text. rewrite ascii_digits_cons by by apply is_digit_ascii. by constructor.
  - intros (neg & i & f & [Ht Hp Hi Hf]). rewrite Ht. unfold spell. rewrite minus_of_leading by done. cbn [snd].
    apply leading_cons in Hp as (c & r & -> & Hc & Hp). cbn [app]. rewrite Hc, ascii_digits_fraction. cbn [andb].
    unfold digit_text in Hi. rewrite ascii_digits_cons in Hi by by apply is_digit_ascii. apply Forall_cons in Hi as [_ Hi].
    destruct (Ascii.eqb c "0"%char) eqn:Hz.
    + cbn [int_part] in Hp. destruct r as [|d r]; [|by rewrite Hz in Hp]. by apply fraction_frac_part.
    + rewrite span_app by (try apply fraction_not_digit; done). by apply fraction_frac_part.
Qed.

(** ** The number a text denotes *)

Definition number (neg : bool) (i f : list ascii) : dec :=
  Dec neg (digits_value (ascii_digits i ++ ascii_digits f)) (- Z.of_nat (length (ascii_digits f))).

Lemma drop_spaces_plain l : Forall (fun c => is_space c = false) l -> drop_spaces l = l.
Proof. intros [|c l' Hc _]; [done|]. cbn. by rewrite Hc. Qed.

Lemma strip_plain s : Forall (fun c => is_space c = false) (chars s) -> strip s = s.
Proof.
  intros Hs. unfold strip. rewrite (drop_spaces_plain (chars s)) by done.
  rewrite drop_spaces_plain by by apply Forall_rev. by rewrite rev_involutive, unchars_chars.
Qed.

Lemma take_digits_run ds r acc n :
  all_digits ds -> match r with [] => True | c :: _ => is_digit c = false end ->
  take_digits (ds ++ r) (Z.of_N acc) n
  = (Z.of_N (foldl (fun acc c => 10 * acc + (N.of_nat (nat_of_ascii c) - 48))%N acc ds), (n + Z.of_nat (length ds))%Z, r).
Proof.
  intros Hd Hr. revert acc n. induction Hd as [|c ds Hc Hd IH]; intros acc n; cbn [app take_digits foldl length].
  - rewrite Z.add_0_r. destruct r as [|c r]; [done|]. cbn. by rewrite Hr.
  - rewrite Hc. replace (10 * Z.of_N acc + digit_val c)%Z with (Z.of_N (10 * acc + (N.of_nat (nat_of_ascii c) - 48)))%N.
    + rewrite IH. do 2 f_equal. lia.
    + unfold digit_val. unfold is_digit, char_in in Hc. apply andb_true_iff in Hc as [H1%Nat.leb_le H2%Nat.leb_le]. lia.
Qed.

Lemma digits_value_foldl ds ds' :
  foldl (fun acc c => 10 * acc + (N.of_nat (nat_of_ascii c) - 48))%N (digits_value ds) ds' = digits_value (ds ++ ds').
Proof. unfold digits_value. by rewrite foldl_app. Qed.

Lemma spell_chars (P : ascii -> Prop) neg i f :
  P "-"%char -> P "."%char -> Forall P i -> Forall P f -> Forall P (spell neg i f).
Proof.
  intros Hm Hd Hi Hf. unfold spell. rewrite !Forall_app. split; [destruct neg; repeat constructor; done|].
  split; [done|]. destruct f; [constructor|]. by constructor.
Qed.

Lemma digits_are (P : ascii -> bool) l :
  forallb (fun n => implb (digit_byte (ascii_of_nat n)) (P (ascii_of_nat n))) (seq 0 256) = true ->
  digit_text l -> Forall (fun c => P c = true) l.
Proof.
  intros H Hl%digit_text_bytes. eapply Forall_impl; [exact Hl|]. intros c Hc.
  pose proof (ascii_forall (fun c => implb (digit_byte c) (P c)) H c) as Hp. cbn in Hp. by rewrite Hc in Hp.
Qed.

Lemma take_sign_spell neg i f :
  all_digits i -> i <> [] -> take_sign (spell neg i f) = (neg, i ++ fraction f).
Proof.
  intros Hi Hne. unfold spell. destruct neg; [done|]. cbn [app]. destruct Hi as [|c i Hc Hi]; [done|].
  cbn [app take_sign]. destruct c as [[] [] [] [] [] [] [] []]; try done.
Qed.

Lemma shape_number s neg i f : shape s neg i f -> dec_of_string s = Ok (number neg i f).
Proof.
  intros [Ht Hp Hi Hf]. assert (Hne : ascii_digits i <> []) by (intros ->%ascii_digits_nil; done).
  unfold dec_of_string, number. unfold digit_text in Hi, Hf.
  rewrite strip_plain, Ht, ascii_digits_spell.
  2: { rewrite Ht. apply spell_chars; [done|done| |];
      (eapply Forall_impl; [by apply (digits_are (fun c => negb (is_space c)))|]; intros c; apply negb_true_iff). }
  generalize dependent (ascii_digits i). generalize dependent (ascii_digits f). clear. intros f Hf i Hi Hne.
  rewrite filter_all, take_sign_spell; try done.
  - change 0%Z with (Z.of_N 0) at 1. rewrite (take_digits_run i (fraction f) 0 0) by (try apply fraction_not_digit; done).
    change (foldl (fun acc c => 10 * acc + (N.of_nat (nat_of_ascii c) - 48))%N 0%N i) with (digits_value i).
    destruct i as [|c i]; [done|]. unfold number. destruct f as [|d f]; cbn [fraction].
    + cbn [parse_exponent]. replace (0 <? 0 + Z.of_nat (length (c :: i)) + 0)%Z with true by (symmetry; apply Z.ltb_lt; cbn; lia).
      rewrite N2Z.id, app_nil_r. done.
    + rewrite <- (app_nil_r (d :: f)) at 1. rewrite (take_digits_run (d :: f) [] (digits_value (c :: i)) 0) by done.
      rewrite digits_value_foldl. cbn [parse_exponent].
      replace (0 <? _)%Z with true by (symmetry; apply Z.ltb_lt; cbn; lia). rewrite N2Z.id. done.
  - apply spell_chars; [done|done| |]; apply (digits_are (fun c => negb (Ascii.eqb c "_"%char))); try done;
      unfold digit_text; by rewrite all_digits_ascii.
Qed.

(** ** Normalisation *)

Lemma drop_char_app c a b :
  drop_char c (a ++ b) = match drop_char c a with [] => drop_char c b | r => r ++ b end.
Proof. induction a as [|x a IH]; cbn; [done|]. by destruct (Ascii.eqb x c). Qed.

Lemma rstrip_app c l m : rstrip c (l ++ m) = match rstrip c m with [] => rstrip c l | r => l ++ r end.
Proof.
  unfold rstrip. rewrite rev_app_distr, drop_char_app.
  destruct (drop_char c (rev m)) as [|x r] eqn:E; [done|].
  rewrite rev_app_distr, rev_involutive. destruct (rev (x :: r)) as [|y r'] eqn:E'; [|done].
  apply (f_equal length) in E'. rewrite length_rev in E'. done.
Qed.

Lemma rstrip_keep c l x : Ascii.eqb x c = false -> rstrip c (l ++ [x]) = l ++ [x].
Proof. intros Hx. unfold rstrip. rewrite rev_app_distr. cbn. rewrite Hx. cbn. by rewrite rev_involutive. Qed.

(** What is stripped is a run of [c], and what is left does not end in [c]. *)
Lemma rstrip_spec c l :
  exists k, l = rstrip c l ++ repeat c k /\
  (rstrip c l = [] \/ exists l' x, rstrip c l = l' ++ [x] /\ Ascii.eqb x c = false).
Proof.
  induction l as [|x l IH] using rev_ind; [by exists 0%nat; auto|].
  destruct (Ascii.eqb x c) eqn:Hx.
  - destruct IH as (k & Hl & Hr). exists (S k). rewrite rstrip_app. unfold rstrip at 1 3; cbn. rewrite Hx. cbn.
    split; [|done]. rewrite Hl at 1. apply Ascii.eqb_eq in Hx as ->. rewrite <- app_assoc. f_equal. by rewrite <- repeat_cons.
  - exists 0%nat. rewrite rstrip_keep by done. rewrite app_nil_r. split; [done|]. right. by exists l, x.
Qed.

(** Zeros that are stripped are zeros that were read. *)
Lemma rstrip_read l : exists k, ascii_digits l = ascii_digits (rstrip "0"%char l) ++ repeat "0"%char k.
Proof.
  destruct (rstrip_spec "0"%char l) as (k & He & _). exists k. rewrite He at 1. apply ascii_digits_app_r.
  clear He. induction k; by constructor.
Qed.

Lemma rstrip_digits l : digit_text l -> digit_text (rstrip "0"%char l).
Proof. unfold digit_text. intros Hl. destruct (rstrip_read l) as (k & He). rewrite He in Hl. by apply Forall_app in Hl as [? _]. Qed.

(** Fractions do not end in zero, and zero has no sign. *)
Record canonical (s : string) (neg : bool) (i f : list ascii) : Prop := {
  cn_shape : shape s neg i f;
  cn_frac : rstrip "0"%char f = f;
  cn_zero : neg = true -> ~ (i = ["0"%char] /\ f = [])
}.

Definition negated_zero (neg : bool) (i f : list ascii) : bool := neg && bool_decide (i = ["0"%char] /\ f = []).

Lemma spell_dot neg i f : digit_text i -> digit_text f -> existsb (Ascii.eqb "."%char) (spell neg i f) = nonempty f.
Proof.
  intros Hi Hf. unfold spell. rewrite !existsb_app.
  assert (Hd : forall l, digit_text l -> existsb (Ascii.eqb "."%char) l = false).
  { intros l Hl%digit_text_bytes. induction Hl as [|c l Hc _ IH]; [done|]. cbn [existsb].
    rewrite IH, orb_false_r, Ascii.eqb_sym. by apply digit_byte_not. }
  rewrite (Hd i Hi). destruct neg, f; done.
Qed.

Lemma digits_last_dot i : digit_text i -> i <> [] -> forall l, rstrip "."%char (l ++ i) = l ++ i.
Proof.
  intros Hi%digit_text_bytes Hne l. destruct i as [|x i _] using rev_ind; [done|].
  apply Forall_app in Hi as [_ [Hx _]%Forall_cons]. rewrite app_assoc. apply rstrip_keep. by apply digit_byte_not.
Qed.

Lemma strip_spell neg i f :
  digit_text i -> i <> [] -> digit_text f -> f <> [] ->
  rstrip "."%char (rstrip "0"%char (spell neg i f)) = spell neg i (rstrip "0"%char f).
Proof.
  intros Hi Hne Hf Hnf. unfold spell. set (sg := if neg then ["-"%char] else []).
  assert (Hr : rstrip "0"%char (fraction f) = "."%char :: rstrip "0"%char f).
  { destruct f as [|d f]; [done|]. change (fraction (d :: f)) with (["."%char] ++ d :: f). rewrite rstrip_app.
    by destruct (rstrip "0"%char (d :: f)). }
  rewrite app_assoc, rstrip_app, Hr. pose proof (rstrip_digits f Hf) as Hf'.
  destruct (rstrip "0"%char f) as [|d r] eqn:E.
  - rewrite rstrip_app. cbn [rstrip rev drop_char app Ascii.eqb fraction]. change (rstrip "."%char ["."%char]) with (@nil ascii).
    cbn match. rewrite app_nil_r. by apply digits_last_dot.
  - assert (He : (sg ++ i) ++ "."%char :: d :: r = ((sg ++ i) ++ ["."%char]) ++ d :: r) by by rewrite <- (app_assoc _ ["."%char]).
    rewrite He, digits_last_dot by done. by rewrite <- He, <- app_assoc.
Qed.

Lemma eqb_chars s t : String.eqb s t = bool_decide (chars s = chars t).
Proof.
  destruct (String.eqb_spec s t) as [->|Hne]; [by rewrite bool_decide_true|].
  rewrite bool_decide_false; [done|]. intros He. apply Hne. by rewrite <- (unchars_chars s), He, unchars_chars.
Qed.

Lemma spell_minus_zero neg i f :
  leading i = true -> bool_decide (spell neg i f = ["-"%char; "0"%char]) = negated_zero neg i f.
Proof.
  intros (c & l & -> & Hc & Hp)%leading_cons. unfold negated_zero, spell. destruct neg; cbn [app andb].
  - apply bool_decide_ext. split.
    + intros [= -> He]. destruct l as [|d l]; [by destruct f|]. by cbn in Hp.
    + by intros [[= -> ->] ->].
  - rewrite bool_decide_false; [done|]. by intros [= -> _].
Qed.

(** The text without its trailing zeros and dot. *)
Lemma stripped_text s neg i f :
  shape s neg i f ->
  (if existsb (Ascii.eqb "."%char) (chars s) then unchars (rstrip "."%char (rstrip "0"%char (chars s))) else s)
  = unchars (spell neg i (rstrip "0"%char f)).
Proof.
  intros [Ht Hp Hi Hf]. rewrite Ht, spell_dot by done. destruct f as [|d f]; cbn [nonempty].
  - by rewrite <- (unchars_chars s), Ht.
  - by rewrite strip_spell by (done || by apply leading_nonempty).
Qed.

Lemma stripped_fixed f : rstrip "0"%char (rstrip "0"%char f) = rstrip "0"%char f.
Proof. destruct (rstrip_spec "0"%char f) as (k & _ & [->|(l & x & -> & Hx)]); [done|by apply rstrip_keep]. Qed.

(** The two texts that are replaced by zero. *)
Lemma spelled_zero neg i f :
  leading i = true ->
  String.eqb (unchars (spell neg i f)) "-0" || String.eqb (unchars (spell neg i f)) "" = negated_zero neg i f.
Proof.
  intros Hp. rewrite !eqb_chars, chars_unchars. change (chars "-0") with ["-"%char; "0"%char].
  rewrite spell_minus_zero by done. rewrite (bool_decide_false (spell neg i f = _)), orb_false_r; [done|].
  apply leading_nonempty in Hp. unfold spell. destruct neg; [done|]. by destruct i.
Qed.

(** What [_decimal] returns on a decimal text. *)
Lemma decimal_normal s neg i f s' :
  shape s neg i f -> _decimal s = Ok s' ->
  canonical s' (neg && negb (negated_zero neg i (rstrip "0"%char f))) i (rstrip "0"%char f).
Proof.
  intros Hs. pose proof Hs as [Ht Hp Hi Hf]. unfold _decimal. intros [_ H]%guard_bind.
  rewrite (stripped_text _ _ _ _ Hs), spelled_zero in H by done. injection H as <-.
  set (f' := rstrip "0"%char f). assert (Hf' : digit_text f') by by apply rstrip_digits.
  destruct (negated_zero neg i f') eqn:Hz; cbn [negb].
  - unfold negated_zero in Hz. apply andb_true_iff in Hz as [-> [-> ->]%bool_decide_eq_true].
    by repeat split; try constructor.
  - rewrite andb_true_r. split; [by split; [apply chars_unchars|..]|apply stripped_fixed|].
    intros -> Hzero. unfold negated_zero in Hz. by rewrite bool_decide_true in Hz.
Qed.

(** ** A canonical text is determined by its number *)

Lemma digits_value_split a b : digits_value (a ++ b) = (digits_value a * 10 ^ N.of_nat (length b) + digits_value b)%N.
Proof.
  induction b as [|x b IH] using rev_ind; [rewrite app_nil_r; cbn; lia|].
  rewrite app_assoc, !digits_value_app, IH, length_app. cbn [length].
  rewrite Nat.add_1_r, Nat2N.inj_succ, N.pow_succ_r'. lia.
Qed.

Lemma digit_bound c : is_digit c = true -> (N.of_nat (nat_of_ascii c) - 48 < 10)%N.
Proof. unfold is_digit, char_in. intros [H1%Nat.leb_le H2%Nat.leb_le]%andb_true_iff. lia. Qed.

Lemma digits_value_bound l : all_digits l -> (digits_value l < 10 ^ N.of_nat (length l))%N.
Proof.
  induction l as [|x l IH] using rev_ind; [done|]. intros [Hl [Hx _]%Forall_cons]%Forall_app.
  rewrite digits_value_app, length_app. cbn [length]. rewrite Nat.add_1_r, Nat2N.inj_succ, N.pow_succ_r'.
  specialize (IH Hl). pose proof (digit_bound x Hx). lia.
Qed.

Lemma digit_inj c d :
  is_digit c = true -> is_digit d = true ->
  (N.of_nat (nat_of_ascii c) - 48 = N.of_nat (nat_of_ascii d) - 48)%N -> c = d.
Proof.
  unfold is_digit, char_in. intros [H1%Nat.leb_le _]%andb_true_iff [H2%Nat.leb_le _]%andb_true_iff He.
  rewrite <- (ascii_nat_embedding c), <- (ascii_nat_embedding d). f_equal. lia.
Qed.

Lemma digits_value_inj a b :
  all_digits a -> all_digits b -> length a = length b -> digits_value a = digits_value b -> a = b.
Proof.
  revert b; induction a as [|x a IH] using rev_ind; intros b Ha Hb Hl Hv; [by destruct b|].
  destruct b as [|y b _] using rev_ind; [by rewrite length_app in Hl; cbn in Hl; lia|].
  apply Forall_app in Ha as [Ha [Hx _]%Forall_cons], Hb as [Hb [Hy _]%Forall_cons].
  rewrite !digits_value_app in Hv. rewrite !length_app in Hl. cbn in Hl.
  pose proof (digit_bound x Hx). pose proof (digit_bound y Hy).
  rewrite (IH b) by (try done; lia). rewrite (digit_inj x y) by (done || lia). done.
Qed.

Lemma int_part_nonempty i : int_part i = true -> i <> [].
Proof. by destruct i. Qed.

(** Without a leading zero the value fixes the number of digits. *)
Lemma int_part_low i : all_digits i -> int_part i = true -> (1 < length i)%nat -> (10 ^ N.of_nat (pred (length i)) <= digits_value i)%N.
Proof.
  intros Hi Hp Hl. destruct i as [|c [|d i]]; cbn in Hl; [lia|lia|].
  cbn [int_part] in Hp. apply negb_true_iff, Ascii.eqb_neq in Hp. apply Forall_cons in Hi as [Hc Hi].
  change (c :: d :: i) with ([c] ++ d :: i). rewrite digits_value_split. cbn [length app pred].
  assert (1 <= digits_value [c])%N.
  { pose proof (digit_inj c "0"%char Hc eq_refl). change (digits_value [c]) with (N.of_nat (nat_of_ascii c) - 48)%N.
    destruct (N.eq_dec (N.of_nat (nat_of_ascii c) - 48)%N 0%N) as [E|]; [|lia]. exfalso. apply Hp, H, E. }
  nia.
Qed.

Lemma int_part_inj i j :
  all_digits i -> all_digits j -> int_part i = true -> int_part j = true -> digits_value i = digits_value j -> i = j.
Proof.
  intros Hi Hj Hpi Hpj Hv. apply digits_value_inj; try done.
  assert (Hlt : forall a b, all_digits a -> all_digits b -> int_part a = true -> int_part b = true ->
    digits_value a = digits_value b -> ~ (length a < length b)%nat).
  { intros a b Ha Hb Hpa Hpb He Hl. pose proof (int_part_nonempty a Hpa).
    assert (0 < length a)%nat by (destruct a; [done|cbn; lia]).
    pose proof (int_part_low b Hb Hpb ltac:(lia)). pose proof (digits_value_bound a Ha).
    assert (10 ^ N.of_nat (length a) <= 10 ^ N.of_nat (pred (length b)))%N by (apply N.pow_le_mono_r; lia). lia. }
  pose proof (Hlt i j Hi Hj Hpi Hpj Hv). pose proof (Hlt j i Hj Hi Hpj Hpi (eq_sym Hv)). lia.
Qed.

Lemma deqb_number n1 i1 f1 n2 i2 f2 :
  deqb (number n1 i1 f1) (number n2 i2 f2) = true <->
  (signed n1 (Z.of_N (digits_value (ascii_digits i1 ++ ascii_digits f1))) * 10 ^ Z.of_nat (length (ascii_digits f2))
   = signed n2 (Z.of_N (digits_value (ascii_digits i2 ++ ascii_digits f2))) * 10 ^ Z.of_nat (length (ascii_digits f1)))%Z.
Proof.
  unfold number. set (g1 := ascii_digits f1). set (g2 := ascii_digits f2).
  rewrite (deqb_sval (- Z.of_nat (length g1) - Z.of_nat (length g2))) by (cbn; lia).
  unfold sval, dint, signed. cbn [d_neg d_coef d_exp].
  replace (- Z.of_nat (length g1) - _)%Z with (Z.of_nat (length g2)) by lia.
  replace (- Z.of_nat (length g2) - _)%Z with (Z.of_nat (length g1)) by lia. done.
Qed.

Lemma fraction_value i f :
  all_digits f -> rstrip "0"%char f = f -> f <> [] -> (digits_value (i ++ f) mod 10 <> 0)%N.
Proof.
  intros Hf Hr Hne. destruct (rstrip_spec "0"%char f) as (k & _ & [H|(l & x & H & Hx)]); rewrite Hr in H; [done|].
  subst f. apply Forall_app in Hf as [_ [Hd _]%Forall_cons]. rewrite app_assoc, digits_value_app.
  rewrite N.add_comm, N.mul_comm, N.Div0.mod_add, N.mod_small by by apply digit_bound.
  intros He. apply Ascii.eqb_neq in Hx. by apply Hx, digit_inj.
Qed.

(** Two canonical texts on different scales denote different numbers. *)
Lemma same_scale n1 i1 f1 n2 i2 f2 :
  all_digits f2 -> rstrip "0"%char f2 = f2 ->
  (signed n1 (Z.of_N (digits_value (i1 ++ f1))) * 10 ^ Z.of_nat (length f2)
   = signed n2 (Z.of_N (digits_value (i2 ++ f2))) * 10 ^ Z.of_nat (length f1))%Z ->
  (length f2 <= length f1)%nat.
Proof.
  intros Hf Hr He. destruct (decide (length f2 <= length f1)%nat) as [|Hlt]; [done|]. exfalso.
  assert (Hne : f2 <> []) by (intros ->; cbn in Hlt; lia).
  apply (fraction_value i2 f2 Hf Hr Hne).
  assert (Hp : (10 ^ Z.of_nat (length f2) = 10 ^ Z.of_nat (length f1) * (10 * 10 ^ Z.of_nat (length f2 - length f1 - 1)))%Z).
  { rewrite <- (Z.pow_succ_r 10) by lia. rewrite <- Z.pow_add_r by lia. f_equal. lia. }
  pose proof (Z.pow_pos_nonneg 10 (Z.of_nat (length f1)) ltac:(lia) ltac:(lia)).
  rewrite Hp in He. set (p := (10 ^ Z.of_nat (length f2 - length f1 - 1))%Z) in *.
  set (a := digits_value (i1 ++ f1)) in *. set (b := digits_value (i2 ++ f2)) in *.
  assert (Hb : (Z.of_N b = 10 * (p * Z.of_N a) \/ Z.of_N b = 10 * - (p * Z.of_N a))%Z).
  { unfold signed in He. destruct n1, n2; nia. }
  apply N2Z.inj. rewrite N2Z.inj_mod. destruct Hb as [-> | ->]; rewrite Z.mul_comm; apply Z_mod_mult.
Qed.

(** In ASCII the digits are what they read as. *)
Lemma shape_ascii s neg i f : shape s neg i f -> ascii_string s = true -> all_digits i /\ all_digits f.
Proof.
  intros [Ht _ Hi Hf] Ha. apply forallb_Forall in Ha. rewrite Ht in Ha. unfold spell in Ha.
  apply Forall_app in Ha as [_ Ha]. apply Forall_app in Ha as [Ai Af].
  assert (Af' : Forall (fun c => ascii_char c = true) f) by (destruct f; [done|by apply Forall_cons in Af as [_ ?]]).
  unfold digit_text in *. rewrite (ascii_digits_id i Ai) in Hi. by rewrite (ascii_digits_id f Af') in Hf.
Qed.

Lemma leading_int i : leading i = true -> int_part i = true.
Proof. by intros (c & l & -> & _ & ?)%leading_cons. Qed.

Lemma canonical_unique s n1 i1 f1 t n2 i2 f2 :
  ascii_string s = true -> ascii_string t = true ->
  canonical s n1 i1 f1 -> canonical t n2 i2 f2 -> deqb (number n1 i1 f1) (number n2 i2 f2) = true -> s = t.
Proof.
  intros Ha1 Ha2 [Hs1 Hr1 Hz1] [Hs2 Hr2 Hz2] He%deqb_number.
  destruct (shape_ascii _ _ _ _ Hs1 Ha1) as [Hi1 Hf1]. destruct (shape_ascii _ _ _ _ Hs2 Ha2) as [Hi2 Hf2].
  rewrite !all_digits_ascii in He by done.
  destruct Hs1 as [Ht1 Hp1%leading_int _ _], Hs2 as [Ht2 Hp2%leading_int _ _].
  pose proof (same_scale _ _ _ _ _ _ Hf2 Hr2 He). pose proof (same_scale _ _ _ _ _ _ Hf1 Hr1 (eq_sym He)).
  assert (Hlen : length f1 = length f2) by lia. rewrite Hlen in He.
  apply Z.mul_reg_r in He; [|apply Z.pow_nonzero; lia].
  assert (Hv : digits_value (i1 ++ f1) = digits_value (i2 ++ f2)) by (unfold signed in He; destruct n1, n2; lia).
  assert (i1 = i2 /\ f1 = f2) as [-> ->].
  { rewrite !digits_value_split, Hlen in Hv. pose proof (digits_value_bound f1 Hf1). pose proof (digits_value_bound f2 Hf2).
    rewrite Hlen in *.
    assert (Hi : digits_value i1 = digits_value i2) by nia. rewrite Hi in Hv.
    split; [by apply int_part_inj|]. apply digits_value_inj; try done. lia. }
  assert (n1 = n2) as ->.
  { destruct (N.eq_dec (digits_value (i2 ++ f2)) 0%N) as [HN|]; [|unfold signed in He; destruct n1, n2; lia].
    assert (Hzero : i2 = ["0"%char] /\ f2 = []).
    { rewrite digits_value_split in HN. pose proof (N.pow_nonzero 10 (N.of_nat (length f2)) ltac:(lia)).
      split.
      - apply int_part_inj; try done; [by repeat constructor|].
        change (digits_value ["0"%char]) with 0%N. apply N.eq_add_0 in HN as [[|]%N.eq_mul_0 _]; done.
      - destruct (decide (f2 = [])) as [|Hne]; [done|]. exfalso. apply (fraction_value i2 f2 Hf2 Hr2 Hne).
        by rewrite digits_value_split, HN. }
    destruct n1, n2; try done; exfalso; [by apply Hz1|by apply Hz2]. }
  by rewrite <- (unchars_chars s), Ht1, <- Ht2, unchars_chars.
Qed.

Lemma decimal_shape s s' : _decimal s = Ok s' -> exists neg i f, shape s neg i f.
Proof.
  unfold _decimal. intros [[_ Hd%negb_false_iff]%orb_false_iff _]%guard_bind. by apply decimal_string_shape.
Qed.

(** Normalising keeps the number. *)
Lemma normal_number s neg i f :
  shape s neg i f ->
  deqb (number neg i f) (number (neg && negb (negated_zero neg i (rstrip "0"%char f))) i (rstrip "0"%char f)) = true.
Proof.
  intros [_ Hp Hi Hf]. apply deqb_number. destruct (rstrip_read f) as (k & He).
  set (f' := rstrip "0"%char f) in *. set (g' := ascii_digits f') in *. set (j := ascii_digits i) in *.
  assert (Hv : digits_value (j ++ ascii_digits f) = (digits_value (j ++ g') * 10 ^ N.of_nat k)%N).
  { rewrite He, app_assoc, digits_value_split, repeat_length.
    assert (digits_value (repeat "0"%char k) = 0%N) as ->; [|lia].
    clear. induction k as [|k IH]; [done|]. cbn [repeat]. rewrite repeat_cons, digits_value_app, IH. done. }
  assert (Hl : Z.of_nat (length (ascii_digits f)) = (Z.of_nat k + Z.of_nat (length g'))%Z).
  { rewrite He, length_app, repeat_length. lia. }
  rewrite Hl, Z.pow_add_r, Hv, N2Z.inj_mul, N2Z.inj_pow, nat_N_Z by lia. change (Z.of_N 10) with 10%Z.
  destruct (negated_zero neg i f') eqn:Hz; cbn [negb]; [|rewrite andb_true_r; unfold signed; destruct neg; ring].
  unfold negated_zero in Hz. apply andb_true_iff in Hz as [-> [Hi0 Hf']%bool_decide_eq_true]. subst j g'. rewrite Hi0, Hf'.
  change (digits_value (ascii_digits ["0"%char] ++ ascii_digits [])) with 0%N. unfold signed. cbn [andb]. lia.
Qed.

(** What normalisation promises: it stays on the number, ends in the only
    normal text of that number, and leaves a normal text alone. *)
Lemma normal_canonical s s' :
  _decimal s = Ok s' ->
  exists neg i f neg' f', shape s neg i f /\ canonical s' neg' i f' /\
    deqb (number neg i f) (number neg' i f') = true.
Proof.
  intros H. destruct (decimal_shape s s' H) as (neg & i & f & Hs).
  pose proof (decimal_normal _ _ _ _ _ Hs H). pose proof (normal_number _ _ _ _ Hs). eauto 10.
Qed.

Lemma digits_no_e neg i f :
  digit_text i -> digit_text f -> existsb (fun c => Ascii.eqb (lower_char c) "e"%char) (spell neg i f) = false.
Proof.
  intros Hi Hf. apply not_true_iff_false. rewrite existsb_exists. intros (c & Hin%list_elem_of_In & Hc).
  assert (Hall : Forall (fun c => Ascii.eqb (lower_char c) "e"%char = false) (spell neg i f)).
  { apply spell_chars; [done|done| |];
      (eapply Forall_impl; [by apply (digits_are (fun c => negb (Ascii.eqb (lower_char c) "e"%char)))|]; intros x; apply negb_true_iff). }
  rewrite Forall_forall in Hall. rewrite (Hall c Hin) in Hc. done.
Qed.

(** Every decimal text normalises. *)
Lemma decimal_total s neg i f : shape s neg i f -> exists s', _decimal s = Ok s'.
Proof.
  intros Hs. unfold _decimal. rewrite (sh_text _ _ _ _ Hs), digits_no_e by apply Hs.
  rewrite (proj2 (decimal_string_shape s)) by eauto. by eexists.
Qed.

Lemma deqb_refl a : deqb a a = true.
Proof. unfold deqb, dcmp. by rewrite Z.compare_refl. Qed.

Lemma deqb_trans a b c : deqb a b = true -> deqb b c = true -> deqb a c = true.
Proof.
  set (s := Z.min (d_exp a) (Z.min (d_exp b) (d_exp c))).
  rewrite !(deqb_sval s) by lia. congruence.
Qed.

Lemma deqb_sym a b : deqb a b = deqb b a.
Proof.
  set (s := Z.min (d_exp a) (d_exp b)). apply eq_true_iff_eq. rewrite !(deqb_sval s) by lia. split; congruence.
Qed.

Lemma canonical_fixed s neg i f : canonical s neg i f -> _decimal s = Ok s.
Proof.
  intros [Hs Hr Hz]. pose proof Hs as [Ht Hp Hi Hf]. unfold _decimal.
  rewrite Ht, digits_no_e by done. rewrite (proj2 (decimal_string_shape s)) by eauto. cbn [orb negb guard_not mbind res_bind].
  rewrite <- Ht, (stripped_text _ _ _ _ Hs), Hr, spelled_zero by done.
  assert (negated_zero neg i f = false) as ->.
  { unfold negated_zero. destruct neg; [|done]. apply bool_decide_eq_false. by apply Hz. }
  by rewrite <- Ht, unchars_chars.
Qed.

Lemma decimal_idempotent s s' : _decimal s = Ok s' -> _decimal s' = Ok s'.
Proof. intros (? & ? & ? & ? & ? & _ & Hc & _)%normal_canonical. by eapply canonical_fixed. Qed.

(** The normal text denotes the same number. *)
Lemma decimal_keeps s s' :
  _decimal s = Ok s' ->
  exists d d', dec_of_string s = Ok d /\ dec_of_string s' = Ok d' /\ deqb d d' = true.
Proof.
  intros (neg & i & f & neg' & f' & Hs & Hc & He)%normal_canonical.
  exists (number neg i f), (number neg' i f'). split; [by apply shape_number|]. split; [|done]. by apply shape_number, Hc.
Qed.

(** It is in ASCII when the text is. *)
Lemma decimal_ascii s s' : _decimal s = Ok s' -> ascii_string s = true -> ascii_string s' = true.
Proof.
  unfold _decimal. intros [_ H]%guard_bind Ha. injection H as <-. unfold ascii_string in *.
  set (r := if existsb _ _ then _ else s). assert (Hr : forallb ascii_char (chars r) = true).
  { subst r. destruct (existsb _ _); [|done]. rewrite chars_unchars. apply forallb_Forall in Ha. apply forallb_Forall.
    destruct (rstrip_spec "0"%char (chars s)) as (k & He & _). rewrite He in Ha. apply Forall_app in Ha as [Ha _].
    destruct (rstrip_spec "."%char (rstrip "0"%char (chars s))) as (k' & He' & _). rewrite He' in Ha.
    by apply Forall_app in Ha as [Ha _]. }
  by destruct (String.eqb r "-0" || String.eqb r "").
Qed.

(** Two decimal texts in ASCII normalise to the same text exactly when they
    denote the same number. *)
Lemma normal_iff_equal s t s' t' :
  ascii_string s = true -> ascii_string t = true -> _decimal s = Ok s' -> _decimal t = Ok t' ->
  exists ds dt, dec_of_string s = Ok ds /\ dec_of_string t = Ok dt /\ (s' = t' <-> deqb ds dt = true).
Proof.
  intros As At Hs Ht. destruct (decimal_keeps s s' Hs) as (ds & ds' & Ds & Ds' & Es).
  destruct (decimal_keeps t t' Ht) as (dt & dt' & Dt & Dt' & Et).
  exists ds, dt. split; [done|]. split; [done|]. split.
  - intros ->. rewrite Ds' in Dt'. injection Dt' as ->. rewrite deqb_sym in Et. by eapply deqb_trans.
  - intros He. destruct (normal_canonical s s' Hs) as (_ & i1 & _ & m1 & g1 & _ & Hc1 & _).
    destruct (normal_canonical t t' Ht) as (_ & i2 & _ & m2 & g2 & _ & Hc2 & _).
    eapply canonical_unique; [by eapply decimal_ascii|by eapply decimal_ascii|exact Hc1|exact Hc2|].
    rewrite (shape_number _ _ _ _ (cn_shape _ _ _ _ Hc1)) in Ds'. rewrite (shape_number _ _ _ _ (cn_shape _ _ _ _ Hc2)) in Dt'.
    injection Ds' as ->. injection Dt' as ->. rewrite deqb_sym in Es. eapply deqb_trans; [exact Es|]. by eapply deqb_trans.
Qed.

(** ** Unit decimals *)

Definition is_zero (c : ascii) : bool := Ascii.eqb c "0"%char.

Definition unit_digits (neg : bool) (i f : list ascii) : bool :=
  match i with
  | [c] => (is_zero c && (forallb is_zero f || negb neg)) || (Ascii.eqb c "1"%char && negb neg && forallb is_zero f)
  | _ => false
  end.

Lemma unit_shape s neg i f : shape s neg i f -> UnitDecimalString s = unit_digits neg i f.
Proof.
  intros Hs. unfold UnitDecimalString. rewrite (proj2 (decimal_string_shape s)) by eauto.
  destruct Hs as [Ht Hp Hi Hf]. rewrite Ht. unfold spell. rewrite minus_of_leading by done.
  apply leading_cons in Hp as (c & r & -> & Hc & Hp). cbn [andb app].
  change (fun x => Ascii.eqb x "0"%char) with is_zero. destruct r as [|d r].
  - pose proof (ascii_digits_fraction [] f) as Hd. cbn [app] in Hd. cbn [app unit_digits].
    rewrite Hd. change (ascii_digits []) with (@nil ascii). cbn [app]. rewrite (fraction_frac_part is_digit) by done.
    assert (Hz : frac_part is_zero (fraction f) = forallb is_zero f) by by destruct f.
    by rewrite Hz, andb_true_r.
  - unfold digit_text in Hi. rewrite ascii_digits_cons in Hi by by apply is_digit_ascii. apply Forall_cons in Hi as [_ Hi].
    assert (Hd : digit_byte d = true) by (by apply digit_text_bytes in Hi as [? _]%Forall_cons).
    cbn [unit_digits app frac_part]. rewrite (digit_byte_not d "."%char) by done. cbn [andb].
    assert (frac_part is_digit (ascii_digits (d :: r ++ fraction f)) = false) as ->.
    { change (d :: r ++ fraction f) with ((d :: r) ++ fraction f). rewrite ascii_digits_fraction.
      destruct (ascii_digits (d :: r)) as [|e l] eqn:E; [by apply ascii_digits_nil in E|]. apply Forall_cons in Hi as [He _].
      cbn [app frac_part]. by rewrite digit_not. }
    by rewrite !andb_false_r.
Qed.

Lemma stripped_zeros f : forallb is_zero f = true -> rstrip "0"%char f = [].
Proof.
  intros Hf. destruct (rstrip_spec "0"%char f) as (k & He & [H|(l & x & H & Hx)]); [done|]. exfalso.
  rewrite He, H in Hf. rewrite !forallb_app in Hf. cbn in Hf. unfold is_zero in Hf. rewrite Hx in Hf.
  by rewrite andb_false_r in Hf.
Qed.

Lemma unit_normal s s' : UnitDecimalString s = true -> _decimal s = Ok s' -> UnitDecimalString s' = true.
Proof.
  intros Hu Hd. destruct (decimal_shape s s' Hd) as (neg & i & f & Hs).
  pose proof (decimal_normal _ _ _ _ _ Hs Hd) as [Hs' _ _].
  rewrite (unit_shape _ _ _ _ Hs) in Hu. rewrite (unit_shape _ _ _ _ Hs'). unfold unit_digits in *.
  destruct i as [|c [|]]; [done| |done]. destruct (is_zero c) eqn:Hc.
  - apply Ascii.eqb_eq in Hc as ->. cbn [andb orb] in *. destruct (forallb is_zero f) eqn:Hz; cbn [orb] in Hu.
    + by rewrite stripped_zeros.
    + rewrite orb_false_r in Hu. destruct neg; [done|]. cbn. by rewrite orb_true_r.
  - cbn [andb orb] in *. apply andb_true_iff in Hu as [[-> Hn]%andb_true_iff Hz]. destruct neg; [done|].
    by rewrite stripped_zeros.
Qed.

(** A canonical unit decimal lies between zero and one. *)
Lemma unit_bounds s neg i f :
  canonical s neg i f -> UnitDecimalString s = true ->
  dleb dzero (number neg i f) = true /\ dleb (number neg i f) dunit = true.
Proof.
  intros [Hs Hr Hz] Hu. rewrite (unit_shape _ _ _ _ Hs) in Hu. destruct Hs as [_ _ Hi Hf].
  unfold unit_digits in Hu. destruct i as [|c [|]]; [done| |done].
  set (g := ascii_digits f). assert (Hb : (0 <= dint (number neg [c] f) <= 10 ^ Z.of_nat (length g))%Z).
  { unfold number, dint. cbn [d_neg d_coef]. rewrite digits_value_split. fold g.
    pose proof (digits_value_bound g Hf) as Hlt. apply N2Z.inj_lt in Hlt.
    rewrite N2Z.inj_pow, nat_N_Z in Hlt. change (Z.of_N 10) with 10%Z in Hlt.
    destruct (is_zero c) eqn:Hc.
    - apply Ascii.eqb_eq in Hc as ->. change (digits_value (ascii_digits ["0"%char])) with 0%N.
      destruct neg; [|lia]. cbn [negb andb orb] in Hu. rewrite !orb_false_r in Hu.
      rewrite (stripped_zeros f Hu) in Hr. exfalso. by apply Hz.
    - cbn [andb orb] in Hu. apply andb_true_iff in Hu as [[->%Ascii.eqb_eq Hn]%andb_true_iff Hu].
      rewrite (stripped_zeros f Hu) in Hr. subst f. destruct neg; [done|]. vm_compute. split; discriminate. }
  rewrite !(dleb_sval (- Z.of_nat (length g))) by (unfold number; fold g; cbn [d_exp dzero dunit]; lia).
  unfold sval. change (dint dzero) with 0%Z. change (dint dunit) with 1%Z.
  change (d_exp dzero) with 0%Z. change (d_exp dunit) with 0%Z.
  change (d_exp (number neg [c] f)) with (- Z.of_nat (length g))%Z.
  replace (- Z.of_nat (length g) - - Z.of_nat (length g))%Z with 0%Z by lia.
  replace (0 - - Z.of_nat (length g))%Z with (Z.of_nat (length g)) by lia.
  rewrite Z.pow_0_r, Z.mul_1_r, Z.mul_0_l, Z.mul_1_l. done.
Qed.

(** C27. The text a decimal field is stored as, its digits of any script:
    normalising it again gives the same text, and the text denotes the number it
    was made from.  Among texts in ASCII the normal form is canonical: two texts
    have the same one exactly when they denote the same number. *)
Theorem decimal_text_is_canonical s s' (Hs : _decimal s = Ok s') :
  _decimal s' = Ok s' /\
  (exists d d', dec_of_string s = Ok d /\ dec_of_string s' = Ok d' /\ deqb d d' = true) /\
  (forall t t', _decimal t = Ok t' -> ascii_string s = true -> ascii_string t = true ->
     exists ds dt, dec_of_string s = Ok ds /\ dec_of_string t = Ok dt /\ (s' = t' <-> deqb ds dt = true)).
Proof.
  split; [by eapply decimal_idempotent|]. split; [by apply decimal_keeps|].
  intros t t' Ht As At. by apply normal_iff_equal.
Qed.

Lemma decimal_text_is_canonical_witness :
  _decimal "0.5" = Ok "0.5" /\
  (exists d d', dec_of_string ("0.5" +:+ arabic_zero +:+ "0") = Ok d /\ dec_of_string ("0.5" +:+ arabic_zero) = Ok d' /\ deqb d d' = true) /\
  exists ds dt, dec_of_string "0.50" = Ok ds /\ dec_of_string "0.5" = Ok dt /\ deqb ds dt = true.
Proof.
  split; [apply (decimal_text_is_canonical "0.500" "0.5"); vm_compute; reflexivity|].
  split; [apply (decimal_text_is_canonical ("0.5" +:+ arabic_zero +:+ "0") ("0.5" +:+ arabic_zero)); vm_compute; reflexivity|].
  destruct (decimal_text_is_canonical "0.50" "0.5") as (_ & _ & H); [vm_compute; reflexivity|].
  destruct (H "0.5" "0.5") as (ds & dt & H1 & H2 & H3); [vm_compute; reflexivity..|].
  exists ds, dt. split; [exact H1|]. split; [exact H2|]. apply H3. reflexivity.
Defined.
