(* ===== verification/Artifacts.v ===== *)
(** * Typed reasoning artifacts

    [app/domain/reasoning.py]: the vocabularies, the payload of each of the
    fourteen kinds, the envelope with its validators, the immutable content and
    its hash.  A validator returns the value the model holds afterwards: decimal
    texts normalised, timestamps in UTC.  How the validation library writes a
    datetime is not the repository's code: [write]. *)

From S2P Require Import Prelude.
From S2P Require Import PyDecimal.
From S2P Require Import Json.
From S2P Require Import Symbolic.
From S2P Require Import ConsensusPorts.
From S2P Require Import Ledger.
From S2P Require Import ReasoningGraph.
From S2P Require Import DecimalText.
Import Graph.

Local Open Scope Z_scope.

(** A string enumeration: its values are pairwise distinct. *)
Class StrEnum (A : Type) : Type := {
  value : A -> string;
  value_inj : forall a b, value a = value b -> a = b
}.

Ltac str_enum := intros [] []; first [reflexivity | discriminate].

Module Artifact.

(** ** Vocabularies *)

#[global, refine] Instance kind_enum : StrEnum ArtifactKind := {| value k :=
  match k with
  | CLAIM => "CLAIM" | FACT => "FACT" | ASSUMPTION => "ASSUMPTION" | INFERENCE => "INFERENCE"
  | PROPOSITION => "PROPOSITION" | EVIDENCE => "EVIDENCE" | UNCERTAINTY => "UNCERTAINTY" | RISK => "RISK"
  | IMPACT => "IMPACT" | OBJECTIVE => "OBJECTIVE" | CONSTRAINT => "CONSTRAINT" | ALTERNATIVE => "ALTERNATIVE"
  | POSITION => "POSITION" | CRITIQUE => "CRITIQUE"
  end |}.
Proof. str_enum. Defined.

#[global, refine] Instance edge_enum : StrEnum GraphEdgeType := {| value := edge_type_value |}.
Proof. str_enum. Defined.

#[global, refine] Instance actor_enum : StrEnum ActorClass := {| value := actor_class_value |}.
Proof. str_enum. Defined.

Module LifecycleStatus.
Inductive t : Type := ACTIVE | SUPERSEDED | WITHDRAWN.
#[global] Instance eq_dec : EqDecision t.
Proof. solve_decision. Defined.
#[global, refine] Instance enum : StrEnum t := {| value s :=
  match s with ACTIVE => "ACTIVE" | SUPERSEDED => "SUPERSEDED" | WITHDRAWN => "WITHDRAWN" end |}.
Proof. str_enum. Defined.
End LifecycleStatus.

Module ProvenanceOrigin.
Inductive t : Type := HUMAN | LLM | RETRIEVAL | TOOL | SIMULATION | SYMBOLIC | IMPORT | HISTORICAL_SESSION.
#[global] Instance eq_dec : EqDecision t.
Proof. solve_decision. Defined.
#[global, refine] Instance enum : StrEnum t := {| value s :=
  match s with
  | HUMAN => "HUMAN" | LLM => "LLM" | RETRIEVAL => "RETRIEVAL" | TOOL => "TOOL" | SIMULATION => "SIMULATION"
  | SYMBOLIC => "SYMBOLIC" | IMPORT => "IMPORT" | HISTORICAL_SESSION => "HISTORICAL_SESSION"
  end |}.
Proof. str_enum. Defined.
End ProvenanceOrigin.

Module Verification.
Inductive t : Type := UNVERIFIED | SOURCE_VERIFIED | CROSS_CHECKED | DISPUTED | REJECTED.
#[global] Instance eq_dec : EqDecision t.
Proof. solve_decision. Defined.
#[global, refine] Instance enum : StrEnum t := {| value s :=
  match s with
  | UNVERIFIED => "UNVERIFIED" | SOURCE_VERIFIED => "SOURCE_VERIFIED" | CROSS_CHECKED => "CROSS_CHECKED"
  | DISPUTED => "DISPUTED" | REJECTED => "REJECTED"
  end |}.
Proof. str_enum. Defined.
End Verification.

Module ClaimType.
Inductive t : Type := FACTUAL | CAUSAL | PREDICTIVE | EVALUATIVE | PROCEDURAL | HYPOTHESIS.
#[global] Instance eq_dec : EqDecision t.
Proof. solve_decision. Defined.
#[global, refine] Instance enum : StrEnum t := {| value s :=
  match s with
  | FACTUAL => "FACTUAL" | CAUSAL => "CAUSAL" | PREDICTIVE => "PREDICTIVE" | EVALUATIVE => "EVALUATIVE"
  | PROCEDURAL => "PROCEDURAL" | HYPOTHESIS => "HYPOTHESIS"
  end |}.
Proof. str_enum. Defined.
End ClaimType.

Module Bearing.
Inductive t : Type := SUPPORTS | OPPOSES.
#[global] Instance eq_dec : EqDecision t.
Proof. solve_decision. Defined.
#[global, refine] Instance enum : StrEnum t := {| value s := match s with SUPPORTS => "SUPPORTS" | OPPOSES => "OPPOSES" end |}.
Proof. str_enum. Defined.
End Bearing.

Module EvidenceRelation.
Inductive t : Type := SUPPORTS | OPPOSES | QUALIFIES.
#[global] Instance eq_dec : EqDecision t.
Proof. solve_decision. Defined.
#[global, refine] Instance enum : StrEnum t := {| value s :=
  match s with SUPPORTS => "SUPPORTS" | OPPOSES => "OPPOSES" | QUALIFIES => "QUALIFIES" end |}.
Proof. str_enum. Defined.
End EvidenceRelation.

Module Strength.
Inductive t : Type := WEAK | MODERATE | STRONG | DECISIVE.
#[global] Instance eq_dec : EqDecision t.
Proof. solve_decision. Defined.
#[global, refine] Instance enum : StrEnum t := {| value s :=
  match s with WEAK => "WEAK" | MODERATE => "MODERATE" | STRONG => "STRONG" | DECISIVE => "DECISIVE" end |}.
Proof. str_enum. Defined.
End Strength.

Module ReviewStatus.
Inductive t : Type := PROPOSED | ACCEPTED | CONTESTED | REJECTED.
#[global] Instance eq_dec : EqDecision t.
Proof. solve_decision. Defined.
#[global, refine] Instance enum : StrEnum t := {| value s :=
  match s with PROPOSED => "PROPOSED" | ACCEPTED => "ACCEPTED" | CONTESTED => "CONTESTED" | REJECTED => "REJECTED" end |}.
Proof. str_enum. Defined.
End ReviewStatus.

Module PropositionNormalizationStatus.
Inductive t : Type := PROPOSED | VALIDATED | AMBIGUOUS.
#[global] Instance eq_dec : EqDecision t.
Proof. solve_decision. Defined.
#[global, refine] Instance enum : StrEnum t := {| value s :=
  match s with PROPOSED => "PROPOSED" | VALIDATED => "VALIDATED" | AMBIGUOUS => "AMBIGUOUS" end |}.
Proof. str_enum. Defined.
End PropositionNormalizationStatus.

Module TrustLevel.
Inductive t : Type := PRIMARY | AUTHORITATIVE | SECONDARY | COMMERCIAL | UNATTRIBUTED | SYNTHETIC.
#[global] Instance eq_dec : EqDecision t.
Proof. solve_decision. Defined.
#[global, refine] Instance enum : StrEnum t := {| value s :=
  match s with
  | PRIMARY => "PRIMARY" | AUTHORITATIVE => "AUTHORITATIVE" | SECONDARY => "SECONDARY" | COMMERCIAL => "COMMERCIAL"
  | UNATTRIBUTED => "UNATTRIBUTED" | SYNTHETIC => "SYNTHETIC"
  end |}.
Proof. str_enum. Defined.
End TrustLevel.

Module EvidenceProvenance.
Inductive t : Type := RETRIEVAL | TOOL | SIMULATION | SYMBOLIC | HUMAN | IMPORT.
#[global] Instance eq_dec : EqDecision t.
Proof. solve_decision. Defined.
#[global, refine] Instance enum : StrEnum t := {| value s :=
  match s with
  | RETRIEVAL => "RETRIEVAL" | TOOL => "TOOL" | SIMULATION => "SIMULATION" | SYMBOLIC => "SYMBOLIC"
  | HUMAN => "HUMAN" | IMPORT => "IMPORT"
  end |}.
Proof. str_enum. Defined.
End EvidenceProvenance.

Module UncertaintyType.
Inductive t : Type := EPISTEMIC | ALEATORIC | MODEL | MEASUREMENT | SEMANTIC | STRATEGIC.
#[global] Instance eq_dec : EqDecision t.
Proof. solve_decision. Defined.
#[global, refine] Instance enum : StrEnum t := {| value s :=
  match s with
  | EPISTEMIC => "EPISTEMIC" | ALEATORIC => "ALEATORIC" | MODEL => "MODEL" | MEASUREMENT => "MEASUREMENT"
  | SEMANTIC => "SEMANTIC" | STRATEGIC => "STRATEGIC"
  end |}.
Proof. str_enum. Defined.
End UncertaintyType.

Module ConstraintType.
Inductive t : Type := HARD | SOFT | NON_NEGOTIABLE.
#[global] Instance eq_dec : EqDecision t.
Proof. solve_decision. Defined.
#[global, refine] Instance enum : StrEnum t := {| value s :=
  match s with HARD => "HARD" | SOFT => "SOFT" | NON_NEGOTIABLE => "NON_NEGOTIABLE" end |}.
Proof. str_enum. Defined.
End ConstraintType.

Module Stance.
Inductive t : Type := SUPPORT | OPPOSE | CONDITIONALLY_SUPPORT | ABSTAIN | INSUFFICIENT_EVIDENCE.
#[global] Instance eq_dec : EqDecision t.
Proof. solve_decision. Defined.
#[global, refine] Instance enum : StrEnum t := {| value s :=
  match s with
  | SUPPORT => "SUPPORT" | OPPOSE => "OPPOSE" | CONDITIONALLY_SUPPORT => "CONDITIONALLY_SUPPORT"
  | ABSTAIN => "ABSTAIN" | INSUFFICIENT_EVIDENCE => "INSUFFICIENT_EVIDENCE"
  end |}.
Proof. str_enum. Defined.
End Stance.

Module Severity.
Inductive t : Type := LOW | MEDIUM | HIGH | BLOCKING.
#[global] Instance eq_dec : EqDecision t.
Proof. solve_decision. Defined.
#[global, refine] Instance enum : StrEnum t := {| value s :=
  match s with LOW => "LOW" | MEDIUM => "MEDIUM" | HIGH => "HIGH" | BLOCKING => "BLOCKING" end |}.
Proof. str_enum. Defined.
End Severity.

Module Resolution.
Inductive t : Type := OPEN | RESOLVED | UNRESOLVED | DISPUTED.
#[global] Instance eq_dec : EqDecision t.
Proof. solve_decision. Defined.
#[global, refine] Instance enum : StrEnum t := {| value s :=
  match s with OPEN => "OPEN" | RESOLVED => "RESOLVED" | UNRESOLVED => "UNRESOLVED" | DISPUTED => "DISPUTED" end |}.
Proof. str_enum. Defined.
End Resolution.

Module CritiqueType.
Inductive t : Type :=
| EVIDENCE_GAP | LOGICAL_FALLACY | HALLUCINATED_SOURCE | MEASUREMENT_ERROR | MODEL_MISUSE | CONSTRAINT_IGNORED
| CONFLICT_OF_INTEREST | ALTERNATIVE_OMITTED | UNCERTAINTY_UNDERSTATED | CAUSAL_OVERCLAIM.
#[global] Instance eq_dec : EqDecision t.
Proof. solve_decision. Defined.
#[global, refine] Instance enum : StrEnum t := {| value s :=
  match s with
  | EVIDENCE_GAP => "EVIDENCE_GAP" | LOGICAL_FALLACY => "LOGICAL_FALLACY" | HALLUCINATED_SOURCE => "HALLUCINATED_SOURCE"
  | MEASUREMENT_ERROR => "MEASUREMENT_ERROR" | MODEL_MISUSE => "MODEL_MISUSE" | CONSTRAINT_IGNORED => "CONSTRAINT_IGNORED"
  | CONFLICT_OF_INTEREST => "CONFLICT_OF_INTEREST" | ALTERNATIVE_OMITTED => "ALTERNATIVE_OMITTED"
  | UNCERTAINTY_UNDERSTATED => "UNCERTAINTY_UNDERSTATED" | CAUSAL_OVERCLAIM => "CAUSAL_OVERCLAIM"
  end |}.
Proof. str_enum. Defined.
End CritiqueType.

(** ** Payloads *)

Record ClaimPayload : Type := mkClaim {
  cl_statement : string;
  cl_claim_type : ClaimType.t;
  cl_direction : Bearing.t;
  cl_strength : Strength.t;
  cl_supporting_evidence_ids : list uuid;
  cl_opposing_evidence_ids : list uuid;
  cl_review_status : ReviewStatus.t
}.

(** [verification] is one of the two members the [Literal] lists. *)
Record FactPayload : Type := mkFact { fa_statement : string; fa_verification : Verification.t }.

Record AssumptionPayload : Type := mkAssumption {
  as_statement : string;
  as_basis : string;
  as_materiality : string;
  as_challengeable : bool
}.

Record InferencePayload : Type := mkInference {
  in_premise_ids : list uuid;
  in_conclusion_id : uuid;
  in_rule_kind : string;
  in_rule_text : string;
  in_validity : string
}.

Record PropositionPayload : Type := mkProposition {
  pp_statement_original : string;
  pp_statement_normalized : string;
  pp_canonicalizer_version : string;
  pp_proposition_kind : string;
  pp_modality : string;
  pp_normalization_status : PropositionNormalizationStatus.t
}.

Record EvidencePayload : Type := mkEvidence {
  ev_claim_id : uuid;
  ev_relation : EvidenceRelation.t;
  ev_quote : string;
  ev_verification : Verification.t;
  ev_trust_level : TrustLevel.t;
  ev_weight : string;
  ev_provenance_kind : EvidenceProvenance.t
}.

Record UncertaintyFields : Type := mkUncertainty {
  uf_target_id : uuid;
  uf_uncertainty_type : UncertaintyType.t;
  uf_drivers : list string
}.

Record Scenario : Type := mkScenario { sc_name : string; sc_probability : string; sc_value : json }.

(** The four representations, told apart by [representation]. *)
Inductive UncertaintyPayload : Type :=
| IntervalUncertaintyPayload (fields : UncertaintyFields) (lower upper unit : string)
| DistributionUncertaintyPayload (fields : UncertaintyFields) (family : string) (parameters : dict string json) (unit : string)
| ScenariosUncertaintyPayload (fields : UncertaintyFields) (scenarios : list Scenario)
| QualitativeUncertaintyPayload (fields : UncertaintyFields) (level explanation : string).

Record RiskPayload : Type := mkRisk {
  ri_statement : string;
  ri_probability : string;
  ri_impact : string;
  ri_uncertainty_id : uuid;
  ri_affected_objective_ids : list uuid
}.

Record ImpactPayload : Type := mkImpact {
  im_alternative_id : uuid;
  im_objective_id : uuid;
  im_magnitude : string;
  im_unit : string;
  im_timeframe : string;
  im_source_artifact_id : uuid
}.

Record ObjectivePayload : Type := mkObjective {
  oj_name : string;
  oj_objective_type : string;
  oj_direction : string;
  oj_weight : string;
  oj_weight_rationale : string;
  oj_time_horizon : string;
  oj_conflicts_with_ids : list uuid
}.

Record FormalExpression : Type := mkFormal { fx_language : string; fx_ast : dict string json }.

Record ConstraintPayload : Type := mkConstraint {
  ct_name : string;
  ct_statement : string;
  ct_constraint_type : ConstraintType.t;
  ct_category : string;
  ct_evaluation_expression : FormalExpression;
  ct_formal_status : string
}.

Record AlternativePayload : Type := mkAlternative {
  at_name : string;
  at_summary : string;
  at_components : list string;
  at_origin : string;
  at_feasibility_status : string
}.

Record PositionPayload : Type := mkPosition {
  ps_target_id : uuid;
  ps_stance : Stance.t;
  ps_rationale : string;
  ps_evidence_ids : list uuid;
  ps_conditions : list string
}.

Record CritiquePayload : Type := mkCritique {
  cq_target_id : uuid;
  cq_critique_type : CritiqueType.t;
  cq_severity : Severity.t;
  cq_argument : string;
  cq_resolution : Resolution.t
}.

Inductive ArtifactPayload : Type :=
| ClaimP (p : ClaimPayload)
| FactP (p : FactPayload)
| AssumptionP (p : AssumptionPayload)
| InferenceP (p : InferencePayload)
| PropositionP (p : PropositionPayload)
| EvidenceP (p : EvidencePayload)
| UncertaintyP (p : UncertaintyPayload)
| RiskP (p : RiskPayload)
| ImpactP (p : ImpactPayload)
| ObjectiveP (p : ObjectivePayload)
| ConstraintP (p : ConstraintPayload)
| AlternativeP (p : AlternativePayload)
| PositionP (p : PositionPayload)
| CritiqueP (p : CritiquePayload).

#[global] Instance ClaimPayload_eq_dec : EqDecision ClaimPayload.
Proof. solve_decision. Defined.
#[global] Instance FactPayload_eq_dec : EqDecision FactPayload.
Proof. solve_decision. Defined.
#[global] Instance AssumptionPayload_eq_dec : EqDecision AssumptionPayload.
Proof. solve_decision. Defined.
#[global] Instance InferencePayload_eq_dec : EqDecision InferencePayload.
Proof. solve_decision. Defined.
#[global] Instance PropositionPayload_eq_dec : EqDecision PropositionPayload.
Proof. solve_decision. Defined.
#[global] Instance EvidencePayload_eq_dec : EqDecision EvidencePayload.
Proof. solve_decision. Defined.
#[global] Instance UncertaintyFields_eq_dec : EqDecision UncertaintyFields.
Proof. solve_decision. Defined.
#[global] Instance Scenario_eq_dec : EqDecision Scenario.
Proof. solve_decision. Defined.
#[global] Instance UncertaintyPayload_eq_dec : EqDecision UncertaintyPayload.
Proof. solve_decision. Defined.
#[global] Instance RiskPayload_eq_dec : EqDecision RiskPayload.
Proof. solve_decision. Defined.
#[global] Instance ImpactPayload_eq_dec : EqDecision ImpactPayload.
Proof. solve_decision. Defined.
#[global] Instance ObjectivePayload_eq_dec : EqDecision ObjectivePayload.
Proof. solve_decision. Defined.
#[global] Instance FormalExpression_eq_dec : EqDecision FormalExpression.
Proof. solve_decision. Defined.
#[global] Instance ConstraintPayload_eq_dec : EqDecision ConstraintPayload.
Proof. solve_decision. Defined.
#[global] Instance AlternativePayload_eq_dec : EqDecision AlternativePayload.
Proof. solve_decision. Defined.
#[global] Instance PositionPayload_eq_dec : EqDecision PositionPayload.
Proof. solve_decision. Defined.
#[global] Instance CritiquePayload_eq_dec : EqDecision CritiquePayload.
Proof. solve_decision. Defined.
#[global] Instance ArtifactPayload_eq_dec : EqDecision ArtifactPayload.
Proof. solve_decision. Defined.

(** ** The envelope *)

Record Provenance : Type := mkProvenance {
  po_origin : ProvenanceOrigin.t;
  po_reference : string;
  po_model_call_id : option uuid;
  po_activity_id : option uuid
}.

Record SourceReference : Type := mkSource {
  sr_reference : string;
  sr_locator : dict string json;
  sr_content_hash : string;
  sr_retrieved_at : datetime;
  sr_source_timestamp : option datetime
}.

Record ParentRelationship : Type := mkParent { pr_edge_type : GraphEdgeType; pr_target_artifact_id : uuid }.

Record Confidence : Type := mkConfidence {
  cf_kind : string;
  cf_value : string;
  cf_meaning : string;
  cf_basis_artifact_ids : list uuid
}.

Record ArtifactEnvelope : Type := mkArtifact {
  ar_id : uuid;
  ar_workspace_id : uuid;
  ar_session_id : uuid;
  ar_logical_id : uuid;
  ar_kind : ArtifactKind;
  ar_schema_version : Z;
  ar_version : Z;
  ar_status : LifecycleStatus.t;
  ar_supersedes_id : option uuid;
  ar_owner_actor_class : ActorClass;
  ar_owner_actor_id : uuid;
  ar_round : Z;
  ar_payload : ArtifactPayload;
  ar_provenance : Provenance;
  ar_source_references : list SourceReference;
  ar_parent_relationships : list ParentRelationship;
  ar_confidence : option Confidence;
  ar_metadata : dict string json;
  ar_created_at : datetime;
  ar_updated_at : datetime;
  ar_content_hash : string
}.

#[global] Instance Provenance_eq_dec : EqDecision Provenance.
Proof. solve_decision. Defined.
#[global] Instance SourceReference_eq_dec : EqDecision SourceReference.
Proof. solve_decision. Defined.
#[global] Instance ParentRelationship_eq_dec : EqDecision ParentRelationship.
Proof. solve_decision. Defined.
#[global] Instance Confidence_eq_dec : EqDecision Confidence.
Proof. solve_decision. Defined.
#[global] Instance ArtifactEnvelope_eq_dec : EqDecision ArtifactEnvelope.
Proof. solve_decision. Defined.

(** ** Texts *)

(** [NonEmpty] *)
Definition NonEmpty (s : string) : bool := filled s && negb (blank s).

Definition texts (l : list string) : res unit := guard_not (negb (forallb NonEmpty l)) ValueErrorC "must not be blank".

(** A field that is normalised before its pattern is checked, and after. *)
Definition decimal_before (pattern : string -> bool) (s : string) : res string :=
  s' ← _decimal s; _ ← guard_not (negb (pattern s')) ValueErrorC "string does not match the pattern"; Ok s'.
Definition decimal_after (pattern : string -> bool) (s : string) : res string :=
  _ ← guard_not (negb (pattern s)) ValueErrorC "string does not match the pattern"; _decimal s.

(** [_frozen_json]: the checks of [_json_value] on every level; a list and the
    tuple it becomes, and a [dict] and its frozen copy, are one value here. *)
Definition _frozen_json (d : dict string json) : res (dict string json) :=
  v ← _json_value (JObj d);
  match v with JObj d' => Ok d' | _ => raise ValueErrorC "object" end.

(** ** Validators *)

Definition new_claim (p : ClaimPayload) : res ClaimPayload := _ ← texts [cl_statement p]; Ok p.

Definition new_fact (p : FactPayload) : res FactPayload :=
  _ ← texts [fa_statement p];
  _ ← guard_not (negb (bool_decide (fa_verification p ∈ [Verification.SOURCE_VERIFIED; Verification.CROSS_CHECKED])))
        ValueErrorC "verification";
  Ok p.

Definition new_assumption (p : AssumptionPayload) : res AssumptionPayload :=
  _ ← texts [as_statement p; as_basis p; as_materiality p]; Ok p.

Definition new_inference (p : InferencePayload) : res InferencePayload :=
  _ ← texts [in_rule_kind p; in_rule_text p; in_validity p]; Ok p.

Definition new_proposition (p : PropositionPayload) : res PropositionPayload :=
  _ ← texts [pp_statement_original p; pp_statement_normalized p; pp_canonicalizer_version p; pp_proposition_kind p;
             pp_modality p];
  Ok p.

Definition attributable_source (p : EvidencePayload) : res unit :=
  guard_not (bool_decide (ev_trust_level p ∈ [TrustLevel.UNATTRIBUTED; TrustLevel.SYNTHETIC])) ValueErrorC
    "UNATTRIBUTED and SYNTHETIC material may not be EVIDENCE".

Definition new_evidence (p : EvidencePayload) : res EvidencePayload :=
  _ ← texts [ev_quote p];
  weight ← decimal_before UnitDecimalString (ev_weight p);
  _ ← attributable_source p;
  Ok (mkEvidence (ev_claim_id p) (ev_relation p) (ev_quote p) (ev_verification p) (ev_trust_level p) weight
        (ev_provenance_kind p)).

(** [IntervalUncertaintyPayload.ordered] *)
Definition ordered (lower upper : string) : res unit :=
  l ← dec_of_string lower;
  u ← dec_of_string upper;
  guard_not (dltb u l) ValueErrorC "lower must not exceed upper".

Definition new_scenario (s : Scenario) : res Scenario :=
  _ ← texts [sc_name s];
  probability ← decimal_before UnitDecimalString (sc_probability s);
  v ← _json_value (sc_value s);
  Ok (mkScenario (sc_name s) probability v).

Definition new_uncertainty (p : UncertaintyPayload) : res UncertaintyPayload :=
  match p with
  | IntervalUncertaintyPayload f lower upper unit =>
      _ ← texts (unit :: uf_drivers f);
      l ← decimal_before DecimalString lower;
      u ← decimal_before DecimalString upper;
      _ ← ordered l u;
      Ok (IntervalUncertaintyPayload f l u unit)
  | DistributionUncertaintyPayload f family parameters unit =>
      _ ← texts (family :: unit :: uf_drivers f);
      parameters' ← _frozen_json parameters;
      Ok (DistributionUncertaintyPayload f family parameters' unit)
  | ScenariosUncertaintyPayload f scenarios =>
      _ ← texts (uf_drivers f);
      scenarios' ← mapR new_scenario scenarios;
      _ ← guard_not (bool_decide (scenarios = [])) ValueErrorC "scenarios must not be empty";
      Ok (ScenariosUncertaintyPayload f scenarios')
  | QualitativeUncertaintyPayload f level explanation =>
      _ ← texts (level :: explanation :: uf_drivers f); Ok p
  end.

Definition new_risk (p : RiskPayload) : res RiskPayload :=
  _ ← texts [ri_statement p; ri_impact p];
  probability ← decimal_before UnitDecimalString (ri_probability p);
  Ok (mkRisk (ri_statement p) probability (ri_impact p) (ri_uncertainty_id p) (ri_affected_objective_ids p)).

Definition new_impact (p : ImpactPayload) : res ImpactPayload :=
  _ ← texts [im_unit p; im_timeframe p];
  magnitude ← decimal_before DecimalString (im_magnitude p);
  Ok (mkImpact (im_alternative_id p) (im_objective_id p) magnitude (im_unit p) (im_timeframe p)
        (im_source_artifact_id p)).

Definition new_objective (p : ObjectivePayload) : res ObjectivePayload :=
  _ ← texts [oj_name p; oj_objective_type p; oj_direction p; oj_weight_rationale p; oj_time_horizon p];
  weight ← decimal_before UnitDecimalString (oj_weight p);
  Ok (mkObjective (oj_name p) (oj_objective_type p) (oj_direction p) weight (oj_weight_rationale p)
        (oj_time_horizon p) (oj_conflicts_with_ids p)).

(** [ast_not_empty], after the fields *)
Definition new_formal (f : FormalExpression) : res FormalExpression :=
  _ ← texts [fx_language f];
  ast ← _frozen_json (fx_ast f);
  _ ← guard_not (bool_decide (ast = [])) ValueErrorC "ast must not be empty";
  Ok (mkFormal (fx_language f) ast).

Definition new_constraint (p : ConstraintPayload) : res ConstraintPayload :=
  _ ← texts [ct_name p; ct_statement p; ct_category p; ct_formal_status p];
  expression ← new_formal (ct_evaluation_expression p);
  Ok (mkConstraint (ct_name p) (ct_statement p) (ct_constraint_type p) (ct_category p) expression (ct_formal_status p)).

Definition new_alternative (p : AlternativePayload) : res AlternativePayload :=
  _ ← texts (at_name p :: at_summary p :: at_origin p :: at_feasibility_status p :: at_components p); Ok p.

Definition new_position (p : PositionPayload) : res PositionPayload :=
  _ ← texts (ps_rationale p :: ps_conditions p); Ok p.

Definition new_critique (p : CritiquePayload) : res CritiquePayload := _ ← texts [cq_argument p]; Ok p.

Definition new_payload (p : ArtifactPayload) : res ArtifactPayload :=
  match p with
  | ClaimP p => ClaimP <$> new_claim p
  | FactP p => FactP <$> new_fact p
  | AssumptionP p => AssumptionP <$> new_assumption p
  | InferenceP p => InferenceP <$> new_inference p
  | PropositionP p => PropositionP <$> new_proposition p
  | EvidenceP p => EvidenceP <$> new_evidence p
  | UncertaintyP p => UncertaintyP <$> new_uncertainty p
  | RiskP p => RiskP <$> new_risk p
  | ImpactP p => ImpactP <$> new_impact p
  | ObjectiveP p => ObjectiveP <$> new_objective p
  | ConstraintP p => ConstraintP <$> new_constraint p
  | AlternativeP p => AlternativeP <$> new_alternative p
  | PositionP p => PositionP <$> new_position p
  | CritiqueP p => CritiqueP <$> new_critique p
  end.

(** [payload_types]: the kind whose payload class a payload has. *)
Definition payload_kind (p : ArtifactPayload) : ArtifactKind :=
  match p with
  | ClaimP _ => CLAIM | FactP _ => FACT | AssumptionP _ => ASSUMPTION | InferenceP _ => INFERENCE
  | PropositionP _ => PROPOSITION | EvidenceP _ => EVIDENCE | UncertaintyP _ => UNCERTAINTY | RiskP _ => RISK
  | ImpactP _ => IMPACT | ObjectiveP _ => OBJECTIVE | ConstraintP _ => CONSTRAINT | AlternativeP _ => ALTERNATIVE
  | PositionP _ => POSITION | CritiqueP _ => CRITIQUE
  end.

Definition new_provenance (p : Provenance) : res Provenance := _ ← texts [po_reference p]; Ok p.

Definition _aware (value : option datetime) : res (option datetime) :=
  match value with
  | None => Ok None
  | Some t => t' ← _aware_utc t; Ok (Some t')
  end.

(** [locator_not_empty], after the fields *)
Definition new_source (s : SourceReference) : res SourceReference :=
  _ ← texts [sr_reference s];
  locator ← _frozen_json (sr_locator s);
  _ ← guard_not (negb (digest_ok (sr_content_hash s))) ValueErrorC "content_hash";
  retrieved_at ← _aware_utc (sr_retrieved_at s);
  source_timestamp ← _aware (sr_source_timestamp s);
  _ ← guard_not (bool_decide (locator = [])) ValueErrorC "locator must not be empty";
  Ok (mkSource (sr_reference s) locator (sr_content_hash s) retrieved_at source_timestamp).

Definition new_confidence (c : Confidence) : res Confidence :=
  _ ← texts [cf_kind c; cf_meaning c];
  v ← decimal_after UnitDecimalString (cf_value c);
  Ok (mkConfidence (cf_kind c) v (cf_meaning c) (cf_basis_artifact_ids c)).

Definition opt_new {A} (f : A -> res A) (o : option A) : res (option A) :=
  match o with None => Ok None | Some a => a' ← f a; Ok (Some a') end.

Definition _valid_revision (version : Z) (supersedes_id : option uuid) : bool :=
  ((version =? 1) && is_none supersedes_id) || ((1 <? version) && is_some supersedes_id).

(** ** Canonical content

    [model_dump(mode="json")] of the payloads and of the envelope's members. *)

Definition jopt {A} (f : A -> json) (o : option A) : json := match o with Some a => f a | None => JNull end.
Definition juuid (u : uuid) : json := JStr (uuid_str u).
Definition juuids (l : list uuid) : json := JList (map juuid l).
Definition jtexts (l : list string) : json := JList (map JStr l).
Definition jenum {A} `{StrEnum A} (a : A) : json := JStr (value a).

Definition dump_fields (f : UncertaintyFields) : dict string json :=
  [("target_id", juuid (uf_target_id f)); ("uncertainty_type", jenum (uf_uncertainty_type f));
   ("drivers", jtexts (uf_drivers f))].

Definition dump_scenario (s : Scenario) : json :=
  JObj [("name", JStr (sc_name s)); ("probability", JStr (sc_probability s)); ("value", sc_value s)].

Definition dump_uncertainty (p : UncertaintyPayload) : json :=
  match p with
  | IntervalUncertaintyPayload f lower upper unit =>
      JObj (dump_fields f ++ [("representation", JStr "INTERVAL"); ("lower", JStr lower); ("upper", JStr upper);
                              ("unit", JStr unit)])
  | DistributionUncertaintyPayload f family parameters unit =>
      JObj (dump_fields f ++ [("representation", JStr "DISTRIBUTION"); ("family", JStr family);
                              ("parameters", JObj parameters); ("unit", JStr unit)])
  | ScenariosUncertaintyPayload f scenarios =>
      JObj (dump_fields f ++ [("representation", JStr "SCENARIOS"); ("scenarios", JList (map dump_scenario scenarios))])
  | QualitativeUncertaintyPayload f level explanation =>
      JObj (dump_fields f ++ [("representation", JStr "QUALITATIVE"); ("level", JStr level);
                              ("explanation", JStr explanation)])
  end.

Definition dump_payload (p : ArtifactPayload) : json :=
  match p with
  | ClaimP p =>
      JObj [("statement", JStr (cl_statement p)); ("claim_type", jenum (cl_claim_type p));
            ("direction", jenum (cl_direction p)); ("strength", jenum (cl_strength p));
            ("supporting_evidence_ids", juuids (cl_supporting_evidence_ids p));
            ("opposing_evidence_ids", juuids (cl_opposing_evidence_ids p));
            ("review_status", jenum (cl_review_status p))]
  | FactP p => JObj [("statement", JStr (fa_statement p)); ("verification", jenum (fa_verification p))]
  | AssumptionP p =>
      JObj [("statement", JStr (as_statement p)); ("basis", JStr (as_basis p)); ("materiality", JStr (as_materiality p));
            ("challengeable", JBool (as_challengeable p))]
  | InferenceP p =>
      JObj [("premise_ids", juuids (in_premise_ids p)); ("conclusion_id", juuid (in_conclusion_id p));
            ("rule_kind", JStr (in_rule_kind p)); ("rule_text", JStr (in_rule_text p)); ("validity", JStr (in_validity p))]
  | PropositionP p =>
      JObj [("statement_original", JStr (pp_statement_original p)); ("statement_normalized", JStr (pp_statement_normalized p));
            ("canonicalizer_version", JStr (pp_canonicalizer_version p)); ("proposition_kind", JStr (pp_proposition_kind p));
            ("modality", JStr (pp_modality p)); ("normalization_status", jenum (pp_normalization_status p))]
  | EvidenceP p =>
      JObj [("claim_id", juuid (ev_claim_id p)); ("relation", jenum (ev_relation p)); ("quote", JStr (ev_quote p));
            ("verification", jenum (ev_verification p)); ("trust_level", jenum (ev_trust_level p));
            ("weight", JStr (ev_weight p)); ("provenance_kind", jenum (ev_provenance_kind p))]
  | UncertaintyP p => dump_uncertainty p
  | RiskP p =>
      JObj [("statement", JStr (ri_statement p)); ("probability", JStr (ri_probability p)); ("impact", JStr (ri_impact p));
            ("uncertainty_id", juuid (ri_uncertainty_id p));
            ("affected_objective_ids", juuids (ri_affected_objective_ids p))]
  | ImpactP p =>
      JObj [("alternative_id", juuid (im_alternative_id p)); ("objective_id", juuid (im_objective_id p));
            ("magnitude", JStr (im_magnitude p)); ("unit", JStr (im_unit p)); ("timeframe", JStr (im_timeframe p));
            ("source_artifact_id", juuid (im_source_artifact_id p))]
  | ObjectiveP p =>
      JObj [("name", JStr (oj_name p)); ("objective_type", JStr (oj_objective_type p)); ("direction", JStr (oj_direction p));
            ("weight", JStr (oj_weight p)); ("weight_rationale", JStr (oj_weight_rationale p));
            ("time_horizon", JStr (oj_time_horizon p)); ("conflicts_with_ids", juuids (oj_conflicts_with_ids p))]
  | ConstraintP p =>
      JObj [("name", JStr (ct_name p)); ("statement", JStr (ct_statement p)); ("constraint_type", jenum (ct_constraint_type p));
            ("category", JStr (ct_category p));
            ("evaluation_expression", JObj [("language", JStr (fx_language (ct_evaluation_expression p)));
                                            ("ast", JObj (fx_ast (ct_evaluation_expression p)))]);
            ("formal_status", JStr (ct_formal_status p))]
  | AlternativeP p =>
      JObj [("name", JStr (at_name p)); ("summary", JStr (at_summary p)); ("components", jtexts (at_components p));
            ("origin", JStr (at_origin p)); ("feasibility_status", JStr (at_feasibility_status p))]
  | PositionP p =>
      JObj [("target_id", juuid (ps_target_id p)); ("stance", jenum (ps_stance p)); ("rationale", JStr (ps_rationale p));
            ("evidence_ids", juuids (ps_evidence_ids p)); ("conditions", jtexts (ps_conditions p))]
  | CritiqueP p =>
      JObj [("target_id", juuid (cq_target_id p)); ("critique_type", jenum (cq_critique_type p));
            ("severity", jenum (cq_severity p)); ("argument", JStr (cq_argument p)); ("resolution", jenum (cq_resolution p))]
  end.

Definition dump_provenance (p : Provenance) : json :=
  JObj [("origin", jenum (po_origin p)); ("reference", JStr (po_reference p));
        ("model_call_id", jopt juuid (po_model_call_id p)); ("activity_id", jopt juuid (po_activity_id p))].

Definition dump_parent (r : ParentRelationship) : json :=
  JObj [("edge_type", jenum (pr_edge_type r)); ("target_artifact_id", juuid (pr_target_artifact_id r))].

Definition dump_confidence (c : Confidence) : json :=
  JObj [("kind", JStr (cf_kind c)); ("value", JStr (cf_value c)); ("meaning", JStr (cf_meaning c));
        ("basis_artifact_ids", juuids (cf_basis_artifact_ids c))].

Section content.
(** How the validation library writes an aware datetime. *)
Variable write : datetime -> string.

Definition dump_source (s : SourceReference) : json :=
  JObj [("reference", JStr (sr_reference s)); ("locator", JObj (sr_locator s)); ("content_hash", JStr (sr_content_hash s));
        ("retrieved_at", JStr (write (sr_retrieved_at s)));
        ("source_timestamp", jopt (fun t => JStr (write t)) (sr_source_timestamp s))].

Definition hash_preimage (a : ArtifactEnvelope) : json :=
  JObj [("workspace_id", juuid (ar_workspace_id a)); ("session_id", juuid (ar_session_id a));
        ("logical_id", juuid (ar_logical_id a)); ("kind", jenum (ar_kind a)); ("schema_version", JInt (ar_schema_version a));
        ("version", JInt (ar_version a)); ("supersedes_id", jopt juuid (ar_supersedes_id a));
        ("owner_actor_class", jenum (ar_owner_actor_class a)); ("owner_actor_id", juuid (ar_owner_actor_id a));
        ("round", JInt (ar_round a)); ("payload", dump_payload (ar_payload a));
        ("provenance", dump_provenance (ar_provenance a));
        ("source_references", JList (map dump_source (ar_source_references a)));
        ("parent_relationships", JList (map dump_parent (ar_parent_relationships a)));
        ("confidence", jopt dump_confidence (ar_confidence a)); ("metadata", JObj (ar_metadata a))].

Definition canonical_content (a : ArtifactEnvelope) : res string := canonical_json (hash_preimage a).

(** ** The envelope's validators *)

(** [ArtifactEnvelope.invariants]; [verify_hash] is off in a context that skips it. *)
Definition invariants (verify_hash : bool) (a : ArtifactEnvelope) : res unit :=
  let kind := ar_kind a in
  _ ← guard_not (negb (bool_decide (payload_kind (ar_payload a) = kind))) ValueErrorC
        ("payload does not match kind " +:+ value kind);
  _ ← guard_not (negb (_valid_revision (ar_version a) (ar_supersedes_id a))) ValueErrorC
        "version 1 must not supersede; later versions must supersede";
  _ ← guard_not (bool_decide (ar_owner_actor_class a = POLICY)) ValueErrorC "POLICY may not own content artifacts";
  _ ← guard_not (bool_decide (kind = FACT) && bool_decide (ar_owner_actor_class a = AGENT)) ValueErrorC
        "AGENT may not own FACT";
  _ ← guard_not (bool_decide (kind = FACT) && bool_decide (po_origin (ar_provenance a) = ProvenanceOrigin.LLM)) ValueErrorC
        "LLM output may not be classified directly as FACT";
  _ ← guard_not (bool_decide (kind ∈ [FACT; EVIDENCE]) && bool_decide (ar_source_references a = [])) ValueErrorC
        (value kind +:+ " requires source references");
  _ ← guard_not (bool_decide (kind = EVIDENCE)
                 && bool_decide (po_origin (ar_provenance a) = ProvenanceOrigin.HISTORICAL_SESSION)) ValueErrorC
        "historical sessions may not produce EVIDENCE";
  _ ← guard_not (bool_decide (kind = EVIDENCE) && (ar_version a =? 1)
                 && match ar_payload a with
                    | EvidenceP p => negb (bool_decide (ev_verification p = Verification.UNVERIFIED))
                    | _ => false
                    end) ValueErrorC "new EVIDENCE must start UNVERIFIED";
  _ ← guard_not (bool_decide (kind = POSITION) && is_none (ar_confidence a)) ValueErrorC "POSITION requires confidence";
  _ ← guard_not (bool_decide (kind = FACT) && is_some (ar_confidence a)) ValueErrorC "FACT may not carry model confidence";
  if verify_hash then
    h ← content_hash (hash_preimage a);
    guard_not (negb (String.eqb (ar_content_hash a) h)) ValueErrorC "content_hash does not match immutable content"
  else Ok tt.

Definition envelope_fields_ok (a : ArtifactEnvelope) : bool :=
  (0 <? ar_schema_version a) && (0 <? ar_version a) && (0 <=? ar_round a) && digest_ok (ar_content_hash a).

Definition with_fields (a : ArtifactEnvelope) payload provenance sources confidence metadata created_at updated_at
    : ArtifactEnvelope :=
  mkArtifact (ar_id a) (ar_workspace_id a) (ar_session_id a) (ar_logical_id a) (ar_kind a) (ar_schema_version a)
    (ar_version a) (ar_status a) (ar_supersedes_id a) (ar_owner_actor_class a) (ar_owner_actor_id a) (ar_round a)
    payload provenance sources (ar_parent_relationships a) confidence metadata created_at updated_at (ar_content_hash a).

Definition new_artifact (verify_hash : bool) (a : ArtifactEnvelope) : res ArtifactEnvelope :=
  validated "ArtifactEnvelope"
    (_ ← guard_not (negb (envelope_fields_ok a)) ValueErrorC "field constraints";
     payload ← new_payload (ar_payload a);
     provenance ← new_provenance (ar_provenance a);
     sources ← mapR new_source (ar_source_references a);
     confidence ← opt_new new_confidence (ar_confidence a);
     metadata ← _frozen_json (ar_metadata a);
     created_at ← _aware_utc (ar_created_at a);
     updated_at ← _aware_utc (ar_updated_at a);
     let a' := with_fields a payload provenance sources confidence metadata created_at updated_at in
     _ ← invariants verify_hash a';
     Ok a').

Definition validate_artifact : ArtifactEnvelope -> res ArtifactEnvelope := new_artifact true.

Definition with_content_hash (a : ArtifactEnvelope) (h : string) : ArtifactEnvelope :=
  mkArtifact (ar_id a) (ar_workspace_id a) (ar_session_id a) (ar_logical_id a) (ar_kind a) (ar_schema_version a)
    (ar_version a) (ar_status a) (ar_supersedes_id a) (ar_owner_actor_class a) (ar_owner_actor_id a) (ar_round a)
    (ar_payload a) (ar_provenance a) (ar_source_references a) (ar_parent_relationships a) (ar_confidence a)
    (ar_metadata a) (ar_created_at a) (ar_updated_at a) h.

(** [GENESIS_HASH] is ["sha256:" + "0" * 64]. *)
Definition artifact_content_hash (a : ArtifactEnvelope) : res string :=
  candidate ← new_artifact false (with_content_hash a GENESIS_HASH);
  content_hash (hash_preimage candidate).

End content.

(** ** Propositions in consensus *)

Definition proposition_normalization_identity (p : PropositionPayload) : res string :=
  content_hash (JObj [("canonicalizer_version", JStr (pp_canonicalizer_version p));
                      ("statement_normalized", JStr (pp_statement_normalized p));
                      ("proposition_kind", JStr (pp_proposition_kind p)); ("modality", JStr (pp_modality p))]).

Definition require_consensus_proposition (p : PropositionPayload) : res PropositionPayload :=
  _ ← guard_not (bool_decide (pp_normalization_status p = PropositionNormalizationStatus.AMBIGUOUS)) ValueErrorC
        "AMBIGUOUS proposition normalization cannot enter consensus";
  Ok p.

End Artifact.
