(* ===== verification/ArtifactFacts.v ===== *)
(** * Facts about typed artifacts

    What validation returns validates as it is; the rules the envelope enforces;
    the content hash validation accepts is the computed one. *)

From S2P Require Import Prelude.
From S2P Require Import PyDecimal.
From S2P Require Import Json.
From S2P Require Import JsonLoads.
From S2P Require Import Symbolic.
From S2P Require Import ConsensusPorts.
From S2P Require Import Ledger.
From S2P Require Import ReasoningGraph.
From S2P Require Import DecimalText.
From S2P Require Import Artifacts.
Import Graph Artifact.

Local Open Scope Z_scope.

Module ArtifactFacts.

(** ** Fields *)

Lemma value_eqb {A} `{StrEnum A, EqDecision A} (a b : A) : String.eqb (value a) (value b) = bool_decide (a = b).
Proof.
  destruct (String.eqb_spec (value a) (value b)) as [He|Hn]; symmetry.
  - apply bool_decide_eq_true. by apply value_inj.
  - apply bool_decide_eq_false. by intros ->.
Qed.

Lemma texts_Ok l u : texts l = Ok u <-> forallb NonEmpty l = true.
Proof. unfold texts. by rewrite guard_not_Ok, negb_false_iff. Qed.

Lemma frozen_Ok d d' : _frozen_json d = Ok d' -> d' = d /\ _json_value (JObj d) = Ok (JObj d).
Proof.
  unfold _frozen_json. intros (v & Hv & H)%bind_Ok. destruct (json_value_Ok _ _ Hv) as [-> Hf].
  injection H as <-. split; [done|]. by apply json_value_total.
Qed.

Lemma frozen_fixed d : _json_value (JObj d) = Ok (JObj d) -> _frozen_json d = Ok d.
Proof. unfold _frozen_json. by intros ->. Qed.

Lemma json_value_fixed v w : _json_value v = Ok w -> w = v /\ _json_value v = Ok v.
Proof. intros Hv. destruct (json_value_Ok _ _ Hv) as [-> _]. done. Qed.

Lemma before_fixed P s s' : decimal_before P s = Ok s' -> decimal_before P s' = Ok s'.
Proof.
  unfold decimal_before. intros (r & Hr & [Hp [= <-]]%guard_bind)%bind_Ok.
  by rewrite (decimal_idempotent _ _ Hr); cbn; rewrite Hp.
Qed.

Lemma after_fixed s s' : decimal_after UnitDecimalString s = Ok s' -> decimal_after UnitDecimalString s' = Ok s'.
Proof.
  unfold decimal_after. intros [Hp%negb_false_iff Hd]%guard_bind.
  by rewrite (unit_normal _ _ Hp Hd), (decimal_idempotent _ _ Hd).
Qed.

Lemma aware_fixed t t' : _aware_utc t = Ok t' -> _aware_utc t' = Ok t'.
Proof. by intros [_ H]%aware_utc_Ok. Qed.

Lemma opt_aware_fixed o o' : _aware o = Ok o' -> _aware o' = Ok o'.
Proof.
  destruct o as [t|]; cbn; [|by intros [= <-]].
  intros (t' & Ht & [= <-])%bind_Ok. cbn. by rewrite (aware_fixed _ _ Ht).
Qed.

Lemma mapR_fixed {A} (f : A -> res A) l l' :
  (forall x x', f x = Ok x' -> f x' = Ok x') -> mapR f l = Ok l' -> mapR f l' = Ok l'.
Proof.
  intros Hf Hl%mapR_Ok. apply mapR_Ok. induction Hl as [|x y l l' Hx _ IH]; constructor; [by eapply Hf|done].
Qed.

Lemma opt_new_fixed {A} (f : A -> res A) o o' :
  (forall x x', f x = Ok x' -> f x' = Ok x') -> opt_new f o = Ok o' -> opt_new f o' = Ok o'.
Proof.
  intros Hf. destruct o as [x|]; cbn; [|by intros [= <-]].
  intros (x' & Hx & [= <-])%bind_Ok. cbn. by rewrite (Hf _ _ Hx).
Qed.

(** ** Validation is stable *)

Local Arguments texts : simpl never.
Local Arguments guard_not : simpl never.
Local Arguments _frozen_json : simpl never.
Local Arguments decimal_before : simpl never.
Local Arguments decimal_after : simpl never.
Local Arguments _aware_utc : simpl never.
Local Arguments _aware : simpl never.

(** Take a successful validation apart, and rerun it on its result. *)
Ltac rerun :=
  repeat match goal with
  | H : mbind _ _ = Ok _ |- _ => let a := fresh "v" in let Ha := fresh "V" in apply bind_Ok in H as (a & Ha & H)
  | H : fmap _ _ = Ok _ |- _ => let a := fresh "v" in let Ha := fresh "V" in apply fmap_Ok in H as (a & Ha & H)
  | H : Ok _ = Ok _ |- _ => injection H as H; subst
  | H : decimal_before _ ?s = Ok ?t |- _ => assert_fails (constr_eq s t); apply before_fixed in H
  | H : decimal_after _ ?s = Ok ?t |- _ => assert_fails (constr_eq s t); apply after_fixed in H
  | H : _frozen_json ?d = Ok ?e |- _ => assert_fails (constr_eq d e); apply frozen_Ok in H as [-> H]; apply frozen_fixed in H
  | H : _aware_utc ?t = Ok ?u |- _ => assert_fails (constr_eq t u); apply aware_fixed in H
  | H : _aware ?t = Ok ?u |- _ => assert_fails (constr_eq t u); apply opt_aware_fixed in H
  | u : unit |- _ => destruct u
  end; cbn;
  repeat match goal with H : ?x = Ok _ |- context [?x] => rewrite H; cbn end.

Lemma evidence_fixed p p' : new_evidence p = Ok p' -> new_evidence p' = Ok p'.
Proof. unfold new_evidence, attributable_source. intros H. rerun. done. Qed.

Lemma scenario_fixed p p' : new_scenario p = Ok p' -> new_scenario p' = Ok p'.
Proof.
  unfold new_scenario. intros H. rerun.
  match goal with V : _json_value _ = Ok _ |- _ => apply json_value_fixed in V as [-> V]; by rewrite V end.
Qed.

Lemma constraint_fixed p p' : new_constraint p = Ok p' -> new_constraint p' = Ok p'.
Proof. unfold new_constraint, new_formal. intros H. by rerun. Qed.

Lemma scenarios_nil l l' : mapR new_scenario l = Ok l' -> bool_decide (l' = []) = bool_decide (l = []).
Proof. intros Hl%mapR_Ok. by destruct Hl. Qed.

Lemma uncertainty_fixed p p' : new_uncertainty p = Ok p' -> new_uncertainty p' = Ok p'.
Proof.
  destruct p as [f lo up u|f fam par u|f sc|f le ex]; cbn [new_uncertainty]; intros H; rerun; try done.
  match goal with V : mapR _ _ = Ok _ |- _ =>
    rewrite (mapR_fixed _ _ _ scenario_fixed V), (scenarios_nil _ _ V) end. cbn. by rerun.
Qed.

Lemma payload_fixed p p' : new_payload p = Ok p' -> new_payload p' = Ok p' /\ payload_kind p' = payload_kind p.
Proof.
  destruct p; cbn [new_payload]; intros (q & Hq & ->)%fmap_Ok; cbn [new_payload payload_kind];
    (split; [|done]); apply fmap_Ok; exists q; (split; [|done]);
    try (by eapply evidence_fixed); try (by eapply constraint_fixed); try (by eapply uncertainty_fixed);
    repeat match type of Hq with ?f _ = _ => progress unfold f in Hq |- * end; by rerun.
Qed.

Lemma source_fixed s s' : new_source s = Ok s' -> new_source s' = Ok s'.
Proof. unfold new_source. intros H. by rerun. Qed.

Lemma confidence_fixed c c' : new_confidence c = Ok c' -> new_confidence c' = Ok c'.
Proof. unfold new_confidence. intros H. by rerun. Qed.

Section envelope.
Variable write : datetime -> string.

(** Every part of an envelope as validation leaves it. *)
Record valid_parts (verify : bool) (a : ArtifactEnvelope) : Prop := {
  vp_fields : envelope_fields_ok a = true;
  vp_payload : new_payload (ar_payload a) = Ok (ar_payload a);
  vp_provenance : new_provenance (ar_provenance a) = Ok (ar_provenance a);
  vp_sources : mapR new_source (ar_source_references a) = Ok (ar_source_references a);
  vp_confidence : opt_new new_confidence (ar_confidence a) = Ok (ar_confidence a);
  vp_metadata : _frozen_json (ar_metadata a) = Ok (ar_metadata a);
  vp_created : _aware_utc (ar_created_at a) = Ok (ar_created_at a);
  vp_updated : _aware_utc (ar_updated_at a) = Ok (ar_updated_at a);
  vp_invariants : invariants write verify a = Ok tt
}.

Lemma new_artifact_valid verify a a' : new_artifact write verify a = Ok a' -> valid_parts verify a'.
Proof.
  unfold new_artifact. rewrite validated_Ok. intros ([] & Hf & H)%bind_Ok. apply guard_not_Ok, negb_false_iff in Hf.
  apply bind_Ok in H as (p & [Hp _]%payload_fixed & H). apply bind_Ok in H as (pr & Hpr & H).
  apply bind_Ok in H as (so & Hso%(mapR_fixed _ _ _ source_fixed) & H).
  apply bind_Ok in H as (co & Hco%(opt_new_fixed _ _ _ confidence_fixed) & H).
  apply bind_Ok in H as (me & [-> Hme%frozen_fixed]%frozen_Ok & H).
  apply bind_Ok in H as (ct & Hct%aware_fixed & H). apply bind_Ok in H as (ut & Hut%aware_fixed & H).
  apply bind_Ok in H as ([] & Hi & [= <-]). unfold new_provenance in Hpr. apply bind_Ok in Hpr as ([] & Hpr & [= <-]).
  split; try done. unfold new_provenance. cbn [with_fields ar_provenance]. by rewrite Hpr.
Qed.

Lemma valid_new_artifact verify a : valid_parts verify a -> new_artifact write verify a = Ok a.
Proof.
  intros [Hf Hp Hpr Hso Hco Hme Hct Hut Hi]. unfold new_artifact. apply validated_Ok. rewrite Hf.
  apply guard_bind. split; [done|]. rewrite Hp, Hpr, Hso, Hco, Hme, Hct, Hut. cbn [mbind res_bind].
  assert (Ha : with_fields a (ar_payload a) (ar_provenance a) (ar_source_references a) (ar_confidence a) (ar_metadata a)
                 (ar_created_at a) (ar_updated_at a) = a) by by destruct a.
  by rewrite Ha, Hi.
Qed.

(** What [new_artifact] returns validates as it is. *)
Lemma artifact_fixed verify a a' : new_artifact write verify a = Ok a' -> new_artifact write verify a' = Ok a'.
Proof. intros H. by eapply valid_new_artifact, new_artifact_valid. Qed.

Lemma must (P : Prop) `{Decision P} : negb (bool_decide P) = false <-> P.
Proof. by rewrite negb_false_iff, bool_decide_eq_true. Qed.

Lemma unless (P : Prop) `{Decision P} b : bool_decide P && b = false <-> (P -> b = false).
Proof. destruct (bool_decide_reflect P); cbn; naive_solver. Qed.

Lemma hash_checked a :
  (h ← content_hash (hash_preimage write a);
   guard_not (negb (String.eqb (ar_content_hash a) h)) ValueErrorC "content_hash does not match immutable content") = Ok tt
  <-> content_hash (hash_preimage write a) = Ok (ar_content_hash a).
Proof.
  rewrite bind_Ok. setoid_rewrite guard_not_Ok. setoid_rewrite negb_false_iff. setoid_rewrite String.eqb_eq. naive_solver.
Qed.

(** The checks of [invariants], one by one. *)
Record rules (a : ArtifactEnvelope) : Prop := {
  ru_payload : payload_kind (ar_payload a) = ar_kind a;
  ru_revision : _valid_revision (ar_version a) (ar_supersedes_id a) = true;
  ru_policy : ar_owner_actor_class a <> POLICY;
  ru_fact_owner : ar_kind a = FACT -> ar_owner_actor_class a <> AGENT;
  ru_fact_origin : ar_kind a = FACT -> po_origin (ar_provenance a) <> ProvenanceOrigin.LLM;
  ru_sourced : ar_kind a = FACT \/ ar_kind a = EVIDENCE -> ar_source_references a <> [];
  ru_historical : ar_kind a = EVIDENCE -> po_origin (ar_provenance a) <> ProvenanceOrigin.HISTORICAL_SESSION;
  ru_unverified : forall p, ar_payload a = EvidenceP p -> ar_version a = 1 -> ev_verification p = Verification.UNVERIFIED;
  ru_position : ar_kind a = POSITION -> ar_confidence a <> None;
  ru_fact_confidence : ar_kind a = FACT -> ar_confidence a = None
}.

Lemma invariants_iff verify a :
  invariants write verify a = Ok tt <->
  rules a /\ (verify = true -> content_hash (hash_preimage write a) = Ok (ar_content_hash a)).
Proof.
  unfold invariants. rewrite !guard_bind, must, negb_false_iff, bool_decide_eq_false, <- !andb_assoc, !unless,
    !bool_decide_eq_false, andb_false_iff.
  assert (Hh : (if verify then h ← content_hash (hash_preimage write a);
                  guard_not (negb (String.eqb (ar_content_hash a) h)) ValueErrorC "content_hash does not match immutable content"
                else Ok tt) = Ok tt <-> (verify = true -> content_hash (hash_preimage write a) = Ok (ar_content_hash a))).
  { destruct verify; [|naive_solver]. rewrite hash_checked. naive_solver. }
  rewrite Hh. clear Hh. split.
  - intros (Hk & ? & ? & ? & ? & Hs & ? & Hu & Hp & Hc & ?). split; [|done]. split; try done.
    + intros Hor. apply Hs. set_solver.
    + intros p Hpl Hv. rewrite Hpl in Hk, Hu. destruct Hu as [Hu|Hu]; [done|by apply Z.eqb_neq in Hu|].
      by apply must in Hu.
    + intros Hx Hn. rewrite Hn in Hp. by specialize (Hp Hx).
    + intros Hx. specialize (Hc Hx). by destruct (ar_confidence a).
  - intros [[Hk ? ? ? ? Hs ? Hu Hp Hc] ?]. repeat (split; [done|]). split; [set_solver|]. split; [done|]. split.
    + intros He. destruct (Z.eqb_spec (ar_version a) 1) as [Hv|]; [right|by left].
      destruct (ar_payload a) eqn:Hpl; try done. apply must. by eapply Hu.
    + split; [|split; [|done]].
      * intros Hx. specialize (Hp Hx). by destruct (ar_confidence a).
      * intros Hx. by rewrite (Hc Hx).
Qed.

(** ** The computed hash *)

(** The members the constructor works on do not depend on the hash, nor does the
    hashed content. *)
Lemma rehashed verify verify' a g h a' :
  digest_ok h = true -> new_artifact write verify (with_content_hash a g) = Ok a' ->
  invariants write verify' (with_content_hash a' h) = Ok tt ->
  new_artifact write verify' (with_content_hash a h) = Ok (with_content_hash a' h).
Proof.
  intros Hd H Hi. unfold new_artifact in *. apply validated_Ok in H. apply validated_Ok.
  apply bind_Ok in H as ([] & Hf & H). apply guard_not_Ok, negb_false_iff in Hf.
  assert (Hf' : envelope_fields_ok (with_content_hash a h) = true).
  { unfold envelope_fields_ok in *. apply andb_true_iff in Hf as [Hf _]. apply andb_true_iff. by split. }
  rewrite Hf'. apply guard_bind. split; [done|].
  apply bind_Ok in H as (p & Hp & H). apply bind_Ok in H as (pr & Hpr & H). apply bind_Ok in H as (so & Hso & H).
  apply bind_Ok in H as (co & Hco & H). apply bind_Ok in H as (me & Hme & H). apply bind_Ok in H as (ct & Hct & H).
  apply bind_Ok in H as (ut & Hut & H). apply bind_Ok in H as ([] & _ & [= <-]).
  cbn [ar_payload ar_provenance ar_source_references ar_confidence ar_metadata ar_created_at ar_updated_at with_content_hash] in *.
  rewrite Hp, Hpr, Hso, Hco, Hme, Hct, Hut. cbn [mbind res_bind].
  change (with_fields (with_content_hash a h) p pr so co me ct ut)
    with (with_content_hash (with_fields (with_content_hash a g) p pr so co me ct ut) h).
  by rewrite Hi.
Qed.

Lemma invariants_rehashed a h :
  content_hash (hash_preimage write a) = Ok h -> invariants write false a = Ok tt ->
  invariants write true (with_content_hash a h) = Ok tt.
Proof. intros Hh [Hr _]%invariants_iff. apply invariants_iff. split; [|done]. by destruct Hr; split. Qed.

Lemma invariants_unhashed a g : invariants write true a = Ok tt -> invariants write false (with_content_hash a g) = Ok tt.
Proof. intros [Hr _]%invariants_iff. apply invariants_iff. split; [|done]. by destruct Hr; split. Qed.

(** C26. Validation of an envelope.  What it returns validates as it is, keeps
    every rule of the envelope and carries the hash of its own content; and a
    content hash is accepted exactly when it is the one [artifact_content_hash]
    computes from the same members. *)
Theorem artifact_validation_exact a :
  (forall a', validate_artifact write a = Ok a' ->
     validate_artifact write a' = Ok a' /\ rules a' /\ content_hash (hash_preimage write a') = Ok (ar_content_hash a')) /\
  (forall h, artifact_content_hash write a = Ok h <->
     exists a', validate_artifact write (with_content_hash a h) = Ok a' /\ ar_content_hash a' = h).
Proof.
  split; [|intros h; split].
  - intros a' Ha. split; [by apply (artifact_fixed true a)|].
    destruct (proj1 (invariants_iff true a') (vp_invariants _ _ (new_artifact_valid true a a' Ha))) as [Hr Hh]. by split; [|apply Hh].
  - unfold artifact_content_hash. intros (b & Hb & Hh)%bind_Ok. exists (with_content_hash b h). split; [|done].
    pose proof (new_artifact_valid false _ b Hb) as Hv.
    eapply (rehashed false true); [by eapply content_hash_digest|exact Hb|]. apply invariants_rehashed; [done|apply Hv].
  - intros (b & Hb & Hh). pose proof (new_artifact_valid true _ b Hb) as Hv.
    destruct (proj1 (invariants_iff true b) (vp_invariants _ _ Hv)) as [_ Hc]. unfold artifact_content_hash.
    rewrite (rehashed true false a h GENESIS_HASH b); [|by vm_compute|done|by apply invariants_unhashed, Hv].
    cbn [mbind res_bind]. change (hash_preimage write (with_content_hash b GENESIS_HASH)) with (hash_preimage write b).
    rewrite (Hc eq_refl). by rewrite Hh.
Qed.

End envelope.
End ArtifactFacts.
