(* ===== verification/ArtifactSchema.v ===== *)
(** * The database's own checks of artifacts

    [alembic/versions/20260905_0005_reasoning_schema.py] and
    [20260905_0006_reasoning_graph.py]: the SQL functions behind the check
    constraints of [reasoning_artifacts] and the triggers on it and on the graph
    tables, as the migrations define them.  A [boolean] of SQL has three values:
    [None] is NULL.  A check constraint fails only on FALSE, an [IF] branches only
    on TRUE, and a function's RETURN of NULL is NULL. *)

From S2P Require Import Prelude.
From S2P Require Import PyDecimal.
From S2P Require Import Sha256.
From S2P Require Import Json.
From S2P Require Import Symbolic.
From S2P Require Import ConsensusPorts.
From S2P Require Import Ledger.
From S2P Require Import ReasoningGraph.
From S2P Require Import DecimalText.
From S2P Require Import Artifacts.
Import Graph Artifact.

Module Schema.

(** ** SQL *)

Definition sql : Type := option bool.

Definition sql_and (a b : sql) : sql :=
  match a, b with
  | Some false, _ | _, Some false => Some false
  | Some true, Some true => Some true
  | _, _ => None
  end.
Definition sql_not (a : sql) : sql := option_map negb a.
Definition sql_or (a b : sql) : sql := sql_not (sql_and (sql_not a) (sql_not b)).
Definition all_of (l : list sql) : sql := foldr sql_and (Some true) l.
Definition any_of (l : list sql) : sql := foldr sql_or (Some false) l.
Definition is_true (a : sql) : bool := match a with Some true => true | _ => false end.

(** [COALESCE(a, false)] *)
Definition coalesce (a : sql) : sql := Some (default false a).

(** [document -> key]; [document ->> key] and [value #>> '{}'].  The text of a
    composite value is only ever compared with words no such text equals. *)
Definition jget (document : option json) (key : string) : option json :=
  match document with Some (JObj l) => dict_get key l | _ => None end.
Definition jtext (v : option json) : option string :=
  match v with
  | None | Some JNull => None
  | Some (JStr s) => Some s
  | Some v => Some (_canonical_json v)
  end.
Definition jget_text (document : option json) (key : string) : option string := jtext (jget document key).

Definition jsonb_typeof (v : option json) : option string :=
  match v with
  | None => None
  | Some JNull => Some "null" | Some (JBool _) => Some "boolean" | Some (JInt _) | Some (JFloat _) => Some "number"
  | Some (JStr _) => Some "string" | Some (JList _) => Some "array" | Some (JObj _) => Some "object"
  end.

Definition sql_eq (a : option string) (s : string) : sql := (fun x => String.eqb x s) <$> a.
Definition sql_in (a : option string) (l : list string) : sql := (fun x => existsb (String.eqb x) l) <$> a.
Definition has_type (v : option json) (t : string) : sql := sql_eq (jsonb_typeof v) t.

(** [jsonb_array_elements], [jsonb_object_keys]: no rows for NULL. *)
Definition elements (v : option json) : list json := match v with Some (JList l) => l | _ => [] end.
Definition object_keys (v : option json) : list string := match v with Some (JObj l) => map fst l | _ => [] end.

(** [document ? key] *)
Definition has_key (v : option json) (key : string) : sql :=
  match v with None => None | Some _ => Some (bool_decide (key ∈ object_keys v)) end.

(** ** The helper functions *)

Definition jsonb_has_exact_keys (document : option json) (required optional : list string) : sql :=
  if is_true (sql_not (has_type document "object")) then Some false
  else Some (negb (existsb (fun k => is_true (sql_not (has_key document k))) required)
             && forallb (fun k => bool_decide (k ∈ required ++ optional)) (object_keys document)).

(** [length(btrim(s)) > 0] *)
Definition btrim (s : string) : list ascii := rstrip " "%char (drop_char " "%char (chars s)).
Definition jsonb_nonempty_text (document : option json) (key : string) : sql :=
  sql_and (has_type (jget document key) "string") ((fun s => nonempty (btrim s)) <$> jget_text document key).

(** A pattern that is a sequence of character classes: what is left after it. *)
Fixpoint eats (classes : list (ascii -> bool)) (l : list ascii) : option (list ascii) :=
  match classes with
  | [] => Some l
  | p :: classes' => match l with c :: l' => if p c then eats classes' l' else None | [] => None end
  end.

Definition lit (c : ascii) : ascii -> bool := Ascii.eqb c.

(** The pattern of [jsonb_uuid_text]: RFC versions 1 to 8 and the RFC variant. *)
Definition uuid_classes : list (ascii -> bool) :=
  repeat is_hex 8 ++ lit "-" :: repeat is_hex 4 ++ lit "-" :: char_in 49 56 :: repeat is_hex 3 ++ lit "-"
  :: (fun c => bool_decide (c ∈ ["8"%char; "9"%char; "a"%char; "b"%char])) :: repeat is_hex 3 ++ lit "-" :: repeat is_hex 12.
Definition uuid_pattern (s : string) : bool := bool_decide (eats uuid_classes (chars s) = Some []).

Definition jsonb_uuid_text (v : option json) : sql := sql_and (has_type v "string") (uuid_pattern <$> jtext v).

Definition jsonb_all (item_ok : option json -> bool) (v : option json) : sql :=
  if is_true (sql_not (has_type v "array")) then Some false else Some (forallb (fun x => item_ok (Some x)) (elements v)).

Definition jsonb_all_uuid_texts : option json -> sql :=
  jsonb_all (fun item => negb (is_true (sql_not (jsonb_uuid_text item)))).

Definition jsonb_all_nonempty_texts : option json -> sql :=
  jsonb_all (fun item => negb (is_true (sql_or (sql_not (has_type item "string"))
                                               ((fun s => negb (nonempty (btrim s))) <$> jtext item)))).

(** The pattern of [jsonb_decimal_string]: as [DecimalString], without a trailing
    zero in the fraction. *)
Definition normal_decimal (s : string) : bool :=
  let '(i, r) := span is_digit (snd (minus_of (chars s))) in
  int_part i && frac_part is_digit r && bool_decide (rstrip "0"%char r = r).

Definition jsonb_decimal_string (v : option json) : sql :=
  all_of [has_type v "string"; normal_decimal <$> jtext v; sql_not (sql_eq (jtext v) "-0")].

(** [x::numeric], on texts that passed the pattern. *)
Definition numeric (v : option string) : option dec :=
  match v with Some s => match dec_of_string s with Ok d => Some d | Raise _ => None end | None => None end.

Definition jsonb_unit_decimal_string (v : option json) : sql :=
  if is_true (sql_not (jsonb_decimal_string v)) then Some false
  else (fun d => dleb dzero d && dleb d dunit) <$> numeric (jtext v).

(** ** [validate_reasoning_artifact_payload] *)

Definition uncertainty_check (b : option json) : sql :=
  if is_true (any_of [sql_not (sql_in (jget_text b "uncertainty_type")
                                 ["EPISTEMIC"; "ALEATORIC"; "MODEL"; "MEASUREMENT"; "SEMANTIC"; "STRATEGIC"]);
                      sql_not (jsonb_uuid_text (jget b "target_id"));
                      sql_not (jsonb_all_nonempty_texts (jget b "drivers"))])
  then Some false
  else
    let fields := ["target_id"; "uncertainty_type"; "representation"; "drivers"] in
    match jget_text b "representation" with
    | Some "INTERVAL" =>
        if is_true (any_of [sql_not (jsonb_has_exact_keys b (fields ++ ["lower"; "upper"; "unit"]) []);
                            sql_not (jsonb_decimal_string (jget b "lower")); sql_not (jsonb_decimal_string (jget b "upper"));
                            sql_not (jsonb_nonempty_text b "unit")])
        then Some false
        else l ← numeric (jget_text b "lower"); u ← numeric (jget_text b "upper"); Some (dleb l u)
    | Some "DISTRIBUTION" =>
        coalesce (all_of [jsonb_has_exact_keys b (fields ++ ["family"; "parameters"; "unit"]) [];
                          jsonb_nonempty_text b "family"; has_type (jget b "parameters") "object";
                          jsonb_nonempty_text b "unit"])
    | Some "SCENARIOS" =>
        if is_true (any_of [sql_not (jsonb_has_exact_keys b (fields ++ ["scenarios"]) []);
                            sql_not (has_type (jget b "scenarios") "array");
                            Some (bool_decide (elements (jget b "scenarios") = []))])
        then Some false
        else Some (forallb (fun scenario =>
                     is_true (all_of [jsonb_has_exact_keys (Some scenario) ["name"; "probability"; "value"] [];
                                      jsonb_nonempty_text (Some scenario) "name";
                                      jsonb_unit_decimal_string (jget (Some scenario) "probability")]))
                     (elements (jget b "scenarios")))
    | Some "QUALITATIVE" =>
        coalesce (all_of [jsonb_has_exact_keys b (fields ++ ["level"; "explanation"]) [];
                          jsonb_nonempty_text b "level"; jsonb_nonempty_text b "explanation"])
    | _ => Some false
    end.

Definition payload_check (kind_value : string) (body : json) : sql :=
  let b := Some body in
  let text := jsonb_nonempty_text b in
  let id k := jsonb_uuid_text (jget b k) in
  let ids k := jsonb_all_uuid_texts (jget b k) in
  let one_of k := sql_in (jget_text b k) in
  let keys l := jsonb_has_exact_keys b l [] in
  if is_true (sql_not (has_type b "object")) then Some false
  else match kind_value with
  | "CLAIM" =>
      coalesce (all_of
        [keys ["statement"; "claim_type"; "direction"; "strength"; "supporting_evidence_ids"; "opposing_evidence_ids";
               "review_status"];
         text "statement";
         one_of "claim_type" ["FACTUAL"; "CAUSAL"; "PREDICTIVE"; "EVALUATIVE"; "PROCEDURAL"; "HYPOTHESIS"];
         one_of "direction" ["SUPPORTS"; "OPPOSES"]; one_of "strength" ["WEAK"; "MODERATE"; "STRONG"; "DECISIVE"];
         ids "supporting_evidence_ids"; ids "opposing_evidence_ids";
         one_of "review_status" ["PROPOSED"; "ACCEPTED"; "CONTESTED"; "REJECTED"]])
  | "FACT" =>
      coalesce (all_of [keys ["statement"; "verification"]; text "statement";
                        one_of "verification" ["SOURCE_VERIFIED"; "CROSS_CHECKED"]])
  | "ASSUMPTION" =>
      coalesce (all_of [keys ["statement"; "basis"; "materiality"; "challengeable"]; text "statement"; text "basis";
                        text "materiality"; has_type (jget b "challengeable") "boolean"])
  | "INFERENCE" =>
      coalesce (all_of [keys ["premise_ids"; "conclusion_id"; "rule_kind"; "rule_text"; "validity"]; ids "premise_ids";
                        id "conclusion_id"; text "rule_kind"; text "rule_text"; text "validity"])
  | "PROPOSITION" =>
      coalesce (all_of
        [keys ["statement_original"; "statement_normalized"; "canonicalizer_version"; "proposition_kind"; "modality";
               "normalization_status"];
         text "statement_original"; text "statement_normalized"; text "canonicalizer_version"; text "proposition_kind";
         text "modality"; one_of "normalization_status" ["PROPOSED"; "VALIDATED"; "AMBIGUOUS"]])
  | "EVIDENCE" =>
      coalesce (all_of
        [keys ["claim_id"; "relation"; "quote"; "verification"; "trust_level"; "weight"; "provenance_kind"];
         id "claim_id"; one_of "relation" ["SUPPORTS"; "OPPOSES"; "QUALIFIES"]; text "quote";
         one_of "verification" ["UNVERIFIED"; "SOURCE_VERIFIED"; "CROSS_CHECKED"; "DISPUTED"; "REJECTED"];
         one_of "trust_level" ["PRIMARY"; "AUTHORITATIVE"; "SECONDARY"; "COMMERCIAL"];
         jsonb_unit_decimal_string (jget b "weight");
         one_of "provenance_kind" ["RETRIEVAL"; "TOOL"; "SIMULATION"; "SYMBOLIC"; "HUMAN"; "IMPORT"]])
  | "UNCERTAINTY" => uncertainty_check b
  | "RISK" =>
      coalesce (all_of [keys ["statement"; "probability"; "impact"; "uncertainty_id"; "affected_objective_ids"];
                        text "statement"; jsonb_unit_decimal_string (jget b "probability"); text "impact";
                        id "uncertainty_id"; ids "affected_objective_ids"])
  | "IMPACT" =>
      coalesce (all_of [keys ["alternative_id"; "objective_id"; "magnitude"; "unit"; "timeframe"; "source_artifact_id"];
                        id "alternative_id"; id "objective_id"; jsonb_decimal_string (jget b "magnitude"); text "unit";
                        text "timeframe"; id "source_artifact_id"])
  | "OBJECTIVE" =>
      coalesce (all_of
        [keys ["name"; "objective_type"; "direction"; "weight"; "weight_rationale"; "time_horizon"; "conflicts_with_ids"];
         text "name"; text "objective_type"; text "direction"; jsonb_unit_decimal_string (jget b "weight");
         text "weight_rationale"; text "time_horizon"; ids "conflicts_with_ids"])
  | "CONSTRAINT" =>
      let expression := jget b "evaluation_expression" in
      coalesce (all_of
        [keys ["name"; "statement"; "constraint_type"; "category"; "evaluation_expression"; "formal_status"];
         text "name"; text "statement"; one_of "constraint_type" ["HARD"; "SOFT"; "NON_NEGOTIABLE"]; text "category";
         jsonb_has_exact_keys expression ["language"; "ast"] []; jsonb_nonempty_text expression "language";
         has_type (jget expression "ast") "object"; (fun v => negb (bool_decide (v = JObj []))) <$> jget expression "ast";
         text "formal_status"])
  | "ALTERNATIVE" =>
      coalesce (all_of [keys ["name"; "summary"; "components"; "origin"; "feasibility_status"]; text "name"; text "summary";
                        jsonb_all_nonempty_texts (jget b "components"); text "origin"; text "feasibility_status"])
  | "POSITION" =>
      coalesce (all_of
        [keys ["target_id"; "stance"; "rationale"; "evidence_ids"; "conditions"]; id "target_id";
         one_of "stance" ["SUPPORT"; "OPPOSE"; "CONDITIONALLY_SUPPORT"; "ABSTAIN"; "INSUFFICIENT_EVIDENCE"];
         text "rationale"; ids "evidence_ids"; jsonb_all_nonempty_texts (jget b "conditions")])
  | "CRITIQUE" =>
      coalesce (all_of
        [keys ["target_id"; "critique_type"; "severity"; "argument"; "resolution"]; id "target_id";
         one_of "critique_type" ["EVIDENCE_GAP"; "LOGICAL_FALLACY"; "HALLUCINATED_SOURCE"; "MEASUREMENT_ERROR"; "MODEL_MISUSE";
                                 "CONSTRAINT_IGNORED"; "CONFLICT_OF_INTEREST"; "ALTERNATIVE_OMITTED";
                                 "UNCERTAINTY_UNDERSTATED"; "CAUSAL_OVERCLAIM"];
         one_of "severity" ["LOW"; "MEDIUM"; "HIGH"; "BLOCKING"]; text "argument";
         one_of "resolution" ["OPEN"; "RESOLVED"; "UNRESOLVED"; "DISPUTED"]])
  | _ => Some false
  end.

(** ** [validate_reasoning_artifact_envelope] *)

(** The pattern of a timestamp: date and time, an optional fraction, an offset. *)
Definition timestamp_pattern (s : string) : bool :=
  let two := [is_digit; is_digit] in
  let date := two ++ two ++ lit "-" :: two ++ lit "-" :: two ++ lit "T" :: two ++ lit ":" :: two ++ lit ":" :: two in
  let offset l :=
    bool_decide (l = ["Z"%char])
    || bool_decide (eats ((fun c => bool_decide (c ∈ ["+"%char; "-"%char])) :: two ++ lit ":" :: two) l = Some []) in
  match eats date (chars s) with
  | None => false
  | Some l =>
      match l with
      | "."%char :: f => let '(d, r) := span is_digit f in nonempty d && offset r
      | _ => offset l
      end
  end.

Definition digest_pattern (s : string) : bool := digest_ok s.

(** A member that may be missing, or be a JSON null. *)
Definition missing_or (doc : option json) (key : string) (ok : sql) : sql :=
  any_of [sql_not (has_key doc key); (fun v => bool_decide (v = JNull)) <$> jget doc key; ok].

Definition provenance_check (p : option json) : bool :=
  is_true (all_of
    [jsonb_has_exact_keys p ["origin"; "reference"] ["model_call_id"; "activity_id"];
     sql_in (jget_text p "origin") ["HUMAN"; "LLM"; "RETRIEVAL"; "TOOL"; "SIMULATION"; "SYMBOLIC"; "IMPORT"; "HISTORICAL_SESSION"];
     jsonb_nonempty_text p "reference";
     missing_or p "model_call_id" (jsonb_uuid_text (jget p "model_call_id"));
     missing_or p "activity_id" (jsonb_uuid_text (jget p "activity_id"))]).

Definition source_check (item : json) : bool :=
  let i := Some item in
  is_true (all_of
    [jsonb_has_exact_keys i ["reference"; "locator"; "content_hash"; "retrieved_at"] ["source_timestamp"];
     jsonb_nonempty_text i "reference"; has_type (jget i "locator") "object";
     (fun v => negb (bool_decide (v = JObj []))) <$> jget i "locator";
     digest_pattern <$> jget_text i "content_hash"; timestamp_pattern <$> jget_text i "retrieved_at";
     missing_or i "source_timestamp" (timestamp_pattern <$> jget_text i "source_timestamp")]).

Definition relationship_check (item : json) : bool :=
  let i := Some item in
  is_true (all_of
    [jsonb_has_exact_keys i ["edge_type"; "target_artifact_id"] [];
     sql_in (jget_text i "edge_type")
       ["SUPPORTS"; "OPPOSES"; "CONTRADICTS"; "DERIVED_FROM"; "BASED_ON_ASSUMPTION"; "FORMALIZES"; "QUANTIFIES"; "IMPACTS";
        "CONSTRAINS"; "VIOLATES"; "SATISFIES"; "INFEASIBLE_UNKNOWN"; "ATTACKS"; "RESPONDS_TO"; "SUPERSEDES"; "ADVOCATES"];
     jsonb_uuid_text (jget i "target_artifact_id")]).

Definition confidence_check (c : option json) : bool :=
  is_true (all_of
    [jsonb_has_exact_keys c ["kind"; "value"; "meaning"; "basis_artifact_ids"] []; jsonb_nonempty_text c "kind";
     jsonb_unit_decimal_string (jget c "value"); jsonb_nonempty_text c "meaning";
     jsonb_all_uuid_texts (jget c "basis_artifact_ids")]).

(** Neither SQL NULL nor a JSON null. *)
Definition not_null (v : option json) : bool := match v with None | Some JNull => false | Some _ => true end.

Definition envelope_check (kind_value : string) (version_value : Z) (actor_class : string)
    (payload provenance sources relationships : json) (confidence : option json) (metadata : json) : sql :=
  let kind k := String.eqb kind_value k in
  let origin := jget_text (Some provenance) "origin" in
  if String.eqb actor_class "POLICY" || (kind "FACT" && String.eqb actor_class "AGENT") then Some false
  else if negb (provenance_check (Some provenance)) then Some false
  else if kind "FACT" && is_true (sql_eq origin "LLM") then Some false
  else if kind "EVIDENCE" && is_true (sql_eq origin "HISTORICAL_SESSION") then Some false
  else if is_true (sql_not (has_type (Some sources) "array")) then Some false
  else if (kind "FACT" || kind "EVIDENCE") && bool_decide (elements (Some sources) = []) then Some false
  else if negb (forallb source_check (elements (Some sources))) then Some false
  else if is_true (sql_not (has_type (Some relationships) "array")) then Some false
  else if negb (forallb relationship_check (elements (Some relationships))) then Some false
  else if not_null confidence && negb (confidence_check confidence) then Some false
  else if kind "POSITION" && negb (not_null confidence) then Some false
  else if kind "FACT" && not_null confidence then Some false
  else if kind "EVIDENCE" && (version_value =? 1)%Z
          && is_true (sql_not (sql_eq (jget_text (Some payload) "verification") "UNVERIFIED")) then Some false
  else has_type (Some metadata) "object".

Section row.
Variable write : datetime -> string.

(** The two check constraints on the row of an artifact; the columns hold the
    dumped members, and a missing confidence is a JSON null. *)
Definition row_payload_check (a : ArtifactEnvelope) : sql := payload_check (value (ar_kind a)) (dump_payload (ar_payload a)).
Definition row_envelope_check (a : ArtifactEnvelope) : sql :=
  envelope_check (value (ar_kind a)) (ar_version a) (value (ar_owner_actor_class a)) (dump_payload (ar_payload a))
    (dump_provenance (ar_provenance a)) (JList (map (dump_source write) (ar_source_references a)))
    (JList (map dump_parent (ar_parent_relationships a))) (Some (jopt dump_confidence (ar_confidence a)))
    (JObj (ar_metadata a)).

End row.

End Schema.
