(* ===== verification/SchemaFacts.v ===== *)
(** * The database accepts what the domain validates

    Every payload and envelope the domain validates passes the check constraints
    of the table, whenever the identifiers it mentions have an RFC version and
    variant and the library writes timestamps as RFC 3339 does. *)

From S2P Require Import Prelude.
From S2P Require Import PyDecimal.
From S2P Require Import Json.
From S2P Require Import Symbolic.
From S2P Require Import ConsensusPorts.
From S2P Require Import Ledger.
From S2P Require Import ReasoningGraph.
From S2P Require Import DecimalText.
From S2P Require Import Artifacts.
From S2P Require Import ArtifactFacts.
From S2P Require Import ArtifactSchema.
Import Graph Artifact ArtifactFacts Schema.

Module SchemaFacts.

(** ** Conjunctions *)

Lemma all_of_true l : Forall (fun a => a = Some true) l -> all_of l = Some true.
Proof. induction 1 as [|a l -> _ IH]; [done|]. cbn. unfold all_of in IH. by rewrite IH. Qed.

Lemma coalesce_true l : Forall (fun a => a = Some true) l -> coalesce (all_of l) = Some true.
Proof. intros H. by rewrite all_of_true. Qed.

(** ** Texts *)

Lemma drop_char_nil c l : drop_char c l = [] -> Forall (fun x => x = c) l.
Proof.
  induction l as [|x l IH]; cbn; [done|]. destruct (Ascii.eqb_spec x c) as [->|]; [|done]. constructor; [done|by apply IH].
Qed.

Lemma rstrip_nil c l : rstrip c l = [] -> Forall (fun x => x = c) l.
Proof.
  unfold rstrip. intros H. apply (f_equal (@rev ascii)) in H. rewrite rev_involutive in H.
  apply drop_char_nil, Forall_rev in H. by rewrite rev_involutive in H.
Qed.

Lemma drop_char_suffix c l : exists k, l = k ++ drop_char c l /\ Forall (fun x => x = c) k.
Proof.
  induction l as [|x l (k & Hl & Hk)]; cbn; [by exists []|]. destruct (Ascii.eqb_spec x c) as [->|].
  - exists (c :: k). cbn. split; [by f_equal|by constructor].
  - by exists [].
Qed.

Lemma filled_trims s : NonEmpty s = true -> nonempty (btrim s) = true.
Proof.
  unfold NonEmpty, btrim. intros [_ Hb%negb_true_iff]%andb_true_iff.
  destruct (rstrip " "%char (drop_char " "%char (chars s))) eqn:E; [|done]. exfalso.
  apply rstrip_nil in E. destruct (drop_char_suffix " "%char (chars s)) as (k & Hs & Hk).
  assert (Hall : Forall (fun x => x = " "%char) (chars s)) by (rewrite Hs; apply Forall_app; done).
  apply not_true_iff_false in Hb. apply Hb. unfold blank. apply forallb_Forall.
  eapply Forall_impl; [exact Hall|]. by intros x ->.
Qed.

Lemma text_ok b k s : jget b k = Some (JStr s) -> NonEmpty s = true -> jsonb_nonempty_text b k = Some true.
Proof. intros Hg Hs. unfold jsonb_nonempty_text, jget_text. rewrite Hg. cbn. by rewrite filled_trims. Qed.

Lemma texts_ok b k l : jget b k = Some (jtexts l) -> forallb NonEmpty l = true -> jsonb_all_nonempty_texts (jget b k) = Some true.
Proof.
  intros -> Hl. unfold jsonb_all_nonempty_texts, jsonb_all, jtexts. cbn [has_type jsonb_typeof sql_eq is_true elements]. cbn.
  f_equal. apply forallb_Forall, Forall_map. apply forallb_Forall in Hl. eapply Forall_impl; [exact Hl|].
  intros s Hs. cbn. unfold has_type, sql_or. cbn. by rewrite filled_trims.
Qed.

(** ** Identifiers *)

(** [str(u)] has one of the RFC versions, and the RFC variant. *)
Definition rfc (u : uuid) : bool := uuid_pattern (uuid_str u).

Local Opaque uuid_str uuid_pattern.

Lemma uuid_text_ok u : rfc u = true -> jsonb_uuid_text (Some (juuid u)) = Some true.
Proof. unfold rfc, jsonb_uuid_text, juuid. cbn. by intros ->. Qed.

Lemma id_ok b k u : jget b k = Some (juuid u) -> rfc u = true -> jsonb_uuid_text (jget b k) = Some true.
Proof. intros ->. apply uuid_text_ok. Qed.

Lemma ids_ok b k l : jget b k = Some (juuids l) -> forallb rfc l = true -> jsonb_all_uuid_texts (jget b k) = Some true.
Proof.
  intros -> Hl. unfold jsonb_all_uuid_texts, jsonb_all, juuids. cbn. f_equal.
  apply forallb_Forall, Forall_map. apply forallb_Forall in Hl. eapply Forall_impl; [exact Hl|].
  intros u Hu. cbn [compose]. by rewrite uuid_text_ok.
Qed.

(** ** Decimals *)

Lemma canonical_normal s neg i f :
  canonical s neg i f -> ascii_string s = true -> normal_decimal s = true /\ String.eqb s "-0" = false.
Proof.
  intros [Hs Hr Hz] Ha. destruct (shape_ascii _ _ _ _ Hs Ha) as [Hi Hf]. destruct Hs as [Ht Hp _ _]. split.
  - unfold normal_decimal. rewrite Ht. unfold spell. rewrite minus_of_leading by done. cbn [snd].
    rewrite span_app by (try apply fraction_not_digit; done). rewrite leading_int, fraction_frac_part by done.
    apply bool_decide_eq_true. destruct f as [|d f]; [done|].
    change (fraction (d :: f)) with (["."%char] ++ d :: f). by rewrite rstrip_app, Hr.
  - rewrite eqb_chars, Ht. change (chars "-0") with ["-"%char; "0"%char]. rewrite spell_minus_zero by done.
    unfold negated_zero. destruct neg; [|done]. apply bool_decide_eq_false. by apply Hz.
Qed.

Lemma before_canonical P s : decimal_before P s = Ok s -> P s = true /\ exists neg i f, canonical s neg i f.
Proof.
  unfold decimal_before. intros (s' & Hd & H)%bind_Ok. apply guard_bind in H as [Hp%negb_false_iff H]. injection H as ->. split; [done|].
  destruct (normal_canonical s s Hd) as (_ & i & _ & neg & f & _ & Hc & _). eauto.
Qed.

Lemma after_canonical s : decimal_after UnitDecimalString s = Ok s -> UnitDecimalString s = true /\ exists neg i f, canonical s neg i f.
Proof.
  unfold decimal_after. intros [Hp%negb_false_iff Hd]%guard_bind. split; [done|].
  destruct (normal_canonical s s Hd) as (_ & i & _ & neg & f & _ & Hc & _). eauto.
Qed.

Lemma decimal_ok b k s neg i f :
  jget b k = Some (JStr s) -> canonical s neg i f -> ascii_string s = true -> jsonb_decimal_string (jget b k) = Some true.
Proof.
  intros -> Hc Ha. unfold jsonb_decimal_string. destruct (canonical_normal _ _ _ _ Hc Ha) as [Hn Hz]. cbn. by rewrite Hn, Hz.
Qed.

Lemma unit_ok b k s neg i f :
  jget b k = Some (JStr s) -> canonical s neg i f -> UnitDecimalString s = true -> ascii_string s = true ->
  jsonb_unit_decimal_string (jget b k) = Some true.
Proof.
  intros Hg Hc Hu Ha. unfold jsonb_unit_decimal_string. rewrite (decimal_ok _ _ _ _ _ _ Hg Hc Ha), Hg.
  cbn [sql_not option_map negb is_true jtext numeric]. rewrite (shape_number _ _ _ _ (cn_shape _ _ _ _ Hc)). cbn.
  by destruct (unit_bounds _ _ _ _ Hc Hu) as [-> ->].
Qed.

(** ** Payloads *)

Definition uncertainty_target (p : UncertaintyPayload) : uuid :=
  match p with
  | IntervalUncertaintyPayload f _ _ _ | DistributionUncertaintyPayload f _ _ _ | ScenariosUncertaintyPayload f _
  | QualitativeUncertaintyPayload f _ _ => uf_target_id f
  end.

(** The identifiers a payload mentions. *)
Definition payload_ids (p : ArtifactPayload) : list uuid :=
  match p with
  | ClaimP p => cl_supporting_evidence_ids p ++ cl_opposing_evidence_ids p
  | InferenceP p => in_conclusion_id p :: in_premise_ids p
  | EvidenceP p => [ev_claim_id p]
  | UncertaintyP p => [uncertainty_target p]
  | RiskP p => ri_uncertainty_id p :: ri_affected_objective_ids p
  | ImpactP p => [im_alternative_id p; im_objective_id p; im_source_artifact_id p]
  | ObjectiveP p => oj_conflicts_with_ids p
  | PositionP p => ps_target_id p :: ps_evidence_ids p
  | CritiqueP p => [cq_target_id p]
  | FactP _ | AssumptionP _ | PropositionP _ | ConstraintP _ | AlternativeP _ => []
  end.

(** The decimal texts of a payload. *)
Definition payload_decimals (p : ArtifactPayload) : list string :=
  match p with
  | EvidenceP p => [ev_weight p]
  | UncertaintyP (IntervalUncertaintyPayload _ lower upper _) => [lower; upper]
  | UncertaintyP (ScenariosUncertaintyPayload _ scenarios) => map sc_probability scenarios
  | RiskP p => [ri_probability p]
  | ImpactP p => [im_magnitude p]
  | ObjectiveP p => [oj_weight p]
  | _ => []
  end.

Lemma enum_ok b k s l :
  jget b k = Some (JStr s) -> existsb (String.eqb s) l = true -> sql_in (jget_text b k) l = Some true.
Proof. unfold jget_text. intros -> Hx. cbn. by rewrite Hx. Qed.

(** One conjunct of a check: a fixed set of keys or words, or one of the lemmas
    above on the member it reads. *)
Ltac conjunct :=
  match goal with
  | |- jsonb_has_exact_keys _ _ _ = _ => reflexivity
  | |- jsonb_nonempty_text _ _ = _ => eapply text_ok; [reflexivity|]
  | |- jsonb_all_nonempty_texts _ = _ => eapply texts_ok; [reflexivity|]
  | |- jsonb_uuid_text _ = _ => eapply id_ok; [reflexivity|]
  | |- jsonb_all_uuid_texts _ = _ => eapply ids_ok; [reflexivity|]
  | |- jsonb_unit_decimal_string _ = _ => eapply unit_ok; [reflexivity|eassumption| |]
  | |- jsonb_decimal_string _ = _ => eapply decimal_ok; [reflexivity|eassumption|]
  | |- sql_in _ _ = _ => eapply enum_ok; [reflexivity|]
  | |- has_type _ _ = _ => reflexivity
  end.
Ltac member :=
  match goal with
  | H : ?a = true |- ?b = true => constr_eq a b; exact H
  | |- existsb _ _ = true => match goal with |- context [@value _ _ ?x] => destruct x eqn:?E end; first [reflexivity | congruence]
  end.
Ltac conjuncts := apply coalesce_true; repeat (apply Forall_cons; split; [try conjunct; try member|]); [..|apply Forall_nil; exact I].

(** Split the checks on texts, identifiers and decimals. *)
Ltac bools :=
  repeat match goal with
  | H : mbind _ _ = Ok _ |- _ => let v := fresh "v" in let V := fresh "V" in apply bind_Ok in H as (v & V & H)
  | H : texts _ = Ok _ |- _ => apply texts_Ok in H
  | H : forallb _ (_ :: _) = true |- _ => cbn [forallb] in H
  | H : forallb _ (_ ++ _) = true |- _ => rewrite forallb_app in H
  | H : _ && _ = true |- _ => apply andb_true_iff in H as [? H]
  end.
Ltac decimals :=
  repeat match goal with
  | H : decimal_before _ _ = Ok _ |- _ => apply before_canonical in H as (? & ? & ? & ? & H)
  | H : decimal_after _ _ = Ok _ |- _ => apply after_canonical in H as (? & ? & ? & ? & H)
  end.

(** A normalised field of a payload that validation returned as it was. *)
Ltac same_field f H := injection H as H; apply (f_equal f) in H; cbn [f] in H; subst.

(** ** Payloads *)

Lemma fact_words p : new_fact p = Ok p -> existsb (String.eqb (value (fa_verification p))) ["SOURCE_VERIFIED"; "CROSS_CHECKED"] = true.
Proof.
  unfold new_fact. intros (? & _ & [H%negb_false_iff _]%guard_bind)%bind_Ok. apply bool_decide_eq_true in H.
  destruct (fa_verification p); try reflexivity; set_solver.
Qed.

Lemma trust_words p :
  attributable_source p = Ok tt ->
  existsb (String.eqb (value (ev_trust_level p))) ["PRIMARY"; "AUTHORITATIVE"; "SECONDARY"; "COMMERCIAL"] = true.
Proof.
  unfold attributable_source. rewrite guard_not_Ok. intros H%bool_decide_eq_false.
  destruct (ev_trust_level p); try reflexivity; set_solver.
Qed.

Lemma flat_accepted p :
  new_payload p = Ok p -> forallb rfc (payload_ids p) = true -> forallb ascii_string (payload_decimals p) = true ->
  (forall q, p <> UncertaintyP q) -> (forall q, p <> ConstraintP q) ->
  payload_check (value (payload_kind p)) (dump_payload p) = Some true.
Proof.
  destruct p as [p|p|p|p|p|p|p|p|p|p|p|p|p|p]; cbn [new_payload payload_ids payload_decimals];
    intros (q & Hq & He)%fmap_Ok Hi Hd Hu Hc; try (by destruct (Hu p)); try (by destruct (Hc p));
    injection He as <-.
  - unfold new_claim in Hq. bools. conjuncts.
  - pose proof (fact_words p Hq). unfold new_fact in Hq. bools. conjuncts.
  - unfold new_assumption in Hq. bools. conjuncts.
  - unfold new_inference in Hq. bools. conjuncts.
  - unfold new_proposition in Hq. bools. conjuncts.
  - unfold new_evidence in Hq. bools. same_field ev_weight Hq. destruct v1. pose proof (trust_words p V1). decimals. conjuncts.
  - unfold new_risk in Hq. bools. same_field ri_probability Hq. decimals. conjuncts.
  - unfold new_impact in Hq. bools. same_field im_magnitude Hq. decimals. conjuncts.
  - unfold new_objective in Hq. bools. same_field oj_weight Hq. decimals. conjuncts.
  - unfold new_alternative in Hq. bools. conjuncts.
  - unfold new_position in Hq. bools. conjuncts.
  - unfold new_critique in Hq. bools. conjuncts.
Qed.

Lemma not_empty_object (l : dict string json) : l <> [] -> negb (bool_decide (JObj l = JObj [])) = true.
Proof. intros Hl. rewrite bool_decide_false by congruence. done. Qed.

Lemma formal_Ok f f' : new_formal f = Ok f' -> f' = f /\ NonEmpty (fx_language f) = true /\ fx_ast f <> [].
Proof.
  unfold new_formal. intros (? & Hl%texts_Ok & (d & [-> _]%frozen_Ok & [Ha%bool_decide_eq_false H]%guard_bind)%bind_Ok)%bind_Ok.
  injection H as <-. cbn [forallb] in Hl. apply andb_true_iff in Hl as [Hl _]. by destruct f.
Qed.

Lemma constraint_accepted p :
  new_constraint p = Ok p -> payload_check "CONSTRAINT" (dump_payload (ConstraintP p)) = Some true.
Proof.
  unfold new_constraint. intros H. bools. apply formal_Ok in V0 as (_ & Hl & Ha).
  assert (Hx : forall b, jget b "ast" = Some (JObj (fx_ast (ct_evaluation_expression p))) ->
            (fun v => negb (bool_decide (v = JObj []))) <$> jget b "ast" = Some true).
  { intros b ->. cbn. by rewrite (not_empty_object _ Ha). }
  conjuncts. by apply Hx.
Qed.

(** The members every representation of an uncertainty has. *)
Lemma fields_accepted f l :
  forallb NonEmpty (uf_drivers f) = true -> rfc (uf_target_id f) = true ->
  let b := Some (JObj (dump_fields f ++ l)) in
  any_of [sql_not (sql_in (jget_text b "uncertainty_type")
                     ["EPISTEMIC"; "ALEATORIC"; "MODEL"; "MEASUREMENT"; "SEMANTIC"; "STRATEGIC"]);
          sql_not (jsonb_uuid_text (jget b "target_id"));
          sql_not (jsonb_all_nonempty_texts (jget b "drivers"))] = Some false.
Proof.
  intros Hd Ht b.
  assert (H1 : sql_in (jget_text b "uncertainty_type")
                 ["EPISTEMIC"; "ALEATORIC"; "MODEL"; "MEASUREMENT"; "SEMANTIC"; "STRATEGIC"] = Some true).
  { eapply enum_ok; [reflexivity|]. destruct (uf_uncertainty_type f); reflexivity. }
  rewrite H1, (id_ok b "target_id" (uf_target_id f)), (texts_ok b "drivers" (uf_drivers f)) by done. done.
Qed.

Lemma scenario_accepted s :
  new_scenario s = Ok s -> ascii_string (sc_probability s) = true ->
  is_true (all_of [jsonb_has_exact_keys (Some (dump_scenario s)) ["name"; "probability"; "value"] [];
                   jsonb_nonempty_text (Some (dump_scenario s)) "name";
                   jsonb_unit_decimal_string (jget (Some (dump_scenario s)) "probability")]) = true.
Proof.
  unfold new_scenario. intros H Ha. bools. same_field sc_probability H. decimals.
  rewrite all_of_true; [done|]. repeat (apply Forall_cons; split; [try conjunct; try member|]). by apply Forall_nil.
Qed.

(** No disjunct of a guard holds. *)
Lemma guard_closed l (k : sql) : Forall (fun a => a = Some false) l -> (if is_true (any_of l) then Some false else k) = k.
Proof.
  intros Hl. assert (any_of l = Some false) as ->; [|done].
  induction Hl as [|a l -> _ IH]; [done|]. cbn. unfold any_of in IH. by rewrite IH.
Qed.

Lemma not_true a : a = Some true -> sql_not a = Some false.
Proof. by intros ->. Qed.

Ltac past_guard :=
  rewrite guard_closed;
  [|repeat (apply Forall_cons; split; [try (apply not_true; conjunct; try member)|]); [..|apply Forall_nil; exact I]].

(** The branch of one representation, after the common members. *)
Ltac representation r :=
  unfold uncertainty_check;
  match goal with |- context [any_of [sql_not (sql_in (jget_text ?b "uncertainty_type") _); _; _]] =>
    rewrite fields_accepted by done; change (jget_text b "representation") with (Some r) end;
  cbn [is_true app].

Lemma numeric_ok b k s neg i f : jget b k = Some (JStr s) -> canonical s neg i f -> numeric (jget_text b k) = Some (number neg i f).
Proof. unfold jget_text. intros -> Hc. cbn. by rewrite (shape_number _ _ _ _ (cn_shape _ _ _ _ Hc)). Qed.

Lemma interval_accepted f lower upper unit :
  new_uncertainty (IntervalUncertaintyPayload f lower upper unit) = Ok (IntervalUncertaintyPayload f lower upper unit) ->
  rfc (uf_target_id f) = true -> forallb ascii_string [lower; upper] = true ->
  uncertainty_check (Some (dump_uncertainty (IntervalUncertaintyPayload f lower upper unit))) = Some true.
Proof.
  cbn [new_uncertainty]. intros H Ht Ha. bools. injection H as -> ->. unfold ordered in *. decimals.
  cbn [dump_uncertainty]. representation "INTERVAL". past_guard.
  erewrite (numeric_ok _ "lower") by (reflexivity || eassumption). erewrite (numeric_ok _ "upper") by (reflexivity || eassumption).
  rewrite (shape_number _ _ _ _ (cn_shape _ _ _ _ V0)), (shape_number _ _ _ _ (cn_shape _ _ _ _ V1)) in V2. cbn in V2.
  apply guard_not_Ok in V2. rewrite dltb_negb, negb_false_iff in V2. cbn. by rewrite V2.
Qed.

Lemma distribution_accepted f family parameters unit :
  new_uncertainty (DistributionUncertaintyPayload f family parameters unit) = Ok (DistributionUncertaintyPayload f family parameters unit) ->
  rfc (uf_target_id f) = true ->
  uncertainty_check (Some (dump_uncertainty (DistributionUncertaintyPayload f family parameters unit))) = Some true.
Proof. cbn [new_uncertainty]. intros H Ht. bools. cbn [dump_uncertainty]. representation "DISTRIBUTION". conjuncts. Qed.

Lemma Forall2_same {A} (R : A -> A -> Prop) l : Forall2 R l l -> Forall (fun x => R x x) l.
Proof. induction l as [|x l IH]; inversion 1; subst; constructor; auto. Qed.

Lemma scenarios_accepted f scenarios :
  new_uncertainty (ScenariosUncertaintyPayload f scenarios) = Ok (ScenariosUncertaintyPayload f scenarios) ->
  rfc (uf_target_id f) = true -> forallb ascii_string (map sc_probability scenarios) = true ->
  uncertainty_check (Some (dump_uncertainty (ScenariosUncertaintyPayload f scenarios))) = Some true.
Proof.
  cbn [new_uncertainty]. intros H Ht Ha. bools. injection H as ->. apply guard_not_Ok, bool_decide_eq_false in V1.
  cbn [dump_uncertainty]. representation "SCENARIOS".
  change (elements (jget (Some (JObj _)) "scenarios")) with (map dump_scenario scenarios).
  past_guard; [f_equal|by destruct scenarios].
  apply forallb_Forall, Forall_map. apply mapR_Ok in V0.
  apply Forall2_same in V0. apply forallb_Forall in Ha. apply Forall_map in Ha. rewrite Forall_forall in *.
  intros s Hs. apply scenario_accepted; [by apply V0|by apply Ha].
Qed.

Lemma qualitative_accepted f level explanation :
  new_uncertainty (QualitativeUncertaintyPayload f level explanation) = Ok (QualitativeUncertaintyPayload f level explanation) ->
  rfc (uf_target_id f) = true ->
  uncertainty_check (Some (dump_uncertainty (QualitativeUncertaintyPayload f level explanation))) = Some true.
Proof. cbn [new_uncertainty]. intros H Ht. bools. cbn [dump_uncertainty]. representation "QUALITATIVE". conjuncts. Qed.

(** Every validated payload passes the check of its kind. *)
Lemma payload_accepted p :
  new_payload p = Ok p -> forallb rfc (payload_ids p) = true -> forallb ascii_string (payload_decimals p) = true ->
  payload_check (value (payload_kind p)) (dump_payload p) = Some true.
Proof.
  intros Hp Hi Hd. assert (Hq : (exists q, p = UncertaintyP q) \/ (exists q, p = ConstraintP q) \/
    ((forall q, p <> UncertaintyP q) /\ (forall q, p <> ConstraintP q))) by (destruct p; naive_solver).
  destruct Hq as [(q & ->)|[(q & ->)|[Hu Hc]]]; [| |by apply flat_accepted].
  - cbn [new_payload payload_ids forallb] in *. apply fmap_Ok in Hp as (q' & Hq & [= <-]).
    apply andb_true_iff in Hi as [Ht _].
    change (payload_check _ (dump_payload (UncertaintyP q))) with
      (if is_true (sql_not (has_type (Some (dump_uncertainty q)) "object")) then Some false
       else uncertainty_check (Some (dump_uncertainty q))).
    destruct q; [by apply interval_accepted|by apply distribution_accepted|by apply scenarios_accepted|by apply qualitative_accepted].
  - cbn [new_payload] in Hp. apply fmap_Ok in Hp as (q' & Hq & [= <-]). by apply constraint_accepted.
Qed.

(** ** Envelopes *)

Ltac conjuncts_is := rewrite all_of_true; [done|repeat (apply Forall_cons; split; [try conjunct; try member|]); [..|apply Forall_nil; exact I]].

(** A member that is present, and null or of the right form. *)
Lemma present_or b k (v : json) ok :
  jget b k = Some v -> has_key b k = Some true -> v = JNull \/ ok = Some true -> missing_or b k ok = Some true.
Proof.
  unfold missing_or, any_of. intros -> -> Hor. cbn. unfold sql_or. destruct (bool_decide_reflect (v = JNull)) as [|Hn]; [|destruct Hor as [?| ->] ];
    try done; destruct ok as [[]|]; done.
Qed.

Lemma optional_id b k o :
  jget b k = Some (jopt juuid o) -> has_key b k = Some true -> opt_ok rfc o = true ->
  missing_or b k (jsonb_uuid_text (jget b k)) = Some true.
Proof.
  intros Hg Hh Hr. eapply present_or; [exact Hg|done|]. rewrite Hg. destruct o as [u|]; [right|by left]. by apply uuid_text_ok.
Qed.

Lemma provenance_accepted p :
  new_provenance p = Ok p -> opt_ok rfc (po_model_call_id p) && opt_ok rfc (po_activity_id p) = true ->
  provenance_check (Some (dump_provenance p)) = true.
Proof.
  unfold new_provenance. intros H [Hm Ha]%andb_true_iff. bools. unfold provenance_check. conjuncts_is.
  - eapply optional_id; [reflexivity|reflexivity|exact Hm].
  - eapply optional_id; [reflexivity|reflexivity|exact Ha].
Qed.

Section timestamps.
Variable write : datetime -> string.
(** The library writes an aware datetime as RFC 3339 does. *)
Hypothesis writes_rfc3339 : forall t, _aware_utc t = Ok t -> timestamp_pattern (write t) = true.

Lemma source_accepted s : new_source s = Ok s -> source_check (dump_source write s) = true.
Proof using writes_rfc3339.
  unfold new_source. intros H. bools. apply frozen_Ok in V0 as [-> _]. apply guard_not_Ok, negb_false_iff in V1.
  apply guard_not_Ok, bool_decide_eq_false in V4.
  injection H as Hs. assert (Hr : _aware_utc (sr_retrieved_at s) = Ok (sr_retrieved_at s)).
  { apply (f_equal sr_retrieved_at) in Hs. cbn in Hs. congruence. }
  assert (Ht : _aware (sr_source_timestamp s) = Ok (sr_source_timestamp s)).
  { apply (f_equal sr_source_timestamp) in Hs. cbn in Hs. congruence. }
  unfold source_check. conjuncts_is.
  - change (jget _ "locator") with (Some (JObj (sr_locator s))). cbn. by rewrite not_empty_object.
  - change (jget_text _ "content_hash") with (Some (sr_content_hash s)). cbn. unfold digest_pattern. by rewrite V1.
  - change (jget_text _ "retrieved_at") with (Some (write (sr_retrieved_at s))). cbn. by rewrite writes_rfc3339.
  - eapply present_or; [reflexivity|reflexivity|].
    change (jget_text _ "source_timestamp") with (jtext (Some (jopt (fun t => JStr (write t)) (sr_source_timestamp s)))).
    destruct (sr_source_timestamp s) as [t|]; [right|by left]. cbn in *. rewrite writes_rfc3339; [done|].
    apply bind_Ok in Ht as (t' & Ht & [= ->]). done.
Qed.

Lemma relationship_accepted r : rfc (pr_target_artifact_id r) = true -> relationship_check (dump_parent r) = true.
Proof. intros Hr. unfold relationship_check. conjuncts_is. Qed.

Lemma confidence_accepted c :
  new_confidence c = Ok c -> forallb rfc (cf_basis_artifact_ids c) = true -> ascii_string (cf_value c) = true ->
  confidence_check (Some (dump_confidence c)) = true.
Proof. unfold new_confidence. intros H Hr Ha. bools. same_field cf_value H. decimals. unfold confidence_check. conjuncts_is. Qed.

(** The identifiers an artifact mentions. *)
Definition mentioned_ids (a : ArtifactEnvelope) : list uuid :=
  payload_ids (ar_payload a) ++ map pr_target_artifact_id (ar_parent_relationships a)
  ++ match ar_confidence a with Some c => cf_basis_artifact_ids c | None => [] end.

Definition rfc_ids (a : ArtifactEnvelope) : bool :=
  forallb rfc (mentioned_ids a)
  && (opt_ok rfc (po_model_call_id (ar_provenance a)) && opt_ok rfc (po_activity_id (ar_provenance a))).

(** Its decimal texts, and that they are written in ASCII. *)
Definition mentioned_decimals (a : ArtifactEnvelope) : list string :=
  payload_decimals (ar_payload a) ++ match ar_confidence a with Some c => [cf_value c] | None => [] end.
Definition ascii_decimals (a : ArtifactEnvelope) : bool := forallb ascii_string (mentioned_decimals a).

Lemma origin_is a o :
  is_true (sql_eq (jget_text (Some (dump_provenance (ar_provenance a))) "origin") (value o))
  = bool_decide (po_origin (ar_provenance a) = o).
Proof.
  change (jget_text _ "origin") with (Some (value (po_origin (ar_provenance a)))).
  rewrite <- value_eqb. unfold sql_eq. cbn [fmap option_fmap option_map is_true]. by destruct (String.eqb _ _).
Qed.

Lemma if_false {A} (c : bool) (x y : A) : c = false -> (if c then x else y) = y.
Proof. by intros ->. Qed.

Lemma unverified a :
  rules a -> ar_kind a = EVIDENCE -> ar_version a = 1%Z ->
  is_true (sql_not (sql_eq (jget_text (Some (dump_payload (ar_payload a))) "verification") "UNVERIFIED")) = false.
Proof.
  intros Hr Hk Hv. pose proof (ru_payload a Hr) as Hp. rewrite Hk in Hp.
  destruct (ar_payload a) as [p|p|p|p|p|p|p|p|p|p|p|p|p|p] eqn:E; try done.
  change (jget_text _ "verification") with (Some (value (ev_verification p))). by rewrite (ru_unverified a Hr p E Hv).
Qed.

Lemma mapR_all {A} (f : A -> res A) l : mapR f l = Ok l -> Forall (fun x => f x = Ok x) l.
Proof. intros H%mapR_Ok. by apply Forall2_same in H. Qed.

Lemma not_null_confidence a : not_null (Some (jopt dump_confidence (ar_confidence a))) = is_some (ar_confidence a).
Proof. by destruct (ar_confidence a). Qed.

Lemma sources_accepted a :
  valid_parts write true a -> forallb source_check (map (dump_source write) (ar_source_references a)) = true.
Proof using writes_rfc3339.
  intros Hv. apply forallb_Forall, Forall_map. eapply Forall_impl; [apply mapR_all, Hv|]. apply source_accepted.
Qed.

Lemma relationships_accepted a :
  forallb rfc (map pr_target_artifact_id (ar_parent_relationships a)) = true ->
  forallb relationship_check (map dump_parent (ar_parent_relationships a)) = true.
Proof.
  intros H%forallb_Forall. apply Forall_map in H. apply forallb_Forall, Forall_map.
  eapply Forall_impl; [exact H|]. intros r. apply relationship_accepted.
Qed.

Lemma own_confidence_accepted a :
  valid_parts write true a ->
  forallb rfc match ar_confidence a with Some c => cf_basis_artifact_ids c | None => [] end = true ->
  forallb ascii_string match ar_confidence a with Some c => [cf_value c] | None => [] end = true ->
  is_some (ar_confidence a) && negb (confidence_check (Some (jopt dump_confidence (ar_confidence a)))) = false.
Proof.
  intros Hv Hb Hd. pose proof (vp_confidence _ _ _ Hv) as Hc. destruct (ar_confidence a) as [c|]; [|done].
  cbn in Hd. apply andb_true_iff in Hd as [Hd _].
  cbn in Hc. apply bind_Ok in Hc as (c' & Hc & [= ->]). cbn [is_some jopt andb]. by rewrite confidence_accepted.
Qed.

Lemma envelope_accepted a :
  valid_parts write true a -> rules a -> rfc_ids a = true -> ascii_decimals a = true -> row_envelope_check write a = Some true.
Proof using writes_rfc3339.
  intros Hv Hr [Hi Hp]%andb_true_iff Hd. unfold ascii_decimals, mentioned_decimals in Hd.
  rewrite forallb_app in Hd. apply andb_true_iff in Hd as [_ Hd]. unfold mentioned_ids in Hi. rewrite !forallb_app in Hi.
  apply andb_true_iff in Hi as [_ [Hpar Hb]%andb_true_iff].
  unfold row_envelope_check, envelope_check.
  assert (Hk : forall k w, value k = w -> String.eqb (value (ar_kind a)) w = bool_decide (ar_kind a = k))
    by (intros k w <-; apply value_eqb).
  assert (Hc : forall c w, value c = w -> String.eqb (value (ar_owner_actor_class a)) w = bool_decide (ar_owner_actor_class a = c))
    by (intros c w <-; apply value_eqb).
  rewrite !(Hk EVIDENCE "EVIDENCE"), !(Hk FACT "FACT"), (Hk POSITION "POSITION"), (Hc POLICY "POLICY"), (Hc AGENT "AGENT") by done.
  rewrite (origin_is a ProvenanceOrigin.LLM : is_true (sql_eq _ "LLM") = _),
    (origin_is a ProvenanceOrigin.HISTORICAL_SESSION : is_true (sql_eq _ "HISTORICAL_SESSION") = _).
  rewrite not_null_confidence, (provenance_accepted (ar_provenance a)) by (by try apply Hv).
  cbn [elements]. repeat (rewrite if_false; [|]); try reflexivity.
  - rewrite <- andb_assoc. apply unless. intros He. destruct (Z.eqb_spec (ar_version a) 1) as [H1|]; [|done]. by apply unverified.
  - apply unless. intros Hf. by rewrite (ru_fact_confidence a Hr Hf).
  - apply unless. intros Hf. pose proof (ru_position a Hr Hf). by destruct (ar_confidence a).
  - by apply own_confidence_accepted.
  - by rewrite relationships_accepted.
  - by rewrite sources_accepted.
  - apply andb_false_iff. destruct (decide (ar_source_references a = [])) as [He|Hn].
    + left. apply orb_false_iff. rewrite !bool_decide_eq_false. split; intros Hf; by apply (ru_sourced a Hr); auto.
    + right. apply bool_decide_eq_false. by intros ?%map_eq_nil.
  - apply unless. intros He. apply bool_decide_eq_false. by apply (ru_historical a Hr).
  - apply unless. intros Hf. apply bool_decide_eq_false. by apply (ru_fact_origin a Hr).
  - apply orb_false_iff. split; [apply bool_decide_eq_false, Hr|]. apply unless. intros Hf.
    apply bool_decide_eq_false. by apply (ru_fact_owner a Hr).
Qed.

End timestamps.

(** C14. The database accepts what the domain validates: the row of a validated
    artifact passes both check constraints of the table, if every identifier it
    mentions has an RFC version and variant, its decimal texts are written in
    ASCII digits, and the library writes timestamps as RFC 3339 does. *)
Theorem database_accepts write a
    (Hw : forall t, _aware_utc t = Ok t -> timestamp_pattern (write t) = true)
    (Ha : validate_artifact write a = Ok a) (Hi : rfc_ids a = true) (Hd : ascii_decimals a = true) :
  row_payload_check a = Some true /\ row_envelope_check write a = Some true.
Proof.
  pose proof (new_artifact_valid write true a a Ha) as Hv.
  destruct (proj1 (invariants_iff write true a) (vp_invariants _ _ _ Hv)) as [Hr _].
  split; [|by apply envelope_accepted]. unfold row_payload_check. rewrite <- (ru_payload a Hr).
  apply payload_accepted; [apply Hv| |].
  - unfold rfc_ids, mentioned_ids in Hi. rewrite forallb_app in Hi. by apply andb_true_iff in Hi as [[Hi _]%andb_true_iff _].
  - unfold ascii_decimals, mentioned_decimals in Hd. rewrite forallb_app in Hd. by apply andb_true_iff in Hd as [Hd _].
Qed.

End SchemaFacts.
