(* ===== verification/ArtifactCommit.v ===== *)
(** * Committing, revising and withdrawing artifacts

    [app/db/reasoning_artifacts.py]: the artifact table;
    [alembic/versions/20260905_0005_reasoning_schema.py] and
    [20260905_0006_reasoning_graph.py]: its constraints and the triggers of the
    artifact and graph tables; [app/application/artifact_commit.py]: the service
    that writes artifact, graph and ledger; [app/composition/container.py]: the
    transaction it runs in.  A row is the value its mapper reads. *)

From S2P Require Import Prelude.
From S2P Require Import PyDecimal.
From S2P Require Import Json.
From S2P Require Import Symbolic.
From S2P Require Import ConsensusPorts.
From S2P Require Import Ledger.
From S2P Require Import ReasoningGraph.
From S2P Require Import Artifacts.
From S2P Require Import ArtifactSchema.
Import Graph Artifact Schema.

Local Open Scope Z_scope.

Module Commit.

(** ** The tables *)

Record world : Type := mkWorld {
  wd_sessions : list (uuid * uuid);
  wd_artifacts : list ArtifactEnvelope;
  wd_graph : graph;
  wd_ledger : ledger
}.

Definition on_artifacts {A} (m : ST (list ArtifactEnvelope) A) : ST world A := fun w =>
  let '(t, r) := m (wd_artifacts w) in (mkWorld (wd_sessions w) t (wd_graph w) (wd_ledger w), r).
Definition on_graph {A} (m : ST graph A) : ST world A := fun w =>
  let '(g, r) := m (wd_graph w) in (mkWorld (wd_sessions w) (wd_artifacts w) g (wd_ledger w), r).
Definition on_ledger {A} (m : ST ledger A) : ST world A := fun w =>
  let '(l, r) := m (wd_ledger w) in (mkWorld (wd_sessions w) (wd_artifacts w) (wd_graph w) l, r).

(** [WHERE workspace_id = ... AND session_id = ... AND id = ...] *)
Definition is_row (workspace_id session_id artifact_id : uuid) (a : ArtifactEnvelope) : bool :=
  bool_decide (ar_workspace_id a = workspace_id) && bool_decide (ar_session_id a = session_id)
  && bool_decide (ar_id a = artifact_id).

Definition find_artifact (workspace_id session_id artifact_id : uuid) (t : list ArtifactEnvelope) : option ArtifactEnvelope :=
  List.find (is_row workspace_id session_id artifact_id) t.

(** ** The artifact store *)

Section store.
Variable write : datetime -> string.

Definition _from_row (row : ArtifactEnvelope) : res ArtifactEnvelope := validate_artifact write row.

(** The primary key and the unique constraints. *)
Definition row_conflict (a b : ArtifactEnvelope) : bool :=
  bool_decide (ar_id b = ar_id a)
  || (bool_decide (ar_workspace_id b = ar_workspace_id a) && bool_decide (ar_session_id b = ar_session_id a)
      && bool_decide (ar_logical_id b = ar_logical_id a) && (ar_version b =? ar_version a)).

Definition predecessor (a : ArtifactEnvelope) (t : list ArtifactEnvelope) : option ArtifactEnvelope :=
  p ← ar_supersedes_id a; find_artifact (ar_workspace_id a) (ar_session_id a) p t.

(** The check constraints on single columns and the shape of a revision; the
    enumerated columns hold members by their type. *)
Definition column_checks (a : ArtifactEnvelope) : bool :=
  (0 <? ar_schema_version a) && (0 <? ar_version a) && (0 <=? ar_round a) && digest_pattern (ar_content_hash a)
  && (((ar_version a =? 1) && is_none (ar_supersedes_id a)) || ((1 <? ar_version a) && is_some (ar_supersedes_id a))).

(** What the database checks at the flush of a new row. *)
Definition row_refused (sessions : list (uuid * uuid)) (a : ArtifactEnvelope) (t : list ArtifactEnvelope) : bool :=
  existsb (row_conflict a) t
  || negb (bool_decide ((ar_workspace_id a, ar_session_id a) ∈ sessions))
  || (is_some (ar_supersedes_id a) && is_none (predecessor a t))
  || negb (column_checks a)
  || bool_decide (row_payload_check a = Some false) || bool_decide (row_envelope_check write a = Some false).

(** [SqlAlchemyReasoningArtifactStore] *)
Definition add (a : ArtifactEnvelope) : ST world unit :=
  w ← get_st;
  _ ← lift_res (guard_not (row_refused (wd_sessions w) a (wd_artifacts w)) IntegrityErrorC "reasoning_artifacts");
  put_st (mkWorld (wd_sessions w) (wd_artifacts w ++ [a]) (wd_graph w) (wd_ledger w)).

Definition get (workspace_id artifact_id : uuid) (session_id : option uuid) (t : list ArtifactEnvelope)
    : res (option ArtifactEnvelope) :=
  match List.find (fun a => bool_decide (ar_workspace_id a = workspace_id) && bool_decide (ar_id a = artifact_id)
                            && match session_id with Some s => bool_decide (ar_session_id a = s) | None => true end) t with
  | None => Ok None
  | Some row => Some <$> _from_row row
  end.

Definition get_for_update (workspace_id session_id artifact_id : uuid) (t : list ArtifactEnvelope)
    : res (option ArtifactEnvelope) :=
  match find_artifact workspace_id session_id artifact_id t with
  | None => Ok None
  | Some row => Some <$> _from_row row
  end.

(** [model_copy(update={"status": ..., "updated_at": ...})] *)
Definition with_lifecycle (a : ArtifactEnvelope) (status : LifecycleStatus.t) (updated_at : datetime) : ArtifactEnvelope :=
  mkArtifact (ar_id a) (ar_workspace_id a) (ar_session_id a) (ar_logical_id a) (ar_kind a) (ar_schema_version a)
    (ar_version a) status (ar_supersedes_id a) (ar_owner_actor_class a) (ar_owner_actor_id a) (ar_round a)
    (ar_payload a) (ar_provenance a) (ar_source_references a) (ar_parent_relationships a) (ar_confidence a)
    (ar_metadata a) (ar_created_at a) updated_at (ar_content_hash a).

(** [enforce_reasoning_artifact_immutability], before an update. *)
Definition content_changed (new old : ArtifactEnvelope) : bool :=
  negb (bool_decide (with_lifecycle new (ar_status old) (ar_updated_at old) = old)).

Definition transition_allowed (new old : LifecycleStatus.t) : bool :=
  bool_decide (new = old)
  || (bool_decide (old = LifecycleStatus.ACTIVE)
      && bool_decide (new ∈ [LifecycleStatus.SUPERSEDED; LifecycleStatus.WITHDRAWN])).

Definition enforce_reasoning_artifact_immutability (new old : ArtifactEnvelope) : res unit :=
  _ ← guard_not (content_changed new old) RuntimeErrorC "reasoning artifact content is immutable";
  _ ← guard_not (negb (transition_allowed (ar_status new) (ar_status old))) IntegrityErrorC
        "invalid reasoning artifact lifecycle transition";
  guard_not (dt_utc (ar_updated_at new) <? dt_utc (ar_updated_at old)) IntegrityErrorC
    "artifact updated_at cannot move backwards".

Definition replace_row (old new : ArtifactEnvelope) (t : list ArtifactEnvelope) : list ArtifactEnvelope :=
  map (fun a => if bool_decide (ar_id a = ar_id old) then new else a) t.

Definition set_lifecycle (workspace_id session_id artifact_id : uuid) (status : LifecycleStatus.t) (updated_at : datetime)
    : ST (list ArtifactEnvelope) unit :=
  t ← get_st;
  match find_artifact workspace_id session_id artifact_id t with
  | None => raise_st ValueErrorC ("artifact " +:+ uuid_str artifact_id +:+ " does not exist in the tenant session")
  | Some row =>
      let new := with_lifecycle row status updated_at in
      _ ← lift_res (enforce_reasoning_artifact_immutability new row);
      put_st (replace_row row new t)
  end.

End store.

(** ** The deferred triggers *)

(** [enforce_artifact_revision_chain] *)
Definition enforce_artifact_revision_chain (t : list ArtifactEnvelope) (new : ArtifactEnvelope) : res unit :=
  if ar_version new =? 1 then Ok tt
  else
    guard_not
      (match predecessor new t with
       | None => true
       | Some p =>
           negb (bool_decide (ar_logical_id p = ar_logical_id new)) || negb (bool_decide (ar_kind p = ar_kind new))
           || negb (ar_version p =? ar_version new - 1)
       end) IntegrityErrorC "artifact revision must supersede the previous same-kind logical version".

(** [artifact_reference_exists]; the text is cast to a [uuid]. *)
Definition artifact_reference_exists (t : list ArtifactEnvelope) (new : ArtifactEnvelope) (v : option json) : sql :=
  sql_and (jsonb_uuid_text v)
    (Some (existsb (fun a => bool_decide (ar_workspace_id a = ar_workspace_id new)
                             && bool_decide (ar_session_id a = ar_session_id new)
                             && match v with Some (JStr s) => String.eqb (uuid_str (ar_id a)) s | _ => false end) t)).

Definition all_exist (t : list ArtifactEnvelope) (new : ArtifactEnvelope) (message : string) (values : list (option json)) : res unit :=
  guard_not (existsb (fun v => is_true (sql_not (artifact_reference_exists t new v))) values) IntegrityErrorC message.

(** [enforce_artifact_references] *)
Definition enforce_artifact_references (t : list ArtifactEnvelope) (new : ArtifactEnvelope) : res unit :=
  let payload := Some (dump_payload (ar_payload new)) in
  let confidence := Some (jopt dump_confidence (ar_confidence new)) in
  let many k := map Some (elements (jget payload k)) in
  let one k := [jget payload k] in
  let exist := all_exist t new in
  _ ← exist "parent relationship target must exist in the artifact session"
        (map (fun r => jget (Some (dump_parent r)) "target_artifact_id") (ar_parent_relationships new));
  _ ← exist "confidence basis must exist in the artifact session"
        (map Some (elements (jget confidence "basis_artifact_ids")));
  match ar_kind new with
  | CLAIM => exist "claim evidence must exist in the artifact session"
               (many "supporting_evidence_ids" ++ many "opposing_evidence_ids")
  | INFERENCE => _ ← exist "inference premise must exist in the artifact session" (many "premise_ids");
                 exist "inference conclusion must exist in the artifact session" (one "conclusion_id")
  | EVIDENCE => exist "evidence claim must exist in the artifact session" (one "claim_id")
  | UNCERTAINTY => exist "uncertainty target must exist in the artifact session" (one "target_id")
  | RISK => _ ← exist "risk uncertainty must exist in the artifact session" (one "uncertainty_id");
            exist "risk objective must exist in the artifact session" (many "affected_objective_ids")
  | IMPACT => exist "impact references must exist in the artifact session"
                (one "alternative_id" ++ one "objective_id" ++ one "source_artifact_id")
  | OBJECTIVE => exist "objective conflict must exist in the artifact session" (many "conflicts_with_ids")
  | POSITION => _ ← exist "position target must exist in the artifact session" (one "target_id");
                exist "position evidence must exist in the artifact session" (many "evidence_ids")
  | CRITIQUE => exist "critique target must exist in the artifact session" (one "target_id")
  | FACT | ASSUMPTION | PROPOSITION | CONSTRAINT | ALTERNATIVE => Ok tt
  end.

(** [enforce_graph_node_kind] *)
Definition enforce_graph_node_kind (t : list ArtifactEnvelope) (n : GraphNode) : res unit :=
  match find_artifact (gn_workspace_id n) (gn_session_id n) (gn_ref_id n) t with
  | None => raise IntegrityErrorC "graph node artifact must exist in the node tenant session"
  | Some a => guard_not (negb (bool_decide (ar_kind a = gn_kind n))) IntegrityErrorC
                "graph node kind must match referenced artifact kind"
  end.

(** [graph_edge_endpoint_pair_allowed], as [20260907_0019_critique_responses.py]
    replaces it: a response may be an artifact of any kind. *)
Definition response_sources : list ArtifactKind :=
  [CLAIM; FACT; ASSUMPTION; INFERENCE; PROPOSITION; EVIDENCE; UNCERTAINTY; RISK; IMPACT; OBJECTIVE; CONSTRAINT; ALTERNATIVE;
   POSITION; CRITIQUE].

Definition graph_edge_endpoint_pair_allowed (e : GraphEdgeType) (from to : ArtifactKind) : bool :=
  match e with
  | SUPPORTS | OPPOSES => bool_decide (from ∈ [EVIDENCE; CLAIM]) && bool_decide (to = CLAIM)
  | CONTRADICTS => bool_decide (from = CLAIM) && bool_decide (to = CLAIM)
  | DERIVED_FROM => bool_decide (from = CLAIM) && bool_decide (to ∈ [CLAIM; ASSUMPTION; FACT])
  | BASED_ON_ASSUMPTION => bool_decide (from ∈ [CLAIM; ALTERNATIVE]) && bool_decide (to = ASSUMPTION)
  | FORMALIZES => bool_decide (from = PROPOSITION) && bool_decide (to = CLAIM)
  | QUANTIFIES => bool_decide (from = UNCERTAINTY)
  | IMPACTS => bool_decide (from = ALTERNATIVE) && bool_decide (to = OBJECTIVE)
  | CONSTRAINS => bool_decide (from = CONSTRAINT) && bool_decide (to ∈ [ALTERNATIVE; OBJECTIVE])
  | VIOLATES | SATISFIES | INFEASIBLE_UNKNOWN => bool_decide (from = ALTERNATIVE) && bool_decide (to = CONSTRAINT)
  | ATTACKS => bool_decide (from = CRITIQUE)
  | RESPONDS_TO => bool_decide (from ∈ response_sources) && bool_decide (to = CRITIQUE)
  | Graph.SUPERSEDES => bool_decide (from = to)
  | ADVOCATES => bool_decide (from = POSITION) && bool_decide (to = ALTERNATIVE)
  end.

Definition find_node (workspace_id session_id node_id : uuid) (nodes : list GraphNode) : option GraphNode :=
  List.find (fun n => bool_decide (gn_workspace_id n = workspace_id) && bool_decide (gn_session_id n = session_id)
                      && bool_decide (gn_id n = node_id)) nodes.

(** [enforce_graph_edge_endpoints] *)
Definition enforce_graph_edge_endpoints (nodes : list GraphNode) (e : GraphEdge) : res unit :=
  let kind_of id := gn_kind <$> find_node (ge_workspace_id e) (ge_session_id e) id nodes in
  match kind_of (ge_from_node e), kind_of (ge_to_node e) with
  | Some source_kind, Some target_kind =>
      guard_not (negb (graph_edge_endpoint_pair_allowed (ge_edge_type e) source_kind target_kind)) IntegrityErrorC
        "graph edge type is not allowed for endpoint kinds"
  | _, _ => raise IntegrityErrorC "graph edge endpoints must exist in the edge tenant session"
  end.

(** ** The service *)

Record ArtifactEventContext : Type := mkEventContext {
  ec_event_id : uuid;
  ec_correlation_id : uuid;
  ec_causation_id : option uuid;
  ec_actor_class : ActorClass;
  ec_actor_id : uuid;
  ec_recorded_at : datetime
}.

Definition new_context (c : ArtifactEventContext) : res ArtifactEventContext :=
  validated "ArtifactEventContext"
    (t ← _aware_utc (ec_recorded_at c);
     Ok (mkEventContext (ec_event_id c) (ec_correlation_id c) (ec_causation_id c) (ec_actor_class c) (ec_actor_id c) t)).

(** A metadata member that is present and not [None]. *)
Definition given (key : string) (metadata : dict string json) : option json :=
  match dict_get key metadata with Some JNull | None => None | Some v => Some v end.

Definition set_given (key : string) (metadata payload : dict string json) : dict string json :=
  match given key metadata with Some v => dict_set key v payload | None => payload end.

Definition _event (a : ArtifactEnvelope) (c : ArtifactEventContext) (event_type : string) (payload : dict string json)
    : res LedgerAppend :=
  let event_payload := set_given "evidence_disposition" (ar_metadata a) (set_given "attribution" (ar_metadata a) payload) in
  new_append (mkAppend (ec_event_id c) (ar_workspace_id a) (ar_session_id a) event_type 1 (ec_causation_id c)
                (ec_correlation_id c) (ec_actor_class c) (ec_actor_id c) (ar_round a) event_payload (ec_recorded_at c)).

Definition _node (a : ArtifactEnvelope) (node_id : uuid) (label : string) : res GraphNode :=
  new_node (mkNode node_id (ar_workspace_id a) (ar_session_id a) (ar_kind a) (ar_id a) label
              [("logical_id", juuid (ar_logical_id a)); ("version", JInt (ar_version a))]).

Definition refuse {A} (message : string) : res A := raise ArtifactCommitErrorC message.
Definition refuse_if (cond : bool) (message : string) : res unit := guard_not cond ArtifactCommitErrorC message.

Definition node_of (workspace_id session_id artifact_id : uuid) (message : string) (g : graph) : res GraphNode :=
  res_of_option ArtifactCommitErrorC message (node_for_artifact workspace_id session_id artifact_id g).

(** One iteration of the loop of [_relationship_targets]. *)
Definition relationship_target (a : ArtifactEnvelope) (g : graph) (pair : uuid * ParentRelationship) : res (uuid * GraphNode) :=
  let '(edge_id, relationship) := pair in
  _ ← refuse_if (bool_decide (pr_edge_type relationship = Graph.SUPERSEDES))
        "SUPERSEDES is derived from the revision predecessor";
  target ← node_of (ar_workspace_id a) (ar_session_id a) (pr_target_artifact_id relationship)
             ("parent artifact " +:+ uuid_str (pr_target_artifact_id relationship) +:+ " has no graph projection") g;
  Ok (edge_id, target).

Definition _relationship_targets (a : ArtifactEnvelope) (relationship_edge_ids : list uuid) (g : graph)
    : res (list (uuid * GraphNode)) :=
  _ ← refuse_if (negb (length relationship_edge_ids =? length (ar_parent_relationships a))%nat)
        "each parent relationship requires one edge id";
  mapR (relationship_target a g) (combine relationship_edge_ids (ar_parent_relationships a)).

Definition qualifier_of (a : ArtifactEnvelope) (r : ParentRelationship) : dict string json :=
  match pr_edge_type r, ar_payload a with
  | ATTACKS, CritiqueP p => [("type", jenum (cq_critique_type p)); ("severity", jenum (cq_severity p))]
  | _, _ => []
  end.

Definition edge_of (a : ArtifactEnvelope) (c : ArtifactEventContext) (edge_id from_node to_node : uuid) (t : GraphEdgeType)
    (qualifier : dict string json) : res GraphEdge :=
  new_edge (mkEdge edge_id (ar_workspace_id a) (ar_session_id a) from_node to_node t None qualifier
              (ec_actor_class c) (ec_actor_id c)).

Fixpoint _add_relationships (a : ArtifactEnvelope) (node : GraphNode) (c : ArtifactEventContext)
    (l : list (ParentRelationship * (uuid * GraphNode))) : ST world unit :=
  match l with
  | [] => mret tt
  | (relationship, (edge_id, target)) :: l' =>
      e ← lift_res (edge_of a c edge_id (gn_id node) (gn_id target) (pr_edge_type relationship) (qualifier_of a relationship));
      _ ← on_graph (add_edge e);
      _add_relationships a node c l'
  end.

Definition identity_members (a : ArtifactEnvelope) : dict string json :=
  [("artifact_id", juuid (ar_id a)); ("kind", jenum (ar_kind a)); ("logical_id", juuid (ar_logical_id a))].

Section service.
Variable write : datetime -> string.

Definition commit (a : ArtifactEnvelope) (node_id : uuid) (relationship_edge_ids : list uuid) (label : string)
    (c : ArtifactEventContext) : ST world (ArtifactEnvelope * LedgerEvent) :=
  _ ← lift_res (refuse_if (negb (ar_version a =? 1) || is_some (ar_supersedes_id a))
                  "initial artifact commit requires version 1");
  _ ← lift_res (refuse_if (negb (bool_decide (ar_status a = LifecycleStatus.ACTIVE)))
                  "initial artifact commit requires ACTIVE status");
  w ← get_st;
  targets ← lift_res (_relationship_targets a relationship_edge_ids (wd_graph w));
  _ ← add write a;
  node ← lift_res (_node a node_id label);
  _ ← on_graph (add_node node);
  _ ← _add_relationships a node c (combine (ar_parent_relationships a) targets);
  event ← lift_res (_event a c "ARTIFACT_COMMITTED" (identity_members a ++ [("version", JInt (ar_version a))]));
  e ← on_ledger (append event);
  mret (a, e).

(** The guards of [revise] on the stored predecessor. *)
Definition follows (previous a : ArtifactEnvelope) : bool :=
  bool_decide (ar_logical_id previous = ar_logical_id a) && bool_decide (ar_kind previous = ar_kind a)
  && (ar_version previous + 1 =? ar_version a).

Definition stored (m : res (option ArtifactEnvelope)) (missing : string) : res ArtifactEnvelope :=
  o ← m; res_of_option ArtifactCommitErrorC missing o.

Definition revise (a : ArtifactEnvelope) (node_id edge_id : uuid) (relationship_edge_ids : list uuid) (label reason : string)
    (c : ArtifactEventContext) : ST world (ArtifactEnvelope * LedgerEvent) :=
  let supersedes_id := default 0%N (ar_supersedes_id a) in
  _ ← lift_res (refuse_if (is_none (ar_supersedes_id a) || (ar_version a <=? 1))
                  "revision requires a predecessor and version greater than 1");
  _ ← lift_res (refuse_if (negb (bool_decide (ar_status a = LifecycleStatus.ACTIVE))) "revision requires ACTIVE status");
  _ ← lift_res (refuse_if (blank reason) "revision reason must not be blank");
  w ← get_st;
  previous ← lift_res (stored (get_for_update write (ar_workspace_id a) (ar_session_id a) supersedes_id (wd_artifacts w))
                         ("predecessor artifact " +:+ uuid_str supersedes_id +:+ " does not exist"));
  _ ← lift_res (refuse_if (negb (bool_decide (ar_status previous = LifecycleStatus.ACTIVE)))
                  "only an ACTIVE artifact may be revised");
  _ ← lift_res (refuse_if (negb (follows previous a)) "revision must follow the same logical artifact and kind");
  previous_node ← lift_res (node_of (ar_workspace_id previous) (ar_session_id previous) (ar_id previous)
                              ("predecessor artifact " +:+ uuid_str (ar_id previous) +:+ " has no graph projection") (wd_graph w));
  targets ← lift_res (_relationship_targets a relationship_edge_ids (wd_graph w));
  _ ← add write a;
  _ ← on_artifacts (set_lifecycle (ar_workspace_id previous) (ar_session_id previous) (ar_id previous)
                      LifecycleStatus.SUPERSEDED (ec_recorded_at c));
  next_node ← lift_res (_node a node_id label);
  _ ← on_graph (add_node next_node);
  _ ← _add_relationships a next_node c (combine (ar_parent_relationships a) targets);
  e ← lift_res (edge_of a c edge_id (gn_id next_node) (gn_id previous_node) Graph.SUPERSEDES [("reason", JStr reason)]);
  _ ← on_graph (add_edge e);
  event ← lift_res (_event a c "ARTIFACT_REVISED"
                      (identity_members a ++ [("supersedes_id", juuid (ar_id previous)); ("version", JInt (ar_version a));
                                              ("reason", JStr reason)]));
  ev ← on_ledger (append event);
  mret (a, ev).

Definition withdraw (workspace_id session_id artifact_id : uuid) (reason : string) (warrant_artifact_ids : list uuid)
    (c : ArtifactEventContext) : ST world (ArtifactEnvelope * LedgerEvent) :=
  _ ← lift_res (refuse_if (blank reason) "withdrawal reason must not be blank");
  _ ← lift_res (refuse_if (bool_decide (warrant_artifact_ids = [])) "withdrawal requires at least one warrant artifact id");
  _ ← lift_res (refuse_if (negb (distinct warrant_artifact_ids)) "withdrawal warrant artifact ids must be unique");
  w ← get_st;
  _ ← lift_res (mapR (fun warrant_id =>
                  node_of workspace_id session_id warrant_id
                    ("withdrawal warrant artifact " +:+ uuid_str warrant_id +:+ " has no graph projection") (wd_graph w))
                  warrant_artifact_ids);
  a ← lift_res (stored (get_for_update write workspace_id session_id artifact_id (wd_artifacts w))
                  ("artifact " +:+ uuid_str artifact_id +:+ " does not exist"));
  _ ← lift_res (refuse_if (negb (bool_decide (ar_status a = LifecycleStatus.ACTIVE)))
                  "only an ACTIVE artifact may be withdrawn");
  _ ← on_artifacts (set_lifecycle (ar_workspace_id a) (ar_session_id a) (ar_id a) LifecycleStatus.WITHDRAWN
                      (ec_recorded_at c));
  let withdrawn := with_lifecycle a LifecycleStatus.WITHDRAWN (ec_recorded_at c) in
  event ← lift_res (_event withdrawn c "ARTIFACT_WITHDRAWN"
                      (identity_members a ++ [("version", JInt (ar_version a)); ("reason", JStr reason);
                                              ("warrant_artifact_ids", juuids warrant_artifact_ids)]));
  e ← on_ledger (append event);
  mret (withdrawn, e).

End service.

(** ** The transaction *)

(** The triggers deferred to the commit, on the rows the transaction wrote. *)
Definition written {A} `{EqDecision A} (before after : list A) : list A :=
  List.filter (fun x => negb (bool_decide (x ∈ before))) after.

Definition each {A} (f : A -> res unit) (l : list A) : res unit := foldR (fun _ x => f x) tt l.

#[global] Instance GraphNode_eq_dec : EqDecision GraphNode.
Proof. solve_decision. Defined.
#[global] Instance GraphEdge_eq_dec : EqDecision GraphEdge.
Proof. solve_decision. Defined.

Definition deferred_triggers (w w' : world) : res unit :=
  let artifacts := written (wd_artifacts w) (wd_artifacts w') in
  _ ← each (enforce_artifact_revision_chain (wd_artifacts w')) artifacts;
  _ ← each (enforce_artifact_references (wd_artifacts w')) artifacts;
  _ ← each (enforce_graph_node_kind (wd_artifacts w')) (written (gd_nodes (wd_graph w)) (gd_nodes (wd_graph w')));
  each (enforce_graph_edge_endpoints (gd_nodes (wd_graph w'))) (written (gd_edges (wd_graph w)) (gd_edges (wd_graph w'))).

(** The ledger object of a transaction starts with nothing appended. *)
Definition begin_transaction (w : world) : world :=
  mkWorld (wd_sessions w) (wd_artifacts w) (wd_graph w)
    (mkLedger (lg_events (wd_ledger w)) (lg_heads (wd_ledger w)) []).

(** [reasoning_transaction]: an exception or a failed trigger rolls everything
    back, an [IntegrityError] leaves as [ValidationFailed], and only a commit
    publishes what the ledger appended. *)
Definition reasoning_transaction {A} (m : ST world A) (w : world) : world * res A * list LedgerEvent :=
  let rollback x :=
    (w, match exn_cls x with
        | IntegrityErrorC => raise ValidationFailedC "request conflicts with persisted tenant state"
        | _ => Raise x
        end, []) in
  match m (begin_transaction w) with
  | (w', Ok a) =>
      match deferred_triggers w w' with
      | Ok _ => (w', Ok a, lg_appended (wd_ledger w'))
      | Raise x => rollback x
      end
  | (_, Raise x) => rollback x
  end.

End Commit.
