(* ===== verification/CommitFacts.v ===== *)
(** * The artifact record under commit, revision and withdrawal

    What each operation of the service does when it succeeds, the invariant of
    the three stores it writes, and the linear history that follows from it. *)

From S2P Require Import Prelude.
From S2P Require Import PyDecimal.
From S2P Require Import Json.
From S2P Require Import Symbolic.
From S2P Require Import ConsensusPorts.
From S2P Require Import Ledger.
From S2P Require Import ReasoningGraph.
From S2P Require Import Artifacts.
From S2P Require Import ArtifactFacts.
From S2P Require Import ArtifactSchema.
From S2P Require Import ArtifactCommit.
Import Graph Artifact ArtifactFacts Schema Commit.

Local Open Scope Z_scope.

Module CommitFacts.

(** ** Successful runs *)

Lemma st_bind_Ok {S A B} (m : ST S A) (f : A -> ST S B) s s' b :
  (m ≫= f) s = (s', Ok b) -> exists s1 a, m s = (s1, Ok a) /\ f a s1 = (s', Ok b).
Proof. rewrite run_bind. destruct (m s) as [s1 [a|e]]; [eauto|done]. Qed.

Lemma lift_Ok {S A} (m : res A) (s s' : S) a : lift_res m s = (s', Ok a) -> s' = s /\ m = Ok a.
Proof. by intros [= -> ->]. Qed.

Lemma on_graph_Ok {A} (m : ST graph A) w w' a :
  on_graph m w = (w', Ok a) ->
  exists g, m (wd_graph w) = (g, Ok a) /\ w' = mkWorld (wd_sessions w) (wd_artifacts w) g (wd_ledger w).
Proof. unfold on_graph. destruct (m (wd_graph w)) as [g r] eqn:E. intros [= <- ->]. eauto. Qed.

Lemma on_artifacts_Ok {A} (m : ST (list ArtifactEnvelope) A) w w' a :
  on_artifacts m w = (w', Ok a) ->
  exists t, m (wd_artifacts w) = (t, Ok a) /\ w' = mkWorld (wd_sessions w) t (wd_graph w) (wd_ledger w).
Proof. unfold on_artifacts. destruct (m (wd_artifacts w)) as [t r] eqn:E. intros [= <- ->]. eauto. Qed.

Lemma on_ledger_Ok {A} (m : ST ledger A) w w' a :
  on_ledger m w = (w', Ok a) ->
  exists l, m (wd_ledger w) = (l, Ok a) /\ w' = mkWorld (wd_sessions w) (wd_artifacts w) (wd_graph w) l.
Proof. unfold on_ledger. destruct (m (wd_ledger w)) as [l r] eqn:E. intros [= <- ->]. eauto. Qed.

(** Take a successful run apart, one call at a time. *)
Ltac step H :=
  let w := fresh "w" in let r := fresh "r" in let R := fresh "R" in
  apply st_bind_Ok in H as (w & r & R & H); cbn beta in H.
Ltac guards :=
  repeat match goal with
  | H : lift_res _ _ = (_, Ok _) |- _ => apply lift_Ok in H as [-> H]
  | H : refuse_if _ _ = Ok _ |- _ => unfold refuse_if in H; apply guard_not_Ok in H
  | H : guard_not _ _ _ = Ok _ |- _ => apply guard_not_Ok in H
  | H : get_st _ = (_, Ok _) |- _ => injection H as <- <-
  end.

(** ** The tables *)

Lemma add_Ok write a w w' u :
  add write a w = (w', Ok u) ->
  row_refused write (wd_sessions w) a (wd_artifacts w) = false /\
  w' = mkWorld (wd_sessions w) (wd_artifacts w ++ [a]) (wd_graph w) (wd_ledger w).
Proof. unfold add. intros H. step H. guards. step H. guards. injection H as <- _. done. Qed.

Lemma add_node_Ok n g g' u :
  add_node n g = (g', Ok u) ->
  existsb (node_conflict n) (gd_nodes g) = false /\ g' = mkGraph (gd_nodes g ++ [n]) (gd_edges g).
Proof. unfold add_node. intros H. step H. guards. step H. guards. injection H as <- _. done. Qed.

Lemma add_edge_Ok e g g' u :
  add_edge e g = (g', Ok u) ->
  existsb (edge_conflict e) (gd_edges g) = false /\ g' = mkGraph (gd_nodes g) (gd_edges g ++ [stored_edge e]).
Proof. unfold add_edge. intros H. step H. guards. step H. guards. injection H as <- _. done. Qed.

Lemma set_lifecycle_Ok ws sid id status at_ t t' u :
  set_lifecycle ws sid id status at_ t = (t', Ok u) ->
  exists row, find_artifact ws sid id t = Some row /\
    enforce_reasoning_artifact_immutability (with_lifecycle row status at_) row = Ok tt /\
    t' = replace_row row (with_lifecycle row status at_) t.
Proof.
  unfold set_lifecycle. intros H. step H. guards. destruct (find_artifact ws sid id t) as [row|]; [|done].
  step H. guards. destruct r. injection H as <- _. eauto.
Qed.

(** The edges of one write, as they are built. *)
Lemma add_relationships_Ok a node c l w w' u :
  _add_relationships a node c l w = (w', Ok u) ->
  exists es, mapR (fun '(r, (edge_id, target)) => edge_of a c edge_id (gn_id node) (gn_id target) (pr_edge_type r) (qualifier_of a r)) l
             = Ok es /\
    w' = mkWorld (wd_sessions w) (wd_artifacts w)
           (mkGraph (gd_nodes (wd_graph w)) (gd_edges (wd_graph w) ++ map stored_edge es)) (wd_ledger w).
Proof.
  revert w; induction l as [|[r [i n]] l IH]; intros w H; cbn [_add_relationships] in H.
  - injection H as <- _. exists []. split; [done|]. cbn. rewrite app_nil_r. by destruct w as [? ? []].
  - step H. guards. step H. apply on_graph_Ok in R0 as (g & Hg & ->). apply add_edge_Ok in Hg as [_ ->].
    apply IH in H as (es & He & ->). exists (r0 :: es). cbn [mapR]. rewrite R, He. split; [done|]. cbn.
    by rewrite <- app_assoc.
Qed.

(** ** The operations *)

(** Run through a body: guards become facts, stores become their effects. *)
Ltac effects :=
  repeat match goal with
  | R : add _ _ _ = (_, Ok _) |- _ => let F := fresh "Frow" in apply add_Ok in R as [F ->]
  | R : on_graph (add_node _) _ = (_, Ok _) |- _ =>
      let F := fresh "Fnode" in apply on_graph_Ok in R as (? & R & ->); apply add_node_Ok in R as [F ->]
  | R : on_graph (add_edge _) _ = (_, Ok _) |- _ => apply on_graph_Ok in R as (? & R & ->); apply add_edge_Ok in R as [_ ->]
  | R : _add_relationships _ _ _ _ _ = (_, Ok _) |- _ =>
      let es := fresh "es" in let F := fresh "Fedges" in apply add_relationships_Ok in R as (es & F & ->)
  | R : on_artifacts (set_lifecycle _ _ _ _ _) _ = (_, Ok _) |- _ =>
      let row := fresh "row" in let F := fresh "Ffind" in let G := fresh "Fupdate" in
      apply on_artifacts_Ok in R as (? & R & ->); apply set_lifecycle_Ok in R as (row & F & G & ->)
  | R : on_ledger (append _) _ = (_, Ok _) |- _ =>
      let l := fresh "l" in let F := fresh "Flog" in apply on_ledger_Ok in R as (l & F & ->)
  | H : negb (bool_decide _) = false |- _ => apply negb_false_iff, bool_decide_eq_true in H
  end.
Ltac run H := repeat (step H; guards; effects).

Lemma stored_Ok m msg a : stored m msg = Ok a -> m = Ok (Some a).
Proof. unfold stored. intros (o & -> & H)%bind_Ok. destruct o; [by injection H as ->|done]. Qed.

Lemma node_of_Ok ws sid id msg g n : node_of ws sid id msg g = Ok n -> node_for_artifact ws sid id g = Some n.
Proof. unfold node_of. by destruct (node_for_artifact ws sid id g) as [m|]; [intros [= ->]|]. Qed.

Section runs.
Variable write : datetime -> string.

(** What the three operations share: a new row, its node and its edges. *)
Record inserted (w : world) (a : ArtifactEnvelope) (node_id : uuid) (ids : list uuid) (label : string)
    (c : ArtifactEventContext) (node : GraphNode) (es : list GraphEdge) : Prop := {
  is_row_accepted : row_refused write (wd_sessions w) a (wd_artifacts w) = false;
  is_node : _node a node_id label = Ok node;
  is_node_fresh : existsb (node_conflict node) (gd_nodes (wd_graph w)) = false;
  is_edges : exists targets, _relationship_targets a ids (wd_graph w) = Ok targets /\
    mapR (fun '(r, (edge_id, target)) => edge_of a c edge_id (gn_id node) (gn_id target) (pr_edge_type r) (qualifier_of a r))
      (combine (ar_parent_relationships a) targets) = Ok es
}.

(** The event an operation appended. *)
Definition recorded (w : world) (a : ArtifactEnvelope) (c : ArtifactEventContext) (event_type : string)
    (payload : dict string json) (l : ledger) (e : LedgerEvent) : Prop :=
  exists event, _event a c event_type payload = Ok event /\ append event (wd_ledger w) = (l, Ok e).

Lemma commit_run a node_id ids label c w w' r :
  commit write a node_id ids label c w = (w', Ok r) ->
  exists node es l e,
    (ar_version a = 1 /\ ar_supersedes_id a = None /\ ar_status a = LifecycleStatus.ACTIVE) /\
    inserted w a node_id ids label c node es /\
    recorded w a c "ARTIFACT_COMMITTED" (identity_members a ++ [("version", JInt (ar_version a))]) l e /\
    r = (a, e) /\
    w' = mkWorld (wd_sessions w) (wd_artifacts w ++ [a])
           (mkGraph (gd_nodes (wd_graph w) ++ [node]) (gd_edges (wd_graph w) ++ map stored_edge es)) l.
Proof.
  unfold commit. intros H. run H. injection H as <- <-.
  match goal with R : _ || _ = false |- _ => apply orb_false_iff in R as [Hv%negb_false_iff%Z.eqb_eq Hs] end.
  eexists _, es, l, _. split; [by destruct (ar_supersedes_id a)|]. split; [split; eauto|]. split; [by eexists|]. done.
Qed.

Lemma revise_run a node_id edge_id ids label reason c w w' r :
  revise write a node_id edge_id ids label reason c w = (w', Ok r) ->
  exists p previous previous_node node es edge l e,
    (ar_supersedes_id a = Some p /\ 1 < ar_version a /\ ar_status a = LifecycleStatus.ACTIVE /\ blank reason = false) /\
    (get_for_update write (ar_workspace_id a) (ar_session_id a) p (wd_artifacts w) = Ok (Some previous) /\
     ar_status previous = LifecycleStatus.ACTIVE /\ follows previous a = true) /\
    node_for_artifact (ar_workspace_id previous) (ar_session_id previous) (ar_id previous) (wd_graph w) = Some previous_node /\
    inserted w a node_id ids label c node es /\
    edge_of a c edge_id (gn_id node) (gn_id previous_node) Graph.SUPERSEDES [("reason", JStr reason)] = Ok edge /\
    recorded w a c "ARTIFACT_REVISED"
      (identity_members a ++ [("supersedes_id", juuid (ar_id previous)); ("version", JInt (ar_version a));
                              ("reason", JStr reason)]) l e /\
    r = (a, e) /\
    exists row,
      find_artifact (ar_workspace_id previous) (ar_session_id previous) (ar_id previous) (wd_artifacts w ++ [a]) = Some row /\
      enforce_reasoning_artifact_immutability (with_lifecycle row LifecycleStatus.SUPERSEDED (ec_recorded_at c)) row = Ok tt /\
      w' = mkWorld (wd_sessions w)
             (replace_row row (with_lifecycle row LifecycleStatus.SUPERSEDED (ec_recorded_at c)) (wd_artifacts w ++ [a]))
             (mkGraph (gd_nodes (wd_graph w) ++ [node])
                ((gd_edges (wd_graph w) ++ map stored_edge es) ++ [stored_edge edge])) l.
Proof.
  unfold revise. intros H. run H. injection H as <- <-.
  match goal with R : is_none _ || _ = false |- _ => apply orb_false_iff in R as [Hs Hv%Z.leb_gt] end.
  destruct (ar_supersedes_id a) as [p|] eqn:Es; [|done].
  repeat match goal with
  | R : stored _ _ = Ok _ |- _ => apply stored_Ok in R
  | R : node_of _ _ _ _ _ = Ok _ |- _ => apply node_of_Ok in R
  | R : negb _ = false |- _ => apply negb_false_iff in R
  end.
  eexists p, _, _, _, es, _, l, _. split; [done|]. split; [done|]. split; [done|]. split; [split; eauto|]. split; [done|].
  split; [by eexists|]. split; [done|]. by exists row.
Qed.

Lemma withdraw_run ws sid id reason warrants c w w' r :
  withdraw write ws sid id reason warrants c w = (w', Ok r) ->
  exists a l e,
    (blank reason = false /\ warrants <> [] /\ distinct warrants = true /\
     (forall u, u ∈ warrants -> is_Some (node_for_artifact ws sid u (wd_graph w)))) /\
    (get_for_update write ws sid id (wd_artifacts w) = Ok (Some a) /\ ar_status a = LifecycleStatus.ACTIVE) /\
    let withdrawn := with_lifecycle a LifecycleStatus.WITHDRAWN (ec_recorded_at c) in
    recorded w withdrawn c "ARTIFACT_WITHDRAWN"
      (identity_members a ++ [("version", JInt (ar_version a)); ("reason", JStr reason);
                              ("warrant_artifact_ids", juuids warrants)]) l e /\
    r = (withdrawn, e) /\
    exists row,
      find_artifact (ar_workspace_id a) (ar_session_id a) (ar_id a) (wd_artifacts w) = Some row /\
      enforce_reasoning_artifact_immutability (with_lifecycle row LifecycleStatus.WITHDRAWN (ec_recorded_at c)) row = Ok tt /\
      w' = mkWorld (wd_sessions w)
             (replace_row row (with_lifecycle row LifecycleStatus.WITHDRAWN (ec_recorded_at c)) (wd_artifacts w))
             (wd_graph w) l.
Proof.
  unfold withdraw. intros H. run H. injection H as <- <-.
  repeat match goal with
  | R : stored _ _ = Ok _ |- _ => apply stored_Ok in R
  | R : negb _ = false |- _ => apply negb_false_iff in R
  | R : bool_decide _ = false |- _ => apply bool_decide_eq_false in R
  end.
  eexists _, l, _. split.
  - repeat (split; [done|]). intros u Hu.
    match goal with R : mapR _ _ = Ok _ |- _ => apply mapR_Ok in R; apply list_elem_of_lookup in Hu as (i & Hu);
      destruct (Forall2_lookup_l _ _ _ _ _ R Hu) as (n & _ & Hn%node_of_Ok) end. by eexists.
  - split; [done|]. split; [by eexists|]. split; [done|]. by exists row.
Qed.

End runs.

(** ** Tables that only grow

    Between two states of the artifact table rows are added at the end, and an
    existing row changes in its status and [updated_at] only. *)

Definition frozen (a : ArtifactEnvelope) : ArtifactEnvelope := with_lifecycle a LifecycleStatus.ACTIVE (utc_datetime 0).

Lemma frozen_eq a b : frozen a = frozen b -> a = with_lifecycle b (ar_status a) (ar_updated_at a).
Proof. destruct a, b. unfold frozen, with_lifecycle. cbn. intros H. injection H; intros; subst. reflexivity. Qed.

Definition updates (f : ArtifactEnvelope -> ArtifactEnvelope) (t : list ArtifactEnvelope) : Prop :=
  forall a, a ∈ t -> frozen (f a) = frozen a.

Section grows.
Context (f : ArtifactEnvelope -> ArtifactEnvelope) (t l : list ArtifactEnvelope).
Hypothesis Hf : updates f t.

Lemma is_row_frozen ws sid id a b : frozen a = frozen b -> is_row ws sid id a = is_row ws sid id b.
Proof. intros ->%frozen_eq. done. Qed.

Lemma find_grows ws sid id a :
  find_artifact ws sid id t = Some a -> find_artifact ws sid id (map f t ++ l) = Some (f a).
Proof using Hf.
  unfold find_artifact. assert (H : forall t', (forall a, a ∈ t' -> a ∈ t) ->
    List.find (is_row ws sid id) t' = Some a -> List.find (is_row ws sid id) (map f t' ++ l) = Some (f a)); [|by apply H].
  induction t' as [|b t' IH]; cbn; [done|]. intros Hin.
  rewrite (is_row_frozen _ _ _ (f b) b) by (apply Hf, Hin; left). destruct (is_row ws sid id b); [by intros [= ->]|].
  apply IH. intros x Hx. apply Hin. by right.
Qed.

Lemma predecessor_grows b p : b ∈ t -> predecessor b t = Some p -> predecessor (f b) (map f t ++ l) = Some (f p).
Proof using Hf.
  intros Hb. unfold predecessor. rewrite (frozen_eq _ _ (Hf b Hb)). cbn.
  destruct (ar_supersedes_id b) as [i|]; [|done]. cbn. apply find_grows.
Qed.

Lemma chain_grows a :
  a ∈ t -> enforce_artifact_revision_chain t a = Ok tt -> enforce_artifact_revision_chain (map f t ++ l) (f a) = Ok tt.
Proof using Hf.
  intros Ha. unfold enforce_artifact_revision_chain.
  pose proof (frozen_eq _ _ (Hf a Ha)) as E. assert (Hv : ar_version (f a) = ar_version a) by by rewrite E. rewrite Hv.
  destruct (ar_version a =? 1); [done|]. rewrite !guard_not_Ok.
  destruct (predecessor a t) as [p|] eqn:Hp; [|done]. rewrite (predecessor_grows a p Ha Hp).
  assert (Hpt : p ∈ t).
  { unfold predecessor in Hp. destruct (ar_supersedes_id a); [|done]. apply find_some in Hp as [Hp _]. by apply list_elem_of_In. }
  rewrite (frozen_eq _ _ (Hf p Hpt)), E. done.
Qed.

Lemma exists_grows a v :
  is_true (sql_not (artifact_reference_exists t a v)) = false ->
  is_true (sql_not (artifact_reference_exists (map f t ++ l) a v)) = false.
Proof using Hf.
  unfold artifact_reference_exists. set (b := existsb _ t). set (b' := existsb _ (map f t ++ l)).
  assert (Hb : b = true -> b' = true).
  { unfold b, b'. rewrite !existsb_exists. intros (x & Hx & Hc). exists (f x). apply list_elem_of_In in Hx.
    split; [apply in_or_app; left; apply in_map, list_elem_of_In, Hx|]. by rewrite (frozen_eq _ _ (Hf x Hx)). }
  destruct (jsonb_uuid_text v) as [[]|], b, b'; try done; by specialize (Hb eq_refl).
Qed.

Lemma all_exist_grows a msg vs : all_exist t a msg vs = Ok tt -> all_exist (map f t ++ l) a msg vs = Ok tt.
Proof using Hf.
  unfold all_exist. rewrite !guard_not_Ok. intros H. apply not_true_iff_false. rewrite existsb_exists. intros (v & Hv & Hx).
  apply not_true_iff_false in H. apply H. apply existsb_exists. exists v. split; [done|].
  destruct (is_true (sql_not (artifact_reference_exists t a v))) eqn:E; [done|]. by rewrite (exists_grows a v E) in Hx.
Qed.

Lemma references_grow a :
  a ∈ t -> enforce_artifact_references t a = Ok tt -> enforce_artifact_references (map f t ++ l) (f a) = Ok tt.
Proof using Hf.
  intros Ha H. rewrite (frozen_eq _ _ (Hf a Ha)).
  change (enforce_artifact_references (map f t ++ l) a = Ok tt).
  unfold enforce_artifact_references in *.
  apply bind_Ok in H as ([] & H1 & H). apply bind_Ok in H as ([] & H2 & H).
  rewrite (all_exist_grows _ _ _ H1), (all_exist_grows _ _ _ H2). cbn [mbind res_bind].
  destruct (ar_kind a); try done; try (by apply all_exist_grows);
    apply bind_Ok in H as ([] & H3 & H); rewrite (all_exist_grows _ _ _ H3); cbn [mbind res_bind]; by apply all_exist_grows.
Qed.

Lemma node_kind_grows n : enforce_graph_node_kind t n = Ok tt -> enforce_graph_node_kind (map f t ++ l) n = Ok tt.
Proof using Hf.
  unfold enforce_graph_node_kind. destruct (find_artifact _ _ _ t) as [a|] eqn:E; [|done].
  rewrite (find_grows _ _ _ _ E). apply find_some in E as [Ha%list_elem_of_In _]. by rewrite (frozen_eq _ _ (Hf a Ha)).
Qed.

End grows.

Lemma find_app_Some {A} (p : A -> bool) l m x : List.find p l = Some x -> List.find p (l ++ m) = Some x.
Proof. induction l as [|y l IH]; cbn; [done|]. by destruct (p y). Qed.

Lemma edge_grows nodes l e :
  enforce_graph_edge_endpoints nodes e = Ok tt -> enforce_graph_edge_endpoints (nodes ++ l) e = Ok tt.
Proof.
  unfold enforce_graph_edge_endpoints, find_node. 
  destruct (List.find _ nodes) as [n|] eqn:E1; [|done]. cbn [fmap option_fmap option_map].
  rewrite (find_app_Some _ _ l _ E1). cbn [fmap option_fmap option_map].
  destruct (List.find (fun m => _ && _ && bool_decide (gn_id m = ge_to_node e)) nodes) as [m|] eqn:E2; [|done].
  by rewrite (find_app_Some _ _ l _ E2).
Qed.

(** ** The invariant *)

Definition revision_key (a : ArtifactEnvelope) : uuid * uuid * uuid * Z :=
  (ar_workspace_id a, ar_session_id a, ar_logical_id a, ar_version a).

(** The row [b] revises, as the triggers look it up, is [p]. *)
Definition revises (t : list ArtifactEnvelope) (b p : ArtifactEnvelope) : Prop := b ∈ t /\ predecessor b t = Some p.

Definition projects (n : GraphNode) (a : ArtifactEnvelope) : Prop :=
  gn_ref_id n = ar_id a /\ gn_workspace_id n = ar_workspace_id a /\ gn_session_id n = ar_session_id a.

(** The graph records that [b] supersedes [p]. *)
Definition supersession_edge (g : graph) (b p : ArtifactEnvelope) : Prop :=
  exists n m e, n ∈ gd_nodes g /\ m ∈ gd_nodes g /\ e ∈ gd_edges g /\ projects n b /\ projects m p /\
    ge_edge_type e = Graph.SUPERSEDES /\ ge_from_node e = gn_id n /\ ge_to_node e = gn_id m.

Section invariant.
Variable write : datetime -> string.

Record world_inv (w : world) : Prop := {
  wi_ids : NoDup (map ar_id (wd_artifacts w));
  wi_revisions : NoDup (map revision_key (wd_artifacts w));
  wi_valid : forall a, a ∈ wd_artifacts w -> validate_artifact write a = Ok a;
  wi_chain : forall a, a ∈ wd_artifacts w -> enforce_artifact_revision_chain (wd_artifacts w) a = Ok tt;
  wi_references : forall a, a ∈ wd_artifacts w -> enforce_artifact_references (wd_artifacts w) a = Ok tt;
  wi_heads : forall a, a ∈ wd_artifacts w ->
    ar_status a = LifecycleStatus.SUPERSEDED <-> exists b, revises (wd_artifacts w) b a;
  wi_node_ids : NoDup (map gn_id (gd_nodes (wd_graph w)));
  wi_nodes : forall n, n ∈ gd_nodes (wd_graph w) -> enforce_graph_node_kind (wd_artifacts w) n = Ok tt;
  wi_projected : forall a, a ∈ wd_artifacts w -> exists n, n ∈ gd_nodes (wd_graph w) /\ projects n a;
  wi_edges : forall e, e ∈ gd_edges (wd_graph w) -> enforce_graph_edge_endpoints (gd_nodes (wd_graph w)) e = Ok tt;
  wi_supersessions : forall b p, revises (wd_artifacts w) b p -> supersession_edge (wd_graph w) b p;
  wi_ledger : ledger_inv (wd_ledger w)
}.

Lemma each_Ok {A} (f : A -> res unit) l u : each f l = Ok u -> forall x, x ∈ l -> f x = Ok tt.
Proof. unfold each. destruct u. intros H%foldR_checks. by apply Forall_forall. Qed.

Lemma written_elem {A} `{EqDecision A} (before after : list A) x : x ∈ written before after <-> x ∈ after /\ x ∉ before.
Proof. unfold written. by rewrite filter_elem, negb_true_iff, bool_decide_eq_false. Qed.

(** Checks on tables that grow: what held holds, and the triggers check the rest. *)
Lemma deferred_keep w w' f l nodes edges :
  world_inv w -> updates f (wd_artifacts w) -> (forall a, a ∈ l -> a ∉ wd_artifacts w) ->
  wd_artifacts w' = map f (wd_artifacts w) ++ l ->
  gd_nodes (wd_graph w') = gd_nodes (wd_graph w) ++ nodes -> gd_edges (wd_graph w') = gd_edges (wd_graph w) ++ edges ->
  deferred_triggers w w' = Ok tt ->
  (forall a, a ∈ wd_artifacts w' -> enforce_artifact_revision_chain (wd_artifacts w') a = Ok tt) /\
  (forall a, a ∈ wd_artifacts w' -> enforce_artifact_references (wd_artifacts w') a = Ok tt) /\
  (forall n, n ∈ gd_nodes (wd_graph w') -> enforce_graph_node_kind (wd_artifacts w') n = Ok tt) /\
  (forall e, e ∈ gd_edges (wd_graph w') -> enforce_graph_edge_endpoints (gd_nodes (wd_graph w')) e = Ok tt).
Proof.
  intros Hi Hf Hl Ht Hn He Hd. unfold deferred_triggers in Hd.
  apply bind_Ok in Hd as (u1 & H1 & Hd). apply bind_Ok in Hd as (u2 & H2 & Hd). apply bind_Ok in Hd as (u3 & H3 & H4).
  assert (Hsplit : forall a, a ∈ wd_artifacts w' ->
    (exists b, b ∈ wd_artifacts w /\ a = f b) \/ a ∈ written (wd_artifacts w) (wd_artifacts w')).
  { intros a Ha. rewrite Ht in Ha. apply elem_of_app in Ha as [(b & Hb & Hin)%list_elem_of_In%in_map_iff|Hin].
    - left. exists b. split; [by apply list_elem_of_In|done].
    - right. apply written_elem. rewrite Ht. split; [by apply elem_of_app; right|by apply Hl]. }
  split; [|split; [|split]].
  - intros a [(b & Hb & ->)|Hw]%Hsplit; [rewrite Ht; by apply chain_grows, Hi|by eapply each_Ok].
  - intros a [(b & Hb & ->)|Hw]%Hsplit; [rewrite Ht; by apply references_grow, Hi|by eapply each_Ok].
  - intros n Hn'. destruct (decide (n ∈ gd_nodes (wd_graph w))) as [Hin|Hout].
    + rewrite Ht. by apply node_kind_grows, Hi.
    + eapply each_Ok; [exact H3|by apply written_elem].
  - intros e He'. destruct (decide (e ∈ gd_edges (wd_graph w))) as [Hin|Hout].
    + rewrite Hn. by apply edge_grows, Hi.
    + eapply each_Ok; [exact H4|by apply written_elem].
Qed.

(** ** Keys *)

Lemma map_frozen {A} (key : ArtifactEnvelope -> A) f t :
  (forall a b, frozen a = frozen b -> key a = key b) -> updates f t -> map key (map f t) = map key t.
Proof.
  intros Hk Hf. rewrite map_map. apply map_ext_in. intros a Ha. apply Hk, Hf. by apply list_elem_of_In.
Qed.

Lemma id_frozen a b : frozen a = frozen b -> ar_id a = ar_id b.
Proof. by intros ->%frozen_eq. Qed.
Lemma revision_key_frozen a b : frozen a = frozen b -> revision_key a = revision_key b.
Proof. by intros ->%frozen_eq. Qed.

Lemma find_artifact_Some ws sid id t a :
  find_artifact ws sid id t = Some a -> a ∈ t /\ ar_workspace_id a = ws /\ ar_session_id a = sid /\ ar_id a = id.
Proof.
  intros [Hin Hr]%find_some. apply list_elem_of_In in Hin. unfold is_row in Hr.
  apply andb_true_iff in Hr as [[H1%bool_decide_eq_true H2%bool_decide_eq_true]%andb_true_iff H3%bool_decide_eq_true]. done.
Qed.

Lemma find_artifact_unique t a :
  NoDup (map ar_id t) -> a ∈ t -> find_artifact (ar_workspace_id a) (ar_session_id a) (ar_id a) t = Some a.
Proof.
  intros Hn Ha. unfold find_artifact. destruct (List.find _ t) as [b|] eqn:E.
  - apply find_artifact_Some in E as (Hb & _ & _ & Hid). f_equal. by apply (same_key ar_id t).
  - exfalso. pose proof (find_none _ _ E a (proj1 (list_elem_of_In _ _) Ha)) as Hr. unfold is_row in Hr.
    by rewrite !bool_decide_true in Hr.
Qed.

Lemma row_fresh sessions a t :
  row_refused write sessions a t = false ->
  ar_id a ∉ map ar_id t /\ revision_key a ∉ map revision_key t /\
  (is_some (ar_supersedes_id a) = true -> is_Some (predecessor a t)).
Proof.
  unfold row_refused. intros [[[[[Hc _]%orb_false_iff Hp]%orb_false_iff _]%orb_false_iff _]%orb_false_iff _]%orb_false_iff.
  assert (Hno : forall b, b ∈ t -> row_conflict a b = false).
  { intros b Hb. apply not_true_iff_false. intros Hx. apply not_true_iff_false in Hc. apply Hc, existsb_exists.
    exists b. split; [by apply list_elem_of_In|done]. }
  split; [|split].
  - intros (b & He & Hb)%list_elem_of_fmap. specialize (Hno b Hb). unfold row_conflict in Hno.
    by rewrite bool_decide_true in Hno.
  - intros (b & He & Hb)%list_elem_of_fmap. specialize (Hno b Hb). unfold row_conflict, revision_key in *.
    injection He as H1 H2 H3 H4. apply orb_false_iff in Hno as [_ Hno]. by rewrite H4, Z.eqb_refl, !bool_decide_true in Hno.
  - intros Hs. rewrite Hs in Hp. cbn in Hp. by destruct (predecessor a t).
Qed.

Lemma node_fresh n nodes :
  existsb (node_conflict n) nodes = false -> gn_id n ∉ map gn_id nodes.
Proof.
  intros Hc (m & He & Hm)%list_elem_of_fmap. apply not_true_iff_false in Hc. apply Hc, existsb_exists.
  exists m. split; [by apply list_elem_of_In|]. unfold node_conflict. by rewrite bool_decide_true.
Qed.

Lemma NoDup_snoc {A} (l : list A) x : NoDup l -> x ∉ l -> NoDup (l ++ [x]).
Proof. intros Hl Hx. apply NoDup_app. split; [done|]. split; [set_solver|apply NoDup_singleton]. Qed.

(** A node the service builds projects its artifact. *)
Lemma node_projects a node_id label n : _node a node_id label = Ok n -> projects n a /\ gn_kind n = ar_kind a.
Proof.
  unfold _node, new_node. rewrite validated_Ok. intros (? & _ & (? & _ & Hn)%bind_Ok)%bind_Ok. assert (Hp : n = mkNode node_id (ar_workspace_id a) (ar_session_id a) (ar_kind a) (ar_id a) label
              [("logical_id", juuid (ar_logical_id a)); ("version", JInt (ar_version a))]) by congruence.
  rewrite Hp. done.
Qed.

Lemma edge_ends a c i from to ty q e :
  edge_of a c i from to ty q = Ok e -> ge_edge_type e = ty /\ ge_from_node e = from /\ ge_to_node e = to.
Proof.
  unfold edge_of, new_edge. intros H%validated_Ok. apply bind_Ok in H as (? & _ & H). apply bind_Ok in H as (? & _ & H).
  apply bind_Ok in H as (? & _ & [= <-]). done.
Qed.

Lemma node_for_artifact_Some ws sid id g n :
  node_for_artifact ws sid id g = Some n ->
  n ∈ gd_nodes g /\ gn_ref_id n = id /\ gn_workspace_id n = ws /\ gn_session_id n = sid.
Proof.
  intros [Hin Hr]%find_some. apply list_elem_of_In in Hin.
  apply andb_true_iff in Hr as [[H1%bool_decide_eq_true H2%bool_decide_eq_true]%andb_true_iff H3%bool_decide_eq_true]. done.
Qed.

(** ** Rows and their validity *)

Lemma lifecycle_valid a status t :
  validate_artifact write a = Ok a -> _aware_utc t = Ok t -> validate_artifact write (with_lifecycle a status t) = Ok (with_lifecycle a status t).
Proof.
  intros Ha Ht. apply (valid_new_artifact write true). destruct (new_artifact_valid write true a a Ha) as [H1 H2 H3 H4 H5 H6 H7 H8 H9].
  split; [exact H1|exact H2|exact H3|exact H4|exact H5|exact H6|exact H7|exact Ht|exact H9].
Qed.

Lemma stored_reads w ws sid id a :
  world_inv w -> get_for_update write ws sid id (wd_artifacts w) = Ok (Some a) -> find_artifact ws sid id (wd_artifacts w) = Some a.
Proof.
  intros Hi. unfold get_for_update. destruct (find_artifact ws sid id (wd_artifacts w)) as [row|] eqn:E; [|done].
  intros H. apply fmap_Ok in H as (b & Hb & [= ->]). f_equal. unfold _from_row in Hb.
  rewrite (wi_valid w Hi row) in Hb by (by apply find_artifact_Some in E as [? _]). by injection Hb.
Qed.

(** The first version of an artifact supersedes nothing, a later one something. *)
Lemma revision_shape a : validate_artifact write a = Ok a -> ar_version a = 1 <-> ar_supersedes_id a = None.
Proof.
  intros Ha. destruct (proj1 (invariants_iff write true a) (vp_invariants _ _ _ (new_artifact_valid write true a a Ha))) as [Hr _].
  pose proof (ru_revision _ Hr) as H. unfold _valid_revision in H. destruct (ar_supersedes_id a); cbn in H.
  - rewrite andb_false_r, andb_true_r in H. cbn in H. apply Z.ltb_lt in H. split; [lia|done].
  - rewrite andb_false_r, andb_true_r, orb_false_r in H. apply Z.eqb_eq in H. done.
Qed.

(** ** One step of the stores *)

(** The pieces of a step: [f] updates the old rows, [l], [nodes] and [edges] are
    new, and the ledger stays consistent. *)
Record step (w w' : world) (f : ArtifactEnvelope -> ArtifactEnvelope) (l : list ArtifactEnvelope)
    (nodes : list GraphNode) (edges : list GraphEdge) : Prop := {
  sp_updates : updates f (wd_artifacts w);
  sp_artifacts : wd_artifacts w' = map f (wd_artifacts w) ++ l;
  sp_nodes : gd_nodes (wd_graph w') = gd_nodes (wd_graph w) ++ nodes;
  sp_edges : gd_edges (wd_graph w') = gd_edges (wd_graph w) ++ edges;
  sp_triggers : deferred_triggers w w' = Ok tt;
  sp_ids : NoDup (map ar_id (wd_artifacts w) ++ map ar_id l);
  sp_revisions : NoDup (map revision_key (wd_artifacts w) ++ map revision_key l);
  sp_valid : forall a, a ∈ wd_artifacts w' -> validate_artifact write a = Ok a;
  sp_node_ids : NoDup (map gn_id (gd_nodes (wd_graph w')));
  sp_projected : forall a, a ∈ l -> exists n, n ∈ gd_nodes (wd_graph w') /\ projects n a;
  sp_superseded : forall a, a ∈ wd_artifacts w ->
    ar_status (f a) = LifecycleStatus.SUPERSEDED <->
    ar_status a = LifecycleStatus.SUPERSEDED \/ exists b, b ∈ l /\ predecessor b (wd_artifacts w') = Some (f a);
  sp_live : forall a, a ∈ l -> ar_status a <> LifecycleStatus.SUPERSEDED;
  sp_revised : forall b p, b ∈ l -> predecessor b (wd_artifacts w') = Some p ->
    (exists x, x ∈ wd_artifacts w /\ p = f x) /\ supersession_edge (wd_graph w') b p;
  sp_ledger : ledger_inv (wd_ledger w')
}.

Section steps.
Context (w w' : world) (f : ArtifactEnvelope -> ArtifactEnvelope) (l : list ArtifactEnvelope)
  (nodes : list GraphNode) (edges : list GraphEdge).
Hypotheses (Hi : world_inv w) (Hs : step w w' f l nodes edges).

Lemma predecessor_in b t p : predecessor b t = Some p -> p ∈ t.
Proof.
  unfold predecessor. destruct (ar_supersedes_id b); [|done]. intros [Hp _]%find_artifact_Some. done.
Qed.

Lemma old_predecessor b p :
  b ∈ wd_artifacts w -> predecessor (f b) (wd_artifacts w') = Some p ->
  exists y, predecessor b (wd_artifacts w) = Some y /\ p = f y.
Proof using Hi Hs.
  intros Hb Hp. pose proof (wi_chain w Hi b Hb) as Hc. unfold enforce_artifact_revision_chain in Hc.
  destruct (Z.eqb_spec (ar_version b) 1) as [Hv|Hv].
  - apply (revision_shape b (wi_valid w Hi b Hb)) in Hv. unfold predecessor in Hp.
    rewrite (frozen_eq _ _ (sp_updates _ _ _ _ _ _ Hs b Hb)) in Hp. cbn in Hp. by rewrite Hv in Hp.
  - apply guard_not_Ok in Hc. destruct (predecessor b (wd_artifacts w)) as [y|] eqn:Hy; [|done]. exists y. split; [done|].
    pose proof (predecessor_grows f (wd_artifacts w) l (sp_updates _ _ _ _ _ _ Hs) b y Hb Hy) as Hg.
    rewrite <- (sp_artifacts _ _ _ _ _ _ Hs) in Hg. congruence.
Qed.

Lemma step_elem a : a ∈ wd_artifacts w' <-> (exists x, x ∈ wd_artifacts w /\ a = f x) \/ a ∈ l.
Proof using Hs.
  rewrite (sp_artifacts _ _ _ _ _ _ Hs), elem_of_app, list_elem_of_In, in_map_iff. split.
  - intros [(x & <- & Hx)|Ha]; [left; exists x; by rewrite list_elem_of_In|by right].
  - intros [(x & Hx & ->)|Ha]; [left; exists x; by rewrite <- list_elem_of_In|by right].
Qed.

Lemma new_id_fresh a x : a ∈ l -> x ∈ wd_artifacts w -> ar_id a <> ar_id x.
Proof using Hs.
  intros Ha Hx He. pose proof (sp_ids _ _ _ _ _ _ Hs) as Hn. apply NoDup_app in Hn as (_ & Hd & _).
  apply (Hd (ar_id x)); [by apply list_elem_of_fmap_2|]. rewrite <- He. by apply list_elem_of_fmap_2.
Qed.

Lemma same_image x y : x ∈ wd_artifacts w -> y ∈ wd_artifacts w -> f x = f y -> x = y.
Proof using Hi Hs.
  intros Hx Hy He. apply (same_key ar_id (wd_artifacts w)); [apply Hi|done|done|].
  rewrite <- (id_frozen _ _ (sp_updates _ _ _ _ _ _ Hs x Hx)), <- (id_frozen _ _ (sp_updates _ _ _ _ _ _ Hs y Hy)). by rewrite He.
Qed.

Lemma new_not_image a x : a ∈ l -> x ∈ wd_artifacts w -> a <> f x.
Proof using Hs.
  intros Ha Hx ->. apply (new_id_fresh (f x) x Ha Hx). by apply id_frozen, (sp_updates _ _ _ _ _ _ Hs).
Qed.

Lemma step_heads a :
  a ∈ wd_artifacts w' -> ar_status a = LifecycleStatus.SUPERSEDED <-> exists b, revises (wd_artifacts w') b a.
Proof using Hi Hs.
  intros [(x & Hx & ->)|Ha]%step_elem.
  - rewrite (sp_superseded _ _ _ _ _ _ Hs x Hx), (wi_heads w Hi x Hx). split.
    + intros [(b & Hb & Hp)|(b & Hb & Hp)].
      * exists (f b). split; [apply step_elem; eauto|]. rewrite (sp_artifacts _ _ _ _ _ _ Hs).
        by apply predecessor_grows; [apply Hs| |].
      * exists b. split; [apply step_elem; by right|done].
    + intros (b & [(y & Hy & ->)|Hb]%step_elem & Hp); [left|right; eauto].
      destruct (old_predecessor y _ Hy Hp) as (z & Hz & He). exists y. split; [done|].
      by rewrite (same_image x z Hx (predecessor_in _ _ _ Hz) He).
  - split; [by intros ?%(sp_live _ _ _ _ _ _ Hs)|]. intros (b & [(y & Hy & ->)|Hb]%step_elem & Hp); exfalso.
    + destruct (old_predecessor y _ Hy Hp) as (z & Hz & He). by apply (new_not_image a z Ha (predecessor_in _ _ _ Hz)).
    + destruct (sp_revised _ _ _ _ _ _ Hs b a Hb Hp) as [(x & Hx & He) _]. by apply (new_not_image a x Ha Hx).
Qed.

Lemma projects_frozen n a b : frozen a = frozen b -> projects n b -> projects n a.
Proof. by intros ->%frozen_eq. Qed.

Lemma step_keeps : world_inv w'.
Proof using Hi Hs.
  pose proof (sp_updates _ _ _ _ _ _ Hs) as Hf. pose proof (sp_artifacts _ _ _ _ _ _ Hs) as Ht.
  destruct (deferred_keep w w' f l nodes edges) as (H1 & H2 & H3 & H4); try apply Hs; [exact Hi| |].
  { intros a Ha Hin. by apply (new_id_fresh a a Ha Hin). }
  split; try done.
  - rewrite Ht, map_app, (map_frozen ar_id f _ id_frozen Hf). apply Hs.
  - rewrite Ht, map_app, (map_frozen revision_key f _ revision_key_frozen Hf). apply Hs.
  - apply Hs.
  - apply step_heads.
  - apply Hs.
  - intros a [(x & Hx & ->)|Ha]%step_elem; [|by apply Hs].
    destruct (wi_projected w Hi x Hx) as (n & Hn & Hp). exists n. rewrite (sp_nodes _ _ _ _ _ _ Hs).
    split; [apply elem_of_app; by left|]. by eapply projects_frozen; [apply Hf|].
  - intros b p [[(x & Hx & ->)|Hb]%step_elem Hp]; [|by apply (sp_revised _ _ _ _ _ _ Hs)].
    destruct (old_predecessor x p Hx Hp) as (y & Hy & ->).
    destruct (wi_supersessions w Hi x y (conj Hx Hy)) as (n & m & e & Hn & Hm & He & Pn & Pm & Htail).
    exists n, m, e. rewrite (sp_nodes _ _ _ _ _ _ Hs), (sp_edges _ _ _ _ _ _ Hs), !elem_of_app.
    do 3 (split; [by left|]). split; [by eapply projects_frozen; [apply Hf|]|].
    split; [eapply projects_frozen; [apply Hf; by eapply predecessor_in|done]|done].
  - apply Hs.
Qed.

End steps.

(** ** The operations as steps *)

Lemma event_valid a c ty p ev : _event a c ty p = Ok ev -> new_append ev = Ok ev.
Proof. unfold _event. intros H. by apply new_append_Ok in H as (_ & H & _). Qed.

Lemma recorded_inv w a c ty p l e : ledger_inv (wd_ledger w) -> recorded w a c ty p l e -> ledger_inv l.
Proof.
  intros Hl (ev & Hev & Ha). apply event_valid in Hev. pose proof (append_inv _ _ Hl Hev) as H. by rewrite Ha in H.
Qed.

(** An update of one stored row. *)
Section update.
Context (w : world) (row new : ArtifactEnvelope).
Hypotheses (Hi : world_inv w) (Hrow : row ∈ wd_artifacts w) (Hnew : frozen new = frozen row).

Definition update (a : ArtifactEnvelope) : ArtifactEnvelope := if bool_decide (ar_id a = ar_id row) then new else a.

Lemma update_row : update row = new.
Proof. unfold update. by rewrite bool_decide_true. Qed.

Lemma update_other a : a ∈ wd_artifacts w -> a <> row -> update a = a.
Proof using Hi Hrow.
  intros Ha Hne. unfold update. rewrite bool_decide_false; [done|]. intros He. apply Hne.
  by apply (same_key ar_id (wd_artifacts w)); [apply Hi| | |].
Qed.

Lemma update_updates : updates update (wd_artifacts w).
Proof using Hi Hrow Hnew.
  intros a Ha. destruct (decide (a = row)) as [->|Hne]; [by rewrite update_row|]. by rewrite update_other.
Qed.

Lemma update_fresh a : ar_id a ∉ map ar_id (wd_artifacts w) -> update a = a.
Proof using Hrow.
  intros Ha. unfold update. rewrite bool_decide_false; [done|]. intros He. apply Ha. rewrite He. by apply list_elem_of_fmap_2.
Qed.

Lemma update_valid a :
  validate_artifact write new = Ok new -> a ∈ wd_artifacts w -> validate_artifact write (update a) = Ok (update a).
Proof using Hi Hrow.
  intros Hv Ha. destruct (decide (a = row)) as [->|Hne]; [by rewrite update_row|]. rewrite update_other by done. by apply Hi.
Qed.

End update.

Lemma inserted_facts w a node_id ids label c node es :
  world_inv w -> inserted write w a node_id ids label c node es ->
  NoDup (map ar_id (wd_artifacts w) ++ [ar_id a]) /\ NoDup (map revision_key (wd_artifacts w) ++ [revision_key a]) /\
  ar_id a ∉ map ar_id (wd_artifacts w) /\ NoDup (map gn_id (gd_nodes (wd_graph w) ++ [node])) /\ projects node a.
Proof.
  intros Hi [Hrow Hnode Hfresh _]. destruct (row_fresh _ _ _ Hrow) as (H1 & H2 & _).
  split; [by apply NoDup_snoc; [apply Hi|]|]. split; [by apply NoDup_snoc; [apply Hi|]|]. split; [done|].
  split; [|by apply node_projects in Hnode as [? _]]. rewrite map_app. apply NoDup_snoc; [apply Hi|by apply node_fresh].
Qed.

Lemma commit_step w a node_id ids label c w' r :
  world_inv w -> validate_artifact write a = Ok a ->
  commit write a node_id ids label c (begin_transaction w) = (w', Ok r) -> deferred_triggers w w' = Ok tt ->
  exists nodes edges, step w w' (fun x => x) [a] nodes edges.
Proof.
  intros Hi Ha H Hd. apply commit_run in H as (node & es & l & e & (Hv & Hsup & Hst) & Hins & Hrec & -> & ->).
  destruct (inserted_facts w a node_id ids label c node es Hi) as (H1 & H2 & H3 & H4 & H5); [by destruct Hins|].
  assert (Hnone : forall t, predecessor a t = None) by (intros t; unfold predecessor; by rewrite Hsup).
  exists [node], (map stored_edge es). split; cbn [wd_artifacts wd_graph gd_nodes gd_edges wd_ledger begin_transaction] in *; try done.
  - by rewrite map_id.
  - intros x [Hx|Hx%list_elem_of_singleton]%elem_of_app; [by apply Hi|by subst x].
  - intros x ->%list_elem_of_singleton. exists node. split; [apply elem_of_app; right; by apply list_elem_of_singleton|done].
  - intros x Hx. split; [by left|]. intros [?|(b & ->%list_elem_of_singleton & Hp)]; [done|]. by rewrite Hnone in Hp.
  - intros x ->%list_elem_of_singleton. by rewrite Hst.
  - intros b p ->%list_elem_of_singleton Hp. by rewrite Hnone in Hp.
  - eapply recorded_inv; [|exact Hrec]. destruct (wi_ledger w Hi) as [L1 L2 L3]. by split.
Qed.

(** One stored row changes its lifecycle, and [l] is appended. *)
Lemma replaced_rows row new t l :
  (forall x, x ∈ l -> update row new x = x) -> replace_row row new (t ++ l) = map (update row new) t ++ l.
Proof.
  intros Hl. unfold replace_row. rewrite map_app. f_equal. induction l as [|x l IH]; [done|]. cbn.
  rewrite IH by (intros y Hy; apply Hl; by right). f_equal. apply Hl. by left.
Qed.

Lemma aware_context c : new_context c = Ok c -> _aware_utc (ec_recorded_at c) = Ok (ec_recorded_at c).
Proof. unfold new_context. intros (t & Ht & Hc)%validated_Ok%bind_Ok. injection Hc as Hc. rewrite <- Hc at 2. exact Ht. Qed.

(** The row an operation locks is the one it updates. *)
Lemma locked_row w ws sid id a l row :
  world_inv w -> get_for_update write ws sid id (wd_artifacts w) = Ok (Some a) ->
  find_artifact (ar_workspace_id a) (ar_session_id a) (ar_id a) (wd_artifacts w ++ l) = Some row ->
  row = a /\ a ∈ wd_artifacts w /\ find_artifact ws sid id (wd_artifacts w) = Some a.
Proof.
  intros Hi Hg Hf. apply (stored_reads w) in Hg; [|done]. pose proof Hg as (Ha & _)%find_artifact_Some.
  unfold find_artifact in Hf. rewrite (find_app_Some _ _ l a) in Hf; [by injection Hf as <-|].
  by apply find_artifact_unique; [apply Hi|].
Qed.

Lemma revise_step w a node_id edge_id ids label reason c w' r :
  world_inv w -> validate_artifact write a = Ok a -> new_context c = Ok c ->
  revise write a node_id edge_id ids label reason c (begin_transaction w) = (w', Ok r) -> deferred_triggers w w' = Ok tt ->
  exists f nodes edges, step w w' f [a] nodes edges.
Proof.
  intros Hi Ha Hc H Hd.
  apply revise_run in H as (p & previous & prev_node & node & es & edge & l & e & (Hsup & Hv & Hst & _) & (Hget & Hact & Hfol)
    & Hpn & Hins & Hedge & Hrec & -> & row & Hfind & Hupd & ->).
  cbn [wd_artifacts wd_graph gd_nodes gd_edges wd_ledger begin_transaction] in *.
  destruct (inserted_facts w a node_id ids label c node es Hi) as (H1 & H2 & H3 & H4 & H5); [by destruct Hins|].
  destruct (locked_row _ _ _ _ _ _ _ Hi Hget Hfind) as (-> & Hrow & Hfp).
  set (new := with_lifecycle previous LifecycleStatus.SUPERSEDED (ec_recorded_at c)) in *.
  assert (Hn : frozen new = frozen previous) by done.
  assert (Hfr : update previous new a = a) by by apply (update_fresh w).
  rewrite replaced_rows in * by by intros x ->%list_elem_of_singleton.
  assert (Hp : predecessor a (map (update previous new) (wd_artifacts w) ++ [a]) = Some new).
  { unfold predecessor. rewrite Hsup. cbn. rewrite (find_grows _ _ [a] (update_updates w _ _ Hi Hrow Hn) _ _ _ _ Hfp).
    by rewrite update_row. }
  exists (update previous new), [node], (map stored_edge es ++ [stored_edge edge]).
  split; cbn [wd_artifacts wd_graph gd_nodes gd_edges wd_ledger]; try done.
  - by apply update_updates.
  - by rewrite app_assoc.
  - intros x [(y & <- & Hy%list_elem_of_In)%list_elem_of_In%in_map_iff|Hx%list_elem_of_singleton]%elem_of_app; [|by subst x].
    apply (update_valid w); try done. apply lifecycle_valid; [by apply Hi|by apply aware_context].
  - intros x ->%list_elem_of_singleton. exists node. split; [apply elem_of_app; right; by apply list_elem_of_singleton|done].
  - intros x Hx. destruct (decide (x = previous)) as [->|Hne].
    + rewrite update_row. split; [|done]. intros _. right. exists a. split; [by apply list_elem_of_singleton|done].
    + rewrite (update_other w) by done. split; [by left|]. intros [?|(b & ->%list_elem_of_singleton & Hb)]; [done|].
      rewrite Hp in Hb. exfalso. apply Hne. injection Hb as <-. by apply (same_key ar_id (wd_artifacts w)); [apply Hi| | |].
  - intros x ->%list_elem_of_singleton. by rewrite Hst.
  - intros b q ->%list_elem_of_singleton Hq. rewrite Hp in Hq. injection Hq as <-.
    split; [exists previous; by rewrite update_row|].
    apply edge_ends in Hedge as (E1 & E2 & E3). apply node_for_artifact_Some in Hpn as (N1 & N2 & N3 & N4).
    exists node, prev_node, (stored_edge edge). cbn [gd_nodes gd_edges]. rewrite !elem_of_app, !list_elem_of_singleton.
    split; [by right|]. split; [by left|]. split; [by right|]. split; [done|]. split; [by split|done].
  - eapply recorded_inv; [|exact Hrec]. destruct (wi_ledger w Hi) as [L1 L2 L3]. by split.
Qed.

Lemma withdraw_step w ws sid id reason warrants c w' r :
  world_inv w -> new_context c = Ok c ->
  withdraw write ws sid id reason warrants c (begin_transaction w) = (w', Ok r) -> deferred_triggers w w' = Ok tt ->
  exists f, step w w' f [] [] [].
Proof.
  intros Hi Hc H Hd. apply withdraw_run in H as (a & l & e & _ & (Hget & Hact) & Hrec & -> & row & Hfind & Hupd & ->).
  cbn [wd_artifacts wd_graph gd_nodes gd_edges wd_ledger begin_transaction] in *.
  destruct (locked_row w ws sid id a [] row Hi Hget) as (-> & Hrow & Hfp); [by rewrite app_nil_r|].
  set (new := with_lifecycle a LifecycleStatus.WITHDRAWN (ec_recorded_at c)) in *.
  assert (Hn : frozen new = frozen a) by done.
  rewrite <- (app_nil_r (wd_artifacts w)), replaced_rows in * by by intros x ?%not_elem_of_nil. rewrite ?app_nil_r in *.
  exists (update a new). split; cbn [wd_artifacts wd_graph gd_nodes gd_edges wd_ledger map]; rewrite ?app_nil_r; try done.
  - by apply update_updates.
  - apply Hi.
  - apply Hi.
  - intros x (y & <- & Hy%list_elem_of_In)%list_elem_of_In%in_map_iff.
    apply (update_valid w); try done. apply lifecycle_valid; [by apply Hi|by apply aware_context].
  - apply Hi.
  - by intros x ?%not_elem_of_nil.
  - intros x Hx. destruct (decide (x = a)) as [->|Hne].
    + rewrite update_row, Hact. split; [done|]. intros [?|(b & ?%not_elem_of_nil & _)]; done.
    + rewrite (update_other w) by done. split; [by left|]. intros [?|(b & ?%not_elem_of_nil & _)]; done.
  - by intros x ?%not_elem_of_nil.
  - by intros b q ?%not_elem_of_nil.
  - eapply recorded_inv; [|exact Hrec]. destruct (wi_ledger w Hi) as [L1 L2 L3]. by split.
Qed.

End invariant.
End CommitFacts.
