(* ===== verification/ArtifactLedger.v ===== *)
(** * The artifact events of the ledger

    What the ledger says about the artifact table: every stored row was
    introduced by one event that names it, a row is WITHDRAWN exactly when an
    event withdraws it, and there is no other event of the artifact types. *)

From S2P Require Import Prelude.
From S2P Require Import PyDecimal.
From S2P Require Import Json.
From S2P Require Import Clock.
From S2P Require Import Symbolic.
From S2P Require Import ConsensusPorts.
From S2P Require Import Ledger.
From S2P Require Import ReasoningGraph.
From S2P Require Import Artifacts.
From S2P Require Import ArtifactCommit.
From S2P Require Import CommitFacts.
Import Graph Artifact Commit CommitFacts.

Local Open Scope Z_scope.

Module ArtifactLedger.

(** ** Events about artifacts *)

Definition artifact_events : list string := ["ARTIFACT_COMMITTED"; "ARTIFACT_REVISED"; "ARTIFACT_WITHDRAWN"].

(** A payload names the row: its id, kind, logical id and version. *)
Definition identifies (payload : dict string json) (a : ArtifactEnvelope) : Prop :=
  dict_get "artifact_id" payload = Some (juuid (ar_id a)) /\ dict_get "kind" payload = Some (jenum (ar_kind a)) /\
  dict_get "logical_id" payload = Some (juuid (ar_logical_id a)) /\ dict_get "version" payload = Some (JInt (ar_version a)).

Definition event_about (event_type : string) (r : row) (a : ArtifactEnvelope) : Prop :=
  rw_event_type r = event_type /\ rw_workspace_id r = ar_workspace_id a /\ rw_session_id r = ar_session_id a /\
  identifies (rw_payload r) a.

Definition introduction (a : ArtifactEnvelope) : string :=
  if ar_version a =? 1 then "ARTIFACT_COMMITTED" else "ARTIFACT_REVISED".

(** A first version is committed; a later one revises the row it supersedes. *)
Definition introduces (r : row) (a : ArtifactEnvelope) : Prop :=
  event_about (introduction a) r a /\
  (forall p, ar_supersedes_id a = Some p -> dict_get "supersedes_id" (rw_payload r) = Some (juuid p)).

Definition withdraws (r : row) (a : ArtifactEnvelope) : Prop := event_about "ARTIFACT_WITHDRAWN" r a.

(** The artifact table and the ledger say the same. *)
Record ledger_agrees (w : world) : Prop := {
  ag_ids : forall a, a ∈ wd_artifacts w -> uuid_ok (ar_id a) = true;
  ag_introduced : forall a, a ∈ wd_artifacts w -> exists r, r ∈ lg_events (wd_ledger w) /\ introduces r a;
  ag_withdrawn : forall a, a ∈ wd_artifacts w ->
    ar_status a = LifecycleStatus.WITHDRAWN <-> exists r, r ∈ lg_events (wd_ledger w) /\ withdraws r a;
  ag_only : forall r, r ∈ lg_events (wd_ledger w) -> rw_event_type r ∈ artifact_events ->
    exists a, a ∈ wd_artifacts w /\ (introduces r a \/ withdraws r a);
  ag_once : forall r r' a, r ∈ lg_events (wd_ledger w) -> r' ∈ lg_events (wd_ledger w) -> a ∈ wd_artifacts w ->
    introduces r a /\ introduces r' a \/ withdraws r a /\ withdraws r' a -> r = r'
}.

(** ** The row an operation's event becomes *)

Lemma set_given_get key k m payload : k <> key -> dict_get k (set_given key m payload) = dict_get k payload.
Proof. intros Hk. unfold set_given. destruct (given key m); [|done]. rewrite dict_get_set. by case_decide. Qed.

(** Equal payloads, as Python compares them, have the same texts. *)
Lemma py_eqb_text l l' k s :
  py_eqb (JObj l) (JObj l') = true -> dict_get k l = Some (JStr s) -> dict_get k l' = Some (JStr s).
Proof.
  cbn [py_eqb]. intros [_ H]%andb_true_iff Hk%dict_get_elem. revert H Hk.
  induction l as [|[k' x] l IH]; [by intros _ ?%not_elem_of_nil|]. intros [Hx H]%andb_true_iff [Heq|Hin]%elem_of_cons; [|by apply IH].
  injection Heq as <- <-. destruct (dict_get k l') as [[| | | |s'| |]|]; try done. cbn in Hx. by apply String.eqb_eq in Hx as ->.
Qed.

Lemma event_row_reads r e :
  _event_from_row r = Ok e -> rw_event_type r = la_event_type (le_append e) /\ rw_payload r = la_payload (le_append e).
Proof.
  unfold _event_from_row. intros (actor & _ & H)%bind_Ok. apply new_event_Ok in H as (a & Ha & _ & ->).
  by apply new_append_Ok in Ha as (-> & _).
Qed.

Definition kept_key (k : string) : Prop := k <> "attribution" /\ k <> "evidence_disposition".

(** The event is a new row with the payload's members, or a stored one with its texts. *)
Lemma recorded_row w a c ty payload l e :
  ledger_inv (wd_ledger w) -> recorded (begin_transaction w) a c ty payload l e ->
  exists r, rw_event_type r = ty /\
    ((lg_events l = lg_events (wd_ledger w) ++ [r] /\ rw_workspace_id r = ar_workspace_id a /\ rw_session_id r = ar_session_id a /\
      forall k v, kept_key k -> dict_get k payload = Some v -> dict_get k (rw_payload r) = Some v) \/
     (r ∈ lg_events (wd_ledger w) /\
      forall k s, kept_key k -> dict_get k payload = Some (JStr s) -> dict_get k (rw_payload r) = Some (JStr s))).
Proof.
  intros Hl (ev & Hev & Ha).
  assert (Hi : ledger_inv (wd_ledger (begin_transaction w))) by (destruct Hl as [L1 L2 L3]; by split).
  pose proof (append_branches _ ev Hi (event_valid _ _ _ _ _ Hev)) as H. rewrite Ha in H.
  apply new_append_Ok in Hev as (Hev & _).
  assert (Hp : forall k v, kept_key k -> dict_get k payload = Some v -> dict_get k (la_payload ev) = Some v).
  { intros k v [K1 K2] Hk. rewrite Hev. cbn [la_payload with_recorded_at]. by rewrite !set_given_get. }
  destruct H as (_ & _ & Hsame & [[-> (r & Hr & He)]|(h & _ & _ & Hle & ->)]).
  - exists r. destruct (event_row_reads r e He) as [Ht Hpay]. destruct Hsame as [Hs|Hs].
    + rewrite Ht, Hpay, Hs. split; [by rewrite Hev|]. right. split; [done|]. intros k s K. by apply Hp.
    + unfold same_append in Hs. rewrite !andb_true_iff, String.eqb_eq in Hs. destruct Hs as [Hs Heq]. destruct_and! Hs.
      split; [rewrite Ht; by rewrite Hev in *|]. right. split; [done|]. intros k s K Hk. rewrite Hpay.
      eapply py_eqb_text; [exact Heq|by apply Hp].
  - exists (row_of_event e). cbn [row_of_event rw_event_type rw_workspace_id rw_session_id rw_payload]. rewrite Hle.
    split; [by rewrite Hev|]. left. split; [done|]. split; [by rewrite Hev|]. split; [by rewrite Hev|done].
Qed.

(** ** Steps that keep the agreement *)

Lemma event_about_frozen ty r a b : frozen a = frozen b -> event_about ty r a <-> event_about ty r b.
Proof. by intros ->%frozen_eq. Qed.
Lemma introduces_frozen r a b : frozen a = frozen b -> introduces r a <-> introduces r b.
Proof. by intros ->%frozen_eq. Qed.

Lemma introduction_type a : introduction a ∈ artifact_events /\ introduction a <> "ARTIFACT_WITHDRAWN".
Proof. unfold introduction, artifact_events. destruct (_ =? _); (split; [rewrite !elem_of_cons; tauto|discriminate]). Qed.

Lemma withdrawal_type : "ARTIFACT_WITHDRAWN" ∈ artifact_events.
Proof. unfold artifact_events. rewrite !elem_of_cons. tauto. Qed.

Lemma not_both r a b : introduces r a -> withdraws r b -> False.
Proof. intros [(Ht & _) _] (Ht' & _). destruct (introduction_type a) as [_ Hne]. apply Hne. by rewrite <- Ht. Qed.

Lemma named_same r a b :
  introduces r b \/ withdraws r b -> uuid_ok (ar_id a) = true -> uuid_ok (ar_id b) = true ->
  dict_get "artifact_id" (rw_payload r) = Some (juuid (ar_id a)) -> ar_id b = ar_id a.
Proof.
  intros Hr Ha Hb Hid. assert (H : identifies (rw_payload r) b) by (destruct Hr as [[(_ & _ & _ & ?) _]|(_ & _ & _ & ?)]; done).
  destruct H as (H & _). rewrite Hid in H. apply (inj Some), JStr_inj in H.
  symmetry. by apply uuid_str_inj.
Qed.

Lemma event_named r a : introduces r a \/ withdraws r a -> dict_get "artifact_id" (rw_payload r) = Some (juuid (ar_id a)).
Proof. by intros [[(_ & _ & _ & ? & _) _]|(_ & _ & _ & ? & _)]. Qed.

Lemma event_typed r a : introduces r a \/ withdraws r a -> rw_event_type r ∈ artifact_events.
Proof. intros [[(-> & _) _]|(-> & _)]; [apply introduction_type|apply withdrawal_type]. Qed.

(** No event of an agreeing ledger is about an artifact that is not stored. *)
Lemma unmentioned w r a :
  ledger_agrees w -> uuid_ok (ar_id a) = true -> ar_id a ∉ map ar_id (wd_artifacts w) ->
  r ∈ lg_events (wd_ledger w) -> rw_event_type r ∈ artifact_events ->
  dict_get "artifact_id" (rw_payload r) = Some (juuid (ar_id a)) -> False.
Proof.
  intros Hg Ha Hfresh Hr Ht Hid. destruct (ag_only w Hg r Hr Ht) as (x & Hx & Hrx). apply Hfresh.
  rewrite <- (named_same r a x Hrx) by first [done|by apply Hg]. by apply list_elem_of_fmap_2.
Qed.

Section agreement.
Context (w w' : world) (f : ArtifactEnvelope -> ArtifactEnvelope) (r : row) (l : list ArtifactEnvelope).
Hypotheses (Hg : ledger_agrees w) (Hf : updates f (wd_artifacts w))
  (Hrows : wd_artifacts w' = map f (wd_artifacts w) ++ l)
  (Hevents : lg_events (wd_ledger w') = lg_events (wd_ledger w) ++ [r]).

Lemma frozen_about ty e a : a ∈ wd_artifacts w -> event_about ty e (f a) <-> event_about ty e a.
Proof using Hf. intros Ha. by apply event_about_frozen, Hf. Qed.
Lemma frozen_introduces e a : a ∈ wd_artifacts w -> introduces e (f a) <-> introduces e a.
Proof using Hf. intros Ha. by apply introduces_frozen, Hf. Qed.

Lemma new_rows a : a ∈ wd_artifacts w' <-> (exists x, x ∈ wd_artifacts w /\ a = f x) \/ a ∈ l.
Proof using Hrows.
  rewrite Hrows, elem_of_app, list_elem_of_In, in_map_iff. split.
  - intros [(x & <- & Hx)|Ha]; [left; exists x; by rewrite list_elem_of_In|by right].
  - intros [(x & Hx & ->)|Ha]; [left; exists x; by rewrite <- list_elem_of_In|by right].
Qed.

Lemma new_events e : e ∈ lg_events (wd_ledger w') <-> e ∈ lg_events (wd_ledger w) \/ e = r.
Proof using Hevents. by rewrite Hevents, elem_of_app, list_elem_of_singleton. Qed.

(** The agreement after one more event, from what it says of the new event and
    the new rows. *)
Lemma agrees_after :
  (forall a, a ∈ l -> uuid_ok (ar_id a) = true /\ introduces r a /\ ar_status a <> LifecycleStatus.WITHDRAWN /\
     ar_id a ∉ map ar_id (wd_artifacts w)) ->
  (exists a, a ∈ wd_artifacts w' /\ (introduces r a \/ withdraws r a)) ->
  (forall x, x ∈ wd_artifacts w -> ~ introduces r x) ->
  (forall x, x ∈ wd_artifacts w -> ar_status (f x) = LifecycleStatus.WITHDRAWN <->
     ar_status x = LifecycleStatus.WITHDRAWN \/ withdraws r x) ->
  (forall x, x ∈ wd_artifacts w -> withdraws r x -> ar_status x <> LifecycleStatus.WITHDRAWN) ->
  ledger_agrees w'.
Proof using Hg Hf Hrows Hevents.
  intros Hl Hsome Hintro Hst Hlive.
  assert (Hout : forall s a, a ∈ l -> s ∈ lg_events (wd_ledger w) -> introduces s a \/ withdraws s a -> False).
  { intros s a Ha Hs Hsa. destruct (Hl a Ha) as (Hid & _ & _ & Hfresh).
    eapply (unmentioned w s a); eauto using event_typed, event_named. }
  split.
  - intros a [(x & Hx & ->)|Ha]%new_rows; [|by apply Hl]. rewrite (id_frozen _ _ (Hf x Hx)). by apply Hg.
  - intros a [(x & Hx & ->)|Ha]%new_rows; [|exists r; split; [apply new_events; by right|by apply Hl]].
    destruct (ag_introduced w Hg x Hx) as (s & Hs & Hsx). exists s. split; [apply new_events; by left|by apply frozen_introduces].
  - intros a [(x & Hx & ->)|Ha]%new_rows.
    + rewrite Hst, (ag_withdrawn w Hg x Hx) by done. split.
      * intros [(s & Hs & Hsx)|Hr]; [exists s|exists r]; (split; [apply new_events; tauto|by apply frozen_about]).
      * intros (s & Hs & Hsx). apply (frozen_about _ s x Hx) in Hsx. apply new_events in Hs as [Hs| ->]; [left; by exists s|by right].
    + destruct (Hl a Ha) as (_ & Hra & Hna & _). split; [done|]. intros (s & [Hs| ->]%new_events & Hsa); exfalso.
      * apply (Hout s a Ha Hs). by right.
      * by apply (not_both r a a).
  - intros s [Hs| ->]%new_events Ht; [|done]. destruct (ag_only w Hg s Hs Ht) as (x & Hx & Hsx).
    exists (f x). split; [apply new_rows; left; by exists x|]. unfold withdraws. by rewrite frozen_introduces, frozen_about.
  - intros s s' a Hs Hs' [(x & Hx & ->)|Ha]%new_rows Hb; apply new_events in Hs as [Hs| ->], Hs' as [Hs'| ->]; try done.
    + unfold withdraws in Hb. rewrite !frozen_introduces, !frozen_about in Hb by done. by apply (ag_once w Hg s s' x).
    + unfold withdraws in Hb. rewrite !frozen_introduces, !frozen_about in Hb by done.
      destruct Hb as [[_ Hr]|[Hs1 Hr]]; exfalso; [by apply (Hintro x)|]. apply (Hlive x Hx Hr), (ag_withdrawn w Hg x Hx). by exists s.
    + unfold withdraws in Hb. rewrite !frozen_introduces, !frozen_about in Hb by done.
      destruct Hb as [[Hr _]|[Hr Hs1]]; exfalso; [by apply (Hintro x)|]. apply (Hlive x Hx Hr), (ag_withdrawn w Hg x Hx). by exists s'.
    + exfalso. apply (Hout s a Ha Hs). tauto.
    + exfalso. apply (Hout s a Ha Hs). tauto.
    + exfalso. apply (Hout s' a Ha Hs'). tauto.
Qed.

End agreement.

(** A row [a] is introduced. *)
Lemma agrees_introduced w w' f a c payload e :
  ledger_agrees w -> updates f (wd_artifacts w) -> ledger_inv (wd_ledger w) ->
  (forall x, x ∈ wd_artifacts w -> ar_status (f x) = LifecycleStatus.WITHDRAWN <-> ar_status x = LifecycleStatus.WITHDRAWN) ->
  wd_artifacts w' = map f (wd_artifacts w) ++ [a] ->
  uuid_ok (ar_id a) = true -> ar_id a ∉ map ar_id (wd_artifacts w) -> ar_status a <> LifecycleStatus.WITHDRAWN ->
  recorded (begin_transaction w) a c (introduction a) payload (wd_ledger w') e -> identifies payload a ->
  (forall p, ar_supersedes_id a = Some p -> dict_get "supersedes_id" payload = Some (juuid p)) ->
  ledger_agrees w'.
Proof.
  intros Hg Hf Hl Hst Hrows Hida Hfresh Hlive Hrec (I1 & I2 & I3 & I4) Hsup.
  destruct (recorded_row w a c _ payload _ e Hl Hrec) as (r & Hty & [(Hev & Hws & Hsid & Hp)|(Hr & Hp)]).
  2: { exfalso. eapply (unmentioned w r a); eauto; [rewrite Hty; apply introduction_type|by apply Hp]. }
  assert (Hnew : introduces r a).
  { split; [|intros p E; by apply Hp, Hsup]. do 3 (split; [done|]). repeat split; by apply Hp. }
  assert (Hnw : forall x, ~ withdraws r x) by (intros x Hx; by apply (not_both r a x)).
  apply (agrees_after w w' f r [a] Hg Hf Hrows Hev).
  - by intros x ->%list_elem_of_singleton.
  - exists a. split; [rewrite Hrows; apply elem_of_app; right; by apply list_elem_of_singleton|by left].
  - intros x Hx Hrx. apply Hfresh. rewrite <- (named_same r a x) by first [by left|done|by apply Hg|apply event_named; by left].
    by apply list_elem_of_fmap_2.
  - intros x Hx. rewrite Hst by done. split; [by left|]. by intros [?|?%Hnw].
  - by intros x _ ?%Hnw.
Qed.

(** The active row [a] is withdrawn. *)
Lemma agrees_withdrawn w w' f a c payload e :
  ledger_agrees w -> NoDup (map ar_id (wd_artifacts w)) -> updates f (wd_artifacts w) -> ledger_inv (wd_ledger w) ->
  a ∈ wd_artifacts w -> ar_status a = LifecycleStatus.ACTIVE -> ar_status (f a) = LifecycleStatus.WITHDRAWN ->
  (forall x, x ∈ wd_artifacts w -> x <> a -> f x = x) -> wd_artifacts w' = map f (wd_artifacts w) ->
  recorded (begin_transaction w) (f a) c "ARTIFACT_WITHDRAWN" payload (wd_ledger w') e -> identifies payload a ->
  ledger_agrees w'.
Proof.
  intros Hg Hids Hf Hl Ha Hact Hwd Hother Hrows Hrec (I1 & I2 & I3 & I4).
  assert (Hsame : forall r x, x ∈ wd_artifacts w -> introduces r x \/ withdraws r x ->
    dict_get "artifact_id" (rw_payload r) = Some (juuid (ar_id a)) -> x = a).
  { intros r x Hx Hrx Hid. apply (same_key ar_id (wd_artifacts w)); [done|done|done|].
    by apply (named_same r a x Hrx); [apply Hg|apply Hg|]. }
  destruct (recorded_row w (f a) c _ payload _ e Hl Hrec) as (r & Hty & [(Hev & Hws & Hsid & Hp)|(Hr & Hp)]).
  2: { exfalso. assert (Hid : dict_get "artifact_id" (rw_payload r) = Some (juuid (ar_id a))) by by apply Hp.
       destruct (ag_only w Hg r Hr) as (b & Hb & Hrb); [rewrite Hty; apply withdrawal_type|].
       pose proof (Hsame r b Hb Hrb Hid) as ->. destruct Hrb as [[(Ht & _) _]|Hrb].
       - destruct (introduction_type a) as [_ Hne]. apply Hne. by rewrite <- Ht.
       - enough (ar_status a = LifecycleStatus.WITHDRAWN) by congruence. apply (ag_withdrawn w Hg a Ha). by exists r. }
  assert (Hid : dict_get "artifact_id" (rw_payload r) = Some (juuid (ar_id a))) by by apply Hp.
  assert (Hra : withdraws r a).
  { pose proof (frozen_eq _ _ (Hf a Ha)) as E. split; [done|]. split; [by rewrite Hws, E|]. split; [by rewrite Hsid, E|].
    repeat split; by apply Hp. }
  rewrite <- (app_nil_r (map f (wd_artifacts w))) in Hrows. apply (agrees_after w w' f r [] Hg Hf Hrows Hev).
  - by intros x ?%not_elem_of_nil.
  - exists (f a). split; [apply (new_rows w w' f [] Hrows); left; by exists a|]. right. by apply (frozen_about w f Hf).
  - intros x Hx Hrx. by apply (not_both r x a).
  - intros x Hx. destruct (decide (x = a)) as [->|Hne]; [by split; [right|]|]. rewrite Hother by done.
    split; [by left|]. intros [?|Hrx]; [done|]. by destruct Hne; apply (Hsame r x Hx); [right|].
  - intros x Hx Hrx. rewrite (Hsame r x Hx (or_intror Hrx) Hid). by rewrite Hact.
Qed.

(** Other components' events say nothing about artifacts. *)
Lemma agrees_elsewhere w l e ev :
  ledger_agrees w -> ledger_inv (wd_ledger w) -> new_append ev = Ok ev -> la_event_type ev ∉ artifact_events ->
  append ev (wd_ledger w) = (l, Ok e) -> ledger_agrees (mkWorld (wd_sessions w) (wd_artifacts w) (wd_graph w) l).
Proof.
  intros Hg Hl Hev Hty Ha. pose proof (append_branches _ ev Hl Hev) as H. rewrite Ha in H.
  destruct H as (_ & _ & _ & [[-> _]|(h & _ & _ & Hle & ->)]); [by destruct Hg; split|].
  set (l' := store_event _ e _).
  assert (Hin : forall r, rw_event_type r ∈ artifact_events -> r ∈ lg_events l' <-> r ∈ lg_events (wd_ledger w)).
  { intros r Hr. unfold l'. cbn [store_event lg_events]. rewrite elem_of_app, list_elem_of_singleton. split; [|by left].
    intros [?| ->]; [done|]. exfalso. apply Hty. cbn in Hr. by rewrite Hle in Hr. }
  destruct Hg as [G1 G2 G3 G4 G5]. split; cbn [wd_artifacts wd_ledger]; [done| | | |].
  - intros a Ha'. destruct (G2 a Ha') as (r & Hr & Hra). exists r. split; [|done]. apply Hin; [apply (event_typed r a); by left|done].
  - intros a Ha'. rewrite (G3 a Ha'). split; intros (r & Hr & Hra); exists r; (split; [|done]);
      apply Hin; try done; apply (event_typed r a); by right.
  - intros r Hr Ht. apply G4; [by apply Hin|done].
  - intros r r' a Hr Hr' Ha' Hb. apply (G5 r r' a); try done; apply Hin; try done; apply (event_typed _ a); tauto.
Qed.

End ArtifactLedger.
