(* ===== verification/ArtifactHistory.v ===== *)
(** * The history of the committed artifacts

    The operations of [ArtifactCommitService] as transactions: what a
    transaction changes, the invariant it keeps, and the linear, gapless
    history of every logical artifact. *)

From S2P Require Import Prelude.
From S2P Require Import PyDecimal.
From S2P Require Import Json.
From S2P Require Import Symbolic.
From S2P Require Import ConsensusPorts.
From S2P Require Import Ledger.
From S2P Require Import ReasoningGraph.
From S2P Require Import Artifacts.
From S2P Require Import ArtifactFacts.
From S2P Require Import ArtifactSchema.
From S2P Require Import ArtifactCommit.
From S2P Require Import CommitFacts.
From S2P Require Import Clock.
From S2P Require Import ArtifactLedger.
Import Graph Artifact ArtifactFacts Schema Commit CommitFacts ArtifactLedger.

Local Open Scope Z_scope.

Module History.

(** ** Calls of the service *)

Inductive operation : Type :=
| Commits (a : ArtifactEnvelope) (node_id : uuid) (relationship_edge_ids : list uuid) (label : string)
| Revises (a : ArtifactEnvelope) (node_id edge_id : uuid) (relationship_edge_ids : list uuid) (label reason : string)
| Withdraws (workspace_id session_id artifact_id : uuid) (reason : string) (warrant_artifact_ids : list uuid).

Section history.
Variable write : datetime -> string.

Definition run_operation (op : operation) (c : ArtifactEventContext) : ST world (ArtifactEnvelope * LedgerEvent) :=
  match op with
  | Commits a node_id ids label => commit write a node_id ids label c
  | Revises a node_id edge_id ids label reason => revise write a node_id edge_id ids label reason c
  | Withdraws ws sid id reason warrants => withdraw write ws sid id reason warrants c
  end.

(** The arguments are values their constructors answer: artifact and context. *)
Definition given_artifact (op : operation) : option ArtifactEnvelope :=
  match op with Commits a _ _ _ | Revises a _ _ _ _ _ => Some a | Withdraws _ _ _ _ _ => None end.

Definition valid_call (op : operation) (c : ArtifactEventContext) : Prop :=
  new_context c = Ok c /\ (forall a, given_artifact op = Some a -> validate_artifact write a = Ok a).

Definition event_type_of (op : operation) : string :=
  match op with
  | Commits _ _ _ _ => "ARTIFACT_COMMITTED"
  | Revises _ _ _ _ _ _ => "ARTIFACT_REVISED"
  | Withdraws _ _ _ _ _ => "ARTIFACT_WITHDRAWN"
  end.

Definition transact (op : operation) (c : ArtifactEventContext) (w : world)
    : world * res (ArtifactEnvelope * LedgerEvent) * list LedgerEvent :=
  reasoning_transaction (run_operation op c) w.

Lemma transaction_Ok {A} (m : ST world A) w w' a published :
  reasoning_transaction m w = (w', Ok a, published) ->
  m (begin_transaction w) = (w', Ok a) /\ deferred_triggers w w' = Ok tt /\ published = lg_appended (wd_ledger w').
Proof.
  unfold reasoning_transaction. destruct (m (begin_transaction w)) as [w1 [b|x]].
  - destruct (deferred_triggers w w1) as [[]|x] eqn:E; [by intros [= <- <- <-]|].
    by destruct (exn_cls x); intros [=].
  - by destruct (exn_cls x); intros [=].
Qed.

Lemma transaction_Raise {A} (m : ST world A) w w' x published :
  reasoning_transaction m w = (w', Raise x, published) ->
  w' = w /\ published = [] /\ exn_cls x <> IntegrityErrorC.
Proof.
  unfold reasoning_transaction. destruct (m (begin_transaction w)) as [w1 [b|y]].
  - destruct (deferred_triggers w w1) as [[]|y]; [by intros [=]|].
    destruct (exn_cls y) eqn:E; intros [= <- <- <-]; rewrite ?E; done.
  - destruct (exn_cls y) eqn:E; intros [= <- <- <-]; rewrite ?E; done.
Qed.

Lemma operation_step op c w w' r :
  world_inv write w -> valid_call op c ->
  run_operation op c (begin_transaction w) = (w', Ok r) -> deferred_triggers w w' = Ok tt ->
  exists f l nodes edges, step write w w' f l nodes edges.
Proof.
  intros Hi [Hc Ha] H Hd. destruct op as [a ? ? ?|a ? ? ? ? ?|]; cbn [run_operation given_artifact] in *.
  - destruct (commit_step write _ _ _ _ _ _ _ _ Hi (Ha a eq_refl) H Hd) as (n & e & Hs). eauto.
  - destruct (revise_step write _ _ _ _ _ _ _ _ _ _ Hi (Ha a eq_refl) Hc H Hd) as (f & n & e & Hs). eauto.
  - destruct (withdraw_step write _ _ _ _ _ _ _ _ _ Hi Hc H Hd) as (f & Hs). eauto.
Qed.

(** ** The invariant *)

Lemma transact_keeps op c w w' r published :
  world_inv write w -> valid_call op c -> transact op c w = (w', r, published) -> world_inv write w'.
Proof.
  intros Hi Hc. destruct r as [r|x]; unfold transact; intros H.
  - apply transaction_Ok in H as (H & Hd & _).
    destruct (operation_step op c w w' r Hi Hc H Hd) as (f & l & nodes & edges & Hs). by eapply step_keeps.
  - by apply transaction_Raise in H as [-> _].
Qed.

(** The stores of sessions in which nothing was committed. *)
Definition blank_world (w : world) : Prop :=
  wd_artifacts w = [] /\ wd_graph w = mkGraph [] [] /\ ledger_inv (wd_ledger w).

(** States that calls reach; in between, other components append their events. *)
Inductive reached (start : world -> Prop) (calls : operation -> ArtifactEventContext -> Prop) : world -> Prop :=
| reach_start w : start w -> reached start calls w
| reach_call w op c : reached start calls w -> calls op c -> reached start calls (fst (fst (transact op c w)))
| reach_event w event : reached start calls w -> new_append event = Ok event -> la_event_type event ∉ artifact_events ->
    reached start calls (mkWorld (wd_sessions w) (wd_artifacts w) (wd_graph w) (fst (append event (wd_ledger w)))).

Definition reachable : world -> Prop := reached blank_world valid_call.

Lemma blank_inv w : blank_world w -> world_inv write w.
Proof.
  intros (Ha & Hg & Hl). split; rewrite ?Ha, ?Hg; try (by constructor); try (by intros ? ?%not_elem_of_nil); [|done].
  intros b p [?%not_elem_of_nil _]. done.
Qed.

Lemma logged_inv w l : world_inv write w -> ledger_inv l -> world_inv write (mkWorld (wd_sessions w) (wd_artifacts w) (wd_graph w) l).
Proof. intros [] Hl. by split. Qed.

Lemma reached_world_inv start calls w :
  (forall w, start w -> blank_world w) -> (forall op c, calls op c -> valid_call op c) ->
  reached start calls w -> world_inv write w.
Proof.
  intros Hs Hc. induction 1 as [w Hb|w op c Hr IH Ho|w ev Hr IH Hev Hty]; [by apply blank_inv, Hs| |].
  - destruct (transact op c w) as [[w' r] published] eqn:E. apply (transact_keeps op c w w' r published IH); [by apply Hc|done].
  - apply logged_inv; [done|]. apply append_inv; [apply IH|done].
Qed.

Lemma reachable_world_inv w : reachable w -> world_inv write w.
Proof. by apply reached_world_inv. Qed.

(** ** The record in the ledger *)

(** A blank world whose ledger mentions no artifact, and calls whose artifact's
    id is a UUID. *)
Definition unmentioned_world (w : world) : Prop :=
  blank_world w /\ forall r, r ∈ lg_events (wd_ledger w) -> rw_event_type r ∉ artifact_events.

Definition typed_call (op : operation) (c : ArtifactEventContext) : Prop :=
  valid_call op c /\ forall a, given_artifact op = Some a -> uuid_ok (ar_id a) = true.

Lemma unmentioned_agrees w : unmentioned_world w -> ledger_agrees w.
Proof.
  intros [(Ha & _) Hm]. split; rewrite ?Ha; try (by intros ? ?%not_elem_of_nil); try (by intros ? ? ? _ _ ?%not_elem_of_nil).
  intros r Hr Ht. by destruct (Hm r Hr).
Qed.

Lemma commit_agrees a node_id ids label c w w' r :
  world_inv write w -> ledger_agrees w -> uuid_ok (ar_id a) = true ->
  commit write a node_id ids label c (begin_transaction w) = (w', Ok r) -> ledger_agrees w'.
Proof.
  intros Hi Hg Ha H. apply commit_run in H as (n & es & l & e & (Hv & Hsup & Hst) & Hins & Hrec & _ & ->).
  destruct (row_fresh _ _ _ _ (is_row_accepted _ _ _ _ _ _ _ _ _ Hins)) as (Hfr & _).
  eapply (agrees_introduced w _ (fun x => x) a c); try exact Hg; try done; [apply Hi|cbn; by rewrite map_id|by rewrite Hst| | |].
  - unfold introduction. rewrite Hv. exact Hrec.
  - done.
  - by rewrite Hsup.
Qed.

Lemma revise_agrees a node_id edge_id ids label reason c w w' r :
  world_inv write w -> ledger_agrees w -> uuid_ok (ar_id a) = true ->
  revise write a node_id edge_id ids label reason c (begin_transaction w) = (w', Ok r) -> ledger_agrees w'.
Proof.
  intros Hi Hg Ha H. apply revise_run in H as (p & previous & m & n & es & edge & l & e & (Hsup & Hv & Hst & _)
    & (Hget & Hact & _) & _ & Hins & _ & Hrec & _ & row & Hfind & _ & ->).
  cbn [wd_artifacts wd_graph gd_nodes gd_edges wd_ledger begin_transaction] in *.
  destruct (row_fresh _ _ _ _ (is_row_accepted _ _ _ _ _ _ _ _ _ Hins)) as (Hfr & _).
  destruct (locked_row write w _ _ _ _ _ _ Hi Hget Hfind) as (-> & Hrow & Hfp).
  apply find_artifact_Some in Hfp as (_ & _ & _ & Hid). rewrite replaced_rows by by intros x ->%list_elem_of_singleton; apply (update_fresh w).
  eapply (agrees_introduced w _ (update previous _) a c); try exact Hg; try done.
  - by apply (update_updates write w).
  - apply Hi.
  - intros x Hx. destruct (decide (x = previous)) as [->|Hne]; [by rewrite update_row, Hact|]. by rewrite (update_other write w).
  - by rewrite Hst.
  - unfold introduction. rewrite (proj2 (Z.eqb_neq _ _)) by lia. exact Hrec.
  - done.
  - intros q Hq. cbn. by rewrite Hid; rewrite Hsup in Hq; injection Hq as ->.
Qed.

Lemma withdraw_agrees ws sid id reason warrants c w w' r :
  world_inv write w -> ledger_agrees w ->
  withdraw write ws sid id reason warrants c (begin_transaction w) = (w', Ok r) -> ledger_agrees w'.
Proof.
  intros Hi Hg H. apply withdraw_run in H as (a & l & e & _ & (Hget & Hact) & Hrec & _ & row & Hfind & _ & ->).
  cbn [wd_artifacts wd_graph gd_nodes gd_edges wd_ledger begin_transaction] in *.
  destruct (locked_row write w ws sid id a [] row Hi Hget) as (-> & Hrow & _); [by rewrite app_nil_r|].
  eapply (agrees_withdrawn w _ (update a _) a c); try exact Hg; try done; [apply Hi| |apply Hi| | | |].
  - by apply (update_updates write w).
  - by rewrite update_row.
  - intros x Hx Hne. by apply (update_other write w).
  - rewrite update_row. exact Hrec.
  - done.
Qed.

Lemma operation_agrees op c w w' r :
  world_inv write w -> ledger_agrees w -> typed_call op c ->
  run_operation op c (begin_transaction w) = (w', Ok r) -> ledger_agrees w'.
Proof.
  intros Hi Hg [_ Ha] H. destruct op; cbn [run_operation given_artifact] in *;
    [eapply commit_agrees|eapply revise_agrees|eapply withdraw_agrees]; eauto.
Qed.

Lemma reached_agrees w : reached unmentioned_world typed_call w -> world_inv write w /\ ledger_agrees w.
Proof.
  assert (Hw : forall w, reached unmentioned_world typed_call w -> world_inv write w).
  { intros v. apply reached_world_inv; [by intros ? []|by intros ? ? []]. }
  intros Hr. split; [by apply Hw|]. induction Hr as [w Hb|w op c Hr IH Hc|w ev Hr IH Hev Hty].
  - by apply unmentioned_agrees.
  - destruct (transact op c w) as [[w' [r|x]] published] eqn:E; cbn [fst]; unfold transact in E.
    + apply transaction_Ok in E as (H & _). eapply operation_agrees; eauto.
    + by apply transaction_Raise in E as [-> _].
  - destruct (append ev (wd_ledger w)) as [l [e|x]] eqn:E; cbn [fst].
    + eapply agrees_elsewhere; eauto. apply (wi_ledger write), Hw, Hr.
    + pose proof (append_branches _ ev (wi_ledger write w (Hw w Hr)) Hev) as H. rewrite E in H.
      destruct H as [-> _]. by destruct w.
Qed.

(** C5. In every state that any sequence of commits, revisions and withdrawals
    reaches, successful or failed, with other components' events in between, ids
    and (logical id, version) are unique in the artifact table, every row passes
    the domain's validation, every revision follows the previous version of its
    kind and logical artifact, every referenced artifact exists, a row is
    SUPERSEDED exactly when a stored revision follows it, every artifact has its
    graph node and every revision its SUPERSEDES edge, the edges join nodes of
    permitted kinds, and the ledger is a verified chain that records the table:
    one event introduces each row, a commit for a first version and a revision
    that names the superseded row for a later one, a row is WITHDRAWN exactly
    when an event withdraws it, and there is no other artifact event. *)
Theorem artifact_record_consistent w (Hr : reached unmentioned_world typed_call w) : world_inv write w /\ ledger_agrees w.
Proof. by apply reached_agrees. Qed.

(** ** The history of a logical artifact *)

Definition same_logical (a b : ArtifactEnvelope) : Prop :=
  ar_workspace_id a = ar_workspace_id b /\ ar_session_id a = ar_session_id b /\ ar_logical_id a = ar_logical_id b.

Lemma same_logical_sym a b : same_logical a b -> same_logical b a.
Proof. unfold same_logical. by intros (-> & -> & ->). Qed.
Lemma same_logical_trans a b c : same_logical a b -> same_logical b c -> same_logical a c.
Proof. unfold same_logical. by intros (-> & -> & ->). Qed.

Section rows.
Context (w : world).
Hypothesis Hi : world_inv write w.
Local Notation rows := (wd_artifacts w).

Lemma same_version a b : a ∈ rows -> b ∈ rows -> same_logical a b -> ar_version a = ar_version b -> a = b.
Proof using Hi.
  intros Ha Hb (E1 & E2 & E3) Hv. apply (same_key revision_key rows); [apply Hi|done|done|]. unfold revision_key. congruence.
Qed.

Lemma revises_shape b p :
  revises rows b p -> p ∈ rows /\ same_logical p b /\ ar_kind p = ar_kind b /\ ar_version p = ar_version b - 1.
Proof using Hi.
  intros [Hb Hp]. pose proof (wi_chain write w Hi b Hb) as Hc. unfold enforce_artifact_revision_chain in Hc.
  destruct (Z.eqb_spec (ar_version b) 1) as [Hv|Hv].
  - apply (revision_shape write b (wi_valid write w Hi b Hb)) in Hv. unfold predecessor in Hp. by rewrite Hv in Hp.
  - apply guard_not_Ok in Hc. rewrite Hp in Hc. apply orb_false_iff in Hc as [[H1 H2]%orb_false_iff H3].
    apply negb_false_iff, bool_decide_eq_true in H1, H2. apply negb_false_iff, Z.eqb_eq in H3.
    unfold predecessor in Hp. destruct (ar_supersedes_id b) as [i|]; [|done].
    apply find_artifact_Some in Hp as (Hin & E1 & E2 & _). by repeat split.
Qed.

Lemma revision_exists b : b ∈ rows -> 1 < ar_version b -> exists p, revises rows b p.
Proof using Hi.
  intros Hb Hv. pose proof (wi_chain write w Hi b Hb) as Hc. unfold enforce_artifact_revision_chain in Hc.
  rewrite (proj2 (Z.eqb_neq _ _)) in Hc by lia. apply guard_not_Ok in Hc.
  destruct (predecessor b rows) as [p|] eqn:E; [|done]. by exists p.
Qed.

Lemma version_positive a : a ∈ rows -> 1 <= ar_version a.
Proof using Hi.
  intros Ha. pose proof (wi_valid write w Hi a Ha) as Hv.
  destruct (proj1 (invariants_iff write true a) (vp_invariants _ _ _ (new_artifact_valid write true a a Hv))) as [Hr _].
  pose proof (ru_revision _ Hr) as H. unfold _valid_revision in H. destruct (ar_supersedes_id a); cbn in H.
  - rewrite andb_false_r, andb_true_r in H. cbn in H. apply Z.ltb_lt in H. lia.
  - rewrite andb_false_r, andb_true_r, orb_false_r in H. apply Z.eqb_eq in H. lia.
Qed.

(** Going back from a row, one version at a time. *)
Lemma earlier_versions n a :
  a ∈ rows -> forall v, 1 <= v -> v = ar_version a - Z.of_nat n ->
  exists b, b ∈ rows /\ same_logical b a /\ ar_kind b = ar_kind a /\ ar_version b = v.
Proof using Hi.
  induction n as [|n IH]; intros Ha v Hv Hn; [exists a; repeat split; [done|lia]|].
  destruct (IH Ha (v + 1)) as (b & Hb & Hs & Hk & Hvb); [lia|lia|].
  destruct (revision_exists b Hb) as (p & Hr); [lia|]. destruct (revises_shape b p Hr) as (Hp & Hs' & Hk' & Hv').
  exists p. split; [done|]. split; [by eapply same_logical_trans|]. split; [congruence|lia].
Qed.

Lemma same_kind a b : a ∈ rows -> b ∈ rows -> same_logical a b -> ar_kind a = ar_kind b.
Proof using Hi.
  intros Ha Hb Hs. pose proof (version_positive a Ha). pose proof (version_positive b Hb).
  destruct (earlier_versions (Z.to_nat (ar_version a - 1)) a Ha 1) as (x & Hx & Sx & Kx & Vx); [lia|lia|].
  destruct (earlier_versions (Z.to_nat (ar_version b - 1)) b Hb 1) as (y & Hy & Sy & Ky & Vy); [lia|lia|].
  assert (x = y) as <-; [|congruence]. apply same_version; try done; [|lia].
  eapply same_logical_trans; [exact Sx|]. eapply same_logical_trans; [exact Hs|]. by apply same_logical_sym.
Qed.

Lemma superseded_iff_later a :
  a ∈ rows -> ar_status a = LifecycleStatus.SUPERSEDED <-> exists b, b ∈ rows /\ same_logical a b /\ ar_version a < ar_version b.
Proof using Hi.
  intros Ha. rewrite (wi_heads write w Hi a Ha). split.
  - intros (b & Hr). exists b. destruct (revises_shape b a Hr) as (_ & Hs & _ & Hv). split; [apply Hr|]. split; [done|lia].
  - intros (c & Hc & Hs & Hv). pose proof (version_positive a Ha).
    destruct (earlier_versions (Z.to_nat (ar_version c - (ar_version a + 1))) c Hc (ar_version a + 1)) as (b & Hb & Sb & _ & Vb); [lia|lia|].
    destruct (revision_exists b Hb) as (p & Hr); [lia|]. exists b. destruct (revises_shape b p Hr) as (Hp & Hs' & _ & Hv').
    assert (p = a) as <-; [|done]. apply same_version; try done; [|lia].
    eapply same_logical_trans; [exact Hs'|]. eapply same_logical_trans; [exact Sb|]. by apply same_logical_sym.
Qed.

End rows.

(** C6. The rows of one logical artifact are a linear history: the stored
    versions are exactly 1 to the latest, each once and all of one kind, and a
    row is SUPERSEDED exactly when a later version is stored, so at most one row
    is the current one. *)
Theorem artifact_history_is_linear w a (Hr : reachable w) (Ha : a ∈ wd_artifacts w) :
  (forall v, 1 <= v <= ar_version a -> exists b, b ∈ wd_artifacts w /\ same_logical b a /\ ar_version b = v) /\
  (forall b, b ∈ wd_artifacts w -> same_logical b a ->
     ar_kind b = ar_kind a /\ 1 <= ar_version b /\ (ar_version b = ar_version a -> b = a) /\
     (ar_status b <> LifecycleStatus.SUPERSEDED -> ar_status a <> LifecycleStatus.SUPERSEDED -> b = a)) /\
  (ar_status a = LifecycleStatus.SUPERSEDED <->
   exists b, b ∈ wd_artifacts w /\ same_logical a b /\ ar_version a < ar_version b).
Proof.
  assert (Hi : world_inv write w) by by apply reachable_world_inv.
  split; [|split; [|by apply superseded_iff_later]].
  - intros v Hv. destruct (earlier_versions w Hi (Z.to_nat (ar_version a - v)) a Ha v) as (b & Hb & Hs & _ & Hvb); [lia|lia|eauto].
  - intros b Hb Hs. split; [by apply (same_kind w)|]. split; [by apply (version_positive w)|].
    split; [by apply (same_version w)|]. rewrite (superseded_iff_later w Hi a Ha), (superseded_iff_later w Hi b Hb).
    intros H1 H2. apply (same_version w); try done. destruct (Z.lt_trichotomy (ar_version b) (ar_version a)) as [Hl|[?|Hl]]; [|done|].
    + exfalso. apply H1. by exists a.
    + exfalso. apply H2. exists b. by apply same_logical_sym in Hs.
Qed.

(** ** What a transaction changes *)

(** The edges of a new row's parent relationships, in their order. *)
Definition parent_edges (g : graph) (a : ArtifactEnvelope) (n : GraphNode) (es : list GraphEdge) : Prop :=
  Forall2 (fun r e => ge_edge_type e = pr_edge_type r /\ pr_edge_type r <> Graph.SUPERSEDES /\ ge_from_node e = gn_id n /\
    exists m, node_for_artifact (ar_workspace_id a) (ar_session_id a) (pr_target_artifact_id r) g = Some m /\
              ge_to_node e = gn_id m) (ar_parent_relationships a) es.

(** A new row [a] with the node [node_id], its parents' edges and [more] edges. *)
Definition projected (w w' : world) (a : ArtifactEnvelope) (node_id : uuid) (more : list GraphEdge) : Prop :=
  exists n es, gn_id n = node_id /\ projects n a /\ gn_kind n = ar_kind a /\ parent_edges (wd_graph w) a n es /\
    wd_graph w' = mkGraph (gd_nodes (wd_graph w) ++ [n]) (gd_edges (wd_graph w) ++ es ++ more).

Definition effect (op : operation) (c : ArtifactEventContext) (w w' : world) (answer : ArtifactEnvelope) : Prop :=
  match op with
  | Commits a node_id _ _ =>
      answer = a /\ wd_artifacts w' = wd_artifacts w ++ [a] /\ projected w w' a node_id []
  | Revises a node_id edge_id _ _ _ =>
      answer = a /\ exists p n e, p ∈ wd_artifacts w /\ ar_supersedes_id a = Some (ar_id p) /\
        ar_status p = LifecycleStatus.ACTIVE /\ same_logical p a /\ ar_version a = ar_version p + 1 /\
        wd_artifacts w' = replace_row p (with_lifecycle p LifecycleStatus.SUPERSEDED (ec_recorded_at c)) (wd_artifacts w) ++ [a] /\
        n ∈ gd_nodes (wd_graph w) /\ projects n p /\
        ge_id e = edge_id /\ ge_edge_type e = Graph.SUPERSEDES /\ ge_from_node e = node_id /\ ge_to_node e = gn_id n /\
        projected w w' a node_id [e]
  | Withdraws ws sid id _ _ =>
      exists p, p ∈ wd_artifacts w /\ is_row ws sid id p = true /\ ar_status p = LifecycleStatus.ACTIVE /\
        answer = with_lifecycle p LifecycleStatus.WITHDRAWN (ec_recorded_at c) /\
        wd_artifacts w' = replace_row p answer (wd_artifacts w) /\ wd_graph w' = wd_graph w
  end.

(** The event of the call: the one appended and published, or the stored one of
    the same id and values. *)
Definition logged (op : operation) (c : ArtifactEventContext) (w w' : world) (a : ArtifactEnvelope) (e : LedgerEvent)
    (published : list LedgerEvent) : Prop :=
  la_id (le_append e) = ec_event_id c /\ la_event_type (le_append e) = event_type_of op /\
  la_workspace_id (le_append e) = ar_workspace_id a /\ la_session_id (le_append e) = ar_session_id a /\
  lg_events (wd_ledger w') = lg_events (wd_ledger w) ++ map row_of_event published /\
  (published = [e] \/ published = [] /\ exists r, r ∈ lg_events (wd_ledger w) /\ _event_from_row r = Ok e).

Lemma relationship_targets_Ok a ids g targets :
  _relationship_targets a ids g = Ok targets ->
  Forall2 (fun r t => pr_edge_type r <> Graph.SUPERSEDES /\
    node_for_artifact (ar_workspace_id a) (ar_session_id a) (pr_target_artifact_id r) g = Some t.2)
    (ar_parent_relationships a) targets.
Proof.
  unfold _relationship_targets. intros ([] & Hl & H)%bind_Ok.
  unfold refuse_if in Hl. apply guard_not_Ok, negb_false_iff, Nat.eqb_eq in Hl.
  revert ids targets Hl H. induction (ar_parent_relationships a) as [|r rs IH]; intros [|i ids] targets Hl H; try done.
  - injection H as <-. constructor.
  - cbn [combine mapR] in H. apply bind_Ok in H as (t & Ht & H). apply bind_Ok in H as (ts & Hts & [= <-]).
    constructor; [|apply (IH ids); [by injection Hl|done]].
    unfold relationship_target in Ht. apply bind_Ok in Ht as ([] & Hne & Ht). apply bind_Ok in Ht as (m & Hm & [= <-]).
    unfold refuse_if in Hne. apply guard_not_Ok, bool_decide_eq_false in Hne. by apply node_of_Ok in Hm.
Qed.

Lemma parent_edges_built g a c n ids targets es :
  _relationship_targets a ids g = Ok targets ->
  mapR (fun '(r, (edge_id, target)) => edge_of a c edge_id (gn_id n) (gn_id target) (pr_edge_type r) (qualifier_of a r))
    (combine (ar_parent_relationships a) targets) = Ok es ->
  parent_edges g a n (map stored_edge es).
Proof.
  intros Ht%relationship_targets_Ok. unfold parent_edges. revert es. induction Ht as [|r [i m] rs ts [Hne Hm] _ IH]; intros es He.
  - injection He as <-. constructor.
  - cbn [combine mapR] in He. apply bind_Ok in He as (e & He & H). apply bind_Ok in H as (es' & Hes & [= <-]).
    cbn [map]. constructor; [|by apply IH]. apply edge_ends in He as (E1 & E2 & E3). split; [done|]. split; [done|]. split; [done|]. by exists m.
Qed.

Lemma node_id_kept a node_id label n : _node a node_id label = Ok n -> gn_id n = node_id.
Proof. unfold _node, new_node. intros ([] & _ & ([] & _ & Hn)%bind_Ok)%validated_Ok%bind_Ok. by injection Hn as <-. Qed.

Lemma edge_id_kept a c i from to ty q e : edge_of a c i from to ty q = Ok e -> ge_id (stored_edge e) = i.
Proof.
  unfold edge_of, new_edge. intros ([] & _ & ([] & _ & ([] & _ & He)%bind_Ok)%bind_Ok)%validated_Ok%bind_Ok. by injection He as <-.
Qed.

Lemma operation_sessions op c w w' r : run_operation op c (begin_transaction w) = (w', Ok r) -> wd_sessions w' = wd_sessions w.
Proof.
  destruct op; cbn [run_operation]; intros H.
  - by apply commit_run in H as (n & es & l & e & _ & _ & _ & _ & ->).
  - by apply revise_run in H as (p & pr & m & n & es & ed & l & e & _ & _ & _ & _ & _ & _ & _ & row & _ & _ & ->).
  - by apply withdraw_run in H as (a & l & e & _ & _ & _ & _ & row & _ & _ & ->).
Qed.

Lemma inserted_projected w w' a node_id ids label c n es more :
  inserted write (begin_transaction w) a node_id ids label c n es ->
  wd_graph w' = mkGraph (gd_nodes (wd_graph w) ++ [n]) (gd_edges (wd_graph w) ++ map stored_edge es ++ more) ->
  projected w w' a node_id more.
Proof.
  intros [_ Hn _ (targets & Ht & He)] Hg. exists n, (map stored_edge es). destruct (node_projects _ _ _ _ Hn) as [Hp Hk].
  split; [by eapply node_id_kept|]. split; [done|]. split; [done|]. split; [by eapply parent_edges_built|done].
Qed.

Lemma event_fields a c ty p ev :
  _event a c ty p = Ok ev ->
  la_id ev = ec_event_id c /\ la_event_type ev = ty /\ la_workspace_id ev = ar_workspace_id a /\ la_session_id ev = ar_session_id a.
Proof. unfold _event. by intros (-> & _)%new_append_Ok. Qed.

Lemma same_append_keys x y :
  same_append x y = true ->
  la_id y = la_id x /\ la_event_type y = la_event_type x /\ la_workspace_id y = la_workspace_id x /\ la_session_id y = la_session_id x.
Proof.
  unfold same_append. intros H. rewrite !andb_true_iff, !bool_decide_eq_true, String.eqb_eq in H. by destruct_and! H.
Qed.

Lemma recorded_logged op c w w' a payload l e :
  ledger_inv (wd_ledger w) -> recorded (begin_transaction w) a c (event_type_of op) payload l e -> wd_ledger w' = l ->
  logged op c w w' a e (lg_appended l).
Proof.
  intros Hl (ev & Hev & Ha) Hw. destruct (event_fields _ _ _ _ _ Hev) as (F1 & F2 & F3 & F4).
  assert (Hi : ledger_inv (wd_ledger (begin_transaction w))) by (destruct Hl as [L1 L2 L3]; by split).
  pose proof (append_branches _ ev Hi (event_valid _ _ _ _ _ Hev)) as H. rewrite Ha in H.
  destruct H as (_ & _ & Hsame & Hcase). unfold logged. rewrite Hw.
  assert (Hk : la_id (le_append e) = la_id ev /\ la_event_type (le_append e) = la_event_type ev /\
               la_workspace_id (le_append e) = la_workspace_id ev /\ la_session_id (le_append e) = la_session_id ev).
  { destruct Hsame as [->|Hs]; [done|by apply same_append_keys]. }
  destruct Hk as (-> & -> & -> & ->). do 4 (split; [done|]). destruct Hcase as [[-> (r & Hr & He)]|(h & _ & _ & _ & ->)].
  - cbn. rewrite app_nil_r. split; [done|]. right. split; [done|]. by exists r.
  - split; [done|by left].
Qed.

Lemma commit_effect a node_id ids label c w w' r :
  world_inv write w -> commit write a node_id ids label c (begin_transaction w) = (w', Ok r) ->
  effect (Commits a node_id ids label) c w w' (fst r) /\
  logged (Commits a node_id ids label) c w w' (fst r) (snd r) (lg_appended (wd_ledger w')).
Proof.
  intros Hi H. apply commit_run in H as (n & es & l & e & _ & Hins & Hrec & -> & ->). split.
  - split; [done|]. split; [done|]. eapply inserted_projected; [exact Hins|]. cbn. by rewrite app_nil_r.
  - eapply recorded_logged; [apply Hi|exact Hrec|done].
Qed.

Lemma revise_effect a node_id edge_id ids label reason c w w' r :
  world_inv write w -> revise write a node_id edge_id ids label reason c (begin_transaction w) = (w', Ok r) ->
  effect (Revises a node_id edge_id ids label reason) c w w' (fst r) /\
  logged (Revises a node_id edge_id ids label reason) c w w' (fst r) (snd r) (lg_appended (wd_ledger w')).
Proof.
  intros Hi H. apply revise_run in H as (p & previous & m & n & es & edge & l & e & (Hsup & _) & (Hget & Hact & Hfol)
    & Hm & Hins & Hedge & Hrec & -> & row & Hfind & _ & ->).
  destruct (locked_row write w _ _ _ _ _ _ Hi Hget Hfind) as (-> & Hrow & Hfp).
  apply find_artifact_Some in Hfp as (_ & E1 & E2 & E3). destruct (row_fresh _ _ _ _ (is_row_accepted _ _ _ _ _ _ _ _ _ Hins)) as (Hfr & _).
  apply node_for_artifact_Some in Hm as (M1 & M2 & M3 & M4). pose proof (edge_ends _ _ _ _ _ _ _ _ Hedge) as (D1 & D2 & D3).
  unfold follows in Hfol. apply andb_true_iff in Hfol as [[F1%bool_decide_eq_true _]%andb_true_iff F2%Z.eqb_eq]. split.
  - split; [done|]. exists previous, m, (stored_edge edge). cbn [wd_artifacts wd_graph begin_transaction] in *.
    rewrite replaced_rows by (intros x ->%list_elem_of_singleton; by apply (update_fresh w)).
    split; [done|]. split; [by rewrite Hsup, E3|]. split; [done|]. split; [by split|]. split; [lia|].
    split; [by rewrite <- (app_nil_r (replace_row _ _ _)), <- (app_nil_r (wd_artifacts w)), replaced_rows, !app_nil_r by by intros ? ?%not_elem_of_nil|].
    split; [done|]. split; [by split|]. split; [by eapply edge_id_kept|]. split; [done|].
    split; [by rewrite <- (node_id_kept _ _ _ _ (is_node _ _ _ _ _ _ _ _ _ Hins))|]. split; [done|].
    eapply inserted_projected; [exact Hins|]. cbn. by rewrite <- app_assoc.
  - eapply recorded_logged; [apply Hi|exact Hrec|done].
Qed.

Lemma withdraw_effect ws sid id reason warrants c w w' r :
  world_inv write w -> withdraw write ws sid id reason warrants c (begin_transaction w) = (w', Ok r) ->
  effect (Withdraws ws sid id reason warrants) c w w' (fst r) /\
  logged (Withdraws ws sid id reason warrants) c w w' (fst r) (snd r) (lg_appended (wd_ledger w')).
Proof.
  intros Hi H. apply withdraw_run in H as (a & l & e & _ & (Hget & Hact) & Hrec & -> & row & Hfind & _ & ->).
  destruct (locked_row write w ws sid id a [] row Hi Hget) as (-> & Hrow & Hf); [by rewrite app_nil_r|]. split.
  - exists a. split; [done|]. split; [by apply find_some in Hf as [_ ?]|]. done.
  - by eapply recorded_logged; [apply Hi|exact Hrec|].
Qed.

(** C7. A call in its transaction either raises, and then no table has changed,
    nothing is published and the error is never a bare database error; or it
    returns, and then the three tables have exactly the changes of the
    operation: a commit the new row, its node and one edge for each parent
    relationship; a revision these, the SUPERSEDES edge, and its active
    predecessor marked SUPERSEDED at the event's time; a withdrawal the status
    and time of one active row; and exactly the returned event is appended and
    published, or was stored before with the same values. *)
Theorem artifact_transaction_effect op c w (Hr : reachable w) (Hc : valid_call op c) :
  match transact op c w with
  | (w', Ok (a, e), published) => wd_sessions w' = wd_sessions w /\ effect op c w w' a /\ logged op c w w' a e published
  | (w', Raise x, published) => w' = w /\ published = [] /\ exn_cls x <> IntegrityErrorC
  end.
Proof.
  pose proof (reachable_world_inv w Hr) as Hi. unfold transact.
  destruct (reasoning_transaction _ w) as [[w' [[a e]|x]] published] eqn:E; [|by apply transaction_Raise in E].
  apply transaction_Ok in E as (H & _ & ->). split; [by eapply operation_sessions in H|].
  destruct op; [eapply commit_effect in H|eapply revise_effect in H|eapply withdraw_effect in H]; done.
Qed.

End history.
End History.
