(* ===== verification/ArtifactExamples.v ===== *)
(** * Concrete artifacts

    A claim that is committed, revised and withdrawn, with the theorems of
    [ArtifactHistory.v] and [SchemaFacts.v] applied to it, the calls that are
    refused, and the values on which the domain and the database disagree. *)

From S2P Require Import Prelude.
From S2P Require Import PyDecimal.
From S2P Require Import Clock.
From S2P Require Import Json.
From S2P Require Import Symbolic.
From S2P Require Import ConsensusPorts.
From S2P Require Import Ledger.
From S2P Require Import LedgerExamples.
From S2P Require Import ReasoningGraph.
From S2P Require Import DecimalText.
From S2P Require Import Artifacts.
From S2P Require Import ArtifactFacts.
From S2P Require Import ArtifactSchema.
From S2P Require Import SchemaFacts.
From S2P Require Import ArtifactCommit.
From S2P Require Import CommitFacts.
From S2P Require Import ArtifactLedger.
From S2P Require Import ArtifactHistory.
Import Graph Artifact ArtifactFacts Schema SchemaFacts Commit CommitFacts ArtifactLedger.ArtifactLedger History.

Local Open Scope Z_scope.

Module ArtifactDemo.

(** A writer of timestamps; outside four-digit years it writes the epoch. *)
Definition write (t : datetime) : string :=
  let s := stamp (dt_utc t) in if timestamp_pattern s then s else stamp 0.

Lemma writes_rfc3339 t : _aware_utc t = Ok t -> timestamp_pattern (write t) = true.
Proof. intros _. unfold write. destruct (timestamp_pattern (stamp (dt_utc t))) eqn:E; [exact E|vm_compute; reflexivity]. Defined.

Definition at_second (s : Z) : datetime := utc_datetime (1700000000000000 + s * 1000000).

Definition ground : uuid := 0x11111111111141118111111111111111%N.

(** A claim of session 2 in workspace 1, without its hash. *)
Definition draft (id : uuid) (version : Z) (supersedes_id : option uuid) (statement : string) (evidence : list uuid)
    (parents : list ParentRelationship) : ArtifactEnvelope :=
  mkArtifact id 1 2 500 CLAIM 1 version LifecycleStatus.ACTIVE supersedes_id HUMAN 9 1
    (ClaimP (mkClaim statement ClaimType.FACTUAL Bearing.SUPPORTS Strength.STRONG evidence [] ReviewStatus.PROPOSED))
    (mkProvenance ProvenanceOrigin.HUMAN "minutes" None None) [] parents None [] (at_second 0) (at_second 0) GENESIS_HASH.

Definition hash_of (a : ArtifactEnvelope) : string :=
  match artifact_content_hash write a with Ok h => h | Raise _ => "" end.
Definition sealed (a : ArtifactEnvelope) : ArtifactEnvelope := with_content_hash a (hash_of a).

Definition claim : ArtifactEnvelope := Eval vm_compute in sealed (draft ground 1 None "The bridge carries 40 t" [] []).
Definition second : ArtifactEnvelope :=
  Eval vm_compute in sealed (draft 11 2 (Some ground) "The bridge carries 30 t" [] [mkParent CONTRADICTS ground]).
Definition cited : ArtifactEnvelope := Eval vm_compute in sealed (draft 12 1 None "The deck is sound" [ground] []).

Lemma claim_valid : validate_artifact write claim = Ok claim.
Proof. vm_compute. reflexivity. Defined.
Lemma second_claim_valid : validate_artifact write second = Ok second.
Proof. vm_compute. reflexivity. Defined.
Lemma cited_valid : validate_artifact write cited = Ok cited.
Proof. vm_compute. reflexivity. Defined.

(** The hash that validation asks for is the computed one, and no other. *)
Example validation_wants_its_hash :
  artifact_content_hash write (draft ground 1 None "The bridge carries 40 t" [] []) = Ok (ar_content_hash claim) /\
  is_ok (validate_artifact write (with_content_hash second (ar_content_hash claim))) = false.
Proof. vm_compute. split; reflexivity. Qed.

(** ** The schema *)

Lemma database_accepts_witness :
  row_payload_check cited = Some true /\ row_envelope_check write cited = Some true.
Proof. apply database_accepts; [exact writes_rfc3339|exact cited_valid|vm_compute; reflexivity|vm_compute; reflexivity]. Defined.

(** An identifier without an RFC version is valid for the domain, not for the
    database. *)
Example identifiers_disagree :
  let a := sealed (draft 13 1 None "The deck is sound" [7%N] []) in
  validate_artifact write a = Ok a /\ row_payload_check a = Some false.
Proof. vm_compute. split; reflexivity. Qed.

(** A magnitude with an Arabic-Indic digit is a decimal text for the domain, not
    for the database. *)
Example digits_disagree :
  let a := sealed (mkArtifact 14 1 2 501 IMPACT 1 1 LifecycleStatus.ACTIVE None HUMAN 9 1
                     (ImpactP (mkImpact ground ground ("1" +:+ arabic_zero) "t" "a year" ground))
                     (mkProvenance ProvenanceOrigin.HUMAN "minutes" None None) [] [] None [] (at_second 0) (at_second 0)
                     GENESIS_HASH) in
  validate_artifact write a = Ok a /\ rfc_ids a = true /\ ascii_decimals a = false /\ row_payload_check a = Some false.
Proof. vm_compute. repeat split. Qed.

(** A JSON null is no uncertainty type, but [NOT IN] of it is unknown and the
    check lets it pass; a missing type is refused by the key check. *)
Definition untyped (members : dict string json) : json :=
  JObj (members ++ [("target_id", juuid ground); ("representation", JStr "QUALITATIVE"); ("drivers", JList [JStr "load"]);
                    ("level", JStr "HIGH"); ("explanation", JStr "old drawings")]).

Example null_uncertainty_type_passes :
  payload_check "UNCERTAINTY" (untyped [("uncertainty_type", JNull)]) = Some true /\
  payload_check "UNCERTAINTY" (untyped [("uncertainty_type", JStr "GUESS")]) = Some false /\
  payload_check "UNCERTAINTY" (untyped []) = Some false.
Proof. vm_compute. repeat split. Qed.

(** ** A history *)

Definition context (event_id : uuid) (second : Z) : ArtifactEventContext :=
  mkEventContext event_id 77 None HUMAN 9 (at_second second).

Definition empty_world : world := mkWorld [(1, 2)%N] [] (mkGraph [] []) (opened (1, 2)%N).

Definition first_call : operation := Commits claim 20 [] "claim".
Definition second_call : operation := Revises second 21 30 [31%N] "claim" "new survey".
Definition third_call : operation := Withdraws 1 2 11 "survey withdrawn" [ground].

Definition after (op : operation) (c : ArtifactEventContext) (w : world) : world := fst (fst (transact write op c w)).
Definition world1 : world := Eval vm_compute in after first_call (context 40 1) empty_world.
Definition world2 : world := Eval vm_compute in after second_call (context 41 2) world1.
Definition world3 : world := Eval vm_compute in after third_call (context 42 3) world2.

Lemma first_call_valid : valid_call write first_call (context 40 1).
Proof. split; [vm_compute; reflexivity|]. intros a [= <-]. exact claim_valid. Defined.
Lemma second_call_valid : valid_call write second_call (context 41 2).
Proof. split; [vm_compute; reflexivity|]. intros a [= <-]. exact second_claim_valid. Defined.
Lemma third_call_valid : valid_call write third_call (context 42 3).
Proof. split; [vm_compute; reflexivity|]. intros a [=]. Defined.

Lemma empty_blank : blank_world empty_world.
Proof. split; [reflexivity|]. split; [reflexivity|apply opened_inv]. Qed.

Section calls.
Variables (start : world -> Prop) (calls : operation -> ArtifactEventContext -> Prop).
Hypotheses (Hstart : start empty_world) (Hfirst : calls first_call (context 40 1)) (Hsecond : calls second_call (context 41 2))
  (Hthird : calls third_call (context 42 3)).

Lemma world1_reached : reached write start calls world1.
Proof using Hstart Hfirst.
  change world1 with (id world1). replace (id world1) with (after first_call (context 40 1) empty_world) by (vm_compute; reflexivity).
  apply reach_call; [by apply reach_start|exact Hfirst].
Qed.

Lemma world2_reached : reached write start calls world2.
Proof using Hstart Hfirst Hsecond.
  change world2 with (id world2). replace (id world2) with (after second_call (context 41 2) world1) by (vm_compute; reflexivity).
  apply reach_call; [exact world1_reached|exact Hsecond].
Qed.

Lemma world3_reached : reached write start calls world3.
Proof using All.
  change world3 with (id world3). replace (id world3) with (after third_call (context 42 3) world2) by (vm_compute; reflexivity).
  apply reach_call; [exact world2_reached|exact Hthird].
Qed.

End calls.

Lemma world1_reachable : reachable write world1.
Proof. apply world1_reached; [exact empty_blank|exact first_call_valid]. Qed.
Lemma world2_reachable : reachable write world2.
Proof. apply world2_reached; [exact empty_blank|exact first_call_valid|exact second_call_valid]. Qed.

(** The rows at the end: version 1 is superseded, version 2 withdrawn; the graph
    has the claims' contradiction and the supersession. *)
Example the_history :
  map (fun a => (ar_id a, ar_version a, ar_status a)) (wd_artifacts world3)
    = [(ground, 1, LifecycleStatus.SUPERSEDED); (11%N, 2, LifecycleStatus.WITHDRAWN)] /\
  map (fun e => (ge_id e, ge_from_node e, ge_to_node e, ge_edge_type e)) (gd_edges (wd_graph world3))
    = [(31, 21, 20, CONTRADICTS)%N; (30, 21, 20, Graph.SUPERSEDES)%N] /\
  map rw_event_type (lg_events (wd_ledger world3)) = ["ARTIFACT_COMMITTED"; "ARTIFACT_REVISED"; "ARTIFACT_WITHDRAWN"].
Proof. vm_compute. repeat split. Qed.

Lemma artifact_record_consistent_witness :
  (world_inv write world3 /\ ledger_agrees world3) /\ length (wd_artifacts world3) = 2%nat.
Proof.
  split; [|reflexivity]. apply artifact_record_consistent. apply world3_reached.
  - split; [exact empty_blank|]. by intros r ?%not_elem_of_nil.
  - split; [exact first_call_valid|]. intros a [= <-]. vm_compute. reflexivity.
  - split; [exact second_call_valid|]. intros a [= <-]. vm_compute. reflexivity.
  - split; [exact third_call_valid|]. intros a [=].
Defined.

Lemma artifact_history_is_linear_witness :
  exists b, b ∈ wd_artifacts world2 /\ same_logical b second /\ ar_version b = 1.
Proof.
  assert (Ha : second ∈ wd_artifacts world2) by (right; left).
  destruct (artifact_history_is_linear write world2 second world2_reachable Ha) as [H _].
  apply (H 1). split; vm_compute; discriminate.
Defined.

Lemma artifact_transaction_effect_witness :
  exists e w', transact write second_call (context 41 2) world1 = (w', Ok (second, e), [e]) /\
    effect second_call (context 41 2) world1 w' second.
Proof.
  pose proof (artifact_transaction_effect write second_call (context 41 2) world1 world1_reachable second_call_valid) as H.
  assert (Hok : exists e, transact write second_call (context 41 2) world1 = (world2, Ok (second, e), [e]))
    by (vm_compute; eexists; reflexivity).
  destruct Hok as (e & He). rewrite He in H. exists e, world2. split; [exact He|apply H].
Defined.

(** ** Refused calls *)

Definition refused (op : operation) (c : ArtifactEventContext) (w : world) : option (exn * nat) :=
  match transact write op c w with
  | (w', Raise x, published) => Some (x, length published)
  | _ => None
  end.

Definition error (message : string) : option (exn * nat) :=
  Some (Exn ArtifactCommitErrorC message, 0%nat).

(** A superseded claim cannot be revised again, nor withdrawn; a withdrawn one
    cannot be revised; a revision names its edges; an id is committed once, and
    this is the one failure that the database reports. *)
Example refused_calls :
  refused second_call (context 43 4) world2 = error "only an ACTIVE artifact may be revised" /\
  refused (Withdraws 1 2 ground "late" [11%N]) (context 43 4) world2 = error "only an ACTIVE artifact may be withdrawn" /\
  refused (Withdraws 1 2 11 "late" []) (context 43 4) world2 = error "withdrawal requires at least one warrant artifact id" /\
  refused (Revises second 21 30 [] "claim" "new survey") (context 41 2) world1
    = error "each parent relationship requires one edge id" /\
  refused first_call (context 43 4) world1
    = Some (Exn ValidationFailedC "request conflicts with persisted tenant state", 0%nat).
Proof. vm_compute. repeat split. Qed.

End ArtifactDemo.
