(* ===== verification/Metrics.v ===== *)
(** * Metrics

    [app/ports/metrics.py]: the definition of a metric with its admission rules,
    the context a plugin computes against and the value it returns;
    [app/domain/metrics.py]: the immutable catalogue.  The shipped definitions
    are in [MetricDefinitions.v]. *)

From Stdlib Require Import Floats.SpecFloat.
From S2P Require Import Prelude.
From S2P Require Import PyDecimal.
From S2P Require Import Json.
From S2P Require Import Symbolic.
From S2P Require Import ConsensusPorts.
From S2P Require Import AgentRuntime.
From S2P Require Import Ledger.
From S2P Require Import Artifacts.

Local Open Scope Z_scope.

Module Metrics.

(** ** Fields *)

(** [_METRIC_ID_RE]: two letters, a hyphen and two digits; the letters. *)
Definition metric_dim (s : string) : option string :=
  match chars s with
  | [a; b; h; m; n] =>
      if is_lower a && is_lower b && Ascii.eqb h "-"%char && is_digit m && is_digit n
      then Some (unchars [a; b]) else None
  | _ => None
  end.

Definition tail_char (c : ascii) : bool :=
  is_digit c || bool_decide (c ∈ ["_"%char; "."%char; "-"%char]).

Definition shaped (first rest : ascii -> bool) (s : string) : bool :=
  match chars s with
  | c :: l => first c && forallb rest l && (length l <=? 127)%nat
  | [] => false
  end.

(** [_IDENTIFIER_RE] and [_VERSION_RE] *)
Definition identifier_re : string -> bool := shaped is_lower (fun c => is_lower c || tail_char c).
Definition is_alnum (c : ascii) : bool := is_lower c || is_upper c || is_digit c.
Definition version_re : string -> bool :=
  shaped is_alnum (fun c => is_alnum c || tail_char c || Ascii.eqb c "+"%char).

Definition _metric_id (s : string) : res unit :=
  guard_not (is_none (metric_dim s)) ValueErrorC "metric id must match <dimension>-<nn>".
Definition _identifier (s : string) : res unit :=
  guard_not (negb (identifier_re s)) ValueErrorC "identifier must be lowercase ASCII and version-stable".
Definition _version (s : string) : res unit :=
  guard_not (negb (version_re s)) ValueErrorC "version must be stable ASCII".
Definition _digest (s : string) : res unit :=
  guard_not (negb (digest_ok s)) ValueErrorC "digest must be a sha256 content hash in project format".
Definition not_blank (message s : string) : res unit := guard_not (blank s) ValueErrorC message.

(** A float of a JSON value is kept by its [repr]. *)
Definition finite_repr (r : string) : bool := negb (bool_decide (r ∈ ["inf"; "-inf"; "nan"])).

(** [_closed_json]; the keys of an object are strings by their type. *)
Fixpoint closed_at (fuel : nat) (depth : Z) (v : json) : res unit :=
  _ ← guard_not (64 <? depth) ValueErrorC "closed JSON document is nested too deeply";
  match fuel with
  | O => Ok tt
  | S fuel =>
      match v with
      | JObj l => foldR (fun _ kv => closed_at fuel (depth + 1) (snd kv)) tt l
      | JList l => foldR (fun _ x => closed_at fuel (depth + 1) x) tt l
      | JFloat r => guard_not (negb (finite_repr r)) TypeErrorC "unsupported non-JSON value: float"
      | JNull | JBool _ | JInt _ | JStr _ => Ok tt
      end
  end.

(** Past depth 64 the first test raises, so 66 levels are read at most. *)
Definition _closed_json (v : json) : res unit := closed_at 66 0 v.

(** [_scalar] *)
Definition _scalar (v : json) : res unit :=
  guard_not (match v with
             | JNull | JStr _ | JBool _ | JInt _ => false
             | JFloat r => negb (finite_repr r)
             | JList _ | JObj _ => true
             end) TypeErrorC "metric value must be a finite JSON scalar".

(** ** Vocabularies *)

Module MetricDimension.
Inductive t : Type := EVIDENCE | RIGOUR | DISAGREEMENT | CONSENSUS | ROBUSTNESS | COST | OVERSIGHT | CALIBRATION.
#[global] Instance eq_dec : EqDecision t.
Proof. solve_decision. Defined.
#[global, refine] Instance enum : StrEnum t := {| value d :=
  match d with
  | EVIDENCE => "EP" | RIGOUR => "RR" | DISAGREEMENT => "DH" | CONSENSUS => "CQ" | ROBUSTNESS => "RB" | COST => "CE"
  | OVERSIGHT => "HO" | CALIBRATION => "CA"
  end |}.
Proof. str_enum. Defined.
End MetricDimension.

Module MetricDirection.
Inductive t : Type := HIGHER_BETTER | LOWER_BETTER | NO_DIRECTION.
#[global] Instance eq_dec : EqDecision t.
Proof. solve_decision. Defined.
#[global, refine] Instance enum : StrEnum t := {| value d :=
  match d with
  | HIGHER_BETTER => "HIGHER_BETTER" | LOWER_BETTER => "LOWER_BETTER" | NO_DIRECTION => "NO_DIRECTION"
  end |}.
Proof. str_enum. Defined.
End MetricDirection.

Module MetricSubjectKind.
Inductive t : Type := SESSION | AGENT | ALTERNATIVE | CLAIM.
#[global] Instance eq_dec : EqDecision t.
Proof. solve_decision. Defined.
#[global, refine] Instance enum : StrEnum t := {| value d :=
  match d with SESSION => "SESSION" | AGENT => "AGENT" | ALTERNATIVE => "ALTERNATIVE" | CLAIM => "CLAIM" end |}.
Proof. str_enum. Defined.
End MetricSubjectKind.

Module MetricRangeKind.
Inductive t : Type := INTERVAL | ENUM.
#[global] Instance eq_dec : EqDecision t.
Proof. solve_decision. Defined.
End MetricRangeKind.

Module MetricValueStatus.
Inductive t : Type := IMPLEMENTED | NOT_APPLICABLE.
#[global] Instance eq_dec : EqDecision t.
Proof. solve_decision. Defined.
End MetricValueStatus.

(** ** Definitions *)

Record MetricRange : Type := mkRange {
  rg_kind : MetricRangeKind.t;
  rg_lower : option pyfloat;
  rg_upper : option pyfloat;
  rg_unit : option string;
  rg_bounds_meaning : string
}.

Record MetricInputSpec : Type := mkInput {
  is_name : string;
  is_kind : string;
  is_version : string;
  is_fields : list string;
  is_description : string
}.

Record MetricDefinition : Type := mkDefinition {
  md_metric_id : string;
  md_metric_version : string;
  md_dimension : MetricDimension.t;
  md_label : string;
  md_formula : string;
  md_inputs : list MetricInputSpec;
  md_range : MetricRange;
  md_direction : MetricDirection.t;
  md_interpretation : string;
  md_caveats : list string;
  md_deprecated : bool;
  md_successor_metric_id : option string
}.

#[global] Instance MetricRange_eq_dec : EqDecision MetricRange.
Proof. solve_decision. Defined.
#[global] Instance MetricInputSpec_eq_dec : EqDecision MetricInputSpec.
Proof. solve_decision. Defined.
#[global] Instance MetricDefinition_eq_dec : EqDecision MetricDefinition.
Proof. solve_decision. Defined.

(** [self.lower > self.upper], false when a bound is absent or not a number. *)
Definition crossed (lower upper : option pyfloat) : bool :=
  match lower, upper with
  | Some l, Some u => SFltb u l
  | _, _ => false
  end.

(** [MetricRange.consistent] *)
Definition range_consistent (r : MetricRange) : res unit :=
  match rg_kind r with
  | MetricRangeKind.ENUM =>
      guard_not (is_some (rg_lower r) || is_some (rg_upper r) || is_some (rg_unit r)) ValueErrorC
        "enum range must not carry numeric bounds or a unit"
  | MetricRangeKind.INTERVAL =>
      _ ← guard_not (is_none (rg_lower r) && is_none (rg_upper r)) ValueErrorC "interval range needs at least one bound";
      guard_not (crossed (rg_lower r) (rg_upper r)) ValueErrorC "interval lower bound exceeds its upper bound"
  end.

Definition new_range (r : MetricRange) : res MetricRange :=
  validated "MetricRange" (_ ← not_blank "bounds_meaning must not be blank" (rg_bounds_meaning r); _ ← range_consistent r; Ok r).

Definition new_input (i : MetricInputSpec) : res MetricInputSpec :=
  validated "MetricInputSpec"
    (_ ← _identifier (is_name i);
     _ ← _identifier (is_kind i);
     _ ← _version (is_version i);
     _ ← guard_not (bool_decide (is_fields i = [])) ValueErrorC "inputs must name the fields consumed";
     _ ← not_blank "input description must not be blank" (is_description i);
     Ok (mkInput (is_name i) (is_kind i) (is_version i) (fromkeys (is_fields i)) (is_description i))).

(** [str.lower] *)
Definition lower_str (s : string) : string := map_chars lower_char s.

(** [identity_consistent] and [successor_consistent] *)
Definition identity_consistent (d : MetricDefinition) : res unit :=
  guard_not (negb (bool_decide (metric_dim (md_metric_id d) = Some (lower_str (value (md_dimension d)))))) ValueErrorC
    "metric id prefix must match its dimension".
Definition successor_consistent (d : MetricDefinition) : res unit :=
  _ ← guard_not (md_deprecated d && is_none (md_successor_metric_id d)) ValueErrorC
        "deprecated definition requires a successor metric id";
  guard_not (negb (md_deprecated d) && is_some (md_successor_metric_id d)) ValueErrorC
    "only deprecated definitions may name a successor".

Definition new_definition (d : MetricDefinition) : res MetricDefinition :=
  validated "MetricDefinition"
    (_ ← _metric_id (md_metric_id d);
     _ ← _version (md_metric_version d);
     _ ← guard_not (bool_decide (md_inputs d = [])) ValueErrorC "a metric must state at least one input";
     _ ← guard_not (bool_decide (md_caveats d = []) || existsb blank (md_caveats d)) ValueErrorC
           "a metric needs at least one non-blank caveat";
     _ ← not_blank "label must not be blank" (md_label d);
     _ ← not_blank "formula must state a computable expression" (md_formula d);
     _ ← not_blank "interpretation must not be blank" (md_interpretation d);
     _ ← identity_consistent d;
     _ ← successor_consistent d;
     Ok d).

(** ** Contexts and values *)

Record MetricContext : Type := mkContext {
  mx_workspace_id : uuid;
  mx_session_id : uuid;
  mx_round_index : Z;
  mx_subject : MetricSubjectKind.t;
  mx_subject_id : option uuid;
  mx_inputs : json;
  mx_inputs_hash : string
}.

(** A validator's [TypeError] leaves the model as it is, whatever other fields
    are wrong; only a [ValueError] becomes part of a [ValidationError]. *)
Definition checked {A} (model : string) (m : res A) : res A :=
  match m with
  | Raise e => if bool_decide (exn_cls e = TypeErrorC) then Raise e else validated model m
  | Ok a => Ok a
  end.

Definition new_context (c : MetricContext) : res MetricContext :=
  _ ← checked "MetricContext" (_closed_json (mx_inputs c));
  validated "MetricContext"
    (_ ← guard_not (mx_round_index c <? 0) ValueErrorC "round_index";
     _ ← _digest (mx_inputs_hash c);
     Ok c).

Record MetricValue : Type := mkValue {
  mv_metric_id : string;
  mv_metric_version : string;
  mv_subject : MetricSubjectKind.t;
  mv_subject_id : option uuid;
  mv_value : json;
  mv_interval_low : option pyfloat;
  mv_interval_high : option pyfloat;
  mv_sample_size : Z;
  mv_inputs_hash : string;
  mv_code_version : string;
  mv_status : MetricValueStatus.t;
  mv_not_applicable_reason : option string;
  mv_computation_trace : list string
}.

(** [MetricValue.status_consistent] *)
Definition status_consistent (v : MetricValue) : res unit :=
  _ ← match mv_status v with
      | MetricValueStatus.NOT_APPLICABLE =>
          _ ← guard_not (negb (bool_decide (mv_value v = JNull))) ValueErrorC "not-applicable value must be None";
          guard_not (match mv_not_applicable_reason v with Some r => blank r | None => true end) ValueErrorC
            "not-applicable value requires a reason"
      | MetricValueStatus.IMPLEMENTED =>
          _ ← guard_not (bool_decide (mv_value v = JNull)) ValueErrorC "implemented value must be a finite JSON scalar";
          _ ← guard_not (is_some (mv_not_applicable_reason v)) ValueErrorC
                "implemented value must not carry a not-applicable reason";
          _scalar (mv_value v)
      end;
  guard_not (crossed (mv_interval_low v) (mv_interval_high v)) ValueErrorC "interval lower bound exceeds its upper bound".

(** The fields, then the validator of the whole. *)
Definition new_value (v : MetricValue) : res MetricValue :=
  _ ← validated "MetricValue"
        (_ ← _metric_id (mv_metric_id v);
         _ ← _version (mv_metric_version v);
         _ ← guard_not (mv_sample_size v <? 0) ValueErrorC "sample_size";
         _ ← _digest (mv_inputs_hash v);
         _ ← _version (mv_code_version v);
         guard_not (bool_decide (mv_computation_trace v = []) || existsb blank (mv_computation_trace v)) ValueErrorC
           "computation_trace must record at least one step");
  _ ← checked "MetricValue" (status_consistent v);
  Ok v.

(** ** The catalogue *)

(** [_index] is keyed by id and version. *)
Definition definition_key (d : MetricDefinition) : string * string := (md_metric_id d, md_metric_version d).

Record MetricCatalogue : Type := mkCatalogue {
  mc_definitions : list MetricDefinition;
  mc_index : dict (string * string) MetricDefinition
}.

(** One iteration of the loop of [__init__]: registered, ids and keys. *)
Definition register (s : list MetricDefinition * list string * list (string * string)) (d : MetricDefinition)
    : res (list MetricDefinition * list string * list (string * string)) :=
  let '(registered, ids, keys) := s in
  _ ← guard_not (bool_decide (md_metric_id d ∈ ids)) MetricCatalogueErrorC ("duplicate metric id: " +:+ md_metric_id d);
  _ ← guard_not (bool_decide (definition_key d ∈ keys)) MetricCatalogueErrorC "duplicate metric version";
  Ok (registered ++ [d], ids ++ [md_metric_id d], keys ++ [definition_key d]).

(** The order of tuples of strings. *)
Definition definition_le (a b : MetricDefinition) : bool :=
  let da := value (md_dimension a) in let db := value (md_dimension b) in
  if negb (String.eqb da db) then String.leb da db
  else if negb (String.eqb (md_metric_id a) (md_metric_id b)) then String.leb (md_metric_id a) (md_metric_id b)
  else String.leb (md_metric_version a) (md_metric_version b).

Definition new_catalogue (definitions : list MetricDefinition) : res MetricCatalogue :=
  '(registered, _, _) ← foldR register ([], [], []) definitions;
  _ ← guard_not (bool_decide (registered = [])) MetricCatalogueErrorC "catalogue cannot be empty";
  let ordered := sort_by definition_le registered in
  Ok (mkCatalogue ordered (dict_of_list (map (fun d => (definition_key d, d)) ordered))).

Definition all (c : MetricCatalogue) : list MetricDefinition := mc_definitions c.
Definition active (c : MetricCatalogue) : list MetricDefinition :=
  List.filter (fun d => negb (md_deprecated d)) (mc_definitions c).
Definition definitions_for (c : MetricCatalogue) (dimension : MetricDimension.t) : list MetricDefinition :=
  List.filter (fun d => bool_decide (md_dimension d = dimension)) (mc_definitions c).
Definition dimensions (c : MetricCatalogue) : list MetricDimension.t := fromkeys (map md_dimension (mc_definitions c)).
Definition contains (c : MetricCatalogue) (metric_id : string) : bool :=
  existsb (fun d => String.eqb (md_metric_id d) metric_id) (mc_definitions c).

Definition get (c : MetricCatalogue) (metric_id metric_version : string) : res MetricDefinition :=
  _ ← guard_not (negb (contains c metric_id)) UnknownMetricIdC ("unknown metric id: " +:+ metric_id);
  res_of_option UnknownMetricVersionC ("unknown metric version " +:+ metric_version +:+ " for " +:+ metric_id)
    (dict_get (metric_id, metric_version) (mc_index c)).

End Metrics.
