(* ===== verification/MetricDefinitions.v ===== *)
(** * The shipped metric definitions

    [app/application/metrics.py]: the forty-three definitions of the catalogue, in
    the order of the source, as the records they build; [MetricFacts] shows that
    the constructors of the inputs, ranges and definitions accept every one and
    return it unchanged. *)

From Stdlib Require Import Floats.SpecFloat.
From S2P Require Import Prelude.
From S2P Require Import AgentRuntime.
From S2P Require Import Metrics.
Import Metrics.

Module MetricDefinitions.

(** The floats 0.0, 1.0, -1.0 and 2.0. *)
Definition f0 : pyfloat := fzero.
Definition f1 : pyfloat := S754_finite false 4503599627370496 (-52).
Definition fneg1 : pyfloat := S754_finite true 4503599627370496 (-52).
Definition f2 : pyfloat := S754_finite false 4503599627370496 (-51).

Definition _interval (lower upper : option pyfloat) (unit : option string) (meaning : string) : MetricRange :=
  mkRange MetricRangeKind.INTERVAL lower upper unit meaning.
Definition _enum (meaning : string) : MetricRange := mkRange MetricRangeKind.ENUM None None None meaning.
Definition _input (name kind : string) (fields : list string) (description : string) : MetricInputSpec :=
  mkInput name kind "1" fields description.

(** ** Evidence and provenance *)

Definition ep_01 : MetricDefinition :=
  mkDefinition "ep-01" "1" MetricDimension.EVIDENCE
    "evidence coverage"
    "claims with >= 1 SUPPORTS / total claims"
    [_input "claims" "claim" ["id"; "kind"; "status"]
         "all claims raised in the session at the point of computation";
     _input "supports_edges" "claim_edge" ["source_claim_id"; "edge_kind"; "edge_state"]
         "SUPPORTS edges from claims or evidence toward claims"]
    (_interval (Some f0) (Some f1) None "ratio of all claims to claims with support")
    MetricDirection.HIGHER_BETTER
    "How much of the reasoning is tied to at least one piece of supporting evidence."
    ["rises trivially if agents attach weak evidence; read with EP-03"] false None.

Definition ep_02 : MetricDefinition :=
  mkDefinition "ep-02" "1" MetricDimension.EVIDENCE
    "provenance completeness"
    "artifacts with an unbroken chain to SOURCE / total artifacts"
    [_input "artifacts" "reasoning_artifact" ["id"; "kind"]
         "all committed artifacts attributable in the session";
     _input "artifact_links" "artifact_edge" ["source_id"; "target_id"; "edge_kind"]
         "provenance edges forming the chain toward source nodes";
     _input "source_nodes" "source" ["id"; "source_status"]
         "terminal SOURCE nodes, including UNATTRIBUTED ones"]
    (_interval (Some f0) (Some f1) None "ratio of artifacts to those with a full chain")
    MetricDirection.HIGHER_BETTER
    "How much of the produced artifacts trace back, without gaps, to an original source."
    ["a chain to an UNATTRIBUTED source is still a chain"] false None.

Definition ep_03 : MetricDefinition :=
  mkDefinition "ep-03" "1" MetricDimension.EVIDENCE
    "verified evidence ratio"
    "evidence in SOURCE_VERIFIED or CROSS_CHECKED / all evidence"
    [_input "evidence" "evidence" ["id"; "status"]
         "all evidence cited during the session";
     _input "evidence_verifications" "evidence_verification" ["evidence_id"; "verification_status"]
         "verification records with the documented verification status"]
    (_interval (Some f0) (Some f1) None "ratio of all evidence to evidence independently verified")
    MetricDirection.HIGHER_BETTER
    "Share of the cited evidence that was actually verified or cross-checked."
    ["low values are normal early in a session"] false None.

Definition ep_04 : MetricDefinition :=
  mkDefinition "ep-04" "1" MetricDimension.EVIDENCE
    "source independence"
    "mean distinct publishers per claim's support set"
    [_input "claims" "claim" ["id"]
         "claims whose support sets are measured";
     _input "claim_supports" "claim_edge" ["source_claim_id"; "cited_source_id"]
         "support edges linking claims to cited sources";
     _input "sources" "source" ["id"; "publisher"]
         "cited sources with their publisher attribution"]
    (_interval (Some f0) None None "unbounded above; larger means more independent publishers")
    MetricDirection.HIGHER_BETTER
    "How many independent publishers stand behind a typical claim."
    ["citation laundering defeats it; see EP-05"] false None.

Definition ep_05 : MetricDefinition :=
  mkDefinition "ep-05" "1" MetricDimension.EVIDENCE
    "hallucinated source rate"
    "sustained HALLUCINATED_SOURCE critiques / cited sources"
    [_input "critiques" "critique" ["id"; "critique_kind"; "status"]
         "critiques marked HALLUCINATED_SOURCE and sustained";
     _input "cited_sources" "citation" ["id"; "source_id"]
         "sources actually cited during the session"]
    (_interval (Some f0) (Some f1) None "ratio of cited sources to sustained fabrications")
    MetricDirection.LOWER_BETTER
    "Share of cited sources that turned out to be made up."
    ["per-agent breakdown is the useful view"] false None.

Definition ep_06 : MetricDefinition :=
  mkDefinition "ep-06" "1" MetricDimension.EVIDENCE
    "evidence gap count"
    "open EVIDENCE_GAP critiques at terminal round"
    [_input "critiques" "critique" ["id"; "critique_kind"; "state"]
         "EVIDENCE_GAP critiques still open at the terminal round";
     _input "claims" "claim" ["id"; "materiality"]
         "claims whose materiality weights the blocked count"]
    (_interval (Some f0) None None "non-negative count of unanswered evidence requests")
    MetricDirection.LOWER_BETTER
    "Number of evidence requests still unanswered when the session ended."
    ["count weighted by the materiality of the blocked claim"] false None.

(** ** Reasoning rigour *)

Definition rr_01 : MetricDefinition :=
  mkDefinition "rr-01" "1" MetricDimension.RIGOUR
    "unsupported claim ratio"
    "claims with empty support and empty opposition / total claims"
    [_input "claims" "claim" ["id"; "kind"]
         "all claims, including hypotheses whose kind is recorded";
     _input "support_edges" "claim_edge" ["source_claim_id"; "edge_kind"]
         "SUPPORTS edges toward claims";
     _input "opposition_edges" "claim_edge" ["source_claim_id"; "edge_kind"]
         "ATTACKS or CONTRADICTS edges toward claims"]
    (_interval (Some f0) (Some f1) None "ratio of all claims to claims with neither support nor opposition")
    MetricDirection.LOWER_BETTER
    "Share of claims with no support and no opposition at all."
    ["some unsupported claims are honest hypotheses; check claim kind"] false None.

Definition rr_02 : MetricDefinition :=
  mkDefinition "rr-02" "1" MetricDimension.RIGOUR
    "assumption depth"
    "mean assumption_closure size over alternatives"
    [_input "alternatives" "alternative" ["id"]
         "alternatives whose assumption closures are measured";
     _input "assumption_closure" "assumption_link" ["alternative_id"; "assumption_id"; "transitive"]
         "closure links between alternatives and the assumptions they depend on"]
    (_interval (Some f0) None None "unbounded above; larger means deeper dependency closures")
    MetricDirection.LOWER_BETTER
    "How many explicit assumptions a typical alternative depends on."
    ["deep closures mean fragile conclusions, not wrong ones"] false None.

Definition rr_03 : MetricDefinition :=
  mkDefinition "rr-03" "1" MetricDimension.RIGOUR
    "inference validity rate"
    "inferences whose recorded rule passes the structural check / total inferences"
    [_input "inferences" "inference" ["id"; "rule_id"]
         "all recorded inference steps";
     _input "inference_rules" "reasoning_rule" ["rule_id"; "schema"]
         "the rule schemata each inference cites"]
    (_interval (Some f0) (Some f1) None "ratio of all inferences to structurally valid ones")
    MetricDirection.HIGHER_BETTER
    "Share of inference steps whose rule actually conforms to the structural check."
    ["structural validity is not soundness"] false None.

Definition rr_04 : MetricDefinition :=
  mkDefinition "rr-04" "1" MetricDimension.RIGOUR
    "contradiction density"
    "CONTRADICTS edges / claim pairs"
    [_input "contradicts_edges" "claim_edge" ["source_claim_id"; "target_claim_id"; "edge_kind"]
         "CONTRADICTS edges between claim pairs";
     _input "claims" "claim" ["id"]
         "claims forming the pair denominator"]
    (_interval (Some f0) (Some f1) None "ratio of contradiction edges to claim pairs")
    MetricDirection.NO_DIRECTION
    "Density of explicit contradictions between claims."
    ["low density can mean groupthink"] false None.

Definition rr_05 : MetricDefinition :=
  mkDefinition "rr-05" "1" MetricDimension.RIGOUR
    "formalization rate"
    "constraints with authoritative validation_status = VALIDATED / hard constraints"
    [_input "constraints" "constraint" ["id"; "constraint_kind"]
         "hard constraints eligible for formal validation";
     _input "constraint_validations" "constraint_validation" ["constraint_id"; "validation_status"; "authoritative"]
         "authoritative validation records for constraints"]
    (_interval (Some f0) (Some f1) None "ratio of hard constraints to authoritatively validated ones")
    MetricDirection.HIGHER_BETTER
    "Share of hard constraints formally validated."
    ["only meaningful where formalization is possible"] false None.

Definition rr_06 : MetricDefinition :=
  mkDefinition "rr-06" "1" MetricDimension.RIGOUR
    "feasibility pass rate"
    "alternatives SAT / evaluated alternatives"
    [_input "alternatives" "alternative" ["id"]
         "alternatives subjected to feasibility evaluation";
     _input "feasibility_verdicts" "feasibility_evaluation" ["alternative_id"; "verdict"]
         "recorded feasibility verdicts for alternatives"]
    (_interval (Some f0) (Some f1) None "ratio of evaluated alternatives to feasible ones")
    MetricDirection.NO_DIRECTION
    "Share of alternatives that passed feasibility."
    ["a low rate may mean honest constraints"] false None.

Definition rr_07 : MetricDefinition :=
  mkDefinition "rr-07" "1" MetricDimension.RIGOUR
    "solver unknown rate"
    "UNKNOWN evaluations / hard-constraint evaluations"
    [_input "constraint_evaluations" "constraint_evaluation" ["constraint_id"; "verdict"]
         "recorded solver verdicts over hard constraints";
     _input "constraints" "constraint" ["id"; "constraint_kind"]
         "the hard constraints whose evaluations form the denominator"]
    (_interval (Some f0) (Some f1) None "ratio of constraint evaluations the solver could not decide")
    MetricDirection.LOWER_BETTER
    "Share of hard-constraint evaluations the solver could not decide."
    ["rising values signal over-ambitious rule sets"] false None.

(** ** Disagreement health *)

Definition dh_01 : MetricDefinition :=
  mkDefinition "dh-01" "1" MetricDimension.DISAGREEMENT
    "initial disagreement"
    "propositions with a non-degenerate position vector after round 1"
    [_input "propositions" "proposition" ["id"]
         "propositions put to the group in round 1";
     _input "position_vectors" "position" ["proposition_id"; "agent_id"; "position"]
         "round-1 position vectors over agents"]
    (_interval (Some f0) (Some f1) None "ratio of propositions with non-degenerate round-1 positions")
    MetricDirection.HIGHER_BETTER
    "How much genuine disagreement existed right after the first round."
    ["zero disagreement across five agents is suspicious, not reassuring"] false None.

Definition dh_02 : MetricDefinition :=
  mkDefinition "dh-02" "1" MetricDimension.DISAGREEMENT
    "disagreement retention"
    "dissenting positions present in the final result / dissenting positions at round 2"
    [_input "dissents" "dissent" ["agent_id"; "proposition_id"; "round_index"]
         "dissenting positions observed per round";
     _input "results" "consensus_result" ["id"; "round_index"; "agent_positions"]
         "final results and their retained agent positions"]
    (_interval (Some f0) (Some f1) None "ratio of round-2 dissent surviving into the final result")
    MetricDirection.NO_DIRECTION
    "How much of the early disagreement remained in the final result."
    ["collapse to zero suggests herding; read with DH-05"] false None.

Definition dh_03 : MetricDefinition :=
  mkDefinition "dh-03" "1" MetricDimension.DISAGREEMENT
    "attack coverage"
    "claims with >= 1 ATTACKS edge / total claims"
    [_input "claims" "claim" ["id"]
         "claims eligible for attack during the session";
     _input "attack_edges" "claim_edge" ["target_claim_id"; "edge_kind"]
         "ATTACKS edges directed at claims"]
    (_interval (Some f0) (Some f1) None "ratio of claims to claims actually attacked")
    MetricDirection.HIGHER_BETTER
    "Share of claims that actually came under attack."
    ["the critic's own recall metric; a critic that attacks nothing fails its purpose"] false None.

Definition dh_04 : MetricDefinition :=
  mkDefinition "dh-04" "1" MetricDimension.DISAGREEMENT
    "critique resolution rate"
    "critiques in a resolved state / total critiques"
    [_input "critiques" "critique" ["id"; "state"; "resolution_warrant"]
         "critiques and their resolution states and warrants"]
    (_interval (Some f0) (Some f1) None "ratio of all critiques to those in a resolved state")
    MetricDirection.HIGHER_BETTER
    "Share of critiques that reached a resolved state."
    ["REJECT_WITH_JUSTIFICATION counts as resolved only with a warrant"] false None.

Definition dh_05 : MetricDefinition :=
  mkDefinition "dh-05" "1" MetricDimension.DISAGREEMENT
    "herding index"
    "share of round-1 positions that flip toward the majority with no new evidence edge"
    [_input "positions" "position" ["agent_id"; "proposition_id"; "round_index"; "position"]
         "round-1 positions eligible to flip";
     _input "evidence_edges" "claim_edge" ["source_claim_id"; "edge_kind"]
         "evidence edges that would justify a flip if new";
     _input "majority_flips" "position_change" ["from_value"; "to_value"; "majority_direction"; "new_evidence_edge"]
         "recorded flips toward the majority with their evidence attribution"]
    (_interval (Some f0) (Some f1) None "ratio of round-1 positions to unjustified majority flips")
    MetricDirection.LOWER_BETTER
    "Share of early positions that flipped toward the majority without new evidence."
    ["the most important anti-sycophancy signal"] false None.

Definition dh_06 : MetricDefinition :=
  mkDefinition "dh-06" "1" MetricDimension.DISAGREEMENT
    "revision quality"
    "flips accompanied by a RESPONDS_TO edge / all flips"
    [_input "position_flips" "position_change" ["from_value"; "to_value"]
         "all recorded position flips";
     _input "responds_to_edges" "claim_edge" ["source_claim_id"; "target_claim_id"; "edge_kind"]
         "RESPONDS_TO edges accompanying flips"]
    (_interval (Some f0) (Some f1) None "ratio of flips to those with an accompanying response edge")
    MetricDirection.HIGHER_BETTER
    "Share of position flips that were backed by an explicit response edge."
    ["distinguishes persuasion from capitulation"] false None.

Definition dh_07 : MetricDefinition :=
  mkDefinition "dh-07" "1" MetricDimension.DISAGREEMENT
    "minority report substance"
    "distinct warrants offered by dissenters"
    [_input "dissents" "dissent" ["warrant"; "agent_id"]
         "dissent records with their warrants"]
    (_interval (Some f1) None None "at least one distinct warrant when dissent exists")
    MetricDirection.NO_DIRECTION
    "Number of distinct warrants minority voices offered."
    ["descriptive; rendered verbatim"] false None.

(** ** Consensus quality *)

Definition cq_01 : MetricDefinition :=
  mkDefinition "cq-01" "1" MetricDimension.CONSENSUS
    "support margin"
    "top alternative support - runner-up support"
    [_input "alternatives" "alternative" ["id"]
         "alternatives in the terminal ranking";
     _input "support_scores" "alternative_score" ["alternative_id"; "support"]
         "final support scores per alternative"]
    (_interval (Some f0) None None "difference between the top and runner-up support scores")
    MetricDirection.HIGHER_BETTER
    "How much the leading alternative outranks the runner-up."
    ["meaningless when the outcome is PARETO_SET"] false None.

Definition cq_02 : MetricDefinition :=
  mkDefinition "cq-02" "1" MetricDimension.CONSENSUS
    "outcome class"
    "ConsensusResult.outcome"
    [_input "consensus_result" "consensus_result" ["id"; "outcome"]
         "the terminal consensus result and its outcome class"]
    (_enum "the declared outcome class, e.g. FULL_CONSENSUS")
    MetricDirection.NO_DIRECTION
    "The declared class of the consensus outcome."
    ["never reduced to a number"] false None.

Definition cq_03 : MetricDefinition :=
  mkDefinition "cq-03" "1" MetricDimension.CONSENSUS
    "flip distance"
    "smallest input perturbation that changes the ranking"
    [_input "input_perturbations" "sensitivity_sweep" ["magnitude"; "ranking_changed"]
         "recorded sensitivity sweeps over the inputs";
     _input "ranking_sensitivities" "ranking" ["run_id"; "ordering"]
         "rankings produced per perturbation magnitude"]
    (_interval (Some f0) None None "unbounded above; larger means a more robust ranking")
    MetricDirection.HIGHER_BETTER
    "How much the inputs would need to change before the ranking flips."
    ["computed by sensitivity sweep; the honesty metric of the ranking"] false None.

Definition cq_04 : MetricDefinition :=
  mkDefinition "cq-04" "1" MetricDimension.CONSENSUS
    "abstention rate"
    "ABSTAIN turns / expected turns"
    [_input "turns" "turn" ["agent_id"; "round_index"]
         "turns in which each agent was expected to participate";
     _input "votes" "turn_vote" ["turn_id"; "vote_kind"]
         "recorded votes, including explicit ABSTAIN"]
    (_interval (Some f0) (Some f1) None "ratio of expected turns to explicit abstentions")
    MetricDirection.NO_DIRECTION
    "Share of turns in which an agent abstained."
    ["high abstention with high consensus means an under-informed room"] false None.

Definition cq_05 : MetricDefinition :=
  mkDefinition "cq-05" "1" MetricDimension.CONSENSUS
    "blocking critique carry-over"
    "unresolved blocking critiques at terminal round"
    [_input "critiques" "critique" ["id"; "blocking"; "state"]
         "critiques marked blocking and their terminal states"]
    (_interval (Some f0) None None "non-negative count of unresolved blocking critiques")
    MetricDirection.LOWER_BETTER
    "Number of blocking critiques still unresolved at the end."
    ["each must appear in the explanation (FR-504)"] false None.

Definition cq_06 : MetricDefinition :=
  mkDefinition "cq-06" "1" MetricDimension.CONSENSUS
    "strategy divergence"
    "pairwise rank correlation across strategies run on the same inputs"
    [_input "strategy_runs" "consensus_run" ["strategy_name"; "inputs_hash"]
         "runs of distinct strategies over identical inputs";
     _input "rankings" "ranking" ["run_id"; "ordering"]
         "the ranking each strategy produced"]
    (_interval (Some fneg1) (Some f1) None "pairwise rank correlation, -1 to 1")
    MetricDirection.NO_DIRECTION
    "How much consensus strategies disagree on the same inputs."
    ["low correlation is a finding, not an error"] false None.

(** ** Robustness *)

Definition rb_01 : MetricDefinition :=
  mkDefinition "rb-01" "1" MetricDimension.ROBUSTNESS
    "ranking stability"
    "Kendall tau of the ranking across >= 3 seeds or replay modes"
    [_input "ranking_runs" "ranking_run" ["seed_or_mode"; "run_id"]
         "ranking runs across seeds or replay modes";
     _input "rankings" "ranking" ["run_id"; "ordering"]
         "the ranking produced per run"]
    (_interval (Some fneg1) (Some f1) None "mean pairwise Kendall tau, -1 to 1")
    MetricDirection.HIGHER_BETTER
    "How stable the ranking is across seeds or replay modes."
    ["requires the experiment harness"] false None.

Definition rb_02 : MetricDefinition :=
  mkDefinition "rb-02" "1" MetricDimension.ROBUSTNESS
    "assumption sensitivity"
    "share of the recommendation's support that depends on one assumption"
    [_input "support_provenance" "recommendation_support" ["assumption_id"; "support_share"]
         "the support attributed to each assumption";
     _input "assumptions" "assumption" ["id"]
         "assumptions the recommendation's support depends on"]
    (_interval (Some f0) (Some f1) None "share of support resting on a single assumption")
    MetricDirection.LOWER_BETTER
    "Share of the recommendation's support resting on one assumption."
    ["single-point-of-failure detector"] false None.

Definition rb_03 : MetricDefinition :=
  mkDefinition "rb-03" "1" MetricDimension.ROBUSTNESS
    "model divergence"
    "spread of simulated outcomes across engines"
    [_input "simulations" "simulation" ["engine_id"; "outcome_value"]
         "simulated outcomes per engine";
     _input "intervals" "simulation_interval" ["engine_id"; "interval_low"; "interval_high"]
         "the intervals each engine attached to its outcome"]
    (_interval (Some f0) None None "non-negative spread across engines in outcome units")
    MetricDirection.LOWER_BETTER
    "How far simulated outcomes diverge across engines."
    ["large spread with narrow intervals means over-confidence"] false None.

Definition rb_04 : MetricDefinition :=
  mkDefinition "rb-04" "1" MetricDimension.ROBUSTNESS
    "retrieval robustness"
    "share of cited chunks still retrieved under paraphrased queries"
    [_input "cited_chunks" "chunk" ["id"]
         "chunks cited by the session";
     _input "retrieval_reruns" "retrieval_evaluation" ["chunk_id"; "paraphrase_id"; "retrieved"]
         "paraphrased-query reruns of retrieval per cited chunk"]
    (_interval (Some f0) (Some f1) None "ratio of cited chunks to those still retrieved under paraphrase")
    MetricDirection.HIGHER_BETTER
    "Share of cited chunks still retrieved under paraphrased queries."
    ["proxy for recall without ground truth"] false None.

Definition rb_05 : MetricDefinition :=
  mkDefinition "rb-05" "1" MetricDimension.ROBUSTNESS
    "degraded-state frequency"
    "count of RAG_FAILED, provider outage and solver timeout events"
    [_input "infra_events" "infrastructure_event" ["event_kind"; "severity"]
         "degradation events of the documented kinds"]
    (_interval (Some f0) None None "non-negative count of degradation events")
    MetricDirection.LOWER_BETTER
    "How often the pipeline degraded mid-session."
    ["a session that never degraded was probably not stressed"] false None.

(** ** Cost and efficiency *)

Definition ce_01 : MetricDefinition :=
  mkDefinition "ce-01" "1" MetricDimension.COST
    "tokens per committed artifact"
    "total tokens / artifacts committed"
    [_input "token_usage" "llm_usage" ["request_id"; "input_tokens"; "output_tokens"]
         "token counts per LLM request of the session";
     _input "artifacts_committed" "reasoning_artifact" ["id"; "kind"]
         "artifacts actually committed during the session"]
    (_interval (Some f0) None None "mean tokens spent per committed artifact")
    MetricDirection.LOWER_BETTER
    "Average tokens spent per artifact actually committed."
    ["cheap artifacts are easy to produce; read with RR-01"] false None.

Definition ce_02 : MetricDefinition :=
  mkDefinition "ce-02" "1" MetricDimension.COST
    "rounds to terminal"
    "rounds consumed"
    [_input "session" "consensus_session" ["round_count"; "termination_reason"]
         "the session's round count and termination reason"]
    (_interval (Some f1) None None "rounds consumed, at least one")
    MetricDirection.NO_DIRECTION
    "How many rounds the session consumed."
    ["budget exhaustion is a termination reason, not efficiency"] false None.

Definition ce_03 : MetricDefinition :=
  mkDefinition "ce-03" "1" MetricDimension.COST
    "cost per session"
    "sum of provider cost estimates"
    [_input "provider_cost_estimates" "cost_estimate" ["provider"; "estimated_cost"]
         "provider cost estimates for the session"]
    (_interval (Some f0) None None "non-negative total estimated cost in currency units")
    MetricDirection.LOWER_BETTER
    "Total estimated cost of the session."
    ["compare only within a fixed configuration"] false None.

Definition ce_04 : MetricDefinition :=
  mkDefinition "ce-04" "1" MetricDimension.COST
    "p95 read latency"
    "API read latency excluding LLM time"
    [_input "api_latencies" "latency_sample" ["operation"; "latency_ms"; "includes_llm"]
         "read-operation latency samples excluding LLM time"]
    (_interval (Some f0) None (Some "ms") "95th percentile latency in milliseconds")
    MetricDirection.LOWER_BETTER
    "95th percentile read latency, excluding LLM time."
    ["NFR-007 target 300 ms"] false None.

Definition ce_05 : MetricDefinition :=
  mkDefinition "ce-05" "1" MetricDimension.COST
    "event delivery lag"
    "SSE delivery time - ledger commit time"
    [_input "sse_delivery" "delivery_sample" ["event_id"; "delivered_at"]
         "real-time delivery timestamps per event";
     _input "ledger_commits" "ledger_commit" ["event_id"; "committed_at"]
         "ledger commit timestamps per event"]
    (_interval (Some f0) None (Some "ms") "delivery minus commit lag in milliseconds")
    MetricDirection.LOWER_BETTER
    "Delay between a ledger commit and its delivery to the UI."
    ["NFR-007 target 1 s"] false None.

(** ** Human oversight *)

Definition ho_01 : MetricDefinition :=
  mkDefinition "ho-01" "1" MetricDimension.OVERSIGHT
    "intervention rate"
    "human events / total events"
    [_input "events" "session_event" ["id"; "actor"]
         "all session events with their actor attribution"]
    (_interval (Some f0) (Some f1) None "ratio of all events to human-produced events")
    MetricDirection.NO_DIRECTION
    "Share of events produced by a human."
    ["both extremes are worth explaining"] false None.

Definition ho_02 : MetricDefinition :=
  mkDefinition "ho-02" "1" MetricDimension.OVERSIGHT
    "override rate"
    "overridden recommendations / recommendations"
    [_input "recommendations" "recommendation" ["id"]
         "recommendations produced by the session";
     _input "overrides" "human_action" ["recommendation_id"; "action"]
         "human override actions over recommendations"]
    (_interval (Some f0) (Some f1) None "ratio of recommendations to those overridden by a human")
    MetricDirection.NO_DIRECTION
    "Share of recommendations a human overrode."
    ["every override stays visible downstream (FR-803)"] false None.

Definition ho_03 : MetricDefinition :=
  mkDefinition "ho-03" "1" MetricDimension.OVERSIGHT
    "explanation engagement"
    "drill-downs per recommendation view"
    [_input "drilldown_events" "ui_action" ["recommendation_id"; "action"]
         "explanation drill-down actions per recommendation";
     _input "recommendation_views" "ui_action" ["recommendation_id"; "action"]
         "recommendation view events"]
    (_interval (Some f0) None None "mean drill-downs per recommendation view")
    MetricDirection.NO_DIRECTION
    "Average number of explanation drill-downs per recommendation view."
    ["a usage signal, not a quality signal"] false None.

Definition ho_04 : MetricDefinition :=
  mkDefinition "ho-04" "1" MetricDimension.OVERSIGHT
    "unexamined acceptance"
    "recommendations accepted with zero provenance traversal"
    [_input "accepted_recommendations" "recommendation" ["id"; "accepted"]
         "recommendations accepted by a human";
     _input "provenance_traversals" "ui_action" ["recommendation_id"; "traversed"]
         "provenance traversal actions over recommendations"]
    (_interval (Some f0) (Some f1) None "ratio of accepted recommendations to those never examined")
    MetricDirection.LOWER_BETTER
    "Share of recommendations accepted without any provenance traversal."
    ["the rubber-stamp detector"] false None.

(** ** Calibration *)

Definition ca_01 : MetricDefinition :=
  mkDefinition "ca-01" "1" MetricDimension.CALIBRATION
    "calibration error"
    "mean signed gap between declared confidence and outcome frequency, per agent"
    [_input "calibration_gaps" "calibration_sample" ["agent_id"; "declared_confidence"; "outcome_frequency"]
         "per-agent pairs of declared confidence and observed outcome frequency"]
    (_interval (Some fneg1) (Some f1) None "mean signed gap, -1 to 1")
    MetricDirection.LOWER_BETTER
    "Signed gap between declared confidence and observed outcome frequency, per agent."
    ["needs checkable outcomes; NOT_APPLICABLE in most MVP sessions"] false None.

Definition ca_02 : MetricDefinition :=
  mkDefinition "ca-02" "1" MetricDimension.CALIBRATION
    "Brier score"
    "mean squared error between declared probability and realized outcome"
    [_input "probability_declarations" "probability_declaration" ["declared_probability"; "event_id"]
         "declared probabilities for checkable events";
     _input "realized_outcomes" "checkable_outcome" ["event_id"; "occurred"]
         "realized outcomes for the declared events"]
    (_interval (Some f0) (Some f2) None "mean squared probability error, 0 to 2")
    MetricDirection.LOWER_BETTER
    "Mean squared error between declared probabilities and realized outcomes."
    ["applies only where a genuine probability was declared, never to confidence (CF-2)"] false None.

Definition ca_03 : MetricDefinition :=
  mkDefinition "ca-03" "1" MetricDimension.CALIBRATION
    "overreach rate"
    "high-confidence claims with provenance_completeness = 0"
    [_input "high_confidence_claims" "claim" ["id"; "confidence"]
         "claims declared with high confidence";
     _input "provenance_completeness" "claim_provenance" ["claim_id"; "completeness"]
         "recorded provenance completeness per claim"]
    (_interval (Some f0) (Some f1) None "ratio of high-confidence claims to those without provenance")
    MetricDirection.LOWER_BETTER
    "Share of high-confidence claims having zero provenance."
    ["the practical MVP proxy for CA-01"] false None.

Definition _DEFINITIONS : list MetricDefinition :=
  [ep_01; ep_02; ep_03; ep_04; ep_05; ep_06;
   rr_01; rr_02; rr_03; rr_04; rr_05; rr_06; rr_07;
   dh_01; dh_02; dh_03; dh_04; dh_05; dh_06; dh_07;
   cq_01; cq_02; cq_03; cq_04; cq_05; cq_06;
   rb_01; rb_02; rb_03; rb_04; rb_05;
   ce_01; ce_02; ce_03; ce_04; ce_05;
   ho_01; ho_02; ho_03; ho_04;
   ca_01; ca_02; ca_03].

Definition build_metric_catalogue : res MetricCatalogue := new_catalogue _DEFINITIONS.

End MetricDefinitions.
