(* ===== verification/MetricFacts.v ===== *)
(** * Facts about metrics

    What the catalogue constructor accepts, what its lookups return, the
    partition of a profile by dimension, the JSON an input document may be, and
    what a metric value states; the shipped definitions are admissible. *)

From Stdlib Require Import Floats.SpecFloat.
From S2P Require Import Prelude.
From S2P Require Import PyDecimal.
From S2P Require Import Json.
From S2P Require Import Symbolic.
From S2P Require Import ConsensusPorts.
From S2P Require Import AgentRuntime.
From S2P Require Import Ledger.
From S2P Require Import Artifacts.
From S2P Require Import Metrics.
From S2P Require Import MetricDefinitions.
Import Metrics MetricDefinitions.

Local Open Scope Z_scope.

Module MetricFacts.

(** ** Grouping *)

(** Grouping a list by a key it is sorted by and joining the groups gives the list. *)
Section partition.
Context {A K : Type} `{EqDecision K} (key : A -> K) (le : K -> K -> bool).
Hypothesis le_antisym : forall a b, le a b = true -> le b a = true -> a = b.

Definition of_key (k : K) (l : list A) : list A := List.filter (fun x => bool_decide (key x = k)) l.

Lemma of_key_none k l : (forall x, x ∈ l -> key x <> k) -> of_key k l = [].
Proof.
  intros Hl. unfold of_key. induction l as [|x l IH]; [done|]. cbn. rewrite bool_decide_false by (apply Hl; left).
  apply IH. intros y Hy. apply Hl. by right.
Qed.

Lemma of_key_absent k x l : key x <> k -> of_key k (x :: l) = of_key k l.
Proof. intros Hn. unfold of_key. cbn. by rewrite bool_decide_false. Qed.

(** The keys of the rest, in order, without the first one. *)
Lemma groups_of_rest x l ks :
  StronglySorted (fun a b => le (key a) (key b) = true) (x :: l) ->
  concat (map (fun k => of_key k l) ks) = l -> ks = fromkeys (map key l) ->
  of_key (key x) l ++ concat (map (fun k => of_key k l) (List.filter (fun k => negb (bool_decide (k = key x))) ks)) = l.
Proof.
  intros Hs Hc Hks. apply StronglySorted_inv in Hs as [Hs Hx]. subst ks.
  destruct l as [|y l]; [done|]. cbn [map fromkeys] in *.
  destruct (decide (key y = key x)) as [He|Hne].
  - cbn [List.filter]. rewrite bool_decide_true by done. cbn [negb]. rewrite <- He.
    etrans; [|exact Hc]. cbn [map concat]. f_equal. f_equal. f_equal.
    apply filter_all, Forall_forall. intros k [_ Hk]%filter_elem. done.
  - rewrite of_key_none.
    + cbn [app List.filter]. rewrite bool_decide_false by done. cbn [negb]. etrans; [|exact Hc]. cbn [map concat]. f_equal. f_equal. f_equal.
      apply filter_all, Forall_forall. intros k [Hk _]%filter_elem. apply negb_true_iff, bool_decide_eq_false. intros ->.
      rewrite fromkeys_elem in Hk. apply list_elem_of_fmap in Hk as (z & Hz & Hin).
      apply Hne. apply le_antisym.
      * apply StronglySorted_inv in Hs as [_ Hs]. rewrite Hz. by eapply Forall_forall in Hs.
      * apply Forall_inv in Hx. done.
    + intros z Hz Hk. apply Hne. apply le_antisym; [|by apply Forall_inv in Hx].
      rewrite <- Hk. apply elem_of_cons in Hz as [->|Hz]; [rewrite Hk|].
      * exfalso. by apply Hne.
      * apply StronglySorted_inv in Hs as [_ Hs]. by eapply Forall_forall in Hs.
Qed.

Lemma groups_join l :
  StronglySorted (fun a b => le (key a) (key b) = true) l -> concat (map (fun k => of_key k l) (fromkeys (map key l))) = l.
Proof.
  induction l as [|x l IH]; intros Hs; [done|]. cbn [map fromkeys concat].
  pose proof (groups_of_rest x l (fromkeys (map key l)) Hs) as H.
  unfold of_key at 1. cbn [List.filter]. rewrite bool_decide_true by done. cbn [app]. f_equal.
  fold (of_key (key x) l).
  rewrite (map_ext_in _ (fun k => of_key k l)).
  - apply H; [|done]. apply IH. exact (proj1 (StronglySorted_inv Hs)).
  - intros k [_ Hk%negb_true_iff%bool_decide_eq_false]%filter_In. by apply of_key_absent.
Qed.

End partition.

(** ** The order of definitions *)

(** One component of a tuple, compared before the rest. *)
Lemma lex_total a b (p q : bool) :
  (p = true \/ q = true) ->
  (if negb (String.eqb a b) then String.leb a b else p) = true \/ (if negb (String.eqb b a) then String.leb b a else q) = true.
Proof. intros Hpq. rewrite (String.eqb_sym b a). destruct (String.eqb a b); cbn; [done|]. destruct (String.leb_total a b); auto. Qed.

Lemma lex_trans a b c (p q r : bool) :
  (p = true -> q = true -> r = true) ->
  (if negb (String.eqb a b) then String.leb a b else p) = true ->
  (if negb (String.eqb b c) then String.leb b c else q) = true ->
  (if negb (String.eqb a c) then String.leb a c else r) = true.
Proof.
  intros Hr. destruct (String.eqb_spec a b) as [Hab|Hab], (String.eqb_spec b c) as [Hbc|Hbc], (String.eqb_spec a c) as [Hac|Hac];
    cbn; subst; try done; auto.
  - intros H1 H2. exfalso. apply Hab. by apply String.leb_antisym.
  - intros H1 H2. by eapply string_leb_trans.
Qed.

Lemma definition_le_total a b : definition_le a b = true \/ definition_le b a = true.
Proof. unfold definition_le. apply lex_total, lex_total. by destruct (String.leb_total (md_metric_version a) (md_metric_version b)); auto. Qed.

Lemma definition_le_trans a b c : definition_le a b = true -> definition_le b c = true -> definition_le a c = true.
Proof. unfold definition_le. apply lex_trans, lex_trans, string_leb_trans. Qed.

Definition dimension_le (a b : MetricDimension.t) : bool := String.leb (value a) (value b).

Lemma definition_le_dimension a b : definition_le a b = true -> dimension_le (md_dimension a) (md_dimension b) = true.
Proof.
  unfold definition_le, dimension_le. destruct (String.eqb_spec (value (md_dimension a)) (value (md_dimension b))) as [->|]; [|done].
  intros _. by destruct (String.leb_total (value (md_dimension b)) (value (md_dimension b))).
Qed.

Lemma dimension_le_antisym a b : dimension_le a b = true -> dimension_le b a = true -> a = b.
Proof. intros H1 H2. apply value_inj. by apply String.leb_antisym. Qed.

(** ** Registration *)

Lemma register_Ok re d r :
  NoDup (map md_metric_id re) ->
  register (re, map md_metric_id re, map definition_key re) d = Ok r <->
  NoDup (map md_metric_id (re ++ [d])) /\ r = (re ++ [d], map md_metric_id (re ++ [d]), map definition_key (re ++ [d])).
Proof.
  intros Hn. unfold register. rewrite !guard_bind, !bool_decide_eq_false, !map_app. cbn [map].
  assert (Hd : NoDup (map md_metric_id re ++ [md_metric_id d]) <-> md_metric_id d ∉ map md_metric_id re).
  { rewrite NoDup_app. split; [intros (_ & H & _) Hin; apply (H _ Hin); by left|]. intros Hi. split; [done|].
    split; [|apply NoDup_singleton]. intros x Hx ->%list_elem_of_singleton. done. }
  rewrite Hd. split; [intros (Hi & _ & [= <-]); done|]. intros [Hi ->]. split; [done|]. split; [|done].
  intros (e & He & Hin)%list_elem_of_fmap. apply Hi. apply list_elem_of_fmap. exists e. split; [|done]. by injection He.
Qed.

Lemma register_all re l r :
  NoDup (map md_metric_id re) ->
  foldR register (re, map md_metric_id re, map definition_key re) l = Ok r <->
  NoDup (map md_metric_id (re ++ l)) /\ r = (re ++ l, map md_metric_id (re ++ l), map definition_key (re ++ l)).
Proof.
  revert re; induction l as [|d l IH]; intros re Hn.
  - cbn [foldR]. rewrite app_nil_r. split; [intros [= <-]; done|intros [_ ->]; done].
  - cbn [foldR]. rewrite bind_Ok. setoid_rewrite (register_Ok re d _ Hn).
    replace (re ++ d :: l) with ((re ++ [d]) ++ l) by (by rewrite <- app_assoc). split.
    + intros (s & [Hd ->] & Hl). by apply (IH (re ++ [d])) in Hl.
    + intros [Ha ->]. exists (re ++ [d], map md_metric_id (re ++ [d]), map definition_key (re ++ [d])).
      assert (Hd : NoDup (map md_metric_id (re ++ [d]))) by (rewrite map_app in Ha; by apply NoDup_app in Ha as [? _]).
      split; [done|]. by apply IH.
Qed.

Definition ordered (l : list MetricDefinition) : list MetricDefinition := sort_by definition_le l.

Lemma new_catalogue_Ok l c :
  new_catalogue l = Ok c <->
  l <> [] /\ NoDup (map md_metric_id l) /\
  c = mkCatalogue (ordered l) (dict_of_list (map (fun d => (definition_key d, d)) (ordered l))).
Proof.
  unfold new_catalogue. rewrite bind_Ok. setoid_rewrite (register_all [] l _ NoDup_nil_2). cbn [app]. split.
  - intros (r & [Hn ->] & H). apply guard_bind in H as [He%bool_decide_eq_false [= <-]]. done.
  - intros (He & Hn & ->). eexists. split; [split; [done|reflexivity]|]. cbn. by rewrite bool_decide_false.
Qed.

Lemma key_NoDup t : NoDup (map md_metric_id t) -> NoDup (map definition_key t).
Proof.
  induction t as [|d t IH]; cbn; [constructor|]. intros [Hd Ht]%NoDup_cons. apply NoDup_cons. split; [|by apply IH].
  intros (e & He & Hin)%list_elem_of_fmap. apply Hd, list_elem_of_fmap. exists e. split; [by injection He|done].
Qed.

Lemma dict_get_iff {K V} `{EqDecision K} (d : dict K V) k v : NoDup (map fst d) -> dict_get k d = Some v <-> (k, v) ∈ d.
Proof.
  intros Hn. split; [apply dict_get_elem|]. induction d as [|[k' v'] d IH]; cbn in *; [by intros ?%not_elem_of_nil|].
  apply NoDup_cons in Hn as [Hk Hn]. rewrite elem_of_cons. intros [[= -> ->]|Hin]; [by rewrite decide_True|].
  rewrite decide_False; [by apply IH|]. intros ->. apply Hk, list_elem_of_fmap. by exists (k', v).
Qed.

Section catalogue.
Context (l : list MetricDefinition) (c : MetricCatalogue).
Hypothesis Hc : new_catalogue l = Ok c.

Lemma all_ordered : all c = ordered l.
Proof using Hc. apply new_catalogue_Ok in Hc as (_ & _ & ->). done. Qed.

Lemma all_elem d : d ∈ all c <-> d ∈ l.
Proof using Hc. rewrite all_ordered. apply sort_by_elem. Qed.

Lemma all_ids : NoDup (map md_metric_id (all c)).
Proof using Hc.
  rewrite all_ordered. apply new_catalogue_Ok in Hc as (_ & Hn & _).
  rewrite (Permutation_map md_metric_id (sort_by_perm definition_le l)). exact Hn.
Qed.

Lemma index_get id version d :
  dict_get (id, version) (mc_index c) = Some d <-> d ∈ l /\ md_metric_id d = id /\ md_metric_version d = version.
Proof using Hc.
  pose proof all_ids as Hi. rewrite <- all_elem.
  apply new_catalogue_Ok in Hc as (_ & _ & ->). cbn [mc_index all mc_definitions] in *.
  assert (Hk : NoDup (map fst (map (fun d => (definition_key d, d)) (ordered l)))).
  { rewrite map_map. cbn [fst]. by apply key_NoDup. }
  rewrite (dict_of_list_nodup _ Hk), (dict_get_iff _ _ _ Hk), list_elem_of_fmap. split.
  - intros (x & [= Hid Hv ->] & Hx). split; [done|]. by split.
  - intros (Hx & <- & <-). by exists d.
Qed.

Lemma contains_iff id : contains c id = true <-> exists d, d ∈ l /\ md_metric_id d = id.
Proof using Hc.
  unfold contains. rewrite existsb_exists. change (mc_definitions c) with (all c). split.
  - intros (d & Hd%list_elem_of_In & He%String.eqb_eq). exists d. by rewrite <- all_elem.
  - intros (d & Hd & He). exists d. rewrite <- list_elem_of_In, all_elem. by rewrite String.eqb_eq.
Qed.

(** The answer of [get], on every branch. *)
Lemma get_spec id version :
  match get c id version with
  | Ok d => d ∈ l /\ md_metric_id d = id /\ md_metric_version d = version
  | Raise x =>
      (forall d, d ∈ l -> md_metric_id d = id -> md_metric_version d <> version) /\
      (exn_cls x = UnknownMetricIdC /\ (forall d, d ∈ l -> md_metric_id d <> id) \/
       exn_cls x = UnknownMetricVersionC /\ exists d, d ∈ l /\ md_metric_id d = id)
  end.
Proof using Hc.
  unfold get. destruct (contains c id) eqn:Hk; cbn [negb guard_not mbind res_bind raise].
  - apply contains_iff in Hk. destruct (dict_get (id, version) (mc_index c)) as [d|] eqn:Hd; cbn [res_of_option raise].
    + by apply index_get in Hd.
    + split; [|by right]. intros d Hl Hi Hv. rewrite (proj2 (index_get id version d)) in Hd; [done|]. done.
  - assert (Hno : forall d, d ∈ l -> md_metric_id d <> id).
    { intros d Hd He. rewrite (proj2 (contains_iff id)) in Hk; [done|]. by exists d. }
    split; [intros d Hd He; by destruct (Hno d Hd)|by left].
Qed.

Lemma dimensions_partition : concat (map (definitions_for c) (dimensions c)) = all c.
Proof using Hc.
  apply (groups_join md_dimension dimension_le dimension_le_antisym). change (mc_definitions c) with (all c). rewrite all_ordered.
  assert (Hs : StronglySorted (fun a b => definition_le a b = true) (ordered l))
    by (apply sort_by_sorted; [exact definition_le_total|exact definition_le_trans]).
  induction Hs as [|d t _ IH Hd]; constructor; [done|]. eapply Forall_impl; [exact Hd|]. apply definition_le_dimension.
Qed.

End catalogue.

(** C40. The catalogue of a list of definitions exists exactly when the list is
    not empty and no metric id occurs twice, whatever the versions.  It lists the
    definitions in the order of dimension, id and version; [get] returns the one
    definition of an id and version, and tells an unknown id from an unknown
    version; and the definitions of its dimensions, one after the other, are the
    whole catalogue. *)
Theorem catalogue_is_exact l :
  (is_ok (new_catalogue l) = true <-> l <> [] /\ NoDup (map md_metric_id l)) /\
  forall c, new_catalogue l = Ok c ->
    all c ≡ₚ l /\ StronglySorted (fun a b => definition_le a b = true) (all c) /\
    (forall id version,
       match get c id version with
       | Ok d => d ∈ l /\ md_metric_id d = id /\ md_metric_version d = version
       | Raise x =>
           (forall d, d ∈ l -> md_metric_id d = id -> md_metric_version d <> version) /\
           (exn_cls x = UnknownMetricIdC /\ (forall d, d ∈ l -> md_metric_id d <> id) \/
            exn_cls x = UnknownMetricVersionC /\ exists d, d ∈ l /\ md_metric_id d = id)
       end) /\
    NoDup (dimensions c) /\ concat (map (definitions_for c) (dimensions c)) = all c.
Proof.
  split.
  - split; [intros (c & H)%is_ok_exists; by apply new_catalogue_Ok in H as (H1 & H2 & _)|].
    intros [He Hn]. apply is_ok_exists. eexists. by apply new_catalogue_Ok.
  - intros c Hc. rewrite (all_ordered l c Hc). split; [apply sort_by_perm|].
    split; [apply sort_by_sorted; [exact definition_le_total|exact definition_le_trans]|].
    split; [intros id version; by apply get_spec|]. split; [apply fromkeys_NoDup|].
    rewrite <- (all_ordered l c Hc). by apply (dimensions_partition l).
Qed.

(** ** Input documents *)

(** How many containers enclose the deepest value. *)
Fixpoint nesting (v : json) : nat :=
  match v with
  | JList l => foldr (fun x n => Nat.max (S (nesting x)) n) 0%nat l
  | JObj l => foldr (fun kv n => Nat.max (S (nesting (snd kv))) n) 0%nat l
  | _ => 0%nat
  end.

Fixpoint finite_json (v : json) : bool :=
  match v with
  | JFloat r => finite_repr r
  | JList l => forallb finite_json l
  | JObj l => forallb (fun kv => finite_json (snd kv)) l
  | _ => true
  end.

Lemma nesting_below {A} (f : A -> nat) l n :
  (foldr (fun x m => Nat.max (S (f x)) m) 0 l <= n <-> forall x, x ∈ l -> S (f x) <= n)%nat.
Proof.
  induction l as [|x l IH]; cbn [foldr]; [split; [by intros _ x ?%not_elem_of_nil|lia]|].
  rewrite Nat.max_lub_iff, IH. split; [intros [H1 H2] y [->|Hy]%elem_of_cons; auto|].
  intros H. split; [apply H; by left|]. intros y Hy. apply H. by right.
Qed.

(** The members of a container, one level down. *)
Lemma closed_members {A} (f : A -> json) l n :
  (n <= 64)%nat ->
  Forall (fun x => forall m, (m <= 64)%nat ->
            closed_at (66 - m) (Z.of_nat m) (f x) = Ok tt <-> (nesting (f x) + m <= 64)%nat /\ finite_json (f x) = true) l ->
  foldR (fun _ x => closed_at (65 - n) (Z.of_nat n + 1) (f x)) tt l = Ok tt <->
  (foldr (fun x m => Nat.max (S (nesting (f x))) m) 0 l + n <= 64)%nat /\ forallb (fun x => finite_json (f x)) l = true.
Proof.
  intros Hn Hl. rewrite foldR_checks, Forall_forall, forallb_forall.
  assert (Hx : forall x, x ∈ l -> closed_at (65 - n) (Z.of_nat n + 1) (f x) = Ok tt <->
                         (S (nesting (f x)) <= 64 - n)%nat /\ finite_json (f x) = true).
  { intros x Hx. destruct (decide (n = 64%nat)) as [->|Hne]; [split; [done|intros [? _]; lia]|].
    replace (65 - n)%nat with (66 - S n)%nat by lia. replace (Z.of_nat n + 1) with (Z.of_nat (S n)) by lia.
    eapply Forall_forall in Hl; [|exact Hx]. rewrite (Hl (S n)) by lia. split; intros [H1 H2]; split; (lia || done). }
  assert (Hm : (foldr (fun x m => Nat.max (S (nesting (f x))) m) 0 l + n <= 64 <->
                foldr (fun x m => Nat.max (S (nesting (f x))) m) 0 l <= 64 - n)%nat) by lia.
  rewrite Hm, (nesting_below (fun x => nesting (f x))). split.
  - intros H. split; intros x Hin; [by apply Hx, H|]. apply list_elem_of_In in Hin. by apply Hx, H.
  - intros [H1 H2] x Hin. apply Hx; [done|]. split; [by apply H1|]. by apply H2, list_elem_of_In.
Qed.

(** On enough fuel the check looks at the whole value. *)
Lemma closed_at_iff n v :
  (n <= 64)%nat ->
  closed_at (66 - n) (Z.of_nat n) v = Ok tt <-> (nesting v + n <= 64)%nat /\ finite_json v = true.
Proof.
  revert n; induction v as [|b|z|r|s|l IH|l IH] using json_ind'; intros n Hn;
    (replace (66 - n)%nat with (S (65 - n)) by lia); cbn [closed_at]; rewrite (proj2 (Z.ltb_ge 64 (Z.of_nat n))) by lia;
    cbn [guard_not mbind res_bind nesting finite_json].
  1-3,5: split; [by split|done].
  - rewrite guard_not_Ok, negb_false_iff. split; [by split|by intros [_ ?]].
  - by apply (closed_members (fun x => x)).
  - by apply (closed_members snd).
Qed.

(** An input document is accepted exactly when no value lies under more than 64
    containers and every float is finite. *)
Lemma closed_json_iff v : _closed_json v = Ok tt <-> (nesting v <= 64)%nat /\ finite_json v = true.
Proof. unfold _closed_json. rewrite (closed_at_iff 0 v) by lia. by rewrite Nat.add_0_r. Qed.

(** ** Values *)

Definition scalar (v : json) : bool :=
  match v with JStr _ | JBool _ | JInt _ => true | JFloat r => finite_repr r | _ => false end.

(** A value says what was measured, or why nothing was. *)
Definition states (v : MetricValue) : Prop :=
  match mv_status v with
  | MetricValueStatus.NOT_APPLICABLE =>
      mv_value v = JNull /\ exists r, mv_not_applicable_reason v = Some r /\ blank r = false
  | MetricValueStatus.IMPLEMENTED => scalar (mv_value v) = true /\ mv_not_applicable_reason v = None
  end /\ crossed (mv_interval_low v) (mv_interval_high v) = false.

Lemma status_consistent_iff v : status_consistent v = Ok tt <-> states v.
Proof.
  unfold status_consistent, states. rewrite bind_Ok. setoid_rewrite guard_not_Ok. destruct (mv_status v).
  - setoid_rewrite guard_bind. setoid_rewrite guard_bind. setoid_rewrite bool_decide_eq_false. unfold _scalar. setoid_rewrite guard_not_Ok.
    split.
    + intros (_ & (Hn & Hr & Hs) & Hc). split; [|done]. split; [destruct (mv_value v); try done; by apply negb_false_iff|].
      by destruct (mv_not_applicable_reason v).
    + intros [[Hs Hr] Hc]. exists tt. split; [|done]. rewrite Hr. split; [by intros Hv; rewrite Hv in Hs|]. split; [done|].
      destruct (mv_value v); try done. cbn in Hs. by rewrite Hs.
  - setoid_rewrite guard_bind. setoid_rewrite negb_false_iff. setoid_rewrite bool_decide_eq_true. setoid_rewrite guard_not_Ok. split.
    + intros (_ & (Hv & Hr) & Hc). split; [|done]. split; [done|]. destruct (mv_not_applicable_reason v) as [r|]; [by exists r|done].
    + intros [(Hv & r & Hr & Hb) Hc]. exists tt. split; [|done]. by rewrite Hr.
Qed.

Lemma checked_Ok {A} model (m : res A) a : checked model m = Ok a <-> m = Ok a.
Proof. unfold checked. destruct m as [b|e]; [done|]. by destruct (bool_decide _). Qed.

(** What a metric value that validates carries. *)
Lemma new_value_Ok v w :
  new_value v = Ok w <->
  w = v /\ is_Some (metric_dim (mv_metric_id v)) /\ version_re (mv_metric_version v) = true /\ 0 <= mv_sample_size v /\
  digest_ok (mv_inputs_hash v) = true /\ version_re (mv_code_version v) = true /\
  (mv_computation_trace v <> [] /\ existsb blank (mv_computation_trace v) = false) /\ states v.
Proof.
  unfold new_value, _metric_id, _version, _digest. rewrite bind_Ok. setoid_rewrite validated_Ok. setoid_rewrite bind_Ok.
  setoid_rewrite checked_Ok. rewrite <- status_consistent_iff. split.
  - intros ([] & ([] & H1%guard_not_Ok & H) & [] & Hs & [= <-]). split; [done|].
    apply bind_Ok in H as ([] & H2%guard_not_Ok%negb_false_iff & H). apply bind_Ok in H as ([] & H3%guard_not_Ok%Z.ltb_ge & H).
    apply bind_Ok in H as ([] & H4%guard_not_Ok%negb_false_iff & H). apply bind_Ok in H as ([] & H5%guard_not_Ok%negb_false_iff & H).
    apply guard_not_Ok, orb_false_iff in H as [H6%bool_decide_eq_false H7].
    destruct (metric_dim (mv_metric_id v)); [|done]. done.
  - intros (-> & [d Hd] & H2 & H3 & H4 & H5 & [H6 H7] & Hs). exists tt. split; [|by exists tt]. exists tt. rewrite Hd. split; [done|].
    rewrite H2, H4, H5, H7, bool_decide_false, (proj2 (Z.ltb_ge _ _)) by done. done.
Qed.

(** ** The shipped definitions *)

(** Every shipped definition, with its inputs and its range, is what its own
    constructor returns, and the catalogue of all of them exists. *)
Theorem shipped_definitions_admissible :
  mapR new_definition _DEFINITIONS = Ok _DEFINITIONS /\
  Forall (fun d => mapR new_input (md_inputs d) = Ok (md_inputs d) /\ new_range (md_range d) = Ok (md_range d)) _DEFINITIONS /\
  is_ok build_metric_catalogue = true /\ length _DEFINITIONS = 43%nat.
Proof.
  split; [vm_compute; reflexivity|]. split; [|split; vm_compute; reflexivity].
  apply Forall_forall. intros d Hd. rewrite list_elem_of_In in Hd.
  assert (H : forallb (fun d => bool_decide (mapR new_input (md_inputs d) = Ok (md_inputs d)) &&
                                bool_decide (new_range (md_range d) = Ok (md_range d))) _DEFINITIONS = true) by (vm_compute; reflexivity).
  rewrite forallb_forall in H. apply H in Hd. by apply andb_true_iff in Hd as [?%bool_decide_eq_true ?%bool_decide_eq_true].
Qed.

(** A second version of a metric is refused as a duplicate id, so an id has one
    version in a catalogue; the test for a duplicate version never fails. *)
Example new_version_refused :
  let revised := mkDefinition "ep-01" "2" MetricDimension.EVIDENCE "coverage" "f" (md_inputs ep_01) (md_range ep_01)
                   MetricDirection.HIGHER_BETTER "i" ["c"] false None in
  new_definition revised = Ok revised /\
  new_catalogue [ep_01; revised] = raise MetricCatalogueErrorC "duplicate metric id: ep-01".
Proof. vm_compute. split; reflexivity. Qed.

(** The profile's dimensions are in the alphabetical order of their codes. *)
Example shipped_dimensions :
  dimensions <$> build_metric_catalogue =
    Ok [MetricDimension.CALIBRATION; MetricDimension.COST; MetricDimension.CONSENSUS; MetricDimension.DISAGREEMENT;
        MetricDimension.EVIDENCE; MetricDimension.OVERSIGHT; MetricDimension.ROBUSTNESS; MetricDimension.RIGOUR].
Proof. vm_compute. reflexivity. Qed.

End MetricFacts.
