(* ===== verification/SourceImpact.v ===== *)
(** * Source impact

    [app/domain/source_impact.py], [app/application/source_impact.py],
    [app/db/source_impact.py] and the retraction part of [app/db/citations.py]:
    what depends on a source, found by exhausting bounded forward traversals of
    the reasoning graph from every citation of it, and the retraction that is
    published with the report.  The tables hold the columns these operations
    read; ties of an [order_by] stay in insertion order. *)

From S2P Require Import Prelude.
From S2P Require Import PyDecimal.
From S2P Require Import Json.
From S2P Require Import Symbolic.
From S2P Require Import ConsensusPorts.
From S2P Require Import Ledger.
From S2P Require Import ReasoningGraph.
Import Graph.

Local Open Scope Z_scope.

Module Impact.

(** ** Values *)

Inductive ImpactDependencyType : Type := ARTIFACT | CONSENSUS_RESULT | RECOMMENDATION.
Inductive ImpactAnalysisStatus : Type := COMPLETE | INCOMPLETE.

#[global] Instance ImpactDependencyType_eq_dec : EqDecision ImpactDependencyType.
Proof. solve_decision. Defined.
#[global] Instance ImpactAnalysisStatus_eq_dec : EqDecision ImpactAnalysisStatus.
Proof. solve_decision. Defined.

Definition dependency_type_value (t : ImpactDependencyType) : string :=
  match t with ARTIFACT => "ARTIFACT" | CONSENSUS_RESULT => "CONSENSUS_RESULT" | RECOMMENDATION => "RECOMMENDATION" end.

Record ImpactDependency : Type := mkDependency {
  id_dependency_type : ImpactDependencyType;
  id_dependent_id : uuid;
  id_session_id : uuid;
  id_root_evidence_id : uuid;
  id_artifact_kind : option ArtifactKind;
  id_logical_id : option uuid;
  id_artifact_version : option Z;
  id_min_depth : Z;
  id_path_count : Z;
  id_evidence_weight : dec
}.

Record ImpactAnalysisResult : Type := mkAnalysis {
  ia_status : ImpactAnalysisStatus;
  ia_complete : bool;
  ia_truncated : bool;
  ia_dependencies : list ImpactDependency;
  ia_error : option string
}.

Record SourceImpactReport : Type := mkReport {
  sp_report_id : uuid;
  sp_retraction_id : uuid;
  sp_event_id : uuid;
  sp_workspace_id : uuid;
  sp_source_id : uuid;
  sp_actor_id : uuid;
  sp_reason : string;
  sp_generated_at : datetime;
  sp_analysis_status : ImpactAnalysisStatus;
  sp_complete : bool;
  sp_truncated : bool;
  sp_error : option string;
  sp_dependencies : list ImpactDependency
}.

(** [ImpactDependency.exact_artifact_snapshot] and the field constraints. *)
Definition exact_artifact_snapshot (d : ImpactDependency) : res unit :=
  let snapshot := [is_none (id_artifact_kind d); is_none (id_logical_id d); is_none (id_artifact_version d)] in
  _ ← guard_not (bool_decide (id_dependency_type d = ARTIFACT) && existsb id snapshot) ValueErrorC
        "artifact dependencies require kind, logical id, and version";
  guard_not (negb (bool_decide (id_dependency_type d = ARTIFACT)) && existsb negb snapshot) ValueErrorC
    "non-artifact dependencies cannot include an artifact snapshot".

Definition new_dependency (d : ImpactDependency) : res ImpactDependency :=
  validated "ImpactDependency"
    (_ ← guard_not (negb (match id_artifact_version d with Some v => 1 <=? v | None => true end
                          && (0 <=? id_min_depth d) && (1 <=? id_path_count d)
                          && dleb dzero (id_evidence_weight d))) ValueErrorC "field constraints";
     _ ← exact_artifact_snapshot d;
     Ok d).

(** [consistent_status], of a result and of a report. *)
Definition consistent_status (name : string) (status : ImpactAnalysisStatus) (complete truncated : bool)
    (error : option string) : res unit :=
  _ ← guard_not (negb (Bool.eqb complete (bool_decide (status = COMPLETE)))) ValueErrorC
        "complete must match analysis status";
  _ ← guard_not (Bool.eqb truncated complete) ValueErrorC "truncated must be the inverse of complete";
  guard_not (complete && is_some error) ValueErrorC ("complete " +:+ name +:+ " cannot include an error").

Definition new_analysis (a : ImpactAnalysisResult) : res ImpactAnalysisResult :=
  validated "ImpactAnalysisResult"
    (_ ← consistent_status "analysis" (ia_status a) (ia_complete a) (ia_truncated a) (ia_error a); Ok a).

Definition new_report (r : SourceImpactReport) : res SourceImpactReport :=
  validated "SourceImpactReport"
    (_ ← guard_not (negb (filled (sp_reason r))) ValueErrorC "reason";
     t ← _aware_utc (sp_generated_at r);
     _ ← consistent_status "report" (sp_analysis_status r) (sp_complete r) (sp_truncated r) (sp_error r);
     Ok (mkReport (sp_report_id r) (sp_retraction_id r) (sp_event_id r) (sp_workspace_id r) (sp_source_id r)
           (sp_actor_id r) (sp_reason r) t (sp_analysis_status r) (sp_complete r) (sp_truncated r) (sp_error r)
           (sp_dependencies r))).

Definition affected (p : ImpactDependency -> bool) (r : SourceImpactReport) : list uuid :=
  fromkeys (map id_dependent_id (List.filter p (sp_dependencies r))).
Definition of_type (t : ImpactDependencyType) (d : ImpactDependency) : bool := bool_decide (id_dependency_type d = t).

Definition affected_claim_ids : SourceImpactReport -> list uuid :=
  affected (fun d => of_type ARTIFACT d && bool_decide (id_artifact_kind d = Some CLAIM)).
Definition affected_alternative_ids : SourceImpactReport -> list uuid :=
  affected (fun d => of_type ARTIFACT d && bool_decide (id_artifact_kind d = Some ALTERNATIVE)).
Definition affected_consensus_result_ids : SourceImpactReport -> list uuid := affected (of_type CONSENSUS_RESULT).
Definition affected_recommendation_ids : SourceImpactReport -> list uuid := affected (of_type RECOMMENDATION).

Record SourceRetractionCommand : Type := mkRetract {
  rc_retraction_id : uuid;
  rc_workspace_id : uuid;
  rc_source_id : uuid;
  rc_actor_id : uuid;
  rc_reason : string;
  rc_retracted_at : datetime
}.

Record SourceRetraction : Type := mkRetraction {
  rt_retraction_id : uuid;
  rt_workspace_id : uuid;
  rt_source_id : uuid;
  rt_actor_id : uuid;
  rt_reason : string;
  rt_retracted_at : datetime;
  rt_dependent_evidence_ids : list uuid;
  rt_dependent_claim_ids : list uuid
}.

Definition new_retract (c : SourceRetractionCommand) : res SourceRetractionCommand :=
  validated "SourceRetractionCommand"
    (_ ← guard_not (negb (filled (rc_reason c)) || blank (rc_reason c)) ValueErrorC "value must not be blank";
     t ← _aware_utc (rc_retracted_at c);
     Ok (mkRetract (rc_retraction_id c) (rc_workspace_id c) (rc_source_id c) (rc_actor_id c) (rc_reason c) t)).

(** ** Tables *)

(** A source row: retracted when and why, if it is. *)
Record source_row : Type := mkSource { so_workspace_id : uuid; so_id : uuid; so_retracted : option (datetime * string) }.

Record citation_row : Type := mkCitation {
  ec_id : uuid;
  ec_workspace_id : uuid;
  ec_session_id : uuid;
  ec_evidence_artifact_id : uuid;
  ec_claim_artifact_id : uuid;
  ec_source_id : uuid;
  ec_attached_at : datetime
}.

Record artifact_row : Type := mkArtifact {
  ra_id : uuid;
  ra_workspace_id : uuid;
  ra_session_id : uuid;
  ra_kind : ArtifactKind;
  ra_logical_id : uuid;
  ra_version : Z
}.

Record consensus_row : Type := mkConsensus {
  cr_id : uuid;
  cr_workspace_id : uuid;
  cr_session_id : uuid;
  cr_selected_alternative_id : option uuid;
  cr_pareto_set : list uuid
}.

Record recommendation_row : Type := mkRecommendation {
  rr_id : uuid;
  rr_workspace_id : uuid;
  rr_session_id : uuid;
  rr_consensus_id : uuid
}.

Record outbox_row : Type := mkOutbox {
  ob_id : uuid;
  ob_workspace_id : uuid;
  ob_event_type : string;
  ob_correlation_id : uuid;
  ob_actor_id : uuid;
  ob_payload : SourceImpactReport;
  ob_recorded_at : datetime
}.

Record impact_db : Type := mkImpactDb {
  db_graph : graph;
  db_sources : list source_row;
  db_citations : list citation_row;
  db_artifacts : list artifact_row;
  db_consensus : list consensus_row;
  db_recommendations : list recommendation_row;
  db_active_members : list (uuid * uuid);
  db_retractions : list SourceRetractionCommand;
  db_reports : list SourceImpactReport;
  db_dependencies : list (uuid * uuid * ImpactDependency);
  db_outbox : list outbox_row
}.

(** [str(a) <= str(b)] *)
Definition str_leb (a b : uuid) : bool := String.leb (uuid_str a) (uuid_str b).

(** Lexicographic comparison: [lex same first rest]. *)
Definition lex (same first rest : bool) : bool := if same then rest else first.

(** ** Repository: analysis *)

Definition is_source (workspace_id source_id : uuid) (s : source_row) : bool :=
  bool_decide (so_workspace_id s = workspace_id) && bool_decide (so_id s = source_id).

Definition lock_source_for_analysis (workspace_id source_id : uuid) (w : impact_db) : res unit :=
  guard_not (negb (existsb (fun s => is_source workspace_id source_id s && is_none (so_retracted s)) (db_sources w)))
    CitationErrorC "source does not exist or is already retracted".

(** [SqlAlchemyCitationRepository.dependencies] *)
Definition citation_before (a b : citation_row) : bool :=
  lex (dt_utc (ec_attached_at a) =? dt_utc (ec_attached_at b)) (dt_utc (ec_attached_at a) <? dt_utc (ec_attached_at b))
    (ec_id a <=? ec_id b)%N.
Definition citation_roots (workspace_id source_id : uuid) (w : impact_db) : list citation_row :=
  sort_by citation_before
    (List.filter (fun c => bool_decide (ec_workspace_id c = workspace_id) && bool_decide (ec_source_id c = source_id))
       (db_citations w)).

(** A reached artifact: its node, root evidence, depth and number of paths. *)
Definition reached : Type := GraphNode * uuid * Z * Z.

Definition artifact_dependencies (workspace_id : uuid) (l : list reached) (w : impact_db) : res (list ImpactDependency) :=
  let metrics := dict_of_list (map (fun '(n, root, depth, paths) => ((gn_ref_id n, root), (depth, paths))) l) in
  let artifacts := index_by ra_id (List.filter (fun a => bool_decide (ra_workspace_id a = workspace_id)) (db_artifacts w)) in
  mapR new_dependency
    (omap (fun '((artifact_id, root), (depth, paths)) =>
             a ← artifacts !! artifact_id;
             Some (mkDependency ARTIFACT artifact_id (ra_session_id a) root (Some (ra_kind a)) (Some (ra_logical_id a))
                     (Some (ra_version a)) depth paths dunit))
       (sort_by (fun a b => lex (a.2.1 =? b.2.1) (a.2.1 <? b.2.1)
                              (lex (bool_decide (a.1.1 = b.1.1)) (str_leb a.1.1 b.1.1) (str_leb a.1.2 b.1.2))) metrics)).

(** The rows of the [UNION ALL]: type, id, session, alternatives. *)
Definition alternatives_of (c : consensus_row) : list uuid := cr_pareto_set c ++ option_list (cr_selected_alternative_id c).
Definition uses (ids : list uuid) (c : consensus_row) : bool :=
  existsb (fun a => bool_decide (a ∈ ids)) (alternatives_of c).

Definition consensus_part (workspace_id : uuid) (ids : list uuid) (w : impact_db)
    : list (ImpactDependencyType * uuid * uuid * list uuid) :=
  map (fun c => (CONSENSUS_RESULT, cr_id c, cr_session_id c, alternatives_of c))
    (List.filter (fun c => bool_decide (cr_workspace_id c = workspace_id) && uses ids c) (db_consensus w)).

Definition recommendation_part (workspace_id : uuid) (ids : list uuid) (w : impact_db)
    : list (ImpactDependencyType * uuid * uuid * list uuid) :=
  flat_map (fun r =>
    map (fun c => (RECOMMENDATION, rr_id r, rr_session_id r, alternatives_of c))
      (List.filter (fun c => bool_decide (cr_workspace_id c = rr_workspace_id r) && bool_decide (cr_id c = rr_consensus_id r)
                             && uses ids c) (db_consensus w)))
    (List.filter (fun r => bool_decide (rr_workspace_id r = workspace_id)) (db_recommendations w)).

(** [(min depth, paths, weight)] merged into an entry. *)
Definition measure : Type := Z * Z * dec.
Definition merge_measure (old : option measure) (m : measure) : measure :=
  match old with
  | None => m
  | Some (depth, paths, weight) => (Z.min depth m.1.1, paths + m.1.2, dadd weight m.2)
  end.

Definition metrics_of (artifacts : list ImpactDependency) : dict (uuid * uuid) measure :=
  foldl (fun d a =>
           let key := (id_dependent_id a, id_root_evidence_id a) in
           dict_set key (merge_measure (dict_get key d) (id_min_depth a, id_path_count a, id_evidence_weight a)) d)
    [] artifacts.

Definition downstream_key : Type := ImpactDependencyType * uuid * uuid.

Definition count_row (metrics : dict (uuid * uuid) measure)
    (d : dict downstream_key (uuid * measure)) (row : ImpactDependencyType * uuid * uuid * list uuid)
    : dict downstream_key (uuid * measure) :=
  let '(t, dependent, session_id, ids) := row in
  let increment := if bool_decide (t = CONSENSUS_RESULT) then 1 else 2 in
  foldl (fun d '((artifact_id, root), (depth, paths, weight)) =>
           if bool_decide (artifact_id ∈ ids) then
             let key := (t, dependent, root) in
             dict_set key (session_id, merge_measure (snd <$> dict_get key d) (depth + increment, paths, weight)) d
           else d) d metrics.

Definition downstream_before (a b : downstream_key * (uuid * measure)) : bool :=
  let '((ta, ia, ra), (_, (da, _, _))) := a in
  let '((tb, ib, rb), (_, (db, _, _))) := b in
  lex (bool_decide (ta = tb)) (String.leb (dependency_type_value ta) (dependency_type_value tb))
    (lex (da =? db) (da <? db) (lex (bool_decide (ia = ib)) (str_leb ia ib) (str_leb ra rb))).

Definition row_before (a b : ImpactDependencyType * uuid * uuid * list uuid) : bool :=
  lex (bool_decide (a.1.1.1 = b.1.1.1)) (String.leb (dependency_type_value a.1.1.1) (dependency_type_value b.1.1.1))
    (a.1.1.2 <=? b.1.1.2)%N.

Definition downstream_records (workspace_id : uuid) (artifacts : list ImpactDependency) (w : impact_db)
    : res (list ImpactDependency) :=
  match artifacts with
  | [] => Ok []
  | _ =>
      let metrics := metrics_of artifacts in
      let ids := map (fun kv => kv.1.1) metrics in
      let rows := sort_by row_before (consensus_part workspace_id ids w ++ recommendation_part workspace_id ids w) in
      mapR new_dependency
        (map (fun '((t, dependent, root), (session_id, (depth, paths, weight))) =>
                mkDependency t dependent session_id root None None None depth paths weight)
           (sort_by downstream_before (foldl (count_row metrics) [] rows)))
  end.

(** ** Depth and paths *)

(** [adjacency[node]] *)
Definition children (edges : list GraphEdge) (node : uuid) : list uuid :=
  map ge_to_node (List.filter (fun e => bool_decide (ge_from_node e = node)) edges).

(** The loop over the children: the answer, or the queue and the visited set. *)
Fixpoint scan_children (target : uuid) (depth : Z) (l : list uuid) (queue : list (uuid * Z)) (visited : list uuid)
    : Z + (list (uuid * Z) * list uuid) :=
  match l with
  | [] => inr (queue, visited)
  | child :: l' =>
      if bool_decide (child = target) then inl (depth + 1)
      else if bool_decide (child ∈ visited) then scan_children target depth l' queue visited
      else scan_children target depth l' (queue ++ [(child, depth + 1)]) (child :: visited)
  end.

Fixpoint bfs (fuel : nat) (target : uuid) (edges : list GraphEdge) (queue : list (uuid * Z)) (visited : list uuid)
    : res Z :=
  match queue with
  | [] => Ok DEFAULT_MAX_DEPTH
  | (node, depth) :: rest =>
      match fuel with
      | O => raise RuntimeErrorC "out of fuel"
      | S fuel' =>
          match scan_children target depth (children edges node) rest visited with
          | inl d => Ok d
          | inr (queue', visited') => bfs fuel' target edges queue' visited'
          end
      end
  end.

(** [_shortest_depth]; every queued node but the root ends an edge. *)
Definition _shortest_depth (root target : uuid) (edges : list GraphEdge) : res Z :=
  if bool_decide (root = target) then Ok 0
  else bfs (S (length edges)) target edges [(root, 0)] [root].

(** At most [2 ^ k] iterations of a loop that may end earlier. *)
Fixpoint iterate {S R : Type} (k : nat) (step : S -> S + R) (s : S) : S + R :=
  match k with
  | O => step s
  | Datatypes.S k' => match iterate k' step s with inl s' => iterate k' step s' | inr r => inr r end
  end.

(** One child: a path to the target, a node to go on from, or a node on the path. *)
Definition push_child (target : uuid) (visited : list uuid) (acc : Z * list (uuid * list uuid)) (child : uuid)
    : Z * list (uuid * list uuid) :=
  if bool_decide (child = target) then (acc.1 + 1, acc.2)
  else if bool_decide (child ∈ visited) then acc
  else (acc.1, (child, child :: visited) :: acc.2).

(** One iteration of [_path_count]; the stack's top is its head. *)
Definition count_step (target : uuid) (edges : list GraphEdge) (s : Z * list (uuid * list uuid))
    : (Z * list (uuid * list uuid)) + Z :=
  match s.2 with
  | [] => inr s.1
  | (node, visited) :: stack => inl (foldl (push_child target visited) (s.1, stack) (children edges node))
  end.

Definition count_bits (edges : list GraphEdge) : nat := S (length edges * S (Nat.log2 (S (length edges)))).

Definition _path_count (root target : uuid) (edges : list GraphEdge) : res Z :=
  if bool_decide (root = target) then Ok 1
  else match iterate (count_bits edges) (count_step target edges) (0, [(root, [root])]) with
       | inr count => Ok (Z.max 1 count)
       | inl _ => raise RuntimeErrorC "out of fuel"
       end.

(** ** [SourceImpactService.impact_of] *)

(** [d.update((x.id, x) for x in l)] *)
Definition update_by {A} (key : A -> uuid) (d : dict uuid A) (l : list A) : dict uuid A :=
  foldl (fun d x => dict_set (key x) x d) d l.

Record segment : Type := mkSegment {
  sg_nodes : dict uuid GraphNode;
  sg_edges : dict uuid GraphEdge;
  sg_truncated : bool
}.

Definition add_page (s : segment) (page : TraversalResult) : segment :=
  mkSegment (update_by gn_id (sg_nodes s) (tv_nodes page)) (update_by ge_id (sg_edges s) (tv_edges page))
    (sg_truncated s || tv_truncated page).

(** The traversals of one root: frontiers to expand, what was expanded and found. *)
Record search : Type := mkSearch {
  se_queue : list GraphNode;
  se_expanded : list uuid;
  se_nodes : dict uuid GraphNode;
  se_edges : dict uuid GraphEdge;
  se_truncated : bool
}.

Section service.
Variable decode_other : list ascii -> res string.

Definition forward_query (workspace_id session_id node_id : uuid) : query :=
  mkQuery Forward workspace_id session_id [node_id] DEFAULT_MAX_DEPTH None.

(** All pages of one bounded traversal. *)
Definition read_segment (workspace_id session_id node_id : uuid) (g : graph) : res segment :=
  let q := forward_query workspace_id session_id node_id in
  follow decode_other add_page (S (Z.to_nat (member_count q g))) q MAX_ALLOWED_DEPTH MAX_PAGE_SIZE None g
    (mkSegment [] [] false).

Definition id_before (a b : GraphNode) : bool := str_leb (gn_id a) (gn_id b).

Definition take_segment (s : search) (rest : list GraphNode) (expanded : list uuid) (seg : segment) : search :=
  let nodes := map snd (sg_nodes seg) in
  let continuation := List.filter (fun n => negb (bool_decide (gn_id n ∈ expanded))) nodes in
  mkSearch (if sg_truncated seg then rest ++ sort_by id_before continuation else rest) expanded
    (update_by gn_id (se_nodes s) nodes) (update_by ge_id (se_edges s) (map snd (sg_edges seg)))
    (se_truncated s || (sg_truncated seg && bool_decide (continuation = []))).

Fixpoint expand (fuel : nat) (workspace_id session_id : uuid) (g : graph) (s : search) : res search :=
  match se_queue s with
  | [] => Ok s
  | frontier :: rest =>
      match fuel with
      | O => raise RuntimeErrorC "out of fuel"
      | S fuel' =>
          if bool_decide (gn_id frontier ∈ se_expanded s)
          then expand fuel' workspace_id session_id g
                 (mkSearch rest (se_expanded s) (se_nodes s) (se_edges s) (se_truncated s))
          else
            seg ← read_segment workspace_id session_id (gn_id frontier) g;
            expand fuel' workspace_id session_id g (take_segment s rest (gn_id frontier :: se_expanded s) seg)
      end
  end.

(** A frontier is expanded once and adds at most every node: enough fuel. *)
Definition search_fuel (g : graph) : nat := S (length (gd_nodes g) * length (gd_nodes g)).

Definition search_root (workspace_id session_id : uuid) (root : GraphNode) (g : graph) : res search :=
  expand (search_fuel g) workspace_id session_id g (mkSearch [root] [] [] [] false).

(** [aggregate[(ref_id, session_id, evidence)] = (node, evidence, depth, paths)] *)
Definition aggregate_node (root : GraphNode) (edges : list GraphEdge) (evidence_id : uuid)
    (d : dict (uuid * uuid * uuid) reached) (n : GraphNode) : res (dict (uuid * uuid * uuid) reached) :=
  depth ← _shortest_depth (gn_id root) (gn_id n) edges;
  paths ← _path_count (gn_id root) (gn_id n) edges;
  Ok (dict_set (gn_ref_id n, gn_session_id n, evidence_id) (n, evidence_id, depth, paths) d).

Definition analyse_root (workspace_id : uuid) (w : impact_db)
    (acc : dict (uuid * uuid * uuid) reached * bool) (r : uuid * uuid)
    : res (dict (uuid * uuid * uuid) reached * bool) :=
  let '(session_id, evidence_id) := r in
  match node_for_artifact workspace_id session_id evidence_id (db_graph w) with
  | None => Ok (acc.1, true)
  | Some root =>
      s ← search_root workspace_id session_id root (db_graph w);
      d ← foldR (aggregate_node root (map snd (se_edges s)) evidence_id) acc.1 (map snd (se_nodes s));
      Ok (d, acc.2 || se_truncated s)
  end.

Definition root_before (a b : uuid * uuid) : bool :=
  lex (bool_decide (a.1 = b.1)) (str_leb a.1 b.1) (str_leb a.2 b.2).

Definition roots_of (citations : list citation_row) : list (uuid * uuid) :=
  sort_by root_before (remove_dups (map (fun c => (ec_session_id c, ec_evidence_artifact_id c)) citations)).

Definition reached_before (a b : reached) : bool :=
  let '(na, ea, da, _) := a in
  let '(nb, eb, db, _) := b in
  lex (da =? db) (da <? db) (lex (bool_decide (gn_ref_id na = gn_ref_id nb)) (str_leb (gn_ref_id na) (gn_ref_id nb)) (str_leb ea eb)).

(** [_dependency_key] *)
Definition dependency_before (a b : ImpactDependency) : bool :=
  lex (bool_decide (id_dependency_type a = id_dependency_type b))
    (String.leb (dependency_type_value (id_dependency_type a)) (dependency_type_value (id_dependency_type b)))
    (lex (id_min_depth a =? id_min_depth b) (id_min_depth a <? id_min_depth b)
       (str_leb (id_dependent_id a) (id_dependent_id b))).

(** The body of the [try]. *)
Definition analyse (workspace_id source_id : uuid) (w : impact_db) : res (list ImpactDependency * bool) :=
  '(aggregate, truncated) ← foldR (analyse_root workspace_id w) ([], false) (roots_of (citation_roots workspace_id source_id w));
  artifacts ← artifact_dependencies workspace_id (sort_by reached_before (map snd aggregate)) w;
  downstream ← downstream_records workspace_id artifacts w;
  Ok (sort_by dependency_before (artifacts ++ downstream),
      truncated || negb (Nat.eqb (length artifacts) (length aggregate))).

Definition impact_of (workspace_id source_id : uuid) (w : impact_db) : res ImpactAnalysisResult :=
  _ ← lock_source_for_analysis workspace_id source_id w;
  match analyse workspace_id source_id w with
  | Raise x => new_analysis (mkAnalysis INCOMPLETE false true [] (Some (exn_msg x)))
  | Ok (dependencies, truncated) =>
      new_analysis (mkAnalysis (if truncated then INCOMPLETE else COMPLETE) (negb truncated) truncated dependencies None)
  end.

(** ** Retraction *)

Definition with_retraction (w : impact_db) sources retractions reports dependencies outbox : impact_db :=
  mkImpactDb (db_graph w) sources (db_citations w) (db_artifacts w) (db_consensus w) (db_recommendations w)
    (db_active_members w) retractions reports dependencies outbox.

Definition sorted_by_str (l : list uuid) : list uuid := sort_by str_leb (remove_dups l).

(** [SqlAlchemyCitationRepository.retract_source] *)
Definition retract_row (c : SourceRetractionCommand) (s : source_row) : source_row :=
  if is_source (rc_workspace_id c) (rc_source_id c) s && is_none (so_retracted s)
  then mkSource (so_workspace_id s) (so_id s) (Some (rc_retracted_at c, rc_reason c)) else s.

Definition retract_citations (c : SourceRetractionCommand) : ST impact_db SourceRetraction :=
  w ← get_st;
  _ ← lift_res (guard_not (negb (existsb (fun s => is_source (rc_workspace_id c) (rc_source_id c) s && is_none (so_retracted s))
                                   (db_sources w)
                                 && bool_decide ((rc_workspace_id c, rc_actor_id c) ∈ db_active_members w)))
                  CitationErrorC "source does not exist, actor is invalid, or source is already retracted");
  _ ← lift_res (guard_not (existsb (fun r => bool_decide (rc_retraction_id r = rc_retraction_id c)) (db_retractions w))
                  IntegrityErrorC "source_retractions");
  _ ← put_st (with_retraction w (map (retract_row c) (db_sources w)) (db_retractions w ++ [c]) (db_reports w)
                (db_dependencies w) (db_outbox w));
  let citations := citation_roots (rc_workspace_id c) (rc_source_id c) w in
  mret (mkRetraction (rc_retraction_id c) (rc_workspace_id c) (rc_source_id c) (rc_actor_id c) (rc_reason c)
          (rc_retracted_at c) (sorted_by_str (map ec_evidence_artifact_id citations))
          (sorted_by_str (map ec_claim_artifact_id citations))).

Definition find_report (p : SourceImpactReport -> bool) (w : impact_db) : option SourceImpactReport :=
  List.find p (db_reports w).

Definition dependency_row_before (a b : ImpactDependency) : bool :=
  lex (bool_decide (id_dependency_type a = id_dependency_type b))
    (String.leb (dependency_type_value (id_dependency_type a)) (dependency_type_value (id_dependency_type b)))
    (lex (id_min_depth a =? id_min_depth b) (id_min_depth a <? id_min_depth b)
       (id_dependent_id a <=? id_dependent_id b)%N).

Definition dependency_rows (workspace_id report_id : uuid) (w : impact_db) : list ImpactDependency :=
  sort_by dependency_row_before
    (map snd (List.filter (fun '(ws, r, _) => bool_decide (ws = workspace_id) && bool_decide (r = report_id))
                (db_dependencies w))).

Definition with_dependencies (r : SourceImpactReport) (l : list ImpactDependency) : SourceImpactReport :=
  mkReport (sp_report_id r) (sp_retraction_id r) (sp_event_id r) (sp_workspace_id r) (sp_source_id r) (sp_actor_id r)
    (sp_reason r) (sp_generated_at r) (sp_analysis_status r) (sp_complete r) (sp_truncated r) (sp_error r) l.

(** [get_report]; the rows of [impact_reports] hold no dependencies. *)
Definition get_report (workspace_id report_id : uuid) (w : impact_db) : res (option SourceImpactReport) :=
  match find_report (fun r => bool_decide (sp_workspace_id r = workspace_id) && bool_decide (sp_report_id r = report_id)) w with
  | None => Ok None
  | Some row =>
      dependencies ← mapR new_dependency (dependency_rows workspace_id report_id w);
      Some <$> new_report (with_dependencies row dependencies)
  end.

Definition report_of (c : SourceRetractionCommand) (report_id event_id : uuid) (a : ImpactAnalysisResult)
    (dependencies : list ImpactDependency) : SourceImpactReport :=
  mkReport report_id (rc_retraction_id c) event_id (rc_workspace_id c) (rc_source_id c) (rc_actor_id c) (rc_reason c)
    (rc_retracted_at c) (ia_status a) (ia_complete a) (ia_truncated a) (ia_error a) dependencies.

(** The unique constraints of [impact_reports]. *)
Definition report_conflict (r s : SourceImpactReport) : bool :=
  bool_decide (sp_report_id s = sp_report_id r)
  || (bool_decide (sp_workspace_id s = sp_workspace_id r)
      && (bool_decide (sp_source_id s = sp_source_id r) || bool_decide (sp_retraction_id s = sp_retraction_id r)
          || bool_decide (sp_event_id s = sp_event_id r))).

Definition dependency_key (d : ImpactDependency) : ImpactDependencyType * uuid * uuid :=
  (id_dependency_type d, id_dependent_id d, id_root_evidence_id d).

Definition retract_and_report (c : SourceRetractionCommand) (report_id event_id correlation_id : uuid)
    (analysis : ImpactAnalysisResult) : ST impact_db SourceImpactReport :=
  w ← get_st;
  match find_report (fun r => bool_decide (sp_workspace_id r = rc_workspace_id c)
                              && bool_decide (sp_source_id r = rc_source_id c)) w with
  | Some existing =>
      _ ← lift_res (guard_not (negb (bool_decide (sp_actor_id existing = rc_actor_id c))
                               || negb (String.eqb (sp_reason existing) (rc_reason c)))
                      CitationErrorC "source was already retracted with different command content");
      report ← lift_res (get_report (rc_workspace_id c) (sp_report_id existing) w);
      lift_res (res_of_option AssertionErrorC "" report)
  | None =>
      _ ← retract_citations c;
      w ← get_st;
      let row := report_of c report_id event_id analysis [] in
      _ ← lift_res (guard_not (existsb (report_conflict row) (db_reports w)
                               || existsb (fun o => bool_decide (ob_id o = event_id)) (db_outbox w)
                               || negb (bool_decide (NoDup (map dependency_key (ia_dependencies analysis)))))
                      IntegrityErrorC "impact_reports");
      report ← lift_res (new_report (report_of c report_id event_id analysis (ia_dependencies analysis)));
      _ ← put_st (with_retraction w (db_sources w) (db_retractions w) (db_reports w ++ [row])
                    (db_dependencies w ++ map (fun d => (rc_workspace_id c, report_id, d)) (ia_dependencies analysis))
                    (db_outbox w ++ [mkOutbox event_id (rc_workspace_id c) "SOURCE_RETRACTED" correlation_id
                                       (rc_actor_id c) report (rc_retracted_at c)]));
      mret report
  end.

(** [SourceImpactService.retract_source] *)
Definition retract_source (c : SourceRetractionCommand) (report_id event_id correlation_id : uuid)
    : ST impact_db SourceImpactReport :=
  w ← get_st;
  analysis ← lift_res (impact_of (rc_workspace_id c) (rc_source_id c) w);
  retract_and_report c report_id event_id correlation_id analysis.

End service.
End Impact.
