(* ===== verification/ImpactPaths.v ===== *)
(** * Source impact: depths and path counts

    [_shortest_depth] is the distance, and [_path_count] the number of simple
    routes, in the graph of the edges it is given; both end within their fuel. *)

From S2P Require Import Prelude.
From S2P Require Import PyDecimal.
From S2P Require Import Json.
From S2P Require Import Symbolic.
From S2P Require Import ConsensusPorts.
From S2P Require Import ReasoningGraph.
From S2P Require Import SourceImpact.
Import Graph.
Import Impact.

(** ** Distances *)

Definition arc (edges : list GraphEdge) (u v : uuid) : Prop :=
  exists e, e ∈ edges /\ ge_from_node e = u /\ ge_to_node e = v.

(** [v] is [k] steps of [R] from [u] and no fewer. *)
Definition distance (R : uuid -> uuid -> Prop) (u v : uuid) (k : nat) : Prop :=
  nsteps R k u v /\ forall j, nsteps R j u v -> (k <= j)%nat.

Lemma distance_unique R u v j k : distance R u v j -> distance R u v k -> j = k.
Proof. intros [Hj Hj'] [Hk Hk']. specialize (Hj' _ Hk). specialize (Hk' _ Hj). lia. Qed.

Lemma children_elem edges u v : v ∈ children edges u <-> arc edges u v.
Proof.
  unfold children, arc. rewrite list_elem_of_In, in_map_iff. setoid_rewrite filter_In.
  setoid_rewrite bool_decide_eq_true. setoid_rewrite <- list_elem_of_In. naive_solver.
Qed.

Section bfs.
Variable edges : list GraphEdge.
Variables root target : uuid.
Abbreviation R := (arc edges).

Record bfs_inv (queue : list (uuid * Z)) (visited : list uuid) : Prop := {
  bi_dist : forall u d, (u, d) ∈ queue -> exists k, d = Z.of_nat k /\ distance R root u k;
  bi_queued : forall u d, (u, d) ∈ queue -> u ∈ visited;
  bi_sorted : StronglySorted (fun a b => (a.2 <= b.2)%Z) queue;
  bi_spread : forall a b, a ∈ queue -> b ∈ queue -> (b.2 <= a.2 + 1)%Z;
  bi_root : root ∈ visited;
  bi_target : target ∉ visited;
  bi_done : forall v, v ∈ visited -> v ∈ map fst queue \/ forall c, R v c -> c ∈ visited
}.

(** Nodes nearer than the head of the queue are visited, and so are their children. *)
Lemma bfs_near u k rest visited x j :
  bfs_inv ((u, Z.of_nat k) :: rest) visited -> nsteps R j root x -> (j < k)%nat ->
  x ∈ visited /\ forall c, R x c -> c ∈ visited.
Proof.
  intros Hi. revert x; induction j as [|j IH]; intros x Hx Hj.
  all: assert (Hq : forall d, (x, d) ∈ (u, Z.of_nat k) :: rest -> (Z.of_nat k <= d)%Z).
  1, 3: intros d Hd; apply elem_of_cons in Hd as [[= _ ->]|Hd]; [lia|];
        pose proof (bi_sorted _ _ Hi) as Hs; apply StronglySorted_inv in Hs as [_ Hs];
        rewrite Forall_forall in Hs; exact (Hs _ Hd).
  all: assert (Hout : x ∈ visited -> x ∈ visited /\ forall c, R x c -> c ∈ visited).
  1, 3: intros Hv; split; [done|]; destruct (bi_done _ _ Hi _ Hv) as [Hin|]; [|done];
        apply list_elem_of_fmap in Hin as ([x' d] & -> & Hd); cbn [fst] in *;
        destruct (bi_dist _ _ Hi _ _ Hd) as (i & -> & _ & Hmin); apply Hq in Hd; specialize (Hmin _ Hx); lia.
  - apply Hout. inversion Hx; subst. apply (bi_root _ _ Hi).
  - apply Hout. apply nsteps_inv_r in Hx as (y & Hy & Hyx). destruct (IH y Hy ltac:(lia)) as [_ Hc]. by apply Hc.
Qed.

Lemma scan_spec d l queue visited :
  match scan_children target d l queue visited with
  | inl r => r = (d + 1)%Z /\ target ∈ l
  | inr (queue', visited') =>
      target ∉ l /\ exists new, queue' = queue ++ map (fun c => (c, (d + 1)%Z)) new /\
        (forall c, c ∈ visited' <-> c ∈ new \/ c ∈ visited) /\
        (forall c, c ∈ new -> c ∈ l /\ c ∉ visited) /\ (forall c, c ∈ l -> c ∈ visited') /\ NoDup new
  end.
Proof.
  revert queue visited; induction l as [|c l IH]; intros queue visited; cbn [scan_children].
  - split; [set_solver|]. exists []. rewrite app_nil_r. split; [done|]. split; [set_solver|]. split; [set_solver|].
    split; [set_solver|constructor].
  - case_bool_decide as Hc; [subst; split; [done|left]|]. case_bool_decide as Hv.
    + specialize (IH queue visited). destruct (scan_children _ _ _ _ _) as [r|[q' v']]; [set_solver|].
      destruct IH as (Ht & new & Hq & Hvis & Hn & Hl & Hnd). split; [set_solver|]. exists new. split; [done|]. split; [done|].
      split; [intros x Hx; split; [right|]; by apply Hn|]. split; [|done].
      intros x [->|Hx]%elem_of_cons; [apply Hvis; by right|by apply Hl].
    + specialize (IH (queue ++ [(c, (d + 1)%Z)]) (c :: visited)). destruct (scan_children _ _ _ _ _) as [r|[q' v']]; [set_solver|].
      destruct IH as (Ht & new & Hq & Hvis & Hn & Hl & Hnd). split; [set_solver|]. exists (c :: new).
      split; [by rewrite Hq, <- app_assoc|]. split; [set_solver|]. split; [set_solver|].
      split; [|constructor; [|done]; intros Hcn; apply Hn in Hcn; set_solver].
      intros x [->|Hx]%elem_of_cons; [apply Hvis; right; left|by apply Hl].
Qed.

(** Popping a node without finding the target keeps the invariant. *)
Lemma bfs_pop u k rest visited new visited' :
  bfs_inv ((u, Z.of_nat k) :: rest) visited -> target ∉ children edges u ->
  (forall c, c ∈ visited' <-> c ∈ new \/ c ∈ visited) ->
  (forall c, c ∈ new -> c ∈ children edges u /\ c ∉ visited) -> (forall c, c ∈ children edges u -> c ∈ visited') ->
  bfs_inv (rest ++ map (fun c => (c, (Z.of_nat k + 1)%Z)) new) visited'.
Proof.
  intros Hi Ht Hvis Hnew Hall. pose proof Hi as [Hd Hq Hs Hsp Hr Htg Hdn].
  assert (Hhead : (u, Z.of_nat k) ∈ (u, Z.of_nat k) :: rest) by left.
  apply StronglySorted_inv in Hs as [Hs Hhd]. rewrite Forall_forall in Hhd.
  assert (Hrest : forall a, a ∈ rest -> (Z.of_nat k <= a.2 <= Z.of_nat k + 1)%Z).
  { intros a Ha. split; [exact (Hhd _ Ha)|]. exact (Hsp _ a Hhead (list_elem_of_further _ _ _ Ha)). }
  assert (Hin : forall a, a ∈ rest ++ map (fun c => (c, (Z.of_nat k + 1)%Z)) new ->
            (Z.of_nat k <= a.2 <= Z.of_nat k + 1)%Z).
  { intros a [Ha|(c & -> & _)%list_elem_of_fmap]%elem_of_app; [by apply Hrest|cbn; lia]. }
  split.
  - intros x d [Hx|(c & [= -> ->] & Hc)%list_elem_of_fmap]%elem_of_app; [apply Hd; by right|].
    exists (S k). split; [lia|]. destruct (Hnew _ Hc) as [Hch%children_elem Hnv]. destruct (Hd _ _ Hhead) as (k' & Hk & Hst & _).
    assert (k' = k) as -> by lia. split.
    + replace (S k) with (k + 1)%nat by lia. eapply nsteps_trans; [done|by apply nsteps_once].
    + intros j Hj. destruct (decide (j <= k)%nat) as [Hle|]; [|lia]. exfalso. apply Hnv.
      destruct j as [|j]; [inversion Hj; by subst|]. apply nsteps_inv_r in Hj as (y & Hy & Hyc).
      destruct (bfs_near _ _ _ _ y j Hi Hy ltac:(lia)) as [_ Hcl]. by apply Hcl.
  - intros x d [Hx|(c & [= -> ->] & Hc)%list_elem_of_fmap]%elem_of_app; apply Hvis; [right|by left].
    eapply Hq. by right.
  - clear -Hs Hrest. induction Hs as [|a l Hl IH Ha]; cbn [app].
    + induction new as [|c new IHn]; cbn; [constructor|]. constructor; [done|]. apply Forall_forall.
      intros b (x & -> & _)%list_elem_of_fmap. cbn. lia.
    + constructor; [apply IH; intros b Hb; apply Hrest; by right|]. apply Forall_forall. rewrite Forall_forall in Ha.
      intros b [Hb|(c & -> & _)%list_elem_of_fmap]%elem_of_app; [by apply Ha|]. cbn. apply Hrest. left.
  - intros a b Ha%Hin Hb%Hin. lia.
  - apply Hvis. by right.
  - intros [Hn|]%Hvis; [|done]. apply Hnew in Hn as [? _]. done.
  - intros v [Hv|Hv]%Hvis.
    + left. rewrite map_app, map_map. apply elem_of_app. right. by rewrite map_id.
    + destruct (Hdn _ Hv) as [Hin'|Hcl]; [|right; intros c Hc; apply Hvis; right; by apply Hcl].
      cbn [map fst] in Hin'. apply elem_of_cons in Hin' as [->|Hin'].
      * right. intros c Hc. apply Hall. by apply children_elem.
      * left. rewrite map_app. apply elem_of_app. by left.
Qed.

Lemma bfs_end visited : bfs_inv [] visited -> ~ rtc R root target.
Proof.
  intros Hi Hr. apply (bi_target _ _ Hi).
  assert (Hcl : forall x, x ∈ visited -> forall c, R x c -> c ∈ visited).
  { intros x Hx. destruct (bi_done _ _ Hi _ Hx) as [Hn|]; [by apply not_elem_of_nil in Hn|done]. }
  pose proof (bi_root _ _ Hi) as Hroot. clear Hi. induction Hr as [x|x y z Hxy _ IH]; [done|]. apply IH. by eapply Hcl.
Qed.

Definition unvisited (visited : list uuid) : list uuid :=
  filter (fun v => v ∉ visited) (remove_dups (map ge_to_node edges)).

Lemma bfs_total fuel queue visited :
  bfs_inv queue visited -> (length queue + length (unvisited visited) <= fuel)%nat ->
  exists d, bfs fuel target edges queue visited = Ok d /\
    ((exists k, d = Z.of_nat k /\ distance R root target k) \/ ~ rtc R root target).
Proof.
  revert queue visited; induction fuel as [|fuel IH]; intros queue visited Hi Hf.
  all: destruct queue as [|[u d] rest]; [exists DEFAULT_MAX_DEPTH; split; [done|right; by apply (bfs_end visited)]|].
  { cbn in Hf. lia. }
  cbn [bfs]. destruct (bi_dist _ _ Hi u d) as (k & -> & Hst & Hmin); [left|].
  pose proof (scan_spec (Z.of_nat k) (children edges u) rest visited) as Hscan.
  destruct (scan_children _ _ _ _ _) as [r|[queue' visited']].
  - destruct Hscan as [-> Ht%children_elem]. exists (Z.of_nat k + 1)%Z. split; [done|]. left. exists (S k).
    split; [lia|]. split.
    + replace (S k) with (k + 1)%nat by lia. eapply nsteps_trans; [done|by apply nsteps_once].
    + intros j Hj. destruct (decide (j <= k)%nat) as [Hle|]; [|lia]. exfalso. apply (bi_target _ _ Hi).
      destruct j as [|j]; [assert (root = target) as <- by (by inversion Hj); apply (bi_root _ _ Hi)|]. apply nsteps_inv_r in Hj as (y & Hy & Hyc).
      destruct (bfs_near _ _ _ _ y j Hi Hy ltac:(lia)) as [_ Hcl]. by apply Hcl.
  - destruct Hscan as (Ht & new & -> & Hvis & Hnew & Hall & Hnd). apply IH; [by eapply bfs_pop|].
    rewrite length_app, length_map. cbn [length] in Hf.
    enough (length new + length (unvisited visited') <= length (unvisited visited))%nat by lia.
    rewrite <- length_app. apply submseteq_length, NoDup_submseteq.
    + apply NoDup_app. split; [done|]. split; [|apply NoDup_filter, NoDup_remove_dups].
      intros c Hc Hu. apply list_elem_of_filter in Hu as [Hu _]. apply Hu, Hvis. by left.
    + intros c [Hc|Hc]%elem_of_app; apply list_elem_of_filter.
      * destruct (Hnew _ Hc) as [(e & He & _ & <-)%children_elem Hnv]. split; [done|].
        apply elem_of_remove_dups, list_elem_of_fmap. by exists e.
      * apply list_elem_of_filter in Hc as [Hc ?]. split; [|done]. intros Hv. apply Hc, Hvis. by right.
Qed.

End bfs.

(** [_shortest_depth] is the distance of a node that can be reached. *)
Lemma shortest_depth_exact edges root target :
  rtc (arc edges) root target ->
  exists k, _shortest_depth root target edges = Ok (Z.of_nat k) /\ distance (arc edges) root target k.
Proof.
  intros Hr. unfold _shortest_depth. case_bool_decide as Heq.
  { subst. exists 0%nat. split; [done|]. split; [constructor|intros; lia]. }
  destruct (bfs_total edges root target (S (length edges)) [(root, 0%Z)] [root]) as (d & Hd & Hres).
  - split.
    + intros u d [= -> ->]%list_elem_of_singleton. exists 0%nat. split; [done|]. split; [constructor|intros; lia].
    + intros u d [= -> ->]%list_elem_of_singleton. left.
    + repeat constructor.
    + intros a b ->%list_elem_of_singleton ->%list_elem_of_singleton. cbn. lia.
    + left.
    + intros ->%list_elem_of_singleton. done.
    + intros v ->%list_elem_of_singleton. left. cbn. left.
  - cbn [length]. unfold unvisited.
    pose proof (length_filter (fun v => v ∉ [root]) (remove_dups (map ge_to_node edges))) as H1.
    assert (H2 : (length (remove_dups (map ge_to_node edges)) <= length edges)%nat).
    { transitivity (length (map ge_to_node edges)); [|by rewrite length_map]. apply submseteq_length, NoDup_submseteq; [apply NoDup_remove_dups|].
      intros x. by rewrite elem_of_remove_dups. }
    lia.
  - destruct Hres as [(k & -> & Hk)|]; [|done]. by exists k.
Qed.

(** ** Simple routes *)

(** A loop that loses measure at every step ends, within [2 ^ k] steps if the
    measure is below that, in a result its invariant gives. *)
Lemma iterate_total {S R} (step : S -> S + R) (mu : S -> nat) (I : S -> Prop) (Q : R -> Prop) k s :
  (forall s, I s -> match step s with inl s' => I s' /\ (mu s' < mu s)%nat | inr r => Q r end) ->
  I s -> (mu s < 2 ^ k)%nat -> exists r, iterate k step s = inr r /\ Q r.
Proof.
  intros Hstep.
  assert (Hgen : forall k s, I s ->
            match iterate k step s with inl s' => I s' /\ (mu s' + 2 ^ k <= mu s)%nat | inr r => Q r end).
  { clear k s. induction k as [|k IH]; intros s Hs; cbn [iterate].
    - specialize (Hstep s Hs). destruct (step s); [|done]. cbn. destruct Hstep. split; [done|lia].
    - pose proof (IH s Hs) as H1. destruct (iterate k step s) as [s'|r]; [|done]. destruct H1 as [Hs' Hm].
      pose proof (IH s' Hs') as H2. destruct (iterate k step s') as [s''|r]; [|done]. cbn [Nat.pow]. destruct H2.
      split; [done|lia]. }
  intros Hs Hm. pose proof (Hgen k s Hs) as H. destruct (iterate k step s) as [s'|r]; [lia|by exists r].
Qed.

Section routes.
Variable edges : list GraphEdge.
Variable target : uuid.

Definition out (u : uuid) : list GraphEdge := List.filter (fun e => bool_decide (ge_from_node e = u)) edges.

(** The routes to the target of at most [n] edges that avoid [visited]. *)
Fixpoint routes (n : nat) (u : uuid) (visited : list uuid) : list (list GraphEdge) :=
  match n with
  | O => []
  | S n' =>
      flat_map (fun e =>
        if bool_decide (ge_to_node e = target) then [[e]]
        else if bool_decide (ge_to_node e ∈ visited) then []
        else map (cons e) (routes n' (ge_to_node e) (ge_to_node e :: visited))) (out u)
  end.

Abbreviation fresh := (unvisited edges).

Lemma fresh_cons c visited : c ∈ map ge_to_node edges -> c ∉ visited -> length (fresh visited) = S (length (fresh (c :: visited))).
Proof.
  intros Hc Hv. unfold unvisited.
  assert (Hin : c ∈ filter (fun v => v ∉ visited) (remove_dups (map ge_to_node edges)))
    by (apply list_elem_of_filter; split; [done|by apply elem_of_remove_dups]).
  assert (Hnd : NoDup (filter (fun v => v ∉ visited) (remove_dups (map ge_to_node edges))))
    by apply NoDup_filter, NoDup_remove_dups.
  assert (Hp : filter (fun v => v ∉ visited) (remove_dups (map ge_to_node edges)) ≡ₚ
               c :: filter (fun v => v ∉ c :: visited) (remove_dups (map ge_to_node edges))); [|by rewrite Hp].
  apply NoDup_Permutation; [done| |].
  - constructor; [|apply NoDup_filter, NoDup_remove_dups]. intros Hcn. apply list_elem_of_filter in Hcn as [Hcn _]. set_solver.
  - intros x. rewrite elem_of_cons, !list_elem_of_filter. destruct (decide (x = c)) as [->|Hne]; [|set_solver].
    apply list_elem_of_filter in Hin as [_ Hin]. tauto.
Qed.

(** All routes from [u] that avoid [visited]. *)
Definition all_routes (u : uuid) (visited : list uuid) : list (list GraphEdge) := routes (S (length (fresh visited))) u visited.

Definition via (visited : list uuid) (e : GraphEdge) : list (list GraphEdge) :=
  if bool_decide (ge_to_node e = target) then [[e]]
  else if bool_decide (ge_to_node e ∈ visited) then []
  else map (cons e) (all_routes (ge_to_node e) (ge_to_node e :: visited)).

Lemma all_routes_unfold u visited : all_routes u visited = flat_map (via visited) (out u).
Proof.
  unfold all_routes. cbn [routes]. rewrite !flat_map_concat_map. f_equal. apply map_ext_in. intros e He. unfold via.
  case_bool_decide as Ht; [done|]. case_bool_decide as Hv; [done|]. unfold all_routes.
  rewrite (fresh_cons (ge_to_node e)); [done| |done]. apply list_elem_of_fmap. exists e. split; [done|].
  unfold out in He. apply filter_In in He as [He _]. by apply list_elem_of_In.
Qed.

(** *** The loop counts the routes *)

Definition stack_routes (stack : list (uuid * list uuid)) : Z :=
  foldr (fun '(u, visited) n => Z.of_nat (length (all_routes u visited)) + n)%Z 0%Z stack.

Definition weight (visited : list uuid) : nat := S (length edges) ^ length (fresh visited).
Definition stack_weight (stack : list (uuid * list uuid)) : nat :=
  foldr (fun '(u, visited) n => weight visited + n)%nat 0%nat stack.

Lemma weight_positive visited : (1 <= weight visited)%nat.
Proof. unfold weight. apply Nat.neq_0_lt_0, Nat.pow_nonzero. lia. Qed.

Lemma push_children visited l c stack :
  (forall e, e ∈ l -> e ∈ edges) ->
  let s := foldl (push_child target visited) (c, stack) (map ge_to_node l) in
  (s.1 + stack_routes s.2 = c + Z.of_nat (length (flat_map (via visited) l)) + stack_routes stack)%Z /\
  (S (length edges) * stack_weight s.2 <= length l * weight visited + S (length edges) * stack_weight stack)%nat.
Proof.
  revert c stack; induction l as [|e l IH]; intros c stack Hl; cbn [map foldl flat_map]; [cbn [fst snd length]; lia|].
  assert (Hl' : forall e', e' ∈ l -> e' ∈ edges) by (intros; apply Hl; by right).
  assert (Hpc : push_child target visited (c, stack) (ge_to_node e) =
    (if bool_decide (ge_to_node e = target) then ((c + 1)%Z, stack)
     else if bool_decide (ge_to_node e ∈ visited) then (c, stack)
     else (c, (ge_to_node e, ge_to_node e :: visited) :: stack))) by done.
  rewrite !Hpc, length_app. unfold via at 1.
  case_bool_decide as Ht.
  { specialize (IH (c + 1)%Z stack Hl'). cbn zeta in IH. cbn [length]. lia. }
  case_bool_decide as Hv.
  { specialize (IH c stack Hl'). cbn zeta in IH. cbn [length]. lia. }
  specialize (IH c ((ge_to_node e, ge_to_node e :: visited) :: stack) Hl'). cbn zeta in IH.
  destruct IH as [H1 H2]. rewrite length_map. cbn [stack_routes stack_weight foldr] in H1, H2.
  fold (stack_routes stack) in H1. fold (stack_weight stack) in H2.
  assert (Hw : weight visited = (S (length edges) * weight (ge_to_node e :: visited))%nat).
  { unfold weight. rewrite (fresh_cons (ge_to_node e) visited); [done| |done].
    apply list_elem_of_fmap. exists e. split; [done|]. apply Hl. left. }
  split; [lia|]. cbn [length]. nia.
Qed.

Lemma count_step_spec total s :
  (s.1 + stack_routes s.2 = total)%Z ->
  match count_step target edges s with
  | inl s' => (s'.1 + stack_routes s'.2 = total)%Z /\ (stack_weight s'.2 < stack_weight s.2)%nat
  | inr r => r = total
  end.
Proof.
  destruct s as [c [|[u visited] stack]]; cbn [count_step fst snd]; intros Hs; [cbn in Hs; lia|].
  assert (Hout : forall e, e ∈ out u -> e ∈ edges).
  { intros e He. apply list_elem_of_In, filter_In in He as [He _]. by apply list_elem_of_In. }
  change (children edges u) with (map ge_to_node (out u)).
  pose proof (push_children visited (out u) c stack Hout) as [H1 H2]. cbn [stack_routes stack_weight foldr] in Hs |- *.
  fold (stack_routes stack) in Hs. fold (stack_weight stack). rewrite all_routes_unfold in Hs. split; [lia|].
  assert (Hlen : (length (out u) <= length edges)%nat) by apply filter_length_le. pose proof (weight_positive visited). nia.
Qed.

Lemma routes_counted root :
  exists r, iterate (count_bits edges) (count_step target edges) (0%Z, [(root, [root])]) = inr r /\
    r = Z.of_nat (length (all_routes root [root])).
Proof.
  set (total := Z.of_nat (length (all_routes root [root]))).
  apply (iterate_total _ (fun s => stack_weight s.2) (fun s => (s.1 + stack_routes s.2 = total)%Z) (fun r => r = total)).
  - intros s Hs. by apply count_step_spec.
  - cbn [stack_routes foldr fst snd]. unfold total. lia.
  - cbn [stack_weight foldr snd]. rewrite Nat.add_0_r. unfold weight, count_bits.
    assert (Hf : (length (fresh [root]) <= length edges)%nat).
    { unfold unvisited. etransitivity; [apply length_filter|]. transitivity (length (map ge_to_node edges)); [|by rewrite length_map].
      apply submseteq_length, NoDup_submseteq; [apply NoDup_remove_dups|]. intros x. by rewrite elem_of_remove_dups. }
    pose proof (Nat.log2_spec (S (length edges)) ltac:(lia)) as [_ Hlog].
    eapply Nat.le_lt_trans; [apply Nat.pow_le_mono_r; [lia|exact Hf]|].
    eapply Nat.le_lt_trans; [apply Nat.pow_le_mono_l, Nat.lt_le_incl, Hlog|]. rewrite <- Nat.pow_mul_r.
    apply Nat.pow_lt_mono_r; lia.
Qed.

End routes.

(** [_path_count] is the number of simple routes, and at least one. *)
Lemma path_count_exact edges root target :
  _path_count root target edges =
    Ok (if bool_decide (root = target) then 1 else Z.max 1 (Z.of_nat (length (all_routes edges target root [root]))))%Z.
Proof.
  unfold _path_count. case_bool_decide; [done|].
  destruct (routes_counted edges target root) as (r & -> & ->). done.
Qed.

(** *** What a route is *)

(** A route to the target: its edges follow each other, the nodes before the
    target are distinct, not visited before, and not the target. *)
Fixpoint is_route (edges : list GraphEdge) (target : uuid) (visited : list uuid) (u : uuid) (es : list GraphEdge) : Prop :=
  match es with
  | [] => False
  | e :: es' =>
      e ∈ edges /\ ge_from_node e = u /\
      match es' with
      | [] => ge_to_node e = target
      | _ => ge_to_node e <> target /\ ge_to_node e ∉ visited /\ is_route edges target (ge_to_node e :: visited) (ge_to_node e) es'
      end
  end.

Section routes_elem.
Variable edges : list GraphEdge.
Variable target : uuid.

Lemma out_elem u e : e ∈ out edges u <-> e ∈ edges /\ ge_from_node e = u.
Proof. unfold out. rewrite list_elem_of_In, filter_In, bool_decide_eq_true, <- list_elem_of_In. done. Qed.

Lemma is_route_cons visited u e es' :
  es' <> [] ->
  is_route edges target visited u (e :: es') <->
  e ∈ edges /\ ge_from_node e = u /\ ge_to_node e <> target /\ ge_to_node e ∉ visited /\
    is_route edges target (ge_to_node e :: visited) (ge_to_node e) es'.
Proof. destruct es'; [done|]. cbn. tauto. Qed.

Lemma routes_elem n u visited es :
  es ∈ routes edges target n u visited <-> is_route edges target visited u es /\ (length es <= n)%nat.
Proof.
  revert u visited es; induction n as [|n IH]; intros u visited es; cbn [routes].
  - split; [by intros ?%not_elem_of_nil|]. intros [Hr Hl]. by destruct es; [|cbn in Hl; lia].
  - rewrite list_elem_of_In, in_flat_map. setoid_rewrite <- list_elem_of_In. setoid_rewrite out_elem. split.
    + intros (e & [He Hu] & Hin). case_bool_decide as Ht.
      { apply list_elem_of_singleton in Hin as ->. cbn. split; [done|lia]. }
      case_bool_decide as Hv; [by apply not_elem_of_nil in Hin|]. apply list_elem_of_fmap in Hin as (es' & -> & [Hr Hl]%IH).
      cbn [length]. split; [|lia]. apply is_route_cons; [by intros ->|done].
    + intros [Hr Hl]. destruct es as [|e es']; [done|]. exists e. destruct es' as [|e' es''].
      * cbn in Hr. destruct Hr as (? & ? & Ht). rewrite bool_decide_true by done. split; [done|left].
      * apply is_route_cons in Hr as (He & Hu & Ht & Hv & Hr); [|done]. rewrite !bool_decide_false by done.
        split; [done|]. apply list_elem_of_fmap. exists (e' :: es''). split; [done|]. apply IH. cbn in *. split; [done|lia].
Qed.

Lemma is_route_length visited u es :
  is_route edges target visited u es -> (length es <= S (length (unvisited edges visited)))%nat.
Proof.
  revert visited u; induction es as [|e [|e' es] IH]; intros visited u Hr; [done|cbn; lia|].
  apply is_route_cons in Hr as (He & _ & _ & Hv & Hr); [|done]. apply IH in Hr. cbn [length] in *.
  rewrite (fresh_cons edges (ge_to_node e) visited); [lia| |done]. apply list_elem_of_fmap. by exists e.
Qed.

Lemma all_routes_elem u visited es : es ∈ all_routes edges target u visited <-> is_route edges target visited u es.
Proof. unfold all_routes. rewrite routes_elem. split; [by intros [? _]|]. intros Hr. split; [done|by eapply is_route_length]. Qed.

Lemma routes_NoDup n u visited : NoDup edges -> NoDup (routes edges target n u visited).
Proof.
  intros Hnd. revert u visited; induction n as [|n IH]; intros u visited; cbn [routes]; [constructor|].
  assert (Ho : NoDup (out edges u)) by (apply NoDup_ListNoDup, List.NoDup_filter, NoDup_ListNoDup; done).
  induction Ho as [|e l Hel Hl IHl]; cbn [flat_map]; [constructor|].
  set (here := if bool_decide (ge_to_node e = target) then [[e]] else _).
  assert (Hhead : forall es, es ∈ here -> exists es', es = e :: es').
  { unfold here. intros es Hin. case_bool_decide; [apply list_elem_of_singleton in Hin as ->; by exists []|].
    case_bool_decide; [by apply not_elem_of_nil in Hin|]. apply list_elem_of_fmap in Hin as (es' & -> & _). by exists es'. }
  apply NoDup_app. split; [|split; [|done]].
  - unfold here. case_bool_decide; [apply NoDup_singleton|]. case_bool_decide; [constructor|].
    apply NoDup_fmap_2; [by intros x y [= ->]|apply IH].
  - intros es Hin Hrest. apply Hhead in Hin as (es' & ->). apply list_elem_of_In, in_flat_map in Hrest as (e' & He' & Hin).
    apply list_elem_of_In in He', Hin. assert (e' = e); [|by subst].
    case_bool_decide; [apply list_elem_of_singleton in Hin; by injection Hin as -> _|].
    case_bool_decide; [by apply not_elem_of_nil in Hin|]. apply list_elem_of_fmap in Hin as (es'' & Hx & _). by injection Hx as -> _.
Qed.

End routes_elem.

(** Two graphs with the same routes have as many. *)
Lemma same_route_count edges edges' target u visited :
  NoDup edges -> NoDup edges' ->
  (forall es, is_route edges target visited u es <-> is_route edges' target visited u es) ->
  length (all_routes edges target u visited) = length (all_routes edges' target u visited).
Proof.
  intros Hn Hn' H. apply Permutation_length, NoDup_Permutation.
  - by apply routes_NoDup.
  - by apply routes_NoDup.
  - intros es. by rewrite !all_routes_elem.
Qed.

(** A node that can be reached has a route: a shortest path is one. *)
Lemma distance_step edges u v k :
  distance (arc edges) u v (S k) -> exists w, arc edges u w /\ distance (arc edges) w v k.
Proof.
  intros [Hs Hm]. inversion Hs as [|? ? w ? Huw Hwv]; subst. exists w. split; [done|]. split; [done|].
  intros j Hj. enough (S k <= S j)%nat by lia. apply Hm. by econstructor.
Qed.

Lemma route_exists edges target k u visited :
  distance (arc edges) u target (S k) ->
  (forall x j, x ∈ visited -> nsteps (arc edges) j x target -> (S k <= j)%nat) ->
  exists es, is_route edges target visited u es.
Proof.
  revert u visited; induction k as [|k IH]; intros u visited Hd Hv;
    apply distance_step in Hd as (w & (e & He & Hf & Ht) & Hd).
  - exists [e]. destruct Hd as [Hd _]. inversion Hd; subst. done.
  - destruct (IH w (w :: visited) Hd) as (es & Hes).
    + intros x j [->|Hx]%elem_of_cons Hj; [by apply Hd|]. specialize (Hv x j Hx Hj). lia.
    + exists (e :: es). apply is_route_cons; [by intros ->|]. subst w. split; [done|]. split; [done|]. split; [|split; [|done]].
      * intros E. destruct Hd as [_ Hd]. rewrite E in Hd. specialize (Hd 0%nat (nsteps_O _ _)). lia.
      * intros Hin. destruct Hd as [Hd _]. specialize (Hv _ _ Hin Hd). lia.
Qed.

Lemma reachable_route edges root target :
  rtc (arc edges) root target -> root <> target -> exists es, is_route edges target [root] root es.
Proof.
  intros Hr Hne. destruct (shortest_depth_exact edges root target Hr) as ([|k] & _ & Hd).
  - destruct Hd as [Hd _]. by inversion Hd.
  - apply (route_exists edges target k root [root] Hd). intros x j ->%list_elem_of_singleton Hj. by apply Hd.
Qed.

(** [_path_count] of a reachable node: the number of routes, one at the root. *)
Lemma path_count_reachable edges root target :
  rtc (arc edges) root target ->
  exists n, _path_count root target edges = Ok n /\ (1 <= n)%Z /\
    (root <> target -> n = Z.of_nat (length (all_routes edges target root [root]))) /\ (root = target -> n = 1%Z).
Proof.
  intros Hr. rewrite path_count_exact. case_bool_decide as Heq; [exists 1%Z; naive_solver lia|].
  destruct (reachable_route edges root target Hr Heq) as (es & Hes%all_routes_elem).
  assert ((0 < length (all_routes edges target root [root]))%nat).
  { destruct (all_routes edges target root [root]); [by apply not_elem_of_nil in Hes|cbn; lia]. }
  eexists. split; [done|]. split; [lia|]. split; [intros _; lia|done].
Qed.
