(* ===== verification/ImpactSearch.v ===== *)
(** * Source impact: the search from one root

    However the bounded traversals are cut into pages and segments, the search
    ends, finds exactly the nodes the root reaches in its session, and collects
    every edge of every simple path from the root. *)

From S2P Require Import Prelude.
From S2P Require Import PyDecimal.
From S2P Require Import Json.
From S2P Require Import Symbolic.
From S2P Require Import ConsensusPorts.
From S2P Require Import Cursor.
From S2P Require Import ReasoningGraph.
From S2P Require Import GraphFacts.
From S2P Require Import SourceImpact.
From S2P Require Import ImpactPaths.
Import Graph.
Import Impact.

(** ** Dictionaries by identifier *)

Definition keyed {A} (key : A -> uuid) (l : list A) : dict uuid A := map (fun x => (key x, x)) l.

Lemma keyed_values {A} (key : A -> uuid) l : map snd (keyed key l) = l.
Proof. unfold keyed. rewrite map_map. apply map_id. Qed.

Lemma keyed_keys {A} (key : A -> uuid) l : map fst (keyed key l) = map key l.
Proof. unfold keyed. by rewrite map_map. Qed.

Lemma update_by_nodup {A} (key : A -> uuid) l : NoDup (map key l) -> update_by key [] l = keyed key l.
Proof.
  intros Hn. rewrite <- (dict_of_list_nodup (keyed key l)) by by rewrite keyed_keys.
  unfold update_by, dict_of_list, keyed. generalize (@nil (uuid * A)). clear Hn.
  induction l as [|x l IH]; intros d; [done|]. cbn. apply IH.
Qed.

(** A dictionary of rows of a table with unique keys. *)
Definition row_dict {A} (key : A -> uuid) (t : list A) (d : dict uuid A) : Prop :=
  d = keyed key (map snd d) /\ NoDup (map fst d) /\ forall x, x ∈ map snd d -> x ∈ t.

Lemma row_keys {A} (key : A -> uuid) (d : dict uuid A) : d = keyed key (map snd d) -> map fst d = map key (map snd d).
Proof. intros H. apply (f_equal (map fst)) in H. by rewrite keyed_keys in H. Qed.

Lemma filter_keys_NoDup {A B} (key : A -> B) (p : A -> bool) t : NoDup (map key t) -> NoDup (map key (List.filter p t)).
Proof.
  induction t as [|x t IH]; intros Hn; [constructor|]. cbn in Hn. apply NoDup_cons in Hn as [Hx Hn]. cbn [List.filter].
  destruct (p x); [|by apply IH]. cbn. apply NoDup_cons. split; [|by apply IH].
  intros (y & Hy & Hin)%list_elem_of_fmap. apply Hx, list_elem_of_fmap. exists y. split; [done|].
  apply list_elem_of_In in Hin. apply filter_In in Hin as [Hin _]. by apply list_elem_of_In.
Qed.

Lemma row_dict_set {A} (key : A -> uuid) t d x :
  NoDup (map key t) -> row_dict key t d -> x ∈ t ->
  row_dict key t (dict_set (key x) x d) /\ forall y, y ∈ map snd (dict_set (key x) x d) <-> y ∈ map snd d \/ y = x.
Proof.
  intros Ht (Hd & Hn & Hin) Hx. unfold row_dict. induction d as [|[k v] d IH].
  { cbn. split; [|set_solver]. split; [done|]. split; [apply NoDup_singleton|]. set_solver. }
  cbn [map snd fst keyed] in Hd, Hn, Hin. injection Hd as Hk Hd. apply NoDup_cons in Hn as [Hkn Hn].
  cbn [dict_set]. destruct (decide (key x = k)) as [E|Hne].
  - assert (v = x) as -> by (apply (same_key key t); [done|apply Hin; left|done|congruence]).
    cbn [map snd fst keyed]. split; [|set_solver]. split; [f_equal; [congruence|exact Hd]|]. split; [by apply NoDup_cons|done].
  - destruct IH as [(Hd' & Hn' & Hin') Hel]; [done|done|intros y Hy; apply Hin; by right|].
    cbn [map snd fst keyed]. split; [|intros y; rewrite !elem_of_cons, Hel; tauto]. split; [f_equal; [congruence|exact Hd']|].
    split; [|intros y [->|Hy]%elem_of_cons; [apply Hin; left|by apply Hin']].
    apply NoDup_cons. split; [|done]. rewrite (row_keys key _ Hd'). intros (y & E & Hy)%list_elem_of_fmap.
    apply Hel in Hy as [Hy| ->]; [|congruence]. apply Hkn. rewrite (row_keys key _ Hd). apply list_elem_of_fmap. eauto.
Qed.

Lemma row_dict_update {A} (key : A -> uuid) t d l :
  NoDup (map key t) -> row_dict key t d -> (forall x, x ∈ l -> x ∈ t) ->
  row_dict key t (update_by key d l) /\ forall y, y ∈ map snd (update_by key d l) <-> y ∈ map snd d \/ y ∈ l.
Proof.
  intros Ht. unfold update_by. revert d; induction l as [|x l IH]; intros d Hd Hl; cbn [foldl]; [split; [done|set_solver]|].
  destruct (row_dict_set key t d x Ht Hd) as [Hd' Hel]; [apply Hl; left|].
  destruct (IH (dict_set (key x) x d) Hd') as [Hd'' Hel']; [intros y Hy; apply Hl; by right|]. split; [done|].
  intros y. rewrite Hel', Hel, elem_of_cons. tauto.
Qed.

(** ** One session's edges *)

Section search.
Variable decode_other : list ascii -> res string.
Variables ws sid : uuid.
Variable g : graph.

Abbreviation fq := (forward_query ws sid).

Definition session_edges : list GraphEdge :=
  List.filter (fun e => bool_decide (ge_workspace_id e = ws) && bool_decide (ge_session_id e = sid)) (gd_edges g).

Definition session_node (n : GraphNode) : Prop := n ∈ gd_nodes g /\ gn_workspace_id n = ws /\ gn_session_id n = sid.

Lemma session_edges_elem e : e ∈ session_edges <-> e ∈ gd_edges g /\ ge_workspace_id e = ws /\ ge_session_id e = sid.
Proof.
  unfold session_edges. rewrite list_elem_of_In, filter_In, <- list_elem_of_In, andb_true_iff, !bool_decide_eq_true. done.
Qed.

Lemma hop_by_forward f e u v : hop_by (fq f) g e u v <-> e ∈ session_edges /\ ge_from_node e = u /\ ge_to_node e = v.
Proof.
  unfold hop_by. rewrite session_edges_elem. unfold eligible, forward_query. cbn [qu_workspace_id qu_session_id qu_edge_types qu_direction next_node].
  rewrite andb_true_r, andb_true_iff, !bool_decide_eq_true. case_bool_decide; naive_solver.
Qed.

Lemma hop_forward f u v : hop (fq f) g u v <-> arc session_edges u v.
Proof. unfold hop, arc. setoid_rewrite hop_by_forward. naive_solver. Qed.

Lemma trail_any f f' r p v : trail (fq f) g r p v -> trail (fq f') g r p v.
Proof.
  induction 1 as [|p u v _ IH Hh Hv]; [constructor|]. eapply trail_step; [done| |done].
  apply hop_forward. by apply hop_forward in Hh.
Qed.

Lemma nsteps_forward f k u v : nsteps (hop (fq f) g) k u v <-> nsteps (arc session_edges) k u v.
Proof.
  split; intros H; induction H as [|k x y z Hxy _ IH]; econstructor; try done; by apply (hop_forward f).
Qed.

Lemma rtc_forward f u v : rtc (hop (fq f) g) u v <-> rtc (arc session_edges) u v.
Proof. rewrite !rtc_nsteps. by setoid_rewrite nsteps_forward. Qed.

(** A simple path from [f]. *)
Definition path (r : uuid) (p : list uuid) (v : uuid) : Prop := trail (fq r) g r p v.

Lemma node_rows_elem ids n f : n ∈ node_rows (fq f) g ids <-> session_node n /\ gn_id n ∈ ids.
Proof.
  unfold node_rows, session_node, in_scope. cbn [forward_query qu_workspace_id qu_session_id].
  rewrite sort_by_elem, list_elem_of_In, filter_In, <- list_elem_of_In, !andb_true_iff, !bool_decide_eq_true. tauto.
Qed.

Lemma edge_rows_elem ids e f : e ∈ edge_rows (fq f) g ids <-> e ∈ session_edges /\ ge_id e ∈ ids.
Proof.
  unfold edge_rows, in_scope. cbn [forward_query qu_workspace_id qu_session_id].
  rewrite sort_by_elem, list_elem_of_In, filter_In, <- list_elem_of_In, !andb_true_iff, !bool_decide_eq_true, session_edges_elem. tauto.
Qed.

(** *** The nodes and edges of one segment *)

Lemma depth_ok f : (0 <= qu_max_depth (fq f))%Z.
Proof. done. Qed.

Definition bound : nat := 12.

Lemma segment_nodes f v : v ∈ node_ids (fq f) g <-> exists k, (k <= bound)%nat /\ nsteps (arc session_edges) k f v.
Proof.
  rewrite (node_ids_elem _ _ (depth_ok f)). setoid_rewrite nsteps_forward. cbn [forward_query qu_root_ids qu_max_depth].
  split; [intros (r & k & ->%list_elem_of_singleton & ? & ?); by exists k|intros (k & ? & ?); exists f, k; split; [left|done]].
Qed.

Lemma segment_edges f x :
  x ∈ edge_ids (fq f) g <-> exists e p u v, ge_id e = x /\ path f p u /\ (length p <= bound)%nat /\
    e ∈ session_edges /\ ge_from_node e = u /\ ge_to_node e = v /\ v ∉ p.
Proof.
  rewrite (edge_ids_elem _ _ (depth_ok f)). setoid_rewrite hop_by_forward. cbn [forward_query qu_root_ids qu_max_depth].
  split; [intros (e & r & p & u & v & ? & ->%list_elem_of_singleton & ? & ? & (? & ? & ?) & ?); by exists e, p, u, v|].
  intros (e & p & u & v & ? & ? & ? & ? & ? & ? & ?). exists e, f, p, u, v. split; [done|]. split; [left|done].
Qed.

Lemma segment_truncated f : truncated (fq f) g = true <-> exists p v, path f p v /\ length p = S (S bound).
Proof.
  rewrite (truncated_iff _ _ (depth_ok f)). cbn [forward_query qu_root_ids qu_max_depth].
  split; [intros (r & p & v & ->%list_elem_of_singleton & ? & ?); by exists p, v|intros (p & v & ? & ?); exists f, p, v; split; [left|done]].
Qed.

(** ** Reading a segment *)

Hypothesis Hkeys : keys_ok g.
Hypothesis Hsmall : (Z.of_nat (1 + 2 * length (gd_edges g)) < digit_room)%Z.

Lemma segment_size f : (member_count (fq f) g < digit_room)%Z.
Proof.
  unfold member_count.
  assert (Hs : forall l, NoDup (sorted_ids l)).
  { intros l. unfold sorted_ids. rewrite (sort_by_perm N.leb). apply NoDup_remove_dups. }
  assert (Hn : (length (node_ids (fq f) g) <= length (f :: map ge_to_node (gd_edges g)))%nat).
  { apply submseteq_length, NoDup_submseteq; [apply Hs|]. intros v (k & _ & Hk)%segment_nodes. destruct k as [|k].
    - inversion Hk; subst. left.
    - apply nsteps_inv_r in Hk as (u & _ & (e & He%session_edges_elem & _ & <-)). right. apply list_elem_of_fmap. exists e. by split; [|apply He]. }
  assert (He : (length (edge_ids (fq f) g) <= length (map ge_id (gd_edges g)))%nat).
  { apply submseteq_length, NoDup_submseteq; [apply Hs|]. intros x (e & p & u & v & <- & _ & _ & He%session_edges_elem & _)%segment_edges.
    apply list_elem_of_fmap. exists e. by split; [|apply He]. }
  cbn [length] in Hn. rewrite length_map in Hn, He. lia.
Qed.

Lemma rows_NoDup {A} (key : A -> uuid) le (p : A -> bool) t :
  NoDup (map key t) -> NoDup (map key (sort_by le (List.filter p t))).
Proof. intros Hn. rewrite (Permutation_map key (sort_by_perm le _)). by apply filter_keys_NoDup. Qed.

Definition seg_nodes (f : uuid) : list GraphNode := node_rows (fq f) g (node_ids (fq f) g).
Definition seg_edges (f : uuid) : list GraphEdge := edge_rows (fq f) g (edge_ids (fq f) g).

Lemma fold_pages pages s :
  let s' := foldl add_page s pages in
  sg_nodes s' = update_by gn_id (sg_nodes s) (concat (map tv_nodes pages)) /\
  sg_edges s' = update_by ge_id (sg_edges s) (concat (map tv_edges pages)) /\
  sg_truncated s' = sg_truncated s || existsb tv_truncated pages.
Proof.
  revert s; induction pages as [|p pages IH]; intros s; cbn [foldl map concat existsb]; [by rewrite orb_false_r|].
  destruct (IH (add_page s p)) as (H1 & H2 & H3). cbn zeta. rewrite H1, H2, H3. cbn [add_page sg_nodes sg_edges sg_truncated].
  unfold update_by. rewrite !foldl_app, orb_assoc. done.
Qed.

(** All pages of a segment hold exactly its rows. *)
Lemma read_segment_exact f :
  read_segment decode_other ws sid f g =
    Ok (mkSegment (keyed gn_id (seg_nodes f)) (keyed ge_id (seg_edges f)) (truncated (fq f) g)).
Proof.
  unfold read_segment. set (q := fq f). destruct (fingerprint_ok q) as (fp & Hfp & Hasc).
  assert (Hpos : (0 <= member_count q g)%Z) by (unfold member_count; lia).
  assert (Hne : (0 < member_count q g)%Z).
  { unfold member_count. assert (Hin : f ∈ node_ids q g) by (apply segment_nodes; exists 0%nat; split; [lia|constructor]).
    destruct (node_ids q g); [by apply not_elem_of_nil in Hin|cbn; lia]. }
  destruct (follow_from decode_other q g MAX_ALLOWED_DEPTH MAX_PAGE_SIZE ltac:(done) ltac:(done) (segment_size f) add_page
              (S (Z.to_nat (member_count q g))) fp None 0 (mkSegment [] [] false) Hfp Hasc eq_refl)
    as (pages & -> & Hn & He & Hg & Hpg); [lia|done|lia|].
  destruct (fold_pages pages (mkSegment [] [] false)) as (H1 & H2 & H3). cbn [sg_nodes sg_edges sg_truncated] in H1, H2, H3.
  f_equal. destruct (foldl add_page _ pages) as [ns es tr]. cbn [sg_nodes sg_edges sg_truncated] in *. subst ns es tr.
  rewrite Hn, He. unfold nodes_from, edges_from. rewrite Z.min_l, Z.max_l, !slice_all by lia.
  rewrite !update_by_nodup by apply rows_NoDup, Hkeys. f_equal. cbn [orb].
  destruct pages as [|p pages]; [done|]. destruct (truncated q g) eqn:Et.
  - cbn [existsb]. apply Forall_cons in Hg as [[_ Ht] _]. by rewrite Ht, Et.
  - apply not_true_is_false. intros (x & Hx%list_elem_of_In & Ht)%existsb_exists. rewrite Forall_forall in Hg.
    destruct (Hg x Hx) as [_ Hxt]. congruence.
Qed.

End search.
