(* ===== verification/ImpactClosure.v ===== *)
(** * Source impact: what a search finds

    The search from one root ends within its fuel.  Its nodes are exactly the
    rows the root reaches in its session, and its edges give every node the same
    distance and the same simple routes as all edges of the session. *)

From S2P Require Import Prelude.
From S2P Require Import PyDecimal.
From S2P Require Import Json.
From S2P Require Import Symbolic.
From S2P Require Import ConsensusPorts.
From S2P Require Import Cursor.
From S2P Require Import ReasoningGraph.
From S2P Require Import GraphFacts.
From S2P Require Import SourceImpact.
From S2P Require Import ImpactPaths.
From S2P Require Import ImpactSearch.
Import Graph.
Import Impact.

(** A simple path goes on as a simple path from any of its nodes. *)
Lemma trail_drop q g r p v i :
  trail q g r p v -> (i < length p)%nat ->
  exists w, nsteps (hop q g) i r w /\ trail q g w (drop i p) v.
Proof.
  intros Ht. revert i. induction Ht as [|p u v Ht IH Hh Hv]; intros i Hi.
  - cbn in Hi. assert (i = 0%nat) as -> by lia. exists r. split; constructor.
  - rewrite length_app in Hi. cbn in Hi. destruct (decide (i < length p)%nat) as [Hlt|Hge].
    + destruct (IH i Hlt) as (w & Hw & Hd). exists w. split; [done|]. rewrite drop_app_le by lia.
      econstructor; [done|done|]. intros Hin. apply Hv. rewrite <- (take_drop i p). apply elem_of_app. by right.
    + assert (i = length p) as -> by lia. exists v. rewrite drop_app_length. split; [|constructor].
      pose proof (trail_nsteps _ _ _ _ _ Ht) as Hn. apply trail_end in Ht as (_ & _ & Hl).
      replace (length p) with (pred (length p) + 1)%nat by lia. eapply nsteps_trans; [exact Hn|by apply nsteps_once].
Qed.

Section closure.
Variable decode_other : list ascii -> res string.
Variables ws sid : uuid.
Variable g : graph.

(** What the tables promise: unique keys, edges between rows of their session,
    and an edge table whose members a cursor can number. *)
Record graph_ok : Prop := {
  go_keys : keys_ok g;
  go_size : (Z.of_nat (1 + 2 * length (gd_edges g)) < digit_room)%Z;
  go_rows : forall e, e ∈ session_edges ws sid g -> exists n, session_node ws sid g n /\ gn_id n = ge_to_node e
}.

Hypothesis Hok : graph_ok.

Abbreviation fq := (forward_query ws sid).
Abbreviation edges := (session_edges ws sid g).
Abbreviation is_row := (session_node ws sid g).
Abbreviation spath := (path ws sid g).

Lemma row_unique n m : n ∈ gd_nodes g -> m ∈ gd_nodes g -> gn_id n = gn_id m -> n = m.
Proof. apply (same_key gn_id). apply Hok. Qed.

Lemma edge_unique e f : e ∈ gd_edges g -> f ∈ gd_edges g -> ge_id e = ge_id f -> e = f.
Proof. apply (same_key ge_id). apply Hok. Qed.

Lemma seg_nodes_elem f n :
  n ∈ seg_nodes ws sid g f <-> is_row n /\ exists k, (k <= bound)%nat /\ nsteps (arc edges) k f (gn_id n).
Proof. unfold seg_nodes. by rewrite node_rows_elem, segment_nodes. Qed.

Lemma seg_edges_elem f e :
  e ∈ seg_edges ws sid g f <->
  e ∈ edges /\ exists p, spath f p (ge_from_node e) /\ (length p <= bound)%nat /\ ge_to_node e ∉ p.
Proof.
  unfold seg_edges. rewrite edge_rows_elem, segment_edges. split.
  - intros [He (e' & p & u & v & Hid & Hp & Hl & He' & <- & <- & Hv)]. split; [done|].
    assert (e' = e) as -> by (apply session_edges_elem in He as [He _], He' as [He' _]; by apply edge_unique). by exists p.
  - intros [He (p & Hp & Hl & Hv)]. split; [done|]. by exists e, p, (ge_from_node e), (ge_to_node e).
Qed.

(** A node the session's edges reach from a row is a row. *)
Lemma reached_row n v : is_row n -> rtc (arc edges) (gn_id n) v -> exists m, is_row m /\ gn_id m = v.
Proof.
  intros Hn Hr. apply rtc_inv_r in Hr as [<-|(u & _ & (e & He & _ & <-))]; [by exists n|]. by apply (go_rows Hok).
Qed.

Lemma nsteps_reach k u v : nsteps (arc edges) k u v -> rtc (arc edges) u v.
Proof. intros. apply rtc_nsteps. by exists k. Qed.

Lemma path_reach f p v : spath f p v -> rtc (arc edges) f v.
Proof. intros Hp. apply trail_nsteps in Hp. apply (nsteps_forward ws sid g f) in Hp. by eapply nsteps_reach. Qed.

(** ** The invariant of the search *)

Section search.
Variable root : GraphNode.
Hypothesis Hroot : is_row root.

Definition found (n : GraphNode) : Prop := is_row n /\ rtc (arc edges) (gn_id root) (gn_id n).

Record search_inv (s : search) : Prop := {
  si_nodes : row_dict gn_id (gd_nodes g) (se_nodes s);
  si_edges : row_dict ge_id (gd_edges g) (se_edges s);
  si_distinct : NoDup (se_expanded s);
  si_expanded : forall f, f ∈ se_expanded s -> exists n, found n /\ gn_id n = f;
  si_queue : forall n, n ∈ se_queue s -> found n;
  si_found : forall n, n ∈ map snd (se_nodes s) -> found n;
  si_session : forall e, e ∈ map snd (se_edges s) -> e ∈ edges;
  si_has_nodes : forall f n, f ∈ se_expanded s -> n ∈ seg_nodes ws sid g f -> n ∈ map snd (se_nodes s);
  si_has_edges : forall f e, f ∈ se_expanded s -> e ∈ seg_edges ws sid g f -> e ∈ map snd (se_edges s);
  si_frontier : forall f n, f ∈ se_expanded s -> truncated (fq f) g = true -> n ∈ seg_nodes ws sid g f ->
    gn_id n ∈ se_expanded s ++ map gn_id (se_queue s);
  si_root : gn_id root ∈ se_expanded s ++ map gn_id (se_queue s)
}.

Lemma initial_inv : search_inv (mkSearch [root] [] [] [] false).
Proof.
  assert (H0 : forall A (key : A -> uuid) t, row_dict key t []).
  { intros A key t. split; [done|]. split; [constructor|]. intros x Hx. by apply not_elem_of_nil in Hx. }
  constructor; cbn [se_queue se_expanded se_nodes se_edges map app]; try (intros; exfalso; by eapply not_elem_of_nil).
  - apply H0.
  - apply H0.
  - constructor.
  - intros n ->%list_elem_of_singleton. split; [done|constructor].
  - left.
Qed.

Lemma drop_member (x y : uuid) l m : x ∈ l ++ y :: m -> y ∈ l -> x ∈ l ++ m.
Proof. set_solver. Qed.

Lemma move_member (x y : uuid) l m m' : x ∈ l ++ y :: m -> (forall z, z ∈ m -> z ∈ m') -> x ∈ (y :: l) ++ m'.
Proof. set_solver. Qed.

(** A node that was expanded before is dropped. *)
Lemma skip_inv f rest s :
  search_inv s -> se_queue s = f :: rest -> gn_id f ∈ se_expanded s ->
  search_inv (mkSearch rest (se_expanded s) (se_nodes s) (se_edges s) (se_truncated s)).
Proof.
  intros [? ? ? ? Hq ? ? ? ? Hf Hr] Hs Hin. rewrite Hs in Hq, Hf, Hr. cbn [map] in Hf, Hr.
  constructor; cbn [se_queue se_expanded se_nodes se_edges]; try done.
  - intros n Hn. apply Hq. by right.
  - intros f' n Hf' Ht Hn. by apply (drop_member _ (gn_id f)); [apply (Hf f')|].
  - by apply (drop_member _ (gn_id f)).
Qed.

Lemma seg_nodes_found f n : found f -> n ∈ seg_nodes ws sid g (gn_id f) -> found n.
Proof.
  intros [_ Hr] (Hn & k & _ & Hk)%seg_nodes_elem. split; [done|]. etransitivity; [done|by eapply nsteps_reach].
Qed.

Lemma sort_by_elem_map {A} (key : A -> uuid) le l x : x ∈ map key (sort_by le l) <-> x ∈ map key l.
Proof. by rewrite (Permutation_map key (sort_by_perm le l)). Qed.

(** Expanding a node keeps the invariant. *)
Lemma take_segment_inv f rest s :
  search_inv s -> se_queue s = f :: rest -> gn_id f ∉ se_expanded s ->
  search_inv (take_segment s rest (gn_id f :: se_expanded s)
    (mkSegment (keyed gn_id (seg_nodes ws sid g (gn_id f))) (keyed ge_id (seg_edges ws sid g (gn_id f)))
       (truncated (fq (gn_id f)) g))).
Proof.
  intros [Hsn Hse Hd Hex Hq Hfd Hss Hhn Hhe Hfr Hro] Hs Hnot. rewrite Hs in Hq, Hfr, Hro. cbn [map] in Hfr, Hro.
  assert (Hf : found f) by (apply Hq; left).
  unfold take_segment. cbn [sg_nodes sg_edges sg_truncated]. rewrite !keyed_values.
  destruct (row_dict_update gn_id (gd_nodes g) (se_nodes s) (seg_nodes ws sid g (gn_id f))) as [Hnd Hne];
    [apply Hok|done|by intros n ((? & _) & _)%seg_nodes_elem|].
  destruct (row_dict_update ge_id (gd_edges g) (se_edges s) (seg_edges ws sid g (gn_id f))) as [Hed Hee];
    [apply Hok|done|by intros e ((? & _)%session_edges_elem & _)%seg_edges_elem|].
  set (cont := List.filter _ (seg_nodes ws sid g (gn_id f))).
  assert (Hcont : forall n, n ∈ cont <-> n ∈ seg_nodes ws sid g (gn_id f) /\ gn_id n ∉ gn_id f :: se_expanded s).
  { intros n. unfold cont. rewrite list_elem_of_In, filter_In, <- list_elem_of_In, negb_true_iff, bool_decide_eq_false. done. }
  set (queue := if truncated (fq (gn_id f)) g then _ else rest).
  assert (Hrest : forall x, x ∈ map gn_id rest -> x ∈ map gn_id queue).
  { unfold queue. destruct (truncated _ _); [|done]. intros x Hx. rewrite map_app. apply elem_of_app. by left. }
  constructor; cbn [se_queue se_expanded se_nodes se_edges]; try done.
  - by constructor.
  - intros x [->|Hx]%elem_of_cons; [by exists f|by apply Hex].
  - intros n. unfold queue. destruct (truncated _ _); [|intros Hn; apply Hq; by right].
    intros [Hn|Hn]%elem_of_app; [apply Hq; by right|]. apply sort_by_elem, Hcont in Hn as [Hn _]. by eapply seg_nodes_found.
  - intros n [Hn|Hn]%Hne; [by apply Hfd|by eapply seg_nodes_found].
  - intros e [He|He]%Hee; [by apply Hss|by apply seg_edges_elem in He as [? _]].
  - intros x n [->|Hx]%elem_of_cons Hn; apply Hne; [by right|left; by eapply Hhn].
  - intros x e [->|Hx]%elem_of_cons He; apply Hee; [by right|left; by eapply Hhe].
  - intros x n [->|Hx]%elem_of_cons Ht Hn.
    + destruct (decide (gn_id n ∈ gn_id f :: se_expanded s)); [apply elem_of_app; by left|]. apply elem_of_app; right.
      unfold queue. rewrite Ht, map_app. apply elem_of_app; right. apply sort_by_elem_map, list_elem_of_fmap. exists n.
      split; [done|]. by apply Hcont.
    + by apply (move_member _ (gn_id f) _ (map gn_id rest)); [apply (Hfr x)|].
  - by apply (move_member _ (gn_id f) _ (map gn_id rest)).
Qed.

(** ** The search ends *)

Definition room (s : search) : nat :=
  (length (se_queue s) + length (gd_nodes g) * (length (gd_nodes g) - length (se_expanded s)))%nat.

Lemma expanded_room s f :
  search_inv s -> found f -> gn_id f ∉ se_expanded s -> (length (se_expanded s) < length (gd_nodes g))%nat.
Proof.
  intros Hi [[Hin _] _] Hf. change (length (gn_id f :: se_expanded s) <= length (gd_nodes g))%nat.
  rewrite <- (length_map gn_id). apply submseteq_length, NoDup_submseteq; [constructor; [done|apply Hi]|].
  intros x [->|Hx]%elem_of_cons; [apply list_elem_of_fmap; by exists f|].
  apply (si_expanded _ Hi) in Hx as (n & ((Hn & _) & _) & <-). apply list_elem_of_fmap. by exists n.
Qed.

Lemma seg_nodes_length f : (length (seg_nodes ws sid g f) <= length (gd_nodes g))%nat.
Proof. unfold seg_nodes, node_rows. rewrite sort_by_length. apply filter_length_le. Qed.

Lemma expand_total fuel s :
  search_inv s -> (room s <= fuel)%nat ->
  exists s', expand decode_other fuel ws sid g s = Ok s' /\ search_inv s' /\ se_queue s' = [].
Proof.
  revert s; induction fuel as [|fuel IH]; intros s Hi Hr.
  - unfold room in Hr. cbn [expand]. destruct (se_queue s) eqn:E; [by exists s|]. cbn in Hr. lia.
  - cbn [expand]. destruct (se_queue s) as [|f rest] eqn:E; [by exists s|]. case_bool_decide as Hx.
    + apply IH; [by eapply skip_inv|]. unfold room in *. rewrite E in Hr. cbn in *. lia.
    + rewrite (read_segment_exact decode_other ws sid g (go_keys Hok) (go_size Hok)). cbn [mbind res_bind].
      apply IH; [by apply take_segment_inv|].
      assert (Hl : (length (se_expanded s) < length (gd_nodes g))%nat).
      { apply (expanded_room s f); [done|apply (si_queue _ Hi); rewrite E; left|done]. }
      unfold room, take_segment in *. rewrite E in Hr. cbn [se_queue se_expanded sg_nodes sg_truncated length] in *.
      rewrite keyed_values. pose proof (seg_nodes_length (gn_id f)).
      assert (Hc : forall p, (length (List.filter p (seg_nodes ws sid g (gn_id f))) <= length (gd_nodes g))%nat)
        by (intros p; etransitivity; [apply filter_length_le|done]).
      destruct (truncated _ _); [rewrite length_app, sort_by_length; specialize (Hc (fun n => negb (bool_decide (gn_id n ∈ gn_id f :: se_expanded s))))|]; nia.
Qed.

(** ** What was found *)

Section done.
Variable s : search.
Hypothesis Hi : search_inv s.
Hypothesis Hend : se_queue s = [].

Lemma frontier_expanded f n :
  f ∈ se_expanded s -> truncated (fq f) g = true -> n ∈ seg_nodes ws sid g f -> gn_id n ∈ se_expanded s.
Proof. intros Hf Ht Hn. pose proof (si_frontier _ Hi f n Hf Ht Hn) as H. by rewrite Hend, app_nil_r in H. Qed.

Lemma root_expanded : gn_id root ∈ se_expanded s.
Proof. pose proof (si_root _ Hi) as H. by rewrite Hend, app_nil_r in H. Qed.

(** A node twelve hops from an expanded, truncated one is expanded. *)
Lemma chunk_expanded f w :
  f ∈ se_expanded s -> truncated (fq f) g = true -> nsteps (arc edges) bound f w -> w ∈ se_expanded s.
Proof.
  intros Hf Ht Hw. destruct (si_expanded _ Hi f Hf) as (nf & [Hnf Hrf] & <-).
  destruct (reached_row nf w) as (n & Hn & <-); [done|by eapply nsteps_reach|].
  apply (frontier_expanded (gn_id nf)); [done|done|]. apply seg_nodes_elem. split; [done|]. by exists bound.
Qed.

Lemma all_nodes k f n :
  f ∈ se_expanded s -> nsteps (arc edges) k f (gn_id n) -> is_row n -> n ∈ map snd (se_nodes s).
Proof.
  revert f; induction k as [k IH] using lt_wf_ind; intros f Hf Hk Hn.
  destruct (decide (k <= bound)%nat) as [Hle|Hgt].
  { apply (si_has_nodes _ Hi f); [done|]. apply seg_nodes_elem. split; [done|]. by exists k. }
  destruct (truncated (fq f) g) eqn:Ht.
  - replace k with (bound + (k - bound))%nat in Hk by lia. apply nsteps_add_inv in Hk as (w & Hw & Hwn).
    apply (IH (k - bound)%nat ltac:(unfold bound in *; lia) w); [by eapply chunk_expanded|done|done].
  - apply (si_has_nodes _ Hi f); [done|]. unfold seg_nodes. apply node_rows_elem. split; [done|].
    apply (untruncated_closure _ _ (depth_ok ws sid f) _ Ht). exists f. split; [left|]. apply rtc_forward. by eapply nsteps_reach.
Qed.

Lemma found_iff n : n ∈ map snd (se_nodes s) <-> found n.
Proof.
  split; [apply (si_found _ Hi)|]. intros [Hn (k & Hk)%rtc_nsteps]. by eapply all_nodes; [apply root_expanded| |].
Qed.

(** Every edge that extends a simple path from the root is collected. *)
Lemma all_edges n f p e :
  length p = n -> f ∈ se_expanded s -> spath f p (ge_from_node e) -> e ∈ edges -> ge_to_node e ∉ p ->
  e ∈ map snd (se_edges s).
Proof.
  revert f p; induction n as [n IH] using lt_wf_ind; intros f p Hl Hf Hp He Hv.
  destruct (decide (n <= bound)%nat) as [Hle|Hgt].
  { apply (si_has_edges _ Hi f); [done|]. apply seg_edges_elem. split; [done|]. exists p. split; [done|]. split; [lia|done]. }
  assert (Hlong : trail (fq f) g f (p ++ [ge_to_node e]) (ge_to_node e)).
  { econstructor; [exact Hp| |done]. apply hop_forward. by exists e. }
  assert (Ht : truncated (fq f) g = true).
  { apply segment_truncated. destruct (trail_take _ _ _ _ _ (S (S bound)) Hlong) as (w & Hw);
      [rewrite length_app; cbn [length]; unfold bound in *; lia|].
    exists (take (S (S bound)) (p ++ [ge_to_node e])), w. split; [exact Hw|]. rewrite length_take, length_app. cbn [length]. unfold bound in *; lia. }
  destruct (trail_drop _ _ _ _ _ bound Hp) as (w & Hw & Hd); [lia|]. apply nsteps_forward in Hw.
  apply (IH (length (drop bound p))) with (f := w) (p := drop bound p); [rewrite length_drop; unfold bound in *; lia|done| | |done|].
  - by eapply chunk_expanded.
  - by apply (trail_any ws sid g f).
  - intros Hin. apply Hv. rewrite <- (take_drop bound p). apply elem_of_app. by right.
Qed.

Lemma root_edges p e :
  spath (gn_id root) p (ge_from_node e) -> e ∈ edges -> ge_to_node e ∉ p -> e ∈ map snd (se_edges s).
Proof. intros. by eapply all_edges; [|apply root_expanded| | |]. Qed.

(** ** Distances and routes are those of the session *)

Abbreviation kept := (map snd (se_edges s)).

Lemma kept_arc u v : arc kept u v -> arc edges u v.
Proof. intros (e & He & Hf & Ht). exists e. split; [by apply (si_session _ Hi)|done]. Qed.

Lemma kept_nsteps k u v : nsteps (arc kept) k u v -> nsteps (arc edges) k u v.
Proof. induction 1 as [|k x y z Hxy _ IH]; [constructor|]. econstructor; [by apply kept_arc|done]. Qed.

Lemma kept_trail p v : spath (gn_id root) p v -> nsteps (arc kept) (pred (length p)) (gn_id root) v.
Proof.
  induction 1 as [|p u v Hp IH Hh Hv]; [constructor|]. apply hop_forward in Hh as (e & He & Hf & Ht). subst u v.
  rewrite length_app. cbn [length]. assert (Hl : (0 < length p)%nat) by (apply trail_end in Hp as (_ & _ & Hp); exact Hp).
  replace (pred (length p + 1)) with (pred (length p) + 1)%nat by lia. eapply nsteps_trans; [exact IH|].
  apply nsteps_once. exists e. split; [by eapply root_edges|done].
Qed.

Lemma kept_distance v k : distance (arc kept) (gn_id root) v k <-> distance (arc edges) (gn_id root) v k.
Proof.
  assert (Hback : forall j, nsteps (arc edges) j (gn_id root) v -> exists i, (i <= j)%nat /\ nsteps (arc kept) i (gn_id root) v).
  { intros j Hj. apply (nsteps_forward ws sid g (gn_id root)) in Hj. destruct (nsteps_trail _ _ _ _ _ Hj) as (p & Hp & Hl).
    exists (pred (length p)). split; [lia|by apply kept_trail]. }
  split; intros [Hk Hm]; split.
  - by apply kept_nsteps.
  - intros j (i & Hle & Hs)%Hback. specialize (Hm _ Hs). lia.
  - destruct (Hback k Hk) as (i & Hle & Hs). specialize (Hm i (kept_nsteps _ _ _ Hs)). by replace k with i by lia.
  - intros j Hj. by apply Hm, kept_nsteps.
Qed.

Lemma kept_reach v : rtc (arc edges) (gn_id root) v -> rtc (arc kept) (gn_id root) v.
Proof.
  intros (k & Hk)%rtc_nsteps. apply (nsteps_forward ws sid g (gn_id root)) in Hk.
  destruct (nsteps_trail _ _ _ _ _ Hk) as (p & Hp & _). apply rtc_nsteps. exists (pred (length p)). by apply kept_trail.
Qed.

Lemma kept_route target p u visited es :
  spath (gn_id root) p u -> (forall x, x ∈ p <-> x ∈ visited) -> target ∉ visited ->
  (is_route kept target visited u es <-> is_route edges target visited u es).
Proof.
  revert p u visited; induction es as [|e es IH]; intros p u visited Hp Hv Ht; [done|].
  assert (Hke : e ∈ kept -> e ∈ edges) by apply (si_session _ Hi).
  assert (Hek : e ∈ edges -> ge_from_node e = u -> ge_to_node e ∉ visited -> e ∈ kept).
  { intros He <- Hn. apply (root_edges p); [done|done|]. by rewrite Hv. }
  destruct es as [|e' es].
  - cbn [is_route]. split; [intros (? & ? & ?); auto|]. intros (He & Hf & <-). auto.
  - rewrite !is_route_cons by done.
    assert (Hrec : e ∈ edges -> ge_from_node e = u -> ge_to_node e <> target -> ge_to_node e ∉ visited ->
      (is_route kept target (ge_to_node e :: visited) (ge_to_node e) (e' :: es) <->
       is_route edges target (ge_to_node e :: visited) (ge_to_node e) (e' :: es))).
    { intros He Hf Hne Hn. apply (IH (p ++ [ge_to_node e])).
      - econstructor; [exact Hp| |by rewrite Hv]. apply hop_forward. by exists e.
      - intros x. rewrite elem_of_app, list_elem_of_singleton, elem_of_cons, Hv. tauto.
      - set_solver. }
    split; intros (He & Hf & Hne & Hn & Hr); (split; [auto|]); (split; [done|]); (split; [done|]); (split; [done|]);
      by apply Hrec; auto.
Qed.

End done.
End search.
End closure.
