(* ===== verification/ImpactFacts.v ===== *)
(** * Source impact: what an analysis reports

    For tables that satisfy their own constraints, an analysis succeeds and its
    artifacts are exactly those that some citation of the source reaches, each
    with its distance and its number of simple routes. *)

From S2P Require Import Prelude.
From S2P Require Import PyDecimal.
From S2P Require Import Json.
From S2P Require Import Symbolic.
From S2P Require Import ConsensusPorts.
From S2P Require Import Ledger.
From S2P Require Import ReasoningGraph.
From S2P Require Import GraphFacts.
From S2P Require Import SourceImpact.
From S2P Require Import ImpactPaths.
From S2P Require Import ImpactSearch.
From S2P Require Import ImpactClosure.
Import Graph.
Import Impact.

(** The number of simple routes from [u] to [v]; one for the node itself. *)
Definition route_count (edges : list GraphEdge) (u v : uuid) : Z :=
  if bool_decide (u = v) then 1 else Z.of_nat (length (all_routes edges v u [u])).

Lemma route_count_positive edges u v : rtc (arc edges) u v -> (1 <= route_count edges u v)%Z.
Proof.
  intros Hr. destruct (path_count_reachable edges u v Hr) as (n & _ & Hn & Hne & He). unfold route_count.
  case_bool_decide; [lia|]. by rewrite <- Hne.
Qed.

Lemma search_exact decode_other ws sid g root :
  graph_ok ws sid g -> session_node ws sid g root ->
  exists s, search_root decode_other ws sid root g = Ok s /\
    (forall n, n ∈ map snd (se_nodes s) <->
       session_node ws sid g n /\ rtc (arc (session_edges ws sid g)) (gn_id root) (gn_id n)) /\
    (forall n, n ∈ map snd (se_nodes s) -> exists k,
       distance (arc (session_edges ws sid g)) (gn_id root) (gn_id n) k /\
       _shortest_depth (gn_id root) (gn_id n) (map snd (se_edges s)) = Ok (Z.of_nat k) /\
       _path_count (gn_id root) (gn_id n) (map snd (se_edges s)) =
         Ok (route_count (session_edges ws sid g) (gn_id root) (gn_id n))).
Proof.
  intros Hok Hroot.
  destruct (expand_total decode_other ws sid g Hok root Hroot (search_fuel g) _ (initial_inv ws sid g root Hroot))
    as (s & Hs & Hi & Hend).
  { unfold room, search_fuel. cbn [se_queue se_expanded length]. lia. }
  exists s. split; [exact Hs|]. split; [intros n; by apply found_iff|].
  intros n [Hn Hr]%(found_iff ws sid g Hok root s Hi Hend). pose proof (kept_reach ws sid g Hok root s Hi Hend _ Hr) as Hk.
  destruct (shortest_depth_exact _ _ _ Hk) as (k & Hd & Hdist). exists k.
  split; [by apply (kept_distance ws sid g Hok root s Hi Hend)|]. split; [exact Hd|].
  rewrite path_count_exact. unfold route_count. case_bool_decide as Heq; [done|]. f_equal.
  destruct (reachable_route _ _ _ Hk Heq) as (es & Hes%all_routes_elem).
  assert (Hcount : length (all_routes (map snd (se_edges s)) (gn_id n) (gn_id root) [gn_id root])
                   = length (all_routes (session_edges ws sid g) (gn_id n) (gn_id root) [gn_id root])).
  { apply same_route_count.
    - destruct (si_edges _ _ _ _ _ Hi) as (Hd' & Hnd & _). rewrite (row_keys ge_id _ Hd') in Hnd. by apply NoDup_fmap_1 in Hnd.
    - apply (NoDup_fmap_1 ge_id), filter_keys_NoDup, Hok.
    - intros es'. apply (kept_route ws sid g Hok root Hroot s Hi Hend _ [gn_id root]); [constructor|done|].
      intros E%list_elem_of_singleton. congruence. }
  rewrite <- Hcount. destruct (all_routes (map snd (se_edges s)) _ _ _); [by apply not_elem_of_nil in Hes|cbn [length]; lia].
Qed.

(** ** What the tables promise *)

(** Their primary keys, unique constraints, foreign keys and checks, for one tenant. *)
Record tables_ok (ws : uuid) (w : impact_db) : Prop := {
  to_graph : forall sid, graph_ok ws sid (db_graph w);
  to_refs : forall n, n ∈ gd_nodes (db_graph w) -> gn_workspace_id n = ws ->
    exists a, a ∈ db_artifacts w /\ ra_workspace_id a = ws /\ ra_session_id a = gn_session_id n /\ ra_id a = gn_ref_id n;
  to_unique : forall n m, n ∈ gd_nodes (db_graph w) -> m ∈ gd_nodes (db_graph w) ->
    gn_session_id n = gn_session_id m -> gn_ref_id n = gn_ref_id m -> n = m;
  to_artifacts : NoDup (map ra_id (db_artifacts w));
  to_versions : forall a, a ∈ db_artifacts w -> (1 <= ra_version a)%Z;
  to_consensus : NoDup (map cr_id (db_consensus w));
  to_recommendations : NoDup (map rr_id (db_recommendations w))
}.

(** ** Dictionaries keyed by a function of their values *)

Section key_spec.
Context {A K : Type} `{EqDecision K} (key : A -> K).

(** The dictionary holds exactly the values of [Q], each under its key. *)
Definition holds (Q : A -> Prop) (d : dict K A) : Prop :=
  NoDup (map fst d) /\ forall k x, dict_get k d = Some x <-> k = key x /\ Q x.

Lemma holds_set Q x d :
  (forall y, Q y -> key y = key x -> y = x) -> holds Q d -> holds (fun y => Q y \/ y = x) (dict_set (key x) x d).
Proof.
  intros Hu [Hn Hd]. split; [by apply dict_set_NoDup|]. intros k y. rewrite dict_get_set. case_decide as Hk.
  - split; [intros [= <-]; auto|]. intros [-> [Hy| ->]]; [|done]. f_equal. symmetry. by apply Hu.
  - rewrite Hd. split; [intros [-> Hy]; auto|]. intros [-> [Hy| ->]]; [done|congruence].
Qed.

Lemma holds_fold Q (l : list A) d :
  (forall x y, x ∈ l -> Q y \/ y ∈ l -> key y = key x -> y = x) -> holds Q d ->
  holds (fun y => Q y \/ y ∈ l) (foldl (fun d x => dict_set (key x) x d) d l).
Proof.
  revert Q d; induction l as [|x l IH]; intros Q d Hu Hd; cbn [foldl].
  { destruct Hd as [Hn Hd]. split; [done|]. intros k y. rewrite Hd, elem_of_nil. tauto. }
  assert (Hx : holds (fun y => Q y \/ y = x) (dict_set (key x) x d)).
  { apply holds_set; [|done]. intros y Hy. apply Hu; [left|by left]. }
  destruct (IH (fun y => Q y \/ y = x) (dict_set (key x) x d)) as [Hn Hg]; [|exact Hx|].
  { intros y z Hy Hz. apply Hu; [by right|]. rewrite elem_of_cons. tauto. }
  split; [exact Hn|].
  intros k y. rewrite Hg, elem_of_cons. tauto.
Qed.

Lemma holds_elem Q d x : holds Q d -> x ∈ map snd d <-> Q x.
Proof.
  intros [Hn Hd]. rewrite list_elem_of_fmap. split.
  - intros ([k y] & -> & Hin). apply (Hd k). by apply dict_get_nodup.
  - intros Hx. exists (key x, x). split; [done|]. apply dict_get_elem, Hd. done.
Qed.

Lemma holds_keys Q d : holds Q d -> map fst d = map key (map snd d).
Proof.
  intros [Hn Hd]. rewrite map_map. apply map_ext_in. intros [k y] Hin%list_elem_of_In. cbn.
  by apply (dict_get_nodup k y) in Hin as [-> _]%Hd; [|done].
Qed.

End key_spec.

Lemma foldR_pure {A S} (f : S -> A -> res S) (h : S -> A -> S) l s :
  (forall s x, x ∈ l -> f s x = Ok (h s x)) -> foldR f s l = Ok (foldl h s l).
Proof.
  revert s; induction l as [|x l IH]; intros s Hf; cbn; [done|]. rewrite (Hf s x) by left. cbn. apply IH.
  intros s' y Hy. apply Hf. by right.
Qed.

Lemma foldl_over_map {A B S} (f : A -> B) (h : S -> B -> S) s l : foldl h s (map f l) = foldl (fun s x => h s (f x)) s l.
Proof. revert s; induction l as [|x l IH]; intros s; cbn; [done|]. apply IH. Qed.

(** ** The nodes reached from the citations *)

Section analysis.
Variable decode_other : list ascii -> res string.
Variables ws source_id : uuid.
Variable w : impact_db.
Hypothesis Hw : tables_ok ws w.

Abbreviation g := (db_graph w).

(** [x] is a node the citation of evidence [r.2] in session [r.1] reaches, with
    its distance and its number of simple routes. *)
Definition reaches (r : uuid * uuid) (x : reached) : Prop :=
  exists root n k,
    node_for_artifact ws r.1 r.2 g = Some root /\ session_node ws r.1 g n /\
    distance (arc (session_edges ws r.1 g)) (gn_id root) (gn_id n) k /\
    x = (n, r.2, Z.of_nat k, route_count (session_edges ws r.1 g) (gn_id root) (gn_id n)).

Definition reached_key (x : reached) : uuid * uuid * uuid :=
  (gn_ref_id x.1.1.1, gn_session_id x.1.1.1, x.1.1.2).

Lemma reaches_unique r r' x y : reaches r x -> reaches r' y -> reached_key x = reached_key y -> x = y.
Proof.
  intros (root & n & k & Hr & (Hn & _ & Hs) & Hk & ->) (root' & n' & k' & Hr' & (Hn' & _ & Hs') & Hk' & ->).
  unfold reached_key. cbn [fst snd]. intros [= Href Hses Hev]. destruct r as [sid ev], r' as [sid' ev']. cbn [fst snd] in *.
  subst ev'. assert (sid' = sid) as -> by congruence. assert (root' = root) as -> by congruence.
  assert (n' = n) as -> by (apply (to_unique _ _ Hw); congruence). by rewrite (distance_unique _ _ _ _ _ Hk Hk').
Qed.

Lemma node_for_artifact_row sid ev root : node_for_artifact ws sid ev g = Some root -> session_node ws sid g root.
Proof.
  unfold node_for_artifact. intros [Hin H]%find_some. rewrite !andb_true_iff, !bool_decide_eq_true in H.
  apply list_elem_of_In in Hin. split; [done|tauto].
Qed.

Lemma analyse_root_spec Q r acc b :
  (forall x y, reaches r x -> Q y -> reached_key y = reached_key x -> y = x) -> holds reached_key Q acc ->
  exists acc' b', analyse_root decode_other ws w (acc, b) r = Ok (acc', b') /\
    holds reached_key (fun y => Q y \/ reaches r y) acc' /\
    (b' = false -> b = false /\ is_Some (node_for_artifact ws r.1 r.2 g)).
Proof.
  intros Hu Hacc. destruct r as [sid ev]. cbn [analyse_root fst snd].
  destruct (node_for_artifact ws sid ev g) as [root|] eqn:Hr.
  2: { exists acc, true. split; [done|]. split; [|done]. destruct Hacc as [Hn Hd]. split; [done|]. intros k y. rewrite Hd.
       enough (~ reaches (sid, ev) y) by tauto. intros (root & n & k' & Hr' & _). cbn [fst snd] in Hr'. congruence. }
  destruct (search_exact decode_other ws sid g root (to_graph _ _ Hw sid) (node_for_artifact_row _ _ _ Hr))
    as (s & -> & Hnodes & Hmeasure). cbn [mbind res_bind].
  set (measure_of := fun n => (n, ev, match _shortest_depth (gn_id root) (gn_id n) (map snd (se_edges s)) with Ok z => z | _ => 0%Z end,
    route_count (session_edges ws sid g) (gn_id root) (gn_id n)) : reached).
  rewrite (foldR_pure _ (fun d n => dict_set (reached_key (measure_of n)) (measure_of n) d)).
  2: { intros d n Hn. destruct (Hmeasure n Hn) as (k & _ & Hs & Hp). unfold aggregate_node, measure_of. by rewrite Hs, Hp. }
  assert (Hel : forall x, x ∈ map measure_of (map snd (se_nodes s)) <-> reaches (sid, ev) x).
  { intros x. rewrite list_elem_of_fmap. split.
    - intros (n & -> & Hn). destruct (Hmeasure n Hn) as (k & Hk & Hs & _). apply Hnodes in Hn as [Hn _].
      exists root, n, k. unfold measure_of. rewrite Hs. done.
    - intros (root' & n & k & Hr' & Hn & Hk & ->). cbn [fst snd] in *. assert (root' = root) as -> by congruence.
      assert (Hin : n ∈ map snd (se_nodes s)) by (apply Hnodes; split; [done|apply rtc_nsteps; exists k; apply Hk]).
      exists n. split; [|done]. destruct (Hmeasure n Hin) as (k' & Hk' & Hs & _). unfold measure_of. rewrite Hs.
      by rewrite (distance_unique _ _ _ _ _ Hk Hk'). }
  eexists _, _. split; [reflexivity|]. split; [|intros [Hb _]%orb_false_iff; split; [exact Hb|by exists root]].
  cbn [fst]. rewrite <- (foldl_over_map measure_of (fun d x => dict_set (reached_key x) x d)).
  destruct (holds_fold reached_key Q (map measure_of (map snd (se_nodes s))) acc) as [Hn Hd]; [|done|].
  - intros x y Hx%Hel [Hy|Hy%Hel] Hk; [by apply Hu|]. by apply (reaches_unique _ _ _ _ Hy Hx).
  - split; [exact Hn|]. intros k y. rewrite Hd, Hel. done.
Qed.

Definition citation_pairs : list (uuid * uuid) := roots_of (citation_roots ws source_id w).
Definition reached_any (x : reached) : Prop := exists r, r ∈ citation_pairs /\ reaches r x.

Lemma analyse_roots_spec :
  exists acc b, foldR (analyse_root decode_other ws w) ([], false) citation_pairs = Ok (acc, b) /\
    holds reached_key reached_any acc /\
    (b = false -> forall r, r ∈ citation_pairs -> is_Some (node_for_artifact ws r.1 r.2 g)).
Proof.
  assert (Hgen : forall l done acc b, holds reached_key (fun x => exists r, r ∈ done /\ reaches r x) acc ->
    (b = false -> forall r, r ∈ done -> is_Some (node_for_artifact ws r.1 r.2 g)) ->
    exists acc' b', foldR (analyse_root decode_other ws w) (acc, b) l = Ok (acc', b') /\
      holds reached_key (fun x => exists r, r ∈ done ++ l /\ reaches r x) acc' /\
      (b' = false -> forall r, r ∈ done ++ l -> is_Some (node_for_artifact ws r.1 r.2 g))).
  { induction l as [|r l IH]; intros dn acc b Hacc Hb; cbn [foldR]; [exists acc, b; by rewrite app_nil_r|].
    destruct (analyse_root_spec _ r acc b (fun x y Hx '(ex_intro _ r' (conj _ Hy)) => reaches_unique r' r y x Hy Hx) Hacc)
      as (acc' & b' & -> & [Hn Hd] & Hb'). cbn [mbind res_bind].
    replace (dn ++ r :: l) with ((dn ++ [r]) ++ l) by by rewrite <- app_assoc. apply IH.
    - split; [exact Hn|]. intros k x. rewrite Hd. setoid_rewrite elem_of_app. setoid_rewrite list_elem_of_singleton. naive_solver.
    - intros Hf r' [Hr'| ->%list_elem_of_singleton]%elem_of_app; [|by apply Hb']. apply Hb; [by apply Hb'|done]. }
  destruct (Hgen citation_pairs [] [] false) as (acc & b & H1 & H2 & H3); [| |by exists acc, b].
  - split; [constructor|]. intros k x. cbn. split; [done|]. intros (_ & r & Hr & _). by apply not_elem_of_nil in Hr.
  - intros _ r Hr. by apply not_elem_of_nil in Hr.
Qed.

End analysis.
