(* ===== verification/ImpactReports.v ===== *)
(** * Source impact: reports and retractions

    The artifacts, consensus results and recommendations of an analysis, and the
    retraction that is published with the report. *)

From S2P Require Import Prelude.
From S2P Require Import PyDecimal.
From S2P Require Import Json.
From S2P Require Import Symbolic.
From S2P Require Import ConsensusPorts.
From S2P Require Import Ledger.
From S2P Require Import ReasoningGraph.
From S2P Require Import GraphFacts.
From S2P Require Import SourceImpact.
From S2P Require Import ImpactPaths.
From S2P Require Import ImpactSearch.
From S2P Require Import ImpactClosure.
From S2P Require Import ImpactFacts.
Import Graph.
Import Impact.

(** ** Valid dependencies *)

Definition dependency_ok (d : ImpactDependency) : Prop :=
  match id_artifact_version d with Some v => (1 <= v)%Z | None => True end /\
  (0 <= id_min_depth d)%Z /\ (1 <= id_path_count d)%Z /\ dnonneg (id_evidence_weight d) /\
  match id_dependency_type d with
  | ARTIFACT => is_some (id_artifact_kind d) && is_some (id_logical_id d) && is_some (id_artifact_version d) = true
  | _ => id_artifact_kind d = None /\ id_logical_id d = None /\ id_artifact_version d = None
  end.

Lemma new_dependency_iff d d' : new_dependency d = Ok d' <-> d' = d /\ dependency_ok d.
Proof.
  unfold new_dependency, validated, dependency_ok, dnonneg, exact_artifact_snapshot, guard_not, raise. destruct d as [t i sid ev k lg v dep p wt]. cbn.
  destruct (Z.leb_spec 0 dep), (Z.leb_spec 1 p), (dleb dzero wt), v as [v|]; cbn;
    try destruct (Z.leb_spec 1 v); cbn; destruct t, k, lg; cbn; (split; [try discriminate; intros [= <-]|intros [-> ?]]);
    try done; try (split; [done|]); repeat split; try lia; try naive_solver lia.
Qed.

Lemma mapR_dependencies l : (forall d, d ∈ l -> dependency_ok d) -> mapR new_dependency l = Ok l.
Proof.
  intros Hl. rewrite (mapR_total _ id); [by rewrite map_id|]. intros d Hd. apply new_dependency_iff. split; [done|by apply Hl].
Qed.

(** ** Artifacts *)

(** The dependency of an artifact on a citation's evidence. *)
Definition artifact_dependency (a : artifact_row) (x : reached) : ImpactDependency :=
  mkDependency ARTIFACT (ra_id a) (ra_session_id a) x.1.1.2 (Some (ra_kind a)) (Some (ra_logical_id a)) (Some (ra_version a))
    x.1.2 x.2 dunit.

Section artifacts.
Variable decode_other : list ascii -> res string.
Variables ws source_id : uuid.
Variable w : impact_db.
Hypothesis Hw : tables_ok ws w.

Abbreviation reach := (reached_any ws source_id w).

Definition artifact_of (x : reached) (a : artifact_row) : Prop :=
  a ∈ db_artifacts w /\ ra_workspace_id a = ws /\ ra_id a = gn_ref_id x.1.1.1.

Lemma artifact_same a b : a ∈ db_artifacts w -> b ∈ db_artifacts w -> ra_id a = ra_id b -> a = b.
Proof. apply (same_key ra_id). apply Hw. Qed.

Lemma reach_row x : reach x -> x.1.1.1 ∈ gd_nodes (db_graph w) /\ gn_workspace_id x.1.1.1 = ws.
Proof. intros (r & _ & root & n & k & _ & (Hn & Hs & _) & _ & ->). done. Qed.

Lemma reach_artifact x : reach x -> exists a, artifact_of x a /\ ra_session_id a = gn_session_id x.1.1.1.
Proof. intros [Hn Hs]%reach_row. destruct (to_refs _ _ Hw _ Hn Hs) as (a & Ha & Hwa & Hsa & Hia). by exists a. Qed.

(** The artifact and the evidence determine the session. *)
Definition short_key (x : reached) : uuid * uuid := (gn_ref_id x.1.1.1, x.1.1.2).

Lemma short_key_unique x y : reach x -> reach y -> short_key x = short_key y -> x = y.
Proof.
  intros Hx Hy [= Href Hev]. destruct (reach_artifact x Hx) as (a & (Ha & _ & Hai) & Has).
  destruct (reach_artifact y Hy) as (b & (Hb & _ & Hbi) & Hbs).
  assert (b = a) as -> by (apply artifact_same; congruence).
  destruct Hx as (r & _ & Hx), Hy as (r' & _ & Hy). apply (reaches_unique ws w Hw r r' x y Hx Hy).
  unfold reached_key. congruence.
Qed.

Lemma reach_measures x : reach x -> (0 <= x.1.2)%Z /\ (1 <= x.2)%Z.
Proof.
  intros (r & _ & root & n & k & _ & _ & [Hk _] & ->). cbn. split; [lia|]. apply route_count_positive, rtc_nsteps. by exists k.
Qed.

Lemma index_artifact x a :
  artifact_of x a ->
  index_by ra_id (List.filter (fun a => bool_decide (ra_workspace_id a = ws)) (db_artifacts w)) !! gn_ref_id x.1.1.1 = Some a.
Proof.
  intros (Ha & Hwa & <-). apply index_by_NoDup; [apply filter_keys_NoDup, Hw|]. apply filter_elem. by rewrite bool_decide_true.
Qed.

(** Every reached node gives its artifact's dependency. *)
Lemma artifact_dependencies_spec l :
  NoDup l -> (forall x, x ∈ l -> reach x) ->
  exists deps, artifact_dependencies ws l w = Ok deps /\ length deps = length l /\
    NoDup (map (fun d => (id_dependent_id d, id_root_evidence_id d)) deps) /\
    forall d, d ∈ deps <-> exists x a, x ∈ l /\ artifact_of x a /\ d = artifact_dependency a x.
Proof.
  intros Hnd Hl. unfold artifact_dependencies.
  set (entry := fun x : reached => (short_key x, (x.1.2, x.2))).
  assert (Hinj : NoDup (map short_key l)).
  { apply NoDup_fmap_2_strong; [|done]. intros x y Hx Hy. by apply short_key_unique; apply Hl. }
  replace (map _ l) with (map entry l) by (apply map_ext; by intros [[[n ev] d] p]).
  rewrite dict_of_list_nodup by by rewrite map_map. set (sorted := sort_by _ (map entry l)).
  assert (Hin : forall kv, kv ∈ sorted <-> exists x, kv = entry x /\ x ∈ l).
  { intros kv. unfold sorted. by rewrite sort_by_elem, list_elem_of_fmap. }
  set (index := index_by ra_id _).
  assert (Hfull : exists deps, omap (fun '((artifact_id, root), (depth, paths)) =>
             a ← index !! artifact_id;
             Some (mkDependency ARTIFACT artifact_id (ra_session_id a) root (Some (ra_kind a)) (Some (ra_logical_id a))
                     (Some (ra_version a)) depth paths dunit)) sorted = deps /\
             map (fun d => (id_dependent_id d, id_root_evidence_id d)) deps = map fst sorted /\
             forall d, d ∈ deps <-> exists x a, entry x ∈ sorted /\ x ∈ l /\ artifact_of x a /\ d = artifact_dependency a x).
  { assert (Hsub : forall kv, kv ∈ sorted -> exists x, kv = entry x /\ x ∈ l) by (intros; by apply Hin).
    clear Hin. eexists. split; [reflexivity|]. induction sorted as [|kv m IH]; cbn [omap list_omap map].
    - split; [done|]. intros d. split; [by intros ?%not_elem_of_nil|]. by intros (x & a & ?%not_elem_of_nil & _).
    - destruct IH as [IHk IHm]; [intros; apply Hsub; by right|].
      destruct (Hsub kv) as (x & -> & Hx); [left|]. destruct (reach_artifact x (Hl x Hx)) as (a & Ha & Has).
      assert (Hidx : index !! gn_ref_id x.1.1.1 = Some a) by by apply index_artifact.
      cbn [entry short_key fst snd]. rewrite Hidx. cbn [mbind option_bind map fst id_dependent_id id_root_evidence_id].
      split; [by rewrite IHk|]. intros d. rewrite elem_of_cons, IHm. split.
      + intros [->|(y & b & Hy & Hyl & Hb & ->)]; [|exists y, b; split; [by right|done]].
        exists x, a. split; [left|]. split; [done|]. split; [done|]. destruct Ha as (_ & _ & <-). done.
      + intros (y & b & [Hy|Hy]%elem_of_cons & Hyl & Hb & ->); [left|right; by exists y, b].
        assert (y = x) as -> by (apply short_key_unique; [by apply Hl|by apply Hl|exact (f_equal fst Hy)]).
        assert (b = a) as -> by (destruct Ha as (? & _ & ?), Hb as (? & _ & ?); apply artifact_same; congruence).
        destruct Ha as (_ & _ & <-). done. }
  destruct Hfull as (deps & -> & Hkeys & Hdeps). exists deps.
  assert (Hd : forall d, d ∈ deps <-> exists x a, x ∈ l /\ artifact_of x a /\ d = artifact_dependency a x).
  { intros d. rewrite Hdeps. split; [intros (x & a & _ & ?); by exists x, a|]. intros (x & a & Hx & Ha). exists x, a.
    split; [apply Hin; by exists x|done]. }
  split; [|split; [|split; [|exact Hd]]].
  - apply mapR_dependencies. intros d (x & a & Hx & (Ha & _) & ->)%Hd. unfold dependency_ok, artifact_dependency. cbn.
    destruct (reach_measures x (Hl x Hx)). pose proof (to_versions _ _ Hw a Ha). repeat split; try done.
  - rewrite <- (length_map (fun d => (id_dependent_id d, id_root_evidence_id d))), Hkeys, length_map. unfold sorted.
    by rewrite sort_by_length, length_map.
  - rewrite Hkeys. unfold sorted. rewrite (Permutation_map fst (sort_by_perm _ _)), map_map. done.
Qed.

End artifacts.

(** ** Consensus results and recommendations *)

(** A row that uses alternatives: its type, identifier, session, alternatives. *)
Inductive user (ws : uuid) (w : impact_db) : ImpactDependencyType -> uuid -> uuid -> list uuid -> Prop :=
| user_consensus c :
    c ∈ db_consensus w -> cr_workspace_id c = ws ->
    user ws w CONSENSUS_RESULT (cr_id c) (cr_session_id c) (alternatives_of c)
| user_recommendation r c :
    r ∈ db_recommendations w -> rr_workspace_id r = ws ->
    c ∈ db_consensus w -> cr_workspace_id c = ws -> cr_id c = rr_consensus_id r ->
    user ws w RECOMMENDATION (rr_id r) (rr_session_id r) (alternatives_of c).

Definition increment (t : ImpactDependencyType) : Z := if bool_decide (t = CONSENSUS_RESULT) then 1 else 2.

(** The reported artifacts, reached from [root], among the alternatives. *)
Definition basis (arts : list ImpactDependency) (root : uuid) (ids : list uuid) : list ImpactDependency :=
  List.filter (fun a => bool_decide (id_root_evidence_id a = root) && bool_decide (id_dependent_id a ∈ ids)) arts.

Definition sum_paths (l : list ImpactDependency) : Z := foldr (fun a n => id_path_count a + n)%Z 0%Z l.

(** [d] reports a row through its [basis]: one or two steps beyond the nearest
    artifact, over all their routes. *)
Definition rests_on (t : ImpactDependencyType) (l : list ImpactDependency) (d : ImpactDependency) : Prop :=
  (exists a, a ∈ l /\ id_min_depth d = (id_min_depth a + increment t)%Z) /\
  (forall a, a ∈ l -> (id_min_depth d <= id_min_depth a + increment t)%Z) /\ id_path_count d = sum_paths l.

Section downstream.
Abbreviation row := (ImpactDependencyType * uuid * uuid * list uuid)%type.
Abbreviation contribution := (downstream_key * (uuid * measure))%type.

Definition measure_of (a : ImpactDependency) : measure := (id_min_depth a, id_path_count a, id_evidence_weight a).
Definition metric_key (a : ImpactDependency) : uuid * uuid := (id_dependent_id a, id_root_evidence_id a).

Lemma metrics_of_nodup arts :
  NoDup (map metric_key arts) -> metrics_of arts = map (fun a => (metric_key a, measure_of a)) arts.
Proof.
  enough (Hg : forall d : dict (uuid * uuid) measure, NoDup (map fst d ++ map metric_key arts) ->
    foldl (fun d a => dict_set (metric_key a) (merge_measure (dict_get (metric_key a) d) (measure_of a)) d) d arts =
    d ++ map (fun a => (metric_key a, measure_of a)) arts) by apply (Hg []).
  induction arts as [|a arts IH]; intros d Hn; cbn [foldl map]; [by rewrite app_nil_r|].
  assert (Ha : metric_key a ∉ map fst d).
  { apply NoDup_app in Hn as (_ & Hn & _). intros Hin. apply (Hn _ Hin). left. }
  rewrite dict_set_fresh by done. destruct (dict_get (metric_key a) d) eqn:Hg.
  { apply dict_get_elem in Hg. exfalso. apply Ha, list_elem_of_fmap. by exists (metric_key a, m). }
  cbn [merge_measure]. rewrite IH; [by rewrite <- app_assoc|]. rewrite map_app, <- app_assoc. done.
Qed.

Definition contribute (d : dict downstream_key (uuid * measure)) (c : contribution) : dict downstream_key (uuid * measure) :=
  dict_set c.1 (c.2.1, merge_measure (snd <$> dict_get c.1 d) c.2.2) d.

(** What an artifact adds to a row. *)
Definition share (r : row) (a : ImpactDependency) : contribution :=
  ((r.1.1.1, r.1.1.2, id_root_evidence_id a),
   (r.1.2, (id_min_depth a + increment r.1.1.1, id_path_count a, id_evidence_weight a)%Z)).

Definition shares (arts : list ImpactDependency) (r : row) : list contribution :=
  map (share r) (List.filter (fun a => bool_decide (id_dependent_id a ∈ r.2)) arts).

Lemma count_row_shares arts d r :
  count_row (map (fun a => (metric_key a, measure_of a)) arts) d r = foldl contribute d (shares arts r).
Proof.
  destruct r as [[[t i] s] ids]. unfold count_row, shares. cbn [fst snd].
  revert d; induction arts as [|a arts IH]; intros d; cbn [map foldl List.filter]; [done|]. rewrite IH.
  unfold metric_key at 1, measure_of at 1. cbn beta iota. destruct (bool_decide (id_dependent_id a ∈ ids)); reflexivity.
Qed.

Lemma count_rows_shares arts rows d :
  foldl (count_row (map (fun a => (metric_key a, measure_of a)) arts)) d rows = foldl contribute d (flat_map (shares arts) rows).
Proof.
  revert d; induction rows as [|r rows IH]; intros d; cbn [foldl flat_map]; [done|].
  by rewrite IH, count_row_shares, foldl_app.
Qed.

Definition merge_share (o : option (uuid * measure)) (c : contribution) : option (uuid * measure) :=
  Some (c.2.1, merge_measure (snd <$> o) c.2.2).

Definition has_key (k : downstream_key) (c : contribution) : bool := bool_decide (c.1 = k).

Lemma contribute_get k l d :
  dict_get k (foldl contribute d l) = foldl merge_share (dict_get k d) (List.filter (has_key k) l).
Proof.
  revert d; induction l as [|c l IH]; intros d; cbn [foldl List.filter]; [done|]. rewrite IH. unfold contribute, has_key.
  rewrite dict_get_set. destruct (decide (k = c.1)) as [->|Hne]; [by rewrite bool_decide_true|by rewrite bool_decide_false by congruence].
Qed.

Lemma contribute_NoDup l d : NoDup (map fst d) -> NoDup (map fst (foldl contribute d l)).
Proof. revert d; induction l as [|c l IH]; intros d Hn; cbn [foldl]; [done|]. by apply IH, dict_set_NoDup. Qed.

(** The shares of one key are those of its row. *)
Lemma filter_shares_other arts k r : r.1.1 <> k.1 -> List.filter (has_key k) (shares arts r) = [].
Proof.
  intros Hne. unfold shares. induction (List.filter _ arts) as [|a l IH]; cbn; [done|]. unfold has_key at 1, share at 1. cbn.
  rewrite bool_decide_false; [done|]. intros Hk. apply Hne. rewrite <- Hk. by destruct (r.1.1).
Qed.

Lemma filter_shares_own arts t i root s ids :
  List.filter (has_key (t, i, root)) (shares arts (t, i, s, ids)) = map (share (t, i, s, ids)) (basis arts root ids).
Proof.
  unfold shares, basis, has_key. cbn [fst snd]. induction arts as [|a arts IH]; cbn [List.filter map]; [done|].
  case_bool_decide as Ha; [|by rewrite andb_false_r]. rewrite andb_true_r. cbn [map List.filter share fst snd].
  rewrite IH. case_bool_decide as H1; case_bool_decide as H2; try done; exfalso; congruence.
Qed.

Lemma filter_rows arts k rows :
  NoDup (map fst (map fst rows)) ->
  List.filter (has_key k) (flat_map (shares arts) rows) =
    match List.find (fun r : row => bool_decide (r.1.1 = k.1)) rows with
    | Some r => map (share r) (basis arts k.2 r.2)
    | None => []
    end.
Proof.
  intros Hn. induction rows as [|r rows IH]; cbn [flat_map List.find]; [done|]. cbn [map] in Hn. apply NoDup_cons in Hn as [Hr Hn].
  rewrite List.filter_app, (IH Hn). case_bool_decide as Hk; [|by rewrite filter_shares_other].
  destruct k as [[t i] root], r as [[[t' i'] s] ids]. cbn [fst snd] in *. injection Hk as -> ->. rewrite filter_shares_own.
  destruct (List.find _ rows) as [r|] eqn:Hf; [|by rewrite app_nil_r]. exfalso. apply find_some in Hf as [Hin Hf%bool_decide_eq_true].
  apply Hr. rewrite map_map, <- Hf. apply list_elem_of_fmap. exists r. split; [done|]. by apply list_elem_of_In.
Qed.

Lemma merge_share_step r s dep p wt b :
  merge_share (Some (s, (dep, p, wt))) (share r b) =
    Some (r.1.2, (Z.min dep (id_min_depth b + increment r.1.1.1), p + id_path_count b, dadd wt (id_evidence_weight b)))%Z.
Proof. done. Qed.

(** Merging the shares of a basis: the least depth, all routes. *)
Lemma merge_shares r l :
  l <> [] -> (forall a, a ∈ l -> dependency_ok a) ->
  exists dep wt, foldl merge_share None (map (share r) l) = Some (r.1.2, (dep, sum_paths l, wt)) /\ dnonneg wt /\
    (exists a, a ∈ l /\ dep = (id_min_depth a + increment r.1.1.1)%Z) /\
    (forall a, a ∈ l -> (dep <= id_min_depth a + increment r.1.1.1)%Z).
Proof.
  destruct l as [|a l]; [done|]. intros _ Hok. cbn [map foldl].
  change (merge_share None (share r a)) with (Some (r.1.2, (id_min_depth a + increment r.1.1.1, id_path_count a, id_evidence_weight a)%Z)).
  assert (Hg : forall l' dep p wt, dnonneg wt -> (forall b, b ∈ l' -> dependency_ok b) ->
    exists dep' wt', foldl merge_share (Some (r.1.2, (dep, p, wt))) (map (share r) l') = Some (r.1.2, (dep', p + sum_paths l', wt')%Z) /\
      dnonneg wt' /\ (dep' = dep \/ exists b, b ∈ l' /\ dep' = (id_min_depth b + increment r.1.1.1)%Z) /\ (dep' <= dep)%Z /\
      (forall b, b ∈ l' -> (dep' <= id_min_depth b + increment r.1.1.1)%Z)).
  { clear. induction l' as [|b l IH]; intros dep p wt Hw Hok; cbn [map foldl].
    { exists dep, wt. cbn. rewrite Z.add_0_r. split; [done|]. split; [done|]. split; [by left|]. split; [lia|].
      intros b Hb. by apply not_elem_of_nil in Hb. }
    rewrite merge_share_step.
    destruct (IH (Z.min dep (id_min_depth b + increment r.1.1.1)) (p + id_path_count b)%Z (dadd wt (id_evidence_weight b)))
      as (dep' & wt' & -> & Hw' & Hmin & Hle & Hall); [apply dadd_nonneg; [done|apply (Hok b); left]|intros; apply Hok; by right|].
    exists dep', wt'. cbn [sum_paths foldr]. fold (sum_paths l). rewrite Z.add_assoc. split; [done|]. split; [done|].
    split; [|split; [lia|intros c [->|Hc]%elem_of_cons; [lia|by apply Hall]]].
    destruct Hmin as [->|(c & Hc & ->)]; [|right; exists c; split; [by right|done]].
    destruct (Z.min_spec dep (id_min_depth b + increment r.1.1.1)) as [[_ ->]|[_ ->]]; [by left|right; exists b; split; [left|done]]. }
  destruct (Hg l (id_min_depth a + increment r.1.1.1)%Z (id_path_count a) (id_evidence_weight a))
    as (dep & wt & Hf & Hw & Hmin & Hle & Hall); [apply (Hok a); left|intros; apply Hok; by right|].
  exists dep, wt. split; [exact Hf|]. split; [done|]. split.
  - destruct Hmin as [->|(b & Hb & ->)]; [exists a; split; [left|done]|exists b; split; [by right|done]].
  - intros b [->|Hb]%elem_of_cons; [done|by apply Hall].
Qed.


Section records.
Variable ws : uuid.
Variable w : impact_db.
Hypothesis Hw : tables_ok ws w.

Abbreviation rows_for ids := (sort_by row_before (consensus_part ws ids w ++ recommendation_part ws ids w)).

Lemma uses_elem ids c : uses ids c = true <-> exists a, a ∈ alternatives_of c /\ a ∈ ids.
Proof.
  unfold uses. rewrite existsb_exists. setoid_rewrite bool_decide_eq_true. setoid_rewrite <- list_elem_of_In. done.
Qed.

Lemma rows_for_elem ids t i s alts :
  (t, i, s, alts) ∈ rows_for ids <-> user ws w t i s alts /\ exists a, a ∈ alts /\ a ∈ ids.
Proof.
  rewrite sort_by_elem, elem_of_app. unfold consensus_part, recommendation_part.
  rewrite list_elem_of_fmap, (list_elem_of_In (flat_map _ _)), in_flat_map. setoid_rewrite <- list_elem_of_In.
  setoid_rewrite list_elem_of_fmap. setoid_rewrite filter_elem. setoid_rewrite andb_true_iff.
  setoid_rewrite uses_elem. setoid_rewrite andb_true_iff. setoid_rewrite bool_decide_eq_true. split.
  - intros [(c & [= -> -> -> ->] & Hc & Hws & Hu)|(r & (Hr & Hrw) & c & [= -> -> -> ->] & Hc & [Hcw Hid] & Hu)]; (split; [|exact Hu]).
    + by constructor.
    + constructor; congruence || done.
  - intros [Hu Ha]. destruct Hu as [c Hc Hws|r c Hr Hrw Hc Hcw Hid]; [left; by exists c|right].
    exists r. split; [done|]. exists c. split; [done|]. split; [done|]. split; [|done]. split; [congruence|done].
Qed.

Lemma one_consensus p id : (length (List.filter (fun c => bool_decide (cr_id c = id) && p c) (db_consensus w)) <= 1)%nat.
Proof.
  assert (Hn : NoDup (map cr_id (List.filter (fun c => bool_decide (cr_id c = id) && p c) (db_consensus w))))
    by apply filter_keys_NoDup, Hw.
  destruct (List.filter _ _) as [|c [|c' l]] eqn:E; cbn [length]; [lia|lia|]. exfalso.
  assert (Hin : forall x, x ∈ c :: c' :: l -> cr_id x = id).
  { intros x. rewrite <- E, filter_elem, andb_true_iff, bool_decide_eq_true. tauto. }
  cbn [map] in Hn. apply NoDup_cons in Hn as [Hn _]. apply Hn. rewrite (Hin c), (Hin c') by set_solver. left.
Qed.

Lemma rows_for_NoDup ids : NoDup (map fst (map fst (rows_for ids))).
Proof.
  rewrite (Permutation_map fst (Permutation_map fst (sort_by_perm row_before _))), !map_app.
  unfold consensus_part, recommendation_part. rewrite !map_map. apply NoDup_app. split; [|split].
  - pose proof (filter_keys_NoDup cr_id (fun c => bool_decide (cr_workspace_id c = ws) && uses ids c) _ (to_consensus _ _ Hw)) as Hn.
    rewrite <- (map_map cr_id (pair CONSENSUS_RESULT)). by apply (NoDup_fmap_2 (pair CONSENSUS_RESULT)).
  - intros x (c & -> & _)%list_elem_of_fmap (z & E & Hz)%list_elem_of_fmap.
    apply list_elem_of_In, in_flat_map in Hz as (r & _ & Hz). apply list_elem_of_In, list_elem_of_fmap in Hz as (c' & -> & _).
    cbn in E. congruence.
  - set (rs := List.filter _ (db_recommendations w)). assert (Hn : NoDup (map rr_id rs)) by apply filter_keys_NoDup, Hw.
    induction rs as [|r rs IH]; cbn [flat_map map]; [constructor|]. cbn [map] in Hn. apply NoDup_cons in Hn as [Hr Hn].
    rewrite map_app. apply NoDup_app. split; [|split; [|by apply IH]].
    + rewrite map_map. set (l := List.filter _ (db_consensus w)). assert (Hl : (length l <= 1)%nat).
      { unfold l. rewrite (filter_ext _ (fun c => bool_decide (cr_id c = rr_consensus_id r)
          && (bool_decide (cr_workspace_id c = rr_workspace_id r) && uses ids c))); [apply one_consensus|].
        intros c. by destruct (bool_decide (cr_id c = rr_consensus_id r)), (bool_decide (cr_workspace_id c = rr_workspace_id r)). }
      destruct l as [|c [|c' l]]; cbn [map length] in *; [constructor|apply NoDup_singleton|lia].
    + intros x (y & -> & Hy)%list_elem_of_fmap (z & E & Hz)%list_elem_of_fmap. apply list_elem_of_fmap in Hy as (c & -> & _).
      apply list_elem_of_In, in_flat_map in Hz as (r' & Hr' & Hz). apply list_elem_of_In, list_elem_of_fmap in Hz as (c' & -> & _).
      cbn in E. apply Hr, list_elem_of_fmap. exists r'. split; [congruence|by apply list_elem_of_In].
Qed.

(** What a downstream dependency means. *)
Definition downstream_of (arts : list ImpactDependency) (d : ImpactDependency) : Prop :=
  exists ids, user ws w (id_dependency_type d) (id_dependent_id d) (id_session_id d) ids /\
    basis arts (id_root_evidence_id d) ids <> [] /\ rests_on (id_dependency_type d) (basis arts (id_root_evidence_id d) ids) d.

Lemma basis_ids arts root ids : basis arts root ids <> [] -> exists a, a ∈ ids /\ a ∈ map id_dependent_id arts.
Proof.
  intros Hne. destruct (basis arts root ids) as [|a l] eqn:E; [done|]. exists (id_dependent_id a).
  assert (Ha : a ∈ basis arts root ids) by (rewrite E; left). apply filter_elem in Ha as [Ha Hb].
  rewrite andb_true_iff, !bool_decide_eq_true in Hb. split; [apply Hb|]. apply list_elem_of_fmap. by exists a.
Qed.

(** One entry per row and evidence that share an artifact. *)
Lemma count_rows_get arts k s m rows :
  NoDup (map fst (map fst rows)) -> (forall a, a ∈ arts -> dependency_ok a) ->
  dict_get k (foldl contribute [] (flat_map (shares arts) rows)) = Some (s, m) ->
  exists ids, (k.1.1, k.1.2, s, ids) ∈ rows /\ basis arts k.2 ids <> [] /\ dnonneg m.2 /\
    rests_on k.1.1 (basis arts k.2 ids) (mkDependency k.1.1 k.1.2 s k.2 None None None m.1.1 m.1.2 m.2).
Proof.
  intros Hn Hok. rewrite contribute_get, (filter_rows _ _ _ Hn). cbn [dict_get].
  destruct (List.find _ rows) as [r|] eqn:Hf; [|done]. apply find_some in Hf as [Hr%list_elem_of_In Hk%bool_decide_eq_true].
  intros Hm. assert (Hne : basis arts k.2 r.2 <> []) by (intros E; by rewrite E in Hm).
  destruct (merge_shares r (basis arts k.2 r.2) Hne) as (dep & wt & Hms & Hwt & Hex & Hall).
  { intros a [Ha _]%filter_elem. by apply Hok. }
  rewrite Hms in Hm. injection Hm as <- <-. exists r.2. destruct k as [[t i] root], r as [[[t' i'] s'] ids]. cbn [fst snd] in *.
  injection Hk as -> ->. done.
Qed.

Lemma count_rows_complete arts t i s ids root rows :
  NoDup (map fst (map fst rows)) -> (t, i, s, ids) ∈ rows -> basis arts root ids <> [] -> (forall a, a ∈ arts -> dependency_ok a) ->
  is_Some (dict_get (t, i, root) (foldl contribute [] (flat_map (shares arts) rows))).
Proof.
  intros Hn Hr Hne Hok. rewrite contribute_get, (filter_rows _ _ _ Hn). cbn [dict_get fst snd].
  destruct (List.find _ rows) as [r|] eqn:Hf.
  2: { pose proof (find_none _ _ Hf (t, i, s, ids)) as H. cbn in H. apply list_elem_of_In, H in Hr. by rewrite bool_decide_true in Hr. }
  apply find_some in Hf as [Hin%list_elem_of_In Hk%bool_decide_eq_true].
  assert (r = (t, i, s, ids)) as ->.
  { apply (same_key (fun r : row => r.1.1) rows); [by rewrite <- (map_map fst fst)|done|done|done]. }
  cbn [snd]. destruct (merge_shares (t, i, s, ids) (basis arts root ids) Hne) as (dep & wt & -> & _); [|done].
  intros a [Ha _]%filter_elem. by apply Hok.
Qed.

Lemma downstream_records_spec arts :
  NoDup (map metric_key arts) -> (forall a, a ∈ arts -> dependency_ok a) ->
  exists down, downstream_records ws arts w = Ok down /\
    NoDup (map dependency_key down) /\ (forall d, d ∈ down -> id_dependency_type d <> ARTIFACT /\ downstream_of arts d) /\
    (forall t i s ids root, user ws w t i s ids -> basis arts root ids <> [] ->
       exists d, d ∈ down /\ dependency_key d = (t, i, root)).
Proof.
  intros Hn Hok. destruct (decide (arts = [])) as [->|Hne].
  { exists []. split; [done|]. split; [constructor|]. split; [intros d Hd; by apply not_elem_of_nil in Hd|done]. }
  unfold downstream_records. destruct arts as [|a0 arts']; [done|]. set (arts := a0 :: arts') in *. clearbody arts. clear Hne a0 arts'.
  rewrite (metrics_of_nodup arts Hn), count_rows_shares. set (rows := sort_by row_before _).
  assert (Hids : map (fun kv : uuid * uuid * measure => kv.1.1) (map (fun a => (metric_key a, measure_of a)) arts) = map id_dependent_id arts)
    by (rewrite map_map; done).
  assert (Hrn : NoDup (map fst (map fst rows))) by apply rows_for_NoDup.
  set (D := foldl contribute [] (flat_map (shares arts) rows)).
  assert (HDn : NoDup (map fst D)) by (apply contribute_NoDup; constructor).
  set (dep_of := fun x : downstream_key * (uuid * measure) =>
    mkDependency x.1.1.1 x.1.1.2 x.2.1 x.1.2 None None None x.2.2.1.1 x.2.2.1.2 x.2.2.2).
  replace (map _ (sort_by downstream_before D)) with (map dep_of (sort_by downstream_before D))
    by (apply map_ext; by intros [[[t i] root] [s [[dep p] wt]]]).
  assert (Hget : forall k s m, (k, (s, m)) ∈ D -> k.1.1 <> ARTIFACT /\ dnonneg m.2 /\ downstream_of arts (dep_of (k, (s, m)))).
  { intros k s m Hin%(dict_get_nodup _ _ _ HDn). apply count_rows_get in Hin as (ids & Hr & Hb & Hwt & Hres); [|done|done].
    unfold rows in Hr. rewrite Hids in Hr. apply rows_for_elem in Hr as [Hu _]. split; [by inversion Hu|]. split; [done|]. by exists ids. }
  exists (map dep_of (sort_by downstream_before D)). split; [|split; [|split]].
  - apply mapR_dependencies. intros d ([k [s m]] & -> & Hin%sort_by_elem)%list_elem_of_fmap.
    destruct (Hget k s m Hin) as (Hna & Hwt & ids & _ & Hb & (a & Ha & Hdep) & Hmin & Hp). unfold dependency_ok, dep_of in *. cbn in *.
    assert (Hpos : forall l, (forall a, a ∈ l -> dependency_ok a) -> l <> [] -> (1 <= sum_paths l)%Z).
    { clear. intros l. induction l as [|a l IH]; [done|]. intros Hl _. cbn. destruct (Hl a) as (_ & _ & H1 & _); [left|].
      destruct l as [|b l]; [cbn; lia|]. specialize (IH (fun x Hx => Hl x (list_elem_of_further _ _ _ Hx)) ltac:(done)). unfold sum_paths in IH. lia. }
    assert (Ha' : a ∈ arts) by by apply filter_elem in Ha as [? _].
    destruct (Hok a Ha') as (_ & Hd0 & _). unfold increment in Hdep. split; [done|]. split; [case_bool_decide; lia|].
    split; [rewrite Hp; apply Hpos; [|done]; intros b [Hb' _]%filter_elem; by apply Hok|]. split; [done|]. by destruct (k.1.1).
  - rewrite map_map. rewrite (map_ext _ fst) by (by intros [[[t i] root] x]).
    by rewrite (Permutation_map fst (sort_by_perm _ _)).
  - intros d ([k [s m]] & -> & Hin%sort_by_elem)%list_elem_of_fmap. destruct (Hget k s m Hin) as (? & _ & ?). done.
  - intros t i s ids root Hu Hb. destruct (count_rows_complete arts t i s ids root rows) as ([s' m] & Hm); [done| |done|done|].
    { unfold rows. rewrite Hids. apply rows_for_elem. split; [done|]. by eapply basis_ids. }
    exists (dep_of ((t, i, root), (s', m))). split; [|done]. apply list_elem_of_fmap. exists ((t, i, root), (s', m)). split; [done|].
    by apply sort_by_elem, dict_get_elem.
Qed.

End records.
End downstream.

(** ** The analysis *)

Section analysis.
Variable decode_other : list ascii -> res string.
Variables ws source_id : uuid.
Variable w : impact_db.
Hypothesis Hw : tables_ok ws w.

Lemma artifact_dependency_ok x a : reached_any ws source_id w x -> artifact_of ws w x a -> dependency_ok (artifact_dependency a x).
Proof.
  intros Hx (Ha & _). destruct (reach_measures ws source_id w x Hx). pose proof (to_versions _ _ Hw a Ha). by repeat split.
Qed.

Lemma analyse_spec :
  exists arts down t, analyse decode_other ws source_id w = Ok (sort_by dependency_before (arts ++ down), t) /\
    (forall d, d ∈ arts <-> exists x a, reached_any ws source_id w x /\ artifact_of ws w x a /\ d = artifact_dependency a x) /\
    NoDup (map dependency_key (arts ++ down)) /\
    (forall d, d ∈ down -> id_dependency_type d <> ARTIFACT /\ downstream_of ws w arts d) /\
    (forall ty i s ids root, user ws w ty i s ids -> basis arts root ids <> [] ->
       exists d, d ∈ down /\ dependency_key d = (ty, i, root)) /\
    (t = false -> forall r, r ∈ citation_pairs ws source_id w -> is_Some (node_for_artifact ws r.1 r.2 (db_graph w))).
Proof.
  unfold analyse. fold (citation_pairs ws source_id w).
  destruct (analyse_roots_spec decode_other ws source_id w Hw) as (agg & b & -> & Hagg & Hroots). cbn [mbind res_bind].
  set (l := sort_by reached_before (map snd agg)).
  assert (Hl : forall x, x ∈ l <-> reached_any ws source_id w x) by (intros x; unfold l; rewrite sort_by_elem; by eapply holds_elem).
  destruct (artifact_dependencies_spec ws source_id w Hw l) as (arts & -> & Hlen & Hkeys & Harts).
  { unfold l. rewrite (sort_by_perm reached_before). apply (NoDup_fmap_1 reached_key).
    change (reached_key <$> map snd agg) with (map reached_key (map snd agg)). rewrite <- (holds_keys _ _ _ Hagg). apply Hagg. }
  { intros x Hx. by apply Hl. }
  assert (Harts' : forall d, d ∈ arts <-> exists x a, reached_any ws source_id w x /\ artifact_of ws w x a /\ d = artifact_dependency a x).
  { intros d. rewrite Harts. setoid_rewrite Hl. done. }
  cbn [mbind res_bind]. destruct (downstream_records_spec ws w Hw arts Hkeys) as (down & -> & Hdk & Hdown & Hall).
  { intros d (x & a & Hx & Ha & ->)%Harts'. by apply artifact_dependency_ok. }
  cbn [mbind res_bind]. exists arts, down, (b || negb (Nat.eqb (length arts) (length agg))). split; [done|]. split; [exact Harts'|].
  split; [|split; [exact Hdown|split; [exact Hall|]]].
  - rewrite map_app. apply NoDup_app. split; [|split; [|done]].
    + apply (NoDup_fmap_1 (fun k => (k.1.2, k.2))).
      change (NoDup (map (fun k => (k.1.2, k.2)) (map dependency_key arts))). rewrite map_map. exact Hkeys.
    + intros k (d & -> & Hd)%list_elem_of_fmap (d' & E & Hd')%list_elem_of_fmap. apply Hdown in Hd' as [Hna _].
      apply Harts' in Hd as (x & a & _ & _ & ->). unfold dependency_key in E. cbn in E. congruence.
  - intros [Hb _]%orb_false_iff. by apply Hroots.
Qed.

Lemma impact_of_spec :
  lock_source_for_analysis ws source_id w = Ok tt ->
  exists deps t, analyse decode_other ws source_id w = Ok (deps, t) /\
    impact_of decode_other ws source_id w =
      Ok (mkAnalysis (if t then INCOMPLETE else COMPLETE) (negb t) t deps None).
Proof.
  intros Hlock. destruct analyse_spec as (arts & down & t & Ha & _). exists (sort_by dependency_before (arts ++ down)), t.
  split; [exact Ha|]. unfold impact_of. rewrite Hlock, Ha. cbn [mbind res_bind]. by destruct t.
Qed.

Lemma rests_on_perm t l l' d : l ≡ₚ l' -> rests_on t l d -> rests_on t l' d.
Proof.
  intros Hp ((a & Ha & Hd) & Hmin & Hs). split; [exists a; by rewrite <- Hp|]. split; [intros b Hb; apply Hmin; by rewrite Hp|].
  rewrite Hs. clear -Hp. unfold sum_paths. induction Hp; cbn; lia.
Qed.

Lemma basis_perm arts arts' root ids : arts ≡ₚ arts' -> basis arts root ids ≡ₚ basis arts' root ids.
Proof.
  unfold basis. intros Hp. induction Hp; cbn [List.filter].
  - done.
  - destruct (_ && _); [by constructor|done].
  - destruct (_ && _), (_ && _); try done. by constructor.
  - by etransitivity.
Qed.

End analysis.

(** C8. An analysis of a source that is not retracted always succeeds, and its
    artifacts are exactly those that a citation of the source reaches through
    the reasoning graph of its session, each with its distance from the evidence
    and its number of simple routes; a complete analysis found the graph node of
    every citation. *)
Theorem impact_is_exact decode_other ws source_id w
    (Hw : tables_ok ws w) (Hlock : lock_source_for_analysis ws source_id w = Ok tt) :
  exists a, impact_of decode_other ws source_id w = Ok a /\ ia_error a = None /\
    (forall d, (d ∈ ia_dependencies a /\ id_dependency_type d = ARTIFACT) <->
       exists x b, reached_any ws source_id w x /\ artifact_of ws w x b /\ d = artifact_dependency b x) /\
    (ia_complete a = true ->
       forall c, c ∈ citation_roots ws source_id w ->
       is_Some (node_for_artifact ws (ec_session_id c) (ec_evidence_artifact_id c) (db_graph w))).
Proof.
  destruct (impact_of_spec decode_other ws source_id w Hw Hlock) as (deps & t & Ha & ->).
  destruct (analyse_spec decode_other ws source_id w Hw) as (arts & down & t' & Ha' & Harts & _ & Hdown & _ & Hroots).
  rewrite Ha' in Ha. injection Ha as <- <-. eexists. split; [reflexivity|]. cbn [ia_error ia_dependencies ia_complete].
  split; [done|]. split.
  - intros d. rewrite sort_by_elem, elem_of_app. split.
    + intros [[Hd|Hd] Ht]; [by apply Harts|]. by apply Hdown in Hd as [Hna _].
    + intros Hd. split; [left; by apply Harts|]. by destruct Hd as (x & b & _ & _ & ->).
  - intros Ht c Hc. apply negb_true_iff in Ht. apply (Hroots Ht (ec_session_id c, ec_evidence_artifact_id c)).
    unfold citation_pairs, roots_of. rewrite sort_by_elem, elem_of_remove_dups. apply list_elem_of_fmap. by exists c.
Qed.

(** C33. The other entries of an analysis are exactly the consensus results and
    recommendations of the workspace that use a reported artifact, one entry for
    each and each evidence it rests on: its depth is one (two) more than that of
    its nearest artifact and its paths are all paths of its artifacts. *)
Theorem downstream_is_exact decode_other ws source_id w
    (Hw : tables_ok ws w) (Hlock : lock_source_for_analysis ws source_id w = Ok tt) :
  exists a, impact_of decode_other ws source_id w = Ok a /\
    NoDup (map dependency_key (ia_dependencies a)) /\
    let artifacts := List.filter (of_type ARTIFACT) (ia_dependencies a) in
    (forall d, d ∈ ia_dependencies a -> id_dependency_type d <> ARTIFACT -> downstream_of ws w artifacts d) /\
    (forall t i s ids root, user ws w t i s ids -> basis artifacts root ids <> [] ->
       exists d, d ∈ ia_dependencies a /\ dependency_key d = (t, i, root)).
Proof.
  destruct (impact_of_spec decode_other ws source_id w Hw Hlock) as (deps & t & Ha & ->).
  destruct (analyse_spec decode_other ws source_id w Hw) as (arts & down & t' & Ha' & Harts & Hn & Hdown & Hall & _).
  rewrite Ha' in Ha. injection Ha as <- <-. eexists. split; [reflexivity|]. cbn [ia_dependencies].
  split; [by rewrite (Permutation_map dependency_key (sort_by_perm dependency_before _))|]. set (artifacts := List.filter (of_type ARTIFACT) (sort_by dependency_before (arts ++ down))).
  assert (Hp : artifacts ≡ₚ arts).
  { assert (Hnd : NoDup (arts ++ down)) by by apply NoDup_fmap_1 in Hn. unfold artifacts. apply NoDup_Permutation.
    - apply (NoDup_fmap_1 id), filter_keys_NoDup. rewrite map_id, (sort_by_perm dependency_before). done.
    - by apply NoDup_app in Hnd as [? _].
    - intros d. rewrite filter_elem, sort_by_elem, elem_of_app. unfold of_type. rewrite bool_decide_eq_true. split.
      + intros [[Hd|Hd] Ht]; [done|]. by apply Hdown in Hd as [Hna _].
      + intros Hd. split; [by left|]. apply Harts in Hd as (x & b & _ & _ & ->). done. }
  split.
  - intros d Hd Ht. apply sort_by_elem, elem_of_app in Hd as [Hd|Hd].
    { apply Harts in Hd as (x & b & _ & _ & ->). done. }
    apply Hdown in Hd as (_ & ids & Hu & Hb & Hr). pose proof (basis_perm _ _ (id_root_evidence_id d) ids Hp) as Hbp.
    exists ids. split; [exact Hu|]. split; [intros E; apply Hb, Permutation_nil; by rewrite <- E|].
    by apply (rests_on_perm _ _ _ _ (Permutation_sym Hbp)).
  - intros ty i s ids root Hu Hb. destruct (Hall ty i s ids root Hu) as (d & Hd & Hk).
    { intros E. apply Hb, Permutation_nil. pose proof (basis_perm _ _ root ids Hp) as Hbp. by rewrite <- E. }
    exists d. split; [|done]. apply sort_by_elem, elem_of_app. by right.
Qed.
