(* ===== verification/RetractionFacts.v ===== *)
(** * Source impact: retractions

    A retraction and its report are published together: the source is retracted,
    the report can be read back, and one event carries it. *)

From S2P Require Import Prelude.
From S2P Require Import PyDecimal.
From S2P Require Import Json.
From S2P Require Import Symbolic.
From S2P Require Import ConsensusPorts.
From S2P Require Import Ledger.
From S2P Require Import ReasoningGraph.
From S2P Require Import SourceImpact.
From S2P Require Import ImpactReports.
Import Graph.
Import Impact.

(** ** Every analysis holds valid dependencies *)

Lemma mapR_dependency_ok l ds d : mapR new_dependency l = Ok ds -> d ∈ ds -> dependency_ok d.
Proof. intros Hl Hd. destruct (mapR_elem _ _ _ _ Hl Hd) as (x & _ & [-> ?]%new_dependency_iff). done. Qed.

Lemma analyse_dependencies_ok decode_other ws source_id w ds t :
  analyse decode_other ws source_id w = Ok (ds, t) -> forall d, d ∈ ds -> dependency_ok d.
Proof.
  unfold analyse. intros ([agg b] & _ & H)%bind_Ok. apply bind_Ok in H as (arts & Ha & H).
  apply bind_Ok in H as (down & Hd & [= <- _]). intros d [H|H]%sort_by_elem%elem_of_app.
  - by eapply mapR_dependency_ok.
  - unfold downstream_records in Hd. destruct arts; [injection Hd as <-; by apply not_elem_of_nil in H|].
    by eapply mapR_dependency_ok.
Qed.

Lemma impact_dependencies_ok decode_other ws source_id w a :
  impact_of decode_other ws source_id w = Ok a -> forall d, d ∈ ia_dependencies a -> dependency_ok d.
Proof.
  unfold impact_of. intros (u & _ & H)%bind_Ok.
  assert (Hnew : forall x, new_analysis x = Ok a -> a = x).
  { intros x. unfold new_analysis, validated. destruct (consistent_status _ _ _ _ _); cbn; [by intros [= <-]|done]. }
  destruct (analyse _ _ _ _) as [[ds t]|e] eqn:Ha; apply Hnew in H as ->; cbn [ia_dependencies].
  - by eapply analyse_dependencies_ok.
  - intros d Hd. by apply not_elem_of_nil in Hd.
Qed.

(** ** Reports *)

Lemma new_report_with r r' ds : new_report r = Ok r' -> new_report (with_dependencies r ds) = Ok (with_dependencies r' ds).
Proof.
  unfold new_report, validated. cbn [with_dependencies sp_reason sp_generated_at sp_analysis_status sp_complete sp_truncated sp_error].
  destruct (guard_not _ _ _) as [|]; cbn [mbind res_bind]; [|done]. destruct (_aware_utc _) as [t|]; cbn [mbind res_bind]; [|done].
  destruct (consistent_status _ _ _ _ _) as [|]; cbn [mbind res_bind]; [|done]. by intros [= <-].
Qed.

Lemma find_app_none {A} (p : A -> bool) l x : (forall y, y ∈ l -> p y = false) -> p x = true -> List.find p (l ++ [x]) = Some x.
Proof.
  intros Hl Hx. induction l as [|y l IH]; cbn; [by rewrite Hx|]. rewrite (Hl y) by left. apply IH. intros z Hz. apply Hl. by right.
Qed.

Lemma filter_nil_iff {A} (p : A -> bool) l : List.filter p l = [] <-> forall x, x ∈ l -> p x = false.
Proof.
  induction l as [|x l IH]; cbn [List.filter]; [split; [intros _ x Hx; by apply not_elem_of_nil in Hx|done]|].
  destruct (p x) eqn:E; [split; [done|intros H; by rewrite (H x) in E by left]|]. rewrite IH. split.
  - intros H y [->|Hy]%elem_of_cons; [done|by apply H].
  - intros H y Hy. apply H. by right.
Qed.

Section retraction.
Variable decode_other : list ascii -> res string.

(** Stored dependencies belong to stored reports, and reported sources are retracted. *)
Record consistent (w : impact_db) : Prop := {
  cs_owned : forall ws r d, (ws, r, d) ∈ db_dependencies w -> exists p, p ∈ db_reports w /\ sp_report_id p = r;
  cs_retracted : forall p s, p ∈ db_reports w -> s ∈ db_sources w ->
    is_source (sp_workspace_id p) (sp_source_id p) s = true -> so_retracted s <> None
}.

(** The tables after a retraction. *)
Definition published (c : SourceRetractionCommand) (report_id event_id correlation_id : uuid) (a : ImpactAnalysisResult)
    (report : SourceImpactReport) (w : impact_db) : impact_db :=
  with_retraction w (map (retract_row c) (db_sources w)) (db_retractions w ++ [c])
    (db_reports w ++ [report_of c report_id event_id a []])
    (db_dependencies w ++ map (fun d => (rc_workspace_id c, report_id, d)) (ia_dependencies a))
    (db_outbox w ++ [mkOutbox event_id (rc_workspace_id c) "SOURCE_RETRACTED" correlation_id (rc_actor_id c) report
                       (rc_retracted_at c)]).

Definition of_source (c : SourceRetractionCommand) (r : SourceImpactReport) : bool :=
  bool_decide (sp_workspace_id r = rc_workspace_id c) && bool_decide (sp_source_id r = rc_source_id c).

Lemma locked_source ws source_id w u :
  lock_source_for_analysis ws source_id w = Ok u -> exists s, s ∈ db_sources w /\ is_source ws source_id s = true /\ so_retracted s = None.
Proof.
  intros H%guard_not_Ok%negb_false_iff. apply existsb_exists in H as (s & Hs%list_elem_of_In & [Hi Hr]%andb_true_iff).
  exists s. split; [done|]. split; [done|]. by destruct (so_retracted s).
Qed.

Lemma retract_source_Ok c rid eid corr w w' report :
  consistent w -> retract_source decode_other c rid eid corr w = (w', Ok report) ->
  exists a, impact_of decode_other (rc_workspace_id c) (rc_source_id c) w = Ok a /\
    (forall p, p ∈ db_reports w -> of_source c p = false /\ sp_report_id p <> rid) /\
    new_report (report_of c rid eid a (ia_dependencies a)) = Ok report /\ w' = published c rid eid corr a report w.
Proof.
  intros Hc. unfold retract_source. rewrite run_get, run_lift.
  destruct (impact_of _ _ _ w) as [a|] eqn:Ha; [|done]. unfold retract_and_report at 1. rewrite run_get.
  assert (Hnone : forall p, p ∈ db_reports w -> of_source c p = false).
  { intros p Hp. apply not_true_is_false. intros [Hws%bool_decide_eq_true Hsrc%bool_decide_eq_true]%andb_true_iff.
    unfold impact_of in Ha. apply bind_Ok in Ha as (u & (s & Hs & Hi & Hn)%locked_source & _).
    rewrite <- Hws, <- Hsrc in Hi. by apply (cs_retracted _ Hc p s Hp Hs Hi). }
  fold (of_source c). destruct (find_report (of_source c) w) as [p|] eqn:Hf.
  { apply find_some in Hf as [Hin%list_elem_of_In Hp]. by rewrite Hnone in Hp. }
  unfold retract_citations. rewrite run_bind, run_get, run_lift.
  destruct (guard_not _ CitationErrorC _); [|done]. rewrite run_lift. destruct (guard_not _ _ "source_retractions"); [|done].
  rewrite run_put. cbn [mret ST_ret]. rewrite run_get, run_lift.
  destruct (guard_not _ _ "impact_reports") as [u|] eqn:Hg; [|done]. rewrite run_lift.
  destruct (new_report _) as [r|] eqn:Hr; [|done]. rewrite run_put. cbn [mret ST_ret]. intros [= <- <-].
  exists a. split; [done|]. split; [|done]. intros p Hp. split; [by apply Hnone|]. intros Hid.
  apply guard_not_Ok, orb_false_iff in Hg as [[Hg _]%orb_false_iff _]. cbn [db_reports with_retraction] in Hg.
  apply not_true_iff_false in Hg. apply Hg, existsb_exists. exists p. split; [by apply list_elem_of_In|].
  unfold report_conflict. cbn [report_of sp_report_id]. by rewrite bool_decide_true.
Qed.

Lemma retract_row_source c ws source_id s : is_source ws source_id (retract_row c s) = is_source ws source_id s.
Proof. unfold retract_row. by destruct (_ && _). Qed.

Lemma retract_row_done c s : is_source (rc_workspace_id c) (rc_source_id c) s = true -> so_retracted (retract_row c s) <> None.
Proof. unfold retract_row. intros ->. cbn [andb]. destruct (so_retracted s) eqn:E; cbn; congruence. Qed.

Lemma retract_row_kept c s : so_retracted s <> None -> so_retracted (retract_row c s) <> None.
Proof. unfold retract_row. destruct (_ && _); cbn; congruence. Qed.

Lemma published_consistent c rid eid corr a report w :
  consistent w -> consistent (published c rid eid corr a report w).
Proof.
  intros [Ho Hr]. constructor; cbn [published with_retraction db_dependencies db_reports db_sources].
  - intros ws r d [H|H]%elem_of_app.
    + destruct (Ho _ _ _ H) as (p & Hp & <-). exists p. split; [apply elem_of_app; by left|done].
    + apply list_elem_of_fmap in H as (d' & [= -> -> ->] & _). exists (report_of c rid eid a []). split; [|done].
      apply elem_of_app. right. left.
  - intros p s [Hp| ->%list_elem_of_singleton]%elem_of_app (s' & -> & Hs)%list_elem_of_fmap; rewrite retract_row_source; intros Hi.
    + apply retract_row_kept. by apply (Hr p).
    + by apply retract_row_done.
Qed.

Lemma published_locked c rid eid corr a report w :
  lock_source_for_analysis (rc_workspace_id c) (rc_source_id c) (published c rid eid corr a report w)
  = raise CitationErrorC "source does not exist or is already retracted".
Proof.
  destruct (lock_source_for_analysis _ _ _) as [u|e] eqn:H.
  - apply locked_source in H as (s & (s' & -> & Hs)%list_elem_of_fmap & Hi & Hn). rewrite retract_row_source in Hi.
    by apply retract_row_done in Hi.
  - unfold lock_source_for_analysis, guard_not in H. by destruct (negb _).
Qed.

Lemma published_report c rid eid corr a report w :
  consistent w -> (forall p, p ∈ db_reports w -> sp_report_id p <> rid) ->
  (forall d, d ∈ ia_dependencies a -> dependency_ok d) ->
  new_report (report_of c rid eid a (ia_dependencies a)) = Ok report ->
  exists ds, get_report (rc_workspace_id c) rid (published c rid eid corr a report w) = Ok (Some (with_dependencies report ds)) /\
    ds ≡ₚ ia_dependencies a.
Proof.
  intros Hc Hid Hok Hr. unfold get_report, find_report. cbn [published with_retraction db_reports].
  rewrite find_app_none.
  2: { intros p Hp. rewrite (bool_decide_false (sp_report_id p = rid)) by by apply Hid. apply andb_false_r. }
  2: { cbn [report_of sp_workspace_id sp_report_id]. by rewrite !bool_decide_true. }
  assert (Hrows : map snd (List.filter (fun '(ws, r, _) => bool_decide (ws = rc_workspace_id c) && bool_decide (r = rid))
      (db_dependencies w ++ map (fun d => (rc_workspace_id c, rid, d)) (ia_dependencies a))) = ia_dependencies a).
  { rewrite List.filter_app, map_app. rewrite (proj2 (filter_nil_iff _ _)).
    - cbn [app map]. clear. induction (ia_dependencies a) as [|d l IH]; cbn [map List.filter]; [done|].
      rewrite !bool_decide_true by done. cbn [andb map snd]. by rewrite IH.
    - intros [[ws r] d] Hin. rewrite (bool_decide_false (r = rid)); [by rewrite andb_false_r|]. intros ->.
      destruct (cs_owned _ Hc _ _ _ Hin) as (p & Hp & Hpid). by apply (Hid p). }
  unfold dependency_rows. cbn [published with_retraction db_dependencies]. rewrite Hrows.
  exists (sort_by dependency_row_before (ia_dependencies a)). split; [|apply sort_by_perm].
  rewrite mapR_dependencies by (intros d Hd%sort_by_elem; by apply Hok). cbn [mbind res_bind].
  apply (new_report_with _ _ (sort_by dependency_row_before (ia_dependencies a))) in Hr.
  change (with_dependencies (report_of c rid eid a (ia_dependencies a)) ?x) with (with_dependencies (report_of c rid eid a []) x) in Hr.
  by rewrite Hr.
Qed.

End retraction.

(** ** The published retraction *)

Lemma retracted_refused decode_other c rid eid corr w e :
  lock_source_for_analysis (rc_workspace_id c) (rc_source_id c) w = Raise e ->
  retract_source decode_other c rid eid corr w = (w, Raise e).
Proof. intros H. unfold retract_source. rewrite run_get, run_lift. unfold impact_of. by rewrite H. Qed.

(** C30. A successful retraction retracts the source and publishes its report in
    one transaction: the report can be read back with the same contents, exactly
    one event carries it, and the tables stay consistent.  Asked again, the
    repository answers with the stored report and changes nothing, but the
    service refuses every further retraction of the source. *)
Theorem retraction_is_published decode_other c report_id event_id correlation_id w w' report
    (Hc : consistent w)
    (H : retract_source decode_other c report_id event_id correlation_id w = (w', Ok report)) :
  consistent w' /\
  db_outbox w' = db_outbox w ++ [mkOutbox event_id (rc_workspace_id c) "SOURCE_RETRACTED" correlation_id (rc_actor_id c)
                                   report (rc_retracted_at c)] /\
  (exists ds, get_report (rc_workspace_id c) report_id w' = Ok (Some (with_dependencies report ds)) /\
     ds ≡ₚ sp_dependencies report /\
     forall report_id' event_id' correlation_id' a,
       retract_and_report c report_id' event_id' correlation_id' a w' = (w', Ok (with_dependencies report ds))) /\
  (forall c' report_id' event_id' correlation_id',
     rc_workspace_id c' = rc_workspace_id c -> rc_source_id c' = rc_source_id c ->
     retract_source decode_other c' report_id' event_id' correlation_id' w' =
       (w', raise CitationErrorC "source does not exist or is already retracted")).
Proof.
  destruct (retract_source_Ok decode_other c _ _ _ _ _ _ Hc H) as (a & Ha & Hfresh & Hr & ->).
  split; [by apply published_consistent|]. split; [done|]. split.
  2: { intros c' rid' eid' corr' Hws Hsrc. apply retracted_refused. rewrite Hws, Hsrc. apply published_locked. }
  destruct (published_report c report_id event_id correlation_id a report w Hc (fun p Hp => proj2 (Hfresh p Hp))
              (impact_dependencies_ok _ _ _ _ _ Ha) Hr) as (ds & Hget & Hp).
  exists ds. split; [exact Hget|]. split.
  { rewrite Hp. unfold new_report, validated in Hr.
    destruct (mbind _ _) as [r|] eqn:E; [|done]. injection Hr as ->. inv_ok. done. }
  intros rid' eid' corr' a'. unfold retract_and_report. rewrite run_get. fold (of_source c). unfold find_report at 1.
  cbn [published with_retraction db_reports]. rewrite find_app_none.
  2: { intros p Hp'. by apply Hfresh. }
  2: { unfold of_source. cbn [report_of sp_workspace_id sp_source_id]. by rewrite !bool_decide_true. }
  cbn [report_of sp_actor_id sp_reason sp_report_id]. rewrite run_lift, bool_decide_true, String.eqb_refl by done. cbn [negb orb guard_not].
  rewrite run_lift. fold (published c report_id event_id correlation_id a report w). by rewrite Hget.
Qed.
