(* ===== verification/ImpactExamples.v ===== *)
(** * The reasoning graph and source impact: concrete runs

    The theorems applied to a session with one cited evidence, and the runs that
    show behaviours a reader would not expect. *)

From S2P Require Import Prelude.
From S2P Require Import PyDecimal.
From S2P Require Import Json.
From S2P Require Import Symbolic.
From S2P Require Import ConsensusPorts.
From S2P Require Import Ledger.
From S2P Require Import Cursor.
From S2P Require Import ReasoningGraph.
From S2P Require Import GraphFacts.
From S2P Require Import SourceImpact.
From S2P Require Import ImpactPaths.
From S2P Require Import ImpactSearch.
From S2P Require Import ImpactClosure.
From S2P Require Import ImpactFacts.
From S2P Require Import ImpactReports.
From S2P Require Import RetractionFacts.
Import Graph.
Import Impact.

Module ImpactDemo.

(** No cursor holds anything but plain characters. *)
Definition codec (bytes : list ascii) : res string := raise ValueErrorC "not UTF-8".

Definition node (id : uuid) (kind : ArtifactKind) (ref : uuid) : GraphNode := mkNode id 1 2 kind ref "node" [].
Definition edge (id from to : uuid) : GraphEdge := mkEdge id 1 2 from to SUPPORTS (Some dunit) [] HUMAN 7.

(** Evidence 50 supports claim 51 and, directly and through it, alternative 52. *)
Definition diamond : graph :=
  mkGraph [node 10 EVIDENCE 50; node 11 CLAIM 51; node 12 ALTERNATIVE 52] [edge 100 10 11; edge 101 11 12; edge 102 10 12].

Definition noon : datetime := utc_datetime 1700000000000000.

Definition tables : impact_db :=
  mkImpactDb diamond [mkSource 1 80 None] [mkCitation 90 1 2 50 51 80 noon]
    [mkArtifact 50 1 2 EVIDENCE 150 1; mkArtifact 51 1 2 CLAIM 151 1; mkArtifact 52 1 2 ALTERNATIVE 152 3]
    [mkConsensus 60 1 2 (Some 52%N) []] [mkRecommendation 70 1 2 60] [(1, 7)]%N [] [] [] [].

(** ** Traversals *)

Definition query_of (depth : Z) : query := mkQuery Forward 1 2 [10%N] depth None.

Lemma traversal_is_exact_witness :
  (0 <= qu_max_depth (query_of 2))%Z /\ 12%N ∈ node_ids (query_of 2) diamond /\
  exists r k, r ∈ [10%N] /\ (k <= 2)%nat /\ nsteps (hop (query_of 2) diamond) k r 12%N.
Proof.
  assert (Hin : 12%N ∈ node_ids (query_of 2) diamond) by (vm_compute; set_solver).
  split; [done|]. split; [exact Hin|]. by apply (traversal_is_exact (query_of 2) diamond ltac:(done)).
Defined.

Lemma diamond_keys : keys_ok diamond.
Proof. split; apply (bool_decide_unpack _); vm_compute; exact I. Defined.

(** Six members on pages of four. *)
Lemma pages_cover_traversal_witness :
  exists pages,
    follow codec (fun l p => l ++ [p]) 7 (query_of 2) MAX_ALLOWED_DEPTH 4 None diamond [] = Ok pages /\
    concat (map tv_nodes pages) = node_rows (query_of 2) diamond (node_ids (query_of 2) diamond) /\
    concat (map tv_edges pages) = edge_rows (query_of 2) diamond (edge_ids (query_of 2) diamond).
Proof.
  assert (Hc : member_count (query_of 2) diamond = 6%Z) by (vm_compute; reflexivity).
  destruct (pages_cover_traversal codec (query_of 2) diamond MAX_ALLOWED_DEPTH 4 7 diamond_keys) as (pages & H & Hn & He & _);
    [done|done|rewrite Hc; vm_compute; reflexivity|rewrite Hc; vm_compute; reflexivity|]. exists pages. exact (conj H (conj Hn He)).
Defined.

(** The first page of four, its cursor, and the page that follows. *)
Definition page_of (m : res TraversalResult) : TraversalResult :=
  match m with Ok p => p | Raise _ => mkTraversal [] [] false None end.
Definition first_page : TraversalResult := page_of (trace_forward codec 1 2 10 2 None 4 None diamond).
Definition first_cursor : string := default "" (tv_next_cursor first_page).
Definition second_page : TraversalResult := page_of (trace_forward codec 1 2 10 2 None 3 (Some first_cursor) diamond).

Lemma first_page_read : _walk codec (query_of 2) MAX_ALLOWED_DEPTH 4 None diamond = Ok first_page.
Proof. vm_compute. reflexivity. Qed.

Lemma first_page_cursor : tv_next_cursor first_page = Some first_cursor.
Proof. vm_compute. reflexivity. Qed.

Lemma second_page_read : _walk codec (query_of 2) MAX_ALLOWED_DEPTH 3 (Some first_cursor) diamond = Ok second_page.
Proof. vm_compute. reflexivity. Qed.

Lemma cursors_are_bound_witness :
  _walk codec (query_of 2) MAX_ALLOWED_DEPTH 4 None diamond = Ok first_page /\
  _walk codec (query_of 2) MAX_ALLOWED_DEPTH 3 (Some first_cursor) diamond = Ok second_page /\
  (same_query (query_of 2) (query_of 2) \/ collide (fingerprint_query (query_of 2)) (fingerprint_query (query_of 2))).
Proof.
  split; [exact first_page_read|]. split; [exact second_page_read|].
  refine (cursors_are_bound codec (query_of 2) (query_of 2) diamond diamond _ _ _ _ None first_cursor first_page second_page
            _ _ _ first_page_read first_page_cursor second_page_read); vm_compute; reflexivity.
Defined.

(** Depth one reaches every node, yet the traversal counts as truncated: a longer
    simple path to a node already found was cut. *)
Example truncated_without_loss :
  node_ids (query_of 1) diamond = node_ids (query_of 12) diamond /\
  truncated (query_of 1) diamond = true /\ truncated (query_of 12) diamond = false.
Proof. vm_compute. done. Qed.

(** ** Impact *)

Lemma diamond_ok sid : graph_ok 1 sid diamond.
Proof.
  constructor; [exact diamond_keys|vm_compute; reflexivity|].
  intros e (He & _ & Hs)%session_edges_elem. cbn [diamond gd_edges] in He.
  apply elem_of_cons in He as [->|He]; [exists (node 11 CLAIM 51)|apply list_elem_of_In in He; destruct He as [<-|[<-|[]]]; exists (node 12 ALTERNATIVE 52)];
    (split; [|done]); cbn in Hs; subst sid; unfold session_node; cbn; set_solver.
Defined.

Lemma diamond_tables : tables_ok 1 tables.
Proof.
  constructor; try (apply (bool_decide_unpack _); vm_compute; exact I).
  - apply diamond_ok.
  - intros n Hn%list_elem_of_In _. destruct Hn as [<-|[<-|[<-|[]]]];
      [exists (mkArtifact 50 1 2 EVIDENCE 150 1)|exists (mkArtifact 51 1 2 CLAIM 151 1)|exists (mkArtifact 52 1 2 ALTERNATIVE 152 3)];
      cbn; set_solver.
  - intros n m Hn%list_elem_of_In Hm%list_elem_of_In _.
    destruct Hn as [<-|[<-|[<-|[]]]], Hm as [<-|[<-|[<-|[]]]]; done.
  - intros a Ha%list_elem_of_In. destruct Ha as [<-|[<-|[<-|[]]]]; done.
Defined.

Lemma root_row : session_node 1 2 diamond (node 10 EVIDENCE 50).
Proof. split; [left|split; reflexivity]. Defined.

Lemma impact_is_exact_witness :
  exists a, impact_of codec 1 80 tables = Ok a /\ ia_error a = None /\
    (exists d, d ∈ ia_dependencies a /\ id_dependency_type d = ARTIFACT /\ id_dependent_id d = 50%N).
Proof.
  destruct (impact_is_exact codec 1 80 tables diamond_tables ltac:(reflexivity)) as (a & Ha & He & Hd & _).
  exists a. split; [exact Ha|]. split; [exact He|].
  exists (artifact_dependency (mkArtifact 50 1 2 EVIDENCE 150 1)
            (node 10 EVIDENCE 50, 50%N, 0%Z, route_count (session_edges 1 2 diamond) 10 10)).
  split; [|split; reflexivity]. apply Hd. eexists _, _. split; [|split; [|reflexivity]].
  2: { split; [left|split; reflexivity]. }
  assert (Hpairs : citation_pairs 1 80 tables = [(2, 50)%N]) by (vm_compute; reflexivity).
  exists (2, 50)%N. split; [rewrite Hpairs; left|]. exists (node 10 EVIDENCE 50), (node 10 EVIDENCE 50), 0%nat.
  split; [reflexivity|]. split; [exact root_row|].
  split; [split; [constructor|intros; apply Nat.le_0_l]|reflexivity].
Defined.

Lemma downstream_is_exact_witness :
  exists a, impact_of codec 1 80 tables = Ok a /\ NoDup (map dependency_key (ia_dependencies a)).
Proof.
  destruct (downstream_is_exact codec 1 80 tables diamond_tables ltac:(reflexivity)) as (a & Ha & Hn & _).
  exists a. exact (conj Ha Hn).
Defined.

Definition artifact (id kind_id : uuid) (kind : ArtifactKind) (version depth paths : Z) : ImpactDependency :=
  mkDependency ARTIFACT id 2 50 (Some kind) (Some kind_id) (Some version) depth paths dunit.

(** The report: the alternative is one step away, over two routes. *)
Example impact_of_the_diamond :
  impact_of codec 1 80 tables =
    Ok (mkAnalysis COMPLETE true false
          [artifact 50 150 EVIDENCE 1 0 1; artifact 51 151 CLAIM 1 1 1; artifact 52 152 ALTERNATIVE 3 1 2;
           mkDependency CONSENSUS_RESULT 60 2 50 None None None 2 2 dunit;
           mkDependency RECOMMENDATION 70 2 50 None None None 3 2 dunit] None).
Proof. vm_compute. reflexivity. Qed.

(** ** Retraction *)

Definition command : SourceRetractionCommand := mkRetract 200 1 80 7 "withdrawn" noon.

Lemma tables_consistent : consistent tables.
Proof. constructor; cbn; intros; exfalso; by eapply not_elem_of_nil. Defined.

Lemma retraction_is_published_witness :
  exists report w', retract_source codec command 300 400 500 tables = (w', Ok report) /\ consistent w' /\
    retract_source codec command 301 401 501 w' =
      (w', raise CitationErrorC "source does not exist or is already retracted").
Proof.
  destruct (retract_source codec command 300 400 500 tables) as [w' [report|e]] eqn:H; [|by vm_compute in H].
  destruct (retraction_is_published codec command 300 400 500 tables w' report tables_consistent H) as (Hc & _ & _ & Hno).
  exists report, w'. split; [reflexivity|]. split; [exact Hc|]. by apply Hno.
Defined.

(** A cycle longer than one traversal: every node is found, yet the analysis is
    reported as incomplete, because the last frontier has nothing left to expand. *)
Definition ring (n : nat) : graph :=
  let id (i : nat) := (1000 + N.of_nat (i mod n))%N in
  mkGraph (map (fun i => node (id i) CLAIM (id i)) (seq 0 n))
    (map (fun i => edge (2000 + N.of_nat i) (id i) (id (S i))) (seq 0 n)).

Example complete_but_incomplete :
  match search_root codec 1 2 (node 1000 CLAIM 1000) (ring 14) with
  | Ok s => (length (se_nodes s), length (se_edges s), se_truncated s)
  | Raise _ => (0, 0, false)%nat
  end = (14, 14, true)%nat.
Proof. vm_compute. reflexivity. Qed.

End ImpactDemo.
