(* ===== verification/CoordinatorExamples.v ===== *)
(** * A concrete session under the coordinator

    A session with two bound agents and a third one available: the theorems of
    membership, of budgets and of orchestrator proposals applied to it. *)

From S2P Require Import Prelude.
From S2P Require Import PyDecimal.
From S2P Require Import Clock.
From S2P Require Import Json.
From S2P Require Import Symbolic.
From S2P Require Import ConsensusPorts.
From S2P Require Import Ledger.
From S2P Require Import Lifecycle.
From S2P Require Import LedgerExamples.
From S2P Require Import Coordinator.
From S2P Require Import Budget.
From S2P Require Import OrchestratorPolicy.

Module CoordinatorDemo.

Definition at_micros (t : Z) : datetime := utc_datetime (1700000000000000 + t).

Definition agent (id logical : uuid) (budget : dict string json) : AgentDefinition :=
  mkDefinition id 1 logical 1 "agent" "domain" DOMAIN_EXPERT [] [] [] "" "" "" "" None [] budget AGENT_ACTIVE
    None None None None.

Definition limits : dict string json := [("max_tokens", JInt 100); ("max_cost_usd", JStr "1.50")].

Definition definitions : gmap uuid AgentDefinition :=
  {[ 101%N := agent 101 1 limits; 102%N := agent 102 2 []; 103%N := agent 103 3 [] ]}.

(** Session 2 of workspace 1, in a state and a round. *)
Definition session (s : Session.state) (round : Z) : Session.lifecycle :=
  Session.mkLifecycle 1 2 s round None None (Some 90%N) (Some (at_micros 1)) (Some (at_micros 1)) None
    (at_micros 0) (at_micros 1).

Definition call (tokens : Z) (cost : dec) : call_record :=
  mkCall 500 1 (Some 2%N) (Some 101%N) None "mock" "m" tokens 0 cost 5 "stop" 0 "ref" "c" None.

Definition world_of (l : Session.lifecycle) (calls : list call_record) : world :=
  mkWorld (Session.mkStore (opened (1%N, 2%N)) {[ (1%N, 2%N) := l ]})
    {[ 2%N := mkSessionRow 1 1000 (Dec false 10 0) ]} definitions
    [mkBinding 1 2 101 (at_micros 5); mkBinding 1 2 102 (at_micros 4)] [] calls.

Lemma world_inv l calls : members_inv (world_of l calls).
Proof.
  split; cbn [world_of wd_interventions]; try by intros i ?%not_elem_of_nil.
  - apply opened_inv.
  - intros id d H. cbn [wd_definitions world_of] in H. unfold definitions in H.
    apply lookup_insert_Some in H as [[<- <-]|[_ H]]; [reflexivity|].
    apply lookup_insert_Some in H as [[<- <-]|[_ H]]; [reflexivity|].
    apply lookup_singleton_Some in H as [<- <-]. reflexivity.
Defined.

(** ** Membership *)

Definition draft : world := world_of (session Session.INITIALIZING 0) [].

Definition replace_second : MembershipIntervention :=
  mkIntervention 700 1 2 REPLACE (Some 102%N) 103 1 88 77 "better fit" (at_micros 20).

Lemma replace_valid : new_intervention replace_second = Ok replace_second.
Proof. vm_compute. reflexivity. Defined.

Lemma replace_unseen : unseen replace_second draft.
Proof. split; reflexivity. Defined.

Lemma replace_runs : is_ok (snd (apply replace_second draft)) = true.
Proof. vm_compute. reflexivity. Defined.

(** The bound agents by binding time are 102 and 101; 103 takes the first place,
    in round 1 and still in round 9. *)
Lemma intervention_takes_effect_witness :
  exists w' snap, apply replace_second draft = (w', Ok snap) /\
    member_ids (membership 1 2 1 w') = Ok [103%N; 101%N] /\ member_ids (membership 1 2 9 w') = Ok [103%N; 101%N].
Proof.
  destruct (intervention_takes_effect draft replace_second (world_inv _ _) replace_valid replace_unseen)
    as [(_ & Hn & _)|(w' & snap & Ha & _ & Hafter & _)].
  - pose proof replace_runs as Hr. rewrite Hr in Hn. discriminate Hn.
  - exists w', snap. split; [exact Ha|].
    destruct (Hafter 1%Z ltac:(vm_compute; discriminate)) as (b1 & H1 & H1').
    destruct (Hafter 9%Z ltac:(vm_compute; discriminate)) as (b9 & H9 & H9').
    vm_compute in H1, H9. injection H1 as <-. injection H9 as <-. split; [exact H1'|exact H9'].
Defined.

Lemma membership_consistent_witness : members_inv (fst (apply replace_second draft)).
Proof. apply (membership_consistent draft replace_second (world_inv _ _) replace_valid replace_unseen). Defined.

Lemma intervention_idempotent_witness :
  exists w' snap, apply replace_second draft = (w', Ok snap) /\ apply replace_second w' = (w', Ok snap).
Proof.
  destruct (apply replace_second draft) as [w' [snap|x]] eqn:Ha.
  - exists w', snap. split; [reflexivity|].
    apply (intervention_idempotent draft w' replace_second snap (world_inv _ _) replace_valid replace_unseen Ha).
  - exfalso. pose proof replace_runs as Hr. rewrite Ha in Hr. discriminate Hr.
Defined.

(** ** Budgets *)

Definition running : Session.lifecycle := session Session.RUNNING 1.
Definition within : world := world_of running [call 40 (Dec false 5 (-1))].
Definition over : world := world_of running [call 40 (Dec false 5 (-1)); call 1 (Dec false 1 0)].

Definition check : budget_check := mkCheck 1 2 [101%N; 102%N; 101%N] 800 77 88 (at_micros 30).

Lemma check_readable l calls :
  is_ok (session_usage 1 2 (world_of l calls)) = true ->
  is_ok (agent_usage 1 2 101 (world_of l calls)) = true -> is_ok (agent_usage 1 2 102 (world_of l calls)) = true ->
  checked check (world_of l calls).
Proof.
  intros Hs H1 H2. split; [exact Hs|]. split; [vm_compute; reflexivity|].
  intros a Ha. unfold check in Ha. cbn [bk_agents] in Ha.
  repeat (apply elem_of_cons in Ha as [->|Ha]; [split; [assumption|vm_compute; reflexivity]|]).
  by apply not_elem_of_nil in Ha.
Defined.

Lemma check_live calls : live check (world_of running calls) running.
Proof. split; [vm_compute; reflexivity|reflexivity]. Defined.

Lemma within_iff_under_budget_witness : ~ exhausted check within.
Proof.
  apply (within_iff_under_budget check within running).
  - apply check_live.
  - apply check_readable; vm_compute; reflexivity.
  - vm_compute. reflexivity.
Defined.

(** The agent's cost limit of 1.50 is reached exactly. *)
Lemma over_exhausted : exhausted check over.
Proof.
  right. exists 101%N, (mkUsage 41 0 (Dec false 15 (-1))), (mkCeiling 100 (Dec false 150 (-2))).
  split; [constructor|]. split; [vm_compute; reflexivity|]. split; vm_compute; reflexivity.
Defined.

Lemma exhaustion_is_final_witness :
  exists e l', enforce check over = (after_exhaustion check over e l', Ok (Exhausted l')) /\
    Session.sl_state l' = Session.FAILED /\
    enforce check (after_exhaustion check over e l') = (after_exhaustion check over e l', Ok (Exhausted l')).
Proof.
  destruct (exhaustion_is_final check over running (mkHead 1 GENESIS_HASH) (at_micros 30))
    as (b & e & l' & H1 & _ & _ & _ & _ & _ & H2 & _ & _ & _ & H3 & _).
  - apply check_live.
  - apply check_readable; vm_compute; reflexivity.
  - exact over_exhausted.
  - apply opened_inv.
  - vm_compute; discriminate.
  - reflexivity.
  - reflexivity.
  - vm_compute; reflexivity.
  - exists e, l'. split; [exact H1|]. split; [exact H2|exact H3].
Defined.

Lemma exhaustion_is_monotone_witness : exhausted check (record_call (call 7 (Dec false 0 0)) over).
Proof.
  apply exhaustion_is_monotone; [|exact over_exhausted]. split; [discriminate|]. split; [discriminate|reflexivity].
Defined.

End CoordinatorDemo.

Module ProposalDemo.
Import Proposal.

Definition proposal : OrchestratorProposal :=
  mkProposal "1.0" "orchestrator_proposal" 900 1 2 50 1 60 77 78 1 ROUTE ARGUE [101%N; 102%N] "ask both" 1.

Definition pins : CoordinatorProposalContext :=
  mkContext 1 2 88 50 1 60 77 78 1 ARGUE [102%N; 101%N; 103%N] (utc_datetime 1700000000000000) V1 1.

Lemma decision_recorded_witness :
  exists st' d, Proposal.decide proposal pins (opened (1%N, 2%N)) = (st', Ok d) /\ od_rule d = ACCEPTED_RULE /\
    Proposal.decide proposal pins st' = (st', Ok d).
Proof.
  destruct (decision_recorded proposal pins (opened (1%N, 2%N)) (mkHead 1 GENESIS_HASH))
    as (d & e & hash & H1 & _ & Hr & _ & _ & _ & H2).
  - apply opened_inv.
  - vm_compute. reflexivity.
  - reflexivity.
  - vm_compute. reflexivity.
  - eexists _, d. split; [exact H1|]. split; [|exact H2].
    destruct (evaluate_ruling proposal pins) as (r & He & Hr').
    rewrite (ruling_unique _ _ _ _ Hr Hr'). vm_compute in He. injection He as <-. reflexivity.
Defined.

End ProposalDemo.
