(* ===== verification/McpExamples.v ===== *)
(** * The tool gateway: concrete runs

    The theorems applied to runs over the session of the coordinator's example,
    and the runs that show behaviours a reader would not expect. *)

From S2P Require Import Prelude.
From S2P Require Import PyDecimal.
From S2P Require Import Json.
From S2P Require Import Symbolic.
From S2P Require Import ConsensusPorts.
From S2P Require Import Coordinator.
From S2P Require Import Mcp.
From S2P Require Import McpGateway.
From S2P Require Import McpCalls.
From S2P Require Import McpFacts.
From S2P Require Import CoordinatorExamples.
Import Mcp.
Import Gateway.
Import Calls.

Module GatewayDemo.

Definition fixture : UpstreamServerRef := mkServer "fixture" 1 "http://fixture/mcp" "sha256:00".
Definition worker : WorkloadPrincipal := mkPrincipal "reasoning-worker" "mcp-gateway" "reasoning-worker" 1700000600.

(** One token is known. *)
Definition verifier (token : string) : res WorkloadPrincipal :=
  if String.eqb token "secret" then Ok worker else raise InvalidWorkloadTokenC "unknown token".

Definition authority : ContextAuthority := session_authority CoordinatorDemo.within.
#[local] Existing Instance authority.

Definition clock : Z := 1700000000000000.

Definition context (op : uuid) : MCPCallContext :=
  mkContext "reasoning-worker" 1 2 101 1 None None op (op + 1) 1 (CoordinatorDemo.at_micros 5000000).

Definition echo (op : uuid) : ToolCall :=
  mkCall (context op) fixture "fixture.read_echo" [("value", JStr "hello")] "sha256:01" (dec_of_Z 10) None.

Definition answer (op : uuid) (value : string) : ToolResult :=
  mkToolResult op (op + 1) fixture "fixture.read_echo"
    [mkContent JSON (JObj [("fixture", JBool true); ("value", JStr value)])] "sha256:02"
    (Some "http://fixture/mcp") (CoordinatorDemo.at_micros 1) TOOL_UNTRUSTED None false 10 10 None.

Definition op : uuid := 90%N.
Definition arrival (o : uuid) : event := Arrive "secret" (echo o) clock clock.
Definition run (es : list event) : option gateway := steps verifier fixture "reasoning-worker" es idle.
Definition reached (allowed : event -> Prop) (s : gateway) : Prop :=
  reachable verifier fixture "reasoning-worker" allowed s.

Lemma run_reached allowed es s : Forall allowed es -> run es = Some s -> reached allowed s.
Proof. apply steps_reachable. constructor. Defined.

(** Two callers of one operation, one upstream call. *)
Definition two : list event := [arrival op; arrival op].
Definition two_state : gateway := default idle (run two).

Lemma two_run : run two = Some two_state.
Proof. vm_compute. reflexivity. Defined.

Example two_callers_share : (length (flights two_state), length (callers two_state)) = (1, 2)%nat.
Proof. vm_compute. reflexivity. Qed.

Lemma single_flight_witness :
  exists fl, flights two_state !! 0%nat = Some fl /\
    exists i call, callers two_state !! i = Some (mkCaller call (Awaiting 0 true)) /\ identity_of call = fl_identity fl.
Proof.
  eexists. split; [vm_compute; reflexivity|].
  refine (proj2 (single_flight verifier fixture "reasoning-worker" (fun _ => True) two_state 0 0 _ _ _ _ _ _ _ _));
    [apply (run_reached _ two); [by apply Forall_true|exact two_run]|vm_compute; reflexivity..].
Defined.

Lemma upstream_calls_are_authorized_witness :
  exists fl now token p, flights two_state !! 0%nat = Some fl /\
    authentic verifier "reasoning-worker" now token (tc_context (fl_call fl)) p /\
    effective_agent CoordinatorDemo.within (tc_context (fl_call fl)) p.
Proof.
  destruct (flights two_state !! 0%nat) as [fl|] eqn:E; [|by vm_compute in E].
  destruct (upstream_calls_are_authorized verifier fixture "reasoning-worker" (fun _ => True) two_state 0 fl)
    as (now & token & p & Hp & Ha & _);
    [apply (run_reached _ two); [by apply Forall_true|exact two_run]|exact E|].
  exists fl, now, token, p. split; [done|]. split; [exact Hp|exact Ha].
Defined.

(** The upstream call ends, and both callers resume. *)
Definition answered_two : list event := two ++ [Finish 0 (Answered (answer op "hello"))].
Definition answered_state : gateway := default idle (run answered_two).
Definition wakes : list event := [Wake 1; Wake 0].
Definition settled_state : gateway :=
  default idle (steps verifier fixture "reasoning-worker" wakes answered_state).

Lemma answered_run : run answered_two = Some answered_state.
Proof. vm_compute. reflexivity. Defined.

Lemma settled_run : run (answered_two ++ wakes) = Some settled_state.
Proof. vm_compute. reflexivity. Defined.

Lemma callers_settle_witness : (length wakes <= 2 * length (callers answered_state))%nat.
Proof.
  refine (proj1 (callers_settle verifier fixture "reasoning-worker" answered_state wakes settled_state _ _ _ _)).
  - apply (run_reached _ answered_two); [by apply Forall_true|exact answered_run].
  - intros [|[|fid]] fl; [|vm_compute; discriminate..]. intros H. eexists.
    vm_compute in H. injection H as <-. reflexivity.
  - repeat constructor.
  - vm_compute. reflexivity.
Defined.

Example both_settled : map ca_phase (callers settled_state) = [Done (Value (answer op "hello")); Done (Value (answer op "hello"))].
Proof. vm_compute. reflexivity. Qed.

Lemma answers_are_authentic_witness :
  exists call r, callers settled_state !! 0%nat = Some (mkCaller call (Done (Value r))) /\
    answered settled_state (identity_of call) r /\ result_matches call r = true.
Proof.
  eexists _, _. split; [vm_compute; reflexivity|].
  refine (proj1 (answers_are_authentic verifier fixture "reasoning-worker" (fun _ => True) settled_state _) 0%nat _ _ _).
  - apply (run_reached _ (answered_two ++ wakes)); [by apply Forall_true|exact settled_run].
  - vm_compute. reflexivity.
Defined.

Lemma one_answer_per_operation_witness :
  exists q r, callers settled_state !! 0%nat = Some (mkCaller (echo op) (Done (Value q))) /\
    callers settled_state !! 1%nat = Some (mkCaller (echo op) (Done (Value r))) /\ q = r.
Proof.
  destruct (callers settled_state !! 0%nat) as [[c [| |[q| | |]]]|] eqn:Hc; try (vm_compute in Hc; discriminate Hc).
  destruct (callers settled_state !! 1%nat) as [[d [| |[r| | |]]]|] eqn:Hd; try (vm_compute in Hd; discriminate Hd).
  assert (c = echo op) as -> by (vm_compute in Hc; injection Hc as <- _; vm_compute; reflexivity).
  assert (d = echo op) as -> by (vm_compute in Hd; injection Hd as <- _; vm_compute; reflexivity).
  exists q, r. split; [reflexivity|]. split; [reflexivity|].
  refine (proj1 (proj1 (one_answer_per_operation verifier fixture "reasoning-worker" settled_state _ _)
                   0%nat 1%nat (echo op) (echo op) q r Hc Hd eq_refl)).
  - apply (run_reached _ (answered_two ++ wakes)); [repeat constructor|exact settled_run].
  - apply Nat.leb_le. vm_compute. reflexivity.
Defined.

(** Another identity under the operation's name is refused, and a repeated call is
    answered without an upstream call. *)
Definition other_echo : ToolCall :=
  mkCall (context op) fixture "fixture.read_echo" [("value", JStr "bye")] "sha256:03" (dec_of_Z 10) None.
Example conflict_and_repetition :
  (s ← run (answered_two ++ wakes ++ [arrival op; Arrive "secret" other_echo clock clock]);
   Some (length (flights s), map ca_phase (drop 2 (callers s))))
  = Some (1%nat, [Done (Value (answer op "hello")); Done (Failed (conflict other_echo))]).
Proof. vm_compute. reflexivity. Qed.

(** Refusals: no token, an unknown one, another agent's version, no time left. *)
Definition stale_agent : ToolCall :=
  mkCall (mkContext "reasoning-worker" 1 2 101 9 None None op 91 1 (CoordinatorDemo.at_micros 5000000)) fixture
    "fixture.read_echo" [("value", JStr "hello")] "sha256:01" (dec_of_Z 10) None.
Example refusals :
  map (fun e => match run [e] with
                | Some s => match map ca_phase (callers s) with
                            | [Done (Failed (Tool f))] => inl (tf_code f)
                            | [Done (Failed (MCP f))] => inr (Some (mf_code f))
                            | _ => inr None
                            end
                | None => inr None
                end)
    [Arrive "" (echo op) clock clock; Arrive "guess" (echo op) clock clock; Arrive "secret" stale_agent clock clock;
     Arrive "secret" (echo op) clock (clock + 5000000); Arrive "secret" (echo op) (clock + 600000000) clock]
  = [inl AUTH_REQUIRED; inl AUTH_REQUIRED; inr (Some INVALID_CONTEXT); inl TOOL_TIMEOUT; inl AUTH_REQUIRED].
Proof. vm_compute. reflexivity. Qed.

(** The cancellation of the caller that started the upstream call cancels the one
    that shares it. *)
Example sharer_shares_the_cancellation :
  (s ← run (two ++ [Cancel 0; Finish 0 Cancelled; Wake 1; Close 0]); Some (map ca_phase (callers s)))
  = Some [Done (Failed (_failure TOOL_CANCELLED (echo op) "tool call cancelled"));
          Done (Failed (_failure TOOL_CANCELLED (echo op) "tool call cancelled"))].
Proof. vm_compute. reflexivity. Qed.

(** With a cancelled caller two upstream calls may answer one operation: the first
    ended before the cancellation reached it. *)
Example cancelled_operation_runs_twice :
  (s ← run (two ++ [Finish 0 (Answered (answer op "first")); Cancel 0; Close 0; arrival op;
                    Finish 1 (Answered (answer op "second")); Wake 2; Wake 1]);
   Some (drop 1 (map ca_phase (callers s))))
  = Some [Done (Value (answer op "first")); Done (Value (answer op "second"))].
Proof. vm_compute. reflexivity. Qed.

(** Initialization accepts exactly the fixture's tool. *)
Definition descriptor : ToolDescriptor :=
  mkDescriptor fixture "fixture.read_echo" "echo" fixture_schema None READ_SANE READ "sha256:00".
Definition tools_only : MCPServerCapabilities := mkCapabilities V2025_06_18 true false false false false.
Example initialized :
  (snd (initialize (Value tools_only) (Value [descriptor]) (mkSession None [])),
   snd (list_tools (Value tools_only) (Value [descriptor; descriptor]) (mkSession None [])))
  = (Value tools_only, Failed (protocol_failure "fixture tool manifest is not authorized")).
Proof. vm_compute. reflexivity. Qed.

End GatewayDemo.
