(* ===== verification/EventBus.v ===== *)
(** * The in-memory event bus

    [app/adapters/inmemory/event_bus.py] over the values of
    [app/ports/event_bus.py]: publishing with per-subject numbers, competing
    consumers within a group, replay and request/reply.  A handler is known by
    what it does with an event, return or raise; handlers that call back into the
    bus, the metrics and the log lines are not modelled.  The deliveries made are
    recorded in the state.  Subscription ids come from [uuid7] and are arguments. *)

From S2P Require Import Prelude.
From S2P Require Import Json.
From S2P Require Import Symbolic.
From S2P Require Import ConsensusPorts.

(** ** [fnmatch.fnmatchcase] *)
Module Glob.

(** A bracket expression is a list of inclusive ranges. *)
Inductive token : Type :=
| Star
| Any
| Lit (c : ascii)
| Set_ (negated : bool) (ranges : list (ascii * ascii)).

(** The body of a bracket expression: [a-c] is a range, other characters stand
    for themselves. *)
Fixpoint ranges_of (l : list ascii) : list (ascii * ascii) :=
  match l with
  | [] => []
  | lo :: l1 =>
      match l1 with
      | "-"%char :: hi :: l' => (lo, hi) :: ranges_of l'
      | _ => (lo, lo) :: ranges_of l1
      end
  end.

(** The characters before the closing bracket and those after it. *)
Fixpoint until_close (l : list ascii) : option (list ascii * list ascii) :=
  match l with
  | [] => None
  | c :: l' =>
      if Ascii.eqb c "]"%char then Some ([], l')
      else '(body, rest) ← until_close l'; Some (c :: body, rest)
  end.

(** The text after an opening bracket: a first [!] negates, and a bracket right
    after that is an ordinary character. *)
Definition bracket (l : list ascii) : option (token * list ascii) :=
  let '(negated, l1) := match l with "!"%char :: l' => (true, l') | _ => (false, l) end in
  match l1 with
  | "]"%char :: l2 =>
      '(body, rest) ← until_close l2; Some (Set_ negated (ranges_of ("]"%char :: body)), rest)
  | _ => '(body, rest) ← until_close l1; Some (Set_ negated (ranges_of body), rest)
  end.

Fixpoint tokens (fuel : nat) (l : list ascii) : list token :=
  match fuel, l with
  | O, _ | _, [] => []
  | S f, c :: l' =>
      if Ascii.eqb c "*"%char then Star :: tokens f l'
      else if Ascii.eqb c "?"%char then Any :: tokens f l'
      else if Ascii.eqb c "["%char then
        match bracket l' with
        | Some (t, rest) => t :: tokens f rest
        | None => Lit c :: tokens f l'
        end
      else Lit c :: tokens f l'
  end.

Definition char_leb (a b : ascii) : bool := (nat_of_ascii a <=? nat_of_ascii b)%nat.

Definition accepts (t : token) (c : ascii) : bool :=
  match t with
  | Star | Any => true
  | Lit d => Ascii.eqb c d
  | Set_ negated ranges => xorb negated (existsb (fun r => char_leb (fst r) c && char_leb c (snd r)) ranges)
  end.

Fixpoint matches (p : list token) : list ascii -> bool :=
  match p with
  | [] => fun s => match s with [] => true | _ => false end
  | Star :: p' =>
      fix go (s : list ascii) : bool :=
        matches p' s || match s with [] => false | _ :: s' => go s' end
  | t :: p' => fun s => match s with c :: s' => accepts t c && matches p' s' | [] => false end
  end.

Definition fnmatchcase (name pattern : string) : bool :=
  matches (tokens (String.length pattern) (chars pattern)) (chars name).

Example fnmatchcase_examples :
  map (fun np => fnmatchcase (fst np) (snd np))
    [("session.1.events", "session.*"); ("session.1", "session.?"); ("a]b", "a[]]b"); ("a-b", "a[x-]b");
     ("b", "[!a-c]"); ("d", "[!a-c]"); ("a[b", "a[b"); ("session", "session.*")]
  = [true; true; true; true; false; true; true; false].
Proof. vm_compute. reflexivity. Qed.

End Glob.

(** ** Values *)

Record EventEnvelope : Type := mkEnvelope {
  ee_event_id : string;
  ee_ledger_seq : Z;
  ee_type : string;
  ee_ts : datetime;
  ee_session_id : string;
  ee_actor_id : string;
  ee_actor_class : string;
  ee_round : option Z;
  ee_payload : dict string json;
  ee_schema_version : Z;
  ee_code_version : string
}.

(** [event.model_copy(update={"ledger_seq": seq})] *)
Definition with_seq (e : EventEnvelope) (seq : Z) : EventEnvelope :=
  mkEnvelope (ee_event_id e) seq (ee_type e) (ee_ts e) (ee_session_id e) (ee_actor_id e) (ee_actor_class e)
    (ee_round e) (ee_payload e) (ee_schema_version e) (ee_code_version e).

Record PublishAck : Type := mkAck { pa_accepted : bool; pa_ledger_seq : option Z; pa_subject : string }.

Record Subscription : Type := mkSubscription {
  sb_subscription_id : string;
  sb_subject : string;
  sb_group : string
}.

(** ** The bus *)
Section bus.

(** Handlers, what one does with an event, and responders. *)
Context {H R : Type}.
Variable invoke : H -> EventEnvelope -> res unit.
Variable respond : R -> dict string json -> option (res (dict string json)).

Definition handler_key : Type := (string * string)%type.

Record bus : Type := mkBus {
  bs_subjects : gmap string (list EventEnvelope);
  bs_sequences : gmap string Z;
  bs_handlers : dict handler_key (list (string * H));
  bs_round_robin : gmap (string * string) nat;
  bs_responders : gmap string R;
  bs_subscriptions : gmap string Subscription;
  bs_closed : bool;
  bs_delivered : list (H * EventEnvelope)
}.

Definition empty_bus : bus := mkBus ∅ ∅ [] ∅ ∅ ∅ false [].

Definition events_of (subject : string) (b : bus) : list EventEnvelope := default [] (bs_subjects b !! subject).
Definition sequence_of (subject : string) (b : bus) : Z := default 0%Z (bs_sequences b !! subject).

Definition _guard (operation : string) (b : bus) : res unit :=
  guard_not (bs_closed b) TransientPortErrorC ("event bus is closed; cannot " +:+ operation).

(** [pattern.replace(">", "*")] *)
Definition as_glob (pattern : string) : string :=
  map_chars (fun c => if Ascii.eqb c ">"%char then "*"%char else c) pattern.

Definition matching (subject : string) (b : bus) : list handler_key :=
  List.filter (fun k => Glob.fnmatchcase subject (as_glob (fst k))) (map fst (bs_handlers b)).

(** [sorted({key[1] for key in matching})] *)
Definition groups_of (keys : list handler_key) : list string := sort_by String.leb (remove_dups (map snd keys)).

Definition members_of (keys : list handler_key) (group : string) (b : bus) : list (string * H) :=
  flat_map (fun k => default [] (dict_get k (bs_handlers b)))
    (List.filter (fun k => String.eqb (snd k) group) keys).

Definition turn (subject group : string) (rr : gmap (string * string) nat) : nat :=
  default 0%nat (rr !! (subject, group)).

(** One group of [_select_deliveries]: the handlers chosen and the counters. *)
Definition select_step (subject : string) (keys : list handler_key) (b : bus)
    (acc : list H * gmap (string * string) nat) (group : string) : list H * gmap (string * string) nat :=
  let '(selected, rr) := acc in
  let members := members_of keys group b in
  let index := (turn subject group rr mod length members)%nat in
  match members !! index with
  | None => (selected, rr)
  | Some (_, h) => (selected ++ [h], <[(subject, group) := (index + 1)%nat]> rr)
  end.

Definition _select_deliveries (subject : string) (b : bus) : list H * gmap (string * string) nat :=
  let keys := matching subject b in
  foldl (select_step subject keys b) ([], bs_round_robin b) (groups_of keys).

Definition deliver (h : H) (e : EventEnvelope) (b : bus) : bus :=
  mkBus (bs_subjects b) (bs_sequences b) (bs_handlers b) (bs_round_robin b) (bs_responders b)
    (bs_subscriptions b) (bs_closed b) (bs_delivered b ++ [(h, e)]).

Definition _invoke (subject : string) (h : H) (e : EventEnvelope) : ST bus unit :=
  b ← get_st;
  _ ← put_st (deliver h e b);
  match invoke h e with
  | Ok _ => mret tt
  | Raise _ => raise_st TransientPortErrorC ("handler for '" +:+ subject +:+ "' raised")
  end.

(** Handlers in turn, and one handler on several events. *)
Fixpoint invoke_all (subject : string) (calls : list (H * EventEnvelope)) : ST bus unit :=
  match calls with
  | [] => mret tt
  | (h, e) :: calls' => _ ← _invoke subject h e; invoke_all subject calls'
  end.

Definition store_published (subject : string) (stored : EventEnvelope) (b : bus) : bus :=
  mkBus (<[subject := events_of subject b ++ [stored]]> (bs_subjects b))
    (<[subject := ee_ledger_seq stored]> (bs_sequences b)) (bs_handlers b)
    (snd (_select_deliveries subject b)) (bs_responders b) (bs_subscriptions b) (bs_closed b) (bs_delivered b).

Definition publish (subject : string) (event : EventEnvelope) : ST bus PublishAck :=
  b ← get_st;
  _ ← lift_res (_guard "publish" b);
  let seq := (sequence_of subject b + 1)%Z in
  let stored := with_seq event seq in
  _ ← put_st (store_published subject stored b);
  _ ← invoke_all subject (map (fun h => (h, stored)) (fst (_select_deliveries subject b)));
  mret (mkAck true (Some seq) subject).

Definition subscribe (subject group subscription_id : string) (h : H) (from_start : bool)
    : ST bus Subscription :=
  b ← get_st;
  _ ← lift_res (_guard "subscribe" b);
  let s := mkSubscription subscription_id subject group in
  let key := (subject, group) in
  _ ← put_st (mkBus (bs_subjects b) (bs_sequences b)
                (dict_set key (default [] (dict_get key (bs_handlers b)) ++ [(subscription_id, h)]) (bs_handlers b))
                (bs_round_robin b) (bs_responders b) (<[subscription_id := s]> (bs_subscriptions b))
                (bs_closed b) (bs_delivered b));
  _ ← invoke_all subject (map (fun e => (h, e)) (if from_start then events_of subject b else []));
  mret s.

Definition unsubscribe (subscription_id : string) : ST bus unit :=
  b ← get_st;
  match bs_subscriptions b !! subscription_id with
  | None => mret tt
  | Some s =>
      let key := (sb_subject s, sb_group s) in
      let left := List.filter (fun p => negb (String.eqb (fst p) subscription_id))
                    (default [] (dict_get key (bs_handlers b))) in
      put_st (mkBus (bs_subjects b) (bs_sequences b)
                (match left with
                 | [] => List.filter (fun kv => negb (bool_decide (fst kv = key))) (bs_handlers b)
                 | _ => dict_set key left (bs_handlers b)
                 end)
                (bs_round_robin b) (bs_responders b) (base.delete subscription_id (bs_subscriptions b))
                (bs_closed b) (bs_delivered b))
  end.

Definition read_from (subject : string) (sequence limit : Z) (b : bus) : res (list EventEnvelope) :=
  _ ← _guard "read_from" b;
  _ ← guard_not (limit <=? 0)%Z PermanentPortErrorC ("limit must be positive, got " +:+ Z_str limit);
  Ok (take (Z.to_nat limit) (List.filter (fun e => sequence <=? ee_ledger_seq e)%Z (events_of subject b))).

(** A responder answers or raises in time, or the request times out. *)
Definition request (subject : string) (message : dict string json) (b : bus) : res (dict string json) :=
  _ ← _guard "request" b;
  r ← res_of_option TransientPortErrorC ("no responder registered on subject '" +:+ subject +:+ "'")
        (bs_responders b !! subject);
  match respond r message with
  | Some answer => answer
  | None => raise TransientPortErrorC ("request on '" +:+ subject +:+ "' timed out")
  end.

Definition register_responder (subject : string) (r : R) : ST bus unit :=
  b ← get_st;
  put_st (mkBus (bs_subjects b) (bs_sequences b) (bs_handlers b) (bs_round_robin b)
            (<[subject := r]> (bs_responders b)) (bs_subscriptions b) (bs_closed b) (bs_delivered b)).

Definition close : ST bus unit :=
  b ← get_st;
  put_st (mkBus (bs_subjects b) (bs_sequences b) [] (bs_round_robin b) ∅ (bs_subscriptions b) true (bs_delivered b)).

(** ** Operations in sequence *)

Inductive op : Type :=
| Publish (subject : string) (event : EventEnvelope)
| Subscribe (subject group subscription_id : string) (h : H) (from_start : bool)
| Unsubscribe (subscription_id : string)
| RegisterResponder (subject : string) (r : R)
| Close.

Definition exec (o : op) (b : bus) : bus :=
  match o with
  | Publish subject event => fst (publish subject event b)
  | Subscribe subject group id h from_start => fst (subscribe subject group id h from_start b)
  | Unsubscribe id => fst (unsubscribe id b)
  | RegisterResponder subject r => fst (register_responder subject r b)
  | Close => fst (close b)
  end.

Inductive reachable : bus -> Prop :=
| reach_empty : reachable empty_bus
| reach_step b o : reachable b -> reachable (exec o b).

(** [b] with more deliveries recorded. *)
Definition delivered (calls : list (H * EventEnvelope)) (b : bus) : bus :=
  mkBus (bs_subjects b) (bs_sequences b) (bs_handlers b) (bs_round_robin b) (bs_responders b)
    (bs_subscriptions b) (bs_closed b) (bs_delivered b ++ calls).

(** Invocations stop at the first handler that raises, and do nothing but deliver. *)
Inductive invoked (calls : list (H * EventEnvelope)) (b : bus) : bus * res unit -> Prop :=
| all_invoked : (forall h e, (h, e) ∈ calls -> is_ok (invoke h e) = true) ->
    invoked calls b (delivered calls b, Ok tt)
| stopped_at before h e after x : calls = before ++ (h, e) :: after ->
    (forall h e, (h, e) ∈ before -> is_ok (invoke h e) = true) -> is_ok (invoke h e) = false ->
    exn_cls x = TransientPortErrorC ->
    invoked calls b (delivered (before ++ [(h, e)]) b, Raise x).

Lemma deliver_delivered h e calls b : delivered calls (deliver h e b) = delivered ((h, e) :: calls) b.
Proof. unfold delivered, deliver. cbn. by rewrite <- app_assoc. Qed.

Lemma delivered_nil b : delivered [] b = b.
Proof. unfold delivered. rewrite app_nil_r. by destruct b. Qed.

Lemma invoke_all_spec subject calls b : invoked calls b (invoke_all subject calls b).
Proof.
  revert b; induction calls as [|[h e] calls IH]; intros b; cbn [invoke_all].
  { change (invoke_all subject [] b) with (b, Ok tt). rewrite <- (delivered_nil b) at 2. constructor. by intros h e ?%not_elem_of_nil. }
  rewrite run_bind. unfold _invoke. rewrite run_get, run_put. destruct (invoke h e) as [[]|x] eqn:Hh.
  - cbn [mret ST_ret]. destruct (IH (deliver h e b)) as [Hall|before h' e' after x -> Hb Hx Hc]; rewrite deliver_delivered.
    + constructor. intros h' e' [[= -> ->]|Hin]%elem_of_cons; [by rewrite Hh|by apply Hall].
    + apply (stopped_at _ _ ((h, e) :: before) h' e' after); try done.
      intros h0 e0 [[= -> ->]|Hin]%elem_of_cons; [by rewrite Hh|by apply Hb].
  - change (deliver h e b) with (delivered ([] ++ [(h, e)]) b).
    apply (stopped_at _ _ [] h e calls); try done; [by intros h0 e0 ?%not_elem_of_nil|by rewrite Hh].
Qed.

Lemma invoke_all_frame subject calls b : exists calls', fst (invoke_all subject calls b) = delivered calls' b.
Proof. destruct (invoke_all_spec subject calls b); by eexists. Qed.

(** What publishing on an open bus leaves, whatever the handlers do. *)
Lemma publish_open subject event b :
  bs_closed b = false ->
  let stored := with_seq event (sequence_of subject b + 1) in
  let out := invoke_all subject (map (fun h => (h, stored)) (fst (_select_deliveries subject b)))
               (store_published subject stored b) in
  publish subject event b
  = (fst out, match snd out with
              | Ok _ => Ok (mkAck true (Some (sequence_of subject b + 1)%Z) subject)
              | Raise x => Raise x
              end).
Proof.
  intros Hc stored out. unfold publish. rewrite run_get, run_lift. unfold _guard. rewrite Hc. cbn [guard_not].
  rewrite run_put, run_bind. fold stored out. by destruct out as [b' [[]|x]].
Qed.

(** ** The log of a subject *)

Definition numbered (b : bus) : Prop :=
  forall subject, sequence_of subject b = Z.of_nat (length (events_of subject b)) /\
    forall i e, events_of subject b !! i = Some e -> ee_ledger_seq e = (1 + Z.of_nat i)%Z.

Lemma numbered_same b b' :
  bs_subjects b = bs_subjects b' -> bs_sequences b = bs_sequences b' -> numbered b -> numbered b'.
Proof. intros Hs Hq Hn subject. unfold sequence_of, events_of. rewrite <- Hs, <- Hq. apply Hn. Qed.

Lemma events_store_published subject subject' stored b :
  events_of subject' (store_published subject stored b)
  = if decide (subject' = subject) then events_of subject b ++ [stored] else events_of subject' b.
Proof.
  unfold events_of at 1. cbn [store_published bs_subjects]. case_decide as Hs.
  - subst. by rewrite lookup_insert_eq.
  - by rewrite lookup_insert_ne.
Qed.

Lemma store_published_numbered subject event b :
  numbered b -> numbered (store_published subject (with_seq event (sequence_of subject b + 1)) b).
Proof.
  intros Hn subject'. destruct (Hn subject) as [Hs He]. unfold sequence_of at 1. cbn [store_published bs_sequences].
  rewrite events_store_published. cbn [with_seq ee_ledger_seq]. case_decide as Hsub.
  - subst. rewrite lookup_insert_eq. cbn [default]. rewrite length_app. split; [cbn; lia|].
    intros i e [Hi|[Hi Hl]]%lookup_app_Some; [by apply He|].
    destruct (i - length (events_of subject b))%nat eqn:E; [|done]. injection Hl as <-. cbn. lia.
  - rewrite lookup_insert_ne by done. apply Hn.
Qed.

Lemma exec_numbered o b : numbered b -> numbered (exec o b).
Proof.
  intros Hn. destruct o as [subject event|subject group id h from_start|id|subject r|]; cbn [exec].
  - destruct (bs_closed b) eqn:Hc.
    + unfold publish. rewrite run_get, run_lift. unfold _guard. by rewrite Hc.
    + rewrite publish_open by done. cbn [fst].
      edestruct invoke_all_frame as (calls & ->).
      apply (numbered_same (store_published subject (with_seq event (sequence_of subject b + 1)) b)); try done.
      by apply store_published_numbered.
  - unfold subscribe. rewrite run_get, run_lift. unfold _guard, guard_not. destruct (bs_closed b); cbn [raise fst]; [done|].
    rewrite run_put, run_bind. set (b1 := mkBus _ _ _ _ _ _ _ _).
    destruct (invoke_all_frame subject (map (fun e => (h, e)) (if from_start then events_of subject b else [])) b1) as (calls & Hf).
    destruct (invoke_all _ _ b1) as [b2 [[]|x]]; cbn [fst] in Hf; subst b2; by apply (numbered_same b).
  - unfold unsubscribe. rewrite run_get. destruct (_ !! id); [|done]. by apply (numbered_same b).
  - by apply (numbered_same b).
  - by apply (numbered_same b).
Qed.

Lemma reachable_numbered b : reachable b -> numbered b.
Proof.
  induction 1 as [|b o _ IH]; [|by apply exec_numbered]. intros subject. unfold sequence_of, events_of.
  cbn [empty_bus bs_sequences bs_subjects]. rewrite !lookup_empty. split; [done|]. by intros [|i] e.
Qed.

(** Selecting from a number on is dropping what is before it. *)
Lemma filter_numbered (l : list EventEnvelope) base k :
  (forall i e, l !! i = Some e -> ee_ledger_seq e = (base + Z.of_nat i)%Z) ->
  List.filter (fun e => base + Z.of_nat k <=? ee_ledger_seq e)%Z l = drop k l.
Proof.
  revert base k; induction l as [|e l IH]; intros base k Hl; [by rewrite drop_nil|]. cbn [List.filter].
  pose proof (Hl 0%nat e eq_refl) as He.
  assert (Hl' : forall i x, l !! i = Some x -> ee_ledger_seq x = (base + 1 + Z.of_nat i)%Z).
  { intros i x Hx. rewrite (Hl (S i) x Hx). lia. }
  destruct k as [|k]; cbn [drop].
  - replace (_ <=? _)%Z with true by (symmetry; apply Z.leb_le; lia). f_equal.
    rewrite <- (drop_0 l) at 2. rewrite <- (IH (base + 1)%Z 0%nat Hl'). apply List.filter_ext_in.
    intros x Hx%list_elem_of_In. apply list_elem_of_lookup in Hx as (i & Hx). rewrite (Hl' i x Hx).
    transitivity true; [apply Z.leb_le; lia|symmetry; apply Z.leb_le; lia].
  - replace (_ <=? _)%Z with false by (symmetry; apply Z.leb_gt; lia).
    rewrite <- (IH (base + 1)%Z k Hl'). apply List.filter_ext. intros x. f_equal. lia.
Qed.

(** The log of a subject: on every reachable bus its events are numbered from 1
    without gaps; publishing appends exactly one event with the next number, even
    when handlers raise, and leaves other subjects alone; reading from a number
    returns the events from it on, in order and within the limit. *)
Theorem log_is_gapless b (Hr : reachable b) subject :
  (forall i e, events_of subject b !! i = Some e -> ee_ledger_seq e = (1 + Z.of_nat i)%Z) /\
  (bs_closed b = false ->
     (forall event subject', events_of subject' (fst (publish subject event b))
        = if decide (subject' = subject)
          then events_of subject b ++ [with_seq event (1 + Z.of_nat (length (events_of subject b)))]
          else events_of subject' b) /\
     forall from limit, (1 <= from)%Z -> (0 < limit)%Z ->
       read_from subject from limit b
       = Ok (take (Z.to_nat limit) (drop (Z.to_nat (from - 1)) (events_of subject b)))).
Proof.
  destruct (reachable_numbered b Hr subject) as [Hs He]. split; [done|]. intros Hc. split.
  - intros event subject'. rewrite publish_open by done. cbn [fst]. edestruct invoke_all_frame as (calls & ->).
    change (events_of subject' (delivered calls ?s)) with (events_of subject' s).
    rewrite events_store_published, Hs. by rewrite Z.add_comm.
  - intros from limit Hf Hl. unfold read_from, _guard. rewrite Hc. unfold guard_not. cbn [mbind res_bind].
    rewrite (proj2 (Z.leb_gt limit 0) Hl). cbn [mbind res_bind].
    rewrite <- (filter_numbered (events_of subject b) 1 (Z.to_nat (from - 1)) He).
    do 2 f_equal. apply List.filter_ext. intros e. f_equal. lia.
Qed.

(** ** Competing consumers *)

(** The member whose turn it is in a group. *)
Definition consumer (subject : string) (b : bus) (rr : gmap (string * string) nat) (group : string) : option H :=
  let members := members_of (matching subject b) group b in
  snd <$> members !! (turn subject group rr mod length members)%nat.

Lemma consumer_exists subject b rr group :
  members_of (matching subject b) group b <> [] -> is_Some (consumer subject b rr group).
Proof.
  intros Hm. unfold consumer. rewrite fmap_is_Some. apply lookup_lt_is_Some_2, Nat.mod_upper_bound.
  by destruct (members_of _ _ _).
Qed.

(** The fold takes the groups one by one and reads each counter before changing it. *)
Lemma select_fold subject b groups sel rr :
  NoDup groups ->
  let out := foldl (select_step subject (matching subject b) b) (sel, rr) groups in
  fst out = sel ++ omap (consumer subject b rr) groups /\
  forall g, turn subject g (snd out)
    = if bool_decide (g ∈ groups) && negb (is_none (consumer subject b rr g))
      then S (turn subject g rr mod length (members_of (matching subject b) g b)) else turn subject g rr.
Proof.
  revert sel rr; induction groups as [|g groups IH]; intros sel rr Hnd; cbn [foldl].
  { cbn [fst snd omap list_omap]. rewrite app_nil_r. done. }
  apply NoDup_cons in Hnd as [Hg Hnd].
  set (acc := select_step subject (matching subject b) b (sel, rr) g).
  assert (Hacc : fst acc = sel ++ omap (consumer subject b rr) [g] /\
    forall g', turn subject g' (snd acc)
      = if bool_decide (g' = g) && negb (is_none (consumer subject b rr g))
        then S (turn subject g rr mod length (members_of (matching subject b) g b)) else turn subject g' rr).
  { unfold acc, select_step, consumer, omap, list_omap.
    destruct (members_of (matching subject b) g b !! _) as [[id h]|]; cbn [fmap option_fmap option_map is_none negb fst snd].
    - split; [done|]. intros g'. rewrite andb_true_r. unfold turn at 1. case_bool_decide as Hgg.
      + subst. rewrite lookup_insert_eq. cbn. by rewrite Nat.add_1_r.
      + rewrite lookup_insert_ne by congruence. done.
    - rewrite app_nil_r. split; [done|]. intros g'. by rewrite andb_false_r. }
  destruct acc as [sel1 rr1]. cbn [fst snd] in Hacc. destruct Hacc as [Hsel Hturn].
  destruct (IH sel1 rr1 Hnd) as [H1 H2]. cbn zeta in *.
  assert (Hsame : forall g', g' <> g -> consumer subject b rr1 g' = consumer subject b rr g').
  { intros g' Hne. unfold consumer. rewrite Hturn. by rewrite bool_decide_false. }
  split.
  - rewrite H1, Hsel, <- app_assoc. f_equal. change (g :: groups) with ([g] ++ groups). rewrite omap_app. f_equal.
    apply omap_ext_in. intros x Hx. apply Hsame. by intros ->.
  - intros g'. rewrite H2. destruct (decide (g' = g)) as [->|Hne].
    + rewrite (bool_decide_false (g ∈ groups)), bool_decide_true by (done || left). cbn [andb]. rewrite Hturn.
      by rewrite bool_decide_true.
    + rewrite Hsame, Hturn by done. rewrite (bool_decide_false (g' = g)) by done. cbn [andb].
      rewrite (bool_decide_ext (g' ∈ g :: groups) (g' ∈ groups)) by (rewrite elem_of_cons; tauto). done.
Qed.

Lemma groups_of_spec keys :
  NoDup (groups_of keys) /\ forall g, g ∈ groups_of keys <-> exists pattern, (pattern, g) ∈ keys.
Proof.
  unfold groups_of. split; [rewrite sort_by_perm; apply NoDup_remove_dups|]. intros g.
  rewrite sort_by_elem, elem_of_remove_dups. change (map snd keys) with (snd <$> keys). rewrite list_elem_of_fmap. split.
  - intros ([pattern g'] & -> & Hin). by exists pattern.
  - intros (pattern & Hin). by exists (pattern, g).
Qed.

(** Whatever the handlers do, publishing makes the deliveries of a prefix of the
    calls, all of them when all return, and otherwise raises. *)
Lemma publish_calls subject event b calls :
  bs_closed b = false ->
  let seq := (sequence_of subject b + 1)%Z in
  let stored := with_seq event seq in
  calls = map (fun h => (h, stored)) (fst (_select_deliveries subject b)) ->
  exists made, fst (publish subject event b) = delivered made (store_published subject stored b) /\
    made `prefix_of` calls /\
    match snd (publish subject event b) with
    | Ok ack => ack = mkAck true (Some seq) subject /\ made = calls /\ forall h e, (h, e) ∈ calls -> is_ok (invoke h e) = true
    | Raise x => exn_cls x = TransientPortErrorC /\ exists h, (h, stored) ∈ calls /\ is_ok (invoke h stored) = false
    end.
Proof.
  intros Hc seq stored ->. rewrite publish_open by done. cbn zeta. fold seq stored. cbn [fst snd].
  set (calls := map _ _).
  destruct (invoke_all_spec subject calls (store_published subject stored b)) as [Hall|before h e after x Heq Hb Hx Hcls]; cbn [fst snd].
  - by exists calls.
  - exists (before ++ [(h, e)]). assert (Hin : (h, e) ∈ calls) by (rewrite Heq; set_solver).
    pose proof Hin as (h' & [= -> ->] & _)%list_elem_of_fmap. split; [done|]. split; [|split; [done|by exists h']].
    exists after. rewrite Heq. by rewrite <- app_assoc.
Qed.

(** C38. Competing consumers: publishing on an open bus puts the event, with the
    subject's next number, at the end of the subject's log, whatever the handlers
    do, and touches no other subject, handler, responder or subscription.  It
    chooses one member of every group that has one under a matching pattern, in
    the order of the group names, and moves the group's turn to its next member;
    it calls no handler beyond these, and answers with the event's number exactly
    when every chosen handler returns, each having got the event; if one raises,
    so does publishing, with the port's transient error. *)
Theorem competing_consumers b subject event (Hc : bs_closed b = false) :
  let keys := matching subject b in
  let rr := bs_round_robin b in
  let seq := (sequence_of subject b + 1)%Z in
  let stored := with_seq event seq in
  let calls := map (fun h => (h, stored)) (omap (consumer subject b rr) (groups_of keys)) in
  let b' := fst (publish subject event b) in
  (forall g, g ∈ groups_of keys <-> exists pattern, (pattern, g) ∈ keys) /\ NoDup (groups_of keys) /\
  (forall g, members_of keys g b <> [] -> is_Some (consumer subject b rr g)) /\
  (forall g, turn subject g (bs_round_robin b')
     = if bool_decide (g ∈ groups_of keys) && nonempty (members_of keys g b)
       then S (turn subject g rr mod length (members_of keys g b)) else turn subject g rr) /\
  exists made, made `prefix_of` calls /\
    b' = mkBus (<[subject := events_of subject b ++ [stored]]> (bs_subjects b)) (<[subject := seq]> (bs_sequences b))
           (bs_handlers b) (bs_round_robin b') (bs_responders b) (bs_subscriptions b) false (bs_delivered b ++ made) /\
    match snd (publish subject event b) with
    | Ok ack => ack = mkAck true (Some seq) subject /\ made = calls /\ forall h e, (h, e) ∈ calls -> is_ok (invoke h e) = true
    | Raise x => exn_cls x = TransientPortErrorC /\ exists h, (h, stored) ∈ calls /\ is_ok (invoke h stored) = false
    end.
Proof.
  intros keys rr seq stored calls b'. destruct (groups_of_spec keys) as [Hnd Hg].
  destruct (select_fold subject b (groups_of keys) [] rr Hnd) as [Hsel Hturn]. cbn zeta in Hsel, Hturn.
  change (foldl (select_step subject (matching subject b) b) ([], rr) (groups_of keys))
    with (_select_deliveries subject b) in Hsel, Hturn. cbn [app] in Hsel.
  destruct (publish_calls subject event b calls Hc) as (made & Hb' & Hpre & Hans); [by rewrite Hsel|].
  split; [done|]. split; [done|]. split; [apply consumer_exists|]. split.
  - intros g. unfold b'. rewrite Hb'. cbn [delivered store_published bs_round_robin]. rewrite Hturn. f_equal. unfold keys.
    unfold consumer. destruct (members_of (matching subject b) g b) as [|m ms] eqn:Hm; [done|]. rewrite <- Hm.
    replace (is_none _) with false; [by rewrite Hm|].
    destruct (consumer_exists subject b rr g) as [h Hh]; [by rewrite Hm|]. unfold consumer in Hh. by rewrite Hh.
  - exists made. split; [done|]. split; [|done]. unfold b'. rewrite Hb'. unfold delivered, store_published.
    cbn [bs_subjects bs_sequences bs_handlers bs_round_robin bs_responders bs_subscriptions bs_closed bs_delivered with_seq ee_ledger_seq].
    by rewrite Hc.
Qed.

End bus.
