(* ===== verification/AdapterExamples.v ===== *)
(** * Concrete adapters

    The theorems of the cache, the object store and the event bus applied to
    small states, and a bus on which a failing handler keeps an event from the
    groups after it. *)

From S2P Require Import Prelude.
From S2P Require Import Sha256.
From S2P Require Import Json.
From S2P Require Import Symbolic.
From S2P Require Import ConsensusPorts.
From S2P Require Import Adapters.
From S2P Require Import EventBus.

Module AdapterDemo.

(** ** Cache *)

Definition stale : Cache.cache := [("limit", Cache.mkEntry "9" 50)].

Lemma fixed_window_witness :
  snd (Cache.increments "limit" [(60, 100); (10, 200); (3600, 300)]%Z stale) = Ok [1; 2; 3]%Z.
Proof.
  destruct (Cache.fixed_window "limit" 60 100 [(10, 200); (3600, 300)]%Z stale) as (c' & H & _).
  - reflexivity.
  - intros e He. injection He as <-. vm_compute. discriminate.
  - intros t n Hin. apply elem_of_cons in Hin as [Hin|Hin]; [injection Hin as -> ->; split; reflexivity|].
    apply elem_of_cons in Hin as [Hin|Hin]; [injection Hin as -> ->; split; reflexivity|].
    apply not_elem_of_nil in Hin. contradiction.
  - rewrite H. reflexivity.
Defined.

(** ** Object store *)

Definition stored_once : gmap (string * string) ObjectStore.blob :=
  ObjectStore.exec (ObjectStore.Put "artifacts" "run/1" "payload" "text/plain" []) ∅.

Lemma stored_reachable : ObjectStore.reachable stored_once.
Proof. apply ObjectStore.reach_step, ObjectStore.reach_empty. Defined.

Lemma reads_are_content_addressed_witness :
  exists st' ref, ObjectStore.put "artifacts" "run/1" "changed" "text/plain" [] stored_once = (st', Ok ref) /\
    ObjectStore.get ref st' = Ok "changed".
Proof.
  destruct (ObjectStore.put "artifacts" "run/1" "changed" "text/plain" [] stored_once) as [st' [ref|x]] eqn:E.
  - exists st', ref. split; [reflexivity|].
    apply (proj2 (ObjectStore.reads_are_content_addressed stored_once stored_reachable) _ _ _ _ _ _ _ E).
  - exfalso. cbn in E. discriminate E.
Defined.

(** ** Event bus *)

(** Handler 13 raises, every other one returns. *)
Definition invoke (h : N) (e : EventEnvelope) : res unit :=
  if (h =? 13)%N then raise RuntimeErrorC "boom" else Ok tt.

Definition event : EventEnvelope :=
  mkEnvelope "e1" 0 "CLAIM_PROPOSED" (utc_datetime 0) "s" "a" "AGENT" None [] 1 "".

Definition one_bus (first : N) : bus (H := N) (R := unit) :=
  exec invoke (Subscribe "session.*" "audit" "sub_1" first false)
    (exec invoke (Subscribe "session.>" "view" "sub_2" 2%N false)
       (exec invoke (Subscribe "session.1" "view" "sub_3" 3%N false) empty_bus)).

Lemma one_bus_reachable first : reachable invoke (one_bus first).
Proof. repeat apply reach_step. apply reach_empty. Defined.

Definition twice (first : N) : bus (H := N) (R := unit) :=
  exec invoke (Publish "session.1" event) (exec invoke (Publish "session.1" event) (one_bus first)).

Lemma twice_reachable first : reachable invoke (twice first).
Proof. do 2 apply reach_step. apply one_bus_reachable. Defined.

Lemma log_is_gapless_witness :
  read_from "session.1" 2 10 (twice 1) = Ok (drop 1 (events_of "session.1" (twice 1))).
Proof.
  destruct (log_is_gapless invoke (twice 1) (twice_reachable 1) "session.1") as [_ H].
  destruct H as [_ H]; [vm_compute; reflexivity|].
  rewrite (H 2%Z 10%Z) by (vm_compute; congruence). vm_compute. reflexivity.
Defined.

(** Both groups get each event; the two members of the second one take turns. *)
Lemma competing_consumers_witness :
  bs_closed (one_bus 1) = false /\ is_Some (consumer "session.1" (one_bus 1) (bs_round_robin (one_bus 1)) "view") /\
  map fst (bs_delivered (twice 1)) = [1; 3; 1; 2]%N.
Proof.
  destruct (competing_consumers invoke (one_bus 1) "session.1" event) as (_ & _ & Hc & _); [vm_compute; reflexivity|].
  split; [vm_compute; reflexivity|]. split; [apply Hc; vm_compute; discriminate|vm_compute; reflexivity].
Defined.

(** A failing handler of the first group keeps the event from the second. *)
Example failing_handler_starves_later_groups :
  map fst (bs_delivered (twice 13)) = [13; 13]%N /\ length (events_of "session.1" (twice 13)) = 2%nat.
Proof. vm_compute. done. Qed.

End AdapterDemo.
